(* ===== verification/_CoqProject ===== *)
-Q . S2P
Prelude.v
Json.v
JobModels.v
Catalog.v
Leases.v
RetryConfig.v
Conditions.v
Engine.v
EngineFacts.v
Worker.v
WorkerFacts.v
SchedulerFacts.v
WorkerLife.v
Spine.v
SpineFacts.v
Durability.v
DurabilityFacts.v
ArchivePredicate.v
BundleCopy.v
BundleCopyFacts.v
JsonText.v
Copies.v
CopiesFacts.v
Scrub.v
ScrubFacts.v
BundleGroup.v
BundleGroupFacts.v
MemberName.v
Accumulator.v
FanoutMap.v
Fanout.v
Sweeper.v
AccumulatorFacts.v
BundleLife.v
NamingFacts.v
FanoutFacts.v
FlushFacts.v
FanoutMapFacts.v
SweeperFacts.v
Profiles.v
Policy.v
PolicyFacts.v
AppleDouble.v
AppleDoubleFacts.v
Staging.v
StagingFacts.v
Novelty.v
Arrangement.v
Retention.v
RetentionFs.v
Submission.v
ArrangementFacts.v
RetentionRun.v
RetentionGateFacts.v
RetentionFsFacts.v
RetentionFacts.v
CopyReconciler.v
DerivationReconciler.v
DomainFacts.v
BagIt.v
Bag.v
Receive.v
BagItFacts.v
BagFacts.v
BagWriteFacts.v
ReceiveFacts.v
Landing.v
Intake.v
IntakeFacts.v
SubmissionFacts.v
ArchiveEnqueue.v
ArchiveEnqueueFacts.v
EngineWitnesses.v
ArchiveWitnesses.v
FlushWitnesses.v
RetentionWitnesses.v
ArrangementWitnesses.v
StagingWitnesses.v
EnqueueWitnesses.v
ReceiveWitnesses.v
