(* ===== verification/Prelude.v ===== *)
(** * Sutradhara: a verification library for the archive orchestrator

    Sutradhara keeps digital assets alive on several storage backends.  Its core is a catalog of
    copies with their evidence, a job engine that runs all work as durable rows, and reconcilers
    that compare what policy wants with what the catalog shows and enqueue repairs.  The package is
    [src/src/sutradhara]; paths below are relative to it.

    ** Parts and files

    Data.  [Json] models JSON values and Python dictionaries (insertion order kept), [JsonText] the
    canonical text of [json.dumps(sort_keys=True)] with [locator_key] of [catalog/session.py],
    [JobModels] the rows of [jobs/models.py], [Catalog] the rows and enumerations of
    [catalog/models.py] and [catalog/types.py].  A table is a finite map from its primary key; a
    [Tbl] also keeps the next key.  Record fields are the columns the modelled code reads or
    writes.  [Database] is the catalog with the job tables; a transaction is a function on it, and
    an exception is [Err], which discards the changes as [session_scope] does.

    Jobs.  [Leases] ([jobs/leases.py]) is the resource manager; [RetryConfig] ([jobs/config.py])
    retry limits and jittered backoff; [Engine] ([jobs/engine.py], [jobs/attempts.py], the contexts
    of [jobs/registry.py]) submission, candidates, the guarded claim, [run_one] with its savepoint,
    retry and orphan reset; [Worker] ([jobs/worker.py]) the scheduler scan, the claim pass, the
    attempt transaction with its replay on SQLite contention and the deferred failure record.
    [WorkerLife] composes them: [worker_step] is the relation of everything the worker process and
    its clients do to the database, the jobs in flight and the leases.  [EngineFacts],
    [WorkerFacts] and [SchedulerFacts] hold the theorems.

    Reconciliation.  [Conditions] ([jobs/reconcilers/conditions.py]) is the two-axis state machine
    of a target; [Spine] ([jobs/reconcilers/spine.py], [registry.py]) discovery and processing for
    any domain, a domain being a [Reconciler] record whose promises are the class [ReconcilerLaws];
    [BundleCopy] ([jobs/reconcilers/bundle_copy.py]) is the domain of sealed bundles, [CopyReconciler]
    and [DerivationReconciler] ([jobs/reconcilers/copy.py], [derivation.py]) are those of single copies
    and of derivations; [SpineFacts] has the theorems of any domain, [BundleCopyFacts] and [DomainFacts]
    prove that the three are instances of the class and what holds of each.

    Evidence.  [Durability] ([durability.py], with the target pools of [replication.py]) says which
    copies count; [ArchivePredicate] ([archive_predicate.py]) when content is archived; [Copies]
    ([catalog/copies.py], [evidence_recorder.py]) how copies and read-backs are recorded; [Scrub]
    ([scrub.py]) how a backend's enumeration enters the catalog; [BundleGroup] ([bundle_group.py],
    [pools.py]) the identity and thresholds of bundle groups and the pool mutations.

    Bundles.  [Accumulator] ([archive_bundle.py]) is the append of members to the open bundle of a
    group, in two attempts as the code makes them, its naming ladder, claim and seal; [MemberName]
    ([member_name.py] of the receive package) the archive member names; [FanoutMap] and [Fanout]
    ([archive_fanout.py]) the manifest, the claim of a bundle, its writes to the target pools and
    the seal; [Sweeper] ([archive_sweeper.py]) the pass that flushes the bundles that are due.  [AccumulatorFacts],
    [BundleLife], [NamingFacts], [FanoutFacts], [FlushFacts], [FanoutMapFacts] and [SweeperFacts]
    hold the theorems; [BundleLife] is the step relation of everything that happens to a bundle.

    Receiving.  [BagIt] and [Bag] are the bag format of [sutradhara_receive/core.py] (canonical names,
    checksum manifests, metadata, writing and validation), [Receive] the receive of a source into a
    landing directory with its state, resumption and sentinel, [Landing] the sweep of stale receives and
    the wait for the server's markers: the path of that file without the compiled extension.  [Intake]
    ([intake.py], with [transition_device_intent_terminal] of [api/store.py]) registers or quarantines a
    landing directory.  [BagFacts], [BagWriteFacts], [ReceiveFacts] and [IntakeFacts] hold the theorems,
    [Landing] its own.

    Enqueuing.  [ArchiveEnqueue] ([archive_enqueue.py], the scan of [rem_archive_cli.py]) makes the
    batches of an intake, class by class: the scan report, the clusters it withholds and the items it
    stages; [ArchiveEnqueueFacts] has its theorems.

    From intake to submission.  [Profiles] ([jobs/reconcilers/profiles.py]) is the registry of
    prepare profiles; [Policy] ([artifactclass_policy.py]) parses a policy document and applies it
    to the catalog; [AppleDouble] and [Staging] ([staging.py]) parse resource-fork sidecars, stage
    an artifact through its transform chain and enqueue it; [Novelty] ([receive_novelty.py]) and
    [Arrangement] ([arrangement.py]) hold the editable layout of the items of intakes and its
    submission; [Submission] ([archive_submission.py]) walks a submission until every item is a
    bundle member.

    Retention.  [Retention] ([retention.py], the gate), [RetentionFs] (the file system the purge
    acts on: path resolution, renames, tombstones) and [RetentionRun] (release, commitment, purge,
    the batch run and the collection of tombstones) model the removal of landed bytes, with
    [RetentionGateFacts], [RetentionFsFacts] and [RetentionFacts].

    The files named [...Witnesses] run the theorems on concrete databases, file trees and backends
    ([EngineWitnesses], [ArchiveWitnesses], [FlushWitnesses], [RetentionWitnesses],
    [ArrangementWitnesses], [StagingWitnesses], [EnqueueWitnesses], [ReceiveWitnesses]), and hold
    examples of behaviour its authors may not intend, each at one concrete input.

    ** What the theorems show

    - Scheduling and execution: [worker_life_invariant] is the invariant of the whole worker life;
      [lease_accounting], [claim_pass_sound], [replay_records_once] and [failed_attempt_outcome] say that
      leases are counted exactly, that a pass claims each job once and only what its leases allow, that an
      attempt is recorded once through crashes, replays and deferred records, and what the retry policy
      makes of a failure.
    - Reconciliation: [conditions_well_formed], [process_single_flight] for every lawful domain,
      [copy_discovery_complete] for the copy domain, and [present_implies_evidence], by which, when no
      verification is pending, the bundle domain is at least as strict as the archive predicate;
      [suppressed_work_blocks_release] is a defect between the derivation domain and the release gate.
    - Evidence: [record_measured_sound] says what a measured read-back records, [scrub_keeps_history]
      what an enumeration may change, [write_fence_guard] what a fence leaves of the floors.
    - Bundles: [bundle_life_invariant] holds on every run of the bundle life, under the assumption
      [race_ok] on what happens between a check and the INSERT that follows it;
      [flush_copies_complete], [written_bytes_accounted], [flush_terminates] and [sweep_progress] say that
      a flush writes every target or reports its pool, what becomes of bytes that reached media, that it
      ends, and that a sweep leaves nothing due behind; [member_name_roundtrip] and
      [fingerprint_identifies_placement] are about members and groups.
    - Receiving and intake: [received_bag_valid], [valid_bag_sound] and [sweep_orphans_safe] are about the
      landing directory, [received_source_registered] and [registration_idempotent] about its
      registration, [intake_batch_complete] and [batch_obeys_scan] about the batches made of it.
    - Policy and staging: [apply_policy_sound] and [persisted_policy_hydrates] relate the catalog
      rows to the applied document; [staging_restores] inverts the transform chain on the staged
      bytes and [staged_chain_recorded] says that the rows the catalog keeps of it do so too;
      [sidecar_parse_safe] is about the AppleDouble parser.
    - Arrangements and submission: [arrangement_life_invariant] holds on every sequence of edits,
      [submit_sound] describes submission, [submission_converges] the walk of a delivery.
    - Retention: [release_gate_sound], [release_authorised] and [purge_authorised] say that landed
      bytes go only when the gate holds in the database of the transaction they go in, with witness
      answers the run obtained; [gc_completes] and [batch_brake] are about the collection and the batch.

    ** Parameters

    Code outside the package is an argument: [uniform] ([random.uniform]), [sha256_hex] ([hashlib]),
    [isoformat], the host name and version strings, job handlers and dispatch gates, the current
    tool version, storage backends, the compressor and decompressor, the signer; of the receive,
    [nfc] and [casefold] ([unicodedata], [str.casefold]), [source_read] (what a read of the source
    gives, and when it changes), [package_tar], [dumps], [json_loads] and [log_text] (texts of JSON
    and of the log), [mtime] (modification times) and [rmtree] (how a recursive removal ends); of
    the intake, [policy_updated] (the text of a policy row's update time). What the theorems assume
    of them is named: [uniform_ok], [handlers_framed] (the attempt transcript is the engine's,
    handlers create jobs with [submit] and do not rewrite the scheduling columns of existing rows),
    [ReconcilerLaws], [stat_consistent] (a read between two equal stats returns as many bytes as
    they say), the shape of hexadecimal digests, decompression inverting compression, and the
    absence of a collision on the two texts compared by [fingerprint_identifies_placement]. Clock
    readings are arguments.

    ** Bounds

    Loops are structural wherever the code loops over data: the claim pass recurs on the number of
    claims still allowed, the replay on the number of replays left ([LOCK_RETRIES], four as in the
    code), scans and passes on their lists, the append makes its two attempts, the purge refreshes
    its commitment once.  The flush loop takes the number of members plus one as its bound, which
    [flush_terminates] proves sufficient; path resolution takes [RESOLVE_STEPS], 4096 steps, the
    longest path the operating system accepts, and fails as the system does beyond it.  Integers
    are unbounded, as in Python; the fields of binary headers are read at their width; times are
    microseconds.

    ** Not modelled

    Byte streaming, storage backends, cryptography, the command line, HTTP and gRPC; the SQL layer
    beneath the session (a query is a filter of a table, in the order the code asks for); threads
    inside one transaction (workers interleave at transaction boundaries).  Virtual arrangements, the
    retention journal, archive restore, the drive cache and the restore, cache and log reconcilers are left
    out: they keep tables of their own or stream bytes, and enter the modelled code as parameters where it
    calls them.  Of the tables that are modelled, the writers left out are named where the step relations
    [bundle_step] and [cond_step] are defined.

    This file holds the results, tactics, orders and list lemmas the others share. *)

From stdpp Require Export base numbers strings list gmap sorting.

#[global] Open Scope Z_scope.

(** ** Results of fallible code

    Python code that raises is a value of [result E A]: [Err e] is the exception, [Ok a] the
    returned value.  The bind is stdpp's, so [x ← m; k] sequences calls and propagates errors. *)

Inductive result (E A : Type) : Type :=
  | Ok (a : A)
  | Err (e : E).
Arguments Ok {_ _} _.
Arguments Err {_ _} _.

#[export] Instance result_ret {E} : MRet (result E) := λ A a, Ok a.
#[export] Instance result_bind {E} : MBind (result E) := λ A B f m,
  match m with Ok a => f a | Err e => Err e end.
#[export] Instance result_fmap {E} : FMap (result E) := λ A B f m,
  match m with Ok a => Ok (f a) | Err e => Err e end.

(** [raise_if b e] is [if b: raise e]. *)
Definition raise_if {E} (b : bool) (e : E) : result E unit :=
  if b then Err e else Ok tt.

Definition is_ok {E A} (r : result E A) : bool :=
  match r with Ok _ => true | Err _ => false end.

#[export] Instance result_eq_dec {E A} `{EqDecision E, EqDecision A} : EqDecision (result E A).
Proof. solve_decision. Defined.

Lemma bind_Ok {E A B} (m : result E A) (f : A → result E B) b :
  m ≫= f = Ok b ↔ ∃ a, m = Ok a ∧ f a = Ok b.
Proof. destruct m; cbn; naive_solver. Qed.

Lemma raise_if_Ok {E} b (e : E) u : raise_if b e = Ok u ↔ b = false.
Proof. destruct b, u; cbn; naive_solver. Qed.

Lemma raise_if_Err {E} b (e e' : E) : raise_if b e = Err e' ↔ b = true ∧ e = e'.
Proof. destruct b; cbn; naive_solver. Qed.

(** Python's [x or default] on an optional value that is never falsy. *)
Definition or_else {A} (o : option A) (d : A) : A := default d o.

(** ** Automation

    [inv_ok] opens the binds of a successful run; [case_bool] splits on the first boolean
    test of the goal or of a hypothesis. *)

Create HintDb sutra.

Ltac inv_ok :=
  repeat match goal with
  | H : (_ ≫= _) = Ok _ |- _ => apply bind_Ok in H as (? & ? & H)
  | H : raise_if _ _ = Ok _ |- _ => apply raise_if_Ok in H
  | H : Ok _ = Ok _ |- _ => injection H as H; try subst
  | H : mret _ = Ok _ |- _ => injection H as H; try subst
  | H : Err _ = Ok _ |- _ => discriminate H
  | H : Ok _ = Err _ |- _ => discriminate H
  end.

Ltac case_bool :=
  match goal with
  | |- context [if ?b then _ else _] =>
      lazymatch type of b with bool => let E := fresh "Hb" in destruct b eqn:E end
  | H : context [if ?b then _ else _] |- _ =>
      lazymatch type of b with bool => let E := fresh "Hb" in destruct b eqn:E end
  end.

Ltac split_bools :=
  repeat match goal with
  | H : (_ && _)%bool = true |- _ => apply andb_true_iff in H as [? ?]
  | H : (_ || _)%bool = false |- _ => apply orb_false_iff in H as [? ?]
  | H : negb _ = true |- _ => apply negb_true_iff in H
  | H : negb _ = false |- _ => apply negb_false_iff in H
  | H : bool_decide _ = true |- _ => apply bool_decide_eq_true_1 in H
  | H : bool_decide _ = false |- _ => apply bool_decide_eq_false_1 in H
  | H : (_ <=? _)%Z = true |- _ => apply Z.leb_le in H
  | H : (_ <=? _)%Z = false |- _ => apply Z.leb_gt in H
  | H : (_ <? _)%Z = true |- _ => apply Z.ltb_lt in H
  | H : (_ <? _)%Z = false |- _ => apply Z.ltb_ge in H
  | H : (_ =? _)%Z = true |- _ => apply Z.eqb_eq in H
  | H : (_ =? _)%Z = false |- _ => apply Z.eqb_neq in H
  end.

(** A computation on a concrete input that returns [Ok]: the hypothesis [E] that it does not is
    refuted by evaluating it. *)
Ltac run_ok E := exfalso; vm_compute in E; discriminate E.

(** ** Ordered keys

    ORDER BY columns and Python's [sorted] keys: a type with a boolean total order. *)

Class Ordered (K : Type) := {
  ole : K → K → bool;
  ole_total : ∀ x y, ole x y = true ∨ ole y x = true;
  ole_trans : ∀ x y z, ole x y = true → ole y z = true → ole x z = true;
  ole_antisymm : ∀ x y, ole x y = true → ole y x = true → x = y;
}.

Lemma ole_refl {K} `{Ordered K} (x : K) : ole x x = true.
Proof. destruct (ole_total x x); done. Qed.

#[export] Hint Resolve ole_refl ole_trans ole_antisymm : sutra.

#[export, refine] Instance Z_ordered : Ordered Z := {| ole := Z.leb |}.
Proof. all: intros; rewrite ?Z.leb_le in *; lia. Defined.

(** Lexicographic order of tuples, as in Python and SQL. *)
Definition pair_le {A B} `{Ordered A, Ordered B} (p q : A * B) : bool :=
  if ole p.1 q.1 then (if ole q.1 p.1 then ole p.2 q.2 else true) else false.

#[export, refine] Instance pair_ordered {A B} `{Ordered A, Ordered B} : Ordered (A * B) :=
  {| ole := pair_le |}.
Proof.
  - intros [a b] [a' b']; unfold pair_le; cbn.
    destruct (ole a a') eqn:E1, (ole a' a) eqn:E2; auto using ole_total.
    destruct (ole_total a a'); congruence.
  - intros [a b] [a' b'] [a'' b'']; unfold pair_le; cbn.
    destruct (ole a a') eqn:E1; [|done]. destruct (ole a' a'') eqn:E2; [|done].
    rewrite (ole_trans a a' a'') by done.
    destruct (ole a'' a) eqn:E3; [|done].
    rewrite (ole_trans a' a'' a), (ole_trans a'' a a') by done.
    apply ole_trans.
  - intros [a b] [a' b']; unfold pair_le; cbn.
    destruct (ole a a') eqn:E1; [|done]. destruct (ole a' a) eqn:E2; [|done].
    intros. f_equal; eauto with sutra.
Defined.

Fixpoint list_le {A} `{Ordered A} (l k : list A) : bool :=
  match l, k with
  | [], _ => true
  | _ :: _, [] => false
  | x :: l, y :: k => if ole x y then (if ole y x then list_le l k else true) else false
  end.

#[export, refine] Instance list_ordered {A} `{Ordered A} : Ordered (list A) :=
  {| ole := list_le |}.
Proof.
  - intros l. induction l as [|x l IH]; intros [|y k]; cbn; auto.
    destruct (ole x y) eqn:E1, (ole y x) eqn:E2; auto.
    destruct (ole_total x y); congruence.
  - intros l. induction l as [|x l IH]; intros [|y k] [|z m]; cbn; try done.
    destruct (ole x y) eqn:E1; [|done]. destruct (ole y z) eqn:E2; [|done].
    rewrite (ole_trans x y z) by done.
    destruct (ole z x) eqn:E3; [|done].
    rewrite (ole_trans y z x), (ole_trans z x y) by done. apply IH.
  - intros l. induction l as [|x l IH]; intros [|y k]; cbn; try done.
    destruct (ole x y) eqn:E1; [|done]. destruct (ole y x) eqn:E2; [|done].
    intros. f_equal; eauto with sutra.
Defined.

(** Strings are compared bytewise: on UTF-8 text this is Python's codepoint order. *)
Definition string_codes (s : string) : list Z :=
  (λ c, Z.of_N (Ascii.N_of_ascii c)) <$> String.list_ascii_of_string s.

Lemma string_codes_inj s t : string_codes s = string_codes t → s = t.
Proof.
  intros H. rewrite <- (String.string_of_list_ascii_of_string s),
    <- (String.string_of_list_ascii_of_string t). f_equal.
  revert H. unfold string_codes. apply list_fmap_eq_inj.
  intros a b Hab. apply N2Z.inj in Hab.
  rewrite <- (Ascii.ascii_N_embedding a), <- (Ascii.ascii_N_embedding b). congruence.
Qed.

#[export, refine] Instance string_ordered : Ordered string :=
  {| ole := λ s t, ole (string_codes s) (string_codes t) |}.
Proof.
  - intros; apply ole_total.
  - intros x y z; apply ole_trans.
  - intros x y ??; apply string_codes_inj; eauto with sutra.
Defined.

(** ** Stable sort by key: [sorted(l, key=f)] and ORDER BY *)

Section sort_by.
Context {A K : Type} `{Ordered K} (f : A → K).

Fixpoint insert_by (x : A) (l : list A) : list A :=
  match l with
  | [] => [x]
  | y :: l' => if ole (f x) (f y) then x :: y :: l' else y :: insert_by x l'
  end.

Definition sort_by (l : list A) : list A := foldr insert_by [] l.

Definition key_sorted : list A → Prop := StronglySorted (λ x y, ole (f x) (f y) = true).

Lemma insert_by_perm x l : insert_by x l ≡ₚ x :: l.
Proof.
  induction l as [|y l IH]; cbn; [done|]. case_bool; [done|].
  rewrite IH. apply Permutation_swap.
Qed.

Lemma sort_by_perm l : sort_by l ≡ₚ l.
Proof. induction l as [|x l IH]; cbn; [done|]. by rewrite insert_by_perm, IH. Qed.

Lemma elem_of_sort_by x l : x ∈ sort_by l ↔ x ∈ l.
Proof. by rewrite sort_by_perm. Qed.

Lemma NoDup_sort_by l : NoDup (sort_by l) ↔ NoDup l.
Proof. by rewrite sort_by_perm. Qed.

Lemma insert_by_sorted x l : key_sorted l → key_sorted (insert_by x l).
Proof.
  induction 1 as [|y l Hs IH Hall]; cbn.
  - repeat constructor.
  - case_bool.
    + constructor; [by constructor|]. constructor; [done|].
      eapply Forall_impl; [exact Hall|]. cbn; eauto with sutra.
    + constructor; [done|]. rewrite insert_by_perm. constructor; [|done].
      destruct (ole_total (f x) (f y)); congruence.
Qed.

Lemma sort_by_sorted l : key_sorted (sort_by l).
Proof. induction l; cbn; [constructor|auto using insert_by_sorted]. Qed.

Lemma key_sorted_unique l k :
  key_sorted l → key_sorted k → l ≡ₚ k →
  (∀ x y, x ∈ l → y ∈ l → f x = f y → x = y) → l = k.
Proof.
  intros Hl. revert k. induction Hl as [|x l Hs IH Hall]; intros k Hk Hp Hinj.
  { by apply Permutation_nil_l in Hp. }
  destruct k as [|y k]; [by apply Permutation_nil_r in Hp|].
  inversion Hk as [|?? Hk' Hyall]; subst.
  assert (x = y) as ->.
  { assert (Hx : x ∈ y :: k) by (rewrite <- Hp; left).
    assert (Hy : y ∈ x :: l) by (rewrite Hp; left).
    apply elem_of_cons in Hx as [?|Hx]; [done|].
    apply elem_of_cons in Hy as [?|Hy]; [done|].
    rewrite Forall_forall in Hall, Hyall.
    apply Hinj; [left|by right|]. apply ole_antisymm; [by apply Hall|by apply Hyall]. }
  f_equal. apply IH; [done| |].
  - by apply Permutation_cons_inv in Hp.
  - intros; apply Hinj; set_solver.
Qed.

(** Sorting forgets the order in which the rows were produced. *)
Lemma sort_by_canonical l k :
  l ≡ₚ k → (∀ x y, x ∈ l → y ∈ l → f x = f y → x = y) → sort_by l = sort_by k.
Proof.
  intros Hp Hinj. apply key_sorted_unique; auto using sort_by_sorted.
  - by rewrite !sort_by_perm.
  - intros x y. rewrite !elem_of_sort_by. apply Hinj.
Qed.
End sort_by.

#[export] Hint Resolve sort_by_sorted : sutra.

(** ** First occurrences: [dict.fromkeys(l)] and the [seen]-set loops *)

Section dedup_by.
Context {A K : Type} `{Countable K} (f : A → K).

Fixpoint dedup_from (seen : gset K) (l : list A) : list A :=
  match l with
  | [] => []
  | x :: l => if decide (f x ∈ seen) then dedup_from seen l
              else x :: dedup_from ({[f x]} ∪ seen) l
  end.

Definition dedup_by (l : list A) : list A := dedup_from ∅ l.

Lemma dedup_from_keys seen l k :
  k ∈ f <$> dedup_from seen l ↔ k ∈ f <$> l ∧ k ∉ seen.
Proof.
  revert seen. induction l as [|x l IH]; intros seen; cbn; [set_solver|].
  case_decide; cbn; [rewrite IH; set_solver|].
  rewrite !elem_of_cons, IH. destruct (decide (k = f x)); set_solver.
Qed.

Lemma dedup_from_sub seen l x : x ∈ dedup_from seen l → x ∈ l ∧ f x ∉ seen.
Proof.
  revert seen. induction l as [|y l IH]; intros seen; cbn; [set_solver|].
  case_decide; intros Hin; [apply IH in Hin; set_solver|].
  apply elem_of_cons in Hin as [->|Hin]; [set_solver|]. apply IH in Hin. set_solver.
Qed.

Lemma NoDup_dedup_from seen l : NoDup (f <$> dedup_from seen l).
Proof.
  revert seen. induction l as [|x l IH]; intros seen; cbn; [constructor|].
  case_decide; [done|]. cbn. constructor; [|done]. rewrite dedup_from_keys. set_solver.
Qed.

Lemma elem_of_dedup_by x l : x ∈ dedup_by l → x ∈ l.
Proof. intros Hin. by apply dedup_from_sub in Hin as [? _]. Qed.

Lemma dedup_by_keys l k : k ∈ f <$> dedup_by l ↔ k ∈ f <$> l.
Proof. unfold dedup_by. rewrite dedup_from_keys. set_solver. Qed.

Lemma NoDup_dedup_by l : NoDup (f <$> dedup_by l).
Proof. apply NoDup_dedup_from. Qed.
End dedup_by.
