(* ===== verification/Json.v ===== *)
(** * JSON values and Python dictionaries

    Job parameters, resource declarations, step state, locators and storage metadata are JSON
    columns.  A Python [dict] is an association list in insertion order; reading, assignment,
    [pop] and the merge [{**a, **b}] are the operations the sources use. *)

From S2P Require Import Prelude.

Abbreviation dict A := (list (string * A)).

Section dict.
Context {A : Type}.
Implicit Types d e : dict A.

(** [d.get(k)] *)
Fixpoint dget (k : string) d : option A :=
  match d with
  | [] => None
  | (k', v) :: d => if decide (k = k') then Some v else dget k d
  end.

(** [d[k] = v]: in place for a present key, at the end for a new one *)
Fixpoint dset (k : string) (v : A) d : dict A :=
  match d with
  | [] => [(k, v)]
  | (k', v') :: d => if decide (k = k') then (k, v) :: d else (k', v') :: dset k v d
  end.

(** [d.pop(k, None)] *)
Fixpoint ddel (k : string) d : dict A :=
  match d with
  | [] => []
  | (k', v') :: d => if decide (k = k') then ddel k d else (k', v') :: ddel k d
  end.

(** [{**d, **e}] *)
Definition dmerge d e : dict A := foldl (λ acc kv, dset kv.1 kv.2 acc) d e.

Definition dkeys d : list string := d.*1.

Lemma dget_dset_eq k v d : dget k (dset k v d) = Some v.
Proof.
  induction d as [|[k' v'] d IH]; cbn; [by rewrite decide_True|].
  case_decide; subst; cbn; [by rewrite decide_True|]. by rewrite decide_False.
Qed.

Lemma dget_dset_ne k k' v d : k ≠ k' → dget k' (dset k v d) = dget k' d.
Proof.
  intros Hne. induction d as [|[k'' v'] d IH]; cbn.
  - by rewrite decide_False.
  - case_decide; subst; cbn; [by rewrite !decide_False|]. by case_decide.
Qed.

Lemma dget_ddel_eq k d : dget k (ddel k d) = None.
Proof. induction d as [|[k' v'] d IH]; cbn; [done|]. case_decide; cbn; [done|]. by rewrite decide_False. Qed.

Lemma dget_ddel_ne k k' d : k ≠ k' → dget k' (ddel k d) = dget k' d.
Proof.
  intros Hne. induction d as [|[k'' v'] d IH]; cbn; [done|].
  case_decide; subst; cbn; [by rewrite decide_False|]. by case_decide.
Qed.

Lemma dget_None k d : dget k d = None ↔ k ∉ dkeys d.
Proof.
  induction d as [|[k' v'] d IH]; cbn; [set_solver|].
  case_decide; subst; [set_solver|]. rewrite IH. set_solver.
Qed.

Lemma dget_Some_elem k v d : dget k d = Some v → (k, v) ∈ d.
Proof.
  induction d as [|[k' v'] d IH]; cbn; [done|].
  case_decide; [intros; simplify_eq; left|intros; right; auto].
Qed.

Lemma elem_dget k v d : NoDup (dkeys d) → (k, v) ∈ d → dget k d = Some v.
Proof.
  induction d as [|[k' v'] d IH]; cbn; [set_solver|].
  intros [Hnk Hnd]%NoDup_cons [Heq|Hin]%elem_of_cons; [simplify_eq; by rewrite decide_True|].
  rewrite decide_False; [auto|]. intros ->. apply Hnk.
  apply list_elem_of_fmap. by exists (k', v).
Qed.

Lemma dkeys_dset k v d :
  dkeys (dset k v d) = dkeys d ∨ (k ∉ dkeys d ∧ dkeys (dset k v d) = dkeys d ++ [k]).
Proof.
  unfold dkeys. induction d as [|[k' v'] d IH]; cbn; [right; set_solver|].
  case_decide; subst; cbn; [by left|].
  destruct IH as [IH|[? IH]]; rewrite IH; [by left|right]. set_solver.
Qed.

Lemma NoDup_dset k v d : NoDup (dkeys d) → NoDup (dkeys (dset k v d)).
Proof.
  intros. destruct (dkeys_dset k v d) as [->|[? ->]]; [done|].
  apply NoDup_app; split; [done|]. split; [set_solver|apply NoDup_singleton].
Qed.

Lemma dget_foldl_dset k d e :
  NoDup (dkeys e) →
  dget k (foldl (λ acc kv, dset kv.1 kv.2 acc) d e) =
    match dget k e with Some v => Some v | None => dget k d end.
Proof.
  revert d. induction e as [|[k' v'] e IH]; intros d; cbn; [done|].
  intros [Hnk Hnd]%NoDup_cons. rewrite IH by done.
  case_decide; subst.
  - assert (dget k' e = None) as -> by by apply dget_None. apply dget_dset_eq.
  - destruct (dget k e); [done|]. by apply dget_dset_ne.
Qed.

(** The right operand of a merge wins; keys it lacks keep the left value. *)
Lemma dget_dmerge k d e :
  NoDup (dkeys e) →
  dget k (dmerge d e) = match dget k e with Some v => Some v | None => dget k d end.
Proof. apply dget_foldl_dset. Qed.
End dict.

#[export] Hint Rewrite @dget_dset_eq @dget_ddel_eq : sutra.

Inductive json :=
  | JNull
  | JBool (b : bool)
  | JInt (n : Z)
  | JStr (s : string)
  | JBytes (hex : string)
  | JList (l : list json)
  | JObj (d : list (string * json)).

(** [dict(x or {})] and [list(x or [])] on a JSON member that may be absent. *)
Definition as_obj (j : option json) : dict json :=
  match j with Some (JObj d) => d | _ => [] end.

Definition as_list (j : option json) : list json :=
  match j with Some (JList l) => l | _ => [] end.
