(* ===== verification/JobModels.v ===== *)
(** * The job tables

    [jobs/models.py]: the job row, the append-only attempt transcript, the durable reconciliation
    condition and its component snapshot.  Each table is a finite map from its primary key; the
    unique constraint [(domain, target_key)] of the condition table is the key of its map.
    Times are microseconds since the epoch, the resolution of the stored timestamps. *)

From S2P Require Import Prelude Json.

Abbreviation time := Z (only parsing).

Inductive JobStatus := PENDING | QUEUED | RUNNING | SUCCEEDED | FAILED | CANCELLED.

#[export] Instance JobStatus_eq_dec : EqDecision JobStatus.
Proof. solve_decision. Defined.

Definition TERMINAL_STATUSES : list JobStatus := [SUCCEEDED; FAILED; CANCELLED].
Definition LIVE_JOB_STATUSES : list JobStatus := [PENDING; RUNNING; QUEUED].

Definition terminal (s : JobStatus) : bool := bool_decide (s ∈ TERMINAL_STATUSES).
Definition live (s : JobStatus) : bool := bool_decide (s ∈ LIVE_JOB_STATUSES).

Lemma live_terminal s : live s = negb (terminal s).
Proof. by destruct s. Qed.

Record Job := {
  kind : string;
  params : dict json;
  required_resources : list json;
  prerequisites : list Z;
  status : JobStatus;
  step_state : dict json;
  attempts : Z;
  not_before : time;
  priority : Z;
  dedupe_key : option string;
  recon_domain : option string;
  recon_target_key : option string;
  last_error : option string;
  created_at : time;
  started_at : option time;
  finished_at : option time;
}.

Record JobAttempt := {
  at_job_id : Z;
  at_job_kind : string;
  at_number : Z;
  at_outcome : JobStatus;
  at_error : option string;
  at_started_at : time;
  at_finished_at : time;
  at_granted_leases : dict Z;
  at_worker_id : string;
  at_code_version : string;
  at_detail : dict json;
}.

(** [CONDITION_*] of [reconcilers/conditions.py]. *)
Inductive Condition := OPEN | BACKOFF | BLOCKED | SUPPRESSED | SATISFIED.

#[export] Instance Condition_eq_dec : EqDecision Condition.
Proof. solve_decision. Defined.

Record ReconciliationCondition := {
  rc_id : Z;
  rc_observed_state : string;
  rc_condition : Condition;
  rc_reason : option string;
  rc_message : option string;
  rc_attempt_count : Z;
  rc_next_eligible_at : option time;
  rc_blocked_tool : option (string * string);
  rc_last_attempt_id : option Z;
  rc_last_attempt_at : option time;
  rc_last_success_at : option time;
  rc_updated_at : time;
}.

Abbreviation cond_key := (string * string)%type.

Record JobDB := {
  job_tbl : gmap Z Job;
  next_job_id : Z;
  attempt_tbl : gmap Z JobAttempt;
  next_attempt_id : Z;
  cond_tbl : gmap cond_key ReconciliationCondition;
  next_cond_id : Z;
  component_tbl : list (Z * string);
}.

Definition empty_jobdb : JobDB := {|
  job_tbl := ∅; next_job_id := 1; attempt_tbl := ∅; next_attempt_id := 1;
  cond_tbl := ∅; next_cond_id := 1; component_tbl := [];
|}.

(** ** Table updates *)

Definition with_jobs (m : gmap Z Job) (db : JobDB) : JobDB := {|
  job_tbl := m; next_job_id := next_job_id db;
  attempt_tbl := attempt_tbl db; next_attempt_id := next_attempt_id db;
  cond_tbl := cond_tbl db; next_cond_id := next_cond_id db;
  component_tbl := component_tbl db;
|}.

(** UPDATE of one row. *)
Definition put_job (id : Z) (j : Job) (db : JobDB) : JobDB :=
  with_jobs (<[id := j]> (job_tbl db)) db.

(** INSERT with the next primary key. *)
Definition insert_job (j : Job) (db : JobDB) : JobDB * Z :=
  ({| job_tbl := <[next_job_id db := j]> (job_tbl db); next_job_id := next_job_id db + 1;
      attempt_tbl := attempt_tbl db; next_attempt_id := next_attempt_id db;
      cond_tbl := cond_tbl db; next_cond_id := next_cond_id db;
      component_tbl := component_tbl db |}, next_job_id db).

Definition insert_attempt (a : JobAttempt) (db : JobDB) : JobDB * Z :=
  ({| job_tbl := job_tbl db; next_job_id := next_job_id db;
      attempt_tbl := <[next_attempt_id db := a]> (attempt_tbl db);
      next_attempt_id := next_attempt_id db + 1;
      cond_tbl := cond_tbl db; next_cond_id := next_cond_id db;
      component_tbl := component_tbl db |}, next_attempt_id db).

Definition put_cond (k : cond_key) (c : ReconciliationCondition) (db : JobDB) : JobDB := {|
  job_tbl := job_tbl db; next_job_id := next_job_id db;
  attempt_tbl := attempt_tbl db; next_attempt_id := next_attempt_id db;
  cond_tbl := <[k := c]> (cond_tbl db); next_cond_id := next_cond_id db;
  component_tbl := component_tbl db;
|}.

Definition bump_cond_id (db : JobDB) : JobDB := {|
  job_tbl := job_tbl db; next_job_id := next_job_id db;
  attempt_tbl := attempt_tbl db; next_attempt_id := next_attempt_id db;
  cond_tbl := cond_tbl db; next_cond_id := next_cond_id db + 1;
  component_tbl := component_tbl db;
|}.

Definition with_components (l : list (Z * string)) (db : JobDB) : JobDB := {|
  job_tbl := job_tbl db; next_job_id := next_job_id db;
  attempt_tbl := attempt_tbl db; next_attempt_id := next_attempt_id db;
  cond_tbl := cond_tbl db; next_cond_id := next_cond_id db;
  component_tbl := l;
|}.

(** Every allocated key is below its counter. *)
Record jobdb_ids_ok (db : JobDB) : Prop := {
  ids_jobs : ∀ i j, job_tbl db !! i = Some j → i < next_job_id db;
  ids_attempts : ∀ i a, attempt_tbl db !! i = Some a → i < next_attempt_id db;
}.

Lemma ids_fresh_job db : jobdb_ids_ok db → job_tbl db !! next_job_id db = None.
Proof.
  intros [H _]. destruct (_ !! next_job_id db) eqn:E; [|done]. apply H in E. lia.
Qed.

Lemma ids_fresh_attempt db : jobdb_ids_ok db → attempt_tbl db !! next_attempt_id db = None.
Proof.
  intros [_ H]. destruct (_ !! next_attempt_id db) eqn:E; [|done]. apply H in E. lia.
Qed.

(** ** Rows as the queries return them *)

Definition job_rows (db : JobDB) : list (Z * Job) := map_to_list (job_tbl db).
Definition attempt_rows (db : JobDB) : list (Z * JobAttempt) := map_to_list (attempt_tbl db).
Definition cond_rows (db : JobDB) : list (cond_key * ReconciliationCondition) :=
  map_to_list (cond_tbl db).

Lemma elem_of_job_rows db i j : (i, j) ∈ job_rows db ↔ job_tbl db !! i = Some j.
Proof. apply elem_of_map_to_list. Qed.

Lemma elem_of_attempt_rows db i a : (i, a) ∈ attempt_rows db ↔ attempt_tbl db !! i = Some a.
Proof. apply elem_of_map_to_list. Qed.

Lemma elem_of_cond_rows db k c : (k, c) ∈ cond_rows db ↔ cond_tbl db !! k = Some c.
Proof. apply elem_of_map_to_list. Qed.

(** ** The live-only partial unique index [uq_job_dedupe_key_live] *)

Definition dedupe_unique (db : JobDB) : Prop :=
  ∀ i i' j j' k,
    job_tbl db !! i = Some j → job_tbl db !! i' = Some j' →
    dedupe_key j = Some k → dedupe_key j' = Some k →
    live (status j) = true → live (status j') = true → i = i'.
