(* ===== verification/Catalog.v ===== *)
(** * The catalog tables and the database

    [catalog/types.py] and [catalog/models.py]: the enumerations, the rows the modelled code reads
    or writes, and the one database that the catalog and the job engine share.  A Python [str] is a
    Rocq [string] of code points below 256, and [bytes] are strings too; a primary key is the key of
    its table's map. *)

From S2P Require Import Prelude Json JobModels.

Abbreviation bytes := string (only parsing).

Definition CONTENT_HASH_LEN : nat := 32.

Definition is_content_hash (value : bytes) : bool :=
  Nat.eqb (String.length value) CONTENT_HASH_LEN.

(** [content_hash] raises [ValueError] on any other length. *)
Definition content_hash (value : bytes) : option bytes :=
  if is_content_hash value then Some value else None.

Inductive BackendKind :=
  REM_TAPE | D2_TAPE | REM_DISK | PLAIN_DISK | SSH_DISK | S3 | GCS | AZURE_BLOB | MEMORY.

#[export] Instance BackendKind_eq_dec : EqDecision BackendKind.
Proof. solve_decision. Defined.

Definition implementation_family_for_kind (k : BackendKind) : string :=
  match k with
  | REM_TAPE => "tape"
  | D2_TAPE => "d2tape"
  | REM_DISK | PLAIN_DISK | SSH_DISK => "disk"
  | S3 | GCS | AZURE_BLOB => "cloud"
  | MEMORY => "memory"
  end.

Inductive CopyHealth := HEALTH_OK | SUSPECT | CORRUPT | MISSING.

#[export] Instance CopyHealth_eq_dec : EqDecision CopyHealth.
Proof. solve_decision. Defined.

Inductive CopySource := INGEST | SCRUB | MANUAL_IMPORT.

#[export] Instance CopySource_eq_dec : EqDecision CopySource.
Proof. solve_decision. Defined.

Inductive IntegrityHashProvenance := LOCALLY_COMPUTED | BACKEND_DISCOVERED.

#[export] Instance IntegrityHashProvenance_eq_dec : EqDecision IntegrityHashProvenance.
Proof. solve_decision. Defined.

Inductive IntakeStatus := RECEIVING | VERIFYING | QUARANTINED | REGISTERED.

#[export] Instance IntakeStatus_eq_dec : EqDecision IntakeStatus.
Proof. solve_decision. Defined.

Inductive RetentionState := HELD | RELEASED | TOMBSTONED | ABANDONED | PURGED.

#[export] Instance RetentionState_eq_dec : EqDecision RetentionState.
Proof. solve_decision. Defined.

(** ** Rows *)

Record LogicalAsset := {
  la_size_bytes : Z;
  la_first_seen_at : time;
}.

Record Backend := {
  be_name : string;
  be_kind : BackendKind;
  be_implementation_family : string;
}.

Record Pool := {
  pl_backend_id : Z;
  pl_representation : string;
  pl_location : string;
  pl_offsite_gate : bool;
  pl_tier : string;
  pl_accepts_writes : bool;
  pl_retired : bool;
  pl_min_object_bytes : option Z;
}.

(** Unique on [(artifactclass, pool_id)], which is the key of the table. *)
Record ArtifactClassPool := {
  acp_id : Z;
  acp_role : option string;
  acp_active : bool;
  acp_sort_order : Z;
}.

Record ArtifactClassPolicyRecord := {
  pr_bundle_group : option string;
  pr_target_bytes : Z;
  pr_max_age_seconds : Z;
  pr_min_copies : Z;
  pr_min_impl_families : Z;
  pr_ruleset : string;
  pr_expect : string;
  pr_restore_preference : list string;
  pr_staging_config : dict json;
  pr_hdcache_config : dict json;
  pr_policy_source : option string;
  pr_policy_sha256 : option string;
}.

Record Bundle := {
  bu_bundle_group : string;
  bu_group_basis : json;
  bu_status : string;
  bu_total_bytes : Z;
  bu_member_count : Z;
  bu_target_bytes : Z;
  bu_max_age_seconds : Z;
  bu_archive_id : option string;
  bu_claimed_by : option string;
  bu_opened_at : time;
  bu_flushed_at : option time;
  bu_sealed_at : option time;
  bu_held_at : option time;
  bu_review_summary : option (dict json);
  bu_scan_summary : option (dict json);
  bu_customer_manifest_path : option string;
}.

Record BundleMember := {
  bm_bundle_id : string;
  bm_logical_asset_hash : bytes;
  bm_artifactclass : string;
  bm_member_path : string;
  bm_source_path : option string;
  bm_size_bytes : Z;
  bm_file_sha256 : bytes;
  bm_source_metadata : option (dict json);
}.

Record StagingTransform := {
  tr_bundle_member_id : Z;
  tr_bundle_id : string;
  tr_logical_asset_hash : bytes;
  tr_artifactclass : string;
  tr_step_order : Z;
  tr_kind : string;
  tr_reversible : bool;
  tr_original_member_path : string;
  tr_stored_member_path : string;
  tr_original_size_bytes : Z;
  tr_stored_size_bytes : Z;
  tr_original_sha256 : bytes;
  tr_stored_sha256 : bytes;
  tr_parameters : dict json;
  tr_result : dict json;
}.

Record Copy := {
  cp_logical_asset_hash : option bytes;
  cp_bundle_id : option string;
  cp_backend_id : Z;
  cp_pool_id : option string;
  cp_native_locator : dict json;
  cp_native_locator_key : string;
  cp_storage_metadata : dict json;
  cp_integrity_hash : bytes;
  cp_integrity_hash_provenance : IntegrityHashProvenance;
  cp_health : CopyHealth;
  cp_last_checked_at : option time;
  cp_last_measured_digest : option bytes;
  cp_last_measured_at : option time;
  cp_deleted_at : option time;
  cp_first_observed_at : time;
  cp_source : CopySource;
}.

Record AssetLocator := {
  al_logical_asset_hash : bytes;
  al_pool_id : string;
  al_copy_id : option Z;
  al_bundle_id : option string;
  al_member_path : string;
  al_representation : string;
  al_native_locator : dict json;
}.

Record BlobRoot := {
  br_bundle_id : string;
  br_copy_id : Z;
  br_pool_id : string;
  br_root_path : string;
  br_native_locator : dict json;
  br_archive_id : option string;
}.

Record VerifyReceipt := {
  vr_copy_id : Z;
  vr_backend_id : Z;
  vr_expected_digest : bytes;
  vr_measured_digest : option bytes;
  vr_backend_ok : bool;
  vr_failure_kind : option string;
  vr_failure_detail : option string;
  vr_source : string;
  vr_execution_id : string;
  vr_producer_process : string;
  vr_actor : option string;
  vr_at : time;
}.

Record Intake := {
  in_artifactclass : string;
  in_status : IntakeStatus;
  in_retention_state : RetentionState;
  in_released_at : option time;
  in_staging_deleted_at : option time;
  in_manifest_path : option string;
  in_manifest_digest : option string;
  in_requested_profile : option string;
  in_release_policy_fingerprint : option string;
  in_staging_tombstoned_at : option time;
  in_staging_tombstone_path : option string;
}.

Inductive IngestDisposition := NEW | KNOWN_DURABLE | KNOWN_UNDER_DURABLE | REVERIFIED | LEGACY_UNKNOWN.

#[export] Instance IngestDisposition_eq_dec : EqDecision IngestDisposition.
Proof. solve_decision. Defined.

Record IngestItem := {
  ii_intake_id : string;
  ii_logical_asset_hash : bytes;
  ii_artifactclass : string;
  ii_size_bytes : Z;
  ii_as_received_path : string;
  ii_item_metadata : dict json;
  ii_disposition : IngestDisposition;
}.

(** Unique on [(derived_item_id, source_item_id, kind)]. *)
Record AssetDerivation := {
  ad_derived_item_id : Z;
  ad_source_item_id : Z;
  ad_kind : string;
}.

Inductive ArrangementStatus := DRAFT | PENDING_DERIVATIVES | READY | SUBMITTED | ARR_ABANDONED.

#[export] Instance ArrangementStatus_eq_dec : EqDecision ArrangementStatus.
Proof. solve_decision. Defined.

Record Arrangement := {
  ar_label : string;
  ar_intake_id : string;
  ar_artifactclass : string;
  ar_status : ArrangementStatus;
  ar_submission_id : option string;
  ar_cloned_from : option Z;
  ar_updated_at : time;
  ar_submitted_at : option time;
}.

(** Unique on [(arrangement_id, member_path)] among the rows not excluded. *)
Record ArrangementMember := {
  am_arrangement_id : Z;
  am_ingest_item_id : Z;
  am_member_path : string;
  am_excluded : bool;
  am_updated_at : time;
}.

Inductive SubmissionStatus := PENDING_ARCHIVE | ACCUMULATED | ARCHIVED.

#[export] Instance SubmissionStatus_eq_dec : EqDecision SubmissionStatus.
Proof. solve_decision. Defined.

(** Unique on [arrangement_id]. *)
Record Submission := {
  su_arrangement_id : Z;
  su_artifactclass : string;
  su_source_map_path : string;
  su_manifest_digest : string;
  su_member_count : Z;
  su_status : SubmissionStatus;
  su_archived_at : option time;
  su_submitted_by : string;
  su_submitted_at : time;
}.

Record OffsiteConfirmation := {
  oc_confirmed_at : time;
  oc_confirmed_by : string;
  oc_shipment_id : option string;
  oc_revoked_at : option time;
  oc_revoked_by : option string;
}.

Record RetentionEvent := {
  re_intake_id : option string;
  re_subject_type : string;
  re_subject_id : string;
  re_action : string;
  re_operation_id : string;
  re_actor : string;
  re_at : time;
  re_detail : dict json;
  re_supersedes_source : option string;
  re_supersedes_event_id : option Z;
}.

Record SubmissionMember := {
  sm_submission_id : string;
  sm_sha256 : bytes;
  sm_size_bytes : Z;
  sm_archive_path : string;
  sm_ingest_item_id : option Z;
  sm_source_path : string;
  sm_ord : Z;
}.

Record ExclusionRecord := {
  ex_bundle_id : option string;
  ex_artifactclass : string;
  ex_logical_asset_hash : option bytes;
  ex_path : option string;
  ex_reason : string;
  ex_count : Z;
  ex_bytes_total : Z;
  ex_ruleset_name : option string;
  ex_ruleset_hash : option string;
  ex_detail : option (dict json);
}.

Record VirtualArrangementMember := {
  vm_logical_asset_hash : bytes;
  vm_artifactclass : string;
  vm_excluded : bool;
}.

(** ** Tables with an allocated integer key *)

Record Tbl (V : Type) := { t_rows : gmap Z V; t_next : Z }.
Arguments t_rows {_} _.
Arguments t_next {_} _.

Definition tbl_empty {V} : Tbl V := {| t_rows := ∅; t_next := 1 |}.

Definition tbl_insert {V} (v : V) (t : Tbl V) : Tbl V * Z :=
  ({| t_rows := <[t_next t := v]> (t_rows t); t_next := t_next t + 1 |}, t_next t).

Definition tbl_put {V} (k : Z) (v : V) (t : Tbl V) : Tbl V :=
  {| t_rows := <[k := v]> (t_rows t); t_next := t_next t |}.

Definition tbl_ok {V} (t : Tbl V) : Prop := ∀ k v, t_rows t !! k = Some v → k < t_next t.

Lemma tbl_fresh {V} (t : Tbl V) : tbl_ok t → t_rows t !! t_next t = None.
Proof. intros H. destruct (_ !! t_next t) eqn:E; [|done]. apply H in E. lia. Qed.

Lemma tbl_put_ok {V} k (v v' : V) t : t_rows t !! k = Some v' → tbl_ok t → tbl_ok (tbl_put k v t).
Proof. intros Hk Hok i w. cbn. rewrite lookup_insert. case_decide; naive_solver. Qed.

Lemma tbl_insert_ok {V} (v : V) t : tbl_ok t → tbl_ok (tbl_insert v t).1.
Proof.
  intros Hok i w. cbn. rewrite lookup_insert. case_decide; intros; simplify_eq; [lia|].
  specialize (Hok _ _ H0). lia.
Qed.

(** Rows of a table in primary-key order: a SELECT with ORDER BY id. *)
Definition tbl_list {V} (t : Tbl V) : list (Z * V) := sort_by fst (map_to_list (t_rows t)).

Lemma elem_of_tbl_list {V} (t : Tbl V) i v : (i, v) ∈ tbl_list t ↔ t_rows t !! i = Some v.
Proof. unfold tbl_list. rewrite elem_of_sort_by. apply elem_of_map_to_list. Qed.

Lemma NoDup_tbl_list {V} (t : Tbl V) : NoDup (tbl_list t).*1.
Proof.
  unfold tbl_list. rewrite (fmap_Permutation fst _ _ (sort_by_perm _ _)).
  apply NoDup_fst_map_to_list.
Qed.

(** ** The catalog *)

Record Cat := {
  assets : gmap bytes LogicalAsset;
  backends : gmap Z Backend;
  pools : gmap string Pool;
  acpools : gmap (string * string) ArtifactClassPool;
  policies : gmap string ArtifactClassPolicyRecord;
  bundles : gmap string Bundle;
  members : Tbl BundleMember;
  copies : Tbl Copy;
  locators : Tbl AssetLocator;
  blob_roots : Tbl BlobRoot;
  receipts : Tbl VerifyReceipt;
  intakes : gmap string Intake;
  items : Tbl IngestItem;
  submission_members : Tbl SubmissionMember;
  va_members : Tbl VirtualArrangementMember;
  transforms : Tbl StagingTransform;
  exclusions : Tbl ExclusionRecord;
  arrangements : Tbl Arrangement;
  offsite : gmap string OffsiteConfirmation;
  events : Tbl RetentionEvent;
  arrangement_members : Tbl ArrangementMember;
  submissions : gmap string Submission;
  derivations : Tbl AssetDerivation;
}.

Definition empty_cat : Cat := {|
  assets := ∅; backends := ∅; pools := ∅; acpools := ∅; policies := ∅; bundles := ∅;
  members := tbl_empty; copies := tbl_empty; locators := tbl_empty; blob_roots := tbl_empty;
  receipts := tbl_empty; intakes := ∅; items := tbl_empty;
  submission_members := tbl_empty; va_members := tbl_empty; transforms := tbl_empty;
  exclusions := tbl_empty; arrangements := tbl_empty; offsite := ∅; events := tbl_empty;
  arrangement_members := tbl_empty; submissions := ∅; derivations := tbl_empty;
|}.

Definition with_assets (x : gmap bytes LogicalAsset) (c : Cat) : Cat := {|
  assets := x; backends := backends c; pools := pools c; acpools := acpools c;
  policies := policies c; bundles := bundles c; members := members c; copies := copies c;
  locators := locators c; blob_roots := blob_roots c; receipts := receipts c;
  intakes := intakes c; items := items c; submission_members := submission_members c;
  va_members := va_members c; transforms := transforms c;
  exclusions := exclusions c; arrangements := arrangements c; offsite := offsite c;
  events := events c; arrangement_members := arrangement_members c; submissions := submissions c;
  derivations := derivations c |}.

Definition with_pools (x : gmap string Pool) (c : Cat) : Cat := {|
  assets := assets c; backends := backends c; pools := x; acpools := acpools c;
  policies := policies c; bundles := bundles c; members := members c; copies := copies c;
  locators := locators c; blob_roots := blob_roots c; receipts := receipts c;
  intakes := intakes c; items := items c; submission_members := submission_members c;
  va_members := va_members c; transforms := transforms c;
  exclusions := exclusions c; arrangements := arrangements c; offsite := offsite c;
  events := events c; arrangement_members := arrangement_members c; submissions := submissions c;
  derivations := derivations c |}.

Definition with_acpools (x : gmap (string * string) ArtifactClassPool) (c : Cat) : Cat := {|
  assets := assets c; backends := backends c; pools := pools c; acpools := x;
  policies := policies c; bundles := bundles c; members := members c; copies := copies c;
  locators := locators c; blob_roots := blob_roots c; receipts := receipts c;
  intakes := intakes c; items := items c; submission_members := submission_members c;
  va_members := va_members c; transforms := transforms c;
  exclusions := exclusions c; arrangements := arrangements c; offsite := offsite c;
  events := events c; arrangement_members := arrangement_members c; submissions := submissions c;
  derivations := derivations c |}.

Definition with_policies (x : gmap string ArtifactClassPolicyRecord) (c : Cat) : Cat := {|
  assets := assets c; backends := backends c; pools := pools c; acpools := acpools c;
  policies := x; bundles := bundles c; members := members c; copies := copies c;
  locators := locators c; blob_roots := blob_roots c; receipts := receipts c;
  intakes := intakes c; items := items c; submission_members := submission_members c;
  va_members := va_members c; transforms := transforms c;
  exclusions := exclusions c; arrangements := arrangements c; offsite := offsite c;
  events := events c; arrangement_members := arrangement_members c; submissions := submissions c;
  derivations := derivations c |}.

Definition with_bundles (x : gmap string Bundle) (c : Cat) : Cat := {|
  assets := assets c; backends := backends c; pools := pools c; acpools := acpools c;
  policies := policies c; bundles := x; members := members c; copies := copies c;
  locators := locators c; blob_roots := blob_roots c; receipts := receipts c;
  intakes := intakes c; items := items c; submission_members := submission_members c;
  va_members := va_members c; transforms := transforms c;
  exclusions := exclusions c; arrangements := arrangements c; offsite := offsite c;
  events := events c; arrangement_members := arrangement_members c; submissions := submissions c;
  derivations := derivations c |}.

Definition with_members (x : Tbl BundleMember) (c : Cat) : Cat := {|
  assets := assets c; backends := backends c; pools := pools c; acpools := acpools c;
  policies := policies c; bundles := bundles c; members := x; copies := copies c;
  locators := locators c; blob_roots := blob_roots c; receipts := receipts c;
  intakes := intakes c; items := items c; submission_members := submission_members c;
  va_members := va_members c; transforms := transforms c;
  exclusions := exclusions c; arrangements := arrangements c; offsite := offsite c;
  events := events c; arrangement_members := arrangement_members c; submissions := submissions c;
  derivations := derivations c |}.

Definition with_transforms (x : Tbl StagingTransform) (c : Cat) : Cat := {|
  assets := assets c; backends := backends c; pools := pools c; acpools := acpools c;
  policies := policies c; bundles := bundles c; members := members c; copies := copies c;
  locators := locators c; blob_roots := blob_roots c; receipts := receipts c;
  intakes := intakes c; items := items c; submission_members := submission_members c;
  va_members := va_members c; transforms := x;
  exclusions := exclusions c; arrangements := arrangements c; offsite := offsite c;
  events := events c; arrangement_members := arrangement_members c; submissions := submissions c;
  derivations := derivations c |}.

Definition with_copies (x : Tbl Copy) (c : Cat) : Cat := {|
  assets := assets c; backends := backends c; pools := pools c; acpools := acpools c;
  policies := policies c; bundles := bundles c; members := members c; copies := x;
  locators := locators c; blob_roots := blob_roots c; receipts := receipts c;
  intakes := intakes c; items := items c; submission_members := submission_members c;
  va_members := va_members c; transforms := transforms c;
  exclusions := exclusions c; arrangements := arrangements c; offsite := offsite c;
  events := events c; arrangement_members := arrangement_members c; submissions := submissions c;
  derivations := derivations c |}.

Definition with_receipts (x : Tbl VerifyReceipt) (c : Cat) : Cat := {|
  assets := assets c; backends := backends c; pools := pools c; acpools := acpools c;
  policies := policies c; bundles := bundles c; members := members c; copies := copies c;
  locators := locators c; blob_roots := blob_roots c; receipts := x;
  intakes := intakes c; items := items c; submission_members := submission_members c;
  va_members := va_members c; transforms := transforms c;
  exclusions := exclusions c; arrangements := arrangements c; offsite := offsite c;
  events := events c; arrangement_members := arrangement_members c; submissions := submissions c;
  derivations := derivations c |}.

Definition with_locators (x : Tbl AssetLocator) (c : Cat) : Cat := {|
  assets := assets c; backends := backends c; pools := pools c; acpools := acpools c;
  policies := policies c; bundles := bundles c; members := members c; copies := copies c;
  locators := x; blob_roots := blob_roots c; receipts := receipts c;
  intakes := intakes c; items := items c; submission_members := submission_members c;
  va_members := va_members c; transforms := transforms c;
  exclusions := exclusions c; arrangements := arrangements c; offsite := offsite c;
  events := events c; arrangement_members := arrangement_members c; submissions := submissions c;
  derivations := derivations c |}.

Definition with_blob_roots (x : Tbl BlobRoot) (c : Cat) : Cat := {|
  assets := assets c; backends := backends c; pools := pools c; acpools := acpools c;
  policies := policies c; bundles := bundles c; members := members c; copies := copies c;
  locators := locators c; blob_roots := x; receipts := receipts c;
  intakes := intakes c; items := items c; submission_members := submission_members c;
  va_members := va_members c; transforms := transforms c;
  exclusions := exclusions c; arrangements := arrangements c; offsite := offsite c;
  events := events c; arrangement_members := arrangement_members c; submissions := submissions c;
  derivations := derivations c |}.

Definition with_exclusions (x : Tbl ExclusionRecord) (c : Cat) : Cat := {|
  assets := assets c; backends := backends c; pools := pools c; acpools := acpools c;
  policies := policies c; bundles := bundles c; members := members c; copies := copies c;
  locators := locators c; blob_roots := blob_roots c; receipts := receipts c;
  intakes := intakes c; items := items c; submission_members := submission_members c;
  va_members := va_members c; transforms := transforms c;
  exclusions := x; arrangements := arrangements c; offsite := offsite c;
  events := events c; arrangement_members := arrangement_members c; submissions := submissions c;
  derivations := derivations c |}.

Definition with_intakes (x : gmap string Intake) (c : Cat) : Cat := {|
  assets := assets c; backends := backends c; pools := pools c; acpools := acpools c;
  policies := policies c; bundles := bundles c; members := members c; copies := copies c;
  locators := locators c; blob_roots := blob_roots c; receipts := receipts c;
  intakes := x; items := items c; submission_members := submission_members c;
  va_members := va_members c; transforms := transforms c;
  exclusions := exclusions c; arrangements := arrangements c; offsite := offsite c;
  events := events c; arrangement_members := arrangement_members c; submissions := submissions c;
  derivations := derivations c |}.

Definition with_offsite (x : gmap string OffsiteConfirmation) (c : Cat) : Cat := {|
  assets := assets c; backends := backends c; pools := pools c; acpools := acpools c;
  policies := policies c; bundles := bundles c; members := members c; copies := copies c;
  locators := locators c; blob_roots := blob_roots c; receipts := receipts c;
  intakes := intakes c; items := items c; submission_members := submission_members c;
  va_members := va_members c; transforms := transforms c;
  exclusions := exclusions c; arrangements := arrangements c; offsite := x;
  events := events c; arrangement_members := arrangement_members c; submissions := submissions c;
  derivations := derivations c |}.

Definition with_events (x : Tbl RetentionEvent) (c : Cat) : Cat := {|
  assets := assets c; backends := backends c; pools := pools c; acpools := acpools c;
  policies := policies c; bundles := bundles c; members := members c; copies := copies c;
  locators := locators c; blob_roots := blob_roots c; receipts := receipts c;
  intakes := intakes c; items := items c; submission_members := submission_members c;
  va_members := va_members c; transforms := transforms c;
  exclusions := exclusions c; arrangements := arrangements c; offsite := offsite c;
  events := x; arrangement_members := arrangement_members c; submissions := submissions c;
  derivations := derivations c |}.

Definition with_arrangements (x : Tbl Arrangement) (c : Cat) : Cat := {|
  assets := assets c; backends := backends c; pools := pools c; acpools := acpools c;
  policies := policies c; bundles := bundles c; members := members c; copies := copies c;
  locators := locators c; blob_roots := blob_roots c; receipts := receipts c;
  intakes := intakes c; items := items c; submission_members := submission_members c;
  va_members := va_members c; transforms := transforms c;
  exclusions := exclusions c; arrangements := x; offsite := offsite c;
  events := events c; arrangement_members := arrangement_members c; submissions := submissions c;
  derivations := derivations c |}.

Definition with_arrangement_members (x : Tbl ArrangementMember) (c : Cat) : Cat := {|
  assets := assets c; backends := backends c; pools := pools c; acpools := acpools c;
  policies := policies c; bundles := bundles c; members := members c; copies := copies c;
  locators := locators c; blob_roots := blob_roots c; receipts := receipts c;
  intakes := intakes c; items := items c; submission_members := submission_members c;
  va_members := va_members c; transforms := transforms c;
  exclusions := exclusions c; arrangements := arrangements c; offsite := offsite c;
  events := events c; arrangement_members := x; submissions := submissions c;
  derivations := derivations c |}.

Definition with_submissions (x : gmap string Submission) (c : Cat) : Cat := {|
  assets := assets c; backends := backends c; pools := pools c; acpools := acpools c;
  policies := policies c; bundles := bundles c; members := members c; copies := copies c;
  locators := locators c; blob_roots := blob_roots c; receipts := receipts c;
  intakes := intakes c; items := items c; submission_members := submission_members c;
  va_members := va_members c; transforms := transforms c;
  exclusions := exclusions c; arrangements := arrangements c; offsite := offsite c;
  events := events c; arrangement_members := arrangement_members c; submissions := x;
  derivations := derivations c |}.

Definition with_submission_members (x : Tbl SubmissionMember) (c : Cat) : Cat := {|
  assets := assets c; backends := backends c; pools := pools c; acpools := acpools c;
  policies := policies c; bundles := bundles c; members := members c; copies := copies c;
  locators := locators c; blob_roots := blob_roots c; receipts := receipts c;
  intakes := intakes c; items := items c; submission_members := x;
  va_members := va_members c; transforms := transforms c;
  exclusions := exclusions c; arrangements := arrangements c; offsite := offsite c;
  events := events c; arrangement_members := arrangement_members c; submissions := submissions c;
  derivations := derivations c |}.

Definition with_items (x : Tbl IngestItem) (c : Cat) : Cat := {|
  assets := assets c; backends := backends c; pools := pools c; acpools := acpools c;
  policies := policies c; bundles := bundles c; members := members c; copies := copies c;
  locators := locators c; blob_roots := blob_roots c; receipts := receipts c;
  intakes := intakes c; items := x; submission_members := submission_members c;
  va_members := va_members c; transforms := transforms c;
  exclusions := exclusions c; arrangements := arrangements c; offsite := offsite c;
  events := events c; arrangement_members := arrangement_members c; submissions := submissions c;
  derivations := derivations c |}.

(** ** The database: catalog tables and job tables in one transaction domain *)

Record Database := { cat : Cat; jobs : JobDB }.

Definition with_cat (f : Cat → Cat) (d : Database) : Database :=
  {| cat := f (cat d); jobs := jobs d |}.

Definition with_jobdb (j : JobDB) (d : Database) : Database := {| cat := cat d; jobs := j |}.

Definition empty_database : Database := {| cat := empty_cat; jobs := empty_jobdb |}.

(** ** Updating a copy row *)

Definition set_copy (id : Z) (c : Copy) (d : Database) : Database :=
  with_cat (λ k, with_copies (tbl_put id c (copies k)) k) d.

Definition copy_row (id : Z) (d : Database) : option Copy := t_rows (copies (cat d)) !! id.
