(* ===== verification/Leases.v ===== *)
(** * Counted resource leases

    [jobs/leases.py]: the resource declaration of a job row is normalised to [{pool: count}], and
    one [LeaseManager] per worker process accounts for the counts in use.  [release] mutates pool
    by pool and can raise half way, so it returns the manager it leaves behind together with the
    exception, if any. *)

From S2P Require Import Prelude Json.

Inductive LeaseError :=
  | EntryNotObject
  | PoolNotString
  | CountNotInteger
  | CountNegative
  | CapacityNegative
  | RequestDoesNotFit
  | ReleaseExceeds.

#[export] Instance LeaseError_eq_dec : EqDecision LeaseError.
Proof. solve_decision. Defined.

(** [d.get(pool, 0)] *)
Definition count_of (pool : string) (d : dict Z) : Z := default 0 (dget pool d).
Arguments count_of : simpl never.

Definition normalize_item (item : json) (resources : dict Z) : result LeaseError (dict Z) :=
  match item with
  | JObj d =>
      match dget "pool" d with
      | Some (JStr pool) =>
          _ ← raise_if (bool_decide (pool = "")) PoolNotString;
          match dget "count" d with
          | Some (JInt count) =>
              _ ← raise_if (count <? 0) CountNegative;
              if count =? 0 then Ok resources
              else Ok (dset pool (count_of pool resources + count) resources)
          | _ => Err CountNotInteger
          end
      | _ => Err PoolNotString
      end
  | _ => Err EntryNotObject
  end.

Fixpoint normalize_from (raw : list json) (resources : dict Z) : result LeaseError (dict Z) :=
  match raw with
  | [] => Ok resources
  | item :: raw => resources ← normalize_item item resources; normalize_from raw resources
  end.

Definition normalize_required_resources (raw : list json) : result LeaseError (dict Z) :=
  normalize_from raw [].

Record LeaseManager := {
  capacities : gmap string Z;
  leased : gmap string Z;
}.

Definition cap (m : LeaseManager) (pool : string) : Z := default 0 (capacities m !! pool).
Definition used (m : LeaseManager) (pool : string) : Z := default 0 (leased m !! pool).

Definition lease_manager_init (caps : gmap string Z) : result LeaseError LeaseManager :=
  if forallb (λ pc, 0 <=? pc.2) (map_to_list caps)
  then Ok {| capacities := caps; leased := (λ _, 0) <$> caps |}
  else Err CapacityNegative.

Definition fits (m : LeaseManager) (required : dict Z) : bool :=
  forallb (λ pc, negb (cap m pc.1 - used m pc.1 <? pc.2)) required.

Definition can_ever_fit (m : LeaseManager) (required : dict Z) : bool :=
  forallb (λ pc, pc.2 <=? cap m pc.1) required.

Definition set_used (m : LeaseManager) (pool : string) (n : Z) : LeaseManager :=
  {| capacities := capacities m; leased := <[pool := n]> (leased m) |}.

Fixpoint add_leases (m : LeaseManager) (required : dict Z) : LeaseManager :=
  match required with
  | [] => m
  | (pool, count) :: required => add_leases (set_used m pool (used m pool + count)) required
  end.

Definition reserve (m : LeaseManager) (required : dict Z)
    : result LeaseError (LeaseManager * dict Z) :=
  _ ← raise_if (negb (fits m required)) RequestDoesNotFit;
  Ok (add_leases m required, required).

Fixpoint release (m : LeaseManager) (granted : dict Z) : LeaseManager * option LeaseError :=
  match granted with
  | [] => (m, None)
  | (pool, count) :: granted =>
      let current := used m pool in
      if (count <? 0) || (current <? count) then (m, Some ReleaseExceeds)
      else release (set_used m pool (current - count)) granted
  end.

(** ** Lemmas on the dictionary of counts *)

(** What every normalised declaration satisfies: one entry per pool, positive counts. *)
Definition counts_ok (d : dict Z) : Prop := NoDup (dkeys d) ∧ Forall (λ pc, 0 < pc.2) d.

Lemma count_of_cons pool pool' n d :
  pool' ∉ dkeys d →
  count_of pool ((pool', n) :: d) = (if decide (pool = pool') then n else 0) + count_of pool d.
Proof.
  intros Hn. unfold count_of; cbn. case_decide; subst; [|done].
  apply dget_None in Hn. rewrite Hn. cbn. lia.
Qed.

Lemma count_of_nonneg pool d : Forall (λ pc, 0 < pc.2) d → 0 ≤ count_of pool d.
Proof.
  intros Hall. unfold count_of. destruct (dget pool d) as [n|] eqn:E; cbn; [|lia].
  apply dget_Some_elem in E. rewrite Forall_forall in Hall. apply Hall in E. cbn in E. lia.
Qed.

Lemma dset_counts_ok pool n d : 0 < n → counts_ok d → counts_ok (dset pool n d).
Proof.
  intros Hn [Hnd Hall]. split; [by apply NoDup_dset|].
  clear Hnd. induction d as [|[k v] d IH]; cbn; [by repeat constructor|].
  apply Forall_cons in Hall as [Hv Hall].
  case_decide; constructor; auto.
Qed.

Lemma normalize_item_ok item d d' :
  normalize_item item d = Ok d' → counts_ok d → counts_ok d'.
Proof.
  unfold normalize_item. intros H Hok.
  destruct item as [| | | | | |o]; try discriminate.
  destruct (dget "pool" o) as [[| | |pool| | |]|]; try discriminate.
  inv_ok. destruct (dget "count" o) as [[| |count| | | |]|]; try discriminate.
  inv_ok. case_bool; inv_ok; [done|]. split_bools.
  apply dset_counts_ok; [|done].
  pose proof (count_of_nonneg pool d (proj2 Hok)). lia.
Qed.

Lemma normalize_from_ok raw d d' :
  normalize_from raw d = Ok d' → counts_ok d → counts_ok d'.
Proof.
  revert d. induction raw as [|item raw IH]; cbn; intros d H Hok; inv_ok; [done|].
  eauto using normalize_item_ok.
Qed.

Lemma normalize_counts_ok raw d : normalize_required_resources raw = Ok d → counts_ok d.
Proof. intros H. eapply normalize_from_ok; [exact H|]. split; constructor. Qed.

#[export] Hint Resolve normalize_counts_ok : sutra.

(** ** Effect of [reserve] and [release] on each pool *)

Lemma used_set_used m pool n pool' :
  used (set_used m pool n) pool' = if decide (pool = pool') then n else used m pool'.
Proof. unfold used, set_used; cbn. rewrite lookup_insert. by case_decide. Qed.

Lemma cap_add_leases m d pool : cap (add_leases m d) pool = cap m pool.
Proof. revert m. induction d as [|[? ?] d IH]; intros m; cbn; [done|]. by rewrite IH. Qed.

Lemma used_add_leases m d pool :
  NoDup (dkeys d) → used (add_leases m d) pool = used m pool + count_of pool d.
Proof.
  revert m. induction d as [|[p n] d IH]; intros m; cbn; [unfold count_of; cbn; lia|].
  intros [Hp Hnd]%NoDup_cons. rewrite IH, used_set_used, count_of_cons by done.
  repeat case_decide; subst; lia || congruence.
Qed.

Lemma release_spec m d m' e :
  counts_ok d → release m d = (m', e) →
  (e = None ↔ ∀ pool, count_of pool d ≤ used m pool ∨ pool ∉ dkeys d) ∧
  (e = None → ∀ pool, used m' pool = used m pool - count_of pool d) ∧
  (∀ pool, cap m' pool = cap m pool).
Proof.
  revert m. induction d as [|[p n] d IH]; intros m [Hnd Hpos]; cbn.
  { intros [= <- <-]. unfold count_of; cbn. repeat split; intros; try lia. right; set_solver. }
  apply NoDup_cons in Hnd as [Hp Hnd]. apply Forall_cons in Hpos as [Hn Hpos]; cbn in Hn.
  case_bool; intros Hrel.
  - simplify_eq. apply orb_true_iff in Hb. rewrite !Z.ltb_lt in Hb.
    split; [|done]. split; [done|]. intros Hall. exfalso.
    destruct (Hall p) as [Hc|Hc]; [|cbn in Hc; set_solver].
    rewrite count_of_cons, decide_True in Hc by done.
    pose proof (count_of_nonneg p d Hpos). lia.
  - split_bools. apply IH in Hrel as (Hiff & Hused & Hcap); [|by split].
    assert (Hcnt : ∀ pool, count_of pool ((p, n) :: d) =
        (if decide (pool = p) then n else 0) + count_of pool d)
      by (intros; by apply count_of_cons).
    assert (Hpd : count_of p d = 0).
    { unfold count_of. apply dget_None in Hp; cbn in Hp. by rewrite Hp. }
    split; [|split; [|done]].
    + rewrite Hiff. split; intros Hall pool; specialize (Hall pool);
        rewrite Hcnt, used_set_used in *; repeat case_decide; subst; try congruence;
        rewrite ?Hpd, ?not_elem_of_cons in *; try lia; naive_solver lia.
    + intros He pool. rewrite Hused, used_set_used, Hcnt by done.
      repeat case_decide; subst; lia || congruence.
Qed.

Lemma fits_spec m d : fits m d = true ↔ ∀ p n, (p, n) ∈ d → n ≤ cap m p - used m p.
Proof.
  unfold fits. rewrite forallb_forall.
  setoid_rewrite list_elem_of_In.
  split.
  - intros H p n Hin. apply H in Hin. cbn in Hin. split_bools. lia.
  - intros H [p n] Hin. cbn. apply negb_true_iff, Z.ltb_ge. eauto.
Qed.

(** ** The in-process invariant [sum(leased[pool]) <= capacity[pool]] *)

Definition lease_inv (m : LeaseManager) : Prop := ∀ pool, 0 ≤ used m pool ≤ Z.max 0 (cap m pool).

(** A worker's manager together with the grants its running jobs hold. *)
Record lease_state := { ls_manager : LeaseManager; ls_grants : list (dict Z) }.

Fixpoint granted_sum (pool : string) (gs : list (dict Z)) : Z :=
  match gs with [] => 0 | g :: gs => count_of pool g + granted_sum pool gs end.

Inductive lease_step : lease_state → lease_state → Prop :=
  | step_reserve m gs raw required m' g :
      normalize_required_resources raw = Ok required →
      reserve m required = Ok (m', g) →
      lease_step {| ls_manager := m; ls_grants := gs |} {| ls_manager := m'; ls_grants := g :: gs |}
  | step_release m gs1 g gs2 m' e :
      release m g = (m', e) →
      lease_step {| ls_manager := m; ls_grants := gs1 ++ g :: gs2 |}
                 {| ls_manager := m'; ls_grants := gs1 ++ gs2 |}.

Record lease_acct (s : lease_state) : Prop := {
  acct_grants : Forall counts_ok (ls_grants s);
  acct_sum : ∀ pool, used (ls_manager s) pool = granted_sum pool (ls_grants s);
  acct_cap : ∀ pool, used (ls_manager s) pool ≤ Z.max 0 (cap (ls_manager s) pool);
}.

Lemma granted_sum_nonneg pool gs : Forall counts_ok gs → 0 ≤ granted_sum pool gs.
Proof.
  induction 1 as [|g gs [_ Hg] _ IH]; cbn; [lia|]. pose proof (count_of_nonneg pool g Hg). lia.
Qed.

Lemma granted_sum_app pool gs1 gs2 :
  granted_sum pool (gs1 ++ gs2) = granted_sum pool gs1 + granted_sum pool gs2.
Proof. induction gs1 as [|g gs1 IH]; cbn; lia. Qed.

Lemma reserve_acct m gs required m' g :
  counts_ok required → reserve m required = Ok (m', g) →
  lease_acct {| ls_manager := m; ls_grants := gs |} →
  lease_acct {| ls_manager := m'; ls_grants := g :: gs |}.
Proof.
  intros Hok Hres [Hg Hs Hc]; cbn in *. unfold reserve in Hres. inv_ok. split_bools.
  simplify_eq. constructor; cbn.
  - by constructor.
  - intros pool. rewrite used_add_leases, Hs by apply Hok. lia.
  - intros pool. rewrite cap_add_leases, used_add_leases by apply Hok.
    unfold count_of. destruct (dget pool g) as [n|] eqn:E; cbn; [|specialize (Hc pool); lia].
    rewrite fits_spec in H. apply dget_Some_elem in E.
    apply H in E. lia.
Qed.

Lemma release_acct m gs1 g gs2 m' e :
  release m g = (m', e) →
  lease_acct {| ls_manager := m; ls_grants := gs1 ++ g :: gs2 |} →
  e = None ∧ lease_acct {| ls_manager := m'; ls_grants := gs1 ++ gs2 |}.
Proof.
  intros Hrel [Hg Hs Hc]; cbn in *.
  apply Forall_app in Hg as [Hg1 [Hgg Hg2]%Forall_cons].
  destruct (release_spec _ _ _ _ Hgg Hrel) as (Hiff & Hused & Hcap).
  assert (He : e = None).
  { apply Hiff. intros pool. left. rewrite Hs, granted_sum_app. cbn.
    pose proof (granted_sum_nonneg pool gs1 Hg1). pose proof (granted_sum_nonneg pool gs2 Hg2). lia. }
  split; [done|]. constructor; cbn.
  - by apply Forall_app.
  - intros pool. rewrite Hused, Hs, !granted_sum_app by done. cbn. lia.
  - intros pool. rewrite Hused, Hcap by done. specialize (Hc pool).
    pose proof (count_of_nonneg pool g (proj2 Hgg)). lia.
Qed.

Lemma lease_init_acct caps m :
  lease_manager_init caps = Ok m → lease_acct {| ls_manager := m; ls_grants := [] |}.
Proof.
  unfold lease_manager_init. case_bool; intros; inv_ok.
  constructor; cbn; [constructor| |]; intros pool; unfold used, cap; cbn;
    rewrite lookup_fmap; destruct (caps !! pool); cbn; lia.
Qed.

(** The order in which grants are outstanding does not matter. *)
Lemma granted_sum_perm pool gs gs' : gs ≡ₚ gs' → granted_sum pool gs = granted_sum pool gs'.
Proof. induction 1; cbn; lia. Qed.

Lemma lease_acct_perm m gs gs' :
  gs ≡ₚ gs' → lease_acct {| ls_manager := m; ls_grants := gs |} →
  lease_acct {| ls_manager := m; ls_grants := gs' |}.
Proof.
  intros Hp [Hg Hs Hc]; cbn in *. constructor; cbn; [by rewrite <- Hp| |done].
  intros pool. by rewrite Hs, (granted_sum_perm pool gs gs').
Qed.

Lemma lease_step_acct s s' : lease_step s s' → lease_acct s → lease_acct s'.
Proof.
  intros [] Hacct.
  - eauto using reserve_acct with sutra.
  - by edestruct release_acct.
Qed.

(** ** Properties *)

(** C29: Lease accounting: from a fresh manager, after any interleaving of reservations of normalised
    requests and releases of outstanding grants, the tally of every pool is exactly the sum of the
    outstanding grants, is within the pool's capacity, and releasing any outstanding grant
    succeeds. *)
Theorem lease_accounting caps m s pool :
  lease_manager_init caps = Ok m →
  rtc lease_step {| ls_manager := m; ls_grants := [] |} s →
  used (ls_manager s) pool = granted_sum pool (ls_grants s) ∧
  0 ≤ used (ls_manager s) pool ≤ Z.max 0 (cap (ls_manager s) pool) ∧
  ∀ g, g ∈ ls_grants s → (release (ls_manager s) g).2 = None.
Proof.
  intros Hinit Hrtc.
  assert (Hacct : lease_acct s).
  { apply lease_init_acct in Hinit. revert Hinit.
    induction Hrtc; eauto using lease_step_acct. }
  destruct Hacct as [Hg Hs Hc] eqn:Ha. repeat split.
  - apply Hs.
  - rewrite Hs. by apply granted_sum_nonneg.
  - apply Hc.
  - intros g Hin. apply list_elem_of_split in Hin as (gs1 & gs2 & Heq).
    destruct (release (ls_manager s) g) as [m' e] eqn:E. cbn.
    eapply release_acct; [exact E|]. rewrite <- Heq. by destruct s.
Qed.

(** Normalisation keeps the totals: the count recorded for a pool is the sum of the counts
    declared for it. *)
Definition declared_count (pool : string) (item : json) : Z :=
  match item with
  | JObj d => match dget "pool" d, dget "count" d with
              | Some (JStr p), Some (JInt n) => if decide (p = pool) then n else 0
              | _, _ => 0
              end
  | _ => 0
  end.

Lemma normalize_item_count item d d' pool :
  normalize_item item d = Ok d' → count_of pool d' = count_of pool d + declared_count pool item.
Proof.
  unfold normalize_item, declared_count. intros H.
  destruct item as [| | | | | |o]; try discriminate.
  destruct (dget "pool" o) as [[| | |p| | |]|]; try discriminate.
  inv_ok. destruct (dget "count" o) as [[| |count| | | |]|]; try discriminate.
  inv_ok. case_bool; inv_ok; split_bools.
  - case_decide; subst; lia.
  - unfold count_of at 1. case_decide; subst; [by rewrite dget_dset_eq|].
    rewrite dget_dset_ne by done. fold (count_of pool d). lia.
Qed.

Lemma normalize_from_count raw d d' pool :
  normalize_from raw d = Ok d' →
  count_of pool d' = count_of pool d + foldr (λ i acc, declared_count pool i + acc) 0 raw.
Proof.
  revert d. induction raw as [|item raw IH]; cbn; intros d H; inv_ok; [lia|].
  rewrite (IH _ H), (normalize_item_count _ _ _ pool H0). lia.
Qed.
