(* ===== verification/RetryConfig.v ===== *)
(** * Worker configuration: retry limits and backoff

    [jobs/config.py].  Delays are microseconds, the resolution of the timestamps they are added
    to: the factors 0.8 and 1.2 of the jitter are exact at that resolution.  [random.uniform] is
    the parameter [uniform]; what the code relies on is that it draws from the closed interval it
    is given. *)

From S2P Require Import Prelude Json.

Definition DEFAULT_IO_CAPACITY : Z := 2.
Definition DEFAULT_MAX_BACKOFF_SECONDS : Z := 3600.

Definition seconds (n : Z) : Z := n * 1000000.

Record RetryPolicy := { max_attempts : Z; backoff_seconds : Z }.

Definition default_retry : RetryPolicy := {| max_attempts := 1; backoff_seconds := 30 |}.

Record WorkerConfig := {
  wc_capacities : dict Z;
  wc_retry : RetryPolicy;
  wc_per_kind_retry : dict RetryPolicy;
  wc_aging_threshold_scans : Z;
  wc_executor_workers : option Z;
  wc_max_backoff_seconds : Z;
}.

(** [WorkerConfig.defaults], with [os.cpu_count()] as an argument. *)
Definition worker_config_defaults (cpu_count : option Z) : WorkerConfig :=
  let cpu := match cpu_count with Some n => if n =? 0 then 1 else n | None => 1 end in
  {| wc_capacities := [("cpu", cpu); ("io", DEFAULT_IO_CAPACITY); ("tape_drive", 0); ("gpu", 0)];
     wc_retry := default_retry;
     wc_per_kind_retry := [];
     wc_aging_threshold_scans := 3;
     wc_executor_workers := Some (Z.max (Z.max cpu DEFAULT_IO_CAPACITY) 1);
     wc_max_backoff_seconds := DEFAULT_MAX_BACKOFF_SECONDS |}.

Definition max_values (d : dict Z) : Z :=
  match d with
  | [] => 1
  | (_, n) :: d => foldr (λ kv acc, Z.max kv.2 acc) n d
  end.

Definition with_pool_overrides (config : WorkerConfig) (overrides : dict Z) : WorkerConfig :=
  let caps := dmerge (wc_capacities config) overrides in
  {| wc_capacities := caps;
     wc_retry := wc_retry config;
     wc_per_kind_retry := wc_per_kind_retry config;
     wc_aging_threshold_scans := wc_aging_threshold_scans config;
     wc_executor_workers :=
       match wc_executor_workers config with
       | Some n => Some n
       | None => Some (Z.max (max_values caps) 1)
       end;
     wc_max_backoff_seconds := wc_max_backoff_seconds config |}.

Definition retry_for_kind (config : WorkerConfig) (kind : string) : RetryPolicy :=
  default (wc_retry config) (dget kind (wc_per_kind_retry config)).

Section backoff.
Context (uniform : Z → Z → Z).

Definition jittered_backoff (base_seconds max_seconds : Z) : Z :=
  let base := seconds base_seconds in
  if base <=? 0 then 0
  else
    let clamp := Z.max 0 (seconds max_seconds) in
    let lower := base * 8 / 10 in
    let upper := Z.min (base * 12 / 10) clamp in
    if upper <? lower then clamp else uniform lower upper.

Definition delay_seconds (policy : RetryPolicy) (attempts max_seconds : Z) : Z :=
  if attempts <=? 0 then 0
  else
    let multiplier := Z.shiftl 1 (Z.max 0 (attempts - 1)) in
    jittered_backoff (backoff_seconds policy * multiplier) max_seconds.
End backoff.

(** What the code relies on of [random.uniform(a, b)]. *)
Definition uniform_ok (uniform : Z → Z → Z) : Prop :=
  ∀ lo hi, lo ≤ hi → lo ≤ uniform lo hi ≤ hi.

Lemma jittered_backoff_bounds uniform base m :
  uniform_ok uniform → 0 < base →
  let clamp := Z.max 0 (seconds m) in
  Z.min (seconds base * 8 / 10) clamp ≤ jittered_backoff uniform base m
  ∧ jittered_backoff uniform base m ≤ Z.min (seconds base * 12 / 10) clamp.
Proof.
  intros Hu Hb. unfold jittered_backoff, seconds in *. cbn zeta.
  rewrite (proj2 (Z.leb_gt (base * 1000000) 0)) by lia.
  assert (base * 1000000 * 8 / 10 ≤ base * 1000000 * 12 / 10) by (apply Z.div_le_mono; lia).
  case_bool; split_bools; [lia|].
  specialize (Hu _ _ Hb0). lia.
Qed.

(** A retry delay is never negative, never above the configured ceiling, and grows by doubling:
    before the ceiling it lies within 20 % of [backoff_seconds * 2^(attempts - 1)]. *)
Lemma delay_seconds_bounds uniform policy n m :
  uniform_ok uniform → 0 < backoff_seconds policy → 0 ≤ m → 0 < n →
  let base := seconds (backoff_seconds policy * 2 ^ (n - 1)) in
  let d := delay_seconds uniform policy n m in
  0 ≤ d ≤ seconds m ∧ Z.min (base * 8 / 10) (seconds m) ≤ d ∧ d ≤ base * 12 / 10.
Proof.
  intros Hu Hb Hm Hn base d. subst base d. unfold delay_seconds.
  rewrite (proj2 (Z.leb_gt n 0)) by lia.
  rewrite Z.shiftl_1_l, Z.max_r by lia.
  assert (0 < 2 ^ (n - 1)) by (apply Z.pow_pos_nonneg; lia).
  pose proof (jittered_backoff_bounds uniform (backoff_seconds policy * 2 ^ (n - 1)) m Hu
    ltac:(nia)) as [Hlo Hhi].
  unfold seconds in *. rewrite Z.max_r in * by lia.
  assert (0 ≤ backoff_seconds policy * 2 ^ (n - 1) * 1000000 * 8 / 10)
    by (apply Z.div_pos; nia).
  lia.
Qed.
