(* ===== verification/Conditions.v ===== *)
(** * Reconciliation conditions: the two-axis state machine

    [jobs/reconcilers/conditions.py].  Axis A ([record_observation]) owns reality and is the only
    writer that creates a condition row; axis B ([record_condition]) records the outcome of an
    attempt on an existing row; [reopen_condition] is the operator's and the version bump's way out
    of [blocked].  The clock reading of each call is the argument [now]. *)

From S2P Require Import Prelude Json JobModels RetryConfig.

Definition OBSERVED_PRESENT : string := "present".
Definition OBSERVED_MISSING : string := "missing".

Definition HELD_CONDITIONS : list Condition := [BACKOFF; BLOCKED; SUPPRESSED].
Definition held (c : Condition) : bool := bool_decide (c ∈ HELD_CONDITIONS).
Definition WORKABLE_CONDITIONS : list Condition := [OPEN; BACKOFF].
Definition workable (c : Condition) : bool := bool_decide (c ∈ WORKABLE_CONDITIONS).

Definition DEFAULT_BACKOFF_SECONDS : Z := 60.
Definition DEFAULT_BACKOFF_GIVE_UP_ATTEMPTS : Z := 3.

Inductive CondError :=
  | ReconciliationInvariantError
  | AxisBConditionInvalid
  | TargetKeyMissing.

#[export] Instance CondError_eq_dec : EqDecision CondError.
Proof. solve_decision. Defined.

(** ** Row updates *)

Definition new_condition (id : Z) (observed : string) (now : time) : ReconciliationCondition := {|
  rc_id := id; rc_observed_state := observed; rc_condition := SATISFIED;
  rc_reason := None; rc_message := None; rc_attempt_count := 0; rc_next_eligible_at := None;
  rc_blocked_tool := None; rc_last_attempt_id := None; rc_last_attempt_at := None;
  rc_last_success_at := None; rc_updated_at := now |}.

Definition mark_satisfied (row : ReconciliationCondition) (observed : string) (now : time)
    : ReconciliationCondition := {|
  rc_id := rc_id row; rc_observed_state := observed; rc_condition := SATISFIED;
  rc_reason := None; rc_message := None; rc_attempt_count := 0; rc_next_eligible_at := None;
  rc_blocked_tool := None; rc_last_attempt_id := rc_last_attempt_id row;
  rc_last_attempt_at := rc_last_attempt_at row; rc_last_success_at := rc_last_success_at row;
  rc_updated_at := now |}.

Definition mark_open (row : ReconciliationCondition) (observed : string)
    (reason message : option string) (now : time) : ReconciliationCondition := {|
  rc_id := rc_id row; rc_observed_state := observed; rc_condition := OPEN;
  rc_reason := reason; rc_message := message; rc_attempt_count := rc_attempt_count row;
  rc_next_eligible_at := Some (default now (rc_next_eligible_at row));
  rc_blocked_tool := rc_blocked_tool row; rc_last_attempt_id := rc_last_attempt_id row;
  rc_last_attempt_at := rc_last_attempt_at row; rc_last_success_at := rc_last_success_at row;
  rc_updated_at := now |}.

Definition set_observed (row : ReconciliationCondition) (observed : string) (now : time)
    : ReconciliationCondition := {|
  rc_id := rc_id row; rc_observed_state := observed; rc_condition := rc_condition row;
  rc_reason := rc_reason row; rc_message := rc_message row;
  rc_attempt_count := rc_attempt_count row; rc_next_eligible_at := rc_next_eligible_at row;
  rc_blocked_tool := rc_blocked_tool row; rc_last_attempt_id := rc_last_attempt_id row;
  rc_last_attempt_at := rc_last_attempt_at row; rc_last_success_at := rc_last_success_at row;
  rc_updated_at := now |}.

(** [_link_attempt] *)
Definition link_attempt (row : ReconciliationCondition) (attempt : option (Z * JobAttempt))
    : ReconciliationCondition :=
  match attempt with
  | None => row
  | Some (aid, a) => {|
      rc_id := rc_id row; rc_observed_state := rc_observed_state row;
      rc_condition := rc_condition row; rc_reason := rc_reason row;
      rc_message := rc_message row; rc_attempt_count := rc_attempt_count row;
      rc_next_eligible_at := rc_next_eligible_at row; rc_blocked_tool := rc_blocked_tool row;
      rc_last_attempt_id := Some aid; rc_last_attempt_at := Some (at_finished_at a);
      rc_last_success_at := rc_last_success_at row; rc_updated_at := rc_updated_at row |}
  end.

(** The body of the attempt axis: condition, reason, message, attempt count, next due time and
    blocked tool of the row are replaced. *)
Definition set_attempt_outcome (row : ReconciliationCondition) (c : Condition)
    (reason message : option string) (count : Z) (due : option time)
    (tool : option (string * string)) (now : time) : ReconciliationCondition := {|
  rc_id := rc_id row; rc_observed_state := rc_observed_state row; rc_condition := c;
  rc_reason := reason; rc_message := message; rc_attempt_count := count;
  rc_next_eligible_at := due; rc_blocked_tool := tool;
  rc_last_attempt_id := rc_last_attempt_id row; rc_last_attempt_at := rc_last_attempt_at row;
  rc_last_success_at := rc_last_success_at row; rc_updated_at := now |}.

Definition set_success (row : ReconciliationCondition) (attempt : option (Z * JobAttempt))
    (now : time) : ReconciliationCondition := {|
  rc_id := rc_id row; rc_observed_state := rc_observed_state row;
  rc_condition := rc_condition row; rc_reason := rc_reason row; rc_message := rc_message row;
  rc_attempt_count := rc_attempt_count row; rc_next_eligible_at := rc_next_eligible_at row;
  rc_blocked_tool := rc_blocked_tool row; rc_last_attempt_id := rc_last_attempt_id row;
  rc_last_attempt_at := rc_last_attempt_at row;
  rc_last_success_at :=
    match attempt with
    | Some (_, a) => if decide (at_outcome a = SUCCEEDED) then Some (at_finished_at a)
                     else rc_last_success_at row
    | None => rc_last_success_at row
    end;
  rc_updated_at := now |}.

(** ** Axis A *)

Definition observe_row (row : ReconciliationCondition) (desired : bool) (observed : string)
    (reason message : option string) (now : time) : ReconciliationCondition :=
  if negb desired then mark_satisfied row observed now
  else if decide (observed = OBSERVED_PRESENT) then
    if decide (rc_condition row = SUPPRESSED) then set_observed row observed now
    else mark_satisfied row observed now
  else if held (rc_condition row) then row
  else mark_open row observed reason message now.

Definition record_observation (db : JobDB) (now : time) (domain target_key : string)
    (desired : bool) (observed : string) (reason message : option string)
    : JobDB * ReconciliationCondition :=
  let k := (domain, target_key) in
  let '(db, row) :=
    match cond_tbl db !! k with
    | Some row => (db, row)
    | None => (bump_cond_id db, new_condition (next_cond_id db) observed now)
    end in
  let row := observe_row row desired observed reason message now in
  (put_cond k row db, row).

(** ** Axis B *)

Definition attempt_components (attempt : option (Z * JobAttempt)) : list string :=
  let raw := match attempt with
             | None => []
             | Some (_, a) => as_list (dget "components" (at_detail a))
             end in
  omap (λ j, match j with
             | JStr s => if decide (s = "") then None else Some s
             | _ => None
             end) raw.

(** [_snapshot_blocked_components]: replace the component rows of one condition. *)
Definition snapshot_blocked_components (db : JobDB) (row : ReconciliationCondition)
    (attempt : option (Z * JobAttempt)) : JobDB :=
  let comps := sort_by id (remove_dups (attempt_components attempt)) in
  with_components
    (filter (λ rc, rc.1 ≠ rc_id row) (component_tbl db) ++ ((λ c, (rc_id row, c)) <$> comps)) db.

Section axis_b.
Context (uniform : Z → Z → Z).

Definition default_backoff_due (now : time) (attempt_count : Z) : time :=
  now + jittered_backoff uniform (DEFAULT_BACKOFF_SECONDS * 2 ^ (Z.max (attempt_count - 1) 0))
          DEFAULT_MAX_BACKOFF_SECONDS.

Definition record_condition (db : JobDB) (now : time) (domain target_key : string)
    (condition : option Condition) (reason message : option string)
    (attempt : option (Z * JobAttempt)) (next_eligible_at : option time)
    (blocked_tool : option (string * string)) (auto_block : bool)
    : result CondError (JobDB * ReconciliationCondition) :=
  let k := (domain, target_key) in
  match cond_tbl db !! k with
  | None => Err ReconciliationInvariantError
  | Some row0 =>
      let was_blocked := bool_decide (rc_condition row0 = BLOCKED) in
      let row := link_attempt row0 attempt in
      match condition with
      | None => let row := set_success row attempt now in Ok (put_cond k row db, row)
      | Some BACKOFF =>
          let next_count := rc_attempt_count row + 1 in
          if auto_block && (DEFAULT_BACKOFF_GIVE_UP_ATTEMPTS <=? next_count) then
            let row := set_attempt_outcome row BLOCKED (Some (or_else reason "give-up")) message
                         next_count None blocked_tool now in
            let db := if was_blocked then db else snapshot_blocked_components db row attempt in
            Ok (put_cond k row db, row)
          else
            let row := set_attempt_outcome row BACKOFF reason message next_count
                         (Some (or_else next_eligible_at (default_backoff_due now next_count)))
                         blocked_tool now in
            Ok (put_cond k row db, row)
      | Some BLOCKED =>
          let row := set_attempt_outcome row BLOCKED reason message (rc_attempt_count row) None
                       blocked_tool now in
          let db := if was_blocked then db else snapshot_blocked_components db row attempt in
          Ok (put_cond k row db, row)
      | Some _ => Err AxisBConditionInvalid
      end
  end.
End axis_b.

(** ** Reopening *)

Section reopen.
Context (isoformat : time → string).

Definition reopen_row (row : ReconciliationCondition) (actor note : string) (now : time)
    : ReconciliationCondition :=
  let old_reason := or_else (rc_reason row) "unspecified" in
  {| rc_id := rc_id row; rc_observed_state := rc_observed_state row; rc_condition := OPEN;
     rc_reason := None;
     rc_message := Some ("reopened by " +:+ actor +:+ " at " +:+ isoformat now +:+
                         " (was blocked: " +:+ old_reason +:+ "); " +:+ note);
     rc_attempt_count := 0; rc_next_eligible_at := Some now; rc_blocked_tool := None;
     rc_last_attempt_id := rc_last_attempt_id row; rc_last_attempt_at := rc_last_attempt_at row;
     rc_last_success_at := rc_last_success_at row; rc_updated_at := now |}.

Definition reopen_condition (db : JobDB) (k : cond_key) (row : ReconciliationCondition)
    (actor note : string) (now : time) : JobDB :=
  put_cond k (reopen_row row actor note now) db.
End reopen.

(** ** The well-formedness invariant of a condition row

    A satisfied row carries no failure state; a row is due-dated exactly when it is workable
    ([suppressed] rows are written by no code of the repository, so they are unconstrained). *)

Definition cond_wf (row : ReconciliationCondition) : Prop :=
  0 ≤ rc_attempt_count row ∧
  match rc_condition row with
  | SATISFIED => rc_reason row = None ∧ rc_message row = None ∧ rc_attempt_count row = 0 ∧
                 rc_next_eligible_at row = None ∧ rc_blocked_tool row = None
  | OPEN | BACKOFF => is_Some (rc_next_eligible_at row)
  | BLOCKED => rc_next_eligible_at row = None
  | SUPPRESSED => True
  end.

Definition conds_wf (db : JobDB) : Prop := ∀ k row, cond_tbl db !! k = Some row → cond_wf row.

Lemma observe_row_wf row desired observed reason message now :
  cond_wf row → cond_wf (observe_row row desired observed reason message now).
Proof.
  intros [Hc Hw]. unfold observe_row, cond_wf in *.
  destruct desired; cbn; [|done].
  case_decide; [case_decide as Hs; cbn; [by rewrite Hs|done]|].
  case_bool; [done|]. split; cbn; [lia|eauto].
Qed.

Lemma link_attempt_wf row attempt : cond_wf row → cond_wf (link_attempt row attempt).
Proof. by destruct attempt as [[??]|]. Qed.

Lemma put_cond_wf db k row : cond_wf row → conds_wf db → conds_wf (put_cond k row db).
Proof. intros Hr Hdb k' row'. cbn. rewrite lookup_insert. case_decide; naive_solver. Qed.

Lemma record_observation_wf db now domain target desired observed reason message :
  conds_wf db →
  conds_wf (record_observation db now domain target desired observed reason message).1.
Proof.
  intros Hdb. unfold record_observation.
  destruct (cond_tbl db !! (domain, target)) as [row|] eqn:E; cbn;
    apply put_cond_wf; try done; apply observe_row_wf; [by eapply Hdb|].
  by repeat split.
Qed.

Lemma record_condition_wf uniform db now domain target c reason message attempt due tool ab db' row :
  conds_wf db →
  record_condition uniform db now domain target c reason message attempt due tool ab
    = Ok (db', row) →
  conds_wf db' ∧ cond_wf row ∧ cond_tbl db' !! (domain, target) = Some row.
Proof.
  intros Hdb. unfold record_condition.
  destruct (cond_tbl db !! (domain, target)) as [row0|] eqn:E; [|done].
  assert (Hrow : cond_wf (link_attempt row0 attempt)) by eauto using link_attempt_wf.
  assert (Hput : ∀ r d, cond_wf r → cond_tbl d = cond_tbl db →
    conds_wf (put_cond (domain, target) r d) ∧ cond_wf r ∧
    cond_tbl (put_cond (domain, target) r d) !! (domain, target) = Some r).
  { intros r d Hr Hd. split; [|split; [done|cbn; apply lookup_insert_eq]].
    apply put_cond_wf; [done|]. intros ??. rewrite Hd. apply Hdb. }
  destruct Hrow as [Hcnt Hw].
  destruct c as [[]|]; intros Heq; try discriminate.
  - case_bool; simplify_eq; apply Hput; try done; try (by case_bool); split; cbn; [lia|done|lia|eauto].
  - simplify_eq. apply Hput; [by split|]. by case_bool.
  - simplify_eq. apply Hput; [|done]. by split.
Qed.

Lemma reopen_row_wf iso row actor note now : cond_wf (reopen_row iso row actor note now).
Proof. split; cbn; [lia|eauto]. Qed.

#[export] Hint Resolve observe_row_wf put_cond_wf record_observation_wf reopen_row_wf : sutra.

(** The three writers of this module, which the reconcilers and workers use.  Other modules keep condition
    rows of domains of their own with writers that are not modelled: log_pipeline.py (line 194),
    hdcache/alarms.py (line 357), hdcache/fill.py (line 1111) and retention_journal.py (line 503). *)
Inductive cond_step (uniform : Z → Z → Z) (iso : time → string) : JobDB → JobDB → Prop :=
  | cs_observe db now domain target desired observed reason message :
      cond_step uniform iso db
        (record_observation db now domain target desired observed reason message).1
  | cs_attempt db now domain target c reason message attempt due tool ab db' row :
      record_condition uniform db now domain target c reason message attempt due tool ab
        = Ok (db', row) →
      cond_step uniform iso db db'
  | cs_reopen db k row actor note now :
      cond_tbl db !! k = Some row →
      cond_step uniform iso db (reopen_condition iso db k row actor note now).

(** ** Properties *)

(** C35: In every state reached from an empty table by observations, attempt outcomes and reopenings,
    every condition row is well formed. *)
Theorem conditions_well_formed uniform iso db :
  rtc (cond_step uniform iso) empty_jobdb db → conds_wf db.
Proof.
  intros H. assert (Hempty : conds_wf empty_jobdb) by (intros ??; cbn [cond_tbl empty_jobdb]; by rewrite lookup_empty).
  revert Hempty. induction H as [|x y z Hstep _ IH]; [done|].
  intros Hx. apply IH. destruct Hstep; eauto with sutra.
  by eapply record_condition_wf.
Qed.

(** One failed attempt of the default kind: no projected due time, automatic blocking on. *)
Definition fail_once (uniform : Z → Z → Z) (domain target : string) (db : JobDB)
    (f : time * option string * option (Z * JobAttempt)) : JobDB :=
  let '(now, reason, attempt) := f in
  match record_condition uniform db now domain target (Some BACKOFF) reason None attempt None None true with
  | Ok (db', _) => db'
  | Err _ => db
  end.

Lemma fail_once_row uniform domain target db f row :
  cond_tbl db !! (domain, target) = Some row →
  ∃ row', cond_tbl (fail_once uniform domain target db f) !! (domain, target) = Some row' ∧
    rc_attempt_count row' = rc_attempt_count row + 1 ∧
    rc_observed_state row' = rc_observed_state row ∧
    rc_condition row' =
      (if 3 <=? rc_attempt_count row + 1 then BLOCKED else BACKOFF) ∧
    (rc_condition row' = BACKOFF →
       rc_next_eligible_at row' =
         Some (default_backoff_due uniform f.1.1 (rc_attempt_count row + 1))).
Proof.
  intros E. destruct f as [[now reason] attempt]. cbn. unfold record_condition. rewrite E.
  assert (Hl : rc_attempt_count (link_attempt row attempt) = rc_attempt_count row ∧
               rc_observed_state (link_attempt row attempt) = rc_observed_state row)
    by by destruct attempt as [[??]|].
  destruct Hl as [Hl1 Hl2]. rewrite Hl1. unfold DEFAULT_BACKOFF_GIVE_UP_ATTEMPTS. cbn [andb].
  case_bool; cbn; eexists; (split; [apply lookup_insert_eq|]); cbn; rewrite Hl2; by repeat split.
Qed.

(** Escalation: from a row with no recorded failures, every run of [n >= 1] consecutive failed
    attempts leaves it in [backoff] for [n = 1, 2] and in [blocked] from the third on, with the
    observed reality untouched and the failure counter equal to [n]. *)
Lemma backoff_escalation uniform domain target db row fs :
  cond_tbl db !! (domain, target) = Some row →
  rc_attempt_count row = 0 → fs ≠ [] →
  ∃ row', cond_tbl (foldl (fail_once uniform domain target) db fs) !! (domain, target) = Some row' ∧
    rc_attempt_count row' = Z.of_nat (length fs) ∧
    rc_observed_state row' = rc_observed_state row ∧
    rc_condition row' = (if (length fs <? 3)%nat then BACKOFF else BLOCKED).
Proof.
  intros Hrow Hc Hne. induction fs as [|f fs IH] using rev_ind; [done|].
  rewrite foldl_app, length_app. cbn [foldl length].
  destruct (decide (fs = [])) as [->|Hfs].
  - destruct (fail_once_row uniform domain target db f row Hrow) as (row' & E & H1 & H2 & H3 & _).
    exists row'. cbn [foldl length]. rewrite H1, H2, H3, Hc. by repeat split.
  - destruct (IH Hfs) as (r1 & E1 & A1 & A2 & _).
    destruct (fail_once_row uniform domain target _ f r1 E1) as (row' & E & H1 & H2 & H3 & _).
    exists row'. rewrite H1, H2, H3, A1, A2. repeat split; [done|lia|].
    destruct (Nat.ltb_spec (length fs + 1) 3); destruct (Z.leb_spec 3 (Z.of_nat (length fs) + 1));
      done || lia.
Qed.

(** The axes are separate: an attempt outcome never invents a row and never changes the observed
    reality; an observation never touches the attempt linkage, and it leaves a [blocked] row of a
    desired, unrealised target exactly as it is. *)
Lemma axes_separate uniform db now domain target c reason message attempt due tool ab :
  let k := (domain, target) in
  match record_condition uniform db now domain target c reason message attempt due tool ab with
  | Err ReconciliationInvariantError => cond_tbl db !! k = None
  | Err _ => is_Some (cond_tbl db !! k) ∧ c ∉ [None; Some BACKOFF; Some BLOCKED]
  | Ok (db', row') =>
      (∃ row, cond_tbl db !! k = Some row ∧ rc_observed_state row' = rc_observed_state row ∧
              rc_id row' = rc_id row) ∧
      (∀ k', k' ≠ k → cond_tbl db' !! k' = cond_tbl db !! k') ∧
      job_tbl db' = job_tbl db ∧ attempt_tbl db' = attempt_tbl db
  end ∧
  (∀ row desired observed,
     cond_tbl db !! k = Some row →
     let '(db', row') := record_observation db now domain target desired observed reason message in
     rc_last_attempt_id row' = rc_last_attempt_id row ∧
     rc_last_attempt_at row' = rc_last_attempt_at row ∧
     rc_last_success_at row' = rc_last_success_at row ∧
     (rc_condition row = BLOCKED → desired = true → observed ≠ OBSERVED_PRESENT → row' = row)).
Proof.
  intros k. split.
  - unfold record_condition. fold k.
    destruct (cond_tbl db !! k) as [row|] eqn:E; [|done].
    assert (Hl : rc_observed_state (link_attempt row attempt) = rc_observed_state row ∧
                 rc_id (link_attempt row attempt) = rc_id row) by by destruct attempt as [[??]|].
    destruct Hl as [Hl1 Hl2].
    assert (Hother : ∀ r d, cond_tbl d = cond_tbl db →
       ∀ k', k' ≠ k → cond_tbl (put_cond k r d) !! k' = cond_tbl db !! k')
      by (intros r d Hd k' Hne; cbn; rewrite lookup_insert_ne, Hd by done; done).
    destruct c as [[]|]; cbn -[Z.leb];
      [set_solver| | |set_solver|set_solver|]; repeat case_bool; cbn;
      (split; [eauto|split; [intros; by apply Hother|done]]).
  - intros row desired observed E. unfold record_observation. fold k. rewrite E. cbn.
    unfold observe_row. destruct desired; cbn; [|naive_solver].
    repeat case_decide; cbn; [naive_solver..|].
    case_bool; cbn; repeat split; try done. intros Hbl. rewrite Hbl in Hb. done.
Qed.
