(* ===== verification/Engine.v ===== *)
(** * The job engine

    [jobs/engine.py], with [jobs/attempts.py] and the context of [jobs/registry.py]: submission
    with live-only deduplication, the guarded PENDING to RUNNING claim, execution of one job behind
    a savepoint, retry and orphan recovery.

    Handlers are code of their own: a handler is a function from its context, its job id and the
    database to the database it leaves behind and the way it ended.  The engine's transaction is
    the [result]: an [Err] is an exception that propagates to [session_scope], which rolls the
    transaction back.  Clock readings are arguments. *)

From stdpp Require Import pretty.
From S2P Require Import Prelude Json JobModels Catalog Leases RetryConfig Conditions.

Definition CHECKPOINT_BATCH_STATE_KEY : string := "checkpoint_batches".

Inductive EngineError :=
  | NoSuchJob
  | JobTerminal
  | CouldNotClaim
  | CannotRun
  | SqliteLocked (detail : string)
  | HandlerReraised
  | JobVanished
  | IntegrityError
  | ConditionError (e : CondError)
  | LeaseFailure (e : LeaseError).

(** ** Job contexts and results ([jobs/registry.py]) *)

Record JobContext := {
  cx_granted_leases : dict Z;
  cx_observations : list (dict json);
  cx_components : list string;
  cx_component_parents : list (string * string);
}.

Record ConditionProjection := {
  cj_condition : Condition;
  cj_reason : option string;
  cj_message : option string;
  cj_next_eligible_at : option time;
  cj_blocked_tool : option (string * string);
  cj_auto_block : bool;
}.

Record JobResult := {
  jr_ok : bool;
  jr_detail : string;
  jr_step_state : dict json;
  jr_condition : option ConditionProjection;
}.

Definition failure_result (detail : string) : JobResult :=
  {| jr_ok := false; jr_detail := detail; jr_step_state := []; jr_condition := None |}.

Definition add_once {A} `{EqDecision A} (x : A) (l : list A) : list A :=
  if decide (x ∈ l) then l else l ++ [x].

(** [JobContext.touch]; [None] is its [ValueError] for an empty identity. *)
Definition touch (ctx : JobContext) (component : string) (parent : option string)
    : option JobContext :=
  if decide (component = "") then None
  else
    let comps := add_once component (cx_components ctx) in
    match parent with
    | None => Some {| cx_granted_leases := cx_granted_leases ctx;
                      cx_observations := cx_observations ctx; cx_components := comps;
                      cx_component_parents := cx_component_parents ctx |}
    | Some p =>
        if decide (p = "") then None
        else Some {| cx_granted_leases := cx_granted_leases ctx;
                     cx_observations := cx_observations ctx;
                     cx_components := add_once p comps;
                     cx_component_parents := add_once (component, p) (cx_component_parents ctx) |}
    end.

(** The engine's own calls carry a literal prefix, so they are never empty. *)
Definition touch_prefixed (prefix value : string) (ctx : JobContext) : JobContext :=
  or_else (touch ctx (prefix +:+ value) None) ctx.

(** ** Handlers *)

Inductive HandlerEnd :=
  | HReturn (r : JobResult)
  | HNotImplemented (message trace : string)
  | HLocked (message : string)
  | HRaise (message trace : string) (session_broken : bool).

Record HandlerRun := {
  hr_ctx : JobContext;
  hr_end : HandlerEnd;
  hr_batch_touched : bool;
  hr_failed_batch_state : option json;
}.

Definition JobHandler := JobContext → Z → Database → Database * HandlerRun.

(** ** Row updates *)

Definition set_claimed (j : Job) (now : time) : Job := {|
  kind := kind j; params := params j; required_resources := required_resources j;
  prerequisites := prerequisites j; status := RUNNING; step_state := step_state j;
  attempts := attempts j + 1; not_before := not_before j; priority := priority j;
  dedupe_key := dedupe_key j; recon_domain := recon_domain j;
  recon_target_key := recon_target_key j; last_error := last_error j;
  created_at := created_at j; started_at := Some now; finished_at := None |}.

Definition set_finished (j : Job) (s : JobStatus) (now : time) (err : option string)
    (steps : dict json) : Job := {|
  kind := kind j; params := params j; required_resources := required_resources j;
  prerequisites := prerequisites j; status := s; step_state := steps;
  attempts := attempts j; not_before := not_before j; priority := priority j;
  dedupe_key := dedupe_key j; recon_domain := recon_domain j;
  recon_target_key := recon_target_key j; last_error := err;
  created_at := created_at j; started_at := started_at j; finished_at := Some now |}.

Definition set_requeued (j : Job) (due : time) : Job := {|
  kind := kind j; params := params j; required_resources := required_resources j;
  prerequisites := prerequisites j; status := PENDING; step_state := step_state j;
  attempts := attempts j; not_before := due; priority := priority j;
  dedupe_key := dedupe_key j; recon_domain := recon_domain j;
  recon_target_key := recon_target_key j; last_error := last_error j;
  created_at := created_at j; started_at := None; finished_at := None |}.

Definition set_orphan_reset (j : Job) (marker : string) (steps : dict json) (now : time) : Job := {|
  kind := kind j; params := params j; required_resources := required_resources j;
  prerequisites := prerequisites j; status := PENDING; step_state := steps;
  attempts := attempts j; not_before := now; priority := priority j;
  dedupe_key := dedupe_key j; recon_domain := recon_domain j;
  recon_target_key := recon_target_key j; last_error := Some marker;
  created_at := created_at j; started_at := None; finished_at := finished_at j |}.

Definition set_step_state (j : Job) (steps : dict json) : Job := {|
  kind := kind j; params := params j; required_resources := required_resources j;
  prerequisites := prerequisites j; status := status j; step_state := steps;
  attempts := attempts j; not_before := not_before j; priority := priority j;
  dedupe_key := dedupe_key j; recon_domain := recon_domain j;
  recon_target_key := recon_target_key j; last_error := last_error j;
  created_at := created_at j; started_at := started_at j; finished_at := finished_at j |}.

(** ** Submission *)

Definition live_with_key (key : string) (j : Job) : bool :=
  bool_decide (dedupe_key j = Some key) && live (status j).

(** [_live_job_for_dedupe]: the live holder of the key with the smallest id. *)
Definition live_job_for_dedupe (db : JobDB) (key : string) : option (Z * Job) :=
  head (sort_by fst (filter (λ r, live_with_key key r.2 = true) (job_rows db))).

Record SubmitSpec := {
  sb_kind : string;
  sb_params : dict json;
  sb_required_resources : list json;
  sb_prerequisites : list Z;
  sb_not_before : option time;
  sb_priority : Z;
  sb_dedupe_key : option string;
  sb_recon_domain : option string;
  sb_recon_target_key : option string;
}.

Definition new_job (s : SubmitSpec) (now : time) : Job := {|
  kind := sb_kind s; params := sb_params s; required_resources := sb_required_resources s;
  prerequisites := sb_prerequisites s; status := PENDING; step_state := []; attempts := 0;
  not_before := or_else (sb_not_before s) now; priority := sb_priority s;
  dedupe_key := sb_dedupe_key s; recon_domain := sb_recon_domain s;
  recon_target_key := sb_recon_target_key s; last_error := None; created_at := now;
  started_at := None; finished_at := None |}.

(** [submit].  [at_flush] is the database the INSERT meets: what other transactions committed
    between the duplicate check and the flush is visible to the unique index. *)
Definition submit (db : JobDB) (at_flush : JobDB → JobDB) (s : SubmitSpec) (now : time)
    : result EngineError (JobDB * Z) :=
  match sb_dedupe_key s with
  | None => Ok (insert_job (new_job s now) db)
  | Some key =>
      match live_job_for_dedupe db key with
      | Some (id, _) => Ok (db, id)
      | None =>
          let db := at_flush db in
          match live_job_for_dedupe db key with
          | Some (id, _) => Ok (db, id)
          | None => Ok (insert_job (new_job s now) db)
          end
      end
  end.

(** A call with no concurrent committer. *)
Definition submit1 (db : JobDB) (s : SubmitSpec) (now : time) : JobDB * Z :=
  match submit db id s now with Ok r => r | Err _ => (db, 0) end.

(** ** Claiming *)

Definition claim_job_by_id (db : JobDB) (id : Z) (now : time) : option (JobDB * Job) :=
  match job_tbl db !! id with
  | Some j =>
      if decide (status j = PENDING)
      then let j' := set_claimed j now in Some (put_job id j' db, j')
      else None
  | None => None
  end.

Definition prerequisites_succeeded (db : JobDB) (j : Job) : bool :=
  forallb (λ p, match job_tbl db !! p with
                | Some q => bool_decide (status q = SUCCEEDED)
                | None => false
                end) (prerequisites j).

(** A dispatch gate returns its verdict, or [None] when it raises. *)
Definition DispatchGate := Database → Z → Job → option bool.

Section engine.
Context (uniform : Z → Z → Z).
Context (isoformat : time → string).
Context (hostname worker_id code_version : string).
Context (get_handler : string → option JobHandler).
Context (handler_not_registered : string → string).
Context (get_dispatch_gate : string → option DispatchGate).

Definition dispatch_gate_allows (d : Database) (id : Z) (j : Job) : bool :=
  match get_dispatch_gate (kind j) with
  | None => true
  | Some gate => or_else (gate d id j) true
  end.

Definition claim_order (r : Z * Job) : Z * (Z * Z) :=
  (priority r.2, (created_at r.2, r.1)).

Definition pending_candidates (d : Database) (now : time) : list (Z * Job) :=
  let rows := sort_by claim_order
    (filter (λ r, status r.2 = PENDING ∧ not_before r.2 ≤ now) (job_rows (jobs d))) in
  filter (λ r, prerequisites_succeeded (jobs d) r.2 = true ∧
               dispatch_gate_allows d r.1 r.2 = true) rows.

Fixpoint claim_first (d : Database) (m : LeaseManager) (now : time) (cands : list (Z * Job))
    : result EngineError (option (JobDB * Z)) :=
  match cands with
  | [] => Ok None
  | (id, j) :: cands =>
      match normalize_required_resources (required_resources j) with
      | Err e => Err (LeaseFailure e)
      | Ok required =>
          if fits m required then
            match claim_job_by_id (jobs d) id now with
            | Some (db', _) => Ok (Some (db', id))
            | None => claim_first d m now cands
            end
          else claim_first d m now cands
      end
  end.

Definition claim_pending (d : Database) (m : LeaseManager) (now : time)
    : result EngineError (option (JobDB * Z)) :=
  claim_first d m now (pending_candidates d now).

(** ** Contexts and the attempt record *)

Definition component_value (v : option json) : option string :=
  match v with
  | Some (JBytes hex) => Some hex
  | Some (JStr s) => if decide (s = "") then None else Some s
  | Some (JInt n) => Some (pretty n)
  | _ => None
  end.

Definition touch_keys (prefix : string) (render : string → string) (keys : list string)
    (ps : dict json) (ctx : JobContext) : JobContext :=
  foldl (λ ctx key, match component_value (dget key ps) with
                    | Some v => touch_prefixed prefix (render v) ctx
                    | None => ctx
                    end) ctx keys.

Definition touch_param_components (ctx : JobContext) (ps : dict json) : JobContext :=
  let ctx := touch_keys "asset:"
               (λ v, if String.prefix "sha256:" v then v else "sha256:" +:+ v)
               ["asset_hash"; "content_sha256"] ps ctx in
  let ctx := touch_keys "tape:" id ["tape"; "tape_id"; "tape_uuid"; "media_id"] ps ctx in
  let ctx := touch_keys "drive:" id ["drive"; "drive_id"; "drive_element_address"] ps ctx in
  let ctx := touch_keys "library:" id ["library"; "library_id"; "library_uuid"] ps ctx in
  let ctx := touch_keys "backend:" id ["backend"; "backend_name"; "target_backend"] ps ctx in
  touch_keys "dest:" (λ v, if String.prefix "/" v then hostname +:+ ":" +:+ v else v)
    ["dest_path"; "destination"; "output_path"] ps ctx.

Definition job_context (j : Job) (granted : dict Z) : JobContext :=
  let ctx := {| cx_granted_leases := granted; cx_observations := []; cx_components := [];
                cx_component_parents := [] |} in
  touch_param_components (touch_prefixed "job:" (kind j) ctx) (params j).

Definition attempt_detail (ctx : JobContext) (steps : dict json) : dict json :=
  [("step_state", JObj steps);
   ("components", JList (JStr <$> dedup_by id (cx_components ctx)));
   ("observations", JList (JObj <$> cx_observations ctx))] ++
  match cx_component_parents ctx with
  | [] => []
  | ps => [("component_parents",
            JList ((λ cp, JObj [("component", JStr cp.1); ("parent", JStr cp.2)]) <$> ps))]
  end.

Definition attempt_of (id : Z) (j : Job) (granted : dict Z) (detail : dict json) (now : time)
    : JobAttempt :=
  let finished := or_else (finished_at j) now in
  {| at_job_id := id; at_job_kind := kind j; at_number := attempts j; at_outcome := status j;
     at_error := last_error j; at_started_at := or_else (started_at j) finished;
     at_finished_at := finished; at_granted_leases := granted; at_worker_id := worker_id;
     at_code_version := code_version; at_detail := detail |}.

Definition record_attempt (db : JobDB) (id : Z) (j : Job) (granted : dict Z)
    (detail : dict json) (now : time) : JobDB * (Z * JobAttempt) :=
  let a := attempt_of id j granted detail now in
  let '(db', aid) := insert_attempt a db in (db', (aid, a)).

(** [_record_reconciler_condition] *)
Definition record_reconciler_condition (db : JobDB) (j : Job) (attempt : Z * JobAttempt)
    (now : time) (condition : option Condition) (reason message : option string)
    (next_eligible_at : option time) (blocked_tool : option (string * string))
    (auto_block : bool) : result EngineError JobDB :=
  match recon_domain j with
  | None => Ok db
  | Some domain =>
      match recon_target_key j with
      | None => Err (ConditionError TargetKeyMissing)
      | Some target =>
          match record_condition uniform db now domain target condition reason message
                  (Some attempt) next_eligible_at blocked_tool auto_block with
          | Ok (db', _) => Ok db'
          | Err e => Err (ConditionError e)
          end
      end
  end.

Definition record_projection_condition (db : JobDB) (j : Job) (attempt : Z * JobAttempt)
    (now : time) (p : ConditionProjection) : result EngineError JobDB :=
  record_reconciler_condition db j attempt now (Some (cj_condition p)) (cj_reason p)
    (cj_message p) (cj_next_eligible_at p) (cj_blocked_tool p) (cj_auto_block p).

(** ** Running one job *)

(** The failure tail shared by the exception branches of [run_one]: mark the row FAILED, append
    the attempt, record the condition, return the synthesised result. *)
Definition fail_job (d : Database) (id : Z) (j : Job) (ctx : JobContext) (granted : dict Z)
    (now : time) (err : string) (condition : Condition) (reason message : string)
    : result EngineError (Database * JobResult) :=
  let j' := set_finished j FAILED now (Some err) (step_state j) in
  let db := put_job id j' (jobs d) in
  let '(db, attempt) := record_attempt db id j' granted (attempt_detail ctx (step_state j')) now in
  db ← record_reconciler_condition db j' attempt now (Some condition) (Some reason)
         (Some message) None None true;
  Ok (with_jobdb db d, failure_result message).

(** [_invoke_handler_in_savepoint]: a returning handler's database is kept; a raising handler's
    is rolled back to the savepoint, keeping only the checkpoint-batch part of its step state
    when it touched it. *)
Definition restore_batch_state (prior : dict json) (failed : option json) : dict json :=
  match failed with
  | Some (JObj (kv :: l)) => dset CHECKPOINT_BATCH_STATE_KEY (JObj (kv :: l)) prior
  | _ => ddel CHECKPOINT_BATCH_STATE_KEY prior
  end.

Definition invoke_handler_in_savepoint (d : Database) (id : Z) (ctx : JobContext)
    (handler : JobHandler) : Database * HandlerRun :=
  let '(d', run) := handler ctx id d in
  match hr_end run with
  | HReturn _ => (d', run)
  | _ =>
      if hr_batch_touched run then
        match job_tbl (jobs d) !! id with
        | Some j =>
            let steps := restore_batch_state (step_state j) (hr_failed_batch_state run) in
            (with_jobdb (put_job id (set_step_state j steps) (jobs d)) d, run)
        | None => (d, run)
        end
      else (d, run)
  end.

(** The row after a handler returned: status and error from the result, step state merged. *)
Definition finished_row (j : Job) (r : JobResult) (now : time) : Job :=
  set_finished j (if jr_ok r then SUCCEEDED else FAILED) now
    (if jr_ok r then None else Some (jr_detail r))
    (match jr_step_state r with
     | [] => step_state j
     | new => dmerge (step_state j) new
     end).

Definition finish_job (d : Database) (id : Z) (ctx : JobContext) (granted : dict Z)
    (now : time) (r : JobResult) : result EngineError (Database * JobResult) :=
  match job_tbl (jobs d) !! id with
  | None => Err JobVanished
  | Some j =>
      let j' := finished_row j r now in
      let db := put_job id j' (jobs d) in
      let '(db, attempt) := record_attempt db id j' granted (attempt_detail ctx (step_state j'))
                              now in
      db ← match jr_condition r with
           | Some p => record_projection_condition db j' attempt now p
           | None =>
               if jr_ok r
               then record_reconciler_condition db j' attempt now None None None None None true
               else record_reconciler_condition db j' attempt now (Some BACKOFF)
                      (Some "unclassified") (Some (jr_detail r)) None None true
           end;
      Ok (with_jobdb db d, r)
  end.

(** Admission: an unclaimed PENDING job is claimed first, a RUNNING one is run as it is. *)
Definition admit_job (d : Database) (id : Z) (now : time) : result EngineError (Database * Job) :=
  match job_tbl (jobs d) !! id with
  | None => Err NoSuchJob
  | Some j =>
      if terminal (status j) then Err JobTerminal
      else if decide (status j = PENDING) then
        match claim_job_by_id (jobs d) id now with
        | None => Err CouldNotClaim
        | Some (db, j) => Ok (with_jobdb db d, j)
        end
      else if decide (status j = RUNNING) then Ok (d, j)
      else Err CannotRun
  end.

(** [run_one].  [committed] is the last committed database, which [session.rollback()] goes back
    to when the handler left the session unusable. *)
Definition run_one (committed d : Database) (id : Z) (granted : dict Z) (t_claim now : time)
    : result EngineError (Database * JobResult) :=
  '(d, j) ← admit_job d id t_claim;
  let ctx := job_context j granted in
  match get_handler (kind j) with
  | None =>
      let msg := handler_not_registered (kind j) in
      fail_job d id j ctx granted now msg BACKOFF "handler-not-registered" msg
  | Some handler =>
      let '(d', run) := invoke_handler_in_savepoint d id ctx handler in
      match hr_end run with
      | HReturn r => finish_job d' id (hr_ctx run) granted now r
      | HNotImplemented msg trace =>
          match job_tbl (jobs d') !! id with
          | None => Err JobVanished
          | Some j => fail_job d' id j (hr_ctx run) granted now trace BLOCKED "not-implemented" msg
          end
      | HLocked msg => Err (SqliteLocked msg)
      | HRaise msg trace broken =>
          let d' := if broken then committed else d' in
          match job_tbl (jobs d') !! id with
          | None => Err HandlerReraised
          | Some j => fail_job d' id j (hr_ctx run) granted now trace BACKOFF
                        "handler-exception" msg
          end
      end
  end.

(** ** Retry and recovery *)

Definition dedupe_conflict (db : JobDB) (id : Z) (j : Job) : bool :=
  match dedupe_key j with
  | None => false
  | Some key =>
      existsb (λ r, bool_decide (r.1 ≠ id) && live_with_key key r.2) (job_rows db)
  end.

(** [apply_retry_policy]; the flush is where the live-only unique index is checked. *)
Definition apply_retry_policy (db : JobDB) (id : Z) (config : WorkerConfig) (now : time)
    : result EngineError JobDB :=
  match job_tbl db !! id with
  | None => Ok db
  | Some j =>
      if decide (status j ≠ FAILED) then Ok db
      else
        let retry := retry_for_kind config (kind j) in
        if max_attempts retry <=? attempts j then Ok db
        else
          let due := now + delay_seconds uniform retry (attempts j)
                             (wc_max_backoff_seconds config) in
          let j' := set_requeued j due in
          if dedupe_conflict db id j' then Err IntegrityError else Ok (put_job id j' db)
  end.

Definition orphan_marker (now : time) : string :=
  "orphaned RUNNING at startup, reset to PENDING at " +:+ isoformat now.

Definition reset_orphan (now : time) (j : Job) : Job :=
  if decide (status j = RUNNING) then
    let marker := orphan_marker now in
    let obs := as_list (dget "engine_observations" (step_state j)) ++
               [JObj [("note", JStr marker)]] in
    set_orphan_reset j marker (dset "engine_observations" (JList obs) (step_state j)) now
  else j.

Definition reset_orphaned_running_jobs (db : JobDB) (now : time) : JobDB * Z :=
  (with_jobs (reset_orphan now <$> job_tbl db) db,
   Z.of_nat (length (filter (λ r, status r.2 = RUNNING) (job_rows db)))).
End engine.

(** The context strings are data: simplification never computes them. *)
Arguments touch_param_components : simpl never.
Arguments job_context : simpl never.
Arguments attempt_detail : simpl never.
