(* ===== verification/EngineFacts.v ===== *)
(** * Correctness of the job engine

    Submission keeps the live-only unique index and is idempotent on the deduplication key; the
    claim is an exclusive compare-and-set; candidates come in dispatch order; a run ends in a
    terminal status with exactly one matching attempt row; a raising handler leaves no trace
    besides that row; and the audit transcript never repeats an attempt number. *)

From S2P Require Import Prelude Json JobModels Catalog Leases RetryConfig Conditions Engine.

(** ** Submission *)

Lemma live_with_key_iff key j :
  live_with_key key j = true ↔ dedupe_key j = Some key ∧ live (status j) = true.
Proof. unfold live_with_key. rewrite andb_true_iff, bool_decide_eq_true. done. Qed.

Lemma live_job_Some db key id j :
  live_job_for_dedupe db key = Some (id, j) →
  job_tbl db !! id = Some j ∧ dedupe_key j = Some key ∧ live (status j) = true.
Proof.
  intros Hh. apply head_Some_elem_of in Hh. rewrite elem_of_sort_by, list_elem_of_filter in Hh.
  destruct Hh as [Hl Hin]. apply elem_of_job_rows in Hin. by apply live_with_key_iff in Hl.
Qed.

Lemma live_job_None db key :
  live_job_for_dedupe db key = None →
  ∀ id j, job_tbl db !! id = Some j → dedupe_key j = Some key → live (status j) = false.
Proof.
  intros Hh%head_None id j Hj Hk. destruct (live (status j)) eqn:Hl; [|done]. exfalso.
  apply (not_elem_of_nil (id, j)). rewrite <- Hh, elem_of_sort_by, list_elem_of_filter.
  by rewrite elem_of_job_rows, live_with_key_iff.
Qed.

Lemma live_job_exists db key id j :
  job_tbl db !! id = Some j → dedupe_key j = Some key → live (status j) = true →
  dedupe_unique db → ∃ j', live_job_for_dedupe db key = Some (id, j').
Proof.
  intros Hj Hk Hl Hu. destruct (live_job_for_dedupe db key) as [[id' j']|] eqn:E.
  - apply live_job_Some in E as (?&?&?). exists j'. by rewrite (Hu id id' j j' key).
  - pose proof (live_job_None _ _ E _ _ Hj Hk). congruence.
Qed.

Lemma insert_job_lookup j db i :
  job_tbl (insert_job j db).1 !! i =
    if decide (next_job_id db = i) then Some j else job_tbl db !! i.
Proof. cbn. apply lookup_insert. Qed.

Lemma insert_job_ids_ok j db : jobdb_ids_ok db → jobdb_ids_ok (insert_job j db).1.
Proof.
  intros [H1 H2]. split; [|done]. intros i j'. rewrite insert_job_lookup. cbn.
  case_decide; intros; simplify_eq; [lia|]. specialize (H1 _ _ H0). lia.
Qed.

Lemma insert_job_unique j db :
  jobdb_ids_ok db → dedupe_unique db →
  (∀ key, dedupe_key j = Some key → live (status j) = true → live_job_for_dedupe db key = None) →
  dedupe_unique (insert_job j db).1.
Proof.
  intros Hid Hu Hnew i i' x x' key Hx Hx' Hk Hk' Hl Hl'.
  rewrite insert_job_lookup in Hx, Hx'.
  repeat case_decide; simplify_eq; try done; [| |by eapply Hu].
  - specialize (Hnew key Hk' Hl'). rewrite (live_job_None _ _ Hnew _ _ Hx Hk) in Hl. done.
  - specialize (Hnew key Hk Hl). rewrite (live_job_None _ _ Hnew _ _ Hx' Hk') in Hl'. done.
Qed.

Definition job_index_ok (db : JobDB) : Prop := jobdb_ids_ok db ∧ dedupe_unique db.

(** Submission never fails, whatever another transaction commits before the flush; it keeps at
    most one live job per deduplication key, hands back a row that is live under that key, and a
    second submission of the key returns the same job without writing. *)
Lemma submit_dedupes db at_flush s now :
  job_index_ok db → job_index_ok (at_flush db) →
  ∃ db' id j, submit db at_flush s now = Ok (db', id) ∧ job_index_ok db' ∧
    job_tbl db' !! id = Some j ∧ live (status j) = true ∧ dedupe_key j = sb_dedupe_key s ∧
    (∀ at_flush' now', is_Some (sb_dedupe_key s) →
       submit db' at_flush' s now' = Ok (db', id)).
Proof.
  intros [Hid Hu] [Hid' Hu'].
  assert (Hins : ∀ d, job_index_ok d →
    (∀ key, sb_dedupe_key s = Some key → live_job_for_dedupe d key = None) →
    job_index_ok (insert_job (new_job s now) d).1 ∧
    job_tbl (insert_job (new_job s now) d).1 !! next_job_id d = Some (new_job s now)).
  { intros d [? ?] Hn. split; [|by rewrite insert_job_lookup, decide_True].
    split; [by apply insert_job_ids_ok|]. apply insert_job_unique; [done..|]. intros; by apply Hn. }
  assert (Hagain : ∀ d id j, job_index_ok d → job_tbl d !! id = Some j →
    dedupe_key j = sb_dedupe_key s → live (status j) = true →
    ∀ fl now', is_Some (sb_dedupe_key s) → submit d fl s now' = Ok (d, id)).
  { intros d id j [_ Hdu] Hj Hk Hl fl now' [key Hkey]. unfold submit. rewrite Hkey.
    rewrite Hkey in Hk. by destruct (live_job_exists d key id j Hj Hk Hl Hdu) as [? ->]. }
  unfold submit at 1. destruct (sb_dedupe_key s) as [key|] eqn:Hkey.
  - destruct (live_job_for_dedupe db key) as [[id j]|] eqn:E.
    { exists db, id, j. apply live_job_Some in E as (?&?&?). rewrite <- Hkey in *.
      do 5 (split; [done|]). intros; by eapply Hagain. }
    destruct (live_job_for_dedupe (at_flush db) key) as [[id j]|] eqn:E'.
    { exists (at_flush db), id, j. apply live_job_Some in E' as (?&?&?). rewrite <- Hkey in *.
      do 5 (split; [done|]). intros; by eapply Hagain. }
    destruct (Hins (at_flush db)) as [Hok Hl]; [by split|by intros ? [= ->]|].
    do 3 eexists. split; [done|]. split; [exact Hok|]. split; [exact Hl|].
    rewrite <- Hkey in *. split; [done|]. split; [done|].
    intros; eapply Hagain; [exact Hok|exact Hl|done..].
  - destruct (Hins db) as [Hok Hl]; [by split|done|].
    do 3 eexists. split; [done|]. split; [exact Hok|]. split; [exact Hl|].
    split; [done|]. split; [done|]. by intros ?? [? ?].
Qed.

(** ** Claiming *)

Lemma put_job_lookup id j db i :
  job_tbl (put_job id j db) !! i = if decide (id = i) then Some j else job_tbl db !! i.
Proof. cbn. apply lookup_insert. Qed.

Lemma claim_Some db id now db' j' :
  claim_job_by_id db id now = Some (db', j') ↔
  ∃ j, job_tbl db !! id = Some j ∧ status j = PENDING ∧ j' = set_claimed j now ∧
       db' = put_job id j' db.
Proof.
  unfold claim_job_by_id. split.
  - destruct (job_tbl db !! id) as [j|]; [|done]. case_decide; [|done]. naive_solver.
  - intros (j & -> & Hp & -> & ->). by rewrite decide_True.
Qed.

(** The claim is an exclusive compare-and-set: it succeeds exactly on a PENDING row, it touches no
    other row, the claimed row is RUNNING with one more attempt, and until the row is requeued no
    second claim of it succeeds. *)
Lemma claim_exclusive db id now :
  (is_Some (claim_job_by_id db id now) ↔ ∃ j, job_tbl db !! id = Some j ∧ status j = PENDING) ∧
  ∀ db' j', claim_job_by_id db id now = Some (db', j') →
    job_tbl db' !! id = Some j' ∧ status j' = RUNNING ∧
    (∃ j, job_tbl db !! id = Some j ∧ attempts j' = attempts j + 1) ∧
    (∀ i, i ≠ id → job_tbl db' !! i = job_tbl db !! i) ∧
    ∀ now', claim_job_by_id db' id now' = None.
Proof.
  split.
  - split.
    + intros [[db' j'] H]. apply claim_Some in H as (j & ? & ? & _). eauto.
    + intros (j & Hj & Hp). eexists (_, _). apply claim_Some. eauto.
  - intros db' j' H. apply claim_Some in H as (j & Hj & Hp & -> & ->).
    rewrite put_job_lookup, decide_True by done. repeat split; eauto.
    + intros i Hi. rewrite put_job_lookup, decide_False by done. done.
    + intros now'. unfold claim_job_by_id. by rewrite put_job_lookup, decide_True.
Qed.

(** ** Dispatch order *)

Lemma elem_of_pending_candidates gates d now id j :
  (id, j) ∈ pending_candidates gates d now ↔
  job_tbl (jobs d) !! id = Some j ∧ status j = PENDING ∧ not_before j ≤ now ∧
  prerequisites_succeeded (jobs d) j = true ∧ dispatch_gate_allows gates d id j = true.
Proof.
  unfold pending_candidates. rewrite list_elem_of_filter, elem_of_sort_by, list_elem_of_filter.
  rewrite elem_of_job_rows. naive_solver.
Qed.

Lemma StronglySorted_filter {A} (R : relation A) (P : A → Prop) `{∀ x, Decision (P x)} l :
  StronglySorted R l → StronglySorted R (filter P l).
Proof.
  induction 1 as [|x l Hs IH Hall]; [constructor|].
  rewrite filter_cons. case_decide; [|done]. constructor; [done|].
  rewrite Forall_forall in *. intros y [_ Hy]%list_elem_of_filter. auto.
Qed.

Lemma NoDup_pending_candidates gates d now : NoDup (pending_candidates gates d now).*1.
Proof.
  unfold pending_candidates.
  eapply sublist_NoDup; [|apply fmap_sublist, sublist_filter].
  rewrite (fmap_Permutation fst _ _ (sort_by_perm _ _)).
  eapply sublist_NoDup; [|apply fmap_sublist, sublist_filter].
  apply NoDup_fst_map_to_list.
Qed.

(** The dispatch list holds exactly the pending jobs that are due, whose prerequisites all
    succeeded and whose gate lets them through, in order of priority, then age, then id, without
    repetition. *)
Lemma pending_candidates_spec gates d now :
  (∀ id j, (id, j) ∈ pending_candidates gates d now ↔
     job_tbl (jobs d) !! id = Some j ∧ status j = PENDING ∧ not_before j ≤ now ∧
     prerequisites_succeeded (jobs d) j = true ∧ dispatch_gate_allows gates d id j = true) ∧
  key_sorted claim_order (pending_candidates gates d now) ∧
  NoDup (pending_candidates gates d now).*1.
Proof.
  split; [intros; apply elem_of_pending_candidates|]. split.
  - apply StronglySorted_filter, sort_by_sorted.
  - apply NoDup_pending_candidates.
Qed.

(** ** Frames of the condition writers: job and attempt rows are out of their reach *)

Record same_jobs (db db' : JobDB) : Prop := {
  sj_jobs : job_tbl db' = job_tbl db;
  sj_next_job : next_job_id db' = next_job_id db;
  sj_attempts : attempt_tbl db' = attempt_tbl db;
  sj_next_attempt : next_attempt_id db' = next_attempt_id db;
}.

Lemma record_condition_same_jobs uniform db now dom tgt c reason msg att due tool ab db' row :
  record_condition uniform db now dom tgt c reason msg att due tool ab = Ok (db', row) →
  same_jobs db db'.
Proof.
  unfold record_condition. destruct (cond_tbl db !! (dom, tgt)) as [row0|]; [|done].
  destruct c as [[]|]; intros H; repeat case_bool; simplify_eq; done.
Qed.

Lemma record_reconciler_condition_same_jobs uniform db j att now c reason msg due tool ab db' :
  record_reconciler_condition uniform db j att now c reason msg due tool ab = Ok db' →
  same_jobs db db'.
Proof.
  unfold record_reconciler_condition. destruct (recon_domain j); [|by intros [= <-]].
  destruct (recon_target_key j); [|done].
  destruct (record_condition _ _ _ _ _ _ _ _ _ _ _ _) as [[db1 row]|] eqn:E; [|done].
  intros [= <-]. by eapply record_condition_same_jobs.
Qed.

(** ** What ending a run writes: one job row, one attempt row *)

Record run_ended (d d' : Database) (id : Z) (granted : dict Z) (j' : Job) (ok : bool) : Prop := {
  re_cat : cat d' = cat d;
  re_jobs : job_tbl (jobs d') = <[id := j']> (job_tbl (jobs d));
  re_next_job : next_job_id (jobs d') = next_job_id (jobs d);
  re_attempt : ∃ a,
    attempt_tbl (jobs d') = <[next_attempt_id (jobs d) := a]> (attempt_tbl (jobs d)) ∧
    at_job_id a = id ∧ at_number a = attempts j' ∧ at_outcome a = status j' ∧
    at_error a = last_error j' ∧ at_granted_leases a = granted;
  re_next_attempt : next_attempt_id (jobs d') = next_attempt_id (jobs d) + 1;
  re_status : status j' = if ok then SUCCEEDED else FAILED;
}.

Section runs.
Context (uniform : Z → Z → Z) (hostname worker_id code_version : string).
Context (get_handler : string → option JobHandler).
Context (not_registered : string → string).

Notation fail_job := (fail_job uniform worker_id code_version).
Notation finish_job := (finish_job uniform worker_id code_version).
Notation run_one := (run_one uniform hostname worker_id code_version get_handler not_registered).

Lemma fail_job_ended d id j ctx granted now err c reason msg d' r :
  fail_job d id j ctx granted now err c reason msg = Ok (d', r) →
  r = failure_result msg ∧
  run_ended d d' id granted (set_finished j FAILED now (Some err) (step_state j)) false.
Proof.
  unfold fail_job. cbn. intros H. apply bind_Ok in H as (db1 & H & Heq). inv_ok.
  apply record_reconciler_condition_same_jobs in H as [Hj Hn Ha Hna]. cbn in *. simplify_eq.
  split; [done|]. constructor; cbn; eauto. eexists. split; [exact Ha|]. by cbn.
Qed.

Lemma finish_job_ended d id ctx granted now r d' r' :
  finish_job d id ctx granted now r = Ok (d', r') →
  r' = r ∧ ∃ j j', job_tbl (jobs d) !! id = Some j ∧ attempts j' = attempts j ∧
    dedupe_key j' = dedupe_key j ∧ kind j' = kind j ∧ recon_domain j' = recon_domain j ∧
    last_error j' = (if jr_ok r then None else Some (jr_detail r)) ∧
    run_ended d d' id granted j' (jr_ok r).
Proof.
  unfold finish_job. destruct (job_tbl (jobs d) !! id) as [j|] eqn:Ej; [|done].
  cbn. intros H. apply bind_Ok in H as (db1 & H & Heq). injection Heq as Hd Hr. subst d' r'.
  split; [done|]. exists j. eexists (finished_row j r now).
  do 6 (split; [done|]).
  assert (Hs : same_jobs (record_attempt worker_id code_version
      (put_job id (finished_row j r now) (jobs d)) id (finished_row j r now) granted
      (attempt_detail ctx (step_state (finished_row j r now))) now).1 db1).
  { destruct (jr_condition r) as [p|];
      [unfold record_projection_condition in H|destruct (jr_ok r)];
      by eapply record_reconciler_condition_same_jobs. }
  destruct Hs as [Hj Hn Ha Hna]. cbn in *.
  constructor; cbn; eauto. eexists. split; [exact Ha|]. by cbn.
Qed.

Lemma admit_job_ok d id now d1 j1 :
  admit_job d id now = Ok (d1, j1) →
  cat d1 = cat d ∧ job_tbl (jobs d1) !! id = Some j1 ∧ status j1 = RUNNING ∧
  (∀ i, i ≠ id → job_tbl (jobs d1) !! i = job_tbl (jobs d) !! i) ∧
  attempt_tbl (jobs d1) = attempt_tbl (jobs d) ∧
  next_attempt_id (jobs d1) = next_attempt_id (jobs d) ∧
  ∃ j, job_tbl (jobs d) !! id = Some j ∧
    ((status j = PENDING ∧ attempts j1 = attempts j + 1) ∨ (status j = RUNNING ∧ d1 = d ∧ j1 = j)).
Proof.
  unfold admit_job. destruct (job_tbl (jobs d) !! id) as [j|] eqn:Ej; [|done].
  case_bool; [done|]. case_decide as Hp.
  - destruct (claim_job_by_id (jobs d) id now) as [[db j']|] eqn:E; [|done]. intros [= <- <-].
    apply claim_Some in E as (j0 & Hj0 & _ & -> & ->). simplify_eq.
    split; [done|]. cbn. rewrite lookup_insert_eq. do 2 (split; [done|]).
    split; [intros; by rewrite lookup_insert_ne|]. do 2 (split; [done|]). exists j. auto.
  - case_decide as Hr; [|done]. intros [= <- <-]. do 6 (split; [done|]). exists j. auto.
Qed.

(** What the engine expects of handlers: the attempt transcript is the engine's own, existing
    job rows keep their status, attempt count, deduplication key and routing, and new rows come
    from [submit]. *)
Record handler_frame (db db' : JobDB) : Prop := {
  hf_attempts : attempt_tbl db' = attempt_tbl db;
  hf_next_attempt : next_attempt_id db' = next_attempt_id db;
  hf_rows : ∀ i j, job_tbl db !! i = Some j → ∃ j', job_tbl db' !! i = Some j' ∧
    status j' = status j ∧ attempts j' = attempts j ∧ dedupe_key j' = dedupe_key j ∧
    recon_domain j' = recon_domain j;
  hf_new : ∀ i j', job_tbl db' !! i = Some j' → job_tbl db !! i = None → status j' = PENDING;
  hf_index : job_index_ok db → job_index_ok db';
}.

Definition handlers_framed : Prop :=
  ∀ k h ctx i d, get_handler k = Some h → handler_frame (jobs d) (jobs (h ctx i d).1).

Lemma handler_frame_refl db : handler_frame db db.
Proof. constructor; eauto 10; congruence. Qed.

Lemma step_state_frame db id j steps :
  job_tbl db !! id = Some j → handler_frame db (put_job id (set_step_state j steps) db).
Proof.
  intros Hj. constructor; [done|done| | |].
  - intros i j0 Hi. rewrite put_job_lookup. case_decide; simplify_eq; eauto 10.
  - intros i j0. rewrite put_job_lookup. case_decide; intros; simplify_eq.
  - intros [[Hi Ha] Hu]. split; [split; [|done]|].
    + intros i j0. rewrite put_job_lookup. case_decide; intros; simplify_eq; eauto.
    + intros i i' x x' key. rewrite !put_job_lookup.
      repeat case_decide; intros; simplify_eq; cbn in *; eauto.
Qed.

Lemma invoke_frame d id ctx k h :
  handlers_framed → get_handler k = Some h →
  handler_frame (jobs d) (jobs (invoke_handler_in_savepoint d id ctx h).1).
Proof.
  intros Hf Hk. unfold invoke_handler_in_savepoint. specialize (Hf k h ctx id d Hk).
  destruct (h ctx id d) as [d2 run]. cbn in Hf.
  destruct (hr_end run); [done|..];
    destruct (hr_batch_touched run); try apply handler_frame_refl;
    destruct (job_tbl (jobs d) !! id) eqn:E; cbn;
    eauto using handler_frame_refl, step_state_frame.
Qed.

(** A run decomposes into the claim, the handler's framed writes, and the ending; [base] is the
    database the ending writes to. *)
Lemma run_one_decompose committed d id granted t_claim now d' r :
  handlers_framed → run_one committed d id granted t_claim now = Ok (d', r) →
  ∃ d1 j1 base j', admit_job d id t_claim = Ok (d1, j1) ∧
    (handler_frame (jobs d1) (jobs base) ∨ base = committed) ∧
    (∃ j0, job_tbl (jobs base) !! id = Some j0 ∧ attempts j' = attempts j0 ∧
           dedupe_key j' = dedupe_key j0 ∧ recon_domain j' = recon_domain j0) ∧
    run_ended base d' id granted j' (jr_ok r).
Proof.
  unfold run_one. intros Hframe H. apply bind_Ok in H as ([d1 j1] & Hadm & H).
  exists d1, j1.
  assert (Hfail : ∀ b j0 ctx err c reason msg,
    (handler_frame (jobs d1) (jobs b) ∨ b = committed) →
    job_tbl (jobs b) !! id = Some j0 →
    fail_job b id j0 ctx granted now err c reason msg = Ok (d', r) →
    ∃ base j', admit_job d id t_claim = Ok (d1, j1) ∧
      (handler_frame (jobs d1) (jobs base) ∨ base = committed) ∧
      (∃ j0, job_tbl (jobs base) !! id = Some j0 ∧ attempts j' = attempts j0 ∧
             dedupe_key j' = dedupe_key j0 ∧ recon_domain j' = recon_domain j0) ∧
      run_ended base d' id granted j' (jr_ok r)).
  { intros b j0 ctx err c reason msg Hb Hj0 Hf. apply fail_job_ended in Hf as [-> He].
    exists b. eexists. split; [done|]. split; [done|]. split; [|exact He]. eauto. }
  destruct (get_handler (kind j1)) as [h|] eqn:Eh.
  2:{ eapply Hfail; [left; apply handler_frame_refl| |exact H]. by apply admit_job_ok in Hadm as (_ & ? & _). }
  pose proof (invoke_frame d1 id (job_context hostname j1 granted) _ h Hframe Eh) as Hb.
  destruct (invoke_handler_in_savepoint d1 id _ h) as [d2 run]. cbn in Hb.
  destruct (hr_end run) as [r0|msg trace|msg|msg trace broken]; [| |done|].
  - apply finish_job_ended in H as (-> & j0 & j' & Hj0 & Ha & Hd & _ & Hrd & _ & He).
    exists d2, j'. split; [done|]. split; [by left|]. split; [|done]. exists j0. eauto.
  - destruct (job_tbl (jobs d2) !! id) eqn:E; [|done]. eapply Hfail; [by left|exact E|exact H].
  - destruct (job_tbl (jobs (if broken then committed else d2)) !! id) eqn:E; [|done].
    eapply Hfail; [|exact E|exact H]. destruct broken; [by right|by left].
Qed.

(** A run that returns: the job ends SUCCEEDED or FAILED as the result says, and exactly one
    row is appended to the attempt transcript, carrying the job's attempt number, its outcome,
    its error and the leases it held. *)
Lemma run_one_records_one_attempt committed d id granted t_claim now d' r :
  handlers_framed → jobs committed = jobs d →
  run_one committed d id granted t_claim now = Ok (d', r) →
  ∃ j' a, job_tbl (jobs d') !! id = Some j' ∧
    status j' = (if jr_ok r then SUCCEEDED else FAILED) ∧
    attempt_tbl (jobs d') = <[next_attempt_id (jobs d) := a]> (attempt_tbl (jobs d)) ∧
    at_job_id a = id ∧ at_number a = attempts j' ∧ at_outcome a = status j' ∧
    at_error a = last_error j' ∧ at_granted_leases a = granted.
Proof.
  intros Hframe Hc H.
  apply run_one_decompose in H as (d1 & j1 & base & j' & Hadm & Hbase & _ & He); [|done].
  apply admit_job_ok in Hadm as (_ & _ & _ & _ & Hat & Hna & _).
  destruct He as [_ Hjobs _ (a & Ha & Hrest) _ Hst].
  exists j', a. rewrite Hjobs, lookup_insert_eq. split; [done|]. split; [done|].
  split; [|done]. rewrite Ha.
  destruct Hbase as [[Hfa Hfn _ _ _]| ->]; [by rewrite Hfa, Hfn, Hat, Hna|by rewrite Hc].
Qed.

(** Atomicity of handlers: when the handler raises (and the session survives), the catalog and
    every other job row are exactly as before the run, whatever the handler wrote; the job is
    FAILED and its step state may differ only in the checkpoint-batch entry. *)
Lemma raising_handler_rolls_back committed d id granted t_claim now d' r :
  run_one committed d id granted t_claim now = Ok (d', r) →
  (∀ j h ctx db, job_tbl (jobs d) !! id = Some j → get_handler (kind j) = Some h →
     match hr_end (h ctx id db).2 with
     | HNotImplemented _ _ | HRaise _ _ false => True
     | _ => False
     end) →
  cat d' = cat d ∧ jr_ok r = false ∧
  (∀ i, i ≠ id → job_tbl (jobs d') !! i = job_tbl (jobs d) !! i) ∧
  ∃ j j', job_tbl (jobs d) !! id = Some j ∧ job_tbl (jobs d') !! id = Some j' ∧
    status j' = FAILED ∧
    ∀ k, k ≠ CHECKPOINT_BATCH_STATE_KEY → dget k (step_state j') = dget k (step_state j).
Proof.
  unfold run_one. intros H Hraise. apply bind_Ok in H as ([d1 j1] & Hadm & H).
  pose proof Hadm as Hsteps.
  apply admit_job_ok in Hadm as (Hcat & Hj1 & _ & Hothers & _ & _ & j & Hj & Hcase).
  assert (Hst : step_state j1 = step_state j ∧ kind j1 = kind j).
  { unfold admit_job in Hsteps. rewrite Hj in Hsteps. repeat case_bool; try done.
    case_decide; [|case_decide; by simplify_eq].
    destruct (claim_job_by_id (jobs d) id t_claim) as [[db j0]|] eqn:E; simplify_eq.
    apply claim_Some in E as (j2 & Hj2 & _ & -> & _). by simplify_eq. }
  destruct Hst as [Hst Hkind].
  assert (Hfail : ∀ b j0 ctx err c reason msg,
    fail_job b id j0 ctx granted now err c reason msg = Ok (d', r) →
    cat b = cat d1 → (∀ i, i ≠ id → job_tbl (jobs b) !! i = job_tbl (jobs d1) !! i) →
    (∀ k, k ≠ CHECKPOINT_BATCH_STATE_KEY → dget k (step_state j0) = dget k (step_state j1)) →
    cat d' = cat d ∧ jr_ok r = false ∧
    (∀ i, i ≠ id → job_tbl (jobs d') !! i = job_tbl (jobs d) !! i) ∧
    ∃ j j', job_tbl (jobs d) !! id = Some j ∧ job_tbl (jobs d') !! id = Some j' ∧
      status j' = FAILED ∧
      ∀ k, k ≠ CHECKPOINT_BATCH_STATE_KEY → dget k (step_state j') = dget k (step_state j)).
  { intros b j0 ctx err c reason msg Hf Hcb Hjb Hk. apply fail_job_ended in Hf as [-> He].
    split; [rewrite (re_cat _ _ _ _ _ _ He); congruence|]. split; [done|].
    rewrite (re_jobs _ _ _ _ _ _ He).
    split; [intros i Hi; rewrite lookup_insert_ne by done; rewrite Hjb, Hothers by done; done|].
    exists j. eexists. rewrite lookup_insert_eq. do 3 (split; [done|]). cbn. rewrite <- Hst. auto. }
  destruct (get_handler (kind j1)) as [h|] eqn:Eh; [|by eapply Hfail].
  rewrite Hkind in Eh.
  pose proof (Hraise j h (job_context hostname j1 granted) d1 Hj Eh) as Hend.
  unfold invoke_handler_in_savepoint in H.
  destruct (h _ id d1) as [d2 run]; cbn in Hend. rewrite Hj1 in H.
  assert (Hb : ∀ k, k ≠ CHECKPOINT_BATCH_STATE_KEY →
    dget k (restore_batch_state (step_state j1) (hr_failed_batch_state run))
      = dget k (step_state j1)).
  { intros k Hk. unfold restore_batch_state.
    destruct (hr_failed_batch_state run) as [[| | | | | |[|? ?]]|];
      first [by apply dget_ddel_ne|by apply dget_dset_ne]. }
  destruct (hr_end run) as [r0|msg trace|msg|msg trace [|]] eqn:Eend; try done;
    destruct (hr_batch_touched run); cbn in H; rewrite ?lookup_insert_eq, ?Hj1 in H;
    rewrite ?Eend in H; cbn in H; rewrite ?lookup_insert_eq, ?Hj1 in H;
    (eapply Hfail; [exact H|done| |]); cbn; auto; intros; by rewrite lookup_insert_ne.
Qed.
End runs.
