(* ===== verification/Worker.v ===== *)
(** * The single-node worker

    [jobs/worker.py]: the scheduler scan that fails jobs that can never fit, skips and ages jobs
    that do not fit now, claims and reserves the first that does; the transaction of one attempt
    with its replay on SQLite contention; the deferred failure record; and the worker's life as a
    step relation over the committed database, the jobs in flight and the failures awaiting a
    writable database. *)

From S2P Require Import Prelude Json JobModels Catalog Leases RetryConfig Conditions Engine.
From S2P Require Import EngineFacts.

(** [_LOCK_BACKOFF] has four entries: one attempt and four replays. *)
Definition LOCK_RETRIES : nat := 4.

Record WorkerJobOutcome := {
  wo_job_id : Z;
  wo_result : JobResult;
  wo_granted_leases : dict Z;
  wo_failure_record_pending : bool;
}.

Definition set_never_fits (j : Job) (now : time) (err : string) : Job := {|
  kind := kind j; params := params j; required_resources := required_resources j;
  prerequisites := prerequisites j; status := FAILED; step_state := step_state j;
  attempts := attempts j + 1; not_before := not_before j; priority := priority j;
  dedupe_key := dedupe_key j; recon_domain := recon_domain j;
  recon_target_key := recon_target_key j; last_error := Some err;
  created_at := created_at j; started_at := Some now; finished_at := Some now |}.

Section worker.
Context (uniform : Z → Z → Z) (isoformat : time → string).
Context (hostname worker_id code_version : string).
Context (get_dispatch_gate : string → option DispatchGate).
Context (not_registered : string → string).
Context (never_fits_error : dict Z → string).

Definition mark_never_fits (d : Database) (id : Z) (j : Job) (required : dict Z) (now : time)
    : result EngineError Database :=
  let err := never_fits_error required in
  let j' := set_never_fits j now err in
  let db := put_job id j' (jobs d) in
  let ctx := job_context hostname j' [] in
  let '(db, attempt) := record_attempt worker_id code_version db id j' []
                          (attempt_detail ctx (step_state j')) now in
  db ← record_reconciler_condition uniform db j' attempt now (Some BACKOFF) (Some "never-fit")
         (Some err) None None true;
  Ok (with_jobdb db d).

(** ** The scheduler scan *)

(** One pass of the inner loop over the candidates.  The blocked-scan counters live in the
    worker, outside the transaction, so they are returned also when the scan raises. *)
Fixpoint scan (threshold : Z) (now : time) (d : Database) (m : LeaseManager)
    (blocked : gmap Z Z) (cands : list (Z * Job))
    : gmap Z Z * result EngineError (Database * LeaseManager * option (Z * dict Z)) :=
  match cands with
  | [] => (blocked, Ok (d, m, None))
  | (id, j) :: cands =>
      match normalize_required_resources (required_resources j) with
      | Err e => (blocked, Err (LeaseFailure e))
      | Ok required =>
          if negb (can_ever_fit m required) then
            match mark_never_fits d id j required now with
            | Err e => (blocked, Err e)
            | Ok d' => scan threshold now d' m (delete id blocked) cands
            end
          else if negb (fits m required) then
            let count := default 0 (blocked !! id) + 1 in
            let blocked := <[id := count]> blocked in
            if threshold <=? count then (blocked, Ok (d, m, None))
            else scan threshold now d m blocked cands
          else
            match claim_job_by_id (jobs d) id now with
            | None => scan threshold now d m blocked cands
            | Some (db, _) =>
                match reserve m required with
                | Err e => (blocked, Err (LeaseFailure e))
                | Ok (m', granted) =>
                    (delete id blocked, Ok (with_jobdb db d, m', Some (id, granted)))
                end
            end
      end
  end.

(** [_claim_available_bounded]: at most [n] claims, one scan each.  Returned: the counters, the
    manager, the grants reserved so far, and the database or the exception. *)
Fixpoint claim_available_bounded (n : nat) (threshold : Z) (now : time) (d : Database)
    (m : LeaseManager) (blocked : gmap Z Z)
    : gmap Z Z * LeaseManager * list (Z * dict Z) * result EngineError Database :=
  match n with
  | O => (blocked, m, [], Ok d)
  | S n =>
      let '(blocked, r) :=
        scan threshold now d m blocked (pending_candidates get_dispatch_gate d now) in
      match r with
      | Err e => (blocked, m, [], Err e)
      | Ok (d, m, None) => (blocked, m, [], Ok d)
      | Ok (d, m, Some (id, granted)) =>
          let '(blocked, m, claimed, r) :=
            claim_available_bounded n threshold now d m blocked in
          (blocked, m, (id, granted) :: claimed, r)
      end
  end.

Definition release_all (m : LeaseManager) (gs : list (dict Z)) : LeaseManager :=
  foldl (λ m g, (release m g).1) m gs.

(** [_claim_available].  [commit_locked] says that the commit of the claim transaction met a
    locked SQLite database. *)
Definition claim_available (max_new : nat) (threshold : Z) (now : time) (commit_locked : bool)
    (d : Database) (m : LeaseManager) (blocked : gmap Z Z)
    : gmap Z Z * LeaseManager * result EngineError (Database * list (Z * dict Z)) :=
  let '(blocked, m, claimed, r) := claim_available_bounded max_new threshold now d m blocked in
  match r with
  | Ok d' =>
      if commit_locked then (blocked, release_all m claimed.*2, Ok (d, []))
      else (blocked, m, Ok (d', claimed))
  | Err (SqliteLocked _) => (blocked, release_all m claimed.*2, Ok (d, []))
  | Err e => (blocked, release_all m claimed.*2, Err e)
  end.

(** ** Executing a claimed job *)

Definition execute_job_once (get_handler : string → option JobHandler) (config : WorkerConfig)
    (d : Database) (id : Z) (granted : dict Z) (t_claim now : time)
    : result EngineError (Database * JobResult) :=
  '(d', r) ← run_one uniform hostname worker_id code_version get_handler not_registered
               d d id granted t_claim now;
  match job_tbl (jobs d') !! id with
  | Some j =>
      match recon_domain j with
      | None => db ← apply_retry_policy uniform (jobs d') id config now;
                Ok (with_jobdb db d', r)
      | Some _ => Ok (d', r)
      end
  | None => Ok (d', r)
  end.

(** [_persist_lock_failure]: [false] defers the record, the database being locked. *)
Definition persist_lock_failure (d : Database) (o : WorkerJobOutcome) (locked : bool)
    (now : time) : result EngineError (Database * bool) :=
  if locked then Ok (d, false)
  else
    match job_tbl (jobs d) !! wo_job_id o with
    | None => Ok (d, true)
    | Some j =>
        let id := wo_job_id o in
        let granted := wo_granted_leases o in
        let err := jr_detail (wo_result o) in
        let j' := set_finished j FAILED now (Some err) (step_state j) in
        let db := put_job id j' (jobs d) in
        let ctx := job_context hostname j' granted in
        let '(db, attempt) := record_attempt worker_id code_version db id j' granted
                                (attempt_detail ctx (step_state j')) now in
        db ← record_reconciler_condition uniform db j' attempt now (Some BACKOFF)
               (Some "sqlite-lock-exhausted") (Some err) None None true;
        Ok (with_jobdb db d, true)
    end.

(** The replay loop of [_execute_job]: [inl] is the outcome of the first execution that was not
    locked out, [inr] the detail of the last lock error. *)
Fixpoint execute_retries (exec : nat → result EngineError (Database * JobResult))
    (retry remaining : nat) : result EngineError (Database * JobResult) + string :=
  match exec retry with
  | Err (SqliteLocked detail) =>
      match remaining with
      | O => inr detail
      | S remaining => execute_retries exec (S retry) remaining
      end
  | r => inl r
  end.

(** [_execute_job].  [handlers i] is what the handlers do at the [i]-th replay, [locked i] that
    its commit meets a locked database, [persist_locked] that the failure record does too. *)
Definition execute_job (handlers : nat → string → option JobHandler) (locked : nat → bool)
    (persist_locked : bool) (config : WorkerConfig) (d : Database) (id : Z) (granted : dict Z)
    (t_claim now : time) : result EngineError (Database * WorkerJobOutcome) :=
  let exec i :=
    match execute_job_once (handlers i) config d id granted t_claim now with
    | Ok r => if locked i then Err (SqliteLocked "database is locked") else Ok r
    | Err e => Err e
    end in
  match execute_retries exec 0 LOCK_RETRIES with
  | inl (Ok (d', r)) =>
      Ok (d', {| wo_job_id := id; wo_result := r; wo_granted_leases := granted;
                 wo_failure_record_pending := false |})
  | inl (Err e) => Err e
  | inr detail =>
      let o := {| wo_job_id := id; wo_result := failure_result detail;
                  wo_granted_leases := granted; wo_failure_record_pending := false |} in
      '(d', written) ← persist_lock_failure d o persist_locked now;
      Ok (d', {| wo_job_id := id; wo_result := wo_result o; wo_granted_leases := granted;
                 wo_failure_record_pending := negb written |})
  end.
End worker.
