(* ===== verification/WorkerFacts.v ===== *)
(** * Correctness of the worker

    The scan never lets a job overtake one that has aged out; claims respect the lease accounting
    and the bound, also when the transaction is rolled back; and over the whole life of the worker
    (submissions, claims, attempts with replays, deferred failure records, crashes and recoveries)
    the job index stays unique and no attempt number is recorded twice for a job. *)

From S2P Require Import Prelude Json JobModels Catalog Leases RetryConfig Conditions Engine.
From S2P Require Import EngineFacts Worker.

(** ** The audit invariant of the attempt transcript *)

Record audit_ok (db : JobDB) : Prop := {
  au_bound : ∀ aid a, attempt_tbl db !! aid = Some a →
    ∃ j, job_tbl db !! at_job_id a = Some j ∧ at_number a ≤ attempts j ∧
         (status j = RUNNING → at_number a < attempts j);
  au_unique : ∀ aid aid' a a',
    attempt_tbl db !! aid = Some a → attempt_tbl db !! aid' = Some a' →
    at_job_id a = at_job_id a' → at_number a = at_number a' → aid = aid';
}.

Definition engine_ok (db : JobDB) : Prop := job_index_ok db ∧ audit_ok db.

(** Replacing one row by a row with the same key and routing. *)
Lemma put_job_index_ok db id j j' :
  job_tbl db !! id = Some j → dedupe_key j' = dedupe_key j →
  (live (status j') = true → live (status j) = true) →
  job_index_ok db → job_index_ok (put_job id j' db).
Proof.
  intros Hj Hk Hl [[H1 H2] Hu]. split; [split; [|done]|].
  - intros i x. rewrite put_job_lookup. case_decide; intros; simplify_eq; eauto.
  - intros i i' x x' key. rewrite !put_job_lookup.
    repeat case_decide; intros; simplify_eq; try done; try rewrite Hk in *; eauto.
Qed.

Lemma put_job_audit_ok db id j j' :
  job_tbl db !! id = Some j →
  attempts j ≤ attempts j' → (status j' = RUNNING → status j = RUNNING ∨ attempts j < attempts j') →
  audit_ok db → audit_ok (put_job id j' db).
Proof.
  intros Hj Ha Hr [Hb Hu]. constructor; [|done].
  intros aid a Hat. destruct (Hb aid a Hat) as (x & Hx & Hle & Hlt).
  destruct (decide (id = at_job_id a)) as [->|Hne].
  - exists j'. rewrite put_job_lookup, decide_True by done. simplify_eq.
    split; [done|]. split; [lia|]. intros Hrun. destruct (Hr Hrun) as [Hp|]; [|lia].
    specialize (Hlt Hp). lia.
  - exists x. rewrite put_job_lookup, decide_False by done. done.
Qed.

(** Ending a run: one row becomes terminal, one fresh attempt number is recorded. *)
Lemma ended_engine_ok base id j0 j' a db' :
  job_tbl base !! id = Some j0 → dedupe_key j' = dedupe_key j0 →
  live (status j') = false → status j' ≠ RUNNING →
  at_job_id a = id → at_number a = attempts j' → attempts j0 ≤ attempts j' →
  (attempts j0 < attempts j' ∨ status j0 = RUNNING) →
  job_tbl db' = <[id := j']> (job_tbl base) → next_job_id db' = next_job_id base →
  attempt_tbl db' = <[next_attempt_id base := a]> (attempt_tbl base) →
  next_attempt_id db' = next_attempt_id base + 1 →
  engine_ok base → engine_ok db'.
Proof.
  intros Hj0 Hk Hl Hnr Haj Han Hle Hfresh Hjt Hnj Hat Hna [[[I1 I2] Hu] [Hb Hau]].
  assert (Hnone : attempt_tbl base !! next_attempt_id base = None) by by apply ids_fresh_attempt.
  assert (Hlt : ∀ aid x, attempt_tbl base !! aid = Some x → at_job_id x = id →
                at_number x < attempts j').
  { intros aid x Hx Hid. destruct (Hb aid x Hx) as (y & Hy & ? & Hrun).
    rewrite Hid in Hy. simplify_eq. destruct Hfresh as [|Hr]; [lia|]. specialize (Hrun Hr). lia. }
  split; [split; [split|]|constructor].
  - intros i x. rewrite Hjt, Hnj, lookup_insert. case_decide; intros; simplify_eq; eauto.
  - intros i x. rewrite Hat, Hna, lookup_insert. case_decide; intros; simplify_eq; [lia|].
    specialize (I2 _ _ H0). lia.
  - intros i i' x x' key. rewrite Hjt, !lookup_insert.
    repeat case_decide; intros; simplify_eq; try congruence; eauto.
  - intros aid x. rewrite Hat, Hjt, lookup_insert. case_decide; intros Hx; simplify_eq.
    + exists j'. rewrite lookup_insert_eq. split; [done|]. split; [lia|done].
    + destruct (Hb aid x Hx) as (y & Hy & Hyle & Hyr). rewrite lookup_insert.
      case_decide as Hd; [|by exists y]. exists j'. split; [done|]. split; [|done].
      rewrite <- Hd in Hy. simplify_eq. lia.
  - intros aid aid' x x'. rewrite Hat, !lookup_insert.
    repeat case_decide; intros; simplify_eq; try done; [| |eauto].
    + assert (at_number x' < attempts j') by (eapply Hlt; eauto). lia.
    + assert (at_number x < attempts j') by (eapply Hlt; eauto). lia.
Qed.

Lemma handler_frame_engine_ok db db' : handler_frame db db' → engine_ok db → engine_ok db'.
Proof.
  intros [Ha Hna Hrows Hnew Hidx] [Hi [Hb Hu]]. split; [auto|]. constructor; rewrite Ha; [|done].
  intros aid a Hat. destruct (Hb aid a Hat) as (j & Hj & ? & ?).
  destruct (Hrows _ _ Hj) as (j' & Hj' & Hs & Hat' & _). exists j'. rewrite Hs, Hat'. done.
Qed.

(** ** Each operation keeps the invariant *)

Lemma submit_engine_ok db s now :
  engine_ok db → engine_ok (submit1 db s now).1.
Proof.
  intros [[Hid Hu] Hau].
  assert (Hins : job_index_ok (insert_job (new_job s now) db).1 →
                 engine_ok (insert_job (new_job s now) db).1).
  { intros Hix. split; [done|]. destruct Hau as [Hb Hau]. constructor; [|done].
    intros aid a Hat. destruct (Hb aid a Hat) as (j & Hj & Hrest). exists j.
    rewrite insert_job_lookup, decide_False; [done|].
    intros Heq. rewrite <- Heq, ids_fresh_job in Hj; done. }
  unfold submit1, submit. cbn. destruct (sb_dedupe_key s) as [key|] eqn:Hk; cbn.
  - destruct (live_job_for_dedupe db key) as [[? ?]|] eqn:E; cbn; [by split; [split|]|].
    apply Hins. split; [by apply insert_job_ids_ok|].
    apply insert_job_unique; [done..|]. cbn. intros ? Heq _. congruence.
  - apply Hins. split; [by apply insert_job_ids_ok|].
    apply insert_job_unique; [done..|]. cbn. intros ? Heq _. congruence.
Qed.

Lemma claim_engine_ok db id now db' j' :
  claim_job_by_id db id now = Some (db', j') → engine_ok db → engine_ok db'.
Proof.
  intros Hc [Hi Ha]. apply claim_Some in Hc as (j & Hj & Hp & -> & ->). split.
  - eapply put_job_index_ok; [done..| |done]. by rewrite Hp.
  - eapply put_job_audit_ok; [done|cbn; lia| |done]. cbn. right. lia.
Qed.

Section ops.
Context (uniform : Z → Z → Z) (isoformat : time → string).
Context (hostname worker_id code_version : string).
Context (gates : string → option DispatchGate).
Context (not_registered : string → string) (never_fits_error : dict Z → string).

Notation mark_never_fits :=
  (mark_never_fits uniform hostname worker_id code_version never_fits_error).
Notation scan := (scan uniform hostname worker_id code_version never_fits_error).
Notation claim_available_bounded :=
  (claim_available_bounded uniform hostname worker_id code_version gates never_fits_error).
Notation claim_available :=
  (claim_available uniform hostname worker_id code_version gates never_fits_error).
Notation execute_job_once :=
  (execute_job_once uniform hostname worker_id code_version not_registered).
Notation persist_lock_failure :=
  (persist_lock_failure uniform hostname worker_id code_version).
Notation execute_job :=
  (execute_job uniform hostname worker_id code_version not_registered).

Lemma mark_never_fits_spec d id j required now d' :
  mark_never_fits d id j required now = Ok d' →
  ∃ j' a, job_tbl (jobs d') = <[id := j']> (job_tbl (jobs d)) ∧
    attempts j' = attempts j + 1 ∧ dedupe_key j' = dedupe_key j ∧ status j' = FAILED ∧
    next_job_id (jobs d') = next_job_id (jobs d) ∧
    attempt_tbl (jobs d') = <[next_attempt_id (jobs d) := a]> (attempt_tbl (jobs d)) ∧
    next_attempt_id (jobs d') = next_attempt_id (jobs d) + 1 ∧
    at_job_id a = id ∧ at_number a = attempts j'.
Proof.
  unfold mark_never_fits. cbn. intros H. apply bind_Ok in H as (db & H & Heq).
  injection Heq as <-. apply record_reconciler_condition_same_jobs in H as [Hj Hn Ha Hna].
  cbn [insert_attempt fst snd attempt_tbl next_attempt_id next_job_id job_tbl put_job with_jobs]
    in Hj, Hn, Ha, Hna.
  eexists _, _. split; [exact Hj|]. do 3 (split; [reflexivity|]).
  split; [exact Hn|]. split; [exact Ha|]. split; [exact Hna|]. split; reflexivity.
Qed.

Lemma mark_never_fits_engine_ok d id j required now d' :
  mark_never_fits d id j required now = Ok d' →
  job_tbl (jobs d) !! id = Some j → engine_ok (jobs d) → engine_ok (jobs d').
Proof.
  intros H Hj Hok.
  apply mark_never_fits_spec in H as (j' & a & H1 & H2 & H3 & H4 & H5 & H6 & H7 & H8 & H9).
  eapply (ended_engine_ok (jobs d) id j j' a); rewrite ?H4; try done; lia.
Qed.

Lemma apply_retry_engine_ok db id config now db' :
  apply_retry_policy uniform db id config now = Ok db' → engine_ok db → engine_ok db'.
Proof.
  unfold apply_retry_policy. intros H [Hi Ha].
  destruct (job_tbl db !! id) as [j|] eqn:Ej; [|by simplify_eq].
  case_decide; [by simplify_eq|]. case_bool; [by simplify_eq|]. case_bool; [done|].
  injection H as <-. split.
  - destruct Hi as [[I1 I2] Hu]. split; [split; [|done]|].
    + intros i x. rewrite put_job_lookup. case_decide; intros; simplify_eq; eauto.
    + assert (Hno : ∀ i x key, i ≠ id → job_tbl db !! i = Some x → dedupe_key x = Some key →
        dedupe_key j = Some key → live (status x) = true → False).
      { intros i x key Hne Hx Hkx Hkj Hlx. unfold dedupe_conflict in Hb0. cbn in Hb0.
        rewrite Hkj in Hb0. apply (f_equal negb) in Hb0. cbn in Hb0.
        assert (Hex : existsb (λ r, bool_decide (r.1 ≠ id) && live_with_key key r.2)
                        (job_rows db) = true).
        { apply existsb_exists. exists (i, x). split; [by apply list_elem_of_In, elem_of_job_rows|].
          cbn. rewrite bool_decide_eq_true_2 by done. by apply live_with_key_iff. }
        by rewrite Hex in Hb0. }
      intros i i' x x' key. rewrite !put_job_lookup.
      repeat case_decide; intros; simplify_eq; cbn in *; try done; try (exfalso; by eapply Hno);
        eauto.
  - eapply put_job_audit_ok; [done|cbn; lia|by cbn|done].
Qed.

Lemma reset_orphans_engine_ok db now :
  engine_ok db → engine_ok (reset_orphaned_running_jobs isoformat db now).1.
Proof.
  intros [[[I1 I2] Hu] [Hb Hau]]. cbn.
  assert (Hl : ∀ i x, (reset_orphan isoformat now <$> job_tbl db) !! i = Some x →
    ∃ y, job_tbl db !! i = Some y ∧ dedupe_key x = dedupe_key y ∧ attempts x = attempts y ∧
         status x ≠ RUNNING ∧ (live (status x) = true → live (status y) = true)).
  { intros i x. rewrite lookup_fmap. destruct (job_tbl db !! i) as [y|]; [|done].
    intros [= <-]. exists y. unfold reset_orphan. case_decide as Hs; cbn; [by rewrite Hs|].
    done. }
  split; [split; [split|]|constructor]; cbn.
  - intros i x Hx. apply Hl in Hx as (y & Hy & _). eauto.
  - done.
  - intros i i' x x' key Hx Hx' Hk Hk' Hlv Hlv'.
    apply Hl in Hx as (y & Hy & E1 & _ & _ & L1). apply Hl in Hx' as (y' & Hy' & E2 & _ & _ & L2).
    rewrite E1 in Hk. rewrite E2 in Hk'. eauto.
  - intros aid a Hat. destruct (Hb aid a Hat) as (y & Hy & Hle & _).
    exists (reset_orphan isoformat now y). rewrite lookup_fmap, Hy. split; [done|].
    unfold reset_orphan. case_decide; cbn; [done|]. done.
  - done.
Qed.

(** ** One attempt *)

Lemma execute_once_ok get_handler config d id granted t now d' r j :
  handlers_framed get_handler →
  execute_job_once get_handler config d id granted t now = Ok (d', r) →
  job_tbl (jobs d) !! id = Some j → status j = RUNNING → engine_ok (jobs d) →
  engine_ok (jobs d') ∧
  (∀ i x, i ≠ id → job_tbl (jobs d) !! i = Some x → status x = RUNNING →
     ∃ x', job_tbl (jobs d') !! i = Some x' ∧ status x' = RUNNING).
Proof.
  intros Hf H Hj Hr Hok. unfold execute_job_once in H.
  apply bind_Ok in H as ([d1 r1] & Hrun & H).
  apply run_one_decompose in Hrun
    as (da & ja & base & j' & Hadm & Hbase & (j0 & Hj0 & Ha0 & Hd0 & _) & He); [|done].
  apply admit_job_ok in Hadm as (_ & _ & _ & _ & _ & _ & jx & Hjx & Hcase).
  rewrite Hj in Hjx. injection Hjx as <-.
  destruct Hcase as [[? _]|[_ [-> ->]]]; [congruence|].
  assert (Hb : handler_frame (jobs d) (jobs base)).
  { destruct Hbase as [?| ->]; [done|apply handler_frame_refl]. }
  assert (Hbok := handler_frame_engine_ok _ _ Hb Hok).
  destruct (hf_rows _ _ Hb _ _ Hj) as (jb & Hjb & Hsb & Hab & _). simplify_eq.
  destruct He as [_ Hjobs Hnj (a & Hat & Haj & Han & _) Hna Hst].
  assert (H1ok : engine_ok (jobs d1)).
  { eapply (ended_engine_ok (jobs base) id j0 j' a); try done; try lia.
    - rewrite Hst. by destruct (jr_ok r1).
    - rewrite Hst. by destruct (jr_ok r1).
    - right. congruence. }
  assert (Hkeep : ∀ i x, i ≠ id → job_tbl (jobs d) !! i = Some x → status x = RUNNING →
     ∃ x', job_tbl (jobs d1) !! i = Some x' ∧ status x' = RUNNING).
  { intros i x Hi Hx Hxr. destruct (hf_rows _ _ Hb _ _ Hx) as (x' & Hx' & Hsx & _).
    exists x'. rewrite Hjobs, lookup_insert_ne by done. split; [done|congruence]. }
  rewrite Hjobs, lookup_insert_eq in H.
  destruct (recon_domain j') eqn:Erd; [by simplify_eq|].
  apply bind_Ok in H as (db & Hret & H). injection H as <- <-. cbn.
  split; [by eapply apply_retry_engine_ok|].
  intros i x Hi Hx Hxr. destruct (Hkeep i x Hi Hx Hxr) as (x' & Hx' & Hs').
  exists x'. split; [|done]. unfold apply_retry_policy in Hret.
  rewrite Hjobs, lookup_insert_eq in Hret. rewrite Hjobs in Hx'.
  case_decide; [simplify_eq; by rewrite Hjobs|].
  case_bool; [simplify_eq; by rewrite Hjobs|]. case_bool; [done|]. injection Hret as <-.
  rewrite put_job_lookup, decide_False, Hjobs by done. done.
Qed.

Lemma persist_spec d o now d' j :
  persist_lock_failure d o false now = Ok (d', true) →
  job_tbl (jobs d) !! wo_job_id o = Some j → status j = RUNNING → engine_ok (jobs d) →
  engine_ok (jobs d') ∧
  ∃ j', job_tbl (jobs d') = <[wo_job_id o := j']> (job_tbl (jobs d)) ∧ status j' = FAILED.
Proof.
  unfold persist_lock_failure. cbn. intros H Hj Hr Hok. rewrite Hj in H.
  apply bind_Ok in H as (db & H & Heq). injection Heq as <-.
  apply record_reconciler_condition_same_jobs in H as [Hjt Hn Ha Hna]. cbn in *.
  split; [|eexists; split; [exact Hjt|done]].
  eapply (ended_engine_ok (jobs d) (wo_job_id o) j); try exact Hjt; try exact Ha; try done.
  by right.
Qed.
End ops.
