(* ===== verification/SchedulerFacts.v ===== *)
(** * Correctness of the scheduler scan

    The claims of one scheduler pass: bounded, lease-accounted, taken only from eligible PENDING
    rows, undone with their reservations when the transaction rolls back; and the aging rule, by
    which a blocked job is overtaken fewer times than the threshold. *)

From S2P Require Import Prelude Json JobModels Catalog Leases RetryConfig Conditions Engine.
From S2P Require Import EngineFacts Worker WorkerFacts.

(** What a scheduler transaction may do to the job rows: fail a PENDING job that can never fit, or
    claim a PENDING job of [claimed]. *)
Definition sched_row (claimed : list Z) (i : Z) (j j' : Job) : Prop :=
  j' = j ∨ (status j = PENDING ∧ status j' = FAILED) ∨
  (i ∈ claimed ∧ status j = PENDING ∧ status j' = RUNNING ∧ attempts j' = attempts j + 1).

Definition sched_frame (claimed : list Z) (db db' : JobDB) : Prop :=
  ∀ i, match job_tbl db !! i with
       | Some j => ∃ j', job_tbl db' !! i = Some j' ∧ sched_row claimed i j j'
       | None => job_tbl db' !! i = None
       end.

Lemma sched_frame_refl db : sched_frame [] db db.
Proof. intros i. destruct (job_tbl db !! i); [|done]. eexists; split; [done|by left]. Qed.

Lemma sched_frame_trans c1 c2 db1 db2 db3 :
  sched_frame c1 db1 db2 → sched_frame c2 db2 db3 → sched_frame (c1 ++ c2) db1 db3.
Proof.
  intros H1 H2 i. specialize (H1 i). specialize (H2 i).
  destruct (job_tbl db1 !! i) as [j|]; [|by rewrite H1 in H2].
  destruct H1 as (j2 & E & R1). rewrite E in H2. destruct H2 as (j3 & E3 & R2).
  exists j3. split; [done|]. unfold sched_row in *. rewrite elem_of_app.
  destruct R1 as [->|[[? ?]|(? & ? & ? & ?)]], R2 as [->|[[? ?]|(? & ? & ? & ?)]]; naive_solver congruence.
Qed.

Lemma sched_frame_put db id j j' c :
  job_tbl db !! id = Some j → sched_row c id j j' → sched_frame c db (put_job id j' db).
Proof.
  intros Hj Hr i. rewrite put_job_lookup. case_decide; subst.
  - rewrite Hj. eauto.
  - destruct (job_tbl db !! i); [|done]. eexists; split; [done|by left].
Qed.

(** Rows that are not PENDING are out of the scheduler's reach. *)
Lemma sched_frame_not_pending c db db' i j :
  sched_frame c db db' → job_tbl db !! i = Some j → status j ≠ PENDING →
  job_tbl db' !! i = Some j.
Proof.
  intros H Hj Hs. specialize (H i). rewrite Hj in H. destruct H as (j' & Hj' & Hr).
  unfold sched_row in Hr. naive_solver.
Qed.

Lemma sched_frame_back c db db' i j' :
  sched_frame c db db' → job_tbl db' !! i = Some j' →
  (status j' = PENDING ∨ status j' = SUCCEEDED) → job_tbl db !! i = Some j'.
Proof.
  intros H Hj' Hs. specialize (H i). destruct (job_tbl db !! i) as [j|]; [|congruence].
  destruct H as (j2 & E & Hr). unfold sched_row in Hr. naive_solver congruence.
Qed.

Lemma sched_frame_prereqs c db db' j :
  sched_frame c db db' → prerequisites_succeeded db' j = true →
  prerequisites_succeeded db j = true.
Proof.
  intros H. unfold prerequisites_succeeded. rewrite !forallb_forall. intros Hp p Hin.
  specialize (Hp p Hin). destruct (job_tbl db' !! p) as [q|] eqn:E; [|done].
  split_bools. rewrite (sched_frame_back c db db' p q); [|done..|by right].
  by apply bool_decide_eq_true_2.
Qed.

Section scheduler.
Context (uniform : Z → Z → Z) (hostname worker_id code_version : string).
Context (gates : string → option DispatchGate) (never_fits_error : dict Z → string).

Notation mark_never_fits :=
  (mark_never_fits uniform hostname worker_id code_version never_fits_error).
Notation scan := (scan uniform hostname worker_id code_version never_fits_error).
Notation claim_available_bounded :=
  (claim_available_bounded uniform hostname worker_id code_version gates never_fits_error).
Notation claim_available :=
  (claim_available uniform hostname worker_id code_version gates never_fits_error).

(** The candidates of a scan are distinct rows, PENDING in its transaction. *)
Definition cands_ok (d : Database) (cands : list (Z * Job)) : Prop :=
  NoDup cands.*1 ∧ ∀ id j, (id, j) ∈ cands → job_tbl (jobs d) !! id = Some j ∧ status j = PENDING.

Lemma pending_cands_ok d now : cands_ok d (pending_candidates gates d now).
Proof.
  split; [apply NoDup_pending_candidates|].
  intros id j (? & ? & _)%elem_of_pending_candidates. done.
Qed.

Lemma cands_ok_cons d id j cands :
  cands_ok d ((id, j) :: cands) →
  job_tbl (jobs d) !! id = Some j ∧ status j = PENDING ∧ id ∉ cands.*1 ∧ cands_ok d cands.
Proof.
  intros [Hnd Hin]. apply NoDup_cons in Hnd as [Hni Hnd].
  destruct (Hin id j) as [? ?]; [left|]. split_and!; try done.
  split; [done|]. intros i x ?. apply Hin. by right.
Qed.

Lemma mark_never_fits_sched d id j required now d' cands :
  mark_never_fits d id j required now = Ok d' → cands_ok d ((id, j) :: cands) →
  sched_frame [] (jobs d) (jobs d') ∧ cands_ok d' cands.
Proof.
  intros H Hc. apply cands_ok_cons in Hc as (Hj & Hp & Hni & Hnd & Hin).
  apply mark_never_fits_spec in H as (j' & a & Hjt & _ & _ & Hs & _).
  split.
  - intros i. rewrite Hjt, lookup_insert. case_decide as E.
    + subst i. rewrite Hj. eexists; split; [done|]. right; left. done.
    + destruct (job_tbl (jobs d) !! i); [|done]. eexists; split; [done|by left].
  - split; [done|]. intros i x Hix. rewrite Hjt, lookup_insert_ne; [by apply Hin|].
    intros ->. apply Hni. apply list_elem_of_fmap. by exists (i, x).
Qed.

(** What a scan that returns has done. *)
Record scan_done (d : Database) (m : LeaseManager) (gs : list (dict Z)) (cands : list (Z * Job))
    (d' : Database) (m' : LeaseManager) (res : option (Z * dict Z)) : Prop := {
  sd_engine : engine_ok (jobs d');
  sd_frame : sched_frame (match res with Some (id, _) => [id] | None => [] end) (jobs d) (jobs d');
  sd_leases : lease_acct {| ls_manager := m';
                ls_grants := match res with Some (_, g) => g :: gs | None => gs end |};
  sd_claim : ∀ id g, res = Some (id, g) → ∃ j j', (id, j) ∈ cands ∧
    normalize_required_resources (required_resources j) = Ok g ∧
    job_tbl (jobs d') !! id = Some j' ∧ status j' = RUNNING ∧ attempts j' = attempts j + 1;
}.

Lemma scan_done_skip d0 d m gs c cands d' m' res :
  scan_done d m gs cands d' m' res → sched_frame [] (jobs d0) (jobs d) →
  scan_done d0 m gs (c :: cands) d' m' res.
Proof.
  intros [He Hf Hl Hc] Hfr. constructor; [done| |done|].
  - eapply (sched_frame_trans []); done.
  - intros id g Hr. destruct (Hc id g Hr) as (j & j' & ? & ?). exists j, j'.
    split; [by right|done].
Qed.

Lemma scan_spec threshold now d m blocked cands gs b' r :
  scan threshold now d m blocked cands = (b', r) →
  cands_ok d cands → engine_ok (jobs d) →
  lease_acct {| ls_manager := m; ls_grants := gs |} →
  match r with
  | Ok (d', m', res) => scan_done d m gs cands d' m' res
  | Err _ => True
  end.
Proof.
  revert d blocked. induction cands as [|[id j] cands IH]; intros d blocked H Hc He Hl;
    cbn [Worker.scan] in H.
  { simplify_eq. constructor; [done|apply sched_frame_refl|done|done]. }
  pose proof (cands_ok_cons _ _ _ _ Hc) as (Hj & Hp & Hni & Hc').
  assert (Hskip : ∀ bl, scan threshold now d m bl cands = (b', r) → match r with
    | Ok (d', m', res) => scan_done d m gs ((id, j) :: cands) d' m' res | Err _ => True end).
  { intros bl Hs. apply IH in Hs; [|done..]. destruct r as [[[d' m'] res]|]; [|done].
    eapply scan_done_skip; [done|apply sched_frame_refl]. }
  destruct (normalize_required_resources (required_resources j)) as [required|] eqn:En;
    [|by simplify_eq].
  case_bool.
  - destruct (mark_never_fits d id j required now) as [d1|] eqn:Em; [|by simplify_eq].
    destruct (mark_never_fits_sched _ _ _ _ _ _ _ Em Hc) as [Hf1 Hc1].
    apply IH in H; [|done|by eapply mark_never_fits_engine_ok|done].
    destruct r as [[[d' m'] res]|]; [|done]. by eapply scan_done_skip.
  - case_bool.
    { case_bool; [|by eapply Hskip]. simplify_eq.
      constructor; [done|apply sched_frame_refl|done|done]. }
    destruct (claim_job_by_id (jobs d) id now) as [[db jc]|] eqn:Ec; [|by eapply Hskip].
    destruct (reserve m required) as [[m' g]|] eqn:Er; [|by simplify_eq]. simplify_eq.
    pose proof (claim_engine_ok _ _ _ _ _ Ec He) as Hec.
    apply claim_Some in Ec as (j0 & Hj0 & _ & -> & ->). rewrite Hj in Hj0.
    injection Hj0 as <-.
    assert (required = g) as <- by (unfold reserve in Er; inv_ok; by simplify_eq).
    constructor; [done| |eauto using reserve_acct with sutra|].
    + eapply sched_frame_put; [done|]. right; right. cbn. set_solver.
    + intros ? ? [= <- <-]. eexists j, _. split; [left|]. split; [done|]. cbn.
      rewrite lookup_insert_eq. done.
Qed.

(** ** One scheduler pass *)

Record pass_done (d : Database) (m : LeaseManager) (gs : list (dict Z)) (now : time)
    (d' : Database) (m' : LeaseManager) (claimed : list (Z * dict Z)) : Prop := {
  pd_engine : engine_ok (jobs d');
  pd_frame : sched_frame claimed.*1 (jobs d) (jobs d');
  pd_nodup : NoDup claimed.*1;
  pd_leases : lease_acct {| ls_manager := m'; ls_grants := claimed.*2 ++ gs |};
  pd_claims : ∀ id g, (id, g) ∈ claimed → ∃ j j',
    job_tbl (jobs d) !! id = Some j ∧ status j = PENDING ∧ not_before j ≤ now ∧
    prerequisites_succeeded (jobs d) j = true ∧
    normalize_required_resources (required_resources j) = Ok g ∧
    job_tbl (jobs d') !! id = Some j' ∧ status j' = RUNNING ∧ attempts j' = attempts j + 1;
}.

Lemma bounded_spec n threshold now d m blocked gs b' m' claimed r :
  claim_available_bounded n threshold now d m blocked = (b', m', claimed, r) →
  engine_ok (jobs d) → lease_acct {| ls_manager := m; ls_grants := gs |} →
  (length claimed ≤ n)%nat ∧
  lease_acct {| ls_manager := m'; ls_grants := claimed.*2 ++ gs |} ∧
  match r with Ok d' => pass_done d m gs now d' m' claimed | Err _ => True end.
Proof.
  revert d m blocked gs b' m' claimed r.
  induction n as [|n IH]; intros d m blocked gs b' m' claimed r H He Hl; cbn in H.
  { simplify_eq. split; [done|]. split; [done|].
    constructor; [done|apply sched_frame_refl|constructor|done|set_solver]. }
  destruct (scan _ _ _ _ _ _) as [b1 r1] eqn:Es.
  pose proof (scan_spec _ _ _ _ _ _ gs _ _ Es (pending_cands_ok d now) He Hl) as Hs.
  destruct r1 as [[[d1 m1] [[id g]|]]|e]; [| |by simplify_eq; split; [cbn; lia|]].
  2:{ simplify_eq. destruct Hs as [? ? ? _]. split; [cbn; lia|]. split; [done|].
      constructor; [done|done|constructor|done|set_solver]. }
  destruct (claim_available_bounded n threshold now d1 m1 b1) as [[[b2 m2] cl] r2] eqn:Eb.
  injection H as <- <- <- <-. destruct Hs as [He1 Hf1 Hl1 Hc1].
  destruct (IH _ _ _ (g :: gs) _ _ _ _ Eb He1 Hl1) as (Hlen & Hl2 & Hp).
  assert (Hl' : lease_acct {| ls_manager := m2; ls_grants := (g :: cl.*2) ++ gs |}).
  { eapply lease_acct_perm; [|exact Hl2]. cbn. by rewrite Permutation_middle. }
  split; [cbn; lia|]. split; [exact Hl'|]. destruct r2 as [d2|]; [|done].
  destruct Hp as [He2 Hf2 Hnd2 _ Hc2].
  destruct (Hc1 id g eq_refl) as (j & j1 & Hin & Hn & Hj1 & Hr1 & Ha1).
  apply elem_of_pending_candidates in Hin as (Hj & Hp & Hnb & Hpre & _).
  constructor; [done|exact (sched_frame_trans _ _ _ _ _ Hf1 Hf2)| |exact Hl'|].
  - cbn. apply NoDup_cons. split; [|done]. intros Hin.
    apply list_elem_of_fmap in Hin as ([i g2] & Hi & Hin). cbn in Hi. subst i.
    destruct (Hc2 _ _ Hin) as (? & ? & ? & ? & _). congruence.
  - intros i gi [[= -> ->]|Hin]%elem_of_cons.
    + exists j, j1. do 5 (split; [done|]).
      split; [|done]. eapply sched_frame_not_pending; [done..|congruence].
    + destruct (Hc2 _ _ Hin) as (x & x' & Hx & Hxp & Hxn & Hxpre & Hrest).
      exists x, x'. split; [eapply sched_frame_back; [done..|by left]|].
      do 2 (split; [done|]). split; [by eapply sched_frame_prereqs|done].
Qed.

(** Releasing the reservations of an aborted transaction restores the accounting. *)
Lemma release_all_acct m gs1 gs2 :
  lease_acct {| ls_manager := m; ls_grants := gs1 ++ gs2 |} →
  lease_acct {| ls_manager := release_all m gs1; ls_grants := gs2 |}.
Proof.
  revert m. induction gs1 as [|g gs1 IH]; intros m H; cbn; [done|].
  apply IH. destruct (release m g) as [m' e] eqn:E. cbn.
  by eapply (release_acct m [] g) in E as [_ ?].
Qed.

(** What a pass did, also when it was aborted. *)
Lemma claim_pass_spec max_new threshold now locked d m blocked gs b' m' r :
  claim_available max_new threshold now locked d m blocked = (b', m', r) →
  engine_ok (jobs d) → lease_acct {| ls_manager := m; ls_grants := gs |} →
  match r with
  | Ok (d', claimed) =>
      (length claimed ≤ max_new)%nat ∧ pass_done d m gs now d' m' claimed ∧
      (locked = true → d' = d ∧ claimed = [])
  | Err _ => lease_acct {| ls_manager := m'; ls_grants := gs |}
  end.
Proof.
  unfold claim_available. intros H He Hl.
  destruct (claim_available_bounded _ _ _ _ _ _) as [[[b1 m1] cl] r1] eqn:Eb.
  destruct (bounded_spec _ _ _ _ _ _ gs _ _ _ _ Eb He Hl) as (Hlen & Hl1 & Hp).
  assert (Hidle : pass_done d m gs now d (release_all m1 cl.*2) []).
  { constructor; [done|apply sched_frame_refl|constructor|by apply release_all_acct|set_solver]. }
  destruct r1 as [d1|e].
  - destruct locked; simplify_eq; [|done]. split; [cbn; lia|done].
  - destruct e; simplify_eq; try by apply release_all_acct. split; [cbn; lia|done].
Qed.

(** C14: one scheduler pass.  Whatever it meets, the tally stays the exact sum of the grants held:
    the [claimed] ones on success, none when it was aborted by a lock or by an exception, and an
    aborted pass leaves the database as it was.  A pass that commits claims at most [max_new]
    distinct jobs, each PENDING, due and with its prerequisites succeeded before the pass, now
    RUNNING with one more attempt and holding exactly its normalised resources. *)
Theorem claim_pass_sound max_new threshold now locked d m blocked gs b' m' r :
  claim_available max_new threshold now locked d m blocked = (b', m', r) →
  engine_ok (jobs d) → lease_acct {| ls_manager := m; ls_grants := gs |} →
  match r with
  | Ok (d', claimed) =>
      (length claimed ≤ max_new)%nat ∧ pass_done d m gs now d' m' claimed ∧
      (locked = true → d' = d ∧ claimed = [])
  | Err _ => lease_acct {| ls_manager := m'; ls_grants := gs |}
  end.
Proof. apply claim_pass_spec. Qed.

(** ** Aging *)

Definition blocked_count (blocked : gmap Z Z) (id : Z) : Z := default 0 (blocked !! id).

(** [id] is a candidate that could fit a quiescent worker and does not fit now. *)
Definition blocked_cand (m : LeaseManager) (cands : list (Z * Job)) (id : Z) : Prop :=
  ∃ j required, (id, j) ∈ cands ∧
    normalize_required_resources (required_resources j) = Ok required ∧
    can_ever_fit m required = true ∧ fits m required = false.

(** [id'] stands behind [id] in the candidate order. *)
Definition behind (cands : list (Z * Job)) (id id' : Z) : Prop :=
  ∃ pre post j, cands = pre ++ (id, j) :: post ∧ id' ∈ post.*1.

Lemma behind_cons c cands id id' :
  behind (c :: cands) id id' → (c.1 = id ∧ id' ∈ cands.*1) ∨ behind cands id id'.
Proof.
  intros ([|c0 pre] & post & j & Heq & Hin); cbn in Heq; simplify_eq; [by left|right].
  by exists pre, post, j.
Qed.

Lemma behind_elem cands id id' : behind cands id id' → id' ∈ cands.*1.
Proof. intros (pre & post & j & -> & Hin). rewrite fmap_app, fmap_cons. set_solver. Qed.

(** A scan touches only the counters of its candidates. *)
Lemma scan_counters_frame threshold now d m blocked cands b' r id :
  scan threshold now d m blocked cands = (b', r) → id ∉ cands.*1 → b' !! id = blocked !! id.
Proof.
  revert d blocked. induction cands as [|[i j] cands IH]; intros d blocked H Hni;
    cbn [Worker.scan] in H; [by simplify_eq|].
  rewrite fmap_cons in Hni. apply not_elem_of_cons in Hni as [Hne Hni]. cbn in Hne.
  destruct (normalize_required_resources (required_resources j)) as [required|];
    [|by simplify_eq].
  case_bool.
  - destruct (mark_never_fits d i j required now); [|by simplify_eq].
    rewrite (IH _ _ H Hni). by rewrite lookup_delete_ne.
  - case_bool.
    { case_bool; [simplify_eq|rewrite (IH _ _ H Hni)]; by rewrite lookup_insert_ne. }
    destruct (claim_job_by_id (jobs d) i now) as [[db jc]|]; [|by eauto].
    destruct (reserve m required) as [[m' g]|]; simplify_eq; [by rewrite lookup_delete_ne|done].
Qed.

Lemma scan_ages threshold now d m blocked cands b' r id :
  scan threshold now d m blocked cands = (b', r) → NoDup cands.*1 → blocked_cand m cands id →
  blocked_count blocked id ≤ blocked_count b' id ∧
  (∀ d' m' id' g, r = Ok (d', m', Some (id', g)) → behind cands id id' →
     blocked_count b' id = blocked_count blocked id + 1 ∧ blocked_count b' id < threshold).
Proof.
  revert d blocked. induction cands as [|[i j] cands IH]; intros d blocked H Hnd Hbc.
  { destruct Hbc as (? & ? & Hin & _). set_solver. }
  cbn [Worker.scan] in H. rewrite fmap_cons in Hnd. apply NoDup_cons in Hnd as [Hi Hnd].
  destruct Hbc as (jb & rb & Hin & Hn & Hcf & Hf). apply elem_of_cons in Hin as [[= <- <-]|Hin].
  - rewrite Hn, Hcf, Hf in H. cbn [negb] in H. case_bool; split_bools.
    + simplify_eq. unfold blocked_count at 2. rewrite lookup_insert_eq. cbn.
      fold (blocked_count blocked id). split; [lia|done].
    + pose proof (scan_counters_frame _ _ _ _ _ _ _ _ id H Hi) as Hb'.
      rewrite lookup_insert_eq in Hb'. fold (blocked_count blocked id) in Hb', Hb.
      unfold blocked_count at 2 3 5. rewrite Hb'. cbn. split; [lia|]. intros; lia.
  - assert (Hne : i ≠ id).
    { intros ->. apply Hi. apply list_elem_of_fmap. by exists (id, jb). }
    assert (Hbt : blocked_cand m cands id) by (by exists jb, rb).
    assert (Hrec : ∀ d0 bl, scan threshold now d0 m bl cands = (b', r) →
      bl !! id = blocked !! id → blocked_count blocked id ≤ blocked_count b' id ∧
      (∀ d' m' id' g, r = Ok (d', m', Some (id', g)) → behind ((i, j) :: cands) id id' →
        blocked_count b' id = blocked_count blocked id + 1 ∧ blocked_count b' id < threshold)).
    { intros d0 bl Hs Hbl. destruct (IH _ _ Hs Hnd Hbt) as [H1 H2].
      assert (Heq : blocked_count bl id = blocked_count blocked id)
        by (unfold blocked_count; by rewrite Hbl).
      rewrite Heq in *. split; [done|]. intros d' m' id' g Hr Hbh.
      apply behind_cons in Hbh as [[? _]|Hbh]; [done|]. eauto. }
    destruct (normalize_required_resources (required_resources j)) as [required|];
      [|simplify_eq; split; [lia|done]].
    case_bool.
    + destruct (mark_never_fits d i j required now); [|simplify_eq; split; [lia|done]].
      eapply Hrec; [exact H|]. by rewrite lookup_delete_ne.
    + case_bool.
      { case_bool; [|eapply Hrec; [exact H|by rewrite lookup_insert_ne]].
        simplify_eq. unfold blocked_count. rewrite lookup_insert_ne by done. split; [lia|done]. }
      destruct (claim_job_by_id (jobs d) i now) as [[db jc]|]; [|by eauto].
      destruct (reserve m required) as [[m' g]|]; simplify_eq; [|split; [lia|done]].
      unfold blocked_count. rewrite lookup_delete_ne by done. split; [lia|].
      intros ? ? ? ? [= <- <- <- <-] Hbh.
      apply behind_cons in Hbh as [[? _]|Hbh]; [done|]. by apply behind_elem in Hbh.
Qed.

(** A history of scans in which [id] stays blocked; [n] counts the claims of jobs behind it.
    Databases, leases and candidate lists may change arbitrarily between scans. *)
Inductive blocked_history (threshold : Z) (id : Z) : gmap Z Z → nat → Prop :=
  | history_nil blocked : blocked_history threshold id blocked 0
  | history_overtaken now d m blocked cands b' d' m' id' g n :
      scan threshold now d m blocked cands = (b', Ok (d', m', Some (id', g))) →
      NoDup cands.*1 → blocked_cand m cands id → behind cands id id' →
      blocked_history threshold id b' n → blocked_history threshold id blocked (S n)
  | history_other now d m blocked cands b' r n :
      scan threshold now d m blocked cands = (b', r) →
      NoDup cands.*1 → (blocked_cand m cands id ∨ id ∉ cands.*1) →
      blocked_history threshold id b' n → blocked_history threshold id blocked n.

(** No starvation by overtaking.  While a job that could run on the idle worker stays blocked,
    fewer jobs than the aging threshold are claimed ahead of it from behind: once its counter
    reaches the threshold, scans stop at it. *)
Lemma aging_bounds_overtaking threshold id blocked n :
  blocked_history threshold id blocked n →
  n = O ∨ blocked_count blocked id + Z.of_nat n < threshold.
Proof.
  induction 1 as [blocked|now d m blocked cands b' d' m' id' g n Hs Hnd Hbc Hbh _ IH
                 |now d m blocked cands b' r n Hs Hnd Hc _ IH]; [by left| |].
  - right. destruct (scan_ages _ _ _ _ _ _ _ _ _ Hs Hnd Hbc) as [_ Ha].
    destruct (Ha _ _ _ _ eq_refl Hbh). destruct IH as [->|IH]; lia.
  - destruct IH as [?|IH]; [by left|right]. destruct Hc as [Hbc|Hni].
    + destruct (scan_ages _ _ _ _ _ _ _ _ _ Hs Hnd Hbc) as [Ha _]. lia.
    + unfold blocked_count in *. by rewrite (scan_counters_frame _ _ _ _ _ _ _ _ _ Hs Hni) in IH.
Qed.

(** A malformed resource declaration, which [submit] accepts, is an exception of every pass
    that reaches it: the pass claims nothing and the job stays PENDING in front. *)
Lemma malformed_job_stops_scheduler max_new threshold now locked d m blocked id j e rest :
  (0 < max_new)%nat → pending_candidates gates d now = (id, j) :: rest →
  normalize_required_resources (required_resources j) = Err e →
  claim_available max_new threshold now locked d m blocked = (blocked, m, Err (LeaseFailure e)).
Proof.
  intros Hm Hc Hn. unfold claim_available. destruct max_new as [|n]; [lia|]. cbn.
  rewrite Hc. cbn. by rewrite Hn.
Qed.
End scheduler.
