(* ===== verification/WorkerLife.v ===== *)
(** * The life of the worker

    The attempts of [_execute_job] under replay, the retry policy, and the worker process as a
    step relation over the committed database, the jobs in flight, the failure records awaiting a
    writable database and the leases: submissions, scheduler passes, finished attempts, deferred
    records, crashes and orphan recovery, in any order. *)

From S2P Require Import Prelude Json JobModels Catalog Leases RetryConfig Conditions Engine.
From S2P Require Import EngineFacts Worker WorkerFacts SchedulerFacts.

Section life.
Context (uniform : Z → Z → Z) (isoformat : time → string).
Context (hostname worker_id code_version : string).
Context (gates : string → option DispatchGate).
Context (not_registered : string → string) (never_fits_error : dict Z → string).

Notation claim_available :=
  (claim_available uniform hostname worker_id code_version gates never_fits_error).
Notation execute_job_once :=
  (execute_job_once uniform hostname worker_id code_version not_registered).
Notation persist_lock_failure :=
  (persist_lock_failure uniform hostname worker_id code_version).
Notation execute_job :=
  (execute_job uniform hostname worker_id code_version not_registered).

(** ** One attempt *)

Lemma apply_retry_attempts db id config now db' :
  apply_retry_policy uniform db id config now = Ok db' →
  attempt_tbl db' = attempt_tbl db ∧ next_attempt_id db' = next_attempt_id db.
Proof.
  unfold apply_retry_policy. intros H.
  destruct (job_tbl db !! id); [|by simplify_eq]. case_decide; [by simplify_eq|].
  case_bool; [by simplify_eq|]. case_bool; [done|]. by simplify_eq.
Qed.

(** The run inside an attempt: the row it ends with and the transcript row it appends. *)
Lemma running_run_spec get_handler d id granted t now d1 r j :
  handlers_framed get_handler →
  run_one uniform hostname worker_id code_version get_handler not_registered
    d d id granted t now = Ok (d1, r) →
  job_tbl (jobs d) !! id = Some j → status j = RUNNING → engine_ok (jobs d) →
  ∃ base j' a,
    handler_frame (jobs d) (jobs base) ∧ job_tbl (jobs d1) = <[id := j']> (job_tbl (jobs base)) ∧
    status j' = (if jr_ok r then SUCCEEDED else FAILED) ∧
    attempts j' = attempts j ∧ dedupe_key j' = dedupe_key j ∧ recon_domain j' = recon_domain j ∧
    attempt_tbl (jobs d1) = <[next_attempt_id (jobs d) := a]> (attempt_tbl (jobs d)) ∧
    next_attempt_id (jobs d1) = next_attempt_id (jobs d) + 1 ∧
    at_job_id a = id ∧ at_number a = attempts j.
Proof.
  intros Hf Hrun Hj Hr Hok.
  apply run_one_decompose in Hrun
    as (da & ja & base & j' & Hadm & Hbase & (j0 & Hj0 & Ha0 & Hd0 & Hr0) & He); [|done].
  apply admit_job_ok in Hadm as (_ & _ & _ & _ & _ & _ & jx & Hjx & Hcase).
  rewrite Hj in Hjx. injection Hjx as <-.
  destruct Hcase as [[? _]|[_ [-> ->]]]; [congruence|].
  assert (Hb : handler_frame (jobs d) (jobs base)).
  { destruct Hbase as [?| ->]; [done|apply handler_frame_refl]. }
  destruct (hf_rows _ _ Hb _ _ Hj) as (jb & Hjb & Hsb & Hab & Hdb & Hrb).
  rewrite Hj0 in Hjb. injection Hjb as <-.
  destruct He as [_ Hjobs _ (a & Hat & Haj & Han & _) Hna Hst].
  exists base, j', a. rewrite <- (hf_attempts _ _ Hb), <- (hf_next_attempt _ _ Hb).
  split_and!; try done; congruence.
Qed.

Lemma execute_once_attempt get_handler config d id granted t now d' r j :
  handlers_framed get_handler →
  execute_job_once get_handler config d id granted t now = Ok (d', r) →
  job_tbl (jobs d) !! id = Some j → status j = RUNNING → engine_ok (jobs d) →
  ∃ a, attempt_tbl (jobs d') = <[next_attempt_id (jobs d) := a]> (attempt_tbl (jobs d)) ∧
       at_job_id a = id ∧ at_number a = attempts j.
Proof.
  intros Hf H Hj Hr Hok. unfold execute_job_once in H.
  apply bind_Ok in H as ([d1 r1] & Hrun & H).
  destruct (running_run_spec _ _ _ _ _ _ _ _ _ Hf Hrun Hj Hr Hok)
    as (base & j' & a & _ & Hjobs & _ & _ & _ & _ & Hat & _ & Haj & Han).
  exists a. rewrite Hjobs, lookup_insert_eq in H.
  destruct (recon_domain j'); [by simplify_eq|].
  apply bind_Ok in H as (db & Hret & H). injection H as <- <-. cbn.
  apply apply_retry_attempts in Hret as [-> _]. done.
Qed.

(** The run itself never meets the unique index: its only write of a status is a terminal one. *)
Lemma record_reconciler_condition_no_integrity db j att now c reason msg due tool ab :
  record_reconciler_condition uniform db j att now c reason msg due tool ab ≠ Err IntegrityError.
Proof.
  unfold record_reconciler_condition. destruct (recon_domain j); [|done].
  destruct (recon_target_key j); [|done].
  by destruct (record_condition _ _ _ _ _ _ _ _ _ _ _ _) as [[? ?]|].
Qed.

Lemma bind_no_err {E A B} (m : result E A) (f : A → result E B) e :
  m ≠ Err e → (∀ a, f a ≠ Err e) → m ≫= f ≠ Err e.
Proof. destruct m; cbn; naive_solver. Qed.

Lemma run_one_no_integrity get_handler committed d id granted t now :
  run_one uniform hostname worker_id code_version get_handler not_registered
    committed d id granted t now ≠ Err IntegrityError.
Proof.
  assert (Hfail : ∀ d id j ctx g now err c reason msg,
    fail_job uniform worker_id code_version d id j ctx g now err c reason msg ≠ Err IntegrityError).
  { intros. unfold fail_job. cbn. apply bind_no_err; [|done].
    apply record_reconciler_condition_no_integrity. }
  unfold run_one. apply bind_no_err.
  { unfold admit_job. destruct (job_tbl (jobs d) !! id) as [j|]; [|done]. case_bool; [done|].
    repeat case_decide; try done. by destruct (claim_job_by_id (jobs d) id t) as [[? ?]|]. }
  intros [d1 j1]. destruct (get_handler (kind j1)) as [h|]; [|apply Hfail].
  destruct (invoke_handler_in_savepoint d1 id _ h) as [d2 run].
  destruct (hr_end run) as [r0|msg trace|msg|msg trace broken]; [| |done|];
    [|destruct (job_tbl (jobs d2) !! id); [apply Hfail|done]
     |destruct (job_tbl (jobs (if broken then committed else d2)) !! id); [apply Hfail|done]].
  unfold finish_job. destruct (job_tbl (jobs d2) !! id) as [j|]; [|done]. cbn.
  apply bind_no_err; [|done].
  destruct (jr_condition r0) as [p|]; [|destruct (jr_ok r0)];
    apply record_reconciler_condition_no_integrity.
Qed.

(** Requeueing never collides with the live-only unique index: an attempt that got as far as
    the retry policy does not raise [IntegrityError], because the job kept its key live all
    through its run. *)
Lemma retry_never_conflicts get_handler config d id granted t now j :
  handlers_framed get_handler →
  job_tbl (jobs d) !! id = Some j → status j = RUNNING → engine_ok (jobs d) →
  execute_job_once get_handler config d id granted t now ≠ Err IntegrityError.
Proof.
  intros Hf Hj Hr Hok. unfold execute_job_once.
  pose proof (run_one_no_integrity get_handler d d id granted t now) as Hni.
  destruct (run_one _ _ _ _ _ _ _ _ _ _ _ _) as [[d1 r]|e] eqn:Hrun; [|by cbn; congruence].
  cbn. destruct (running_run_spec _ _ _ _ _ _ _ _ _ Hf Hrun Hj Hr Hok)
    as (base & j' & a & Hb & Hjobs & Hst & Hat & Hdk & _).
  rewrite Hjobs, lookup_insert_eq. destruct (recon_domain j'); [done|].
  assert (Hnc : dedupe_conflict (jobs d1) id j' = false).
  { unfold dedupe_conflict. destruct (dedupe_key j') as [key|] eqn:Hk; [|done].
    apply not_true_iff_false. rewrite existsb_exists. intros ([i x] & Hin & Hx). cbn in Hx.
    split_bools. apply list_elem_of_In, elem_of_job_rows in Hin.
    rewrite Hjobs, lookup_insert_ne in Hin by done. apply live_with_key_iff in H0 as [Hkx Hlx].
    destruct (hf_index _ _ Hb (proj1 Hok)) as [_ Hu].
    destruct (hf_rows _ _ Hb _ _ Hj) as (jb & Hjb & Hsb & _ & Hdb & _).
    apply H. eapply Hu; [exact Hin|exact Hjb|done| |done|by rewrite Hsb, Hr].
    congruence. }
  unfold apply_retry_policy. rewrite Hjobs, lookup_insert_eq.
  case_decide; [done|]. case_bool; [done|].
  replace (dedupe_conflict _ _ _) with (dedupe_conflict (jobs d1) id j') by done.
  by rewrite Hnc.
Qed.

(** C17: What the retry policy does with a failed attempt of a job that no reconciler owns: below its
    attempt limit the job is PENDING again, its due time pushed by the backoff of its attempt
    count; at the limit it stays FAILED.  A reconciler's job is never requeued: its condition row
    owns the schedule. *)
Theorem failed_attempt_outcome get_handler config d id granted t now d' r j j' :
  handlers_framed get_handler →
  execute_job_once get_handler config d id granted t now = Ok (d', r) →
  job_tbl (jobs d) !! id = Some j → status j = RUNNING → engine_ok (jobs d) → jr_ok r = false →
  job_tbl (jobs d') !! id = Some j' →
  let retry := retry_for_kind config (kind j') in
  attempts j' = attempts j ∧
  match recon_domain j with
  | Some _ => status j' = FAILED
  | None =>
      if max_attempts retry <=? attempts j then status j' = FAILED
      else status j' = PENDING ∧ finished_at j' = None ∧
           not_before j' = now + delay_seconds uniform retry (attempts j)
                                   (wc_max_backoff_seconds config)
  end.
Proof.
  intros Hf H Hj Hr Hok Hbad Hj' retry. unfold execute_job_once in H.
  apply bind_Ok in H as ([d1 r1] & Hrun & H).
  destruct (running_run_spec _ _ _ _ _ _ _ _ _ Hf Hrun Hj Hr Hok)
    as (base & je & a & _ & Hjobs & Hst & Hat & _ & Hrd & _).
  rewrite Hjobs, lookup_insert_eq in H. rewrite <- Hrd, <- Hat.
  destruct (recon_domain je) eqn:Erd.
  { simplify_eq. rewrite Hjobs, lookup_insert_eq in Hj'. simplify_eq. by rewrite Hbad in Hst. }
  apply bind_Ok in H as (db & Hret & H). injection H as <- <-. cbn in Hj'. rewrite Hbad in Hst.
  unfold apply_retry_policy in Hret. rewrite Hjobs, lookup_insert_eq in Hret.
  rewrite decide_False in Hret by auto.
  assert (Hk : kind je = kind j').
  { repeat case_bool; simplify_eq;
      rewrite ?put_job_lookup, ?decide_True, ?Hjobs, ?lookup_insert_eq in Hj' by done;
      by simplify_eq. }
  subst retry. rewrite <- Hk. destruct (max_attempts _ <=? attempts je).
  - simplify_eq. rewrite Hjobs, lookup_insert_eq in Hj'. by simplify_eq.
  - case_bool; [done|]. simplify_eq.
    rewrite put_job_lookup, decide_True in Hj' by done. by simplify_eq.
Qed.

(** ** Replays *)

Lemma execute_retries_inl exec retry remaining res :
  execute_retries exec retry remaining = inl res →
  ∃ i, (retry ≤ i ≤ retry + remaining)%nat ∧ exec i = res ∧
       ∀ detail, res ≠ Err (SqliteLocked detail).
Proof.
  revert retry. induction remaining as [|n IH]; intros retry; cbn;
    destruct (exec retry) as [a|[]] eqn:E; intros H; simplify_eq;
    try (exists retry; split; [lia|]; split; [done|done]).
  apply IH in H as (i & Hi & Hx). exists i. split; [lia|done].
Qed.

Lemma execute_retries_inr exec retry remaining detail :
  execute_retries exec retry remaining = inr detail →
  ∀ i, (retry ≤ i ≤ retry + remaining)%nat → ∃ x, exec i = Err (SqliteLocked x).
Proof.
  revert retry. induction remaining as [|n IH]; intros retry; cbn;
    destruct (exec retry) as [a|[]] eqn:E; intros H; simplify_eq; intros i Hi.
  - assert (i = retry) as -> by lia. eauto.
  - destruct (decide (i = retry)) as [->|]; [eauto|]. eapply IH; [exact H|lia].
Qed.

Lemma persist_unlocked d o now d' written :
  persist_lock_failure d o false now = Ok (d', written) → written = true.
Proof.
  unfold persist_lock_failure. destruct (job_tbl (jobs d) !! wo_job_id o); [|by intros [= <- <-]].
  cbn. intros (db & _ & H)%bind_Ok. by simplify_eq.
Qed.

Lemma persist_attempt d o now d' j :
  persist_lock_failure d o false now = Ok (d', true) →
  job_tbl (jobs d) !! wo_job_id o = Some j →
  ∃ a, attempt_tbl (jobs d') = <[next_attempt_id (jobs d) := a]> (attempt_tbl (jobs d)) ∧
       at_job_id a = wo_job_id o ∧ at_number a = attempts j.
Proof.
  unfold persist_lock_failure. cbn. intros H Hj. rewrite Hj in H.
  apply bind_Ok in H as (db & H & Heq). injection Heq as <-.
  apply record_reconciler_condition_same_jobs in H as [_ _ Ha _].
  eexists. split; [exact Ha|]. by cbn.
Qed.

(** What [_execute_job] leaves behind, for a job claimed by this worker. *)
Record attempt_done (d : Database) (id : Z) (j : Job) (d' : Database) (o : WorkerJobOutcome)
    : Prop := {
  ad_id : wo_job_id o = id;
  ad_engine : engine_ok (jobs d');
  ad_others : ∀ i x, i ≠ id → job_tbl (jobs d) !! i = Some x → status x = RUNNING →
    ∃ x', job_tbl (jobs d') !! i = Some x' ∧ status x' = RUNNING;
  ad_attempt : if wo_failure_record_pending o then d' = d
    else ∃ a, attempt_tbl (jobs d') = <[next_attempt_id (jobs d) := a]> (attempt_tbl (jobs d)) ∧
              at_job_id a = id ∧ at_number a = attempts j;
}.

Lemma execute_job_spec handlers locked plocked config d id granted t now d' o j :
  (∀ i, handlers_framed (handlers i)) →
  execute_job handlers locked plocked config d id granted t now = Ok (d', o) →
  job_tbl (jobs d) !! id = Some j → status j = RUNNING → engine_ok (jobs d) →
  attempt_done d id j d' o.
Proof.
  intros Hf H Hj Hr Hok. unfold execute_job in H. cbn zeta in H.
  destruct (execute_retries _ 0 LOCK_RETRIES) as [[[d1 r]|]|detail] eqn:Ex; [|done|].
  - simplify_eq. apply execute_retries_inl in Ex as (i & _ & He & _).
    destruct (execute_job_once _ config d id granted t now) as [[d2 r2]|] eqn:Eo; [|done].
    destruct (locked i); simplify_eq.
    destruct (execute_once_ok _ _ _ _ _ _ _ _ _ _ _ _ _ _ _ (Hf i) Eo Hj Hr Hok) as [He Hk].
    constructor; cbn; [done|done|done|]. by eapply execute_once_attempt.
  - apply bind_Ok in H as ([d1 written] & Hp & H). injection H as <- <-.
    destruct plocked.
    + injection Hp as <- <-. constructor; cbn; eauto.
    + pose proof (persist_unlocked _ _ _ _ _ Hp) as ->.
      destruct (persist_spec _ _ _ _ _ _ _ _ _ Hp Hj Hr Hok) as (He & j' & Hjt & _).
      constructor; cbn; [done|done| |by eapply persist_attempt in Hp].
      intros i x Hi Hx Hxr. exists x. rewrite Hjt, lookup_insert_ne by done. done.
Qed.

(** C21: exactly one audit row per claimed attempt, whatever SQLite contention did to it.  Through
    up to five executions of the whole attempt transaction, an outcome that is final has appended
    exactly one transcript row, with the attempt number of the claim; an outcome whose record is
    pending has changed nothing. *)
Theorem replay_records_once handlers locked plocked config d id granted t now d' o j :
  (∀ i, handlers_framed (handlers i)) →
  execute_job handlers locked plocked config d id granted t now = Ok (d', o) →
  job_tbl (jobs d) !! id = Some j → status j = RUNNING → engine_ok (jobs d) →
  if wo_failure_record_pending o then
    d' = d ∧ plocked = true ∧
    ∀ i, (i ≤ LOCK_RETRIES)%nat → locked i = true ∨
      ∃ x, execute_job_once (handlers i) config d id granted t now = Err (SqliteLocked x)
  else ∃ a, attempt_tbl (jobs d') = <[next_attempt_id (jobs d) := a]> (attempt_tbl (jobs d)) ∧
            at_job_id a = id ∧ at_number a = attempts j.
Proof.
  intros Hf H Hj Hr Hok.
  destruct (execute_job_spec _ _ _ _ _ _ _ _ _ _ _ _ Hf H Hj Hr Hok) as [_ _ _ Ha].
  destruct (wo_failure_record_pending o) eqn:Ep; [|done]. split; [done|].
  unfold execute_job in H. cbn zeta in H.
  destruct (execute_retries _ 0 LOCK_RETRIES) as [[[d1 r]|]|detail] eqn:Ex; [|done|].
  { by simplify_eq. }
  apply bind_Ok in H as ([d1 written] & Hp & H). injection H as <- <-. cbn in Ep.
  destruct plocked; [|apply persist_unlocked in Hp as ->; done]. split; [done|].
  intros i Hi. destruct (execute_retries_inr _ _ _ _ Ex i) as [x Hx]; [lia|]. cbn in Hx.
  destruct (execute_job_once _ config d id granted t now) as [[d2 r2]|e] eqn:Eo.
  - destruct (locked i); [by left|done].
  - simplify_eq. eauto.
Qed.

(** ** The worker process *)

Record WorkerState := {
  ws_db : Database;
  ws_running : list (Z * dict Z);
  ws_pending_failures : list WorkerJobOutcome;
  ws_leases : LeaseManager;
  ws_blocked : gmap Z Z;
}.

Definition fresh_worker (d : Database) (m : LeaseManager) : WorkerState := {|
  ws_db := d; ws_running := []; ws_pending_failures := []; ws_leases := m; ws_blocked := ∅ |}.

(** [ws_submit] is any process's submission; [ws_claim] a scheduler pass of [drain]; [ws_finish]
    the completion of a future; [ws_persist] the loop over [_pending_failures] that opens [drain],
    before anything is in flight; [ws_recover] orphan recovery, which [drain] guards by the absence
    of pending failures; [ws_restart] a process that died, by crash or by a raised exception, and
    its successor. *)
Inductive worker_step : WorkerState → WorkerState → Prop :=
  | ws_submit d run pf m b s now :
      worker_step
        {| ws_db := d; ws_running := run; ws_pending_failures := pf; ws_leases := m; ws_blocked := b |}
        {| ws_db := with_jobdb (submit1 (jobs d) s now).1 d; ws_running := run;
           ws_pending_failures := pf; ws_leases := m; ws_blocked := b |}
  | ws_claim d run pf m b max_new threshold now locked b' m' d' claimed :
      claim_available max_new threshold now locked d m b = (b', m', Ok (d', claimed)) →
      worker_step
        {| ws_db := d; ws_running := run; ws_pending_failures := pf; ws_leases := m; ws_blocked := b |}
        {| ws_db := d'; ws_running := claimed ++ run; ws_pending_failures := pf; ws_leases := m';
           ws_blocked := b' |}
  | ws_finish d run1 id granted run2 pf m b handlers locked plocked config t now d' o m' e :
      (∀ i, handlers_framed (handlers i)) →
      execute_job handlers locked plocked config d id granted t now = Ok (d', o) →
      release m granted = (m', e) →
      worker_step
        {| ws_db := d; ws_running := run1 ++ (id, granted) :: run2; ws_pending_failures := pf;
           ws_leases := m; ws_blocked := b |}
        {| ws_db := d'; ws_running := run1 ++ run2;
           ws_pending_failures := if wo_failure_record_pending o then pf ++ [o] else pf;
           ws_leases := m'; ws_blocked := b |}
  | ws_persist d pf1 o pf2 m b locked now d' written :
      persist_lock_failure d o locked now = Ok (d', written) →
      worker_step
        {| ws_db := d; ws_running := []; ws_pending_failures := pf1 ++ o :: pf2; ws_leases := m;
           ws_blocked := b |}
        {| ws_db := d'; ws_running := [];
           ws_pending_failures := pf1 ++ (if written then [] else [o]) ++ pf2; ws_leases := m;
           ws_blocked := b |}
  | ws_recover d m b now :
      worker_step
        {| ws_db := d; ws_running := []; ws_pending_failures := []; ws_leases := m; ws_blocked := b |}
        {| ws_db := with_jobdb (reset_orphaned_running_jobs isoformat (jobs d) now).1 d;
           ws_running := []; ws_pending_failures := []; ws_leases := m; ws_blocked := b |}
  | ws_restart w caps m :
      lease_manager_init caps = Ok m → worker_step w (fresh_worker (ws_db w) m).

Definition owned (w : WorkerState) : list Z :=
  (ws_running w).*1 ++ (wo_job_id <$> ws_pending_failures w).

Definition row_running (db : JobDB) (id : Z) : Prop :=
  ∃ j, job_tbl db !! id = Some j ∧ status j = RUNNING.

Record worker_ok (w : WorkerState) : Prop := {
  wk_engine : engine_ok (jobs (ws_db w));
  wk_leases : lease_acct {| ls_manager := ws_leases w; ls_grants := (ws_running w).*2 |};
  wk_nodup : NoDup (owned w);
  wk_running : ∀ id, id ∈ owned w → row_running (jobs (ws_db w)) id;
}.

Lemma fresh_worker_ok d caps m :
  engine_ok (jobs d) → lease_manager_init caps = Ok m → worker_ok (fresh_worker d m).
Proof.
  intros He Hm. constructor; cbn; [done|by eapply lease_init_acct|constructor|set_solver].
Qed.

Lemma submit1_running db s now id :
  engine_ok db → row_running db id → row_running (submit1 db s now).1 id.
Proof.
  intros [[Hid _] _] (j & Hj & Hr). exists j. split; [|done].
  assert (Hins : job_tbl (insert_job (new_job s now) db).1 !! id = Some j).
  { rewrite insert_job_lookup, decide_False; [done|].
    intros <-. rewrite ids_fresh_job in Hj; done. }
  unfold submit1, submit. destruct (sb_dedupe_key s) as [key|]; [|done]. cbn.
  destruct (live_job_for_dedupe db key) as [[? ?]|]; done.
Qed.

Lemma worker_claim_ok d run pf m b max_new threshold now locked b' m' d' claimed :
  claim_available max_new threshold now locked d m b = (b', m', Ok (d', claimed)) →
  worker_ok {| ws_db := d; ws_running := run; ws_pending_failures := pf; ws_leases := m;
               ws_blocked := b |} →
  worker_ok {| ws_db := d'; ws_running := claimed ++ run; ws_pending_failures := pf;
               ws_leases := m'; ws_blocked := b' |}.
Proof.
  intros H [He Hl Hnd Hrun]. unfold owned in *. cbn in *.
  apply claim_pass_spec with (gs := run.*2) in H as (_ & [Hpe Hpf Hpn Hpl Hpc] & _); [|done..].
  assert (Hold : ∀ id, id ∈ run.*1 ++ (wo_job_id <$> pf) → row_running (jobs d') id).
  { intros id Hin. destruct (Hrun id Hin) as (j & Hj & Hr). exists j. split; [|done].
    eapply sched_frame_not_pending; [done..|congruence]. }
  constructor; unfold owned; cbn.
  - done.
  - by rewrite fmap_app.
  - rewrite fmap_app, <- app_assoc. apply NoDup_app. split; [done|]. split; [|done].
    intros id Hc Ho. apply list_elem_of_fmap in Hc as ([i g] & -> & Hc). cbn in Ho.
    destruct (Hpc _ _ Hc) as (j & _ & Hj & Hp & _). destruct (Hrun i Ho) as (j2 & Hj2 & Hr2).
    congruence.
  - intros id. rewrite fmap_app, <- app_assoc, elem_of_app. intros [Hc|Ho]; [|by apply Hold].
    apply list_elem_of_fmap in Hc as ([i g] & -> & Hc).
    destruct (Hpc _ _ Hc) as (_ & j' & _ & _ & _ & _ & _ & Hj' & Hr' & _). by exists j'.
Qed.

Lemma worker_finish_ok d run1 id granted run2 pf m b handlers locked plocked config t now d' o m' e :
  (∀ i, handlers_framed (handlers i)) →
  execute_job handlers locked plocked config d id granted t now = Ok (d', o) →
  release m granted = (m', e) →
  worker_ok {| ws_db := d; ws_running := run1 ++ (id, granted) :: run2; ws_pending_failures := pf;
               ws_leases := m; ws_blocked := b |} →
  worker_ok {| ws_db := d'; ws_running := run1 ++ run2;
               ws_pending_failures := if wo_failure_record_pending o then pf ++ [o] else pf;
               ws_leases := m'; ws_blocked := b |}.
Proof.
  intros Hf H Hrel [He Hl Hnd Hrun]. unfold owned in *. cbn [ws_db ws_running ws_pending_failures ws_leases ls_manager ls_grants fst snd app] in *.
  assert (Hp : (run1 ++ (id, granted) :: run2).*1 ++ (wo_job_id <$> pf) ≡ₚ
               id :: (run1 ++ run2).*1 ++ (wo_job_id <$> pf)).
  { rewrite !fmap_app, fmap_cons. cbn [fst]. by rewrite <- Permutation_middle. }
  rewrite Hp in Hnd. apply NoDup_cons in Hnd as [Hni Hnd].
  setoid_rewrite Hp in Hrun. rewrite fmap_app, fmap_cons in Hl.
  destruct (Hrun id) as (j & Hj & Hr); [left|].
  destruct (execute_job_spec _ _ _ _ _ _ _ _ _ _ _ _ Hf H Hj Hr He) as [Hid He' Hoth Hat].
  destruct (release_acct _ _ _ _ _ _ Hrel Hl) as [_ Hl'].
  rewrite <- fmap_app in Hl'.
  constructor; unfold owned; cbn [ws_db ws_running ws_pending_failures ws_leases ls_manager ls_grants fst snd app]; [done|done| |].
  - destruct (wo_failure_record_pending o); [|done].
    rewrite (fmap_app wo_job_id pf [o]), app_assoc. change (wo_job_id <$> [o]) with [wo_job_id o].
    rewrite Hid, <- Permutation_cons_append.
    by apply NoDup_cons.
  - intros i Hi. destruct (decide (i = id)) as [->|Hne].
    + destruct (wo_failure_record_pending o); [rewrite Hat; by exists j|done].
    + destruct (Hrun i) as (x & Hx & Hxr); [|by eapply Hoth].
      destruct (wo_failure_record_pending o); rewrite ?fmap_app in Hi; set_solver.
Qed.

Lemma worker_persist_ok d pf1 o pf2 m b locked now d' written :
  persist_lock_failure d o locked now = Ok (d', written) →
  worker_ok {| ws_db := d; ws_running := []; ws_pending_failures := pf1 ++ o :: pf2;
               ws_leases := m; ws_blocked := b |} →
  worker_ok {| ws_db := d'; ws_running := [];
               ws_pending_failures := pf1 ++ (if written then [] else [o]) ++ pf2; ws_leases := m;
               ws_blocked := b |}.
Proof.
  intros H [He Hl Hnd Hrun]. unfold owned in *. cbn [ws_db ws_running ws_pending_failures ws_leases ls_manager ls_grants fst snd app] in *. destruct locked.
  { injection H as <- <-. constructor; done. }
  pose proof (persist_unlocked _ _ _ _ _ H) as ->. cbn.
  assert (Hp : wo_job_id <$> pf1 ++ o :: pf2 ≡ₚ wo_job_id o :: (wo_job_id <$> pf1 ++ pf2)).
  { rewrite !fmap_app, fmap_cons. by rewrite <- Permutation_middle. }
  rewrite Hp in Hnd. apply NoDup_cons in Hnd as [Hni Hnd]. setoid_rewrite Hp in Hrun.
  destruct (Hrun (wo_job_id o)) as (j & Hj & Hr); [left|].
  destruct (persist_spec _ _ _ _ _ _ _ _ _ H Hj Hr He) as (He' & j' & Hjt & _).
  constructor; unfold owned; cbn [ws_db ws_running ws_pending_failures ws_leases ls_manager ls_grants fst snd app]; [done|done|done|].
  intros i Hi. destruct (Hrun i) as (x & Hx & Hxr); [by right|]. exists x.
  rewrite Hjt, lookup_insert_ne; [done|]. intros <-. done.
Qed.

Lemma worker_step_ok w w' : worker_step w w' → worker_ok w → worker_ok w'.
Proof.
  intros []; [|by eapply worker_claim_ok|by eapply worker_finish_ok|by eapply worker_persist_ok| |].
  - intros [He Hl Hnd Hrun]. unfold owned in *. cbn [ws_db ws_running ws_pending_failures ws_leases ls_manager ls_grants fst snd app] in *.
    constructor; cbn; [by apply submit_engine_ok|done|done|].
    intros id Hid. apply submit1_running; auto.
  - intros [He Hl Hnd Hrun]. cbn in *.
    constructor; cbn; [by apply reset_orphans_engine_ok|done|constructor|set_solver].
  - intros [He _ _ _]. by eapply fresh_worker_ok.
Qed.

(** C1: the worker over its whole life.  From a fresh worker, after any sequence of submissions,
    scheduler passes, finished attempts (replayed, failed or deferred), deferred records, orphan
    recoveries and process deaths: the deduplication index holds; no attempt number of a job is
    recorded twice; the leases are exactly those of the jobs in flight and within capacity; and
    every job in flight or awaiting its failure record is RUNNING and owned once, so recovery never
    resets a job this process still owns. *)
Theorem worker_life_invariant d caps m w :
  engine_ok (jobs d) → lease_manager_init caps = Ok m →
  rtc worker_step (fresh_worker d m) w →
  dedupe_unique (jobs (ws_db w)) ∧
  (∀ aid aid' a a', attempt_tbl (jobs (ws_db w)) !! aid = Some a →
     attempt_tbl (jobs (ws_db w)) !! aid' = Some a' →
     at_job_id a = at_job_id a' → at_number a = at_number a' → aid = aid') ∧
  (∀ pool, used (ws_leases w) pool = granted_sum pool (ws_running w).*2 ∧
           0 ≤ used (ws_leases w) pool ≤ Z.max 0 (cap (ws_leases w) pool)) ∧
  NoDup (owned w) ∧ (∀ id, id ∈ owned w → row_running (jobs (ws_db w)) id).
Proof.
  intros He Hm Hrtc.
  assert (Hok : worker_ok w).
  { pose proof (fresh_worker_ok d caps m He Hm) as H0. revert H0.
    induction Hrtc; eauto using worker_step_ok. }
  destruct Hok as [[[_ Hu] [_ Hau]] [Hg Hs Hc] Hnd Hrun]; cbn in *.
  split_and!; try done. intros pool. split; [done|]. split; [|done].
  rewrite Hs. by apply granted_sum_nonneg.
Qed.
End life.
