(* ===== verification/Spine.v ===== *)
(** * The reconciler spine

    [jobs/reconcilers/spine.py] and [jobs/reconcilers/registry.py]: the generic loop that refreshes
    condition rows from observed reality and enqueues at most one job per due target.  A domain's
    hooks are a [Reconciler]; [ReconcilerLaws] is what the spine relies on, and each domain file
    proves it for its own hooks. *)

From S2P Require Import Prelude Json JobModels Catalog Leases RetryConfig Conditions Engine.
From S2P Require Import EngineFacts.

Record TargetObservation := {
  to_target_key : string;
  to_desired : bool;
  to_observed_state : string;
}.

Inductive SpineError :=
  | ReconcilerNotRegistered
  | DomainAlreadyRegistered
  | HookRaised (what : string).

(** The hooks of one domain.  [classify_condition] receives the refreshed row and may rewrite it
    in the session. *)
Record Reconciler := {
  enumerate_targets : Database → option Z → nat → result SpineError (list TargetObservation);
  observe : Database → string → result SpineError TargetObservation;
  reconcile_target : Database → string → time → result SpineError Database;
  classify_condition :
    option (Database → string → ReconciliationCondition → time → result SpineError Database);
}.

Definition register_reconciler (domain : string) (r : Reconciler) (reg : gmap string Reconciler)
    : result SpineError (gmap string Reconciler) :=
  match reg !! domain with
  | Some _ => Err DomainAlreadyRegistered
  | None => Ok (<[domain := r]> reg)
  end.

Definition get_reconciler (reg : gmap string Reconciler) (domain : string)
    : result SpineError Reconciler :=
  match reg !! domain with
  | Some r => Ok r
  | None => Err ReconcilerNotRegistered
  end.

(** Refresh one row from an observation and let the domain classify it: the common part of
    [discover] and [process].  The row handed back is the session's, as classified. *)
Definition refresh_target (r : Reconciler) (domain : string) (d : Database) (now : time)
    (target : string) (o : TargetObservation)
    : result SpineError (Database * ReconciliationCondition) :=
  let '(db, row) := record_observation (jobs d) now domain target (to_desired o)
                      (to_observed_state o) None None in
  let d := with_jobdb db d in
  match classify_condition r with
  | None => Ok (d, row)
  | Some classify =>
      d ← classify d target row now;
      Ok (d, default row (cond_tbl (jobs d) !! (domain, target)))
  end.

(** [clock] gives the reading at which each target is handled. *)
Fixpoint discover_rows (r : Reconciler) (domain : string) (clock : string → time) (d : Database)
    (os : list TargetObservation) : result SpineError (Database * Z) :=
  match os with
  | [] => Ok (d, 0)
  | o :: os =>
      '(d, _) ← refresh_target r domain d (clock (to_target_key o)) (to_target_key o) o;
      '(d, n) ← discover_rows r domain clock d os;
      Ok (d, n + 1)
  end.

Definition discover (reg : gmap string Reconciler) (d : Database) (domain : string) (batch : nat)
    (cursor : option Z) (clock : string → time) : result SpineError (Database * Z) :=
  r ← get_reconciler reg domain;
  os ← enumerate_targets r d cursor batch;
  discover_rows r domain clock d os.

Definition is_due (domain : string) (now : time) (kr : cond_key * ReconciliationCondition) : bool :=
  bool_decide (kr.1.1 = domain) && workable (rc_condition kr.2) &&
  match rc_next_eligible_at kr.2 with Some t => t <=? now | None => false end.

Definition due_order (kr : cond_key * ReconciliationCondition) : Z * Z :=
  (default 0 (rc_next_eligible_at kr.2), rc_id kr.2).

Definition due_workable (db : JobDB) (domain : string) (limit : nat) (now : time)
    : list (cond_key * ReconciliationCondition) :=
  take limit (sort_by due_order (filter (λ kr, is_due domain now kr = true) (cond_rows db))).

Definition live_for_target (domain target : string) (j : Job) : bool :=
  bool_decide (recon_domain j = Some domain) && bool_decide (recon_target_key j = Some target) &&
  live (status j).

Definition gate_open (db : JobDB) (domain target : string) (row : ReconciliationCondition)
    (desired : bool) (now : time) : bool :=
  if negb desired then false
  else if negb (workable (rc_condition row)) then false
  else match rc_next_eligible_at row with
       | None => false
       | Some due =>
           if now <? due then false
           else negb (existsb (λ ij, live_for_target domain target ij.2) (job_rows db))
       end.

Definition process_target (r : Reconciler) (domain : string) (d : Database) (t_obs t_gate : time)
    (target : string) : result SpineError Database :=
  o ← observe r d target;
  '(d, row) ← refresh_target r domain d t_obs target o;
  if gate_open (jobs d) domain target row (to_desired o) t_gate
  then reconcile_target r d target t_gate
  else Ok d.

(** [clock] gives the readings of the observation and of the gate for each target. *)
Fixpoint process_targets (r : Reconciler) (domain : string) (clock : string → time * time) (d : Database)
    (targets : list string) : result SpineError (Database * Z) :=
  match targets with
  | [] => Ok (d, 0)
  | t :: targets =>
      d ← process_target r domain d (clock t).1 (clock t).2 t;
      '(d, n) ← process_targets r domain clock d targets;
      Ok (d, n + 1)
  end.

Definition process (reg : gmap string Reconciler) (d : Database) (domain : string) (limit : nat)
    (now : time) (clock : string → time * time) : result SpineError (Database * Z) :=
  r ← get_reconciler reg domain;
  process_targets r domain clock d ((λ kr, kr.1.2) <$> due_workable (jobs d) domain limit now).

Section reopen_bumped.
Context (isoformat : time → string) (current_tool_version : string → string).

Definition version_bumped (domain : string) (kr : cond_key * ReconciliationCondition) : bool :=
  bool_decide (kr.1.1 = domain) && bool_decide (rc_condition kr.2 = BLOCKED) &&
  match rc_blocked_tool kr.2 with
  | Some (tool, v) =>
      let current := current_tool_version tool in
      negb (bool_decide (current = "unknown") || bool_decide (current = v))
  | None => false
  end.

Definition bump_note (row : ReconciliationCondition) : string :=
  match rc_blocked_tool row with
  | Some (tool, v) =>
      tool +:+ " version changed from " +:+ (if decide (v = "") then "unknown" else v) +:+ " to "
        +:+ current_tool_version tool
  | None => ""
  end.

(** The rows are selected once, in id order; each reopening touches its own row only. *)
Definition reopen_version_bumped (db : JobDB) (domain : string) (now : time) : JobDB * Z :=
  let rows := sort_by (λ kr, rc_id kr.2)
                (filter (λ kr, version_bumped domain kr = true) (cond_rows db)) in
  (foldl (λ db kr, reopen_condition isoformat db kr.1 kr.2 "version-bump" (bump_note kr.2) now)
     db rows,
   Z.of_nat (length rows)).

Definition reconcile (reg : gmap string Reconciler) (d : Database) (domain : string) (batch : nat)
    (cursor : option Z) (limit : nat) (t_reopen t_due : time) (t_discover : string → time)
    (clock : string → time * time)
    : result SpineError (Database * (Z * Z)) :=
  let d := with_jobdb (reopen_version_bumped (jobs d) domain t_reopen).1 d in
  '(d, discovered) ← discover reg d domain batch cursor t_discover;
  '(d, processed) ← process reg d domain limit t_due clock;
  Ok (d, (discovered, processed)).
End reopen_bumped.

(** ** What the spine relies on *)

(** The effect of enqueueing one target on the job tables: nothing, or one [submit] labelled with
    the target. *)
Definition enqueue_frame (domain target : string) (db db' : JobDB) : Prop :=
  db' = db ∨ ∃ s now, sb_recon_domain s = Some domain ∧ sb_recon_target_key s = Some target ∧
    is_Some (sb_dedupe_key s) ∧ db' = (submit1 db s now).1.

(** Classification writes its own condition row and nothing of the job tables. *)
Definition classify_frame (domain target : string) (db db' : JobDB) : Prop :=
  same_jobs db db' ∧ (∀ k, k ≠ (domain, target) → cond_tbl db' !! k = cond_tbl db !! k) ∧
  (is_Some (cond_tbl db !! (domain, target)) → is_Some (cond_tbl db' !! (domain, target))) ∧
  (conds_wf db → conds_wf db').

Class ReconcilerLaws (domain : string) (r : Reconciler) : Prop := {
  law_classify : ∀ f d t row now d', classify_condition r = Some f →
    f d t row now = Ok d' → cat d' = cat d ∧ classify_frame domain t (jobs d) (jobs d');
  law_reconcile : ∀ d t now d', reconcile_target r d t now = Ok d' →
    enqueue_frame domain t (jobs d) (jobs d');
}.
