(* ===== verification/SpineFacts.v ===== *)
(** * Correctness of the reconciler spine *)

From S2P Require Import Prelude Json JobModels Catalog Leases RetryConfig Conditions Engine.
From S2P Require Import EngineFacts Spine.

(** At most one live job per reconciliation target. *)
Definition single_flight (db : JobDB) : Prop :=
  ∀ i i' j j' dom t, job_tbl db !! i = Some j → job_tbl db !! i' = Some j' →
    live_for_target dom t j = true → live_for_target dom t j' = true → i = i'.

Lemma live_for_target_iff dom t j :
  live_for_target dom t j = true ↔
  recon_domain j = Some dom ∧ recon_target_key j = Some t ∧ live (status j) = true.
Proof. unfold live_for_target. rewrite !andb_true_iff, !bool_decide_eq_true. naive_solver. Qed.

(** ** The gate *)

Lemma gate_open_spec db dom t row desired now :
  gate_open db dom t row desired now = true ↔
  desired = true ∧ workable (rc_condition row) = true ∧
  (∃ due, rc_next_eligible_at row = Some due ∧ due ≤ now) ∧
  ∀ i j, job_tbl db !! i = Some j → live_for_target dom t j = false.
Proof.
  unfold gate_open. destruct desired; cbn; [|naive_solver].
  destruct (workable (rc_condition row)); cbn; [|naive_solver].
  destruct (rc_next_eligible_at row) as [due|]; [|naive_solver].
  destruct (now <? due) eqn:E; split_bools; [split; [done|naive_solver lia]|].
  rewrite negb_true_iff, <- not_true_iff_false, existsb_exists.
  split.
  - intros Hn. split_and!; eauto. intros i j Hj. apply not_true_iff_false. intros Hl.
    apply Hn. exists (i, j). split; [by apply list_elem_of_In, elem_of_job_rows|done].
  - intros (_ & _ & _ & Hall) ([i j] & Hin & Hl). apply list_elem_of_In, elem_of_job_rows in Hin.
    apply Hall in Hin. cbn in Hl. congruence.
Qed.

Lemma NoDup_due_workable db domain limit now : NoDup (due_workable db domain limit now).*1.
Proof.
  eapply sublist_NoDup; [|apply fmap_sublist, sublist_take].
  rewrite (fmap_Permutation fst _ _ (sort_by_perm _ _)).
  eapply sublist_NoDup; [|apply fmap_sublist, sublist_filter]. apply NoDup_fst_map_to_list.
Qed.

Lemma due_targets_NoDup db domain limit now :
  NoDup ((λ kr, kr.1.2) <$> due_workable db domain limit now).
Proof.
  pose proof (NoDup_due_workable db domain limit now) as Hnd.
  assert (Hdom : ∀ kr, kr ∈ due_workable db domain limit now → kr.1.1 = domain).
  { intros kr Hin. unfold due_workable in Hin. eapply elem_of_submseteq in Hin;
      [|apply sublist_submseteq, sublist_take].
    apply elem_of_sort_by, list_elem_of_filter in Hin as [Hd _]. unfold is_due in Hd.
    by split_bools. }
  induction (due_workable db domain limit now) as [|[[dm t] row] l IH]; cbn; [constructor|].
  cbn in Hnd. apply NoDup_cons in Hnd as [Hni Hnd]. constructor; [|apply IH; set_solver].
  intros Hin. apply Hni. apply list_elem_of_fmap in Hin as ([[dm' t'] row'] & Ht & Hin).
  cbn in Ht. subst t'. apply list_elem_of_fmap. exists ((dm', t), row'). split; [|done]. cbn.
  pose proof (Hdom ((dm', t), row') ltac:(by right)) as H1.
  pose proof (Hdom ((dm, t), row) ltac:(by left)) as H2. cbn in *. congruence.
Qed.

(** The worklist of a domain: exactly the rows that are open or backing off and due, taken in
    (due time, id) order, at most [limit] of them, each target once. *)
Lemma due_workable_spec db domain limit now :
  let l := due_workable db domain limit now in
  (∀ k row, (k, row) ∈ l → cond_tbl db !! k = Some row ∧ k.1 = domain ∧
     rc_condition row ∈ WORKABLE_CONDITIONS ∧
     ∃ due, rc_next_eligible_at row = Some due ∧ due ≤ now) ∧
  (∀ k row due, cond_tbl db !! k = Some row → k.1 = domain →
     rc_condition row ∈ WORKABLE_CONDITIONS → rc_next_eligible_at row = Some due → due ≤ now →
     (k, row) ∉ l →
     length l = limit ∧ ∀ kr, kr ∈ l → ole (due_order kr) (due_order (k, row)) = true) ∧
  key_sorted due_order l ∧ NoDup l.*1 ∧ (length l ≤ limit)%nat.
Proof.
  intros l.
  set (full := sort_by due_order (filter (λ kr, is_due domain now kr = true) (cond_rows db))).
  assert (Hfull : ∀ k row, (k, row) ∈ full ↔ cond_tbl db !! k = Some row ∧ k.1 = domain ∧
     rc_condition row ∈ WORKABLE_CONDITIONS ∧ ∃ due, rc_next_eligible_at row = Some due ∧ due ≤ now).
  { intros k row. unfold full. rewrite elem_of_sort_by, list_elem_of_filter, elem_of_cond_rows.
    unfold is_due, workable. cbn. rewrite !andb_true_iff, !bool_decide_eq_true.
    destruct (rc_next_eligible_at row) as [due|]; [rewrite Z.leb_le|]; naive_solver. }
  assert (Hs : key_sorted due_order full) by apply sort_by_sorted.
  assert (Hsplit : full = l ++ drop limit full) by (symmetry; apply take_drop).
  rewrite Hsplit in Hs. split_and!.
  - intros k row Hin. apply Hfull. rewrite Hsplit. apply elem_of_app. by left.
  - intros k row due H1 H2 H3 H4 H5 Hni.
    assert (Hin : (k, row) ∈ drop limit full).
    { assert (Hf : (k, row) ∈ full) by (apply Hfull; eauto 10).
      rewrite Hsplit, elem_of_app in Hf. naive_solver. }
    split.
    + unfold l, due_workable. fold full. rewrite length_take.
      assert (length (drop limit full) ≠ O) by
        (intros Hd%nil_length_inv; rewrite Hd in Hin; set_solver).
      rewrite length_drop in *. lia.
    + intros kr Hkr. exact (StronglySorted_app_1_elem_of _ _ _ _ _ Hs Hkr Hin).
  - by eapply StronglySorted_app_1_l.
  - apply NoDup_due_workable.
  - apply firstn_le_length.
Qed.

(** ** One target *)

Lemma record_observation_same_jobs db now dom t desired observed reason message :
  same_jobs db (record_observation db now dom t desired observed reason message).1.
Proof. unfold record_observation. destruct (cond_tbl db !! (dom, t)); done. Qed.

Lemma record_observation_frame db now dom t desired observed reason message k :
  k ≠ (dom, t) →
  cond_tbl (record_observation db now dom t desired observed reason message).1 !! k
    = cond_tbl db !! k.
Proof.
  intros Hk. unfold record_observation.
  destruct (cond_tbl db !! (dom, t)); cbn; by rewrite lookup_insert_ne.
Qed.

Lemma record_observation_row db now dom t desired observed reason message :
  let r := record_observation db now dom t desired observed reason message in
  cond_tbl r.1 !! (dom, t) = Some r.2.
Proof.
  unfold record_observation. destruct (cond_tbl db !! (dom, t)); cbn; apply lookup_insert_eq.
Qed.

Lemma same_jobs_trans db1 db2 db3 : same_jobs db1 db2 → same_jobs db2 db3 → same_jobs db1 db3.
Proof. intros [? ? ? ?] [? ? ? ?]. constructor; congruence. Qed.

Lemma same_jobs_single db db' : same_jobs db db' → single_flight db → single_flight db'.
Proof. intros [Hj _ _ _] H i i' j j' dom t. rewrite Hj. apply H. Qed.

Section laws.
Context (domain : string) (r : Reconciler) `{L : ReconcilerLaws domain r}.

Lemma refresh_target_spec d now t o d' row :
  refresh_target r domain d now t o = Ok (d', row) →
  cat d' = cat d ∧ classify_frame domain t (jobs d) (jobs d') ∧
  cond_tbl (jobs d') !! (domain, t) = Some row.
Proof.
  unfold refresh_target.
  pose proof (record_observation_row (jobs d) now domain t (to_desired o)
                (to_observed_state o) None None) as Hr.
  pose proof (record_observation_same_jobs (jobs d) now domain t (to_desired o)
                (to_observed_state o) None None) as Hs.
  pose proof (record_observation_frame (jobs d) now domain t (to_desired o)
                (to_observed_state o) None None) as Hf.
  pose proof (record_observation_wf (jobs d) now domain t (to_desired o)
                (to_observed_state o) None None) as Hw.
  destruct (record_observation _ _ _ _ _ _ _ _) as [db row0]. cbn in *.
  destruct (classify_condition r) as [f|] eqn:Ec.
  - intros (d1 & Hd1 & H)%bind_Ok. injection H as <- <-.
    destruct (law_classify f _ _ _ _ _ Ec Hd1) as (Hcat & Hsj & Hk & Hs1 & Hwf). cbn in *.
    rewrite Hr in Hs1. destruct Hs1 as [row1 Hrow1]; [done|].
    split; [done|]. rewrite Hrow1. split; [|done]. split; [by eapply same_jobs_trans|].
    split; [intros k Hne; rewrite Hk, Hf; done|]. split; [eauto|auto].
  - intros [= <- <-]. cbn. split; [done|]. split; [|done]. split; [done|]. split; [auto|].
    split; [eauto|auto].
Qed.

(** What handling one target may add: one PENDING job labelled with the target, when nothing live
    carried the label. *)
Record target_step (t : string) (db db' : JobDB) : Prop := {
  ts_attempts : attempt_tbl db' = attempt_tbl db;
  ts_conds : ∀ k, k ≠ (domain, t) → cond_tbl db' !! k = cond_tbl db !! k;
  ts_old : ∀ i j, job_tbl db !! i = Some j → job_tbl db' !! i = Some j;
  ts_new : ∀ i j, job_tbl db' !! i = Some j → job_tbl db !! i = None →
    status j = PENDING ∧ recon_domain j = Some domain ∧ recon_target_key j = Some t ∧
    (∀ i' j', job_tbl db !! i' = Some j' → live_for_target domain t j' = false) ∧
    ∃ row, cond_tbl db' !! (domain, t) = Some row ∧ rc_condition row ∈ WORKABLE_CONDITIONS;
  ts_one : ∀ i i' j j', job_tbl db' !! i = Some j → job_tbl db' !! i' = Some j' →
    job_tbl db !! i = None → job_tbl db !! i' = None → i = i';
  ts_ids : jobdb_ids_ok db → jobdb_ids_ok db';
}.

Lemma target_step_single t db db' : target_step t db db' → single_flight db → single_flight db'.
Proof.
  intros [_ _ Hold Hnew Hone _] Hs i i' j j' dom t' Hi Hi' Hl Hl'.
  destruct (job_tbl db !! i) as [x|] eqn:Ei, (job_tbl db !! i') as [x'|] eqn:Ei'.
  - rewrite (Hold _ _ Ei) in Hi. rewrite (Hold _ _ Ei') in Hi'. simplify_eq. by eapply Hs.
  - rewrite (Hold _ _ Ei) in Hi. simplify_eq.
    destruct (Hnew _ _ Hi' Ei') as (_ & Hd & Ht & Hno & _). specialize (Hno _ _ Ei).
    apply live_for_target_iff in Hl' as (? & ? & _). congruence.
  - rewrite (Hold _ _ Ei') in Hi'. simplify_eq.
    destruct (Hnew _ _ Hi Ei) as (_ & Hd & Ht & Hno & _). specialize (Hno _ _ Ei').
    apply live_for_target_iff in Hl as (? & ? & _). congruence.
  - by eapply Hone.
Qed.

Lemma submit1_cases db s now :
  (submit1 db s now).1 = db ∨ (submit1 db s now).1 = (insert_job (new_job s now) db).1.
Proof.
  unfold submit1, submit. destruct (sb_dedupe_key s) as [key|]; [|by right]. cbn.
  destruct (live_job_for_dedupe db key) as [[? ?]|]; [by left|by right].
Qed.

Lemma process_target_spec d t_obs t_gate t d' :
  process_target r domain d t_obs t_gate t = Ok d' → jobdb_ids_ok (jobs d) →
  target_step t (jobs d) (jobs d').
Proof.
  unfold process_target. intros (o & Ho & H)%bind_Ok Hids.
  apply bind_Ok in H as ([d1 row] & Hr & H).
  apply refresh_target_spec in Hr as (_ & ([Hj Hn Ha Hna] & Hk & _) & Hrow).
  assert (Hids1 : jobdb_ids_ok (jobs d1)).
  { destruct Hids as [I1 I2]. split; [rewrite Hj, Hn|rewrite Ha, Hna]; done. }
  assert (Hsame : target_step t (jobs d) (jobs d1)).
  { constructor; try done; rewrite Hj; try done; intros; congruence. }
  case_bool; [|by simplify_eq]. apply gate_open_spec in Hb as (_ & Hwk & _ & Hno).
  destruct (law_reconcile _ _ _ _ H) as [->|(s & now & Hd & Ht & _ & ->)]; [done|].
  destruct (submit1_cases (jobs d1) s now) as [->| ->]; [done|].
  constructor.
  - done.
  - intros k Hne. apply Hk. done.
  - intros i j Hi. rewrite insert_job_lookup, decide_False; [by rewrite Hj|].
    intros <-. rewrite <- Hj, ids_fresh_job in Hi; done.
  - intros i j. rewrite insert_job_lookup, <- Hj. case_decide; [|congruence].
    intros [= <-] _. split_and!; try done. exists row. split.
    + done.
    + unfold workable in Hwk. by apply bool_decide_eq_true_1 in Hwk.
  - intros i i' j j'. rewrite !insert_job_lookup, <- Hj.
    repeat case_decide; intros; congruence.
  - intros _. by apply insert_job_ids_ok.
Qed.

Lemma process_targets_spec clock d ts d' n :
  process_targets r domain clock d ts = Ok (d', n) → NoDup ts → jobdb_ids_ok (jobs d) →
  n = Z.of_nat (length ts) ∧ attempt_tbl (jobs d') = attempt_tbl (jobs d) ∧
  (single_flight (jobs d) → single_flight (jobs d')) ∧
  (∀ k, k.1 ≠ domain ∨ k.2 ∉ ts → cond_tbl (jobs d') !! k = cond_tbl (jobs d) !! k) ∧
  (∀ i j, job_tbl (jobs d) !! i = Some j → job_tbl (jobs d') !! i = Some j) ∧
  (∀ i j, job_tbl (jobs d') !! i = Some j → job_tbl (jobs d) !! i = None →
     ∃ t row, t ∈ ts ∧ status j = PENDING ∧ recon_domain j = Some domain ∧
       recon_target_key j = Some t ∧
       (∀ i' j', job_tbl (jobs d) !! i' = Some j' → live_for_target domain t j' = false) ∧
       cond_tbl (jobs d') !! (domain, t) = Some row ∧ rc_condition row ∈ WORKABLE_CONDITIONS).
Proof.
  revert d n. induction ts as [|t ts IH]; intros d n H Hnd Hids; cbn in H.
  { simplify_eq. split_and!; try done. congruence. }
  apply bind_Ok in H as (d1 & H1 & H). apply bind_Ok in H as ([d2 m] & H2 & H).
  injection H as <- <-. apply NoDup_cons in Hnd as [Hni Hnd].
  pose proof (process_target_spec _ _ _ _ _ H1 Hids) as Ht.
  assert (Hids1 := ts_ids _ _ _ Ht Hids).
  destruct (IH _ _ H2 Hnd Hids1) as (-> & Ha & Hsf & Hk & Hold & Hnew).
  pose proof Ht as [Ta Tk Told Tnew Tone _]. split_and!.
  - cbn. lia.
  - congruence.
  - intros Hs. apply Hsf. by eapply target_step_single.
  - intros k Hne. rewrite Hk, Tk; [done| |].
    + intros ->. cbn in Hne. set_solver.
    + set_solver.
  - eauto.
  - intros i j Hi Hnone. destruct (job_tbl (jobs d1) !! i) as [x|] eqn:E1.
    + rewrite (Hold _ _ E1) in Hi. simplify_eq.
      destruct (Tnew _ _ E1 Hnone) as (Hp & Hd & Htk & Hno & row & Hrow & Hw).
      exists t, row. split; [left|]. split_and!; try done. rewrite Hk; [done|]. by right.
    + destruct (Hnew _ _ Hi E1) as (t' & row & Hin & Hp & Hd & Htk & Hno & Hrow & Hw).
      exists t', row. split; [by right|]. split_and!; try done. eauto.
Qed.
End laws.

(** C20: a processing pass of any lawful domain is single-flight: if no target had two live jobs,
    none has two afterwards; existing jobs and the attempt transcript are untouched; and every job
    it adds is PENDING, labelled with a target of the due worklist that had no live job and whose
    condition is still workable. *)
Theorem process_single_flight reg d domain limit now clock d' n r :
  reg !! domain = Some r → ReconcilerLaws domain r → jobdb_ids_ok (jobs d) →
  process reg d domain limit now clock = Ok (d', n) →
  (single_flight (jobs d) → single_flight (jobs d')) ∧
  attempt_tbl (jobs d') = attempt_tbl (jobs d) ∧
  (∀ i j, job_tbl (jobs d) !! i = Some j → job_tbl (jobs d') !! i = Some j) ∧
  (∀ i j, job_tbl (jobs d') !! i = Some j → job_tbl (jobs d) !! i = None →
     ∃ t row, t ∈ (λ kr, kr.1.2) <$> due_workable (jobs d) domain limit now ∧
       status j = PENDING ∧ recon_domain j = Some domain ∧ recon_target_key j = Some t ∧
       (∀ i' j', job_tbl (jobs d) !! i' = Some j' → live_for_target domain t j' = false) ∧
       cond_tbl (jobs d') !! (domain, t) = Some row ∧ rc_condition row ∈ WORKABLE_CONDITIONS).
Proof.
  intros Hreg HL Hids. unfold process, get_reconciler. rewrite Hreg. cbn. intros H.
  apply (process_targets_spec domain r) in H as (_ & Ha & Hs & _ & Hold & Hnew); [done| |done].
  apply due_targets_NoDup.
Qed.

(** ** Version bumps *)

Lemma foldl_reopen_lookup iso cur now (rows : list (cond_key * ReconciliationCondition)) db k :
  NoDup rows.*1 →
  cond_tbl (foldl (λ db kr, reopen_condition iso db kr.1 kr.2 "version-bump"
                              (bump_note cur kr.2) now) db rows) !! k =
  match (list_to_map rows : gmap cond_key ReconciliationCondition) !! k with
  | Some row => Some (reopen_row iso row "version-bump" (bump_note cur row) now)
  | None => cond_tbl db !! k
  end.
Proof.
  revert db. induction rows as [|[k0 row0] rows IH]; intros db Hnd; cbn; [by rewrite lookup_empty|].
  rewrite fmap_cons in Hnd. apply NoDup_cons in Hnd as [Hni Hnd]. rewrite IH by done. cbn.
  destruct (decide (k0 = k)) as [->|Hne].
  - rewrite not_elem_of_list_to_map_1 by exact Hni. by rewrite !lookup_insert_eq.
  - by rewrite !lookup_insert_ne.
Qed.

(** A tool upgrade reopens exactly the work it blocked: of the domain's rows, those blocked by a
    tool whose version is now known and different become open, due at once, with their failure
    count reset; every other row, and every job, is untouched. *)
Lemma version_bump_reopens iso cur db domain now k :
  let db' := (reopen_version_bumped iso cur db domain now).1 in
  job_tbl db' = job_tbl db ∧ attempt_tbl db' = attempt_tbl db ∧
  cond_tbl db' !! k =
    match cond_tbl db !! k with
    | Some row =>
        Some (if version_bumped cur domain (k, row)
              then reopen_row iso row "version-bump" (bump_note cur row) now else row)
    | None => None
    end ∧
  (∀ row', cond_tbl db' !! k = Some row' →
     (∃ row, cond_tbl db !! k = Some row ∧ version_bumped cur domain (k, row) = true) →
     rc_condition row' = OPEN ∧ rc_attempt_count row' = 0 ∧ rc_next_eligible_at row' = Some now ∧
     rc_blocked_tool row' = None).
Proof.
  intros db'.
  set (rows := sort_by (λ kr, rc_id kr.2)
                 (filter (λ kr, version_bumped cur domain kr = true) (cond_rows db))) in *.
  assert (Hnd : NoDup rows.*1).
  { unfold rows. rewrite (fmap_Permutation fst _ _ (sort_by_perm _ _)).
    eapply sublist_NoDup; [|apply fmap_sublist, sublist_filter]. apply NoDup_fst_map_to_list. }
  assert (Hel : ∀ k row, (k, row) ∈ rows ↔
                cond_tbl db !! k = Some row ∧ version_bumped cur domain (k, row) = true).
  { intros k0 row. unfold rows. rewrite elem_of_sort_by, list_elem_of_filter, elem_of_cond_rows.
    naive_solver. }
  assert (Hfr : ∀ rs d, job_tbl (foldl (λ db kr, reopen_condition iso db kr.1 kr.2 "version-bump"
                  (bump_note cur kr.2) now) d rs) = job_tbl d ∧
                attempt_tbl (foldl (λ db kr, reopen_condition iso db kr.1 kr.2 "version-bump"
                  (bump_note cur kr.2) now) d rs) = attempt_tbl d).
  { induction rs as [|? rs IH]; intros d; cbn; [done|]. by destruct (IH (reopen_condition iso d a.1
      a.2 "version-bump" (bump_note cur a.2) now)) as [-> ->]. }
  assert (Hk : cond_tbl db' !! k = match cond_tbl db !! k with
    | Some row => Some (if version_bumped cur domain (k, row)
              then reopen_row iso row "version-bump" (bump_note cur row) now else row)
    | None => None end).
  { unfold db', reopen_version_bumped. fold rows. cbn [fst]. rewrite foldl_reopen_lookup by done.
    destruct ((list_to_map rows : gmap cond_key ReconciliationCondition) !! k) as [row|] eqn:E.
    - apply elem_of_list_to_map_2, Hel in E as [-> ->]. done.
    - apply not_elem_of_list_to_map_2 in E. destruct (cond_tbl db !! k) as [row|] eqn:Ek; [|done].
      destruct (version_bumped cur domain (k, row)) eqn:Ev; [|done]. exfalso. apply E.
      apply list_elem_of_fmap. exists (k, row). split; [done|]. by apply Hel. }
  split_and!; [apply Hfr|apply Hfr|exact Hk|].
  intros row' Hrow' (row & Hrow & Hv). rewrite Hk, Hrow, Hv in Hrow'. by simplify_eq.
Qed.

(** ** Discovery loses no gap *)

(** The row of a target after an observation, given the row before it: a suppressed row of a desired
    target stays suppressed; otherwise the target is satisfied exactly when it is realised or not
    desired, and a gap is open and dated, unless it was held already and its row stays as it was. *)
Definition gap_tracked (before : option ReconciliationCondition) (o : TargetObservation)
    (row : ReconciliationCondition) : Prop :=
  if to_desired o then
    if decide (rc_condition <$> before = Some SUPPRESSED) then rc_condition row = SUPPRESSED
    else if decide (to_observed_state o = OBSERVED_PRESENT) then rc_condition row = SATISFIED
    else (rc_condition row = OPEN ∧ is_Some (rc_next_eligible_at row)) ∨
         (before = Some row ∧
          (rc_condition row = BLOCKED ∨ rc_condition row = BACKOFF ∧ is_Some (rc_next_eligible_at row)))
  else rc_condition row = SATISFIED.

Lemma record_observation_tracked db now domain o :
  conds_wf db →
  gap_tracked (cond_tbl db !! (domain, to_target_key o)) o
    (record_observation db now domain (to_target_key o) (to_desired o) (to_observed_state o) None None).2.
Proof.
  intros Hwf. unfold record_observation, gap_tracked.
  destruct (cond_tbl db !! (domain, to_target_key o)) as [row|] eqn:E; cbn -[observe_row decide];
    unfold observe_row; (destruct (to_desired o); cbn [negb]; [|done]).
  - destruct (Hwf _ _ E) as [_ Hw]. destruct (decide (to_observed_state o = OBSERVED_PRESENT)).
    + case_decide as Hs; [injection Hs as Hs; by rewrite decide_True|]. rewrite decide_False; [done|congruence].
    + destruct (held (rc_condition row)) eqn:Eh.
      * destruct (rc_condition row) eqn:Ec; try done; cbn; case_decide; try done; eauto 10.
      * rewrite decide_False by (by intros [= Hs]; rewrite Hs in Eh). left. cbn. eauto.
  - rewrite decide_False by done. destruct (decide (to_observed_state o = OBSERVED_PRESENT)); [done|].
    cbn [rc_condition new_condition]. rewrite (eq_refl : held SATISFIED = false). left. cbn. eauto.
Qed.

(** Discovery loses no gap.  After a pass of a domain without classifier over distinct targets,
    every enumerated target has a condition row that tracks its gap.  Jobs are untouched. *)
Lemma discover_tracks_gaps reg d domain batch cursor clock r os d' n :
  reg !! domain = Some r → classify_condition r = None →
  enumerate_targets r d cursor batch = Ok os → NoDup (to_target_key <$> os) →
  conds_wf (jobs d) →
  discover reg d domain batch cursor clock = Ok (d', n) →
  same_jobs (jobs d) (jobs d') ∧ conds_wf (jobs d') ∧ n = Z.of_nat (length os) ∧
  ∀ o, o ∈ os → ∃ row, cond_tbl (jobs d') !! (domain, to_target_key o) = Some row ∧
                       gap_tracked (cond_tbl (jobs d) !! (domain, to_target_key o)) o row.
Proof.
  intros Hreg Hcl Hen Hnd Hwf. unfold discover, get_reconciler. rewrite Hreg. cbn.
  rewrite Hen. cbn. clear Hen. revert d n Hwf.
  induction os as [|o os IH]; intros d n Hwf H; cbn in H.
  { simplify_eq. split_and!; try done. set_solver. }
  rewrite fmap_cons in Hnd. apply NoDup_cons in Hnd as [Hni Hnd].
  unfold refresh_target in H. rewrite Hcl in H.
  set (ob := record_observation (jobs d) (clock (to_target_key o)) domain (to_target_key o)
               (to_desired o) (to_observed_state o) None None) in *.
  assert (Hwf1 : conds_wf ob.1) by by apply record_observation_wf.
  assert (Hsj : same_jobs (jobs d) ob.1) by apply record_observation_same_jobs.
  assert (Hrow : cond_tbl ob.1 !! (domain, to_target_key o) = Some ob.2)
    by apply record_observation_row.
  assert (Htr : gap_tracked (cond_tbl (jobs d) !! (domain, to_target_key o)) o ob.2)
    by by apply record_observation_tracked.
  assert (Hsame : ∀ x, x ≠ to_target_key o → cond_tbl ob.1 !! (domain, x) = cond_tbl (jobs d) !! (domain, x))
    by (intros x Hx; apply record_observation_frame; congruence).
  destruct ob as [db row]. cbn in *. apply bind_Ok in H as ([d2 m] & H & Heq).
  injection Heq as <- <-. destruct (IH Hnd (with_jobdb db d) m Hwf1 H) as (Hs2 & Hw2 & -> & Hall).
  split_and!; [by eapply same_jobs_trans|done|lia|].
  intros o' Hin. apply elem_of_cons in Hin as [->|Hin].
  2: { destruct (Hall o' Hin) as (row' & Hrow' & Hg). exists row'. split; [done|]. cbn in Hg. rewrite Hsame in Hg; [done|].
       intros Heq. apply Hni. rewrite <- Heq. apply list_elem_of_fmap. eauto. }
  exists row. split; [|done].
  enough (Hpres : ∀ os d n d2, discover_rows r domain clock d os = Ok (d2, n) →
    to_target_key o ∉ to_target_key <$> os →
    cond_tbl (jobs d2) !! (domain, to_target_key o)
      = cond_tbl (jobs d) !! (domain, to_target_key o))
    by by rewrite (Hpres _ _ _ _ H Hni).
  clear -Hcl. induction os as [|x os IH]; intros d n d2 H Hni; cbn in H; [by simplify_eq|].
  unfold refresh_target in H. rewrite Hcl in H.
  pose proof (record_observation_frame (jobs d) (clock (to_target_key x)) domain (to_target_key x)
                (to_desired x) (to_observed_state x) None None (domain, to_target_key o)) as Hf.
  destruct (record_observation _ _ _ _ _ _ _ _) as [db row]. cbn in *.
  apply bind_Ok in H as ([d3 m] & H & Heq). injection Heq as <- <-.
  rewrite (IH _ _ _ H) by set_solver. cbn. apply Hf. set_solver.
Qed.
