(* ===== verification/Durability.v ===== *)
(** * Durability predicates

    [durability.py], with [target_pools] and its constructor from [replication.py] and
    [bundle_artifactclasses] from [archive_bundle.py]: which copies count, for an asset and for a
    bundle; the counts and aggregates per placement; the pools a class and a bundle want; and the
    wanted-versus-realised status.  A copy row travels with its id. *)

From stdpp Require Import pretty.
From S2P Require Import Prelude Json JobModels Catalog.

(** [Representation] of [sealing/port.py]. *)
Definition REPRESENTATIONS : list string :=
  ["raw-bytes"; "rem-object-v1"; "rem-encrypt-v1"; "d2tar-raw"].
Definition REM_ENCRYPT_V1 : string := "rem-encrypt-v1".

Inductive DurError :=
  | ReplicationPolicyMissing
  | ReplicationInvariantError
  | PoolBackendUnavailable
  | UnknownRepresentation
  | RowMissing
  | NoSuchBundle
  | MediaIdentityError (message : string).

Record PoolTarget := {
  pt_pool_id : string;
  pt_artifactclass : string;
  pt_backend_id : Z;
  pt_backend_name : string;
  pt_representation : string;
  pt_key_epoch : option string;
  pt_location : string;
  pt_offsite_gate : bool;
  pt_tier : string;
  pt_sort_order : Z;
}.

Abbreviation place_key := (Z * string)%type.

Definition pool_key (t : PoolTarget) : place_key := (pt_backend_id t, pt_pool_id t).

(** ** Copy predicates *)

Abbreviation copy_entry := (Z * Copy)%type.

Definition copy_ok (c : Copy) : bool :=
  bool_decide (cp_health c = HEALTH_OK) && bool_decide (cp_deleted_at c = None).

(** [_measurement_filter]: the one meaning of "verified". *)
Definition measured (c : Copy) : bool :=
  bool_decide (cp_last_measured_digest c = Some (cp_integrity_hash c)).

(** [_copy_health_filter] *)
Definition copy_health_filter (require_verified : bool) (c : Copy) : bool :=
  copy_ok c && (negb require_verified || measured c).

(** ** Class membership of locators *)

(** [asset_has_artifactclass_membership] *)
Definition asset_has_artifactclass_membership (k : Cat) (asset_hash : bytes)
    (artifactclass : string) : bool :=
  existsb (λ it, bool_decide (ii_logical_asset_hash it.2 = asset_hash) &&
                 bool_decide (ii_artifactclass it.2 = artifactclass) &&
                 match intakes k !! ii_intake_id it.2 with
                 | Some i => bool_decide (in_status i = REGISTERED)
                 | None => false
                 end) (tbl_list (items k)) ||
  existsb (λ vm, bool_decide (vm_logical_asset_hash vm.2 = asset_hash) &&
                 bool_decide (vm_artifactclass vm.2 = artifactclass) &&
                 negb (vm_excluded vm.2)) (tbl_list (va_members k)).

(** [_locator_artifactclass_filter] *)
Definition locator_artifactclass_filter (k : Cat) (asset_hash : bytes) (artifactclass : string)
    (l : AssetLocator) : bool :=
  match al_bundle_id l with
  | Some b =>
      existsb (λ m, bool_decide (bm_bundle_id m.2 = b) &&
                    bool_decide (bm_logical_asset_hash m.2 = asset_hash) &&
                    bool_decide (bm_artifactclass m.2 = artifactclass)) (tbl_list (members k))
  | None => asset_has_artifactclass_membership k asset_hash artifactclass
  end.

(** ** Accounting views *)

Inductive Target :=
  | AssetTarget (asset_hash : bytes) (artifactclass : string)
  | BundleTarget (bundle_id : string).

Definition in_pool (pool_id : option string) (actual : option string) : bool :=
  match pool_id with
  | None => true
  | Some p => bool_decide (actual = Some p)
  end.

(** The join of a copy with the locators of one asset that point at it. *)
Definition locator_joins (k : Cat) (asset_hash : bytes) (artifactclass pool_id : option string)
    (ic : copy_entry) : list copy_entry :=
  (λ _, ic) <$>
  filter (λ il, (bool_decide (al_copy_id il.2 = Some ic.1) &&
                 bool_decide (al_logical_asset_hash il.2 = asset_hash) &&
                 match pool_id with
                 | None => true
                 | Some p => bool_decide (al_pool_id il.2 = p)
                 end &&
                 match artifactclass with
                 | None => true
                 | Some cls => locator_artifactclass_filter k asset_hash cls il.2
                 end) = true) (tbl_list (locators k)).

Definition durable_placements (k : Cat) (t : Target) (require_verified : bool)
    (artifactclass pool_id : option string) : list copy_entry :=
  match t with
  | BundleTarget b =>
      filter (λ ic, (bool_decide (cp_bundle_id ic.2 = Some b) && in_pool pool_id (cp_pool_id ic.2) &&
                     copy_health_filter require_verified ic.2) = true) (tbl_list (copies k))
  | AssetTarget h _ =>
      let asset_copies :=
        filter (λ ic, (bool_decide (cp_logical_asset_hash ic.2 = Some h) &&
                       in_pool pool_id (cp_pool_id ic.2) &&
                       copy_health_filter require_verified ic.2) = true) (tbl_list (copies k)) in
      let bundle_copies :=
        filter (λ ic, (in_pool pool_id (cp_pool_id ic.2) &&
                       copy_health_filter require_verified ic.2) = true) (tbl_list (copies k))
        ≫= locator_joins k h artifactclass pool_id in
      dedup_by fst (asset_copies ++ bundle_copies)
  end.

Definition direct_copies (k : Cat) (asset_hash : bytes) (require_verified : bool)
    : list copy_entry :=
  filter (λ ic, (bool_decide (cp_logical_asset_hash ic.2 = Some asset_hash) &&
                 copy_health_filter require_verified ic.2) = true) (tbl_list (copies k)).

(** ** Counts and aggregates per placement *)

Definition copy_place (c : Copy) : option place_key :=
  p ← cp_pool_id c; Some (cp_backend_id c, p).

Definition count_place (counts : gmap place_key Z) (ic : copy_entry) : gmap place_key Z :=
  match copy_place ic.2 with
  | None => counts
  | Some key => <[key := default 0 (counts !! key) + 1]> counts
  end.

(** The rows the grouped queries select for one bundle. *)
Definition bundle_copy_rows (k : Cat) (b : string) (require_verified : bool) : list copy_entry :=
  filter (λ ic, (bool_decide (cp_bundle_id ic.2 = Some b) &&
                 negb (bool_decide (cp_pool_id ic.2 = None)) &&
                 copy_health_filter require_verified ic.2) = true) (tbl_list (copies k)).

Definition bundle_copy_counts_by_pool (k : Cat) (bundle_ids : list string)
    (require_verified : bool) : gmap string (gmap place_key Z) :=
  list_to_map ((λ b, (b, foldl count_place ∅ (bundle_copy_rows k b require_verified)))
               <$> bundle_ids).

Record CopyMediaIdentity := { mi_family : string; mi_media_id : string }.

#[export] Instance CopyMediaIdentity_eq_dec : EqDecision CopyMediaIdentity.
Proof. solve_decision. Defined.

(** [_copy_implementation_family]; the backend row exists by its foreign key. *)
Definition copy_implementation_family (k : Cat) (c : Copy) : string :=
  match backends k !! cp_backend_id c with
  | Some b => if decide (be_implementation_family b = "")
              then implementation_family_for_kind (be_kind b) else be_implementation_family b
  | None => ""
  end.

Definition locator_string (key : string) (c : Copy) : option string :=
  match dget key (cp_native_locator c) with
  | Some (JStr s) => if decide (s = "") then None else Some s
  | _ => None
  end.

Definition copy_label (ic : copy_entry) : string :=
  "copy id=" +:+ pretty ic.1 +:+ " on backend_id=" +:+ pretty (cp_backend_id ic.2) +:+ " is missing ".

Definition copy_media_identity (k : Cat) (ic : copy_entry)
    : result DurError (option CopyMediaIdentity) :=
  let family := copy_implementation_family k ic.2 in
  let found media := Ok (Some {| mi_family := family; mi_media_id := media |}) in
  if decide (family = "memory") then Ok None
  else if decide (family = "tape") then
    match locator_string "tape_uuid" ic.2 with
    | Some media => found media
    | None => Err (MediaIdentityError (copy_label ic +:+ "tape_uuid"))
    end
  else if decide (family = "d2tape") then
    match locator_string "volume_uuid" ic.2 with
    | Some media => found media
    | None =>
        match locator_string "barcode" ic.2 with
        | Some media => found media
        | None => Err (MediaIdentityError (copy_label ic +:+ "volume_uuid/barcode"))
        end
    end
  else if decide (family = "disk" ∨ family = "cloud") then
    found ("backend:" +:+ pretty (cp_backend_id ic.2))
  else Err (MediaIdentityError ("copy id=" +:+ pretty ic.1 +:+
              " uses unsupported implementation_family='" +:+ family +:+ "'")).

Definition copy_media_id (k : Cat) (ic : copy_entry) : result DurError string :=
  identity ← copy_media_identity k ic;
  match identity with
  | None => Ok ("memory:exempt:" +:+ pretty ic.1)
  | Some i => Ok (mi_family i +:+ ":" +:+ mi_media_id i)
  end.

Record BundleCopyAggregate := {
  ag_counts : gmap place_key Z;
  ag_family_by_key : gmap place_key string;
  ag_media_identity_by_key : gmap place_key CopyMediaIdentity;
  ag_media_errors : list string;
}.

Definition empty_aggregate : BundleCopyAggregate := {|
  ag_counts := ∅; ag_family_by_key := ∅; ag_media_identity_by_key := ∅; ag_media_errors := [] |}.

(** [d.setdefault(key, v)] *)
Definition setdefault {V} (key : place_key) (v : V) (m : gmap place_key V) : gmap place_key V :=
  match m !! key with Some _ => m | None => <[key := v]> m end.

Definition media_error_text (e : DurError) : string :=
  match e with MediaIdentityError m => m | _ => "" end.

Definition aggregate_copy (k : Cat) (ag : BundleCopyAggregate) (ic : copy_entry)
    : BundleCopyAggregate :=
  match copy_place ic.2 with
  | None => ag
  | Some key =>
      let counts := count_place (ag_counts ag) ic in
      let families := setdefault key (copy_implementation_family k ic.2) (ag_family_by_key ag) in
      let identity :=
        match ag_media_identity_by_key ag !! key with
        | Some _ => Ok None
        | None => copy_media_identity k ic
        end in
      {| ag_counts := counts; ag_family_by_key := families;
         ag_media_identity_by_key :=
           match identity with
           | Ok (Some i) => <[key := i]> (ag_media_identity_by_key ag)
           | _ => ag_media_identity_by_key ag
           end;
         ag_media_errors :=
           match identity with
           | Err e => ag_media_errors ag ++ [media_error_text e]
           | Ok _ => ag_media_errors ag
           end |}
  end.

Definition place_order (ic : copy_entry) : Z * (string * Z) :=
  (cp_backend_id ic.2, (default "" (cp_pool_id ic.2), ic.1)).

Definition bundle_copy_aggregate (k : Cat) (b : string) (require_verified : bool)
    : BundleCopyAggregate :=
  foldl (aggregate_copy k) empty_aggregate
    (sort_by place_order (bundle_copy_rows k b require_verified)).

Definition bundle_copy_aggregates_by_bundle (k : Cat) (bundle_ids : list string)
    (require_verified : bool) : gmap string BundleCopyAggregate :=
  list_to_map ((λ b, (b, bundle_copy_aggregate k b require_verified)) <$> bundle_ids).

(** [BundleCopyAggregate.duplicate_keys] *)
Definition duplicate_keys (ag : BundleCopyAggregate) : list (place_key * Z) :=
  filter (λ kc, (1 <? kc.2) = true) (sort_by fst (map_to_list (ag_counts ag))).

(** [pending_verification_copy_ids]: copies with a live verification job (a Python [bool] is an
    [int]). *)
Definition pending_verification_copy_ids (db : JobDB) : gset Z :=
  list_to_set (omap (λ ij,
    if bool_decide (kind ij.2 = "verify") && live (status ij.2) then
      match dget "copy_id" (params ij.2) with
      | Some (JInt n) => Some n
      | Some (JBool b) => Some (Z.b2z b)
      | _ => None
      end
    else None) (job_rows db)).

(** ** Wanted pools *)

(** Active memberships of a class in catalog order, as [(pool id, membership)]. *)
Definition class_memberships (k : Cat) (artifactclass : string) (write_eligible_only : bool)
    : list (string * ArtifactClassPool) :=
  sort_by (λ pm, (acp_sort_order pm.2, pm.1))
    (omap (λ cm, if bool_decide (cm.1.1 = artifactclass) && acp_active cm.2 &&
                    (negb write_eligible_only ||
                     match pools k !! cm.1.2 with
                     | Some p => pl_accepts_writes p
                     | None => false
                     end)
                 then Some (cm.1.2, cm.2) else None) (map_to_list (acpools k))).

(** [_pool_target_entry]; [supplied] says which backends the caller passed. *)
Definition pool_target_entry (k : Cat) (supplied : Z → bool) (pool_id : string) (p : Pool)
    (artifactclass : string) (key_epoch : option string) (sort_order : Z)
    : result DurError PoolTarget :=
  _ ← raise_if (negb (bool_decide (pl_representation p ∈ REPRESENTATIONS))) UnknownRepresentation;
  _ ← raise_if (negb (supplied (pl_backend_id p))) PoolBackendUnavailable;
  match backends k !! pl_backend_id p with
  | None => Err RowMissing
  | Some b =>
      Ok {| pt_pool_id := pool_id; pt_artifactclass := artifactclass;
            pt_backend_id := pl_backend_id p; pt_backend_name := be_name b;
            pt_representation := pl_representation p;
            pt_key_epoch := if decide (pl_representation p = REM_ENCRYPT_V1)
                            then key_epoch else None;
            pt_location := pl_location p; pt_offsite_gate := pl_offsite_gate p;
            pt_tier := pl_tier p; pt_sort_order := sort_order |}
  end.

Fixpoint target_entries (k : Cat) (supplied : Z → bool) (artifactclass : string)
    (key_epoch : option string) (seen : gset string) (ms : list (string * ArtifactClassPool))
    : result DurError (list PoolTarget) :=
  match ms with
  | [] => Ok []
  | (pid, m) :: ms =>
      match pools k !! pid with
      | None => Err RowMissing
      | Some p =>
          _ ← raise_if (bool_decide (pid ∈ seen)) ReplicationInvariantError;
          t ← pool_target_entry k supplied pid p artifactclass key_epoch (acp_sort_order m);
          ts ← target_entries k supplied artifactclass key_epoch ({[pid]} ∪ seen) ms;
          Ok (t :: ts)
      end
  end.

Definition target_pools (k : Cat) (artifactclass : string) (supplied : Z → bool)
    (key_epoch : option string) (write_eligible_only : bool) : result DurError (list PoolTarget) :=
  match class_memberships k artifactclass write_eligible_only with
  | [] => Err ReplicationPolicyMissing
  | ms => target_entries k supplied artifactclass key_epoch ∅ ms
  end.

(** [_policy_targets]: the placeholder backends are those of the class's active memberships. *)
Definition policy_backends (k : Cat) (artifactclass : string) (id : Z) : bool :=
  existsb (λ pm, match pools k !! pm.1 with
                 | Some p => bool_decide (pl_backend_id p = id) &&
                             bool_decide (is_Some (backends k !! id))
                 | None => false
                 end) (class_memberships k artifactclass false).

Definition policy_targets (k : Cat) (artifactclass : string) : result DurError (list PoolTarget) :=
  target_pools k artifactclass (policy_backends k artifactclass) None false.

(** [bundle_artifactclasses] of [archive_bundle.py] *)
Definition bundle_artifactclasses (k : Cat) (bundle_id : string) (b : Bundle) : list string :=
  let classes := sort_by id (remove_dups
    (bm_artifactclass ∘ snd <$>
       filter (λ m, bm_bundle_id m.2 = bundle_id) (tbl_list (members k)))) in
  match classes with
  | [] => sort_by id (fst <$> filter (λ pr, pr_bundle_group pr.2 = Some (bu_bundle_group b))
                                (map_to_list (policies k)))
  | _ => classes
  end.

(** [_bundle_policy_targets]: the union over the member classes, first occurrence wins. *)
Fixpoint collect_targets (k : Cat) (classes : list string) : result DurError (list PoolTarget) :=
  match classes with
  | [] => Ok []
  | c :: classes =>
      ts ← policy_targets k c;
      rest ← collect_targets k classes;
      Ok (ts ++ rest)
  end.

Definition bundle_policy_targets (k : Cat) (bundle_id : string) (b : Bundle)
    : result DurError (list PoolTarget) :=
  ts ← collect_targets k (bundle_artifactclasses k bundle_id b);
  Ok (dedup_by pool_key ts).

(** ** Status *)

Record PlacementTarget := {
  pe_target : PoolTarget;
  pe_have : bool;
  pe_duplicate_count : Z;
  pe_is_duplicate : bool;
}.

Definition placement_entry (t : PoolTarget) (duplicate_count : Z) : PlacementTarget := {|
  pe_target := t; pe_have := 0 <? duplicate_count; pe_duplicate_count := duplicate_count;
  pe_is_duplicate := 1 <? duplicate_count |}.

Record PlacementStatus := {
  ps_complete : bool;
  ps_have : list PlacementTarget;
  ps_want : list PlacementTarget;
  ps_missing : list PlacementTarget;
}.

Definition status_of (targets : list PoolTarget) (counts : gmap place_key Z) : PlacementStatus :=
  let want := (λ t, placement_entry t (default 0 (counts !! pool_key t))) <$> targets in
  let missing := filter (λ e, pe_have e = false) want in
  {| ps_complete := match missing with [] => true | _ => false end;
     ps_have := filter (λ e, pe_have e = true) want; ps_want := want; ps_missing := missing |}.

Definition placement_status (k : Cat) (t : Target) (require_verified : bool)
    : result DurError PlacementStatus :=
  match t with
  | BundleTarget bid =>
      match bundles k !! bid with
      | None => Err NoSuchBundle
      | Some b =>
          targets ← bundle_policy_targets k bid b;
          let counts := default ∅ (bundle_copy_counts_by_pool k [bid] require_verified !! bid) in
          Ok (status_of targets counts)
      end
  | AssetTarget h cls =>
      targets ← policy_targets k cls;
      let counts := foldl count_place ∅ (durable_placements k t require_verified (Some cls) None) in
      Ok (status_of targets counts)
  end.

Definition bundle_replication_status (k : Cat) (bundle_id : string) (require_verified : bool)
    : result DurError PlacementStatus :=
  placement_status k (BundleTarget bundle_id) require_verified.

Arguments copy_media_identity : simpl never.
Arguments copy_label : simpl never.
