(* ===== verification/DurabilityFacts.v ===== *)
(** * Correctness of the durability predicates

    What each accounting view contains; agreement of the batch counts and aggregates with the
    per-target view; the wanted pools; and the meaning of a complete placement. *)

From S2P Require Import Prelude Json JobModels Catalog Durability.

(** ** Generic facts *)

Lemma elem_of_filter_tbl {V} (P : Z * V → Prop) `{∀ x, Decision (P x)} (t : Tbl V) i v :
  (i, v) ∈ filter P (tbl_list t) ↔ P (i, v) ∧ t_rows t !! i = Some v.
Proof. by rewrite list_elem_of_filter, elem_of_tbl_list. Qed.

Lemma NoDup_filter_tbl {V} (P : Z * V → Prop) `{∀ x, Decision (P x)} (t : Tbl V) :
  NoDup (filter P (tbl_list t)).*1.
Proof. eapply sublist_NoDup; [|apply fmap_sublist, sublist_filter]. apply NoDup_tbl_list. Qed.

Lemma elem_of_copy_ids (k : Cat) (l : list copy_entry) i c :
  (∀ i c, (i, c) ∈ l → t_rows (copies k) !! i = Some c) →
  (i, c) ∈ dedup_by fst l ↔ (i, c) ∈ l.
Proof.
  intros Hl. split; [apply elem_of_dedup_by|]. intros Hin.
  assert (Hk : i ∈ (dedup_by fst l).*1).
  { apply dedup_by_keys. apply list_elem_of_fmap. by exists (i, c). }
  apply list_elem_of_fmap in Hk as ([i' c'] & -> & Hin'). cbn in *.
  pose proof (Hl _ _ (elem_of_dedup_by _ _ _ Hin')) as H1. specialize (Hl _ _ Hin).
  by simplify_eq.
Qed.

(** ** Health *)

Lemma copy_health_filter_spec rv c :
  copy_health_filter rv c = true ↔
  cp_health c = HEALTH_OK ∧ cp_deleted_at c = None ∧
  (rv = true → cp_last_measured_digest c = Some (cp_integrity_hash c)).
Proof.
  unfold copy_health_filter, copy_ok, measured.
  rewrite !andb_true_iff, orb_true_iff, negb_true_iff, !bool_decide_eq_true.
  destruct rv; naive_solver.
Qed.

Definition counts_for (k : Cat) (rv : bool) (pool : option string) (i : Z) (c : Copy) : Prop :=
  t_rows (copies k) !! i = Some c ∧ cp_health c = HEALTH_OK ∧ cp_deleted_at c = None ∧
  (rv = true → cp_last_measured_digest c = Some (cp_integrity_hash c)) ∧
  (∀ p, pool = Some p → cp_pool_id c = Some p).

Lemma in_pool_spec pool actual : in_pool pool actual = true ↔ ∀ p, pool = Some p → actual = Some p.
Proof. destruct pool; cbn; rewrite ?bool_decide_eq_true; naive_solver. Qed.

Lemma elem_of_locator_joins k h cls pool ic x :
  x ∈ locator_joins k h cls pool ic ↔
  x = ic ∧ ∃ li l, t_rows (locators k) !! li = Some l ∧ al_copy_id l = Some ic.1 ∧
    al_logical_asset_hash l = h ∧ (∀ p, pool = Some p → al_pool_id l = p) ∧
    (∀ c, cls = Some c → locator_artifactclass_filter k h c l = true).
Proof.
  unfold locator_joins. rewrite list_elem_of_fmap. setoid_rewrite list_elem_of_filter.
  split.
  - intros ([li l] & -> & Hl & Hin). split; [done|]. exists li, l.
    apply elem_of_tbl_list in Hin. cbn in Hl. split_bools.
    split_and!; try done; intros; subst; by split_bools.
  - intros (-> & li & l & Hrow & H1 & H2 & H3 & H4). exists (li, l). split; [done|].
    rewrite elem_of_tbl_list. split; [|done]. cbn. rewrite !andb_true_iff, !bool_decide_eq_true.
    split_and!; try done.
    + destruct pool; [apply bool_decide_eq_true; auto|done].
    + destruct cls; auto.
Qed.

(** A copy carries the target: a bundle by itself, an asset directly or through a locator. *)
Definition carries (k : Cat) (t : Target) (cls pool : option string) (i : Z) (c : Copy) : Prop :=
  match t with
  | BundleTarget b => cp_bundle_id c = Some b
  | AssetTarget h _ =>
      cp_logical_asset_hash c = Some h ∨
      ∃ li l, t_rows (locators k) !! li = Some l ∧ al_copy_id l = Some i ∧
        al_logical_asset_hash l = h ∧ (∀ p, pool = Some p → al_pool_id l = p) ∧
        (∀ x, cls = Some x → locator_artifactclass_filter k h x l = true)
  end.

Lemma elem_of_durable_placements k t rv cls pool i c :
  (i, c) ∈ durable_placements k t rv cls pool ↔ counts_for k rv pool i c ∧ carries k t cls pool i c.
Proof.
  unfold counts_for, carries. destruct t as [h cls0|b]; cbn [durable_placements].
  - rewrite (elem_of_copy_ids k).
    + rewrite elem_of_app, elem_of_filter_tbl, list_elem_of_bind. cbn.
      rewrite !andb_true_iff, bool_decide_eq_true, in_pool_spec, copy_health_filter_spec.
      setoid_rewrite elem_of_locator_joins. split.
      * intros [(?&?)|([i' c'] & (Heq & Hl) & Hf)]; [naive_solver|]. simplify_eq.
        apply elem_of_filter_tbl in Hf as [Hf Hrow]. cbn in Hf.
        rewrite andb_true_iff, in_pool_spec, copy_health_filter_spec in Hf. naive_solver.
      * intros ((Hrow & Hh & Hd & Hm & Hp) & [Ha|Hl]); [left; naive_solver|right].
        exists (i, c). split; [split; [done|exact Hl]|].
        apply elem_of_filter_tbl. cbn. rewrite andb_true_iff, in_pool_spec, copy_health_filter_spec.
        naive_solver.
    + intros i0 c0. rewrite elem_of_app, elem_of_filter_tbl, list_elem_of_bind.
      intros [[_ ?]|([i' c'] & Hj & Hf)]; [done|].
      apply elem_of_locator_joins in Hj as [Heq _]. apply elem_of_filter_tbl in Hf as [_ ?].
      by simplify_eq.
  - rewrite elem_of_filter_tbl. cbn.
    rewrite !andb_true_iff, bool_decide_eq_true, in_pool_spec, copy_health_filter_spec.
    naive_solver.
Qed.

(** What counts as a durable placement.  For a bundle: its own healthy, undeleted copies (and,
    when verification is required, only those measured to their integrity hash).  For an asset:
    its whole-asset copies, and the bundle copies a locator of that asset points at, under the
    class filter.  Every copy is reported once. *)
Lemma durable_placements_spec k t rv cls pool i c :
  ((i, c) ∈ durable_placements k t rv cls pool ↔ counts_for k rv pool i c ∧ carries k t cls pool i c) ∧
  NoDup (durable_placements k t rv cls pool).*1.
Proof.
  split; [apply elem_of_durable_placements|].
  destruct t; [apply NoDup_dedup_by|apply NoDup_filter_tbl].
Qed.

(** ** Counting by placement *)

Definition places (key : place_key) (l : list copy_entry) : list copy_entry :=
  filter (λ ic, copy_place ic.2 = Some key) l.

Lemma foldl_count_lookup l key :
  foldl count_place ∅ l !! key =
  match length (places key l) with O => None | n => Some (Z.of_nat n) end.
Proof.
  induction l as [|ic l IH] using rev_ind; [done|].
  rewrite foldl_app. unfold places in *. rewrite filter_app, length_app. cbn [foldl].
  unfold count_place at 1. destruct (copy_place ic.2) as [key'|] eqn:E.
  - destruct (decide (key' = key)) as [->|Hne].
    + rewrite lookup_insert_eq, IH, filter_cons_True by done. rewrite filter_nil. cbn [length].
      destruct (length (filter _ l)); cbn; f_equal; lia.
    + rewrite lookup_insert_ne, IH by done. rewrite filter_cons_False by congruence.
      rewrite filter_nil. cbn. by rewrite Nat.add_0_r.
  - rewrite IH, filter_cons_False by congruence. rewrite filter_nil. cbn. by rewrite Nat.add_0_r.
Qed.

Lemma foldl_count_perm l l' : l ≡ₚ l' → foldl count_place ∅ l = foldl count_place ∅ l'.
Proof.
  intros Hp. apply map_eq. intros key. rewrite !foldl_count_lookup.
  unfold places. by rewrite Hp.
Qed.

Lemma bundle_counts_lookup k ids rv b :
  b ∈ ids →
  bundle_copy_counts_by_pool k ids rv !! b
    = Some (foldl count_place ∅ (bundle_copy_rows k b rv)).
Proof.
  intros Hin. unfold bundle_copy_counts_by_pool. induction ids as [|b' ids IH]; [set_solver|].
  cbn. rewrite lookup_insert. case_decide; [by subst|]. apply IH. set_solver.
Qed.

Lemma bundle_aggregates_lookup k ids rv b :
  b ∈ ids →
  bundle_copy_aggregates_by_bundle k ids rv !! b = Some (bundle_copy_aggregate k b rv).
Proof.
  intros Hin. unfold bundle_copy_aggregates_by_bundle. induction ids as [|b' ids IH]; [set_solver|].
  cbn. rewrite lookup_insert. case_decide; [by subst|]. apply IH. set_solver.
Qed.

(** The batch counts use the same durability view as the per-bundle placements: the count of a
    bundle at a backend and pool is the number of its durable placements in that pool on that
    backend, and a placement with none is absent. *)
Lemma bundle_counts_agree k ids rv b be p :
  b ∈ ids →
  ∃ counts, bundle_copy_counts_by_pool k ids rv !! b = Some counts ∧
    let n := length (filter (λ ic, cp_backend_id ic.2 = be)
                       (durable_placements k (BundleTarget b) rv None (Some p))) in
    counts !! (be, p) = match n with O => None | _ => Some (Z.of_nat n) end.
Proof.
  intros Hin. eexists. split; [by apply bundle_counts_lookup|]. cbn zeta.
  rewrite foldl_count_lookup.
  replace (places (be, p) (bundle_copy_rows k b rv)) with
    (filter (λ ic, cp_backend_id ic.2 = be) (durable_placements k (BundleTarget b) rv None (Some p)));
    [by destruct (length _)|].
  unfold places, bundle_copy_rows, durable_placements. rewrite !list_filter_filter.
  apply list_filter_iff. intros [i c]. cbn. unfold copy_place.
  rewrite !andb_true_iff, negb_true_iff, !bool_decide_eq_true, bool_decide_eq_false.
  destruct (cp_pool_id c) as [p'|]; cbn; naive_solver.
Qed.

(** ** Aggregates *)

(** The family of a placement is that of its backend. *)
Definition backend_family (k : Cat) (be : Z) : string :=
  match backends k !! be with
  | Some b => if decide (be_implementation_family b = "")
              then implementation_family_for_kind (be_kind b) else be_implementation_family b
  | None => ""
  end.

Lemma copy_family_place k c be p :
  copy_place c = Some (be, p) → copy_implementation_family k c = backend_family k be.
Proof.
  unfold copy_place. destruct (cp_pool_id c); cbn; [|done]. intros [= <- <-]. done.
Qed.

Lemma setdefault_lookup {V} key (v : V) m key' :
  setdefault key v m !! key' =
  if decide (key = key') then Some (default v (m !! key)) else m !! key'.
Proof.
  unfold setdefault. destruct (m !! key) eqn:E; [case_decide; by subst|].
  rewrite lookup_insert. by case_decide.
Qed.

Record aggregate_ok (k : Cat) (l : list copy_entry) (ag : BundleCopyAggregate) : Prop := {
  go_counts : ag_counts ag = foldl count_place ∅ l;
  go_family : ∀ key, ag_family_by_key ag !! key =
    match ag_counts ag !! key with Some _ => Some (backend_family k key.1) | None => None end;
  go_media : ∀ key i, ag_media_identity_by_key ag !! key = Some i →
    ∃ ic, ic ∈ l ∧ copy_place ic.2 = Some key ∧ copy_media_identity k ic = Ok (Some i);
  go_errors : ag_media_errors ag = [] → ∀ ic, ic ∈ l → ∀ key, copy_place ic.2 = Some key →
    copy_media_identity k ic = Ok None ∨ is_Some (ag_media_identity_by_key ag !! key);
}.

Lemma aggregate_copy_ok k l ag ic :
  aggregate_ok k l ag → aggregate_ok k (l ++ [ic]) (aggregate_copy k ag ic).
Proof.
  intros [Hc Hf Hm He]. unfold aggregate_copy.
  destruct (copy_place ic.2) as [key|] eqn:Ep.
  2:{ constructor.
      - rewrite foldl_app. cbn. unfold count_place. by rewrite Ep.
      - done.
      - intros key i Hi. destruct (Hm key i Hi) as (x & ? & ?). exists x. set_solver.
      - intros Hn x Hx key Hk. apply elem_of_app in Hx as [Hx|Hx]; [by eapply He|].
        apply list_elem_of_singleton in Hx as ->. congruence. }
  assert (Hcnt : count_place (ag_counts ag) ic = <[key := default 0 (ag_counts ag !! key) + 1]>
                   (ag_counts ag)) by (unfold count_place; by rewrite Ep).
  constructor; cbn.
  - rewrite foldl_app. cbn. by rewrite Hc.
  - intros key'. rewrite Hcnt, setdefault_lookup, lookup_insert. case_decide as Hk; [|apply Hf].
    subst key'. rewrite Hf. destruct key as [be p].
    rewrite (copy_family_place k ic.2 be p) by done. by destruct (ag_counts ag !! (be, p)).
  - intros key' i. destruct (ag_media_identity_by_key ag !! key) eqn:Em.
    + intros Hi. destruct (Hm key' i Hi) as (x & ? & ?). exists x. set_solver.
    + destruct (copy_media_identity k ic) as [[i0|]|] eqn:Ei.
      * rewrite lookup_insert. case_decide as Hk.
        { intros [= <-]. subst. exists ic. set_solver. }
        intros Hi. destruct (Hm key' i Hi) as (x & ? & ?). exists x. set_solver.
      * intros Hi. destruct (Hm key' i Hi) as (x & ? & ?). exists x. set_solver.
      * intros Hi. destruct (Hm key' i Hi) as (x & ? & ?). exists x. set_solver.
  - intros Hn x Hx key' Hk. apply elem_of_app in Hx as [Hx|Hx].
    + assert (Hn0 : ag_media_errors ag = []).
      { destruct (ag_media_identity_by_key ag !! key); [done|].
        destruct (copy_media_identity k ic); [done|]. by destruct (ag_media_errors ag). }
      destruct (He Hn0 x Hx key' Hk) as [?|[i Hi]]; [by left|right].
      destruct (ag_media_identity_by_key ag !! key); [eauto|].
      destruct (copy_media_identity k ic) as [[i0|]|]; eauto.
      rewrite lookup_insert. case_decide; eauto.
    + apply list_elem_of_singleton in Hx as ->. rewrite Ep in Hk. injection Hk as <-.
      destruct (ag_media_identity_by_key ag !! key) eqn:Em; [right; eauto|].
      destruct (copy_media_identity k ic) as [[i0|]|]; [right|by left|].
      * rewrite lookup_insert_eq. eauto.
      * by destruct (ag_media_errors ag).
Qed.

Lemma foldl_aggregate_ok k l : aggregate_ok k l (foldl (aggregate_copy k) empty_aggregate l).
Proof.
  induction l as [|ic l IH] using rev_ind; [constructor; try done; set_solver|].
  rewrite foldl_app. by apply aggregate_copy_ok.
Qed.

Lemma bundle_aggregate_ok k b rv :
  aggregate_ok k (sort_by place_order (bundle_copy_rows k b rv)) (bundle_copy_aggregate k b rv).
Proof. apply foldl_aggregate_ok. Qed.

(** The aggregates are the counts with their families: for every bundle of the batch, the
    aggregate's counts are exactly the grouped counts, a placement has a family exactly when it is
    counted, and it is the family of its backend; and when no identity error was recorded, every
    counted copy is either exempt or its placement has an identity. *)
Lemma aggregates_agree k ids rv b :
  b ∈ ids →
  ∃ ag, bundle_copy_aggregates_by_bundle k ids rv !! b = Some ag ∧
    bundle_copy_counts_by_pool k ids rv !! b = Some (ag_counts ag) ∧
    (∀ key, ag_family_by_key ag !! key =
       match ag_counts ag !! key with Some _ => Some (backend_family k key.1) | None => None end) ∧
    (ag_media_errors ag = [] → ∀ i c key,
       (i, c) ∈ durable_placements k (BundleTarget b) rv None None → copy_place c = Some key →
       copy_media_identity k (i, c) = Ok None ∨ is_Some (ag_media_identity_by_key ag !! key)).
Proof.
  intros Hin. exists (bundle_copy_aggregate k b rv).
  destruct (bundle_aggregate_ok k b rv) as [Hc Hf Hm He].
  split; [by apply bundle_aggregates_lookup|]. split; [|split; [done|]].
  - rewrite bundle_counts_lookup by done. rewrite Hc. f_equal.
    apply foldl_count_perm. symmetry. apply sort_by_perm.
  - intros Hn i c key Hp Hk. apply He; [done| |done]. apply elem_of_sort_by.
    unfold durable_placements, bundle_copy_rows in *. rewrite elem_of_filter_tbl in *. cbn in *.
    unfold copy_place in Hk. destruct Hp as [Hp Hrow]. split; [|done]. split_bools.
    rewrite !andb_true_iff. split_and!; try done; [by apply bool_decide_eq_true|].
    destruct (cp_pool_id c); done.
Qed.

(** ** Wanted pools *)

(** The foreign keys and the representation check the schema enforces on policy rows. *)
Record cat_fk (k : Cat) : Prop := {
  fk_pool : ∀ cls p m, acpools k !! (cls, p) = Some m → is_Some (pools k !! p);
  fk_backend : ∀ p pl, pools k !! p = Some pl → is_Some (backends k !! pl_backend_id pl);
  fk_repr : ∀ p pl, pools k !! p = Some pl → pl_representation pl ∈ REPRESENTATIONS;
}.

Lemma elem_of_class_memberships k cls w p m :
  (p, m) ∈ class_memberships k cls w ↔
  acpools k !! (cls, p) = Some m ∧ acp_active m = true ∧
  (w = true → ∃ pl, pools k !! p = Some pl ∧ pl_accepts_writes pl = true).
Proof.
  unfold class_memberships. rewrite elem_of_sort_by, list_elem_of_omap. split.
  - intros ([[c0 p0] m0] & Hin & Hf). cbn in Hf. apply elem_of_map_to_list in Hin.
    case_bool; [|done]. simplify_eq. split_bools. subst. split_and!; [done..|].
    intros ->. cbn in *. destruct (pools k !! p) as [pl|]; [eauto|done].
  - intros (Hrow & Ha & Hw). exists ((cls, p), m). rewrite elem_of_map_to_list. split; [done|].
    cbn. rewrite bool_decide_eq_true_2, Ha by done. cbn. destruct w; [|done].
    destruct Hw as (pl & -> & ->); done.
Qed.

Lemma NoDup_class_memberships k cls w : NoDup (class_memberships k cls w).*1.
Proof.
  unfold class_memberships. rewrite (fmap_Permutation fst _ _ (sort_by_perm _ _)).
  pose proof (NoDup_fst_map_to_list (acpools k)) as Hnd. revert Hnd.
  induction (map_to_list (acpools k)) as [|[[c p] m] l IH]; intros Hnd; cbn; [constructor|].
  rewrite fmap_cons in Hnd. apply NoDup_cons in Hnd as [Hni Hnd].
  case_bool; [|by apply IH]. cbn. apply NoDup_cons. split; [|by apply IH]. intros Hin.
  apply Hni. apply list_elem_of_fmap in Hin as ([p' m'] & Hp & Hin). cbn in Hp. subst p'.
  apply list_elem_of_omap in Hin as ([[c' p'] m''] & Hin & Hf). cbn in Hf.
  case_bool; [|done]. split_bools. simplify_eq.
  apply list_elem_of_fmap. exists ((cls, p), m'). split; [|done]. cbn. congruence.
Qed.

Lemma pool_target_entry_ok k supplied p pl cls ke so :
  cat_fk k → pools k !! p = Some pl → supplied (pl_backend_id pl) = true →
  ∃ t, pool_target_entry k supplied p pl cls ke so = Ok t ∧ pool_key t = (pl_backend_id pl, p) ∧
       pt_pool_id t = p.
Proof.
  intros [_ Hb Hr] Hp Hs. unfold pool_target_entry.
  rewrite bool_decide_eq_true_2 by eauto. cbn. rewrite Hs. cbn.
  destruct (Hb _ _ Hp) as [b ->]. by eexists.
Qed.

Lemma target_entries_ok k supplied cls ke seen ms :
  cat_fk k → NoDup ms.*1 → (∀ p m, (p, m) ∈ ms → p ∉ seen ∧
    ∃ pl, pools k !! p = Some pl ∧ supplied (pl_backend_id pl) = true) →
  ∃ ts, target_entries k supplied cls ke seen ms = Ok ts ∧ pt_pool_id <$> ts = ms.*1 ∧
    ∀ t, t ∈ ts → ∃ pl, pools k !! pt_pool_id t = Some pl ∧
                        pool_key t = (pl_backend_id pl, pt_pool_id t).
Proof.
  intros Hfk. revert seen. induction ms as [|[p m] ms IH]; intros seen Hnd Hall; cbn.
  { exists []. split_and!; try done. set_solver. }
  rewrite fmap_cons in Hnd. apply NoDup_cons in Hnd as [Hni Hnd]. cbn in Hni.
  destruct (Hall p m) as [Hs (pl & Hpl & Hsup)]; [left|]. rewrite Hpl.
  rewrite bool_decide_eq_false_2 by done. cbn.
  destruct (pool_target_entry_ok k supplied p pl cls ke (acp_sort_order m) Hfk Hpl Hsup)
    as (t & -> & Hk & Hid). cbn.
  destruct (IH ({[p]} ∪ seen) Hnd) as (ts & -> & Hts & Hkeys).
  { intros p' m' Hin. destruct (Hall p' m') as [? ?]; [by right|]. split; [|done].
    assert (p' ≠ p). { intros ->. apply Hni. apply list_elem_of_fmap. by exists (p, m'). }
    set_solver. }
  cbn. exists (t :: ts). split; [done|]. split; [cbn; by rewrite Hid, <- Hts|].
  intros x Hx. apply elem_of_cons in Hx as [->|Hx]; [|by apply Hkeys].
  exists pl. rewrite Hid. done.
Qed.

(** The active pools of a class. *)
Definition class_wants (k : Cat) (cls p : string) : Prop :=
  ∃ m, acpools k !! (cls, p) = Some m ∧ acp_active m = true.

Lemma policy_targets_ok k cls :
  cat_fk k → (∃ p, class_wants k cls p) →
  ∃ ts, policy_targets k cls = Ok ts ∧ NoDup (pool_key <$> ts) ∧
    (∀ p, class_wants k cls p ↔ ∃ t, t ∈ ts ∧ pt_pool_id t = p) ∧
    ∀ t, t ∈ ts → ∃ pl, pools k !! pt_pool_id t = Some pl ∧
                        pool_key t = (pl_backend_id pl, pt_pool_id t).
Proof.
  intros Hfk (p0 & m0 & Hm0 & Ha0). unfold policy_targets, target_pools.
  pose proof (NoDup_class_memberships k cls false) as Hnd.
  destruct (target_entries_ok k (policy_backends k cls) cls None ∅
              (class_memberships k cls false) Hfk Hnd) as (ts & Hts & Hids & Hkeys).
  { intros p m Hin. split; [set_solver|].
    pose proof Hin as (Hrow & _ & _)%elem_of_class_memberships.
    destruct (fk_pool k Hfk _ _ _ Hrow) as [pl Hpl]. exists pl. split; [done|].
    unfold policy_backends. apply existsb_exists. exists (p, m).
    split; [by apply list_elem_of_In|]. cbn. rewrite Hpl.
    rewrite !bool_decide_eq_true_2; [done|by eapply fk_backend|done]. }
  exists ts. split.
  { rewrite <- Hts. destruct (class_memberships k cls false) as [|? ?] eqn:E; [|done].
    assert (Hin : (p0, m0) ∈ class_memberships k cls false)
      by (apply elem_of_class_memberships; done).
    rewrite E in Hin. set_solver. }
  split_and!; [| |done].
  - assert (Hnp : NoDup (pt_pool_id <$> ts)) by by rewrite Hids.
    clear -Hnp. induction ts as [|t ts IH]; cbn; [constructor|].
    rewrite fmap_cons in Hnp. apply NoDup_cons in Hnp as [Hni Hnp].
    apply NoDup_cons. split; [|by apply IH]. intros Hin. apply Hni.
    apply list_elem_of_fmap in Hin as (t' & Heq & Hin). apply list_elem_of_fmap.
    exists t'. split; [|done]. unfold pool_key in Heq. congruence.
  - intros p. split.
    + intros (m & Hm & Ha).
      assert (Hin : p ∈ (class_memberships k cls false).*1).
      { apply list_elem_of_fmap. exists (p, m). split; [done|].
        by apply elem_of_class_memberships. }
      rewrite <- Hids in Hin. apply list_elem_of_fmap in Hin as (t & -> & ?). eauto.
    + intros (t & Hin & <-).
      assert (Hin' : pt_pool_id t ∈ pt_pool_id <$> ts) by (apply list_elem_of_fmap; eauto).
      rewrite Hids in Hin'. apply list_elem_of_fmap in Hin' as ([p' m'] & -> & Hin').
      apply elem_of_class_memberships in Hin' as (? & ? & _). by exists m'.
Qed.

Lemma collect_targets_ok k classes :
  cat_fk k → (∀ cls, cls ∈ classes → ∃ p, class_wants k cls p) →
  ∃ ts, collect_targets k classes = Ok ts ∧
    (∀ p, (∃ cls, cls ∈ classes ∧ class_wants k cls p) ↔ ∃ t, t ∈ ts ∧ pt_pool_id t = p) ∧
    ∀ t, t ∈ ts → ∃ pl, pools k !! pt_pool_id t = Some pl ∧
                        pool_key t = (pl_backend_id pl, pt_pool_id t).
Proof.
  intros Hfk. induction classes as [|c cs IH]; intros Hall.
  { exists []. split_and!; [done| |set_solver]. intros p. set_solver. }
  destruct (policy_targets_ok k c Hfk) as (ts & Hts & _ & Hw & Hk); [apply Hall; left|].
  destruct IH as (rest & Hrest & Hw' & Hk'); [intros; apply Hall; by right|].
  exists (ts ++ rest). cbn. rewrite Hts. cbn. rewrite Hrest. split_and!; [done| |].
  - intros p. split.
    + intros (cls & Hin & Hc). apply elem_of_cons in Hin as [->|Hin].
      * apply Hw in Hc as (t & ? & ?). exists t. set_solver.
      * destruct (proj1 (Hw' p)) as (t & ? & ?); [eauto|]. exists t. set_solver.
    + intros (t & Hin & Hp). apply elem_of_app in Hin as [Hin|Hin].
      * exists c. split; [left|]. apply Hw. eauto.
      * destruct (proj2 (Hw' p)) as (cls & ? & ?); [eauto|]. exists cls. split; [by right|done].
  - intros t Hin. apply elem_of_app in Hin as [?|?]; auto.
Qed.

Lemma bundle_policy_targets_ok k bid b :
  cat_fk k → (∀ cls, cls ∈ bundle_artifactclasses k bid b → ∃ p, class_wants k cls p) →
  ∃ ts, bundle_policy_targets k bid b = Ok ts ∧ NoDup (pool_key <$> ts) ∧
    (∀ p, (∃ cls, cls ∈ bundle_artifactclasses k bid b ∧ class_wants k cls p) ↔
          ∃ t, t ∈ ts ∧ pt_pool_id t = p) ∧
    ∀ t, t ∈ ts → ∃ pl, pools k !! pt_pool_id t = Some pl ∧
                        pool_key t = (pl_backend_id pl, pt_pool_id t).
Proof.
  intros Hfk Hall. unfold bundle_policy_targets.
  destruct (collect_targets_ok k _ Hfk Hall) as (ts & -> & Hw & Hk). cbn.
  exists (dedup_by pool_key ts). split; [done|]. split; [apply NoDup_dedup_by|].
  split; [|intros t Hin; apply Hk; by eapply elem_of_dedup_by].
  intros p. rewrite Hw. split.
  - intros (t & Hin & <-).
    assert (Hkey : pool_key t ∈ pool_key <$> dedup_by pool_key ts).
    { apply dedup_by_keys, list_elem_of_fmap. eauto. }
    apply list_elem_of_fmap in Hkey as (t' & Heq & Hin'). exists t'. split; [done|].
    unfold pool_key in Heq. congruence.
  - intros (t & Hin & <-). exists t. split; [by eapply elem_of_dedup_by|done].
Qed.

(** ** Status *)

Lemma filter_nil_iff {A} (P : A → Prop) `{∀ x, Decision (P x)} l :
  filter P l = [] ↔ ∀ x, x ∈ l → ¬ P x.
Proof.
  split.
  - intros Hf x Hx HP. assert (Hin : x ∈ filter P l) by by apply list_elem_of_filter.
    rewrite Hf in Hin. set_solver.
  - intros Hall. destruct (filter P l) as [|x l'] eqn:E; [done|].
    assert (Hin : x ∈ filter P l) by (rewrite E; left).
    apply list_elem_of_filter in Hin as [? ?]. exfalso. by eapply Hall.
Qed.

Lemma status_complete targets counts :
  ps_complete (status_of targets counts) = true ↔
  ∀ t, t ∈ targets → 0 < default 0 (counts !! pool_key t).
Proof.
  unfold status_of. cbn.
  set (want := (λ t, placement_entry t (default 0 (counts !! pool_key t))) <$> targets).
  assert (Heq : match filter (λ e, pe_have e = false) want with [] => true | _ => false end = true
                ↔ filter (λ e, pe_have e = false) want = [])
    by by destruct (filter (λ e, pe_have e = false) want).
  rewrite Heq, filter_nil_iff. unfold want. clear. setoid_rewrite list_elem_of_fmap. split.
  - intros H t Ht. specialize (H (placement_entry t (default 0 (counts !! pool_key t)))).
    cbn in H. destruct (Z.ltb_spec 0 (default 0 (counts !! pool_key t))); [done|].
    exfalso. apply H; eauto.
  - intros H e (t & -> & Ht). cbn. apply H in Ht. destruct (Z.ltb_spec 0 (default 0 (counts !! pool_key t))); [done|lia].
Qed.

Lemma filter_bool_partition {A} (f : A → bool) l :
  l ≡ₚ filter (λ x, f x = true) l ++ filter (λ x, f x = false) l.
Proof.
  induction l as [|x l IH]; [done|]. rewrite !filter_cons.
  destruct (f x); repeat case_decide; try done.
  - rewrite <- app_comm_cons. by constructor.
  - rewrite <- Permutation_middle. by constructor.
Qed.

Lemma status_partition targets counts :
  ps_want (status_of targets counts) ≡ₚ
  ps_have (status_of targets counts) ++ ps_missing (status_of targets counts).
Proof. apply filter_bool_partition. Qed.

Lemma count_positive l key :
  0 < default 0 (foldl count_place ∅ l !! key) ↔ ∃ ic, ic ∈ l ∧ copy_place ic.2 = Some key.
Proof.
  rewrite foldl_count_lookup. unfold places. split.
  - destruct (filter _ l) as [|ic l'] eqn:E; cbn; [lia|]. intros _. exists ic.
    assert (Hin : ic ∈ filter (λ ic, copy_place ic.2 = Some key) l) by (rewrite E; left).
    apply list_elem_of_filter in Hin. naive_solver.
  - intros (ic & Hin & Hk).
    assert (Hf : ic ∈ filter (λ ic, copy_place ic.2 = Some key) l) by by apply list_elem_of_filter.
    destruct (filter _ l); [set_solver|]. cbn. lia.
Qed.

(** What a complete bundle means.  When every member class has an active pool, the status is
    defined; it is complete exactly when every active pool of every member class holds a durable
    placement of the bundle on the pool's backend (so policy drift after sealing widens what is
    wanted, never narrows it); and the wanted entries split into had and missing ones. *)
Lemma bundle_status_complete k bid b rv :
  cat_fk k → bundles k !! bid = Some b →
  (∀ cls, cls ∈ bundle_artifactclasses k bid b → ∃ p, class_wants k cls p) →
  ∃ st, bundle_replication_status k bid rv = Ok st ∧
    (ps_complete st = true ↔
     ∀ cls p, cls ∈ bundle_artifactclasses k bid b → class_wants k cls p →
       ∃ pl i c, pools k !! p = Some pl ∧ cp_backend_id c = pl_backend_id pl ∧
         cp_pool_id c = Some p ∧ (i, c) ∈ durable_placements k (BundleTarget bid) rv None None) ∧
    ps_want st ≡ₚ ps_have st ++ ps_missing st.
Proof.
  intros Hfk Hb Hall. unfold bundle_replication_status, placement_status. rewrite Hb.
  destruct (bundle_policy_targets_ok k bid b Hfk Hall) as (ts & -> & _ & Hw & Hk).
  cbn -[bundle_copy_counts_by_pool status_of]. rewrite bundle_counts_lookup by set_solver.
  cbn -[status_of].
  eexists. split; [done|]. split; [|apply status_partition].
  assert (Hrows : ∀ i c p, cp_pool_id c = Some p → (i, c) ∈ bundle_copy_rows k bid rv ↔
            (i, c) ∈ durable_placements k (BundleTarget bid) rv None None).
  { intros i c p Hp. unfold bundle_copy_rows. cbn. rewrite !elem_of_filter_tbl. cbn.
    by rewrite (bool_decide_eq_false_2 (cp_pool_id c = None)) by congruence. }
  rewrite status_complete. setoid_rewrite count_positive. split.
  - intros H cls p Hin Hc. destruct (proj1 (Hw p)) as (t & Ht & <-); [eauto|].
    destruct (H t Ht) as ([i c] & Hic & Hplace). destruct (Hk t Ht) as (pl & Hpl & Hkey).
    rewrite Hkey in Hplace. unfold copy_place in Hplace. cbn in Hplace.
    destruct (cp_pool_id c) eqn:Ec; cbn in Hplace; [|done]. simplify_eq.
    exists pl, i, c. rewrite Ec. split_and!; try done. by eapply Hrows.
  - intros H t Ht. destruct (proj2 (Hw (pt_pool_id t))) as (cls & Hin & Hc); [eauto|].
    destruct (H cls _ Hin Hc) as (pl & i & c & Hpl & Hbe & Hp & Hic).
    destruct (Hk t Ht) as (pl' & Hpl' & Hkey). simplify_eq.
    exists (i, c). split; [by eapply Hrows|]. unfold copy_place. cbn. rewrite Hp, Hkey. cbn.
    by rewrite Hbe.
Qed.
