(* ===== verification/ArchivePredicate.v ===== *)
(** * Archive evidence

    [archive_predicate.py]: the one definition of archive evidence, the intake and submission
    predicates built on it, and the preservation-gap audit.  The correlated SQL conditions are
    boolean functions of the catalog. *)

From S2P Require Import Prelude Json JobModels Catalog Durability DurabilityFacts.

Definition ARCHIVE_AUDIT_SCHEMA : string := "sutradhara.archive-predicate-audit/v2".
Definition RETENTION_PASSED : list RetentionState := [RELEASED; PURGED].

Definition verified_bundle_copy_count (k : Cat) (bundle_id : string) : Z :=
  Z.of_nat (length (filter (λ ic,
    (bool_decide (cp_bundle_id ic.2 = Some bundle_id) && copy_ok ic.2 && measured ic.2) = true)
    (tbl_list (copies k)))).

Definition member_archive_evidence (k : Cat) (m : BundleMember) : bool :=
  match bundles k !! bm_bundle_id m, policies k !! bm_artifactclass m with
  | Some b, Some policy =>
      bool_decide (bu_status b = "sealed") &&
      (pr_min_copies policy <=? verified_bundle_copy_count k (bm_bundle_id m))
  | _, _ => false
  end.

Definition hash_archive_evidence_exists (k : Cat) (h : bytes) : bool :=
  existsb (λ m, bool_decide (bm_logical_asset_hash m.2 = h) && member_archive_evidence k m.2)
    (tbl_list (members k)).

Definition intake_items (k : Cat) (intake_id : string) : list (Z * IngestItem) :=
  filter (λ it, ii_intake_id it.2 = intake_id) (tbl_list (items k)).

Definition any_relevant (k : Cat) (intake_id : string) : bool :=
  negb (bool_decide (intake_items k intake_id = [])).

Definition intake_hash_archive_evidence_exists (k : Cat) (intake_id : string) : bool :=
  existsb (λ it, hash_archive_evidence_exists k (ii_logical_asset_hash it.2))
    (intake_items k intake_id).

Definition intake_missing_hash_exists (k : Cat) (intake_id : string) : bool :=
  existsb (λ it, negb (hash_archive_evidence_exists k (ii_logical_asset_hash it.2)))
    (intake_items k intake_id).

Definition intake_archive_state (k : Cat) (intake_id : string) : string :=
  if negb (any_relevant k intake_id) then "none"
  else if negb (intake_missing_hash_exists k intake_id) then "complete"
  else if intake_hash_archive_evidence_exists k intake_id then "partial"
  else "none".

Definition intake_archived (k : Cat) (intake_id : string) : bool :=
  any_relevant k intake_id && negb (intake_missing_hash_exists k intake_id).

Definition submission_is_archived (k : Cat) (submission_id : string) : bool :=
  let ms := filter (λ m, sm_submission_id m.2 = submission_id) (tbl_list (submission_members k)) in
  let total := length ms in
  if Nat.eqb total 0 then false
  else
    let archived := length (filter (λ m, hash_archive_evidence_exists k (sm_sha256 m.2) = true) ms) in
    Nat.eqb archived total.

(** ** The preservation-gap audit *)

Record MissingAsset := {
  ma_content_sha256 : bytes;
  ma_artifactclass : string;
  ma_occurrence_count : Z;
}.

Record AffectedIntake := {
  af_intake_id : string;
  af_retention_state : RetentionState;
  af_released_at : option time;
  af_staging_deleted_at : option time;
  af_archive_state : string;
  af_repair_action : string;
  af_missing_assets : list MissingAsset;
}.

Record ArchiveAudit := {
  aa_schema : string;
  aa_generated_at : time;
  aa_audited_intakes : Z;
  aa_affected_intakes : Z;
  aa_missing_distinct_assets : Z;
  aa_clean : bool;
  aa_affected : list AffectedIntake;
}.

Definition retention_passed (i : Intake) : bool :=
  bool_decide (in_retention_state i ∈ RETENTION_PASSED).

(** GROUP BY (hash, class) of the items of one intake that lack evidence. *)
Definition missing_assets (k : Cat) (intake_id : string) : list MissingAsset :=
  let rows := filter (λ it, hash_archive_evidence_exists k (ii_logical_asset_hash it.2) = false)
                (intake_items k intake_id) in
  let key it := (ii_logical_asset_hash it.2, ii_artifactclass it.2) in
  (λ hc, {| ma_content_sha256 := hc.1; ma_artifactclass := hc.2;
            ma_occurrence_count := Z.of_nat (length (filter (λ it, key it = hc) rows)) |}) <$>
  sort_by id (remove_dups (key <$> rows)).

Definition audit_candidates (k : Cat) : list (string * Intake) :=
  filter (λ ii, (retention_passed ii.2 && intake_hash_archive_evidence_exists k ii.1 &&
                 intake_missing_hash_exists k ii.1) = true)
    (sort_by fst (map_to_list (intakes k))).

Definition build_archive_predicate_audit (k : Cat) (generated_at : time) : ArchiveAudit :=
  let affected := (λ ii, {|
    af_intake_id := ii.1; af_retention_state := in_retention_state ii.2;
    af_released_at := in_released_at ii.2; af_staging_deleted_at := in_staging_deleted_at ii.2;
    af_archive_state := "partial"; af_repair_action := "normal_archive_pipeline";
    af_missing_assets := missing_assets k ii.1 |}) <$> audit_candidates k in
  {| aa_schema := ARCHIVE_AUDIT_SCHEMA; aa_generated_at := generated_at;
     aa_audited_intakes :=
       Z.of_nat (length (filter (λ ii, retention_passed ii.2 = true) (map_to_list (intakes k))));
     aa_affected_intakes := Z.of_nat (length affected);
     aa_missing_distinct_assets := Z.of_nat (length (remove_dups
       (ma_content_sha256 <$> (affected ≫= af_missing_assets))));
     aa_clean := match affected with [] => true | _ => false end;
     aa_affected := affected |}.

(** ** Properties *)

Lemma existsb_elem {A} (f : A → bool) (l : list A) :
  existsb f l = true ↔ ∃ x, x ∈ l ∧ f x = true.
Proof. rewrite existsb_exists. by setoid_rewrite list_elem_of_In. Qed.

Lemma existsb_elem_false {A} (f : A → bool) (l : list A) :
  existsb f l = false ↔ ∀ x, x ∈ l → f x = false.
Proof.
  rewrite <- not_true_iff_false, existsb_elem. split.
  - intros H x Hx. apply not_true_iff_false. intros Hf. apply H. eauto.
  - intros H (x & Hx & Hf). rewrite H in Hf; done.
Qed.

Lemma elem_of_intake_items k i it x :
  (it, x) ∈ intake_items k i ↔ t_rows (items k) !! it = Some x ∧ ii_intake_id x = i.
Proof. unfold intake_items. rewrite elem_of_filter_tbl. naive_solver. Qed.

(** The evidence of one content hash, as a proposition. *)
Definition evidenced (k : Cat) (h : bytes) : Prop :=
  ∃ i m b policy, t_rows (members k) !! i = Some m ∧ bm_logical_asset_hash m = h ∧
    bundles k !! bm_bundle_id m = Some b ∧ bu_status b = "sealed" ∧
    policies k !! bm_artifactclass m = Some policy ∧
    pr_min_copies policy ≤
      Z.of_nat (length (durable_placements k (BundleTarget (bm_bundle_id m)) true None None)).

Lemma verified_count_durable k b :
  verified_bundle_copy_count k b
  = Z.of_nat (length (durable_placements k (BundleTarget b) true None None)).
Proof.
  unfold verified_bundle_copy_count, durable_placements. do 2 f_equal.
  apply list_filter_iff. intros [i c]. cbn. unfold copy_health_filter. cbn.
  by destruct (bool_decide _), (copy_ok c), (measured c).
Qed.

Lemma archive_evidence_iff k h : hash_archive_evidence_exists k h = true ↔ evidenced k h.
Proof.
  unfold hash_archive_evidence_exists, evidenced. rewrite existsb_elem. split.
  - intros ([i m] & Hin & Hm). apply elem_of_tbl_list in Hin. cbn in Hm. split_bools.
    unfold member_archive_evidence in *.
    destruct (bundles k !! bm_bundle_id m) as [b|] eqn:Eb; [|done].
    destruct (policies k !! bm_artifactclass m) as [p|] eqn:Ep; [|done]. split_bools.
    exists i, m, b, p. rewrite <- verified_count_durable. done.
  - intros (i & m & b & p & Hm & Hh & Hb & Hs & Hp & Hc). exists (i, m).
    rewrite elem_of_tbl_list. split; [done|]. cbn. rewrite bool_decide_eq_true_2 by done. cbn.
    unfold member_archive_evidence. rewrite Hb, Hp, bool_decide_eq_true_2 by done.
    rewrite verified_count_durable. cbn. by apply Z.leb_le.
Qed.

Lemma missing_hash_false k i :
  intake_missing_hash_exists k i = false ↔
  ∀ it x, (it, x) ∈ intake_items k i → hash_archive_evidence_exists k (ii_logical_asset_hash x) = true.
Proof.
  unfold intake_missing_hash_exists. rewrite existsb_elem_false. split.
  - intros H it x Hin. specialize (H _ Hin). by apply negb_false_iff in H.
  - intros H [it x] Hin. apply negb_false_iff. eauto.
Qed.

Lemma any_relevant_spec k i : any_relevant k i = true ↔ ∃ it x, (it, x) ∈ intake_items k i.
Proof.
  unfold any_relevant. rewrite negb_true_iff, bool_decide_eq_false. split.
  - destruct (intake_items k i) as [|[it x] l]; [done|]. intros _. exists it, x. left.
  - intros (it & x & Hin) E. rewrite E in Hin. set_solver.
Qed.

(** The archive state of an intake: [complete] exactly when it has items and every one of its
    hashes is evidenced, which is also when the [archived] flag is set; [partial] exactly when
    some are evidenced and some are not; [none] exactly when none is. *)
Lemma intake_archive_state_spec k i :
  (intake_archive_state k i = "complete" ↔ intake_archived k i = true) ∧
  (intake_archived k i = true ↔
     (∃ it x, (it, x) ∈ intake_items k i) ∧
     ∀ it x, (it, x) ∈ intake_items k i → evidenced k (ii_logical_asset_hash x)) ∧
  (intake_archive_state k i = "partial" ↔
     (∃ it x, (it, x) ∈ intake_items k i ∧ evidenced k (ii_logical_asset_hash x)) ∧
     ∃ it x, (it, x) ∈ intake_items k i ∧ ¬ evidenced k (ii_logical_asset_hash x)) ∧
  (intake_archive_state k i = "none" ↔
     ∀ it x, (it, x) ∈ intake_items k i → ¬ evidenced k (ii_logical_asset_hash x)).
Proof.
  assert (Hsome : intake_hash_archive_evidence_exists k i = true ↔
    ∃ it x, (it, x) ∈ intake_items k i ∧ evidenced k (ii_logical_asset_hash x)).
  { unfold intake_hash_archive_evidence_exists. rewrite existsb_elem.
    setoid_rewrite archive_evidence_iff. split; [intros ([it x] & ? & ?); eauto|naive_solver]. }
  assert (Hmiss : intake_missing_hash_exists k i = true ↔
    ∃ it x, (it, x) ∈ intake_items k i ∧ ¬ evidenced k (ii_logical_asset_hash x)).
  { unfold intake_missing_hash_exists. rewrite existsb_elem. setoid_rewrite negb_true_iff.
    setoid_rewrite <- not_true_iff_false. setoid_rewrite archive_evidence_iff.
    split; [intros ([it x] & ? & ?); eauto|naive_solver]. }
  pose proof (missing_hash_false k i) as Hfull. setoid_rewrite archive_evidence_iff in Hfull.
  pose proof (any_relevant_spec k i) as Hany.
  unfold intake_archive_state, intake_archived.
  destruct (any_relevant k i), (intake_missing_hash_exists k i),
    (intake_hash_archive_evidence_exists k i); cbn; naive_solver.
Qed.

(** A submission is archived exactly when it has members and every member's hash is evidenced,
    whichever bundle each landed in. *)
Lemma submission_archived_spec k s :
  submission_is_archived k s = true ↔
  (∃ i m, t_rows (submission_members k) !! i = Some m ∧ sm_submission_id m = s) ∧
  ∀ i m, t_rows (submission_members k) !! i = Some m → sm_submission_id m = s →
         evidenced k (sm_sha256 m).
Proof.
  unfold submission_is_archived.
  set (ms := filter (λ m, sm_submission_id m.2 = s) (tbl_list (submission_members k))).
  assert (Hms : ∀ i m, (i, m) ∈ ms ↔
    t_rows (submission_members k) !! i = Some m ∧ sm_submission_id m = s).
  { intros i m. unfold ms. rewrite elem_of_filter_tbl. naive_solver. }
  assert (Hall : length (filter (λ m, hash_archive_evidence_exists k (sm_sha256 m.2) = true) ms)
                   = length ms ↔ ∀ i m, (i, m) ∈ ms → evidenced k (sm_sha256 m)).
  { setoid_rewrite <- archive_evidence_iff. clear Hms. induction ms as [|[i m] l IH].
    { split; [set_solver|done]. }
    rewrite filter_cons. cbn [snd]. pose proof (length_filter
      (λ m, hash_archive_evidence_exists k (sm_sha256 m.2) = true) l) as Hle.
    case_decide as Hd; cbn [length].
    - rewrite (Nat.succ_inj_wd). rewrite IH. split; [|intros; eapply H; by right].
      intros Hl i' m' [[= -> ->]|Hin]%elem_of_cons; eauto.
    - split; [lia|]. intros Hl. exfalso. apply Hd. eapply Hl. left. }
  destruct (Nat.eqb_spec (length ms) 0) as [E|E].
  - apply nil_length_inv in E. split; [done|]. intros [(i & m & Hm) _]. apply Hms in Hm.
    rewrite E in Hm. set_solver.
  - rewrite Nat.eqb_eq, Hall. setoid_rewrite Hms. split; [|naive_solver].
    intros H. split; [|naive_solver]. destruct ms as [|[i m] l] eqn:Em; [done|].
    exists i, m. apply Hms. left.
Qed.

Lemma elem_of_audit_candidates k iid i :
  (iid, i) ∈ audit_candidates k ↔
  intakes k !! iid = Some i ∧ in_retention_state i ∈ RETENTION_PASSED ∧
  intake_archive_state k iid = "partial".
Proof.
  unfold audit_candidates. rewrite list_elem_of_filter, elem_of_sort_by, elem_of_map_to_list.
  unfold retention_passed. cbn. rewrite !andb_true_iff, bool_decide_eq_true.
  unfold intake_archive_state.
  assert (Hrel : any_relevant k iid = false → intake_missing_hash_exists k iid = false).
  { intros Hr. apply missing_hash_false. intros it x Hin. exfalso.
    apply not_true_iff_false in Hr. apply Hr, any_relevant_spec. eauto. }
  destruct (any_relevant k iid), (intake_missing_hash_exists k iid),
    (intake_hash_archive_evidence_exists k iid); cbn; naive_solver.
Qed.

Lemma elem_of_missing_assets k iid h cls :
  (∃ ma, ma ∈ missing_assets k iid ∧ ma_content_sha256 ma = h ∧ ma_artifactclass ma = cls) ↔
  ∃ it x, (it, x) ∈ intake_items k iid ∧ ii_logical_asset_hash x = h ∧ ii_artifactclass x = cls ∧
          ¬ evidenced k h.
Proof.
  unfold missing_assets. setoid_rewrite list_elem_of_fmap. split.
  - intros (ma & ([h' c'] & -> & Hin) & <- & <-). cbn.
    rewrite elem_of_sort_by, elem_of_remove_dups in Hin.
    apply list_elem_of_fmap in Hin as ([it x] & Heq & Hin). cbn in Heq. simplify_eq.
    apply list_elem_of_filter in Hin as [Hf Hin]. cbn in Hf. exists it, x. split_and!; try done.
    rewrite <- archive_evidence_iff. congruence.
  - intros (it & x & Hin & <- & <- & Hne). eexists. split.
    { exists (ii_logical_asset_hash x, ii_artifactclass x). split; [reflexivity|]. rewrite elem_of_sort_by, elem_of_remove_dups.
    apply list_elem_of_fmap. exists (it, x). split; [done|]. apply list_elem_of_filter.
    split; [|done]. cbn. apply not_true_iff_false. by rewrite archive_evidence_iff. }
    done.
Qed.

(** The audit reports exactly the preservation gaps: an intake is listed exactly when its
    staging retention has passed and its archive state is [partial]; the report is clean exactly
    when there is none; and the assets listed for it are exactly those of its (hash, class) pairs
    that lack evidence. *)
Lemma audit_reports_gaps k at_time :
  let a := build_archive_predicate_audit k at_time in
  (∀ iid i, intakes k !! iid = Some i →
     (iid ∈ af_intake_id <$> aa_affected a ↔
      in_retention_state i ∈ RETENTION_PASSED ∧ intake_archive_state k iid = "partial")) ∧
  (aa_clean a = true ↔ ∀ iid i, intakes k !! iid = Some i →
     in_retention_state i ∈ RETENTION_PASSED → intake_archive_state k iid ≠ "partial") ∧
  (∀ af h cls, af ∈ aa_affected a →
     ((∃ ma, ma ∈ af_missing_assets af ∧ ma_content_sha256 ma = h ∧ ma_artifactclass ma = cls) ↔
      ∃ it x, (it, x) ∈ intake_items k (af_intake_id af) ∧ ii_logical_asset_hash x = h ∧
              ii_artifactclass x = cls ∧ ¬ evidenced k h)).
Proof.
  intros a.
  assert (Hids : ∀ iid, iid ∈ af_intake_id <$> aa_affected a ↔ ∃ i, (iid, i) ∈ audit_candidates k).
  { intros iid. cbn. rewrite <- list_fmap_compose, list_elem_of_fmap. split.
    - intros ([iid' i] & -> & Hin). eauto.
    - intros (i & Hin). by exists (iid, i). }
  split_and!.
  - intros iid i Hi. rewrite Hids. setoid_rewrite elem_of_audit_candidates. naive_solver.
  - cbn. split.
    + intros Hc iid i Hi Hp Hs.
      assert (Hin : (iid, i) ∈ audit_candidates k) by by apply elem_of_audit_candidates.
      destruct (audit_candidates k); [set_solver|done].
    + intros H. destruct (audit_candidates k) as [|[iid i] l] eqn:E; [done|]. exfalso.
      assert (Hin : (iid, i) ∈ audit_candidates k) by (rewrite E; left).
      apply elem_of_audit_candidates in Hin as (? & ? & ?). by eapply H.
  - intros af h cls Haf. cbn in Haf. apply list_elem_of_fmap in Haf as ([iid i] & -> & _). cbn.
    apply elem_of_missing_assets.
Qed.
