(* ===== verification/BundleCopy.v ===== *)
(** * The bundle-copy reconciler

    [jobs/reconcilers/bundle_copy.py]: a sealed bundle is observed against the write-eligible pools
    of its member classes under the strictest declared durability floor; structural deficiencies
    and duplicates are projected into blocked conditions; a repair job is enqueued otherwise.
    [bundle_copy_reconciler] is the domain's instance of the spine's interface. *)

From stdpp Require Import pretty.
From S2P Require Import Prelude Json JobModels Catalog Leases RetryConfig Conditions Engine.
From S2P Require Import EngineFacts Spine Durability.

Definition DOMAIN : string := "bundle_copy".

Record DurabilityFloor := {
  fl_min_copies : Z;
  fl_min_impl_families : Z;
}.

Definition default_floor : DurabilityFloor := {| fl_min_copies := 3; fl_min_impl_families := 2 |}.

Definition floor_for_class (k : Cat) (artifactclass : string) : DurabilityFloor :=
  match policies k !! artifactclass with
  | None => default_floor
  | Some r => {| fl_min_copies := pr_min_copies r; fl_min_impl_families := pr_min_impl_families r |}
  end.

(** [max] over a non-empty list. *)
Definition list_max_Z (x : Z) (l : list Z) : Z := foldl Z.max x l.

Definition strictest_floor (floors : list DurabilityFloor) : DurabilityFloor :=
  match floors with
  | [] => default_floor
  | f :: fs => {| fl_min_copies := list_max_Z (fl_min_copies f) (fl_min_copies <$> fs);
                  fl_min_impl_families :=
                    list_max_Z (fl_min_impl_families f) (fl_min_impl_families <$> fs) |}
  end.

(** ** Desired targets *)

(** [_desired_targets_by_class] for one class; the pool and backend rows exist by foreign key. *)
Definition desired_targets (k : Cat) (artifactclass : string) : gmap place_key PoolTarget :=
  list_to_map (omap (λ pm,
    p ← pools k !! pm.1;
    b ← backends k !! pl_backend_id p;
    Some ((pl_backend_id p, pm.1),
          {| pt_pool_id := pm.1; pt_artifactclass := artifactclass;
             pt_backend_id := pl_backend_id p; pt_backend_name := be_name b;
             pt_representation := pl_representation p; pt_key_epoch := None;
             pt_location := pl_location p; pt_offsite_gate := pl_offsite_gate p;
             pt_tier := pl_tier p; pt_sort_order := acp_sort_order pm.2 |}))
    (class_memberships k artifactclass true)).

(** [_merge_desired_targets]: the first class wins on a shared pool. *)
Definition merge_desired_targets (k : Cat) (classes : list string) : gmap place_key PoolTarget :=
  foldl (λ merged c, merged ∪ desired_targets k c) ∅ classes.

Definition bundle_desired_and_floor (k : Cat) (bundle_id : string) (b : Bundle)
    : gmap place_key PoolTarget * DurabilityFloor :=
  match bundle_artifactclasses k bundle_id b with
  | [] => (∅, default_floor)
  | classes => (merge_desired_targets k classes, strictest_floor (floor_for_class k <$> classes))
  end.

(** ** Aggregates with pending verifications *)

Definition add_pending_copy (k : Cat) (ag : BundleCopyAggregate) (ic : copy_entry)
    : BundleCopyAggregate :=
  match copy_place ic.2 with
  | None => ag
  | Some key =>
      if measured ic.2 then ag
      else
        let family := match backends k !! cp_backend_id ic.2 with
                      | Some b => be_implementation_family b
                      | None => ""
                      end in
        let identity := copy_media_identity k ic in
        {| ag_counts := count_place (ag_counts ag) ic;
           ag_family_by_key := setdefault key family (ag_family_by_key ag);
           ag_media_identity_by_key :=
             match identity with
             | Ok (Some i) => setdefault key i (ag_media_identity_by_key ag)
             | _ => ag_media_identity_by_key ag
             end;
           ag_media_errors :=
             match identity with
             | Err e => ag_media_errors ag ++ [media_error_text e]
             | Ok _ => ag_media_errors ag
             end |}
  end.

Definition pending_rows (d : Database) (b : string) : list copy_entry :=
  filter (λ ic, (bool_decide (cp_bundle_id ic.2 = Some b) &&
                 bool_decide (ic.1 ∈ pending_verification_copy_ids (jobs d)) &&
                 copy_ok ic.2 && negb (bool_decide (cp_pool_id ic.2 = None))) = true)
    (tbl_list (copies (cat d))).

(** [_reconciler_aggregates] for one bundle of the batch: rows of different bundles update
    different aggregates, so the shared pass splits by bundle. *)
Definition reconciler_aggregate (d : Database) (b : string) : BundleCopyAggregate :=
  let ag := bundle_copy_aggregate (cat d) b true in
  if decide (pending_verification_copy_ids (jobs d) = ∅) then ag
  else foldl (add_pending_copy (cat d)) ag (pending_rows d b).

(** ** The floor *)

Definition realized_keys (ag : BundleCopyAggregate) : list place_key :=
  sort_by id (filter (λ kc, (0 <? kc.2) = true) (map_to_list (ag_counts ag))).*1.

Definition family_of (ag : BundleCopyAggregate) (key : place_key) : string :=
  default "" (ag_family_by_key ag !! key).

Fixpoint distinct_media (ag : BundleCopyAggregate) (seen : list CopyMediaIdentity)
    (keys : list place_key) : bool :=
  match keys with
  | [] => true
  | key :: keys =>
      if decide (family_of ag key = "memory") then distinct_media ag seen keys
      else
        match ag_media_identity_by_key ag !! key with
        | None => false
        | Some i => if decide (i ∈ seen) then false else distinct_media ag (i :: seen) keys
        end
  end.

Definition floor_satisfied (fl : DurabilityFloor) (ag : BundleCopyAggregate) : bool :=
  let keys := realized_keys ag in
  if Z.of_nat (length keys) <? fl_min_copies fl then false
  else if Z.of_nat (length (remove_dups (family_of ag <$> keys))) <? fl_min_impl_families fl
  then false
  else match ag_media_errors ag with
       | _ :: _ => false
       | [] => distinct_media ag [] keys
       end.

Definition placement_complete (desired : gmap place_key PoolTarget) (ag : BundleCopyAggregate)
    : bool :=
  forallb (λ key, 0 <? default 0 (ag_counts ag !! key)) (map_to_list desired).*1.

Definition observation_for_bundle (bundle_id : string) (desired : gmap place_key PoolTarget)
    (ag : BundleCopyAggregate) (fl : DurabilityFloor) : TargetObservation := {|
  to_target_key := bundle_id;
  to_desired := true;
  to_observed_state :=
    if placement_complete desired ag && floor_satisfied fl ag &&
       bool_decide (duplicate_keys ag = [])
    then OBSERVED_PRESENT else OBSERVED_MISSING |}.

Definition observe_bundle (d : Database) (target : string) : TargetObservation :=
  let undesired := {| to_target_key := target; to_desired := false;
                      to_observed_state := OBSERVED_MISSING |} in
  match bundles (cat d) !! target with
  | None => undesired
  | Some b =>
      if decide (bu_status b ≠ "sealed") then undesired
      else
        let '(desired, fl) := bundle_desired_and_floor (cat d) target b in
        if decide (desired = ∅) then undesired
        else observation_for_bundle target desired (reconciler_aggregate d target) fl
  end.

(** ** Enumeration *)

(** [_sealed_bundle_rows]: one bounded batch; the cursor is an offset. *)
Definition sealed_bundle_rows (k : Cat) (cursor : option Z) (batch : nat)
    : list (string * list string) :=
  let sealed := filter (λ ib, bu_status ib.2 = "sealed") (sort_by fst (map_to_list (bundles k))) in
  let page := take batch (match cursor with
                          | None => sealed
                          | Some c => drop (Z.to_nat c) sealed
                          end) in
  omap (λ ib, match bundle_artifactclasses k ib.1 ib.2 with
              | [] => None
              | classes => Some (ib.1, classes)
              end) page.

Definition enumerate_bundles (d : Database) (cursor : option Z) (batch : nat)
    : list TargetObservation :=
  omap (λ row,
    let desired := merge_desired_targets (cat d) row.2 in
    if decide (desired = ∅) then None
    else Some (observation_for_bundle row.1 desired (reconciler_aggregate d row.1)
                 (strictest_floor (floor_for_class (cat d) <$> row.2))))
    (sealed_bundle_rows (cat d) cursor batch).

(** ** Structural deficiencies *)

Definition commas (sep : string) (l : list string) : string := String.concat sep l.

Definition desired_families (k : Cat) (desired : gmap place_key PoolTarget) : list string :=
  remove_dups (omap (λ key,
    p ← pools k !! key.2; b ← backends k !! pl_backend_id p; Some (be_implementation_family b))
    (map_to_list desired).*1).

Definition key_text (key : place_key) : string := pretty key.1 +:+ "/" +:+ key.2.

Fixpoint media_conflicts (seen : list (CopyMediaIdentity * place_key))
    (l : list (place_key * CopyMediaIdentity)) : list string :=
  match l with
  | [] => []
  | (key, i) :: l =>
      match snd <$> list_find (λ ik, ik.1 = i) seen with
      | Some (_, other) =>
          ("media identity reused by " +:+ key_text other +:+ " and " +:+ key_text key +:+ ": " +:+
           mi_family i +:+ ":" +:+ mi_media_id i) :: media_conflicts ((i, key) :: seen) l
      | None => media_conflicts ((i, key) :: seen) l
      end
  end.

Definition realized_media_conflicts (ag : BundleCopyAggregate) : list string :=
  media_conflicts [] (sort_by fst (map_to_list (ag_media_identity_by_key ag))).

Definition floor_defects (k : Cat) (desired : gmap place_key PoolTarget) (fl : DurabilityFloor)
    (ag : BundleCopyAggregate) : list string :=
  let n := Z.of_nat (size desired) in
  let f := Z.of_nat (length (desired_families k desired)) in
  (if n <? fl_min_copies fl
   then ["write-eligible pools " +:+ pretty n +:+ " < min_copies " +:+ pretty (fl_min_copies fl)]
   else []) ++
  (if f <? fl_min_impl_families fl
   then ["implementation families " +:+ pretty f +:+ " < min_impl_families " +:+
         pretty (fl_min_impl_families fl)]
   else []) ++
  realized_media_conflicts ag ++ ag_media_errors ag.

Definition structural_floor_message (k : Cat) (desired : gmap place_key PoolTarget)
    (fl : DurabilityFloor) (ag : BundleCopyAggregate) : option string :=
  match floor_defects k desired fl ag with
  | [] => None
  | defects => Some ("bundle-copy durability floor cannot be satisfied: " +:+ commas "; " defects)
  end.

Definition duplicate_message (bundle_id : string) (ag : BundleCopyAggregate) : option string :=
  match duplicate_keys ag with
  | [] => None
  | dups => Some ("bundle " +:+ bundle_id +:+ " has persistent duplicate bundle copies: " +:+
                  commas ", " ((λ kc, "backend_id=" +:+ pretty kc.1.1 +:+ "/pool=" +:+ kc.1.2 +:+
                                      " count=" +:+ pretty kc.2) <$> dups))
  end.

(** [blocked_projection_for_bundle] *)
Definition blocked_projection_for_bundle (d : Database) (bundle_id : string)
    : option (string * string) :=
  match bundles (cat d) !! bundle_id with
  | None => None
  | Some b =>
      if decide (bu_status b ≠ "sealed") then None
      else
        let ag := reconciler_aggregate d bundle_id in
        match duplicate_message bundle_id ag with
        | Some m => Some ("duplicate-copy", m)
        | None =>
            let '(desired, fl) := bundle_desired_and_floor (cat d) bundle_id b in
            match structural_floor_message (cat d) desired fl ag with
            | Some m => Some ("durability-floor-unsatisfiable", m)
            | None => None
            end
        end
  end.

Section reconciler.
Context (uniform : Z → Z → Z).

(** [classify_condition]; its two alarms are those of [blocked_projection_for_bundle]. *)
Definition classify_bundle (d : Database) (target : string) (row : ReconciliationCondition)
    (now : time) : result SpineError Database :=
  match blocked_projection_for_bundle d target with
  | None => Ok d
  | Some (reason, message) =>
      match record_condition uniform (jobs d) now DOMAIN target (Some BLOCKED) (Some reason)
              (Some message) None None None true with
      | Ok (db, _) => Ok (with_jobdb db d)
      | Err _ => Err (HookRaised "ReconciliationInvariantError")
      end
  end.

Definition repair_spec (target : string) : SubmitSpec := {|
  sb_kind := "bundle-repair"; sb_params := [("bundle_id", JStr target)];
  sb_required_resources := []; sb_prerequisites := []; sb_not_before := None;
  sb_priority := 0; sb_dedupe_key := Some (DOMAIN +:+ ":" +:+ target);
  sb_recon_domain := Some DOMAIN; sb_recon_target_key := Some target |}.

Definition reconcile_bundle (d : Database) (target : string) (now : time)
    : result SpineError Database :=
  Ok (with_jobdb (submit1 (jobs d) (repair_spec target) now).1 d).

Definition bundle_copy_reconciler : Reconciler := {|
  enumerate_targets := λ d cursor batch, Ok (enumerate_bundles d cursor batch);
  observe := λ d target, Ok (observe_bundle d target);
  reconcile_target := reconcile_bundle;
  classify_condition := Some classify_bundle |}.

(** [refresh_condition] *)
Definition refresh_condition (d : Database) (target : string) (now : time)
    : result SpineError Database :=
  let o := observe_bundle d target in
  let reason := if to_desired o && bool_decide (to_observed_state o = OBSERVED_MISSING)
                then Some "durability-unverified" else None in
  let '(db, row) := record_observation (jobs d) now DOMAIN target (to_desired o)
                      (to_observed_state o) reason None in
  classify_bundle (with_jobdb db d) target row now.
End reconciler.

Arguments floor_defects : simpl never.
Arguments duplicate_message : simpl never.
Arguments structural_floor_message : simpl never.
