(* ===== verification/BundleCopyFacts.v ===== *)
(** * Correctness of the bundle-copy reconciler *)

From S2P Require Import Prelude Json JobModels Catalog Leases RetryConfig Conditions Engine.
From S2P Require Import EngineFacts Spine SpineFacts Durability DurabilityFacts ArchivePredicate.
From S2P Require Import BundleCopy.

(** ** The domain satisfies the spine's interface *)

Lemma record_blocked_frame uniform db now target reason message db' row :
  record_condition uniform db now DOMAIN target (Some BLOCKED) reason message None None None true
    = Ok (db', row) →
  classify_frame DOMAIN target db db' ∧ cond_tbl db' !! (DOMAIN, target) = Some row ∧
  rc_condition row = BLOCKED ∧ rc_next_eligible_at row = None.
Proof.
  intros H. pose proof (record_condition_same_jobs _ _ _ _ _ _ _ _ _ _ _ _ _ _ H) as Hs.
  pose proof (λ Hwf, proj1 (record_condition_wf _ _ _ _ _ _ _ _ _ _ _ _ _ _ Hwf H)) as Hwf.
  unfold record_condition in H.
  destruct (cond_tbl db !! (DOMAIN, target)) as [row0|] eqn:E; [|done].
  injection H as Hdb Hrow. subst db' row.
  split; [|split; [cbn; by rewrite lookup_insert_eq|done]].
  split; [done|]. split; [|split; [|done]].
  - intros key Hk. cbn. rewrite lookup_insert_ne by done. by case_bool.
  - intros _. cbn. rewrite lookup_insert_eq. eauto.
Qed.

Lemma bundle_copy_laws_hold uniform : ReconcilerLaws DOMAIN (bundle_copy_reconciler uniform).
Proof.
  constructor.
  - intros f d t row now d' [= <-]. unfold classify_bundle.
    destruct (blocked_projection_for_bundle d t) as [[reason message]|].
    + destruct (record_condition _ _ _ _ _ _ _ _ _ _ _ _) as [[db r]|] eqn:E; [|done].
      intros [= <-]. split; [done|]. by apply record_blocked_frame in E as [? _].
    + intros [= <-]. split; [done|]. split; [by constructor|]. split; [done|]. split; done.
  - intros d t now d' [= <-]. right. exists (repair_spec t), now. split_and!; done.
Qed.

#[export] Instance bundle_copy_laws uniform :
  ReconcilerLaws DOMAIN (bundle_copy_reconciler uniform) := bundle_copy_laws_hold uniform.

(** ** Enumeration agrees with observation *)

Lemma sealed_rows_spec k cursor batch b classes :
  (b, classes) ∈ sealed_bundle_rows k cursor batch →
  ∃ bundle, bundles k !! b = Some bundle ∧ bu_status bundle = "sealed" ∧
    bundle_artifactclasses k b bundle = classes ∧ classes ≠ [].
Proof.
  unfold sealed_bundle_rows. rewrite list_elem_of_omap. intros ([b' bundle] & Hin & Hc). cbn in Hc.
  assert (Hs : (b', bundle) ∈ filter (λ ib, bu_status ib.2 = "sealed")
                 (sort_by fst (map_to_list (bundles k)))).
  { eapply elem_of_submseteq; [exact Hin|]. apply sublist_submseteq.
    etrans; [apply sublist_take|]. destruct cursor; [apply sublist_drop|done]. }
  apply list_elem_of_filter in Hs as [Hs Hrow].
  apply elem_of_sort_by, elem_of_map_to_list in Hrow.
  destruct (bundle_artifactclasses k b' bundle) as [|c cs] eqn:E; [done|]. simplify_eq.
  exists bundle. done.
Qed.

(** The batch enumeration and the single observation agree: whatever the bulk pass reports of a
    bundle is what re-observing it alone in the same transaction reports. *)
Lemma enumerate_agrees_observe d cursor batch o :
  o ∈ enumerate_bundles d cursor batch → observe_bundle d (to_target_key o) = o.
Proof.
  unfold enumerate_bundles. rewrite list_elem_of_omap. intros ([b classes] & Hin & Ho). cbn in Ho.
  case_decide as Hd; [done|]. injection Ho as <-. cbn.
  apply sealed_rows_spec in Hin as (bundle & Hb & Hs & Hc & Hne).
  unfold observe_bundle. rewrite Hb, decide_False by auto.
  unfold bundle_desired_and_floor. rewrite Hc. destruct classes as [|c cs]; [done|].
  by rewrite decide_False.
Qed.

(** ** The meaning of [present] *)

Lemma elem_of_realized ag key :
  key ∈ realized_keys ag ↔ 0 < default 0 (ag_counts ag !! key).
Proof.
  unfold realized_keys. rewrite elem_of_sort_by, list_elem_of_fmap. split.
  - intros ([key' n] & -> & Hin). apply list_elem_of_filter in Hin as [Hn Hin]. cbn in *.
    apply elem_of_map_to_list in Hin. rewrite Hin. split_bools. done.
  - intros Hn. destruct (ag_counts ag !! key) as [n|] eqn:E; cbn in Hn; [|lia].
    exists (key, n). split; [done|]. apply list_elem_of_filter. cbn. split; [by apply Z.ltb_lt|].
    by apply elem_of_map_to_list.
Qed.

Lemma NoDup_realized ag : NoDup (realized_keys ag).
Proof.
  unfold realized_keys. rewrite sort_by_perm.
  eapply sublist_NoDup; [|apply fmap_sublist, sublist_filter]. apply NoDup_fst_map_to_list.
Qed.

(** The identities of the placements that need one. *)
Definition identified (ag : BundleCopyAggregate) (keys : list place_key)
    : list (option CopyMediaIdentity) :=
  (λ key, ag_media_identity_by_key ag !! key) <$> filter (λ key, family_of ag key ≠ "memory") keys.

Lemma distinct_media_spec ag seen keys :
  distinct_media ag seen keys = true ↔
  NoDup (identified ag keys) ∧ None ∉ identified ag keys ∧ ∀ i, i ∈ seen → Some i ∉ identified ag keys.
Proof.
  revert seen. induction keys as [|key keys IH]; intros seen; cbn [distinct_media].
  { unfold identified. cbn. split; [intros _; split_and!; [constructor|set_solver..]|done]. }
  unfold identified in *. rewrite filter_cons. case_decide as Hm.
  - rewrite decide_False by auto. rewrite IH. done.
  - rewrite decide_True by done. rewrite fmap_cons.
    destruct (ag_media_identity_by_key ag !! key) as [i|] eqn:Ei; [|set_solver].
    rewrite NoDup_cons. case_decide as Hi; [set_solver|]. rewrite IH. set_solver.
Qed.

Record floor_met (fl : DurabilityFloor) (ag : BundleCopyAggregate) : Prop := {
  fm_copies : fl_min_copies fl ≤ Z.of_nat (length (realized_keys ag));
  fm_families : fl_min_impl_families fl ≤
    Z.of_nat (length (remove_dups (family_of ag <$> realized_keys ag)));
  fm_errors : ag_media_errors ag = [];
  fm_media : NoDup (identified ag (realized_keys ag)) ∧ None ∉ identified ag (realized_keys ag);
}.

Lemma floor_satisfied_spec fl ag : floor_satisfied fl ag = true ↔ floor_met fl ag.
Proof.
  unfold floor_satisfied. split.
  - case_bool; [done|]. case_bool; [done|]. destruct (ag_media_errors ag) eqn:E; [|done].
    intros Hd. apply distinct_media_spec in Hd as (H1 & H2 & _). split_bools.
    constructor; try done.
  - intros [H1 H2 H3 [H4 H5]]. rewrite (proj2 (Z.ltb_ge _ _)) by done.
    rewrite (proj2 (Z.ltb_ge _ _)) by done. rewrite H3. apply distinct_media_spec. set_solver.
Qed.

Lemma no_duplicates_spec ag :
  duplicate_keys ag = [] ↔ ∀ key n, ag_counts ag !! key = Some n → n ≤ 1.
Proof.
  unfold duplicate_keys. rewrite filter_nil_iff. split.
  - intros H key n Hk. assert (Hin : (key, n) ∈ sort_by fst (map_to_list (ag_counts ag)))
      by by apply elem_of_sort_by, elem_of_map_to_list.
    specialize (H _ Hin). cbn in H. destruct (Z.ltb_spec 1 n); [done|lia].
  - intros H [key n] Hin. apply elem_of_sort_by, elem_of_map_to_list in Hin. apply H in Hin. cbn.
    destruct (Z.ltb_spec 1 n); [lia|done].
Qed.

Lemma placement_complete_spec desired ag :
  placement_complete desired ag = true ↔
  ∀ key, is_Some (desired !! key) → 0 < default 0 (ag_counts ag !! key).
Proof.
  unfold placement_complete. rewrite forallb_forall. setoid_rewrite <- list_elem_of_In.
  setoid_rewrite Z.ltb_lt. split.
  - intros H key [t Ht]. apply H. apply list_elem_of_fmap. exists (key, t).
    split; [done|]. by apply elem_of_map_to_list.
  - intros H key Hin. apply list_elem_of_fmap in Hin as ([key' t] & -> & Hin).
    apply elem_of_map_to_list in Hin. apply H. eauto.
Qed.

(** What [present] means.  A sealed bundle with desired pools is observed present exactly when
    every desired placement holds a counted copy, none holds two, and the strictest member floor
    is met: enough distinct placements, enough implementation families, no unidentifiable copy,
    and no two placements (memory aside) on the same medium. *)
Lemma bundle_present_spec d target b :
  bundles (cat d) !! target = Some b → bu_status b = "sealed" →
  let '(desired, fl) := bundle_desired_and_floor (cat d) target b in
  desired ≠ ∅ →
  let ag := reconciler_aggregate d target in
  to_desired (observe_bundle d target) = true ∧
  (to_observed_state (observe_bundle d target) = OBSERVED_PRESENT ↔
   (∀ key, is_Some (desired !! key) → 0 < default 0 (ag_counts ag !! key)) ∧
   floor_met fl ag ∧ (∀ key n, ag_counts ag !! key = Some n → n ≤ 1)).
Proof.
  intros Hb Hs. destruct (bundle_desired_and_floor (cat d) target b) as [desired fl] eqn:E.
  intros Hne ag. unfold observe_bundle. rewrite Hb, decide_False, E, decide_False by auto.
  split; [done|]. cbn. fold ag.
  rewrite <- placement_complete_spec, <- floor_satisfied_spec, <- no_duplicates_spec.
  case_bool.
  - split_bools. done.
  - split; [done|]. intros (H1 & H2 & H3). rewrite H1, H2, bool_decide_eq_true_2 in Hb0; done.
Qed.

(** ** Blocked projections *)

Lemma classify_bundle_blocked uniform d target row now d' reason message :
  blocked_projection_for_bundle d target = Some (reason, message) →
  classify_bundle uniform d target row now = Ok d' →
  ∃ row', cond_tbl (jobs d') !! (DOMAIN, target) = Some row' ∧ rc_condition row' = BLOCKED ∧
          rc_next_eligible_at row' = None.
Proof.
  intros Hp. unfold classify_bundle. rewrite Hp.
  destruct (record_condition _ _ _ _ _ _ _ _ _ _ _ _) as [[db r]|] eqn:E; [|done].
  intros [= <-]. apply record_blocked_frame in E as (_ & ? & ? & ?). by exists r.
Qed.

Lemma blocked_projection_frame d db target :
  job_tbl db = job_tbl (jobs d) →
  blocked_projection_for_bundle (with_jobdb db d) target = blocked_projection_for_bundle d target.
Proof.
  intros Hj. unfold blocked_projection_for_bundle, reconciler_aggregate, pending_rows,
    pending_verification_copy_ids, job_rows. cbn. by rewrite Hj.
Qed.

(** A structurally deficient bundle is parked, not hammered.  When a sealed bundle holds
    duplicate copies, or its write-eligible pools cannot meet the floor, or its copies cannot be
    told apart by medium, handling it leaves its condition blocked with no due time and enqueues
    nothing: the job tables are untouched. *)
Lemma deficient_bundle_parked uniform d t_obs t_gate target d' :
  is_Some (blocked_projection_for_bundle d target) →
  process_target (bundle_copy_reconciler uniform) DOMAIN d t_obs t_gate target = Ok d' →
  same_jobs (jobs d) (jobs d') ∧ cat d' = cat d ∧
  ∃ row, cond_tbl (jobs d') !! (DOMAIN, target) = Some row ∧ rc_condition row = BLOCKED ∧
         rc_next_eligible_at row = None.
Proof.
  intros [[reason message] Hp] H. unfold process_target in H. cbn in H.
  apply bind_Ok in H as ([d1 row] & Hr & H).
  pose proof (refresh_target_spec DOMAIN (bundle_copy_reconciler uniform) _ _ _ _ _ _ Hr)
    as (Hcat & (Hsj & _) & Hrow).
  unfold refresh_target in Hr.
  pose proof (record_observation_same_jobs (jobs d) t_obs DOMAIN target
    (to_desired (observe_bundle d target)) (to_observed_state (observe_bundle d target)) None None)
    as Hobs.
  destruct (record_observation _ _ _ _ _ _ _ _) as [db row0]. cbn in Hr, Hobs.
  apply bind_Ok in Hr as (d2 & Hc & Heq). injection Heq as <- <-.
  eapply classify_bundle_blocked in Hc as (row' & Hrow' & Hb & Hn);
    [|rewrite blocked_projection_frame by apply Hobs; exact Hp].
  rewrite Hrow' in H. cbn in H.
  assert (Hg : gate_open (jobs d2) DOMAIN target row' (to_desired (observe_bundle d target)) t_gate
               = false).
  { apply not_true_iff_false. rewrite gate_open_spec. rewrite Hb. intros (_ & ? & _). done. }
  rewrite Hg in H. injection H as <-. split; [done|]. split; [done|]. by exists row'.
Qed.

(** ** The floor implies archive evidence *)

Lemma list_max_Z_ge x l y : y = x ∨ y ∈ l → y ≤ list_max_Z x l.
Proof.
  unfold list_max_Z. revert x y. induction l as [|z l IH]; intros x y [->|Hin]; cbn; [lia|set_solver| |].
  - transitivity (Z.max x z); [lia|]. apply IH. by left.
  - apply elem_of_cons in Hin as [->|Hin]; [|apply IH; by right].
    transitivity (Z.max x z); [lia|]. apply IH. by left.
Qed.

Lemma strictest_floor_ge floors f :
  f ∈ floors → fl_min_copies f ≤ fl_min_copies (strictest_floor floors) ∧
               fl_min_impl_families f ≤ fl_min_impl_families (strictest_floor floors).
Proof.
  destruct floors as [|g fs]; [set_solver|]. intros Hin. cbn.
  split; apply list_max_Z_ge; apply elem_of_cons in Hin as [->|Hin];
    [by left|right|by left|right]; apply list_elem_of_fmap; eauto.
Qed.

(** Distinct counted placements are at most as many as the copies counted. *)
Lemma length_filter_union_le (keys : list place_key) (l : list copy_entry) :
  NoDup keys → (∀ key, key ∈ keys → ∃ ic, ic ∈ l ∧ copy_place ic.2 = Some key) →
  (length keys ≤ length l)%nat.
Proof.
  intros Hnd Hall.
  transitivity (length (omap (λ ic, copy_place ic.2) l)).
  - apply submseteq_length. apply NoDup_submseteq; [done|]. intros key Hk.
    destruct (Hall key Hk) as (ic & Hin & Hp). apply list_elem_of_omap. eauto.
  - clear. induction l as [|ic l IH]; cbn; [lia|]. destruct (copy_place ic.2); cbn; lia.
Qed.

Lemma member_class_listed k bid b i m :
  t_rows (members k) !! i = Some m → bm_bundle_id m = bid →
  bm_artifactclass m ∈ bundle_artifactclasses k bid b.
Proof.
  intros Hm Hb. unfold bundle_artifactclasses.
  set (classes := sort_by id _).
  assert (Hin : bm_artifactclass m ∈ classes).
  { unfold classes. apply elem_of_sort_by, elem_of_remove_dups, list_elem_of_fmap.
    exists (i, m). split; [done|]. by apply elem_of_filter_tbl. }
  destruct classes; [set_solver|done].
Qed.

(** C16: the reconciler's view is at least as strict as the deletion gate: when no verification is
    pending and a sealed bundle is observed present, every member of it whose class has an applied
    policy is archive evidence for its hash. *)
Theorem present_implies_evidence d target b i m policy :
  bundles (cat d) !! target = Some b → bu_status b = "sealed" →
  pending_verification_copy_ids (jobs d) = ∅ →
  to_observed_state (observe_bundle d target) = OBSERVED_PRESENT →
  t_rows (members (cat d)) !! i = Some m → bm_bundle_id m = target →
  policies (cat d) !! bm_artifactclass m = Some policy →
  hash_archive_evidence_exists (cat d) (bm_logical_asset_hash m) = true.
Proof.
  intros Hb Hs Hpend Hobs Hm Hbm Hpol. apply archive_evidence_iff.
  exists i, m, b, policy. rewrite Hbm. split_and!; try done.
  unfold observe_bundle in Hobs. rewrite Hb, decide_False in Hobs by auto.
  unfold bundle_desired_and_floor in Hobs.
  pose proof (member_class_listed (cat d) target b i m Hm Hbm) as Hcls.
  destruct (bundle_artifactclasses (cat d) target b) as [|c cs] eqn:Ec; [set_solver|].
  case_decide; [done|]. cbn [observation_for_bundle to_observed_state] in Hobs.
  case_bool; [|done]. split_bools. apply floor_satisfied_spec in H2 as [Hc _ _ _].
  transitivity (fl_min_copies (strictest_floor (floor_for_class (cat d) <$> c :: cs))).
  { destruct (strictest_floor_ge (floor_for_class (cat d) <$> c :: cs)
      (floor_for_class (cat d) (bm_artifactclass m))) as [Hge _].
    { apply list_elem_of_fmap. eauto. }
    unfold floor_for_class in Hge at 1. by rewrite Hpol in Hge. }
  etransitivity; [exact Hc|]. apply inj_le, length_filter_union_le; [apply NoDup_realized|].
  intros key Hkey. apply elem_of_realized in Hkey.
  unfold reconciler_aggregate in Hkey. rewrite decide_True in Hkey by done.
  rewrite (go_counts _ _ _ (bundle_aggregate_ok (cat d) target true)) in Hkey.
  apply count_positive in Hkey as ([j x] & Hin & Hp). exists (j, x). split; [|done].
  rewrite elem_of_sort_by in Hin. unfold bundle_copy_rows in Hin. cbn [durable_placements].
  rewrite elem_of_filter_tbl in *. destruct Hin as [Hin Hrow]. split; [|done]. split_bools.
  rewrite !andb_true_iff. split_and!; try done. by apply bool_decide_eq_true.
Qed.
