(* ===== verification/JsonText.v ===== *)
(** * Canonical JSON text

    [json.dumps(value, sort_keys=True, separators=(",", ":"))], as [catalog/session.py] uses it for
    the locator key and [bundle_group.py] for the fingerprint text: keys sorted at every level,
    no spaces, ASCII-escaped strings.  The text is a list of characters; [json_dumps] raises on
    bytes.  The main lemma is that the text determines the value up to the order of keys. *)

From Stdlib Require Import Ascii Decimal DecimalFacts DecimalZ.
From S2P Require Import Prelude Json.

Abbreviation text := (list ascii) (only parsing).

(** ** Characters and strings *)

Definition QUOTE : ascii := ascii_of_nat 34.
Definition BACKSLASH : ascii := ascii_of_nat 92.

Definition hex_digit (n : nat) : ascii := ascii_of_nat (if (n <? 10)%nat then 48 + n else 87 + n).

(** The encoder's table: quotes, backslashes and everything outside the printable ASCII range.  A character
    here is a code point below 256; Python escapes a code point above that with its four digits, or with
    two escapes of a surrogate pair.  The texts the theorems speak of are identifiers, pool names and
    policy tokens, for which the restriction to ASCII is the intended reading. *)
Definition escape_char (c : ascii) : text :=
  let n := nat_of_ascii c in
  if (n =? 34)%nat then [BACKSLASH; QUOTE]
  else if (n =? 92)%nat then [BACKSLASH; BACKSLASH]
  else if (n =? 10)%nat then [BACKSLASH; "n"%char]
  else if (n =? 13)%nat then [BACKSLASH; "r"%char]
  else if (n =? 9)%nat then [BACKSLASH; "t"%char]
  else if (n =? 12)%nat then [BACKSLASH; "f"%char]
  else if (n =? 8)%nat then [BACKSLASH; "b"%char]
  else if ((32 <=? n) && (n <=? 126))%nat then [c]
  else [BACKSLASH; "u"%char; "0"%char; "0"%char; hex_digit (n / 16); hex_digit (n mod 16)].

(** The characters of a string and its closing quote. *)
Fixpoint escape_text (s : text) : text :=
  match s with
  | [] => [QUOTE]
  | c :: s => escape_char c ++ escape_text s
  end.

Definition string_text (s : string) : text := QUOTE :: escape_text (String.list_ascii_of_string s).

(** ** Numbers *)

Fixpoint uint_text (d : uint) : text :=
  match d with
  | Nil => []
  | D0 d => "0"%char :: uint_text d
  | D1 d => "1"%char :: uint_text d
  | D2 d => "2"%char :: uint_text d
  | D3 d => "3"%char :: uint_text d
  | D4 d => "4"%char :: uint_text d
  | D5 d => "5"%char :: uint_text d
  | D6 d => "6"%char :: uint_text d
  | D7 d => "7"%char :: uint_text d
  | D8 d => "8"%char :: uint_text d
  | D9 d => "9"%char :: uint_text d
  end.

Definition int_text (n : Z) : text :=
  match Z.to_int n with
  | Pos d => uint_text d
  | Neg d => "-"%char :: uint_text d
  end.

(** ** Values *)

Section seq.
Context {A : Type} (f : A → text) (close : ascii).

Fixpoint seq_tail (l : list A) : text :=
  match l with
  | [] => [close]
  | x :: l => ","%char :: f x ++ seq_tail l
  end.

Definition seq_text (l : list A) : text :=
  match l with
  | [] => [close]
  | x :: l => f x ++ seq_tail l
  end.
End seq.

(** Bytes have no JSON text; [json_dumps] never asks for it. *)
Fixpoint json_text (j : json) : text :=
  match j with
  | JNull => ["n"; "u"; "l"; "l"]%char
  | JBool true => ["t"; "r"; "u"; "e"]%char
  | JBool false => ["f"; "a"; "l"; "s"; "e"]%char
  | JInt n => int_text n
  | JStr s => string_text s
  | JBytes s => "b"%char :: string_text s
  | JList l => "["%char :: seq_text json_text "]"%char l
  | JObj d => "{"%char :: seq_text (λ kv, string_text kv.1 ++ ":"%char :: json_text kv.2) "}"%char d
  end.

(** [sort_keys=True] at every level. *)
Fixpoint canon (j : json) : json :=
  match j with
  | JList l => JList (map canon l)
  | JObj d => JObj (sort_by fst (map (λ kv, (kv.1, canon kv.2)) d))
  | _ => j
  end.

Fixpoint has_bytes (j : json) : bool :=
  match j with
  | JBytes _ => true
  | JList l => existsb has_bytes l
  | JObj d => existsb (λ kv, has_bytes kv.2) d
  | _ => false
  end.

(** [None] is the [TypeError] for bytes. *)
Definition json_dumps (j : json) : option string :=
  if has_bytes j then None else Some (String.string_of_list_ascii (json_text (canon j))).

(** [locator_key] of [catalog/session.py]; locators are JSON columns, so they hold no bytes. *)
Definition locator_key (locator : dict json) : string :=
  default "" (json_dumps (JObj locator)).

(** ** The text determines the value *)

Definition unescape (s : text) : option (ascii * text) :=
  match s with
  | c :: s' =>
      if Ascii.eqb c BACKSLASH then
        match s' with
        | e :: r =>
            if Ascii.eqb e "n" then Some (ascii_of_nat 10, r)
            else if Ascii.eqb e "r" then Some (ascii_of_nat 13, r)
            else if Ascii.eqb e "t" then Some (ascii_of_nat 9, r)
            else if Ascii.eqb e "f" then Some (ascii_of_nat 12, r)
            else if Ascii.eqb e "b" then Some (ascii_of_nat 8, r)
            else if Ascii.eqb e "u" then
              match r with
              | _ :: _ :: h :: l :: r =>
                  let v x := let n := nat_of_ascii x in if (n <? 58)%nat then (n - 48)%nat else (n - 87)%nat in
                  Some (ascii_of_nat (16 * v h + v l), r)
              | _ => None
              end
            else Some (e, r)
        | [] => None
        end
      else Some (c, s')
  | [] => None
  end.

Lemma unescape_escape c s : unescape (escape_char c ++ s) = Some (c, s).
Proof. destruct c as [[] [] [] [] [] [] [] []]; reflexivity. Qed.

Lemma escape_char_head c s t : escape_char c ++ s ≠ QUOTE :: t.
Proof. destruct c as [[] [] [] [] [] [] [] []]; discriminate. Qed.

Lemma escape_text_inj s1 s2 t1 t2 :
  escape_text s1 ++ t1 = escape_text s2 ++ t2 → s1 = s2 ∧ t1 = t2.
Proof.
  revert s2. induction s1 as [|c1 s1 IH]; intros [|c2 s2]; cbn [escape_text].
  - cbn. intros [= ->]. done.
  - rewrite <- app_assoc. intros H. symmetry in H. by apply escape_char_head in H.
  - rewrite <- app_assoc. intros H. by apply escape_char_head in H.
  - rewrite <- !app_assoc. intros H. apply (f_equal unescape) in H.
    rewrite !unescape_escape in H. injection H as -> H. apply IH in H as [-> ->]. done.
Qed.

Lemma list_ascii_inj s1 s2 :
  String.list_ascii_of_string s1 = String.list_ascii_of_string s2 → s1 = s2.
Proof.
  intros H. rewrite <- (String.string_of_list_ascii_of_string s1), H.
  apply String.string_of_list_ascii_of_string.
Qed.

Lemma string_text_inj s1 s2 t1 t2 :
  string_text s1 ++ t1 = string_text s2 ++ t2 → s1 = s2 ∧ t1 = t2.
Proof.
  unfold string_text. cbn. intros [= H]. apply escape_text_inj in H as [H ->].
  split; [by apply list_ascii_inj|done].
Qed.

(** What may follow a value: no character of a number. *)
Definition number_char (c : ascii) : bool :=
  let n := nat_of_ascii c in ((48 <=? n) && (n <=? 57) || (n =? 45))%nat.

Definition follow (s : text) : Prop :=
  match s with c :: _ => number_char c = false | [] => True end.

Lemma uint_text_inj d1 d2 t1 t2 :
  follow t1 → follow t2 → uint_text d1 ++ t1 = uint_text d2 ++ t2 → d1 = d2 ∧ t1 = t2.
Proof.
  intros F1 F2. revert d2. induction d1; intros d2 H; destruct d2; cbn in H;
    try (injection H as H; apply IHd1 in H as [-> ->]; done); try discriminate;
    try (by subst; cbn in F1, F2); done.
Qed.

Lemma to_int_inj n m : Z.to_int n = Z.to_int m → n = m.
Proof. intros H. rewrite <- (DecimalZ.of_to n), <- (DecimalZ.of_to m). by rewrite H. Qed.

Lemma int_text_inj n m t1 t2 :
  follow t1 → follow t2 → int_text n ++ t1 = int_text m ++ t2 → n = m ∧ t1 = t2.
Proof.
  intros F1 F2. unfold int_text. pose proof (to_int_inj n m) as Hinj.
  destruct (Z.to_int n) as [d1|d1], (Z.to_int m) as [d2|d2]; cbn; intros H.
  - apply uint_text_inj in H as [-> ->]; auto.
  - exfalso. destruct d1; cbn in H; try discriminate. subst. done.
  - exfalso. destruct d2; cbn in H; try discriminate. subst. done.
  - injection H as H. apply uint_text_inj in H as [-> ->]; auto.
Qed.

Definition value_inj {A} (f : A → text) (x : A) : Prop :=
  ∀ y t1 t2, follow t1 → follow t2 → f x ++ t1 = f y ++ t2 → x = y ∧ t1 = t2.

Section seq_inj.
Context {A : Type} (f : A → text) (close : ascii).
Context (Hclose : number_char close = false) (Hcomma : close ≠ ","%char).
Context (Hhead : ∀ x t1 t2, f x ++ t1 ≠ close :: t2).

Lemma follow_seq_tail l t : follow (seq_tail f close l ++ t).
Proof. by destruct l. Qed.

Lemma seq_tail_inj l1 l2 t1 t2 :
  Forall (value_inj f) l1 →
  seq_tail f close l1 ++ t1 = seq_tail f close l2 ++ t2 → l1 = l2 ∧ t1 = t2.
Proof.
  intros Hall. revert l2. induction Hall as [|x l1 Hx _ IH]; intros [|y l2]; cbn; intros H.
  - by injection H as ->.
  - injection H as H _. done.
  - injection H as H _. done.
  - injection H as H. rewrite <- !app_assoc in H.
    apply Hx in H as [-> H]; [|apply follow_seq_tail..]. apply IH in H as [-> ->]. done.
Qed.

Lemma seq_text_inj l1 l2 t1 t2 :
  Forall (value_inj f) l1 →
  seq_text f close l1 ++ t1 = seq_text f close l2 ++ t2 → l1 = l2 ∧ t1 = t2.
Proof.
  intros Hall. destruct Hall as [|x l1 Hx Hall], l2 as [|y l2]; cbn; intros H.
  - by injection H as ->.
  - rewrite <- app_assoc in H. symmetry in H. by apply Hhead in H.
  - rewrite <- app_assoc in H. by apply Hhead in H.
  - rewrite <- !app_assoc in H. apply Hx in H as [-> H]; [|apply follow_seq_tail..].
    apply seq_tail_inj in H as [-> ->]; done.
Qed.
End seq_inj.

(** Structural induction through lists and dictionaries. *)
Lemma json_rect' (P : json → Prop) :
  P JNull → (∀ b, P (JBool b)) → (∀ n, P (JInt n)) → (∀ s, P (JStr s)) → (∀ s, P (JBytes s)) →
  (∀ l, Forall P l → P (JList l)) → (∀ d, Forall (λ kv, P kv.2) d → P (JObj d)) →
  ∀ j, P j.
Proof.
  intros Hn Hb Hi Hs Hy Hl Ho. fix IH 1.
  intros [|b|n|s|s|l|d]; [exact Hn|apply Hb|apply Hi|apply Hs|apply Hy| |].
  - apply Hl. induction l as [|x l IHl]; constructor; [apply IH|apply IHl].
  - apply Ho. induction d as [|[k v] d IHd]; constructor; [apply IH|apply IHd].
Qed.

(** The first character tells the constructors apart. *)
Inductive head_kind := HNull | HTrue | HFalse | HNum | HStr | HBytes | HList | HObj | HOther.

Definition head_kind_of (c : ascii) : head_kind :=
  if number_char c then HNum
  else if Ascii.eqb c "n" then HNull
  else if Ascii.eqb c "t" then HTrue
  else if Ascii.eqb c "f" then HFalse
  else if Ascii.eqb c QUOTE then HStr
  else if Ascii.eqb c "b" then HBytes
  else if Ascii.eqb c "[" then HList
  else if Ascii.eqb c "{" then HObj
  else HOther.

Definition kind_of (j : json) : head_kind :=
  match j with
  | JNull => HNull | JBool true => HTrue | JBool false => HFalse | JInt _ => HNum
  | JStr _ => HStr | JBytes _ => HBytes | JList _ => HList | JObj _ => HObj
  end.

Lemma uint_text_head d : d ≠ Nil → ∃ c t, uint_text d = c :: t ∧ number_char c = true.
Proof. intros Hd. destruct d; [done|..]; cbn; eauto. Qed.

Lemma to_int_nonnil n : match Z.to_int n with Pos d => d ≠ Nil | Neg _ => True end.
Proof.
  destruct n as [|p|p]; cbn; [done| |done]. apply DecimalPos.Unsigned.to_uint_nonnil.
Qed.

Lemma json_text_head j : ∃ c t, json_text j = c :: t ∧ head_kind_of c = kind_of j.
Proof.
  destruct j as [|[]|n|s|s|l|d]; cbn; eauto.
  unfold int_text. pose proof (to_int_nonnil n) as Hn.
  destruct (Z.to_int n) as [d|d]; [|by eexists _, _].
  apply uint_text_head in Hn as (c & t & -> & Hc). exists c, t. split; [done|].
  unfold head_kind_of. by rewrite Hc.
Qed.

Lemma json_text_kind j1 j2 t1 t2 :
  json_text j1 ++ t1 = json_text j2 ++ t2 → kind_of j1 = kind_of j2.
Proof.
  destruct (json_text_head j1) as (c1 & r1 & -> & <-), (json_text_head j2) as (c2 & r2 & -> & <-).
  cbn. by intros [= -> _].
Qed.

Lemma json_text_inj j : value_inj json_text j.
Proof.
  induction j as [|b|n|s|s|l IH|d IH] using json_rect'; intros y t1 t2 F1 F2 H;
    pose proof (json_text_kind _ _ _ _ H) as Hk;
    destruct y as [|b'|n'|s'|s'|l'|d']; try (by destruct b); try (by destruct b'); try done;
    cbn [json_text] in H.
  - by injection H as ->.
  - destruct b, b'; try done; by injection H as ->.
  - apply int_text_inj in H as [-> ->]; done.
  - apply string_text_inj in H as [-> ->]; done.
  - apply (f_equal tail) in H. cbn [tail app] in H. apply string_text_inj in H as [-> ->]; done.
  - injection H as H. apply seq_text_inj in H as [-> ->]; try done.
    intros x u1 u2 Hx. destruct (json_text_head x) as (c & r & E & Hc). rewrite E in Hx.
    injection Hx as -> _. destruct x as [|[]| | | | |]; done.
  - injection H as H. apply seq_text_inj in H as [-> ->]; try done.
    eapply Forall_impl; [exact IH|]. intros [k v] Hv [k' v'] u1 u2 G1 G2 Hkv. cbn in *.
    rewrite <- !app_assoc in Hkv. apply string_text_inj in Hkv as [-> Hkv]. cbn in Hkv.
    injection Hkv as Hkv. apply Hv in Hkv as [-> ->]; done.
Qed.

(** The canonical text determines the canonical value. *)
Lemma json_dumps_inj j1 j2 s :
  json_dumps j1 = Some s → json_dumps j2 = Some s → canon j1 = canon j2.
Proof.
  unfold json_dumps. do 2 (case_bool; [done|]). intros [= <-] [= H].
  apply (f_equal String.list_ascii_of_string) in H.
  rewrite !String.list_ascii_of_string_of_list_ascii in H.
  eapply (json_text_inj _ _ [] []); [done..|]. by rewrite !app_nil_r.
Qed.

(** ** Dictionaries *)

Definition canon_items (d : dict json) : list (string * json) := map (λ kv, (kv.1, canon kv.2)) d.

Lemma canon_items_keys d : (canon_items d).*1 = dkeys d.
Proof. unfold canon_items, dkeys. induction d as [|[k v] d IH]; cbn; [done|]. by f_equal. Qed.

Lemma dget_canon_items k d : dget k (canon_items d) = canon <$> dget k d.
Proof. induction d as [|[k' v] d IH]; cbn; [done|]. by case_decide. Qed.

Lemma canon_items_perm d1 d2 :
  NoDup (dkeys d1) → NoDup (dkeys d2) → (∀ k, canon <$> dget k d1 = canon <$> dget k d2) →
  canon_items d1 ≡ₚ canon_items d2.
Proof.
  intros N1 N2 H. apply NoDup_Permutation.
  - eapply NoDup_fmap_1. by rewrite canon_items_keys.
  - eapply NoDup_fmap_1. by rewrite canon_items_keys.
  - intros [k v]. split; intros Hin.
    + apply dget_Some_elem. rewrite dget_canon_items, <- H, <- dget_canon_items.
      apply elem_dget; [by rewrite <- canon_items_keys in N1|done].
    + apply dget_Some_elem. rewrite dget_canon_items, H, <- dget_canon_items.
      apply elem_dget; [by rewrite <- canon_items_keys in N2|done].
Qed.

Lemma locator_key_eq d1 d2 :
  has_bytes (JObj d1) = false → has_bytes (JObj d2) = false →
  locator_key d1 = locator_key d2 ↔ canon (JObj d1) = canon (JObj d2).
Proof.
  intros B1 B2. unfold locator_key.
  assert (E1 : ∃ s, json_dumps (JObj d1) = Some s) by (unfold json_dumps; rewrite B1; eauto).
  assert (E2 : ∃ s, json_dumps (JObj d2) = Some s) by (unfold json_dumps; rewrite B2; eauto).
  destruct E1 as [s1 E1], E2 as [s2 E2]. rewrite E1, E2. cbn -[canon]. split.
  - intros ->. by eapply json_dumps_inj.
  - intros Hc. unfold json_dumps in *. rewrite B1 in E1. rewrite B2 in E2. congruence.
Qed.

(** The locator key is an identity of locators: two JSON locators have the same key exactly when
    they hold the same members, whatever order their keys are stored in (at any depth). *)
Lemma locator_key_canonical d1 d2 :
  has_bytes (JObj d1) = false → has_bytes (JObj d2) = false →
  NoDup (dkeys d1) → NoDup (dkeys d2) →
  locator_key d1 = locator_key d2 ↔ ∀ k, canon <$> dget k d1 = canon <$> dget k d2.
Proof.
  intros B1 B2 N1 N2. rewrite locator_key_eq by done. cbn [canon].
  fold (canon_items d1) (canon_items d2). split.
  - intros [= H] k. rewrite <- !dget_canon_items.
    assert (Hp : canon_items d1 ≡ₚ canon_items d2)
      by (rewrite <- (sort_by_perm fst (canon_items d1)), H; apply sort_by_perm).
    rewrite <- canon_items_keys in N1, N2.
    destruct (dget k (canon_items d1)) as [v|] eqn:E.
    + symmetry. apply elem_dget; [done|]. rewrite <- Hp. by apply dget_Some_elem.
    + symmetry. apply dget_None. apply dget_None in E. unfold dkeys in *. by rewrite <- Hp.
  - intros H. f_equal. apply sort_by_canonical; [by apply canon_items_perm|].
    intros [k v] [k' v'] Hx Hy Hk. cbn in Hk. subst k'. f_equal.
    rewrite <- canon_items_keys in N1.
    pose proof (elem_dget _ _ _ N1 Hx) as Ex. pose proof (elem_dget _ _ _ N1 Hy) as Ey. congruence.
Qed.
