(* ===== verification/Copies.v ===== *)
(** * Copy rows and their evidence

    [catalog/copies.py], the one funnel that creates copy rows, and [evidence_recorder.py], the one
    writer of the measurement columns with its receipts.  A copy row is identified by its id; its
    locator key is unique per backend. *)

From stdpp Require Import pretty.
From S2P Require Import Prelude Json JsonText JobModels Catalog Leases RetryConfig Conditions.
From S2P Require Import Engine Durability.

Inductive CatalogError :=
  | NotContentHash
  | UnknownLogicalAsset
  | UnknownBundle
  | CopyPoolMismatch
  | BadSource
  | EmptyExecutionId
  | NotMeasured
  | MeasuredPromotion
  | FailedPromotion
  | ReceiptWithoutJob
  | NoSuchCopy.

#[export] Instance CatalogError_eq_dec : EqDecision CatalogError.
Proof. solve_decision. Defined.

(** ** Copy rows *)

(** The row of [(backend_id, native_locator_key)]. *)
Definition find_copy (k : Cat) (backend_id : Z) (key : string) : option copy_entry :=
  head (filter (λ ic, cp_backend_id ic.2 = backend_id ∧ cp_native_locator_key ic.2 = key)
          (tbl_list (copies k))).

Definition require_logical_asset (k : Cat) (h : bytes) : result CatalogError LogicalAsset :=
  if is_content_hash h then
    match assets k !! h with
    | Some a => Ok a
    | None => Err UnknownLogicalAsset
    end
  else Err NotContentHash.

(** The columns both funnels set; no check or measurement is claimed. *)
Record CopySpec := {
  cs_backend_id : Z;
  cs_pool_id : option string;
  cs_native_locator : dict json;
  cs_integrity_hash : bytes;
  cs_source : CopySource;
  cs_health : CopyHealth;
  cs_provenance : IntegrityHashProvenance;
  cs_storage_metadata : dict json;
  cs_first_observed_at : option time;
}.

Definition new_copy (asset : option bytes) (bundle : option string) (s : CopySpec) (now : time)
    : Copy := {|
  cp_logical_asset_hash := asset; cp_bundle_id := bundle; cp_backend_id := cs_backend_id s;
  cp_pool_id := cs_pool_id s; cp_native_locator := cs_native_locator s;
  cp_native_locator_key := locator_key (cs_native_locator s);
  cp_storage_metadata := cs_storage_metadata s; cp_integrity_hash := cs_integrity_hash s;
  cp_integrity_hash_provenance := cs_provenance s; cp_health := cs_health s;
  cp_last_checked_at := None; cp_last_measured_digest := None; cp_last_measured_at := None;
  cp_deleted_at := None; cp_first_observed_at := or_else (cs_first_observed_at s) now;
  cp_source := cs_source s |}.

Definition insert_copy (k : Cat) (c : Copy) : Cat * copy_entry :=
  let '(t, id) := tbl_insert c (copies k) in (with_copies t k, (id, c)).

Definition add_copy (k : Cat) (asset_hash : bytes) (s : CopySpec) (now : time)
    : result CatalogError (Cat * copy_entry * bool) :=
  _ ← require_logical_asset k asset_hash;
  match find_copy k (cs_backend_id s) (locator_key (cs_native_locator s)) with
  | Some (id, c) =>
      match cs_pool_id s with
      | Some p => _ ← raise_if (negb (bool_decide (cp_pool_id c = Some p))) CopyPoolMismatch;
                  Ok (k, (id, c), false)
      | None => Ok (k, (id, c), false)
      end
  | None =>
      let '(k, ic) := insert_copy k (new_copy (Some asset_hash) None s now) in Ok (k, ic, true)
  end.

(** A bundle copy always names its pool. *)
Definition add_bundle_copy (k : Cat) (bundle_id pool_id : string) (s : CopySpec) (now : time)
    : result CatalogError (Cat * copy_entry * bool) :=
  _ ← raise_if (bool_decide (bundles k !! bundle_id = None)) UnknownBundle;
  match find_copy k (cs_backend_id s) (locator_key (cs_native_locator s)) with
  | Some (id, c) =>
      _ ← raise_if (negb (bool_decide (cp_bundle_id c = Some bundle_id))) CopyPoolMismatch;
      _ ← raise_if (negb (bool_decide (cp_pool_id c = Some pool_id))) CopyPoolMismatch;
      Ok (k, (id, c), false)
  | None =>
      let s := {| cs_backend_id := cs_backend_id s; cs_pool_id := Some pool_id;
                  cs_native_locator := cs_native_locator s;
                  cs_integrity_hash := cs_integrity_hash s; cs_source := cs_source s;
                  cs_health := cs_health s; cs_provenance := cs_provenance s;
                  cs_storage_metadata := cs_storage_metadata s;
                  cs_first_observed_at := cs_first_observed_at s |} in
      let '(k, ic) := insert_copy k (new_copy None (Some bundle_id) s now) in Ok (k, ic, true)
  end.

Record CopyLookup := {
  lk_locator : dict json;
  lk_integrity_hash : bytes;
  lk_health : CopyHealth;
  lk_backend : string;
}.

Definition lookup_by_hash (k : Cat) (content : bytes) : result CatalogError (list CopyLookup) :=
  _ ← require_logical_asset k content;
  Ok ((λ ic, {| lk_locator := cp_native_locator ic.2; lk_integrity_hash := cp_integrity_hash ic.2;
                lk_health := cp_health ic.2;
                lk_backend := match backends k !! cp_backend_id ic.2 with
                              | Some b => be_name b | None => "" end |})
      <$> filter (λ ic, cp_logical_asset_hash ic.2 = Some content) (tbl_list (copies k))).

(** ** Evidence *)

Record VerifyResult := {
  vf_ok : bool;
  vf_measured : bool;
  vf_actual_hash : option bytes;
  vf_detail : string;
}.

Definition MEASUREMENT_SOURCES : list string := ["fanout"; "verify-job"; "restore"].
Definition RECEIPT_SOURCES : list string := MEASUREMENT_SOURCES ++ ["scrub"].

(** The columns an evidence writer sets. *)
Definition set_evidence (c : Copy) (h : CopyHealth) (checked : time) (digest : option bytes)
    (measured_at : option time) : Copy := {|
  cp_logical_asset_hash := cp_logical_asset_hash c; cp_bundle_id := cp_bundle_id c;
  cp_backend_id := cp_backend_id c; cp_pool_id := cp_pool_id c;
  cp_native_locator := cp_native_locator c; cp_native_locator_key := cp_native_locator_key c;
  cp_storage_metadata := cp_storage_metadata c; cp_integrity_hash := cp_integrity_hash c;
  cp_integrity_hash_provenance := cp_integrity_hash_provenance c; cp_health := h;
  cp_last_checked_at := Some checked; cp_last_measured_digest := digest;
  cp_last_measured_at := measured_at; cp_deleted_at := cp_deleted_at c;
  cp_first_observed_at := cp_first_observed_at c; cp_source := cp_source c |}.

Definition receipt_for_execution (k : Cat) (copy_id : Z) (source execution_id : string)
    : option (Z * VerifyReceipt) :=
  head (filter (λ ir, vr_copy_id ir.2 = copy_id ∧ vr_source ir.2 = source ∧
                      vr_execution_id ir.2 = execution_id) (tbl_list (receipts k))).

Definition insert_receipt (r : VerifyReceipt) (k : Cat) : Cat * (Z * VerifyReceipt) :=
  let '(t, id) := tbl_insert r (receipts k) in (with_receipts t k, (id, r)).

Definition detail_or_none (s : string) : option string := if decide (s = "") then None else Some s.

Section evidence.
Context (producer_process : string).

(** The verdict of one read-back: the health it gives and the failure it records. *)
Definition measured_verdict (c : Copy) (digest : bytes) (ok : bool)
    : CopyHealth * option string :=
  if decide (digest ≠ cp_integrity_hash c) then (CORRUPT, Some "digest-mismatch")
  else if negb ok then (SUSPECT, Some "backend-failure")
  else if bool_decide (cp_logical_asset_hash c ≠ None) &&
          bool_decide (cp_logical_asset_hash c ≠ Some (cp_integrity_hash c)) &&
          bool_decide (cp_integrity_hash_provenance c ≠ LOCALLY_COMPUTED)
  then (SUSPECT, Some "identity-unproven")
  else (HEALTH_OK, None).

Definition record_measured (k : Cat) (copy_id : Z) (r : VerifyResult) (source execution_id : string)
    (actor : option string) (measured_at : time) : result CatalogError (Cat * (Z * VerifyReceipt)) :=
  _ ← raise_if (negb (bool_decide (source ∈ MEASUREMENT_SOURCES))) BadSource;
  _ ← raise_if (bool_decide (execution_id = "")) EmptyExecutionId;
  match vf_measured r, vf_actual_hash r with
  | true, Some digest =>
      _ ← raise_if (negb (is_content_hash digest)) NotContentHash;
      match receipt_for_execution k copy_id source execution_id with
      | Some receipt => Ok (k, receipt)
      | None =>
          match t_rows (copies k) !! copy_id with
          | None => Err NoSuchCopy
          | Some c =>
              let '(h, failure) := measured_verdict c digest (vf_ok r) in
              let k := with_copies (tbl_put copy_id
                         (set_evidence c h measured_at (Some digest) (Some measured_at))
                         (copies k)) k in
              Ok (insert_receipt
                    {| vr_copy_id := copy_id; vr_backend_id := cp_backend_id c;
                       vr_expected_digest := cp_integrity_hash c;
                       vr_measured_digest := Some digest; vr_backend_ok := vf_ok r;
                       vr_failure_kind := failure;
                       vr_failure_detail := detail_or_none (vf_detail r); vr_source := source;
                       vr_execution_id := execution_id; vr_producer_process := producer_process;
                       vr_actor := actor; vr_at := measured_at |} k)
          end
      end
  | _, _ => Err NotMeasured
  end.

Definition remeasure_key (copy_id : Z) : string := "verify:remeasure:" +:+ pretty copy_id.

Definition verify_spec (copy_id : Z) (key : string) : SubmitSpec := {|
  sb_kind := "verify"; sb_params := [("copy_id", JInt copy_id)]; sb_required_resources := [];
  sb_prerequisites := []; sb_not_before := None; sb_priority := 0; sb_dedupe_key := Some key;
  sb_recon_domain := None; sb_recon_target_key := None |}.

(** [_verify_job_for_copy]: the latest job under the key, live or not. *)
Definition verify_job_for_copy (db : JobDB) (copy_id : Z) : option (Z * Job) :=
  last (sort_by fst (filter (λ ij, dedupe_key ij.2 = Some (remeasure_key copy_id)) (job_rows db))).

Definition record_unmeasured_promotion (d : Database) (copy_id : Z) (r : VerifyResult)
    (source execution_id : string) (actor : option string) (checked_at : time)
    : result CatalogError (Database * (Z * VerifyReceipt) * Z) :=
  _ ← raise_if (negb (bool_decide (source ∈ RECEIPT_SOURCES))) BadSource;
  _ ← raise_if (bool_decide (execution_id = "")) EmptyExecutionId;
  _ ← raise_if (vf_measured r) MeasuredPromotion;
  _ ← raise_if (negb (vf_ok r)) FailedPromotion;
  match receipt_for_execution (cat d) copy_id source execution_id with
  | Some receipt =>
      match verify_job_for_copy (jobs d) copy_id with
      | None => Err ReceiptWithoutJob
      | Some (job, _) => Ok (d, receipt, job)
      end
  | None =>
      match t_rows (copies (cat d)) !! copy_id with
      | None => Err NoSuchCopy
      | Some c =>
          let k := with_copies (tbl_put copy_id (set_evidence c HEALTH_OK checked_at None None)
                                  (copies (cat d))) (cat d) in
          let '(k, receipt) := insert_receipt
            {| vr_copy_id := copy_id; vr_backend_id := cp_backend_id c;
               vr_expected_digest := cp_integrity_hash c; vr_measured_digest := None;
               vr_backend_ok := true; vr_failure_kind := Some "measurement-invalidated";
               vr_failure_detail := detail_or_none (vf_detail r); vr_source := source;
               vr_execution_id := execution_id; vr_producer_process := producer_process;
               vr_actor := actor; vr_at := checked_at |} k in
          let '(db, job) := submit1 (jobs d) (verify_spec copy_id (remeasure_key copy_id))
                              checked_at in
          Ok ({| cat := k; jobs := db |}, receipt, job)
      end
  end.
End evidence.

Arguments remeasure_key : simpl never.
Arguments locator_key : simpl never.
