(* ===== verification/CopiesFacts.v ===== *)
(** * Correctness of copy creation and of the evidence recorder *)

From S2P Require Import Prelude Json JsonText JobModels Catalog Leases RetryConfig Conditions.
From S2P Require Import Engine EngineFacts Durability DurabilityFacts Copies.

(** The unique constraint [uq_copy_backend_locator]. *)
Definition copies_unique (k : Cat) : Prop :=
  ∀ i i' c c', t_rows (copies k) !! i = Some c → t_rows (copies k) !! i' = Some c' →
    cp_backend_id c = cp_backend_id c' → cp_native_locator_key c = cp_native_locator_key c' → i = i'.

(** One receipt per copy, source and execution. *)
Definition receipts_unique (k : Cat) : Prop :=
  ∀ i i' r r', t_rows (receipts k) !! i = Some r → t_rows (receipts k) !! i' = Some r' →
    vr_copy_id r = vr_copy_id r' → vr_source r = vr_source r' →
    vr_execution_id r = vr_execution_id r' → i = i'.

(** ** Unique rows found by a query *)

Lemma head_filter_None {V} (P : Z * V → Prop) `{∀ x, Decision (P x)} (t : Tbl V) :
  head (filter P (tbl_list t)) = None ↔ ∀ i v, t_rows t !! i = Some v → ¬ P (i, v).
Proof.
  assert (Hh : head (filter P (tbl_list t)) = None ↔ filter P (tbl_list t) = [])
    by by destruct (filter P (tbl_list t)).
  rewrite Hh, filter_nil_iff. split.
  - intros Hn i v Hv. apply Hn. by apply elem_of_tbl_list.
  - intros Hn [i v] Hin. apply elem_of_tbl_list in Hin. auto.
Qed.

Lemma head_filter_Some {V} (P : Z * V → Prop) `{∀ x, Decision (P x)} (t : Tbl V) i v :
  head (filter P (tbl_list t)) = Some (i, v) → P (i, v) ∧ t_rows t !! i = Some v.
Proof.
  intros Hh. assert (Hin : (i, v) ∈ filter P (tbl_list t)).
  { destruct (filter P (tbl_list t)); [done|]. cbn in Hh. simplify_eq. left. }
  by apply elem_of_filter_tbl in Hin.
Qed.

Lemma head_filter_unique {V} (P : Z * V → Prop) `{∀ x, Decision (P x)} (t : Tbl V) i v :
  t_rows t !! i = Some v → P (i, v) →
  (∀ i' v', t_rows t !! i' = Some v' → P (i', v') → i' = i) →
  head (filter P (tbl_list t)) = Some (i, v).
Proof.
  intros Hv HP Hu. destruct (head (filter P (tbl_list t))) as [[i' v']|] eqn:E.
  - apply head_filter_Some in E as [HP' Hv']. assert (i' = i) as -> by eauto. congruence.
  - exfalso. by eapply head_filter_None in E.
Qed.

Lemma find_copy_unique k i c :
  copies_unique k → t_rows (copies k) !! i = Some c →
  find_copy k (cp_backend_id c) (cp_native_locator_key c) = Some (i, c).
Proof.
  intros Hu Hc. apply head_filter_unique; [done|done|]. intros i' c' Hc' [Hb Hk]. eauto.
Qed.

Lemma insert_copy_unique k c :
  tbl_ok (copies k) → copies_unique k →
  find_copy k (cp_backend_id c) (cp_native_locator_key c) = None →
  copies_unique (insert_copy k c).1.
Proof.
  intros Hok Hu Hn i i' x x'. cbn. rewrite !lookup_insert.
  unfold find_copy in Hn. rewrite head_filter_None in Hn.
  repeat case_decide; intros; simplify_eq; try done; eauto; exfalso; (eapply Hn; [eassumption|]); cbn; split; congruence.
Qed.

(** Copy creation is idempotent on (backend, locator).  It keeps the unique constraint; when the
    row existed nothing is written, when it did not a new row is added with no check or
    measurement claimed and every other row kept; and repeating the call returns the same row and
    writes nothing. *)
Lemma add_copy_idempotent k h s now k' id c created :
  tbl_ok (copies k) → copies_unique k → add_copy k h s now = Ok (k', (id, c), created) →
  copies_unique k' ∧ t_rows (copies k') !! id = Some c ∧
  (if created then measured c = false ∧ cp_last_checked_at c = None ∧
                   t_rows (copies k) !! id = None ∧
                   ∀ i, i ≠ id → t_rows (copies k') !! i = t_rows (copies k) !! i
   else k' = k) ∧
  ∀ now', add_copy k' h s now' = Ok (k', (id, c), false).
Proof.
  intros Hok Hu H. unfold add_copy in H. apply bind_Ok in H as (a & Ha & H).
  destruct (find_copy k (cs_backend_id s) (locator_key (cs_native_locator s))) as [[i x]|] eqn:E.
  - assert (Hres : k' = k ∧ i = id ∧ x = c ∧ created = false ∧
              (∀ p, cs_pool_id s = Some p → cp_pool_id x = Some p)).
    { destruct (cs_pool_id s) as [p|]; inv_ok; simplify_eq; split_and!; try done.
      intros p' [= <-]. split_bools. done. }
    destruct Hres as (-> & -> & -> & -> & Hp).
    pose proof E as E0. apply head_filter_Some in E0 as [_ Hrow].
    split_and!; [done|done|done|]. intros now'. unfold add_copy. rewrite Ha. cbn. rewrite E.
    destruct (cs_pool_id s) as [p|]; [|done]. rewrite bool_decide_eq_true_2 by auto. done.
  - cbn in H. simplify_eq.
    assert (Hu' := insert_copy_unique k (new_copy (Some h) None s now) Hok Hu E). cbn in Hu'.
    assert (Hrow : t_rows (copies (with_copies (tbl_insert (new_copy (Some h) None s now)
              (copies k)).1 k)) !! t_next (copies k) = Some (new_copy (Some h) None s now))
      by (cbn; by rewrite lookup_insert_eq).
    split_and!; [done|done|done|done|by apply tbl_fresh|intros; cbn; by rewrite lookup_insert_ne|].
    intros now'. unfold add_copy. unfold require_logical_asset in *. cbn [assets with_copies].
    rewrite Ha. cbn [mbind result_bind].
    pose proof (find_copy_unique _ _ _ Hu' Hrow) as Hf. cbn [cp_backend_id cp_native_locator_key
      new_copy] in Hf. cbn in Hf |- *. rewrite Hf. destruct (cs_pool_id s) as [p|] eqn:Ep; [|done].
    cbn. rewrite Ep, bool_decide_eq_true_2 by done. done.
Qed.

(** ** Measurements *)

(** The identity of a copy is proven when its stored digest is the asset's own hash, was computed
    here, or names a bundle. *)
Definition identity_proven (c : Copy) : Prop :=
  cp_logical_asset_hash c = None ∨ cp_logical_asset_hash c = Some (cp_integrity_hash c) ∨
  cp_integrity_hash_provenance c = LOCALLY_COMPUTED.

Lemma measured_verdict_ok c digest ok :
  (measured_verdict c digest ok).1 = HEALTH_OK ↔
  digest = cp_integrity_hash c ∧ ok = true ∧ identity_proven c.
Proof.
  unfold measured_verdict, identity_proven. case_decide as Hd; [naive_solver|].
  destruct ok; cbn; [|naive_solver].
  repeat (rewrite bool_decide_decide); repeat case_decide; cbn; naive_solver.
Qed.

Lemma receipt_unique_found k i r :
  receipts_unique k → t_rows (receipts k) !! i = Some r →
  receipt_for_execution k (vr_copy_id r) (vr_source r) (vr_execution_id r) = Some (i, r).
Proof.
  intros Hu Hr. apply head_filter_unique; [done|done|]. intros i' r' Hr' (H1 & H2 & H3). eauto.
Qed.

Lemma insert_receipt_unique k r :
  tbl_ok (receipts k) → receipts_unique k →
  receipt_for_execution k (vr_copy_id r) (vr_source r) (vr_execution_id r) = None →
  receipts_unique (insert_receipt r k).1.
Proof.
  intros Hok Hu Hn i i' x x'. cbn. rewrite !lookup_insert.
  unfold receipt_for_execution in Hn. rewrite head_filter_None in Hn.
  repeat case_decide; intros; simplify_eq; try done; eauto;
    exfalso; (eapply Hn; [eassumption|]); cbn; split_and!; congruence.
Qed.

(** C19: one read-back.  The recorder, called with an execution id it has no receipt for, updates only
    the copy it measured and appends one receipt of that copy with the expected and measured digests,
    under a fresh id and with every earlier receipt kept.  Afterwards the copy counts as a verified durable placement
    exactly when the bytes hashed to the recorded digest, the backend reported success, the row is
    not deleted and its identity is proven; a digest that differs makes it corrupt.  Replaying the
    execution id, with any other reading, returns the same receipt and changes nothing. *)
Theorem record_measured_sound producer k id r source exec actor at_time k' rid rc c digest :
  tbl_ok (receipts k) → receipts_unique k →
  record_measured producer k id r source exec actor at_time = Ok (k', (rid, rc)) →
  receipt_for_execution k id source exec = None →
  t_rows (copies k) !! id = Some c → vf_actual_hash r = Some digest →
  receipts_unique k' ∧ t_rows (receipts k) !! rid = None ∧
  t_rows (receipts k') = <[rid := rc]> (t_rows (receipts k)) ∧ vr_copy_id rc = id ∧
  vr_expected_digest rc = cp_integrity_hash c ∧ vr_measured_digest rc = Some digest ∧
  (∀ i, i ≠ id → t_rows (copies k') !! i = t_rows (copies k) !! i) ∧
  (∃ c', t_rows (copies k') !! id = Some c' ∧ cp_integrity_hash c' = cp_integrity_hash c ∧
     (copy_health_filter true c' = true ↔
        digest = cp_integrity_hash c ∧ vf_ok r = true ∧ cp_deleted_at c = None ∧ identity_proven c) ∧
     (cp_health c' = CORRUPT ↔ digest ≠ cp_integrity_hash c)) ∧
  (∀ r' actor' at', vf_measured r' = true →
     (∃ x, vf_actual_hash r' = Some x ∧ is_content_hash x = true) →
     record_measured producer k' id r' source exec actor' at' = Ok (k', (rid, rc))).
Proof.
  intros Hok Hu H Hnone Hc Hdig. unfold record_measured in H.
  apply bind_Ok in H as (? & Hsrc & H). apply bind_Ok in H as (? & Hexec & H).
  rewrite Hdig in H.
  destruct (vf_measured r) eqn:Em; [|done]. inv_ok. rewrite Hnone, Hc in H.
  destruct (measured_verdict c digest (vf_ok r)) as [h failure] eqn:Ev.
  set (rc0 := {| vr_copy_id := id |}) in H.
  set (c' := set_evidence c h at_time (Some digest) (Some at_time)) in H.
  set (k1 := with_copies (tbl_put id c' (copies k)) k) in H.
  injection H as <- <- <-.
  assert (Hu' : receipts_unique (insert_receipt rc0 k1).1) by by apply insert_receipt_unique.
  assert (Hr : t_rows (receipts (insert_receipt rc0 k1).1) !! t_next (receipts k) = Some rc0)
    by (cbn; by rewrite lookup_insert_eq).
  assert (Hfree : t_rows (receipts k) !! t_next (receipts k) = None).
  { apply eq_None_not_Some. intros [y Hy%Hok]. lia. }
  split_and!; [done|exact Hfree|done|done|done|done| | |].
  - intros i Hi. cbn. by rewrite lookup_insert_ne.
  - exists c'. split; [cbn; by rewrite lookup_insert_eq|]. split; [done|].
    pose proof (measured_verdict_ok c digest (vf_ok r)) as Hv. rewrite Ev in Hv. cbn in Hv.
    split.
    + rewrite copy_health_filter_spec. cbn. rewrite Hv. naive_solver.
    + cbn. unfold measured_verdict in Ev. case_decide; [naive_solver|].
      repeat case_bool; naive_solver.
  - intros r' actor' at' Hm' (y & Hy & Hlen). unfold record_measured.
    rewrite Hsrc. cbn [mbind result_bind]. rewrite Hexec. cbn [mbind result_bind].
    rewrite Hm', Hy, Hlen.
    cbn [negb mbind result_bind raise_if].
    pose proof (receipt_unique_found _ _ _ Hu' Hr) as Hf. cbn [vr_copy_id vr_source vr_execution_id rc0] in Hf.
    cbn in Hf |- *. by rewrite Hf.
Qed.

(** ** Promotions without a measurement *)

(** A trust-only promotion never manufactures evidence: the copy it makes healthy again loses
    its measurement, so it stops counting as verified, and in the same transaction one live
    verification job exists for it; the copy's identity columns and every other copy are
    untouched. *)
Lemma promotion_invalidates producer d id r source exec actor at_time d' rc job c :
  job_index_ok (jobs d) →
  record_unmeasured_promotion producer d id r source exec actor at_time = Ok (d', rc, job) →
  receipt_for_execution (cat d) id source exec = None →
  t_rows (copies (cat d)) !! id = Some c →
  (∃ c', t_rows (copies (cat d')) !! id = Some c' ∧ cp_health c' = HEALTH_OK ∧ measured c' = false ∧
     copy_health_filter true c' = false ∧ cp_integrity_hash c' = cp_integrity_hash c ∧
     cp_logical_asset_hash c' = cp_logical_asset_hash c) ∧
  (∀ i, i ≠ id → t_rows (copies (cat d')) !! i = t_rows (copies (cat d)) !! i) ∧
  (∃ j, job_tbl (jobs d') !! job = Some j ∧ live (status j) = true ∧
        dedupe_key j = Some (remeasure_key id)) ∧
  vf_measured r = false ∧ vf_ok r = true.
Proof.
  intros Hix H Hnone Hc. unfold record_unmeasured_promotion in H. inv_ok.
  rewrite Hnone, Hc in H. cbn [insert_receipt tbl_insert] in H.
  destruct (submit1 (jobs d) _ at_time) as [db jid] eqn:Es. simplify_eq. cbn.
  split_and!.
  - eexists. rewrite lookup_insert_eq. split; [done|]. split_and!; try done.
    unfold copy_health_filter. apply andb_false_r.
  - intros i Hi. by rewrite lookup_insert_ne.
  - unfold submit1, submit in Es. cbn in Es.
    destruct (live_job_for_dedupe (jobs d) (remeasure_key id)) as [[i j]|] eqn:El.
    + simplify_eq. apply live_job_Some in El as (? & ? & ?). eauto.
    + injection Es as <- <-. exists (new_job (verify_spec id (remeasure_key id)) at_time).
      cbn. by rewrite lookup_insert_eq.
  - done.
  - by apply negb_false_iff.
Qed.
