(* ===== verification/Scrub.v ===== *)
(** * The reconciliation scrub

    [scrub.py]: the catalog rows of one backend are reconciled with what the backend enumerates.
    The enumeration is the list of records the backend yields; the up-front snapshot maps a locator
    key to the id of its row, so a row reached through it is the session's current one.  Warnings
    are kept as their kind and subject. *)

From stdpp Require Import pretty.
From Stdlib Require Import Ascii.
From S2P Require Import Prelude Json JsonText JobModels Catalog Leases RetryConfig Conditions.
From S2P Require Import Engine Durability Copies.

(** [CopyRecord] of [backend/port.py]. *)
Record CopyRecord := {
  cr_logical_id : bytes;
  cr_native_locator : dict json;
  cr_integrity_hash : bytes;
  cr_size_bytes : Z;
  cr_metadata : dict json;
}.

Inductive ScrubError :=
  | InvalidPoolId
  | UnknownPoolId
  | PoolOfOtherBackend
  | RecordRepresentationMismatch
  | BadPoolRepresentation
  | CopyInOtherPool
  | CopyRepresentationMismatch
  | CatalogFailure (e : CatalogError).

Inductive IntegrityWarning :=
  | StoredHashDiffers (copy_id : Z)
  | LogicalIdDiffers (locator : string).

Record ScrubReport := {
  rp_backend_name : string;
  rp_assets_added : Z;
  rp_copies_added : Z;
  rp_copies_updated : Z;
  rp_copies_marked_missing : Z;
  rp_unknown_objects : Z;
  rp_unknown_object_locators : list string;
  rp_integrity_warnings : list IntegrityWarning;
}.

Definition new_report (name : string) : ScrubReport := {|
  rp_backend_name := name; rp_assets_added := 0; rp_copies_added := 0; rp_copies_updated := 0;
  rp_copies_marked_missing := 0; rp_unknown_objects := 0; rp_unknown_object_locators := [];
  rp_integrity_warnings := [] |}.

Definition total_observed (r : ScrubReport) : Z := rp_copies_added r + rp_copies_updated r.

Definition bump (r : ScrubReport) (assets added updated missing : Z)
    (warnings : list IntegrityWarning) : ScrubReport := {|
  rp_backend_name := rp_backend_name r; rp_assets_added := rp_assets_added r + assets;
  rp_copies_added := rp_copies_added r + added;
  rp_copies_updated := rp_copies_updated r + updated;
  rp_copies_marked_missing := rp_copies_marked_missing r + missing;
  rp_unknown_objects := rp_unknown_objects r;
  rp_unknown_object_locators := rp_unknown_object_locators r;
  rp_integrity_warnings := rp_integrity_warnings r ++ warnings |}.

Definition bump_unknown (r : ScrubReport) (key : string) : ScrubReport := {|
  rp_backend_name := rp_backend_name r; rp_assets_added := rp_assets_added r;
  rp_copies_added := rp_copies_added r; rp_copies_updated := rp_copies_updated r;
  rp_copies_marked_missing := rp_copies_marked_missing r;
  rp_unknown_objects := rp_unknown_objects r + 1;
  rp_unknown_object_locators :=
    if (length (rp_unknown_object_locators r) <? 20)%nat
    then rp_unknown_object_locators r ++ [key] else rp_unknown_object_locators r;
  rp_integrity_warnings := rp_integrity_warnings r |}.

(** ** Strings *)

Definition lower_char (c : ascii) : ascii :=
  let n := nat_of_ascii c in
  if ((65 <=? n) && (n <=? 90) || ((192 <=? n) && (n <=? 222) && negb (n =? 215)))%nat
  then ascii_of_nat (n + 32) else c.

Definition lower (s : string) : string :=
  String.string_of_list_ascii (lower_char <$> String.list_ascii_of_string s).

Definition endswith (suffix s : string) : bool :=
  let n := String.length suffix in let m := String.length s in
  (n <=? m)%nat && String.eqb (String.substring (m - n) n s) suffix.

Fixpoint split_on (sep : ascii) (s : string) : list string :=
  match s with
  | EmptyString => [""]
  | String c s =>
      let parts := split_on sep s in
      if Ascii.eqb c sep then "" :: parts
      else match parts with
           | [] => [String c ""]
           | p :: parts => String c p :: parts
           end
  end.

(** [sep not in s] *)
Fixpoint lacks (sep : ascii) (s : string) : bool :=
  match s with
  | EmptyString => true
  | String c s => negb (Ascii.eqb c sep) && lacks sep s
  end.

(** [PurePosixPath(value).name] *)
Definition posix_name (s : string) : string :=
  default "" (last (filter (λ p, p ≠ "" ∧ p ≠ ".") (split_on "/" s))).

(** ** Record classification *)

Definition record_string (r : CopyRecord) (key : string) : option string :=
  let value := match dget key (cr_metadata r) with
               | None | Some JNull => dget key (cr_native_locator r)
               | v => v
               end in
  match value with
  | Some (JStr s) => if decide (s = "") then None else Some s
  | _ => None
  end.

Definition is_archive_body_format (value : string) : bool :=
  let n := lower value in
  bool_decide (n ∈ ["sutradhara-local-archive-v1"; "sutradhara-archive-bundle-v1";
                    "rem-archive-v1"; "rem-object-archive-v1"; "rao-archive-v1"]) ||
  existsb (λ p, String.prefix p n) ["rem-archive-"; "rem-object-archive-"; "rao-archive-"].

Definition looks_like_bundle_container_name (value : string) : bool :=
  existsb (λ suffix, endswith suffix (posix_name value))
    ["-rem-object-v1.rem-object"; "-rem-encrypt-v1.rem-object"; "-rao-plain-v1.rao";
     "-rao-aead-v1.rao"; "-d2tar-raw.tar"; "-rem-object-v1.sra"; "-rem-encrypt-v1.sra";
     "-rao-plain-v1.sra"; "-rao-aead-v1.sra"; "-d2tar-raw.sra"].

Definition is_recognizable_bundle_container (r : CopyRecord) : bool :=
  match record_string r "body_format" with
  | Some f => is_archive_body_format f
  | None => false
  end ||
  existsb (λ key, match record_string r key with
                  | Some v => looks_like_bundle_container_name v
                  | None => false
                  end) ["caller_object_id"; "key"; "artifact_name"; "object_id"; "path"].

(** [_health_for_record] with the warning it appends. *)
Definition health_for_record (r : CopyRecord) : CopyHealth * list IntegrityWarning :=
  if decide (cr_logical_id r = cr_integrity_hash r) then (HEALTH_OK, [])
  else (SUSPECT, [LogicalIdDiffers (locator_key (cr_native_locator r))]).

Definition pool_for_record (k : Cat) (backend_id : Z) (r : CopyRecord)
    : result ScrubError (option (string * Pool)) :=
  match dget "pool_id" (cr_native_locator r) with
  | None | Some JNull => Ok None
  | Some (JStr p) =>
      if decide (p = "") then Ok None
      else match pools k !! p with
           | None => Err UnknownPoolId
           | Some pl =>
               if decide (pl_backend_id pl ≠ backend_id) then Err PoolOfOtherBackend
               else Ok (Some (p, pl))
           end
  | Some _ => Err InvalidPoolId
  end.

Definition REM_OBJECT_CHUNK_SIZE : Z := 262144.

Definition storage_metadata_for_record (r : CopyRecord) (pool : option (string * Pool))
    : result ScrubError (dict json) :=
  let metadata := cr_metadata r in
  match pool with
  | None => Ok metadata
  | Some (_, pl) =>
      let mismatch := match dget "representation" metadata with
                      | None | Some JNull => false
                      | Some (JStr o) => negb (bool_decide (o = pl_representation pl))
                      | Some _ => true
                      end in
      _ ← raise_if mismatch RecordRepresentationMismatch;
      _ ← raise_if (negb (bool_decide (pl_representation pl ∈ REPRESENTATIONS)))
            BadPoolRepresentation;
      let metadata := dset "representation" (JStr (pl_representation pl)) metadata in
      if bool_decide (pl_representation pl ∈ ["rem-object-v1"; "rem-encrypt-v1"])
      then Ok (match dget "chunk_size" metadata with
               | Some _ => metadata
               | None => dset "chunk_size" (JInt REM_OBJECT_CHUNK_SIZE) metadata
               end)
      else Ok metadata
  end.

Definition representation_matches (c : Copy) (pl : Pool) : bool :=
  match dget "representation" (cp_storage_metadata c) with
  | Some (JStr o) => bool_decide (o = pl_representation pl)
  | _ => false
  end.

(** ** Row updates *)

Definition set_health (c : Copy) (h : CopyHealth) : Copy := {|
  cp_logical_asset_hash := cp_logical_asset_hash c; cp_bundle_id := cp_bundle_id c;
  cp_backend_id := cp_backend_id c; cp_pool_id := cp_pool_id c;
  cp_native_locator := cp_native_locator c; cp_native_locator_key := cp_native_locator_key c;
  cp_storage_metadata := cp_storage_metadata c; cp_integrity_hash := cp_integrity_hash c;
  cp_integrity_hash_provenance := cp_integrity_hash_provenance c; cp_health := h;
  cp_last_checked_at := cp_last_checked_at c;
  cp_last_measured_digest := cp_last_measured_digest c;
  cp_last_measured_at := cp_last_measured_at c; cp_deleted_at := cp_deleted_at c;
  cp_first_observed_at := cp_first_observed_at c; cp_source := cp_source c |}.

Definition set_checked (c : Copy) (now : time) : Copy :=
  {| cp_logical_asset_hash := cp_logical_asset_hash c; cp_bundle_id := cp_bundle_id c;
     cp_backend_id := cp_backend_id c; cp_pool_id := cp_pool_id c;
     cp_native_locator := cp_native_locator c; cp_native_locator_key := cp_native_locator_key c;
     cp_storage_metadata := cp_storage_metadata c; cp_integrity_hash := cp_integrity_hash c;
     cp_integrity_hash_provenance := cp_integrity_hash_provenance c; cp_health := cp_health c;
     cp_last_checked_at := Some now; cp_last_measured_digest := cp_last_measured_digest c;
     cp_last_measured_at := cp_last_measured_at c; cp_deleted_at := cp_deleted_at c;
     cp_first_observed_at := cp_first_observed_at c; cp_source := cp_source c |}.

Section scrub.
Context (producer_process : string).

Definition lift {A} (r : result CatalogError A) : result ScrubError A :=
  match r with Ok a => Ok a | Err e => Err (CatalogFailure e) end.

Definition promote (d : Database) (id : Z) (detail run_id : string) (now : time)
    : result ScrubError Database :=
  '(d, _, _) ← lift (record_unmeasured_promotion producer_process d id
                       {| vf_ok := true; vf_measured := false; vf_actual_hash := None;
                          vf_detail := detail |} "scrub" run_id None now);
  Ok d.

Definition update_existing_copy (d : Database) (id : Z) (c : Copy) (r : CopyRecord)
    (record_health : CopyHealth) (pool : option (string * Pool)) (now : time) (run_id : string)
    (report : ScrubReport) : result ScrubError (Database * ScrubReport) :=
  _ ← match pool with
      | None => Ok tt
      | Some (p, pl) =>
          _ ← raise_if (negb (bool_decide (cp_pool_id c = Some p))) CopyInOtherPool;
          raise_if (negb (representation_matches c pl)) CopyRepresentationMismatch
      end;
  let c := set_checked c now in
  let d := set_copy id c d in
  let updated := bump report 0 0 1 0 [] in
  if decide (cp_integrity_hash c ≠ cr_integrity_hash r) then
    Ok (set_copy id (set_health c SUSPECT) d, bump report 0 0 1 0 [StoredHashDiffers id])
  else if bool_decide (cp_health c = MISSING) && bool_decide (record_health = HEALTH_OK) then
    d ← promote d id "scrub rediscovery" run_id now; Ok (d, updated)
  else if decide (cp_health c = MISSING) then
    Ok (set_copy id (set_health c record_health) d, updated)
  else if decide (record_health = SUSPECT) then
    Ok (set_copy id (set_health c SUSPECT) d, updated)
  else if bool_decide (cp_health c = SUSPECT) && bool_decide (record_health = HEALTH_OK) then
    d ← promote d id "scrub enumerate refresh" run_id now; Ok (d, updated)
  else Ok (d, updated).

Definition add_asset (h : bytes) (size : Z) (now : time) (d : Database) : Database :=
  with_cat (λ k, with_assets (<[h := {| la_size_bytes := size; la_first_seen_at := now |}]>
                                (assets k)) k) d.

Definition verify_copy_key (copy_id : Z) : string := "verify:copy:" +:+ pretty copy_id.

Definition scrub_copy_spec (backend_id : Z) (r : CopyRecord) (pool : option (string * Pool))
    (metadata : dict json) (h : CopyHealth) (now : time) : CopySpec := {|
  cs_backend_id := backend_id; cs_pool_id := fst <$> pool;
  cs_native_locator := cr_native_locator r; cs_integrity_hash := cr_integrity_hash r;
  cs_source := SCRUB; cs_health := h; cs_provenance := BACKEND_DISCOVERED;
  cs_storage_metadata := metadata; cs_first_observed_at := Some now |}.

(** The tail of [_ingest_record]: the asset exists, record the copy. *)
Definition ingest_copy (d : Database) (backend_id : Z) (r : CopyRecord)
    (pool : option (string * Pool)) (metadata : dict json) (h : CopyHealth) (now : time)
    (report : ScrubReport) : result ScrubError (Database * ScrubReport) :=
  '(k, (id, c), created) ← lift (add_copy (cat d) (cr_logical_id r)
                                   (scrub_copy_spec backend_id r pool metadata h now) now);
  if created : bool then
    let d := set_copy id (set_checked c now) {| cat := k; jobs := jobs d |} in
    let db := (submit1 (jobs d) (verify_spec id (verify_copy_key id)) now).1 in
    Ok (with_jobdb db d, bump report 0 1 0 0 [])
  else Ok ({| cat := k; jobs := jobs d |}, report).

Definition ingest_record (d : Database) (backend_id : Z) (catalog_copies : gmap string Z)
    (r : CopyRecord) (now : time) (run_id : string) (report : ScrubReport)
    : result ScrubError (Database * gmap string Z * ScrubReport) :=
  let key := locator_key (cr_native_locator r) in
  let existing := catalog_copies !! key in
  let rest := delete key catalog_copies in
  let '(h, warnings) := health_for_record r in
  let report := bump report 0 0 0 0 warnings in
  pool ← pool_for_record (cat d) backend_id r;
  metadata ← storage_metadata_for_record r pool;
  match existing with
  | Some id =>
      match copy_row id d with
      | Some c =>
          '(d, report) ← update_existing_copy d id c r h pool now run_id report;
          Ok (d, rest, report)
      | None => Ok (d, rest, report)
      end
  | None =>
      match assets (cat d) !! cr_logical_id r with
      | Some _ =>
          '(d, report) ← ingest_copy d backend_id r pool metadata h now report;
          Ok (d, rest, report)
      | None =>
          if is_recognizable_bundle_container r then Ok (d, rest, bump_unknown report key)
          else
            let d := add_asset (cr_logical_id r) (cr_size_bytes r) now d in
            '(d, report) ← ingest_copy d backend_id r pool metadata h now (bump report 1 0 0 0 []);
            Ok (d, rest, report)
      end
  end.

Fixpoint ingest_records (d : Database) (backend_id : Z) (catalog_copies : gmap string Z)
    (rs : list CopyRecord) (now : time) (run_id : string) (report : ScrubReport)
    : result ScrubError (Database * gmap string Z * ScrubReport) :=
  match rs with
  | [] => Ok (d, catalog_copies, report)
  | r :: rs =>
      '(d, cc, report) ← ingest_record d backend_id catalog_copies r now run_id report;
      ingest_records d backend_id cc rs now run_id report
  end.

(** The stranded rows, in the order of the snapshot. *)
Definition mark_missing (st : Database * ScrubReport) (id : Z) : Database * ScrubReport :=
  match copy_row id st.1 with
  | Some c =>
      if decide (cp_health c = MISSING) then st
      else (set_copy id (set_health c MISSING) st.1, bump st.2 0 0 0 1 [])
  | None => st
  end.

Definition snapshot (k : Cat) (backend_id : Z) : gmap string Z :=
  list_to_map ((λ ic, (cp_native_locator_key ic.2, ic.1)) <$>
    filter (λ ic, cp_backend_id ic.2 = backend_id) (tbl_list (copies k))).

Definition scrub_backend (d : Database) (backend_id : Z) (name : string) (enumeration : list CopyRecord)
    (now : time) (run_id : string) : result ScrubError (Database * ScrubReport) :=
  '(d, stranded, report) ← ingest_records d backend_id (snapshot (cat d) backend_id) enumeration
                             now run_id (new_report name);
  Ok (foldl mark_missing (d, report) (map_to_list stranded).*2).
End scrub.
