(* ===== verification/ScrubFacts.v ===== *)
(** * Correctness of the reconciliation scrub *)

From S2P Require Import Prelude Json JsonText JobModels Catalog Leases RetryConfig Conditions.
From S2P Require Import Engine EngineFacts Durability DurabilityFacts Copies CopiesFacts Scrub.

Abbreviation copy_rows d := (t_rows (copies (cat d))).

(** The columns that make a copy row the same row. *)
Record same_copy (c c' : Copy) : Prop := {
  sc_asset : cp_logical_asset_hash c' = cp_logical_asset_hash c;
  sc_bundle : cp_bundle_id c' = cp_bundle_id c;
  sc_backend : cp_backend_id c' = cp_backend_id c;
  sc_pool : cp_pool_id c' = cp_pool_id c;
  sc_key : cp_native_locator_key c' = cp_native_locator_key c;
  sc_integrity : cp_integrity_hash c' = cp_integrity_hash c;
  sc_provenance : cp_integrity_hash_provenance c' = cp_integrity_hash_provenance c;
  sc_deleted : cp_deleted_at c' = cp_deleted_at c;
  sc_source : cp_source c' = cp_source c;
}.

Lemma same_copy_refl c : same_copy c c.
Proof. by constructor. Qed.

Lemma same_copy_trans c1 c2 c3 : same_copy c1 c2 → same_copy c2 c3 → same_copy c1 c3.
Proof. intros [] []. constructor; congruence. Qed.

(** What a scrub of backend [b] may do to the copy table. *)
Record scrub_rel (b : Z) (d d' : Database) : Prop := {
  sr_old : ∀ i c, copy_rows d !! i = Some c → ∃ c', copy_rows d' !! i = Some c' ∧
    same_copy c c' ∧ (measured c' = true → measured c = true) ∧ (cp_backend_id c ≠ b → c' = c);
  sr_new : ∀ i c', copy_rows d' !! i = Some c' → copy_rows d !! i = None →
    measured c' = false ∧ cp_backend_id c' = b ∧
    cp_integrity_hash_provenance c' = BACKEND_DISCOVERED ∧ cp_source c' = SCRUB;
  sr_ok : tbl_ok (copies (cat d)) → tbl_ok (copies (cat d'));
}.

Lemma scrub_rel_same b d d' : copies (cat d') = copies (cat d) → scrub_rel b d d'.
Proof.
  intros Hc. constructor; rewrite Hc.
  - intros i c Hi. exists c. split_and!; auto using same_copy_refl.
  - congruence.
  - done.
Qed.

Lemma scrub_rel_trans b d1 d2 d3 : scrub_rel b d1 d2 → scrub_rel b d2 d3 → scrub_rel b d1 d3.
Proof.
  intros [O1 N1 K1] [O2 N2 K2]. constructor; [| |auto].
  - intros i c Hc. destruct (O1 i c Hc) as (c2 & Hc2 & S1 & M1 & B1).
    destruct (O2 i c2 Hc2) as (c3 & Hc3 & S2 & M2 & B2). exists c3.
    split_and!; [done|by eapply same_copy_trans|auto|].
    intros Hb. rewrite <- (B1 Hb). apply B2. by rewrite (sc_backend _ _ S1).
  - intros i c3 Hc3 Hn. destruct (copy_rows d2 !! i) as [c2|] eqn:E; [|by apply (N2 i)].
    destruct (N1 i c2 E Hn) as (M & B & P & S). destruct (O2 i c2 E) as (c3' & Hc3' & Sc & M2 & _).
    simplify_eq. rewrite (sc_backend _ _ Sc), (sc_provenance _ _ Sc), (sc_source _ _ Sc).
    split_and!; try done. apply not_true_iff_false. intros H. apply M2 in H. congruence.
Qed.

Lemma scrub_rel_put b d id c c' :
  copy_rows d !! id = Some c → cp_backend_id c = b → same_copy c c' →
  (measured c' = true → measured c = true) → scrub_rel b d (set_copy id c' d).
Proof.
  intros Hc Hb Hs Hm. constructor; cbn.
  - intros i x Hx. rewrite lookup_insert. case_decide as E.
    + subst i. simplify_eq. exists c'. done.
    + exists x. split_and!; auto using same_copy_refl.
  - intros i x. rewrite lookup_insert. case_decide; congruence.
  - intros Hok. by eapply tbl_put_ok.
Qed.

Section scrub.
Context (producer : string).

Lemma promote_rel b d id detail run_id now d' c :
  promote producer d id detail run_id now = Ok d' →
  copy_rows d !! id = Some c → cp_backend_id c = b → scrub_rel b d d'.
Proof.
  unfold promote. intros ([[d1 ?] ?] & H & Heq)%bind_Ok Hc Hb. injection Heq as <-.
  unfold lift in H. destruct (record_unmeasured_promotion _ _ _ _ _ _ _ _) as [x|] eqn:E; [|done].
  injection H as ->. unfold record_unmeasured_promotion in E. inv_ok.
  destruct (receipt_for_execution (cat d) id "scrub" run_id).
  { destruct (verify_job_for_copy (jobs d) id) as [[? ?]|]; simplify_eq. by apply scrub_rel_same. }
  rewrite Hc in E. cbn [insert_receipt tbl_insert] in E.
  destruct (submit1 _ _ _). simplify_eq.
  pose proof (scrub_rel_put (cp_backend_id c) d id c (set_evidence c HEALTH_OK now None None)
    Hc eq_refl) as Hput. destruct Hput as [O N K]; [by constructor|done|]. constructor; done.
Qed.

Lemma update_existing_rel b d id c r h pool now run_id rep d' rep' :
  update_existing_copy producer d id c r h pool now run_id rep = Ok (d', rep') →
  copy_rows d !! id = Some c → cp_backend_id c = b → scrub_rel b d d'.
Proof.
  unfold update_existing_copy. intros (? & _ & H)%bind_Ok Hc Hb. cbn zeta in H.
  assert (H0 : scrub_rel b d (set_copy id (set_checked c now) d))
    by (eapply scrub_rel_put; [done|done|by constructor|done]).
  assert (Hc0 : copy_rows (set_copy id (set_checked c now) d) !! id = Some (set_checked c now))
    by (cbn; by rewrite lookup_insert_eq).
  assert (Hset : ∀ h', scrub_rel b d (set_copy id (set_health (set_checked c now) h')
                                       (set_copy id (set_checked c now) d))).
  { intros h'. eapply scrub_rel_trans; [exact H0|].
    eapply scrub_rel_put; [exact Hc0|done|by constructor|done]. }
  assert (Hpro : ∀ detail, promote producer (set_copy id (set_checked c now) d) id detail run_id now
                             ≫= (λ x, Ok (x, bump rep 0 0 1 0 [])) = Ok (d', rep') →
                 scrub_rel b d d').
  { intros detail (d1 & Hp & Heq)%bind_Ok. injection Heq as <- _.
    eapply scrub_rel_trans; [exact H0|]. by eapply promote_rel. }
  case_decide; [simplify_eq; apply Hset|]. case_bool; [by eapply Hpro|].
  case_decide; [simplify_eq; apply Hset|]. case_decide; [simplify_eq; apply Hset|].
  case_bool; [by eapply Hpro|]. by simplify_eq.
Qed.

Lemma ingest_copy_rel b d r pool md h now rep d' rep' :
  ingest_copy d b r pool md h now rep = Ok (d', rep') → tbl_ok (copies (cat d)) →
  scrub_rel b d d'.
Proof.
  unfold ingest_copy. intros ([[k [id c]] created] & H & Heq)%bind_Ok Hok.
  unfold lift in H. destruct (add_copy _ _ _ _) as [x|] eqn:E; [|done]. injection H as ->.
  unfold add_copy in E. apply bind_Ok in E as (? & _ & E).
  destruct (find_copy _ _ _) as [[i0 x0]|].
  - assert (Hs : k = cat d ∧ created = false).
    { destruct (cs_pool_id _); inv_ok; by simplify_eq. }
    destruct Hs as [-> ->]. simplify_eq. by apply scrub_rel_same.
  - cbn in E. simplify_eq. constructor; cbn.
    + intros i y Hy. rewrite !lookup_insert_ne; [|intros <-; rewrite tbl_fresh in Hy; done..].
      exists y. split_and!; auto using same_copy_refl.
    + intros i y. rewrite lookup_insert. case_decide as Ei; [by intros [= <-]|].
      rewrite lookup_insert_ne by done. congruence.
    + intros _ i y. cbn. rewrite lookup_insert.
      case_decide as Ei; [intros _; lia|]. rewrite lookup_insert_ne by done. intros Hy.
      apply Hok in Hy. lia.
Qed.

(** The snapshot points at rows of the backend under their own keys. *)
Definition snapshot_ok (b : Z) (d : Database) (cc : gmap string Z) : Prop :=
  ∀ key id, cc !! key = Some id → ∃ c, copy_rows d !! id = Some c ∧ cp_backend_id c = b ∧
                                       cp_native_locator_key c = key.

Lemma snapshot_ok_rel b d d' cc : scrub_rel b d d' → snapshot_ok b d cc → snapshot_ok b d' cc.
Proof.
  intros [O _ _] Hs key id Hk. destruct (Hs key id Hk) as (c & Hc & Hb & Hkey).
  destruct (O id c Hc) as (c' & Hc' & Sc & _). exists c'.
  rewrite (sc_backend _ _ Sc), (sc_key _ _ Sc). done.
Qed.

Lemma ingest_record_rel b d cc r now run_id rep d' cc' rep' :
  ingest_record producer d b cc r now run_id rep = Ok (d', cc', rep') →
  snapshot_ok b d cc → tbl_ok (copies (cat d)) →
  scrub_rel b d d' ∧ cc' = delete (locator_key (cr_native_locator r)) cc.
Proof.
  unfold ingest_record. destruct (health_for_record r) as [h ws]. intros H Hs Hok.
  apply bind_Ok in H as (pool & _ & H). apply bind_Ok in H as (md & _ & H).
  destruct (cc !! locator_key (cr_native_locator r)) as [id|] eqn:Ek.
  - destruct (Hs _ _ Ek) as (c & Hc & Hb & _). unfold copy_row in H. rewrite Hc in H.
    apply bind_Ok in H as ([d1 rep1] & Hu & H). simplify_eq. split; [|done].
    by eapply update_existing_rel.
  - destruct (assets (cat d) !! cr_logical_id r) eqn:Ea.
    + apply bind_Ok in H as ([d1 rep1] & Hu & H). simplify_eq. split; [|done].
      by eapply ingest_copy_rel.
    + case_bool; [simplify_eq; split; [by apply scrub_rel_same|done]|].
      apply bind_Ok in H as ([d1 rep1] & Hu & H). simplify_eq. split; [|done].
      eapply scrub_rel_trans; [by apply (scrub_rel_same b d (add_asset (cr_logical_id r) (cr_size_bytes r) now d))|].
      by eapply ingest_copy_rel.
Qed.

Lemma ingest_records_rel b rs d cc now run_id rep d' cc' rep' :
  ingest_records producer d b cc rs now run_id rep = Ok (d', cc', rep') →
  snapshot_ok b d cc → tbl_ok (copies (cat d)) →
  scrub_rel b d d' ∧
  ∀ key, cc' !! key = if decide (key ∈ (λ r, locator_key (cr_native_locator r)) <$> rs)
                      then None else cc !! key.
Proof.
  revert d cc rep. induction rs as [|r rs IH]; intros d cc rep H Hs Hok; cbn in H.
  { simplify_eq. split; [by apply scrub_rel_same|]. intros key. by rewrite decide_False by set_solver. }
  apply bind_Ok in H as ([[d1 cc1] rep1] & H1 & H).
  destruct (ingest_record_rel _ _ _ _ _ _ _ _ _ _ H1 Hs Hok) as [R1 ->].
  apply IH in H as [R2 Hk].
  - split; [by eapply scrub_rel_trans|]. intros key. rewrite Hk, fmap_cons.
    destruct (decide (key = locator_key (cr_native_locator r))) as [->|Hne].
    + rewrite lookup_delete_eq. by repeat case_decide; set_solver.
    + rewrite lookup_delete_ne by done. repeat case_decide; set_solver.
  - intros key id. rewrite lookup_delete_Some. intros [_ Hkey].
    by eapply snapshot_ok_rel in Hkey.
  - by apply (sr_ok _ _ _ R1).
Qed.

(** ** The stranded rows *)

Lemma mark_missing_row st id i :
  copy_rows (mark_missing st id).1 !! i =
  if decide (i = id) then (λ c, if decide (cp_health c = MISSING) then c else set_health c MISSING)
                            <$> copy_rows st.1 !! id
  else copy_rows st.1 !! i.
Proof.
  unfold mark_missing, copy_row. destruct (copy_rows st.1 !! id) as [c|] eqn:E.
  - case_decide as Hm.
    + case_decide; [|done]. subst i. rewrite E. cbn. by rewrite decide_True.
    + cbn. rewrite lookup_insert. destruct (decide (id = i)) as [->|Hne].
      * rewrite decide_True by done. by rewrite decide_False.
      * by rewrite decide_False by auto.
  - case_decide; [|done]. by subst i; rewrite E.
Qed.

Lemma foldl_mark_missing_rows ids st i :
  copy_rows (foldl mark_missing st ids).1 !! i =
  if decide (i ∈ ids) then (λ c, if decide (cp_health c = MISSING) then c else set_health c MISSING)
                             <$> copy_rows st.1 !! i
  else copy_rows st.1 !! i.
Proof.
  revert st. induction ids as [|id ids IH]; intros st; cbn [foldl].
  { by rewrite decide_False by set_solver. }
  rewrite IH, mark_missing_row.
  destruct (decide (i = id)) as [->|Hne].
  - rewrite (decide_True (P := id ∈ id :: ids)) by left.
    case_decide; [|done]. destruct (copy_rows st.1 !! id) as [c|]; [|done]. cbn.
    repeat case_decide; done.
  - destruct (decide (i ∈ ids)); [rewrite decide_True by by right|rewrite decide_False by set_solver];
      done.
Qed.

Lemma foldl_mark_missing_next ids st :
  t_next (copies (cat (foldl mark_missing st ids).1)) = t_next (copies (cat st.1)).
Proof.
  revert st. induction ids as [|id ids IH]; intros st; cbn [foldl]; [done|]. rewrite IH.
  unfold mark_missing. destruct (copy_row id st.1); [|done]. by case_decide.
Qed.

Lemma mark_missing_same c :
  same_copy c (if decide (cp_health c = MISSING) then c else set_health c MISSING) ∧
  measured (if decide (cp_health c = MISSING) then c else set_health c MISSING) = measured c.
Proof. case_decide; (split; [by constructor|done]). Qed.

Lemma stranded_rel b d rep (ids : list Z) :
  (∀ id, id ∈ ids → ∃ c, copy_rows d !! id = Some c ∧ cp_backend_id c = b) →
  scrub_rel b d (foldl mark_missing (d, rep) ids).1.
Proof.
  intros Hids. constructor.
  - intros i c Hc. rewrite foldl_mark_missing_rows. cbn [fst]. case_decide as Hi; rewrite Hc.
    + destruct (mark_missing_same c) as [Hs Hm]. eexists. split; [done|]. split; [done|].
      split; [by rewrite Hm|]. intros Hb. destruct (Hids i Hi) as (x & Hx & Hxb). congruence.
    + exists c. split_and!; auto using same_copy_refl.
  - intros i c'. rewrite foldl_mark_missing_rows. cbn [fst].
    case_decide; [|congruence]. intros Hc' Hn. by rewrite Hn in Hc'.
  - intros Hok i c'. rewrite foldl_mark_missing_rows, foldl_mark_missing_next. cbn [fst].
    intros Hc'. assert (Hi : is_Some (copy_rows d !! i)).
    { destruct (copy_rows d !! i); [eauto|]. by case_decide. }
    destruct Hi as [c Hc]. by eapply Hok.
Qed.

Lemma snapshot_lookup k b key id :
  snapshot k b !! key = Some id →
  ∃ c, t_rows (copies k) !! id = Some c ∧ cp_backend_id c = b ∧ cp_native_locator_key c = key.
Proof.
  unfold snapshot. intros H. apply elem_of_list_to_map_2 in H.
  apply list_elem_of_fmap in H as ([i c] & [= -> ->] & Hin).
  apply elem_of_filter_tbl in Hin as [? ?]. by exists c.
Qed.

Lemma snapshot_complete k b i c :
  copies_unique k → t_rows (copies k) !! i = Some c → cp_backend_id c = b →
  snapshot k b !! cp_native_locator_key c = Some i.
Proof.
  intros Hu Hc Hb. destruct (snapshot k b !! cp_native_locator_key c) as [i'|] eqn:E.
  - apply snapshot_lookup in E as (c' & Hc' & Hb' & Hk'). f_equal. eapply Hu; eauto. congruence.
  - unfold snapshot in E. apply not_elem_of_list_to_map_2 in E. exfalso. apply E.
    apply list_elem_of_fmap. eexists (_, i). split; [done|]. apply list_elem_of_fmap.
    exists (i, c). split; [done|]. by apply elem_of_filter_tbl.
Qed.

Lemma scrub_decompose d b name rs now run_id d' rep :
  scrub_backend producer d b name rs now run_id = Ok (d', rep) → tbl_ok (copies (cat d)) →
  ∃ d1 cc rep1, scrub_rel b d d1 ∧ snapshot_ok b d1 cc ∧
    (∀ key, cc !! key = if decide (key ∈ (λ r, locator_key (cr_native_locator r)) <$> rs)
                        then None else snapshot (cat d) b !! key) ∧
    (d', rep) = foldl mark_missing (d1, rep1) (map_to_list cc).*2.
Proof.
  unfold scrub_backend. intros ([[d1 cc] rep1] & H & Heq)%bind_Ok Hok. injection Heq as Heq.
  assert (Hs : snapshot_ok b d (snapshot (cat d) b)) by (intros key id; apply snapshot_lookup).
  destruct (ingest_records_rel _ _ _ _ _ _ _ _ _ _ H Hs Hok) as [R Hcc].
  exists d1, cc, rep1. split_and!; [done| |done|done].
  intros key id Hk. rewrite Hcc in Hk. case_decide; [done|].
  eapply snapshot_ok_rel in Hs; [|exact R]. by apply Hs.
Qed.

Lemma stranded_ids b d cc id :
  snapshot_ok b d cc → id ∈ (map_to_list cc).*2 →
  ∃ c, copy_rows d !! id = Some c ∧ cp_backend_id c = b.
Proof.
  intros Hs Hin. apply list_elem_of_fmap in Hin as ([key i] & -> & Hin).
  apply elem_of_map_to_list in Hin. destruct (Hs _ _ Hin) as (c & ? & ? & _). eauto.
Qed.

(** C28: The scrub never erases history and never manufactures evidence.  Every copy row survives
    with its identity columns; a copy that counts as measured afterwards already did, and did
    before the scrub under the same digests; copies of other backends are untouched; and the rows
    it adds are unmeasured discoveries of this backend. *)
Theorem scrub_keeps_history d b name rs now run_id d' rep :
  tbl_ok (copies (cat d)) →
  scrub_backend producer d b name rs now run_id = Ok (d', rep) →
  (∀ i c, copy_rows d !! i = Some c → ∃ c', copy_rows d' !! i = Some c' ∧ same_copy c c' ∧
     (measured c' = true → measured c = true) ∧ (cp_backend_id c ≠ b → c' = c)) ∧
  (∀ i c', copy_rows d' !! i = Some c' → copy_rows d !! i = None →
     measured c' = false ∧ cp_backend_id c' = b ∧
     cp_integrity_hash_provenance c' = BACKEND_DISCOVERED ∧ cp_source c' = SCRUB).
Proof.
  intros Hok H. apply scrub_decompose in H as (d1 & cc & rep1 & R & Hs & _ & Heq); [|done].
  assert (R2 : scrub_rel b d1 d').
  { replace d' with (foldl mark_missing (d1, rep1) (map_to_list cc).*2).1 by by rewrite <- Heq.
    apply stranded_rel. intros id. by apply stranded_ids. }
  destruct (scrub_rel_trans _ _ _ _ R R2) as [O N _]. done.
Qed.

(** What the backend no longer enumerates is marked missing: after a scrub, every copy of the
    backend whose locator was not enumerated has health [MISSING]. *)
Lemma scrub_marks_missing d b name rs now run_id d' rep i c :
  tbl_ok (copies (cat d)) → copies_unique (cat d) →
  scrub_backend producer d b name rs now run_id = Ok (d', rep) →
  copy_rows d !! i = Some c → cp_backend_id c = b →
  cp_native_locator_key c ∉ (λ r, locator_key (cr_native_locator r)) <$> rs →
  ∃ c', copy_rows d' !! i = Some c' ∧ cp_health c' = MISSING.
Proof.
  intros Hok Hu H Hc Hb Hni. apply scrub_decompose in H as (d1 & cc & rep1 & R & Hs & Hcc & Heq);
    [|done].
  assert (Hin : i ∈ (map_to_list cc).*2).
  { apply list_elem_of_fmap. exists (cp_native_locator_key c, i). split; [done|].
    apply elem_of_map_to_list. rewrite Hcc, decide_False by done. by apply snapshot_complete. }
  destruct (sr_old _ _ _ R i c Hc) as (c1 & Hc1 & _).
  replace d' with (foldl mark_missing (d1, rep1) (map_to_list cc).*2).1 by by rewrite <- Heq.
  rewrite foldl_mark_missing_rows, decide_True by done. cbn [fst]. rewrite Hc1.
  eexists. split; [done|]. by case_decide.
Qed.
End scrub.

(** ** Two ways back to [ok] *)

Section examples.
Definition hash_a : bytes := "aaaaaaaaaaaaaaaaaaaaaaaaaaaaaaaa".
Definition hash_b : bytes := "bbbbbbbbbbbbbbbbbbbbbbbbbbbbbbbb".
Definition example_locator : dict json := [("path", JStr "x")].

Definition example_copy (h : CopyHealth) (integrity : bytes) : Copy := {|
  cp_logical_asset_hash := Some hash_a; cp_bundle_id := None; cp_backend_id := 1;
  cp_pool_id := None; cp_native_locator := example_locator;
  cp_native_locator_key := locator_key example_locator; cp_storage_metadata := [];
  cp_integrity_hash := integrity; cp_integrity_hash_provenance := BACKEND_DISCOVERED;
  cp_health := h; cp_last_checked_at := None; cp_last_measured_digest := None;
  cp_last_measured_at := None; cp_deleted_at := None; cp_first_observed_at := 0;
  cp_source := SCRUB |}.

Definition example_db (c : Copy) : Database :=
  with_cat (λ k, with_copies {| t_rows := {[1 := c]}; t_next := 2 |} k) empty_database.

Definition example_record (h : bytes) : CopyRecord := {|
  cr_logical_id := h; cr_native_locator := example_locator; cr_integrity_hash := h;
  cr_size_bytes := 1; cr_metadata := [] |}.

Definition health_of (r : result ScrubError (Database * ScrubReport)) : option CopyHealth :=
  match r with Ok (d, _) => cp_health <$> copy_row 1 d | Err _ => None end.
End examples.

(** A copy whose stored digest is not its asset's hash, discovered from the backend and
    therefore [SUSPECT], is promoted to [ok] by a later enumeration that reports the stored digest
    as the logical id as well, with no read-back. *)
Lemma scrub_promotes_unproven_identity :
  let c := example_copy SUSPECT hash_b in
  ¬ identity_proven c ∧
  health_of (scrub_backend "p" (example_db c) 1 "disk" [example_record hash_b] 10 "run") =
    Some HEALTH_OK.
Proof.
  split; [|vm_compute; reflexivity].
  intros [H|[H|H]]; cbn in H; discriminate.
Qed.

(** A copy found [CORRUPT] by a read-back is overwritten with [MISSING] when one enumeration
    omits it, and the next enumeration that lists it again makes it [ok] without a read-back. *)
Lemma scrub_forgets_corruption :
  let d := example_db (example_copy CORRUPT hash_a) in
  ∃ d1 rep1,
    scrub_backend "p" d 1 "disk" [] 10 "run-1" = Ok (d1, rep1) ∧
    cp_health <$> copy_row 1 d1 = Some MISSING ∧
    health_of (scrub_backend "p" d1 1 "disk" [example_record hash_a] 20 "run-2") = Some HEALTH_OK ∧
    health_of (scrub_backend "p" d 1 "disk" [example_record hash_a] 20 "run-2") = Some CORRUPT.
Proof.
  intros d. destruct (scrub_backend "p" d 1 "disk" [] 10 "run-1") as [[d1 rep1]|] eqn:E;
    [|vm_compute in E; discriminate].
  exists d1, rep1. split; [done|]. vm_compute in E. injection E as <- <-.
  split_and!; vm_compute; reflexivity.
Qed.
