(* ===== verification/BundleGroup.v ===== *)
(** * Bundle groups and pool lifecycle

    [bundle_group.py]: the canonical placement basis of an artifactclass, its fingerprint, the
    group thresholds, the frozen witness document and the stored projection; and [pools.py]: the
    mutations of a pool that could invalidate them or break a durability floor.  [sha256_hex] is
    the hash of [hashlib], a parameter. *)

From stdpp Require Import pretty.
From S2P Require Import Prelude Json JsonText JobModels Catalog RetryConfig Conditions.
From S2P Require Import Durability.

Definition GROUP_BASIS_WRITER_VERSION : Z := 1.
Definition BASIS_SOURCE_DERIVED : string := "derived".
Definition BASIS_SOURCE_BACKFILLED : string := "backfilled".

Inductive GroupError :=
  | UnknownBasisSource
  | EmptyBundleGroup
  | ZeroThresholds.

(** ** The basis *)

Abbreviation basis_entry := (dict json) (only parsing).

Definition basis_row (pool_id representation : string) : basis_entry :=
  [("pool", JStr pool_id); ("representation", JStr representation)].

(** The active memberships joined to their pools, as [(pool id, representation)]. *)
Definition active_placements (k : Cat) (artifactclass : string) : list (string * string) :=
  omap (λ cm, if bool_decide (cm.1.1 = artifactclass) && acp_active cm.2
              then p ← pools k !! cm.1.2; Some (cm.1.2, pl_representation p)
              else None) (map_to_list (acpools k)).

Definition compute_group_basis (k : Cat) (artifactclass : string) : list basis_entry :=
  (λ pr, basis_row pr.1 pr.2) <$> sort_by fst (active_placements k artifactclass).

(** [value is not None] *)
Definition present_value (v : json) : bool := match v with JNull => false | _ => true end.

(** NULLs canonicalise as absent keys. *)
Definition canonical_basis_json (basis : list basis_entry) : string :=
  default "" (json_dumps (JList ((λ e, JObj (filter (λ kv, present_value kv.2 = true) e))
                                 <$> basis))).

(** ** Thresholds *)

Record GroupThresholds := {
  gt_declared : gmap string (Z * Z);
  gt_declared_target_bytes : Z;
  gt_max_age_seconds : Z;
  gt_pool_floors : list (string * option Z);
  gt_target_bytes : Z;
}.

Definition clamp_active (t : GroupThresholds) : bool := gt_declared_target_bytes t <? gt_target_bytes t.

Definition clamping_pools (t : GroupThresholds) : list string :=
  sort_by id (omap (λ pf, match pf.2 with
                          | Some f => if gt_declared_target_bytes t <? f then Some pf.1 else None
                          | None => None
                          end) (gt_pool_floors t)).

Definition floorless_pools (t : GroupThresholds) : list string :=
  sort_by id (omap (λ pf, match pf.2 with None => Some pf.1 | Some _ => None end)
                (gt_pool_floors t)).

(** [max]/[min] over a list whose first element is given. *)
Definition max_from (x : Z) (l : list Z) : Z := foldr Z.max x l.
Definition min_from (x : Z) (l : list Z) : Z := foldr Z.min x l.

Definition entry_pool (e : basis_entry) : option string :=
  match dget "pool" e with Some (JStr p) => Some p | _ => None end.

Section groups.
Context (sha256_hex : string → string).

Definition fingerprint_basis (basis : list basis_entry) : string :=
  sha256_hex (canonical_basis_json basis).

Definition compute_bundle_group (k : Cat) (artifactclass : string) : string * list basis_entry :=
  let basis := compute_group_basis k artifactclass in (fingerprint_basis basis, basis).

(** [group_basis_document] *)
Definition group_basis_document (basis : list basis_entry) (basis_source : string)
    (target_bytes max_age_seconds : Z) : result GroupError json :=
  _ ← raise_if (negb (bool_decide (basis_source ∈ [BASIS_SOURCE_DERIVED; BASIS_SOURCE_BACKFILLED])))
        UnknownBasisSource;
  Ok (JObj [("basis", JList (JObj <$> basis)); ("basis_source", JStr basis_source);
            ("writer_version", JInt GROUP_BASIS_WRITER_VERSION);
            ("effective", JObj [("target_bytes", JInt target_bytes);
                                ("max_age_seconds", JInt max_age_seconds)])]).

(** The class set: the stored projections of the group, with the opening class's own row. *)
Definition declared_thresholds (k : Cat) (artifactclass : string)
    (policy : ArtifactClassPolicyRecord) (fingerprint : string) : gmap string (Z * Z) :=
  <[artifactclass := (pr_target_bytes policy, pr_max_age_seconds policy)]>
    (omap (λ r, if decide (pr_bundle_group r = Some fingerprint)
                then Some (pr_target_bytes r, pr_max_age_seconds r) else None) (policies k)).

Definition group_thresholds (k : Cat) (artifactclass : string) (policy : ArtifactClassPolicyRecord)
    (fingerprint : string) (basis : list basis_entry) : GroupThresholds :=
  let declared := declared_thresholds k artifactclass policy fingerprint in
  let values := (map_to_list declared).*2 in
  let declared_target := max_from (pr_target_bytes policy) values.*1 in
  let max_age := min_from (pr_max_age_seconds policy) values.*2 in
  let floors := (λ p, (p, pl ← pools k !! p; pl_min_object_bytes pl))
                <$> remove_dups (omap entry_pool basis) in
  {| gt_declared := declared; gt_declared_target_bytes := declared_target;
     gt_max_age_seconds := max_age; gt_pool_floors := floors;
     gt_target_bytes := max_from declared_target (omap snd floors) |}.

Definition effective_group_thresholds (k : Cat) (artifactclass : string)
    (policy : ArtifactClassPolicyRecord) (fingerprint : string) (basis : list basis_entry)
    : result GroupError (Z * Z) :=
  _ ← raise_if (bool_decide (basis = [])) EmptyBundleGroup;
  let t := group_thresholds k artifactclass policy fingerprint basis in
  _ ← raise_if ((gt_target_bytes t <=? 0) || (gt_max_age_seconds t <=? 0)) ZeroThresholds;
  Ok (gt_target_bytes t, gt_max_age_seconds t).

(** ** The frozen witness *)

Definition basis_entries (group_basis : json) : list basis_entry :=
  omap (λ e, match e with
             | JObj d => if decide (is_Some (dget "pool" d)) then Some d else None
             | _ => None
             end) (as_list (dget "basis" (as_obj (Some group_basis)))).

(** ** The stored projection *)

Definition set_bundle_group (r : ArtifactClassPolicyRecord) (g : string)
    : ArtifactClassPolicyRecord := {|
  pr_bundle_group := Some g; pr_target_bytes := pr_target_bytes r;
  pr_max_age_seconds := pr_max_age_seconds r; pr_min_copies := pr_min_copies r;
  pr_min_impl_families := pr_min_impl_families r; pr_ruleset := pr_ruleset r;
  pr_expect := pr_expect r; pr_restore_preference := pr_restore_preference r;
  pr_staging_config := pr_staging_config r; pr_hdcache_config := pr_hdcache_config r;
  pr_policy_source := pr_policy_source r; pr_policy_sha256 := pr_policy_sha256 r |}.

Definition refresh_projection (k : Cat) (artifactclass : string) : Cat :=
  match policies k !! artifactclass with
  | None => k
  | Some r =>
      with_policies (<[artifactclass :=
        set_bundle_group r (fingerprint_basis (compute_group_basis k artifactclass))]> (policies k)) k
  end.

Definition refresh_bundle_group_projections (k : Cat) (classes : list string) : Cat :=
  foldl refresh_projection k classes.

(** ** Pool mutations ([pools.py]) *)

Inductive PoolError :=
  | UnknownPool
  | UnknownRepresentationValue
  | PoolRepresentationImmutable
  | PoolWriteFenceWouldBreakDurability (violations : list string)
  | PoolRetirementHasLiveLocators
  | AlarmFailed.

Definition set_representation (p : Pool) (r : string) : Pool := {|
  pl_backend_id := pl_backend_id p; pl_representation := r; pl_location := pl_location p;
  pl_offsite_gate := pl_offsite_gate p; pl_tier := pl_tier p;
  pl_accepts_writes := pl_accepts_writes p; pl_retired := pl_retired p;
  pl_min_object_bytes := pl_min_object_bytes p |}.

Definition set_accepts_writes (p : Pool) (b : bool) : Pool := {|
  pl_backend_id := pl_backend_id p; pl_representation := pl_representation p;
  pl_location := pl_location p; pl_offsite_gate := pl_offsite_gate p; pl_tier := pl_tier p;
  pl_accepts_writes := b; pl_retired := pl_retired p;
  pl_min_object_bytes := pl_min_object_bytes p |}.

Definition set_retired (p : Pool) (b : bool) : Pool := {|
  pl_backend_id := pl_backend_id p; pl_representation := pl_representation p;
  pl_location := pl_location p; pl_offsite_gate := pl_offsite_gate p; pl_tier := pl_tier p;
  pl_accepts_writes := pl_accepts_writes p; pl_retired := b;
  pl_min_object_bytes := pl_min_object_bytes p |}.

Definition put_pool (pool_id : string) (p : Pool) (k : Cat) : Cat :=
  with_pools (<[pool_id := p]> (pools k)) k.

(** Classes with a membership to the pool, sorted; [only_active] restricts to active ones. *)
Definition member_classes (k : Cat) (pool_id : string) (only_active : bool) : list string :=
  sort_by id (remove_dups (omap (λ cm,
    if bool_decide (cm.1.2 = pool_id) && (negb only_active || acp_active cm.2)
    then Some cm.1.1 else None) (map_to_list (acpools k)))).

Definition set_pool_representation (k : Cat) (pool_id representation : string)
    : result PoolError Cat :=
  match pools k !! pool_id with
  | None => Err UnknownPool
  | Some p =>
      _ ← raise_if (negb (bool_decide (representation ∈ REPRESENTATIONS))) UnknownRepresentationValue;
      if decide (pl_representation p = representation) then Ok k
      else
        _ ← raise_if (existsb (λ ic, bool_decide (cp_pool_id ic.2 = Some pool_id))
                        (tbl_list (copies k))) PoolRepresentationImmutable;
        let k := put_pool pool_id (set_representation p representation) k in
        Ok (refresh_bundle_group_projections k (member_classes k pool_id false))
  end.

(** The write-eligible pools a class keeps when one pool is fenced. *)
Definition eligible_without (k : Cat) (artifactclass pool_id : string) : list (string * Pool) :=
  omap (λ cm, if bool_decide (cm.1.1 = artifactclass) && acp_active cm.2 &&
                 negb (bool_decide (cm.1.2 = pool_id))
              then p ← pools k !! cm.1.2; if pl_accepts_writes p then Some (cm.1.2, p) else None
              else None) (map_to_list (acpools k)).

Definition eligible_families (k : Cat) (ps : list (string * Pool)) : list string :=
  remove_dups ((λ p, match backends k !! pl_backend_id p.2 with
                     | Some b => be_implementation_family b
                     | None => ""
                     end) <$> ps).

Definition class_violation (k : Cat) (pool_id artifactclass : string) : option string :=
  match policies k !! artifactclass with
  | None => None
  | Some r =>
      let ps := eligible_without k artifactclass pool_id in
      let n := Z.of_nat (length ps) in
      let f := Z.of_nat (length (eligible_families k ps)) in
      if (pr_min_copies r <=? n) && (pr_min_impl_families r <=? f) then None
      else Some (artifactclass +:+ ": eligible_pools=" +:+ pretty n +:+ "/" +:+
                 pretty (pr_min_copies r) +:+ ", implementation_families=" +:+ pretty f +:+ "/" +:+
                 pretty (pr_min_impl_families r))
  end.

Definition write_fence_floor_violations (k : Cat) (pool_id : string) : list string :=
  omap (class_violation k pool_id) (member_classes k pool_id true).

Definition forced_fence_message (pool_id : string) (violations : list string) : string :=
  "FORCED write fence for pool '" +:+ pool_id +:+ "' leaves durability floor unsatisfied: " +:+
  String.concat "; " violations.

(** [_record_forced_write_fence_alarm] *)
Definition record_forced_write_fence_alarm (uniform : Z → Z → Z) (db : JobDB) (pool_id message : string)
    (now : time) : result PoolError JobDB :=
  let target := "pool:" +:+ pool_id in
  let db := (record_observation db now "pool_lifecycle" target true OBSERVED_MISSING None None).1 in
  match record_condition uniform db now "pool_lifecycle" target (Some BLOCKED)
          (Some "forced-write-fence-below-floor") (Some message) None None None true with
  | Ok (db, _) => Ok db
  | Err _ => Err AlarmFailed
  end.

Definition set_pool_write_fence (uniform : Z → Z → Z) (d : Database) (pool_id : string)
    (accepts_writes force : bool) (now : time) : result PoolError Database :=
  match pools (cat d) !! pool_id with
  | None => Err UnknownPool
  | Some p =>
      if decide (pl_accepts_writes p = accepts_writes) then Ok d
      else
        db ← (if accepts_writes then Ok (jobs d)
              else
                match write_fence_floor_violations (cat d) pool_id with
                | [] => Ok (jobs d)
                | violations =>
                    if force
                    then record_forced_write_fence_alarm uniform (jobs d) pool_id
                           (forced_fence_message pool_id violations) now
                    else Err (PoolWriteFenceWouldBreakDurability violations)
                end);
        Ok {| cat := put_pool pool_id (set_accepts_writes p accepts_writes) (cat d); jobs := db |}
  end.

Definition pool_has_live_locators (k : Cat) (pool_id : string) : bool :=
  existsb (λ l, bool_decide (al_pool_id l.2 = pool_id)) (tbl_list (locators k)) ||
  existsb (λ b, bool_decide (br_pool_id b.2 = pool_id)) (tbl_list (blob_roots k)).

Definition set_pool_retired (k : Cat) (pool_id : string) (retired : bool) : result PoolError Cat :=
  match pools k !! pool_id with
  | None => Err UnknownPool
  | Some p =>
      if decide (pl_retired p = retired) then Ok k
      else
        _ ← raise_if (retired && pool_has_live_locators k pool_id) PoolRetirementHasLiveLocators;
        Ok (put_pool pool_id (set_retired p retired) k)
  end.
End groups.

Arguments class_violation : simpl never.
Arguments forced_fence_message : simpl never.
Arguments canonical_basis_json : simpl never.
