(* ===== verification/BundleGroupFacts.v ===== *)
(** * Properties of bundle groups and of the pool mutations *)

From S2P Require Import Prelude Json JsonText JobModels Catalog RetryConfig Conditions.
From S2P Require Import Durability BundleGroup.

(** ** Placements *)

(** The artifactclass is actively placed on the pool, which stores the given representation. *)
Definition placed_on (k : Cat) (a p r : string) : Prop :=
  ∃ m pl, acpools k !! (a, p) = Some m ∧ acp_active m = true ∧
          pools k !! p = Some pl ∧ pl_representation pl = r.

Lemma elem_active_placements k a p r : (p, r) ∈ active_placements k a ↔ placed_on k a p r.
Proof.
  unfold active_placements, placed_on. rewrite list_elem_of_omap. split.
  - intros ([[a' p'] m] & Hin%elem_of_map_to_list & H). cbn in H.
    case_bool; [|done]. split_bools. subst a'.
    destruct (pools k !! p') as [pl|] eqn:E; cbn in H; [|done]. simplify_eq. eauto 6.
  - intros (m & pl & Hm & Ha & Hp & <-). exists ((a, p), m).
    split; [by apply elem_of_map_to_list|]. cbn. rewrite bool_decide_true, Ha, Hp; done.
Qed.

(** A scan of one class's memberships that keeps the pool id lists every pool at most once. *)
Lemma NoDup_class_scan {X} k a (f : (string * string) * ArtifactClassPool → option (string * X)) :
  (∀ cm y, f cm = Some y → cm.1 = (a, y.1)) →
  NoDup (omap f (map_to_list (acpools k))).*1.
Proof.
  intros Hf. pose proof (NoDup_fst_map_to_list (acpools k)) as Hnd.
  revert Hnd. generalize (map_to_list (acpools k)) as l.
  induction l as [|cm l IH]; cbn; [constructor|].
  intros [Hni Hnd]%NoDup_cons. specialize (IH Hnd).
  destruct (f cm) as [y|] eqn:E; cbn; [|done]. constructor; [|done].
  intros (z & Hz & Hin)%list_elem_of_fmap.
  apply list_elem_of_omap in Hin as (cm2 & Hin & H2).
  apply Hf in E, H2. apply Hni, list_elem_of_fmap. exists cm2. split; [congruence|done].
Qed.

Lemma NoDup_active_placements k a : NoDup (active_placements k a).*1.
Proof.
  apply (NoDup_class_scan _ a). intros [[a' p'] m] [p r] H. cbn in *.
  case_bool; [|done]. split_bools. destruct (pools k !! p'); cbn in H; [|done]. by simplify_eq.
Qed.

Lemma placement_unique k a x y :
  x ∈ active_placements k a → y ∈ active_placements k a → x.1 = y.1 → x = y.
Proof.
  destruct x as [p r], y as [p' r']. cbn.
  intros (m & pl & ? & ? & ? & ?)%elem_active_placements
         (m' & pl' & ? & ? & ? & ?)%elem_active_placements <-. congruence.
Qed.

Lemma same_placements_same_basis k1 a1 k2 a2 :
  (∀ p r, placed_on k1 a1 p r ↔ placed_on k2 a2 p r) →
  compute_group_basis k1 a1 = compute_group_basis k2 a2.
Proof.
  intros H. unfold compute_group_basis. f_equal.
  apply sort_by_canonical; [|apply placement_unique].
  apply NoDup_Permutation; [eapply NoDup_fmap_1, NoDup_active_placements..|].
  intros [p r]. by rewrite !elem_active_placements.
Qed.

(** ** The canonical text *)

Lemma filter_basis_row p r :
  filter (λ kv : string * json, present_value kv.2 = true) (basis_row p r) = basis_row p r.
Proof. reflexivity. Qed.

Definition basis_json (l : list (string * string)) : json :=
  JList ((λ pr, JObj (basis_row pr.1 pr.2)) <$> l).

Lemma canonical_basis_rows l :
  canonical_basis_json ((λ pr, basis_row pr.1 pr.2) <$> l) = default "" (json_dumps (basis_json l)).
Proof.
  unfold canonical_basis_json, basis_json. do 3 f_equal. rewrite <- list_fmap_compose.
  apply list_fmap_ext. intros i [p r] _. cbn [compose fst snd]. by rewrite filter_basis_row.
Qed.

Lemma basis_json_no_bytes l : has_bytes (basis_json l) = false.
Proof. induction l as [|[p r] l IH]; cbn in *; [done|]. by rewrite IH. Qed.

Lemma canon_basis_json l : canon (basis_json l) = basis_json l.
Proof.
  unfold basis_json. cbn [canon]. f_equal.
  induction l as [|[p r] l IH]; [done|]. rewrite fmap_cons. cbn [map]. by rewrite IH.
Qed.

Lemma basis_json_inj l1 l2 : basis_json l1 = basis_json l2 → l1 = l2.
Proof.
  unfold basis_json. intros [= H]. revert H. apply list_fmap_eq_inj.
  intros [p r] [p' r'] H. by simplify_eq.
Qed.

Lemma canonical_rows_inj l1 l2 :
  canonical_basis_json ((λ pr, basis_row pr.1 pr.2) <$> l1) =
  canonical_basis_json ((λ pr, basis_row pr.1 pr.2) <$> l2) → l1 = l2.
Proof.
  rewrite !canonical_basis_rows. intros H.
  apply basis_json_inj. rewrite <- (canon_basis_json l1), <- (canon_basis_json l2).
  eapply json_dumps_inj with (s := default "" (json_dumps (basis_json l1))).
  - unfold json_dumps. by rewrite basis_json_no_bytes.
  - rewrite H. unfold json_dumps. by rewrite basis_json_no_bytes.
Qed.

Section facts.
Context (sha256_hex : string → string).

(** C34: bundle groups are storage placements.  When the hash does not collide on the two canonical
    texts, two artifactclasses (possibly in different catalogs) have the same fingerprint exactly
    when their active (pool, representation) sets are the same; write fences, retirement, sort
    orders, thresholds and row order never enter it. *)
Theorem fingerprint_identifies_placement k1 a1 k2 a2 :
  (sha256_hex (canonical_basis_json (compute_group_basis k1 a1)) =
   sha256_hex (canonical_basis_json (compute_group_basis k2 a2)) →
   canonical_basis_json (compute_group_basis k1 a1) =
   canonical_basis_json (compute_group_basis k2 a2)) →
  (compute_bundle_group sha256_hex k1 a1).1 = (compute_bundle_group sha256_hex k2 a2).1 ↔
  ∀ p r, placed_on k1 a1 p r ↔ placed_on k2 a2 p r.
Proof.
  intros Hsha. unfold compute_bundle_group, fingerprint_basis. cbn [fst]. split.
  - intros Heq%Hsha p r. apply canonical_rows_inj in Heq.
    rewrite <- !elem_active_placements, <- (elem_of_sort_by fst), Heq. by rewrite elem_of_sort_by.
  - intros H. by rewrite (same_placements_same_basis _ _ _ _ H).
Qed.

(** ** Thresholds *)

Lemma max_from_ub x l y : y ∈ x :: l → y <= max_from x l.
Proof.
  unfold max_from. rewrite elem_of_cons. induction l as [|z l IH]; cbn.
  - intros [->|?%not_elem_of_nil]; [lia|done].
  - rewrite elem_of_cons. intros [?|[->|?]]; [|lia|]; specialize (IH ltac:(auto)); lia.
Qed.

Lemma max_from_in x l : max_from x l ∈ x :: l.
Proof.
  unfold max_from. induction l as [|z l IH]; cbn [foldr]; [left|].
  destruct (Z.max_spec z (foldr Z.max x l)) as [[_ ->]|[_ ->]]; set_solver.
Qed.

Lemma min_from_lb x l y : y ∈ x :: l → min_from x l <= y.
Proof.
  unfold min_from. rewrite elem_of_cons. induction l as [|z l IH]; cbn.
  - intros [->|?%not_elem_of_nil]; [lia|done].
  - rewrite elem_of_cons. intros [?|[->|?]]; [|lia|]; specialize (IH ltac:(auto)); lia.
Qed.

Lemma min_from_in x l : min_from x l ∈ x :: l.
Proof.
  unfold min_from. induction l as [|z l IH]; cbn [foldr]; [left|].
  destruct (Z.min_spec z (foldr Z.min x l)) as [[_ ->]|[_ ->]]; set_solver.
Qed.

(** What a group declares: a stored projection of the group, or the class that opens it. *)
Definition declares (k : Cat) (a : string) (policy : ArtifactClassPolicyRecord) (g : string)
    (t m : Z) : Prop :=
  (t = pr_target_bytes policy ∧ m = pr_max_age_seconds policy) ∨
  ∃ a' r, a' ≠ a ∧ policies k !! a' = Some r ∧ pr_bundle_group r = Some g ∧
          t = pr_target_bytes r ∧ m = pr_max_age_seconds r.

(** A floor declared by a pool of the basis. *)
Definition basis_floor (k : Cat) (basis : list (dict json)) (p : string) (f : Z) : Prop :=
  p ∈ omap entry_pool basis ∧ ∃ pl, pools k !! p = Some pl ∧ pl_min_object_bytes pl = Some f.

Lemma elem_declared k a policy g t m :
  (t, m) ∈ (map_to_list (declared_thresholds k a policy g)).*2 ↔ declares k a policy g t m.
Proof.
  unfold declared_thresholds, declares. rewrite list_elem_of_fmap. split.
  - intros ([a' tm] & Htm & Hin%elem_of_map_to_list). cbn in Htm. subst tm.
    apply lookup_insert_Some in Hin as [[<- [= -> ->]]|[Hne Hin]]; [by left|right].
    rewrite lookup_omap in Hin. destruct (policies k !! a') as [r|] eqn:E; cbn in Hin; [|done].
    case_decide; simplify_eq. exists a', r. auto.
  - intros [[-> ->]|(a' & r & Hne & Hr & Hg & -> & ->)].
    + exists (a, (pr_target_bytes policy, pr_max_age_seconds policy)).
      split; [done|]. apply elem_of_map_to_list, lookup_insert_eq.
    + exists (a', (pr_target_bytes r, pr_max_age_seconds r)).
      split; [done|]. apply elem_of_map_to_list. rewrite lookup_insert_ne, lookup_omap, Hr by done.
      cbn. by rewrite decide_True.
Qed.

Section thresholds.
Context (k : Cat) (a : string) (policy : ArtifactClassPolicyRecord) (g : string)
        (basis : list (dict json)).
Let T := group_thresholds k a policy g basis.

Lemma elem_floors p f : (p, Some f) ∈ gt_pool_floors T ↔ basis_floor k basis p f.
Proof.
  unfold T, group_thresholds, basis_floor. cbn. rewrite list_elem_of_fmap. split.
  - intros (q & [= -> Hf] & Hin). rewrite elem_of_remove_dups in Hin. split; [done|].
    destruct (pools k !! q) as [pl|]; [|done]. eauto.
  - intros (Hin & pl & Hp & Hf). exists p. rewrite Hp. cbn. rewrite Hf.
    split; [done|]. by apply elem_of_remove_dups.
Qed.

Lemma elem_floor_values f : f ∈ omap snd (gt_pool_floors T) ↔ ∃ p, basis_floor k basis p f.
Proof.
  rewrite list_elem_of_omap. split.
  - intros ([p o] & Hin & Ho). cbn in Ho. subst o. exists p. by apply elem_floors.
  - intros [p Hp]. exists (p, Some f). split; [by apply elem_floors|done].
Qed.

Lemma opener_declares : declares k a policy g (pr_target_bytes policy) (pr_max_age_seconds policy).
Proof. by left. Qed.

Lemma declared_target_max :
  (∀ t m, declares k a policy g t m → t <= gt_declared_target_bytes T) ∧
  ∃ m, declares k a policy g (gt_declared_target_bytes T) m.
Proof.
  unfold T, group_thresholds; cbn. split.
  - intros t m H%elem_declared. apply max_from_ub. right. apply list_elem_of_fmap. by exists (t, m).
  - match goal with |- context [max_from ?x ?l] => pose proof (max_from_in x l) as H end.
    apply elem_of_cons in H as [->|([t m] & Ht & H%elem_declared)%list_elem_of_fmap].
    + eexists. apply opener_declares.
    + cbn in Ht. rewrite Ht. eauto.
Qed.

Lemma max_age_min :
  (∀ t m, declares k a policy g t m → gt_max_age_seconds T <= m) ∧
  ∃ t, declares k a policy g t (gt_max_age_seconds T).
Proof.
  unfold T, group_thresholds; cbn. split.
  - intros t m H%elem_declared. apply min_from_lb. right. apply list_elem_of_fmap. by exists (t, m).
  - match goal with |- context [min_from ?x ?l] => pose proof (min_from_in x l) as H end.
    apply elem_of_cons in H as [->|([t m] & Ht & H%elem_declared)%list_elem_of_fmap].
    + eexists. apply opener_declares.
    + cbn in Ht. rewrite Ht. eauto.
Qed.

Lemma target_bytes_eq :
  gt_target_bytes T = max_from (gt_declared_target_bytes T) (omap snd (gt_pool_floors T)).
Proof. reflexivity. Qed.

Lemma clamp_active_iff : clamp_active T = true ↔ clamping_pools T ≠ [].
Proof.
  unfold clamp_active, clamping_pools. rewrite Z.ltb_lt, target_bytes_eq. split.
  - intros Hlt Hnil. pose proof (max_from_in (gt_declared_target_bytes T)
      (omap snd (gt_pool_floors T))) as [Heq|Hin]%elem_of_cons; [lia|].
    apply list_elem_of_omap in Hin as ([p o] & Hin & Ho). cbn [snd] in Ho.
    assert (p ∈ ([] : list string)) as []%not_elem_of_nil. rewrite <- Hnil.
    apply elem_of_sort_by, list_elem_of_omap. exists (p, o). split; [done|].
    cbn [fst snd]. rewrite Ho. apply Z.ltb_lt in Hlt. by rewrite Hlt.
  - destruct (sort_by id _) as [|p l] eqn:E; [done|]. intros _.
    assert (Hin : p ∈ p :: l) by left. rewrite <- E, elem_of_sort_by in Hin.
    apply list_elem_of_omap in Hin as ([q [f|]] & Hin & H); [|done]. cbn in H.
    case_bool; [|done]. split_bools. eapply Z.lt_le_trans; [done|]. apply max_from_ub. right.
    apply list_elem_of_omap. by exists (q, Some f).
Qed.
End thresholds.

Lemma effective_ok k a policy g basis target age :
  effective_group_thresholds k a policy g basis = Ok (target, age) →
  0 < target ∧ 0 < age ∧ target = gt_target_bytes (group_thresholds k a policy g basis) ∧
  age = gt_max_age_seconds (group_thresholds k a policy g basis).
Proof.
  intros H. unfold effective_group_thresholds in H.
  apply bind_Ok in H as (_ & _ & H). apply bind_Ok in H as ([] & Hpos%raise_if_Ok & H).
  revert H Hpos. generalize (group_thresholds k a policy g basis) as T. intros T [= <- <-] Hpos.
  split_bools. lia.
Qed.

(** The thresholds an accumulator is opened with.  The target is the largest of the targets the
    group declares and of the object floors its pools declare (an upper bound of all, and one of
    them); the age ceiling is the smallest declared one; the opening class always counts; both are
    positive; and the report says the floor clamp fired exactly when it names a clamping pool. *)
Lemma effective_thresholds_spec k a policy g basis target age :
  effective_group_thresholds k a policy g basis = Ok (target, age) →
  0 < target ∧ 0 < age ∧
  (∀ t m, declares k a policy g t m → t <= target ∧ age <= m) ∧
  (∀ p f, basis_floor k basis p f → f <= target) ∧
  ((∃ m, declares k a policy g target m) ∨ (∃ p, basis_floor k basis p target)) ∧
  (∃ t, declares k a policy g t age) ∧
  (clamp_active (group_thresholds k a policy g basis) = true ↔
   clamping_pools (group_thresholds k a policy g basis) ≠ []).
Proof.
  intros H. destruct (effective_ok _ _ _ _ _ _ _ H) as (Hpt & Hpa & -> & ->).
  destruct (declared_target_max k a policy g basis) as [Hub Hin].
  destruct (max_age_min k a policy g basis) as [Hlb Hmin].
  pose proof (target_bytes_eq k a policy g basis) as Ht.
  split_and!; [done|done| | | |done|apply clamp_active_iff].
  - intros t m Hd. split; [|by eapply Hlb]. etrans; [by eapply Hub|].
    rewrite Ht. apply max_from_ub. left.
  - intros p f Hf. rewrite Ht. apply max_from_ub. right. apply elem_floor_values. eauto.
  - rewrite Ht. pose proof (max_from_in (gt_declared_target_bytes (group_thresholds k a policy g basis))
      (omap snd (gt_pool_floors (group_thresholds k a policy g basis)))) as [->|Hf]%elem_of_cons.
    + by left.
    + right. by apply elem_floor_values in Hf.
Qed.

(** ** The stored projection *)

Notation live_group k a := (fingerprint_basis sha256_hex (compute_group_basis k a)).

(** Every applied policy stores the fingerprint its class has now. *)
Definition projections_fresh (k : Cat) : Prop :=
  ∀ a r, policies k !! a = Some r → pr_bundle_group r = Some (live_group k a).

Lemma basis_frame k1 k2 a :
  pools k1 = pools k2 → acpools k1 = acpools k2 →
  compute_group_basis k1 a = compute_group_basis k2 a.
Proof. intros Hp Ha. unfold compute_group_basis, active_placements. by rewrite Hp, Ha. Qed.

Lemma refresh_projection_spec k c a :
  pools (refresh_projection sha256_hex k c) = pools k ∧
  acpools (refresh_projection sha256_hex k c) = acpools k ∧
  copies (refresh_projection sha256_hex k c) = copies k ∧
  policies (refresh_projection sha256_hex k c) !! a =
    (λ r, if decide (a = c) then set_bundle_group r (live_group k c) else r) <$> policies k !! a.
Proof.
  unfold refresh_projection. destruct (policies k !! c) as [r|] eqn:E; cbn; split_and!; try done.
  - destruct (decide (a = c)) as [->|Hne]; [by rewrite lookup_insert_eq, E|].
    rewrite lookup_insert_ne by done. by rewrite option_fmap_id.
  - destruct (decide (a = c)) as [->|Hne]; [by rewrite E|]. by rewrite option_fmap_id.
Qed.

Lemma set_bundle_group_twice r g : set_bundle_group (set_bundle_group r g) g = set_bundle_group r g.
Proof. reflexivity. Qed.

Lemma refresh_all_spec cs k a :
  pools (refresh_bundle_group_projections sha256_hex k cs) = pools k ∧
  acpools (refresh_bundle_group_projections sha256_hex k cs) = acpools k ∧
  copies (refresh_bundle_group_projections sha256_hex k cs) = copies k ∧
  policies (refresh_bundle_group_projections sha256_hex k cs) !! a =
    (λ r, if decide (a ∈ cs) then set_bundle_group r (live_group k a) else r) <$> policies k !! a.
Proof.
  unfold refresh_bundle_group_projections. revert k.
  induction cs as [|c cs IH]; intros k; cbn [foldl].
  { destruct (decide (a ∈ [])) as [?%not_elem_of_nil|_]; [done|]. by rewrite option_fmap_id. }
  destruct (refresh_projection_spec k c a) as (Hp & Ha & Hc & Hpol).
  destruct (IH (refresh_projection sha256_hex k c)) as (IHp & IHa & IHc & ->).
  rewrite IHp, IHa, IHc, Hp, Ha, Hc, Hpol, (basis_frame _ k a Hp Ha). split_and!; [done..|].
  rewrite <- option_fmap_compose. apply option_fmap_ext. intros r. cbn [compose].
  destruct (decide (a = c)) as [->|Hne].
  - destruct (decide (c ∈ c :: cs)) as [_|[]]; [|left]. case_decide; [|done].
    apply set_bundle_group_twice.
  - destruct (decide (a ∈ cs)), (decide (a ∈ c :: cs)); set_solver.
Qed.

Lemma elem_member_classes k p only a :
  a ∈ member_classes k p only ↔
  ∃ m, acpools k !! (a, p) = Some m ∧ (only = true → acp_active m = true).
Proof.
  unfold member_classes. rewrite elem_of_sort_by, elem_of_remove_dups, list_elem_of_omap. split.
  - intros ([[a' p'] m] & Hin%elem_of_map_to_list & H). cbn in H. case_bool; [|done].
    split_bools. simplify_eq. exists m. split; [done|]. intros ->. by destruct (acp_active m).
  - intros (m & Hm & Ho). exists ((a, p), m). split; [by apply elem_of_map_to_list|]. cbn.
    rewrite bool_decide_true by done. destruct only; cbn; [by rewrite Ho|done].
Qed.

(** Changing one pool only moves the placements of the classes that are members of it, and only
    when its representation changes. *)
Lemma put_pool_basis k p old new a :
  pools k !! p = Some old →
  pl_representation new = pl_representation old ∨ acpools k !! (a, p) = None →
  compute_group_basis (put_pool p new k) a = compute_group_basis k a.
Proof.
  intros Hold Hcase. apply same_placements_same_basis. intros q r.
  unfold placed_on, put_pool; cbn. apply exist_proper; intros m.
  destruct (decide (q = p)) as [->|Hne].
  - rewrite lookup_insert_eq, Hold. destruct Hcase as [Hr|Hnone]; [|naive_solver congruence].
    split; intros (pl & ? & ? & [= <-] & <-); eauto.
  - by rewrite lookup_insert_ne.
Qed.

Lemma put_pool_fresh k p old new :
  pools k !! p = Some old → pl_representation new = pl_representation old →
  projections_fresh k → projections_fresh (put_pool p new k).
Proof.
  intros Hold Hr Hf a r Ha. rewrite (put_pool_basis k p old new a) by auto. by apply Hf.
Qed.

(** A change of representation recomputes the projection of exactly the classes it can move. *)
Lemma set_pool_representation_fresh k p rep k' :
  set_pool_representation sha256_hex k p rep = Ok k' → projections_fresh k → projections_fresh k'.
Proof.
  unfold set_pool_representation. intros H Hf.
  destruct (pools k !! p) as [old|] eqn:Hold; [|done].
  apply bind_Ok in H as (_ & _ & H). case_decide; [by inv_ok|].
  apply bind_Ok in H as (_ & _ & H). injection H as <-. intros a r Ha.
  match type of Ha with context [refresh_bundle_group_projections _ ?k2 ?cs] =>
    destruct (refresh_all_spec cs k2 a) as (Hp & Hac & _ & Hpol) end.
  rewrite (basis_frame _ _ a Hp Hac). rewrite Hpol in Ha.
  apply fmap_Some in Ha as (r0 & Hr0 & ->). cbn in Hr0. case_decide as Hin; [done|].
  rewrite (put_pool_basis k p old); [by apply Hf|done|right].
  destruct (acpools k !! (a, p)) as [m|] eqn:Em; [|done].
  destruct Hin. apply elem_member_classes. exists m. done.
Qed.

(** ** The write fence *)

(** A pool that new copies of the class can be written to. *)
Definition write_eligible (k : Cat) (a p : string) (pl : Pool) : Prop :=
  ∃ m, acpools k !! (a, p) = Some m ∧ acp_active m = true ∧
       pools k !! p = Some pl ∧ pl_accepts_writes pl = true.

(** The class's floors can be met by pools that accept writes: enough distinct pools, spread over
    enough implementation families. *)
Definition floors_writable (k : Cat) (a : string) (r : ArtifactClassPolicyRecord) : Prop :=
  ∃ ps : list (string * Pool),
    NoDup ps.*1 ∧ (∀ p pl, (p, pl) ∈ ps → write_eligible k a p pl) ∧
    pr_min_copies r <= Z.of_nat (length ps) ∧
    pr_min_impl_families r <= Z.of_nat (length (eligible_families k ps)).

Lemma elem_eligible_without k a p q pl :
  (q, pl) ∈ eligible_without k a p ↔ q ≠ p ∧ write_eligible k a q pl.
Proof.
  unfold eligible_without, write_eligible. rewrite list_elem_of_omap. split.
  - intros ([[a' q'] m] & Hin%elem_of_map_to_list & H). cbn in H.
    case_bool; [|done]. split_bools. subst a'.
    destruct (pools k !! q') as [pl'|] eqn:E; cbn in H; [|done].
    case_bool; [|done]. simplify_eq. eauto 6.
  - intros (Hne & m & Hm & Ha & Hp & Hw). exists ((a, q), m).
    split; [by apply elem_of_map_to_list|]. cbn.
    by rewrite bool_decide_true, Ha, bool_decide_false, Hp; cbn; [rewrite Hw|..].
Qed.

Lemma NoDup_eligible_without k a p : NoDup (eligible_without k a p).*1.
Proof.
  apply (NoDup_class_scan _ a). intros [[a' q'] m] [q pl] H. cbn in *.
  case_bool; [|done]. split_bools. destruct (pools k !! q'); cbn in H; [|done].
  case_bool; by simplify_eq.
Qed.

Lemma no_violation k p a m r :
  write_fence_floor_violations k p = [] →
  acpools k !! (a, p) = Some m → acp_active m = true → policies k !! a = Some r →
  pr_min_copies r <= Z.of_nat (length (eligible_without k a p)) ∧
  pr_min_impl_families r <= Z.of_nat (length (eligible_families k (eligible_without k a p))).
Proof.
  intros Hnil Hm Ha Hr.
  assert (Hv : class_violation k p a = None).
  { destruct (class_violation k p a) as [v|] eqn:E; [|done].
    assert (v ∈ ([] : list string)) as []%not_elem_of_nil. rewrite <- Hnil.
    apply list_elem_of_omap. exists a. split; [|done]. apply elem_member_classes. eauto. }
  unfold class_violation in Hv. rewrite Hr in Hv. case_bool; [|done]. split_bools. done.
Qed.

Lemma fence_eligible k a p pl q :
  q.1 ≠ p → write_eligible k a q.1 q.2 →
  write_eligible (put_pool p (set_accepts_writes pl false) k) a q.1 q.2.
Proof.
  intros Hne (m & ? & ? & ? & ?). exists m. cbn. by rewrite lookup_insert_ne.
Qed.

Lemma alarm_recorded uniform db p msg now :
  ∃ db' row, record_forced_write_fence_alarm uniform db p msg now = Ok db' ∧
    cond_tbl db' !! ("pool_lifecycle", "pool:" +:+ p) = Some row ∧
    rc_condition row = BLOCKED ∧ rc_message row = Some msg.
Proof.
  unfold record_forced_write_fence_alarm.
  destruct (record_observation db now "pool_lifecycle" _ _ _ _ _) as [db1 row1] eqn:E.
  assert (H1 : cond_tbl db1 !! ("pool_lifecycle", "pool:" +:+ p) = Some row1).
  { unfold record_observation in E.
    destruct (cond_tbl db !! _); injection E as <- <-; apply lookup_insert_eq. }
  cbn [fst]. unfold record_condition. rewrite H1. do 2 eexists. split; [done|].
  split; [apply lookup_insert_eq|done].
Qed.

(** C38: Fencing a pool that accepts writes.  It always fences the pool; without [force] every
    artifactclass actively placed on the pool still has enough write-eligible pools and families
    for its floors afterwards; with [force], a fence that breaks a floor leaves a [blocked]
    condition on the pool. *)
Theorem write_fence_guard uniform d p pl force now d' :
  pools (cat d) !! p = Some pl → pl_accepts_writes pl = true →
  set_pool_write_fence uniform d p false force now = Ok d' →
  pools (cat d') !! p = Some (set_accepts_writes pl false) ∧
  (force = false → jobs d' = jobs d ∧
    ∀ a m r, acpools (cat d) !! (a, p) = Some m → acp_active m = true →
             policies (cat d) !! a = Some r → floors_writable (cat d') a r) ∧
  (write_fence_floor_violations (cat d) p ≠ [] → force = true ∧
    ∃ row, cond_tbl (jobs d') !! ("pool_lifecycle", "pool:" +:+ p) = Some row ∧
           rc_condition row = BLOCKED).
Proof.
  intros Hp Hw H. unfold set_pool_write_fence in H. rewrite Hp, Hw in H. cbn in H.
  apply bind_Ok in H as (db & Hdb & H). injection H as <-. cbn.
  split; [apply lookup_insert_eq|].
  destruct (write_fence_floor_violations (cat d) p) as [|v vs] eqn:Hv.
  - injection Hdb as <-. split; [|done]. intros _. split; [done|]. intros a m r Hm Ha Hr.
    destruct (no_violation _ _ _ _ _ Hv Hm Ha Hr) as [Hn Hf].
    exists (eligible_without (cat d) a p). split_and!; [apply NoDup_eligible_without| |done|done].
    intros q pq [Hne Hq]%elem_eligible_without. by apply (fence_eligible _ _ _ _ (q, pq)).
  - destruct force; [|done]. split; [done|]. intros _. split; [done|].
    destruct (alarm_recorded uniform (jobs d) p (forced_fence_message p (v :: vs)) now)
      as (db' & row & Hok & Hrow & Hbl & _). rewrite Hok in Hdb. simplify_eq. eauto.
Qed.

(** The stored bundle-group projection never goes stale through a pool mutation: a change of
    representation (refused once a copy exists), a write fence and a retirement all keep every
    applied policy's projection equal to the live fingerprint. *)
Lemma pool_mutations_keep_projections uniform d p :
  projections_fresh (cat d) →
  (∀ rep k', set_pool_representation sha256_hex (cat d) p rep = Ok k' →
     projections_fresh k' ∧
     (∀ i c, t_rows (copies (cat d)) !! i = Some c → cp_pool_id c = Some p →
             pools k' !! p = pools (cat d) !! p)) ∧
  (∀ aw force now d', set_pool_write_fence uniform d p aw force now = Ok d' →
     projections_fresh (cat d')) ∧
  (∀ ret k', set_pool_retired (cat d) p ret = Ok k' → projections_fresh k').
Proof.
  intros Hf. split_and!.
  - intros rep k' H. split; [by eapply set_pool_representation_fresh|].
    intros i c Hi Hc. unfold set_pool_representation in H.
    destruct (pools (cat d) !! p) as [old|] eqn:Hold; [|done].
    apply bind_Ok in H as (_ & _ & H). case_decide; [inv_ok; by rewrite Hold|].
    apply bind_Ok in H as ([] & Hno%raise_if_Ok & _).
    apply not_true_iff_false in Hno. destruct Hno. apply existsb_exists.
    exists (i, c). split; [by apply list_elem_of_In, elem_of_tbl_list|]. by apply bool_decide_true.
  - intros aw force now d' H. unfold set_pool_write_fence in H.
    destruct (pools (cat d) !! p) as [old|] eqn:Hold; [|done].
    case_decide; [by inv_ok|]. apply bind_Ok in H as (db & _ & H). injection H as <-.
    by eapply put_pool_fresh.
  - intros ret k' H. unfold set_pool_retired in H.
    destruct (pools (cat d) !! p) as [old|] eqn:Hold; [|done].
    case_decide; [by inv_ok|]. apply bind_Ok in H as (_ & _ & H). injection H as <-.
    by eapply put_pool_fresh.
Qed.
End facts.
