(* ===== verification/MemberName.v ===== *)
(** * Member-name escaping

    [packages/sutradhara-receive/src/sutradhara_receive/member_name.py], the pure Python path.  A
    member name on disk is a list of bytes; its catalog form is text, represented here by its UTF-8
    bytes, so that a well-formed UTF-8 sequence is copied and every other byte is plain ASCII. *)

From Stdlib Require Import Strings.Byte.
From S2P Require Import Prelude.

#[export] Instance byte_eq_dec : EqDecision byte := byte_eq_dec.

Abbreviation raw_name := (list byte).

Definition code (b : byte) : Z := Z.of_N (to_N b).

Definition BACKSLASH_BYTE : byte := x5c.
Definition LETTER_X : byte := x78.

Definition must_escape_byte (b : byte) : bool := (code b <? 32) || (code b =? 127).

(** [_hex_escape]: backslash, [x], two lower-case hexadecimal digits. *)
Definition hex_nibble (n : Z) : byte :=
  match of_N (Z.to_N (if n <? 10 then 48 + n else 87 + n)) with Some b => b | None => x30 end.

Definition hex_escape (b : byte) : raw_name :=
  [BACKSLASH_BYTE; LETTER_X; hex_nibble (code b / 16); hex_nibble (code b mod 16)].

Definition utf8_sequence_len (first : byte) : nat :=
  let c := code first in
  if c <? 128 then 1%nat
  else if (194 <=? c) && (c <=? 223) then 2%nat
  else if (224 <=? c) && (c <=? 239) then 3%nat
  else if (240 <=? c) && (c <=? 244) then 4%nat
  else 0%nat.

(** Strict UTF-8 of one sequence of two to four bytes, as [bytes.decode("utf-8")] checks it: no
    overlong form, no surrogate, nothing above U+10FFFF. *)
Definition continuation (b : byte) : bool := (128 <=? code b) && (code b <=? 191).

Definition is_valid_utf8 (l : raw_name) : bool :=
  match l with
  | [a; b] => (194 <=? code a) && (code a <=? 223) && continuation b
  | [a; b; c] =>
      (224 <=? code a) && (code a <=? 239) && continuation b && continuation c &&
      (negb (code a =? 224) || (160 <=? code b)) && (negb (code a =? 237) || (code b <=? 159))
  | [a; b; c; d] =>
      (240 <=? code a) && (code a <=? 244) && continuation b && continuation c && continuation d &&
      (negb (code a =? 240) || (144 <=? code b)) && (negb (code a =? 244) || (code b <=? 143))
  | _ => false
  end.

(** The loop of [escape_member_name]: what is emitted at the head of the input and how much of it
    is consumed. *)
Definition escape_step (b : byte) (raw : raw_name) : raw_name * nat :=
  if decide (b = BACKSLASH_BYTE) then ([BACKSLASH_BYTE; BACKSLASH_BYTE], 1%nat)
  else if must_escape_byte b then (hex_escape b, 1%nat)
  else
    let n := utf8_sequence_len b in
    if (n =? 0)%nat then (hex_escape b, 1%nat)
    else if (n =? 1)%nat then ([b], 1%nat)
    else
      let candidate := take n raw in
      if (length candidate =? n)%nat && is_valid_utf8 candidate then (candidate, n)
      else (hex_escape b, 1%nat).

(** Every step consumes at least one byte, so the length of the input bounds the number of steps. *)
Fixpoint escape_from (fuel : nat) (raw : raw_name) : raw_name :=
  match fuel, raw with
  | S fuel, b :: _ =>
      let '(out, n) := escape_step b raw in out ++ escape_from fuel (drop n raw)
  | _, _ => []
  end.

Definition escape_member_name (raw : raw_name) : raw_name := escape_from (length raw) raw.

Inductive MemberNameError :=
  | BareBackslash
  | InvalidEscape
  | UnescapedControl.

Definition hex_value (b : byte) : option Z :=
  let c := code b in
  if (48 <=? c) && (c <=? 57) then Some (c - 48)
  else if (97 <=? c) && (c <=? 102) then Some (c - 87)
  else None.

Definition hex_pair (h l : byte) : option byte :=
  x ← hex_value h; y ← hex_value l; of_N (Z.to_N (x * 16 + y)).

Fixpoint unescape_member_name (text : raw_name) : result MemberNameError raw_name :=
  match text with
  | [] => Ok []
  | c :: rest =>
      if decide (c = BACKSLASH_BYTE) then
        match rest with
        | [] => Err BareBackslash
        | marker :: rest =>
            if decide (marker = BACKSLASH_BYTE) then cons BACKSLASH_BYTE <$> unescape_member_name rest
            else if decide (marker = LETTER_X) then
              match rest with
              | h :: l :: rest =>
                  match hex_pair h l with
                  | Some b => cons b <$> unescape_member_name rest
                  | None => Err InvalidEscape
                  end
              | _ => Err InvalidEscape
              end
            else Err InvalidEscape
        end
      else if must_escape_byte c then Err UnescapedControl
      else cons c <$> unescape_member_name rest
  end.

(** ** The round trip *)

Lemma fmap_cons_app {E} (b : byte) l (r : result E raw_name) :
  cons b <$> (app l <$> r) = app (b :: l) <$> r.
Proof. by destruct r. Qed.

Lemma unescape_hex b t :
  unescape_member_name (hex_escape b ++ t) = cons b <$> unescape_member_name t.
Proof. by destruct b. Qed.

Lemma unescape_plain b t :
  b ≠ BACKSLASH_BYTE → must_escape_byte b = false →
  unescape_member_name (b :: t) = cons b <$> unescape_member_name t.
Proof. intros Hb Hm. cbn. rewrite decide_False by done. by rewrite Hm. Qed.

Lemma high_plain b : 128 <= code b → b ≠ BACKSLASH_BYTE ∧ must_escape_byte b = false.
Proof.
  intros H. split; [intros ->; by apply Z.leb_le in H|]. unfold must_escape_byte.
  apply orb_false_iff. rewrite Z.ltb_ge, Z.eqb_neq. lia.
Qed.

Lemma unescape_high l t :
  Forall (λ b, 128 <= code b) l →
  unescape_member_name (l ++ t) = app l <$> unescape_member_name t.
Proof.
  induction 1 as [|b l Hb _ IH]; [cbn [app]; by destruct (unescape_member_name t)|].
  destruct (high_plain b Hb). rewrite <- app_comm_cons, unescape_plain by done.
  by rewrite IH, fmap_cons_app.
Qed.

Lemma valid_high l : is_valid_utf8 l = true → Forall (λ b, 128 <= code b) l.
Proof.
  unfold is_valid_utf8, continuation.
  destruct l as [|a [|b [|c [|d [|]]]]]; try discriminate; intros H; split_bools;
    repeat constructor; lia.
Qed.

Lemma escape_step_spec b rest out n t :
  escape_step b (b :: rest) = (out, n) →
  (1 <= n <= length (b :: rest))%nat ∧
  unescape_member_name (out ++ t) = app (take n (b :: rest)) <$> unescape_member_name t.
Proof.
  intros H. unfold escape_step in H.
  assert (Hone : ∀ o, (o, 1%nat) = (out, n) →
    unescape_member_name (o ++ t) = cons b <$> unescape_member_name t →
    (1 <= n <= length (b :: rest))%nat ∧
    unescape_member_name (out ++ t) = app (take n (b :: rest)) <$> unescape_member_name t).
  { intros o [= <- <-] ->. split; [cbn; lia|]. cbn [take]. by destruct (unescape_member_name t). }
  case_decide as Hbs; [subst b; by apply (Hone _ H)|].
  destruct (must_escape_byte b) eqn:Hm; [apply (Hone _ H), unescape_hex|].
  destruct (utf8_sequence_len b =? 0)%nat eqn:H0; [apply (Hone _ H), unescape_hex|].
  destruct (utf8_sequence_len b =? 1)%nat eqn:H1; [apply (Hone _ H); by apply unescape_plain|].
  case_bool; [|apply (Hone _ H), unescape_hex].
  injection H as <- <-. apply andb_true_iff in Hb as [Hlen Hv].
  apply Nat.eqb_eq in Hlen. apply Nat.eqb_neq in H0. split.
  - split; [lia|]. rewrite <- Hlen. rewrite length_take. lia.
  - apply unescape_high, valid_high. done.
Qed.

Lemma unescape_escape_from fuel raw :
  (length raw <= fuel)%nat → unescape_member_name (escape_from fuel raw) = Ok raw.
Proof.
  revert raw. induction fuel as [|fuel IH]; intros raw Hlen.
  { destruct raw; [done|cbn in Hlen; lia]. }
  destruct raw as [|b rest]; [done|]. cbn [escape_from].
  destruct (escape_step b (b :: rest)) as [out n] eqn:E.
  destruct (escape_step_spec b rest out n (escape_from fuel (drop n (b :: rest))) E) as [Hn ->].
  rewrite IH by (rewrite length_drop; lia). cbn [fmap result_fmap]. by rewrite take_drop.
Qed.

(** C36: Member names round-trip: every byte string, well-formed UTF-8 or not, is recovered from its
    catalog form. *)
Theorem member_name_roundtrip raw :
  unescape_member_name (escape_member_name raw) = Ok raw.
Proof. by apply unescape_escape_from. Qed.
