(* ===== verification/Accumulator.v ===== *)
(** * The bundle accumulator

    [archive_bundle.py]: the open accumulator of a bundle group, the member naming ladder, appends
    with their counters, due rules, the flush claim and the seal, staging transforms; and the
    quarantine step of [archive_fanout.py].  INSERTs that can lose a race take the database they
    meet as an argument ([race]), as [submit] does.  [sha256_hex] is [hashlib]'s hash, a parameter,
    and so are the member-path escapes, whose byte-level definition is [MemberName]. *)

From Stdlib Require Import Ascii.
From S2P Require Import Prelude Json JsonText JobModels Catalog RetryConfig Conditions.
From S2P Require Import Durability BundleGroup.

Inductive BundleError :=
  | NotContentHashBundle
  | UnknownBundleAsset
  | BundleStateError
  | BundleClaimLost
  | MemberNamingError
  | StagingTransformError
  | BundleIntegrityError
  | UnknownBundlePool
  | UnknownBundleCopy
  | AssetLocatorError
  | GroupFailure (e : GroupError).

Definition lift_group {A} (r : result GroupError A) : result BundleError A :=
  match r with Ok a => Ok a | Err e => Err (GroupFailure e) end.

(** ** Submission links *)

Definition SUBMISSION_LINKS_KEY : string := "submission_links".

(** A JSON boolean, which Python counts as an [int], is read as 0 or 1. *)
Definition link_of (e : json) : option (string * Z) :=
  match e with
  | JObj d =>
      match dget "submission_id" d, dget "submission_member_id" d with
      | Some (JStr s), Some (JInt n) => Some (s, n)
      | Some (JStr s), Some (JBool b) => Some (s, if b then 1 else 0)
      | _, _ => None
      end
  | _ => None
  end.

Definition submission_links (metadata : dict json) : list (string * Z) :=
  match dget SUBMISSION_LINKS_KEY metadata with
  | Some (JList raw) => omap link_of raw
  | _ => []
  end.

Definition render_link (l : string * Z) : json :=
  JObj [("submission_id", JStr l.1); ("submission_member_id", JInt l.2)].

Definition submission_link_metadata (submission_id : string) (member_id : Z) : dict json :=
  [(SUBMISSION_LINKS_KEY, JList [render_link (submission_id, member_id)])].

(** One key of the incoming metadata; the flag says whether anything changed. *)
Definition merge_entry (acc : dict json * bool) (kv : string * json) : dict json * bool :=
  let '(merged, changed) := acc in
  if decide (kv.1 = SUBMISSION_LINKS_KEY) then
    let existing := submission_links merged in
    let added := filter (λ l, l ∉ existing) (submission_links [(SUBMISSION_LINKS_KEY, kv.2)]) in
    match added with
    | [] => (merged, changed)
    | _ => (dset kv.1 (JList (render_link <$> existing ++ added)) merged, true)
    end
  else
    match dget kv.1 merged with
    | Some _ => (merged, changed)
    | None => (dset kv.1 kv.2 merged, true)
    end.

Definition set_member_metadata (m : BundleMember) (md : option (dict json)) : BundleMember := {|
  bm_bundle_id := bm_bundle_id m; bm_logical_asset_hash := bm_logical_asset_hash m;
  bm_artifactclass := bm_artifactclass m; bm_member_path := bm_member_path m;
  bm_source_path := bm_source_path m; bm_size_bytes := bm_size_bytes m;
  bm_file_sha256 := bm_file_sha256 m; bm_source_metadata := md |}.

Definition merge_member_source_metadata (m : BundleMember) (incoming : option (dict json))
    : BundleMember * bool :=
  match incoming with
  | None | Some [] => (m, false)
  | Some kvs =>
      let '(merged, changed) := foldl merge_entry (default [] (bm_source_metadata m), false) kvs in
      if changed : bool then (set_member_metadata m (Some merged), true) else (m, false)
  end.

(** ** Member names *)

(** [s.rpartition(sep)] and [s.partition(sep)], [None] when the separator is absent. *)
Fixpoint rpartition (sep : ascii) (s : string) : option (string * string) :=
  match s with
  | EmptyString => None
  | String c s' =>
      match rpartition sep s' with
      | Some (h, b) => Some (String c h, b)
      | None => if Ascii.eqb c sep then Some ("", s') else None
      end
  end.

Fixpoint partition (sep : ascii) (s : string) : option (string * string) :=
  match s with
  | EmptyString => None
  | String c s' =>
      if Ascii.eqb c sep then Some ("", s')
      else match partition sep s' with
           | Some (h, b) => Some (String c h, b)
           | None => None
           end
  end.

(** The directory part with its slash, and the final segment. *)
Definition split_dir (path : string) : string * string :=
  match rpartition "/" path with
  | Some (head, base) => (head +:+ "/", base)
  | None => ("", path)
  end.

Definition path_head (path : string) : string :=
  match rpartition "/" path with Some (head, _) => head | None => "" end.

Definition tag_base (base tag : string) : string :=
  match partition "." base with
  | Some (stem, rest) => stem +:+ "." +:+ tag +:+ "." +:+ rest
  | None => base +:+ "." +:+ tag
  end.

Definition tag_member_path (member_path tag : string) : string :=
  (split_dir member_path).1 +:+ tag_base (split_dir member_path).2 tag.

Fixpoint strip_prefix (p s : string) : option string :=
  match p, s with
  | EmptyString, _ => Some s
  | String a p, String b s => if Ascii.eqb a b then strip_prefix p s else None
  | String _ _, EmptyString => None
  end.

Fixpoint strip_suffix (suffix s : string) : option string :=
  if decide (s = suffix) then Some ""
  else match s with
       | EmptyString => None
       | String c s => String c <$> strip_suffix suffix s
       end.

Definition non_empty (s : string) : option string := if decide (s = "") then None else Some s.

Definition extract_member_tag (requested actual : string) : option string :=
  if decide (actual = requested) then None
  else if decide (path_head requested ≠ path_head actual) then None
  else
    let r_base := (split_dir requested).2 in
    let a_base := (split_dir actual).2 in
    match partition "." r_base with
    | Some (stem, rest) =>
        remainder ← strip_prefix (stem +:+ ".") a_base;
        tag ← strip_suffix ("." +:+ rest) remainder;
        non_empty tag
    | None => remainder ← strip_prefix (r_base +:+ ".") a_base; non_empty remainder
    end.

Definition slug_char (c : ascii) : bool :=
  let n := nat_of_ascii c in
  ((65 <=? n) && (n <=? 90) || (97 <=? n) && (n <=? 122) || (48 <=? n) && (n <=? 57) ||
   (n =? 95) || (n =? 45))%nat.

(** Every maximal run of other characters becomes one dash. *)
Fixpoint slug_from (in_run : bool) (s : string) : string :=
  match s with
  | EmptyString => ""
  | String c s =>
      if slug_char c then String c (slug_from false s)
      else if in_run then slug_from true s
      else String "-" (slug_from true s)
  end.

Definition class_slug (artifactclass : string) : string :=
  match slug_from false artifactclass with EmptyString => "class" | s => s end.

(** [bytes.hex()] *)
Fixpoint bytes_hex (b : bytes) : string :=
  match b with
  | EmptyString => ""
  | String c b =>
      let n := nat_of_ascii c in
      String (hex_digit (n / 16)) (String (hex_digit (n mod 16)) (bytes_hex b))
  end.

Definition NAME_LADDER_PREFIXES : list nat := [10; 20; 32; 48; 64]%nat.

(** ** Row updates *)

Definition put_bundle (id : string) (b : Bundle) (k : Cat) : Cat :=
  with_bundles (<[id := b]> (bundles k)) k.

Definition set_flow (b : Bundle) (status : string) (claimed : option string)
    (flushed sealed : option time) : Bundle := {|
  bu_bundle_group := bu_bundle_group b; bu_group_basis := bu_group_basis b; bu_status := status;
  bu_total_bytes := bu_total_bytes b; bu_member_count := bu_member_count b;
  bu_target_bytes := bu_target_bytes b; bu_max_age_seconds := bu_max_age_seconds b;
  bu_archive_id := bu_archive_id b; bu_claimed_by := claimed; bu_opened_at := bu_opened_at b;
  bu_flushed_at := flushed; bu_sealed_at := sealed; bu_held_at := bu_held_at b;
  bu_review_summary := bu_review_summary b; bu_scan_summary := bu_scan_summary b;
  bu_customer_manifest_path := bu_customer_manifest_path b |}.

Definition set_archive_id (b : Bundle) (archive_id : string) : Bundle := {|
  bu_bundle_group := bu_bundle_group b; bu_group_basis := bu_group_basis b;
  bu_status := bu_status b; bu_total_bytes := bu_total_bytes b;
  bu_member_count := bu_member_count b; bu_target_bytes := bu_target_bytes b;
  bu_max_age_seconds := bu_max_age_seconds b; bu_archive_id := Some archive_id;
  bu_claimed_by := bu_claimed_by b; bu_opened_at := bu_opened_at b;
  bu_flushed_at := bu_flushed_at b; bu_sealed_at := bu_sealed_at b; bu_held_at := bu_held_at b;
  bu_review_summary := bu_review_summary b; bu_scan_summary := bu_scan_summary b;
  bu_customer_manifest_path := bu_customer_manifest_path b |}.

Definition set_held (b : Bundle) (now : time) (summary : dict json) : Bundle := {|
  bu_bundle_group := bu_bundle_group b; bu_group_basis := bu_group_basis b; bu_status := "held";
  bu_total_bytes := bu_total_bytes b; bu_member_count := bu_member_count b;
  bu_target_bytes := bu_target_bytes b; bu_max_age_seconds := bu_max_age_seconds b;
  bu_archive_id := bu_archive_id b; bu_claimed_by := bu_claimed_by b;
  bu_opened_at := bu_opened_at b; bu_flushed_at := bu_flushed_at b;
  bu_sealed_at := bu_sealed_at b; bu_held_at := Some now; bu_review_summary := Some summary; bu_scan_summary := bu_scan_summary b;
  bu_customer_manifest_path := bu_customer_manifest_path b |}.

Definition set_summary (b : Bundle) (summary : dict json) : Bundle := {|
  bu_bundle_group := bu_bundle_group b; bu_group_basis := bu_group_basis b;
  bu_status := bu_status b; bu_total_bytes := bu_total_bytes b;
  bu_member_count := bu_member_count b; bu_target_bytes := bu_target_bytes b;
  bu_max_age_seconds := bu_max_age_seconds b; bu_archive_id := bu_archive_id b;
  bu_claimed_by := bu_claimed_by b; bu_opened_at := bu_opened_at b;
  bu_flushed_at := bu_flushed_at b; bu_sealed_at := bu_sealed_at b; bu_held_at := bu_held_at b;
  bu_review_summary := Some summary; bu_scan_summary := bu_scan_summary b;
  bu_customer_manifest_path := bu_customer_manifest_path b |}.

(** The atomic counter UPDATE: [total_bytes + size], [member_count + n]. *)
Definition add_counters (b : Bundle) (size n : Z) : Bundle := {|
  bu_bundle_group := bu_bundle_group b; bu_group_basis := bu_group_basis b;
  bu_status := bu_status b; bu_total_bytes := bu_total_bytes b + size;
  bu_member_count := bu_member_count b + n; bu_target_bytes := bu_target_bytes b;
  bu_max_age_seconds := bu_max_age_seconds b; bu_archive_id := bu_archive_id b;
  bu_claimed_by := bu_claimed_by b; bu_opened_at := bu_opened_at b;
  bu_flushed_at := bu_flushed_at b; bu_sealed_at := bu_sealed_at b; bu_held_at := bu_held_at b;
  bu_review_summary := bu_review_summary b; bu_scan_summary := bu_scan_summary b;
  bu_customer_manifest_path := bu_customer_manifest_path b |}.

Definition bump_bundle (id : string) (size n : Z) (k : Cat) : Cat :=
  with_bundles (alter (λ b, add_counters b size n) id (bundles k)) k.

(** ** Open accumulators *)

Definition is_open (b : Bundle) : bool := bool_decide (bu_status b = "open").

(** The rows of the partial unique index [uq_bundle_open_accumulator_per_group]. *)
Definition is_accumulator (b : Bundle) : bool :=
  is_open b && bool_decide (bu_archive_id b = None).

Definition opening_order (ib : string * Bundle) : Z * string := (bu_opened_at ib.2, ib.1).

Definition find_open_accumulator (k : Cat) (fingerprint : string) : option (string * Bundle) :=
  head (sort_by opening_order
          (filter (λ ib, (bool_decide (bu_bundle_group ib.2 = fingerprint) && is_accumulator ib.2) = true)
             (map_to_list (bundles k)))).

(** [d.get(key) == n], a boolean being 0 or 1 *)
Definition int_at (key : string) (d : dict json) (n : Z) : bool :=
  match dget key d with
  | Some (JInt m) => m =? n
  | Some (JBool b) => (if b then 1 else 0) =? n
  | _ => false
  end.

(** [_assert_open_witness] *)
Definition witness_matches (b : Bundle) : bool :=
  let effective := as_obj (dget "effective" (as_obj (Some (bu_group_basis b)))) in
  int_at "target_bytes" effective (bu_target_bytes b) &&
  int_at "max_age_seconds" effective (bu_max_age_seconds b).

Definition assert_open_witness (b : Bundle) : result BundleError unit :=
  raise_if (negb (witness_matches b)) BundleStateError.

(** The id is the caller's or a fresh one ([uuid4]). *)
Definition resolve_bundle_id (bundle_id : option string) (fresh : string) : string :=
  match bundle_id with Some (String c s) => String c s | _ => fresh end.

Definition new_bundle (fingerprint : string) (basis : list (dict json))
    (target_bytes max_age_seconds : Z) (archive_id : option string) (now : time)
    : result BundleError Bundle :=
  document ← lift_group (group_basis_document basis BASIS_SOURCE_DERIVED target_bytes max_age_seconds);
  let b := {| bu_bundle_group := fingerprint; bu_group_basis := document; bu_status := "open";
              bu_total_bytes := 0; bu_member_count := 0; bu_target_bytes := target_bytes;
              bu_max_age_seconds := max_age_seconds; bu_archive_id := archive_id;
              bu_claimed_by := None; bu_opened_at := now; bu_flushed_at := None;
              bu_sealed_at := None; bu_held_at := None; bu_review_summary := None;
              bu_scan_summary := None; bu_customer_manifest_path := None |} in
  _ ← assert_open_witness b;
  Ok b.

(** The INSERT of a bundle violates the primary key or the partial unique index. *)
Definition bundle_conflict (k : Cat) (id : string) (b : Bundle) : bool :=
  bool_decide (is_Some (bundles k !! id)) ||
  is_accumulator b && bool_decide (is_Some (find_open_accumulator k (bu_bundle_group b))).

Section accumulator.
Context (sha256_hex : string → string).

(** [get_or_create_open_bundle]: the bundle's id and whether it was created. *)
Definition get_or_create_open_bundle (k : Cat) (race : Cat → Cat) (artifactclass : string)
    (policy : ArtifactClassPolicyRecord) (bundle_id : option string) (fresh : string) (now : time)
    : result BundleError (Cat * string * bool) :=
  let '(fingerprint, basis) := compute_bundle_group sha256_hex k artifactclass in
  match find_open_accumulator k fingerprint with
  | Some (id, b) => _ ← assert_open_witness b; Ok (k, id, false)
  | None =>
      '(target_bytes, max_age) ← lift_group
         (effective_group_thresholds k artifactclass policy fingerprint basis);
      b ← new_bundle fingerprint basis target_bytes max_age None now;
      let id := resolve_bundle_id bundle_id fresh in
      let k := race k in
      if bundle_conflict k id b then
        match find_open_accumulator k fingerprint with
        | Some (id, _) => Ok (k, id, false)
        | None => Err BundleStateError
        end
      else Ok (put_bundle id b k, id, true)
  end.

(** ** Naming *)

Definition class_seed (artifactclass : string) : string :=
  String.substring 0 12 (sha256_hex artifactclass).

Definition name_ladder (requested : string) (file_sha256 : bytes) (artifactclass : string)
    : list string :=
  let digest := bytes_hex file_sha256 in
  requested ::
  ((λ n, tag_member_path requested (String.substring 0 n digest)) <$> NAME_LADDER_PREFIXES) ++
  [tag_member_path requested
     (digest +:+ "." +:+ class_slug artifactclass +:+ "-" +:+ class_seed artifactclass)].

(** The row at [(bundle_id, member_path)], unique by its constraint. *)
Definition member_at (k : Cat) (bundle_id path : string) : option (Z * BundleMember) :=
  head (filter (λ im, bm_bundle_id im.2 = bundle_id ∧ bm_member_path im.2 = path)
          (tbl_list (members k))).

(** The request of one append. *)
Record MemberRequest := {
  mr_artifactclass : string;
  mr_logical_asset_hash : bytes;
  mr_member_path : string;
  mr_source_path : option string;
  mr_size_bytes : Z;
  mr_file_sha256 : bytes;
  mr_source_metadata : option (dict json);
}.

Definition own_row (q : MemberRequest) (m : BundleMember) : bool :=
  bool_decide (bm_artifactclass m = mr_artifactclass q) &&
  bool_decide (bm_logical_asset_hash m = mr_logical_asset_hash q).

(** The loop of [_resolve_member_name] over the rungs. *)
Fixpoint walk_ladder (k : Cat) (bundle_id : string) (q : MemberRequest)
    (first_occupant : option (Z * BundleMember)) (rungs : list string)
    : result BundleError (string * option (Z * BundleMember) * option (Z * BundleMember)) :=
  match rungs with
  | [] => Err MemberNamingError
  | candidate :: rungs =>
      match member_at k bundle_id candidate with
      | None => Ok (candidate, None, first_occupant)
      | Some (i, m) =>
          if own_row q m then Ok (candidate, Some (i, m), first_occupant)
          else
            let first_occupant := match first_occupant with
                                  | Some o => Some o
                                  | None => Some (i, m)
                                  end in
            walk_ladder k bundle_id q first_occupant rungs
      end
  end.

Definition ladder_of (q : MemberRequest) : list string :=
  name_ladder (mr_member_path q) (mr_file_sha256 q) (mr_artifactclass q).

Definition resolve_member_name (k : Cat) (bundle_id : string) (q : MemberRequest)
    : result BundleError (string * option (Z * BundleMember) * option (Z * BundleMember)) :=
  walk_ladder k bundle_id q None (ladder_of q).

(** ** Appending *)

Definition require_asset (k : Cat) (h : bytes) : result BundleError unit :=
  _ ← raise_if (negb (is_content_hash h)) NotContentHashBundle;
  raise_if (negb (bool_decide (is_Some (assets k !! h)))) UnknownBundleAsset.

Definition member_row (bundle_id path : string) (q : MemberRequest) : BundleMember := {|
  bm_bundle_id := bundle_id; bm_logical_asset_hash := mr_logical_asset_hash q;
  bm_artifactclass := mr_artifactclass q; bm_member_path := path;
  bm_source_path := mr_source_path q; bm_size_bytes := mr_size_bytes q;
  bm_file_sha256 := mr_file_sha256 q; bm_source_metadata := mr_source_metadata q |}.

(** What the append returns and the event it emits for a disambiguated name. *)
Record Appended := {
  ap_member_id : Z;
  ap_member : BundleMember;
  ap_created : bool;
  ap_disambiguated : option (string * option (Z * BundleMember));
}.

(** The two attempts of [add_bundle_member]; [race i] is what the [i]-th INSERT meets. *)
Fixpoint append_attempts (n : nat) (race : nat → Cat → Cat) (i : nat) (k : Cat)
    (bundle_id : string) (q : MemberRequest) : result BundleError (Cat * Appended) :=
  match n with
  | O => Err BundleStateError
  | S n =>
      '(path, existing, occupant) ← resolve_member_name k bundle_id q;
      match existing with
      | Some (mid, m) =>
          let '(m', changed) := merge_member_source_metadata m (mr_source_metadata q) in
          let k := if changed : bool then with_members (tbl_put mid m' (members k)) k else k in
          Ok (k, {| ap_member_id := mid; ap_member := m'; ap_created := false;
                    ap_disambiguated := None |})
      | None =>
          let k := race i k in
          match member_at k bundle_id path with
          | Some _ => append_attempts n race (S i) k bundle_id q
          | None =>
              let m := member_row bundle_id path q in
              let '(t, mid) := tbl_insert m (members k) in
              let k := bump_bundle bundle_id (mr_size_bytes q) 1 (with_members t k) in
              Ok (k, {| ap_member_id := mid; ap_member := m; ap_created := true;
                        ap_disambiguated :=
                          if decide (path = mr_member_path q) then None else Some (path, occupant) |})
          end
      end
  end.

Definition add_bundle_member (k : Cat) (race : nat → Cat → Cat) (bundle_id : string)
    (q : MemberRequest) : result BundleError (Cat * Appended) :=
  match bundles k !! bundle_id with
  | None => Err BundleStateError
  | Some b =>
      _ ← raise_if (negb (is_open b)) BundleStateError;
      _ ← require_asset k (mr_logical_asset_hash q);
      append_attempts 2 race 0 k bundle_id q
  end.

(** ** Enqueueing *)

(** A source path is UTF-8 text, or is known by the hexadecimal form of its bytes. *)
Inductive SourcePath :=
  | Utf8Path (p : string)
  | RawPath (hex : string).

Record EnqueueRequest := {
  eq_artifactclass : string;
  eq_logical_asset_hash : bytes;
  eq_source_path : SourcePath;
  eq_member_path : option string;
  eq_member_path_is_escaped : bool;
  eq_bundle_id : option string;
  eq_source_metadata : option (dict json);
  eq_size_bytes : Z;
  eq_file_sha256 : bytes;
}.

Context (escape_path_name : SourcePath → string) (escape_path_text : string → string).

Definition path_in_bundle (q : EnqueueRequest) : string :=
  match eq_member_path q with
  | None => escape_path_name (eq_source_path q)
  | Some p => if eq_member_path_is_escaped q then p else escape_path_text p
  end.

Definition enqueue_metadata (q : EnqueueRequest) : option (dict json) :=
  let metadata := default [] (eq_source_metadata q) in
  let metadata := match eq_source_path q with
                  | Utf8Path _ => metadata
                  | RawPath hex => dset "source_path_bytes_hex" (JStr hex) metadata
                  end in
  match metadata with [] => None | _ => Some metadata end.

Definition append_request (q : EnqueueRequest) : MemberRequest := {|
  mr_artifactclass := eq_artifactclass q; mr_logical_asset_hash := eq_logical_asset_hash q;
  mr_member_path := path_in_bundle q;
  mr_source_path := match eq_source_path q with Utf8Path p => Some p | RawPath _ => None end;
  mr_size_bytes := eq_size_bytes q; mr_file_sha256 := eq_file_sha256 q;
  mr_source_metadata := enqueue_metadata q |}.

(** The open include-alone bundle that already holds this very member. *)
Definition find_funnel (k : Cat) (fingerprint : string) (q : MemberRequest) : option string :=
  fst <$> head (sort_by opening_order
    (filter (λ ib, (bool_decide (bu_bundle_group ib.2 = fingerprint) && is_open ib.2 &&
                    negb (bool_decide (bu_archive_id ib.2 = None)) &&
                    existsb (λ im, bool_decide (bm_bundle_id im.2 = ib.1) &&
                                   bool_decide (bm_member_path im.2 = mr_member_path q) &&
                                   own_row q im.2) (tbl_list (members k))) = true)
       (map_to_list (bundles k)))).

(** Mint an include-alone funnel; the loser of a race on an explicit id adopts the winner. *)
Definition mint_funnel (k : Cat) (race : Cat → Cat) (fingerprint : string)
    (basis : list (dict json)) (target_bytes max_age : Z) (bundle_id : option string)
    (fresh : string) (now : time) : result BundleError (Cat * string) :=
  let id := resolve_bundle_id bundle_id fresh in
  b ← new_bundle fingerprint basis target_bytes max_age None now;
  let b := set_archive_id b ("archive-" +:+ id) in
  let k := race k in
  if bundle_conflict k id b then
    match bundles k !! id with
    | Some w =>
        if is_open w && bool_decide (bu_bundle_group w = fingerprint) &&
           negb (bool_decide (bu_archive_id w = None))
        then Ok (k, id) else Err BundleStateError
    | None => Err BundleStateError
    end
  else Ok (put_bundle id b k, id).

Definition enqueue_artifact (k : Cat) (mint_race : Cat → Cat) (race : nat → Cat → Cat)
    (policy : ArtifactClassPolicyRecord) (q : EnqueueRequest) (fresh : string) (now : time)
    : result BundleError (Cat * string * Appended) :=
  let m := append_request q in
  _ ← require_asset k (eq_logical_asset_hash q);
  let '(fingerprint, basis) := compute_bundle_group sha256_hex k (eq_artifactclass q) in
  '(target_bytes, max_age) ← lift_group
     (effective_group_thresholds k (eq_artifactclass q) policy fingerprint basis);
  '(k, id) ←
    (if target_bytes <=? eq_size_bytes q then
       match find_funnel k fingerprint m with
       | Some id => Ok (k, id)
       | None => mint_funnel k mint_race fingerprint basis target_bytes max_age (eq_bundle_id q)
                   fresh now
       end
     else
       '(k, id, _) ← get_or_create_open_bundle k mint_race (eq_artifactclass q) policy
                       (eq_bundle_id q) fresh now;
       Ok (k, id));
  '(k, appended) ← add_bundle_member k race id m;
  Ok (k, id, appended).
End accumulator.

(** ** Due, claim, seal, hold *)

Definition bundle_due (b : Bundle) (now : time) (force : bool) : bool :=
  if negb (is_open b) then false
  else if force then 0 <? bu_member_count b
  else if bu_member_count b =? 0 then false
  else if negb (bu_target_bytes b =? 0) && (bu_target_bytes b <=? bu_total_bytes b) then true
  else if bu_max_age_seconds b =? 0 then false
  else seconds (bu_max_age_seconds b) <=? now - bu_opened_at b.

(** The guarded [open -> flushing] compare-and-set. *)
Definition claim_bundle_for_flush (k : Cat) (id token : string) (now : time)
    : result BundleError Cat :=
  match bundles k !! id with
  | Some b =>
      if is_open b
      then Ok (put_bundle id (set_flow b "flushing" (Some token) (Some now) (bu_sealed_at b)) k)
      else Err BundleClaimLost
  | None => Err BundleClaimLost
  end.

(** The guarded seal: status [flushing] under this token. *)
Definition close_bundle (k : Cat) (id token : string) (now : time) : result BundleError Cat :=
  match bundles k !! id with
  | Some b =>
      if bool_decide (bu_status b = "flushing") && bool_decide (bu_claimed_by b = Some token)
      then Ok (put_bundle id (set_flow b "sealed" (bu_claimed_by b) (bu_flushed_at b) (Some now)) k)
      else Err BundleClaimLost
  | None => Err BundleClaimLost
  end.

Definition hold_bundle (k : Cat) (id : string) (summary : dict json) (now : time) : Cat :=
  with_bundles (alter (λ b, set_held b now summary) id (bundles k)) k.

(** The start of [flush_bundle]: the checks, the claim and the archive id, in one transaction.
    Choosing targets and the work-directory check read only. *)
Definition begin_flush (k : Cat) (id token : string) (now : time) : result BundleError Cat :=
  match bundles k !! id with
  | None => Err BundleStateError
  | Some b =>
      _ ← raise_if (negb (is_open b)) BundleStateError;
      _ ← raise_if (bu_member_count b =? 0) BundleStateError;
      k ← claim_bundle_for_flush k id token now;
      Ok (match bu_archive_id b with
          | None => with_bundles (alter (λ b, set_archive_id b ("archive-" +:+ id)) id (bundles k)) k
          | Some _ => k
          end)
  end.

(** ** Quarantine of one member during a flush ([archive_fanout.py]) *)

Definition move_member (m : BundleMember) (bundle_id : string) : BundleMember := {|
  bm_bundle_id := bundle_id; bm_logical_asset_hash := bm_logical_asset_hash m;
  bm_artifactclass := bm_artifactclass m; bm_member_path := bm_member_path m;
  bm_source_path := bm_source_path m; bm_size_bytes := bm_size_bytes m;
  bm_file_sha256 := bm_file_sha256 m; bm_source_metadata := bm_source_metadata m |}.

Definition move_transform (t : StagingTransform) (bundle_id : string) : StagingTransform := {|
  tr_bundle_member_id := tr_bundle_member_id t; tr_bundle_id := bundle_id;
  tr_logical_asset_hash := tr_logical_asset_hash t; tr_artifactclass := tr_artifactclass t;
  tr_step_order := tr_step_order t; tr_kind := tr_kind t; tr_reversible := tr_reversible t;
  tr_original_member_path := tr_original_member_path t;
  tr_stored_member_path := tr_stored_member_path t;
  tr_original_size_bytes := tr_original_size_bytes t;
  tr_stored_size_bytes := tr_stored_size_bytes t; tr_original_sha256 := tr_original_sha256 t;
  tr_stored_sha256 := tr_stored_sha256 t; tr_parameters := tr_parameters t;
  tr_result := tr_result t |}.

Definition quarantine_bundle (b : Bundle) (qid : string) (now : time) : Bundle := {|
  bu_bundle_group := bu_bundle_group b; bu_group_basis := bu_group_basis b; bu_status := "held";
  bu_total_bytes := 0; bu_member_count := 0; bu_target_bytes := bu_target_bytes b;
  bu_max_age_seconds := bu_max_age_seconds b; bu_archive_id := Some ("archive-" +:+ qid);
  bu_claimed_by := None; bu_opened_at := now; bu_flushed_at := None; bu_sealed_at := None;
  bu_held_at := Some now; bu_review_summary := Some [("quarantined_members", JList [])];
  bu_scan_summary := None; bu_customer_manifest_path := None |}.

Definition quarantine_entry (m : BundleMember) (message : string) : json :=
  JObj [("member_path", JStr (bm_member_path m)); ("artifactclass", JStr (bm_artifactclass m));
        ("reason", JStr (String.substring 0 500 message))].

Definition append_quarantined (b : Bundle) (e : json) : Bundle :=
  let summary := default [] (bu_review_summary b) in
  set_summary b (dset "quarantined_members"
    (JList (as_list (dget "quarantined_members" summary) ++ [e])) summary).

(** [quarantine] is the flush's quarantine bundle when it has one, [fresh] the id of a new one. *)
Definition quarantine_member (k : Cat) (id : string) (mid : Z) (quarantine : option string)
    (fresh message : string) (now : time) : result BundleError (Cat * string) :=
  match bundles k !! id, t_rows (members k) !! mid with
  | Some b, Some m =>
      '(k, qid) ← match quarantine with
                  | Some qid => Ok (k, qid)
                  | None =>
                      _ ← raise_if (bool_decide (is_Some (bundles k !! fresh))) BundleIntegrityError;
                      Ok (put_bundle fresh (quarantine_bundle b fresh now) k, fresh)
                  end;
      _ ← raise_if (bool_decide (is_Some (member_at k qid (bm_member_path m)))) BundleIntegrityError;
      let k := with_members (tbl_put mid (move_member m qid) (members k)) k in
      let k := with_transforms
                 {| t_rows := (λ t, if decide (tr_bundle_member_id t = mid) then move_transform t qid else t)
                              <$> t_rows (transforms k);
                    t_next := t_next (transforms k) |} k in
      let k := bump_bundle id (- bm_size_bytes m) (-1) k in
      let k := bump_bundle qid (bm_size_bytes m) 1 k in
      Ok (with_bundles (alter (λ b, append_quarantined b (quarantine_entry m message)) qid
                          (bundles k)) k, qid)
  | _, _ => Err BundleStateError
  end.

(** ** Staging transforms *)

Definition record_staging_transform (k : Cat) (mid : Z) (m : BundleMember) (t : StagingTransform)
    (is_final : bool) : result BundleError (Cat * Z) :=
  _ ← raise_if (is_final && negb (bool_decide (tr_stored_member_path t = bm_member_path m)))
        StagingTransformError;
  _ ← raise_if (bool_decide (tr_step_order t = 0) &&
                negb (bool_decide (tr_original_sha256 t = bm_logical_asset_hash m)))
        StagingTransformError;
  _ ← raise_if (is_final && negb (bool_decide (tr_stored_sha256 t = bm_file_sha256 m)))
        StagingTransformError;
  let row := {| tr_bundle_member_id := mid; tr_bundle_id := bm_bundle_id m;
                tr_logical_asset_hash := bm_logical_asset_hash m;
                tr_artifactclass := tr_artifactclass t; tr_step_order := tr_step_order t;
                tr_kind := tr_kind t; tr_reversible := tr_reversible t;
                tr_original_member_path := tr_original_member_path t;
                tr_stored_member_path := tr_stored_member_path t;
                tr_original_size_bytes := tr_original_size_bytes t;
                tr_stored_size_bytes := tr_stored_size_bytes t;
                tr_original_sha256 := tr_original_sha256 t; tr_stored_sha256 := tr_stored_sha256 t;
                tr_parameters := tr_parameters t; tr_result := tr_result t |} in
  _ ← raise_if (existsb (λ it,
          bool_decide (tr_step_order it.2 = tr_step_order row) &&
          (bool_decide (tr_bundle_member_id it.2 = mid) ||
           bool_decide (tr_bundle_id it.2 = tr_bundle_id row) &&
           bool_decide (tr_stored_member_path it.2 = tr_stored_member_path row)))
          (tbl_list (transforms k))) BundleIntegrityError;
  let '(t, id) := tbl_insert row (transforms k) in
  Ok (with_transforms t k, id).
