(* ===== verification/FanoutMap.v ===== *)
(** * What a flush sends to the archive builder

    The first half of [archive_fanout.py]: the member snapshot of a flush, submission lineage and
    the identity gate, the source map that is rendered from the snapshot ([render_source_map] of
    [arrangement.py]), the attribution of a builder's failure to a member, and the reading of the
    builder's report.  A path is its text; one recovered from [source_path_bytes_hex] may hold bytes
    that are not UTF-8, which Python keeps as surrogates and the map cannot carry. *)

From stdpp Require Import pretty.
From Stdlib Require Import Ascii Strings.Byte.
From S2P Require Import Prelude Json JsonText JobModels Catalog RetryConfig Conditions MemberName.
From S2P Require Import Leases Engine Durability BundleGroup Copies Scrub Accumulator.

Inductive FanoutError :=
  | ManifestSigningError
  | BundleNotFound
  | BundleNotOpen
  | BundleHasNoMembers
  | TargetFailure (e : DurError)
  | KeyEpochMissing (pool_id : string)
  | FlushPreflightShort
  | ClaimFailure (e : BundleError)
  | AllMembersQuarantined
  | BundleOversize (member_path : string)
  | QuarantineBoundExceeded
  | SubmissionIdentity (member_id : Z)
  | NoSourcePath
  | InvalidSourceHex
  | UnmappableMember (member_path : string)
  | MemberBuildFailure (row : Z * BundleMember) (message : string)
  | BuildFailure (message : string)
  | BuiltMemberMismatch (member_path : string)
  | BuiltMembersOmitted (member_paths : list string)
  | ManifestMalformed
  | MissingRecipientEpochs
  | UnhandledFailure (message : string)
  | ConditionFailure (e : CondError).

(** ** Hexadecimal bytes and paths *)

Definition is_space (c : ascii) : bool :=
  let n := nat_of_ascii c in ((9 <=? n) && (n <=? 13) || (n =? 32))%nat.

Definition hex_code (c : ascii) : option nat :=
  let n := nat_of_ascii c in
  if ((48 <=? n) && (n <=? 57))%nat then Some (n - 48)%nat
  else if ((97 <=? n) && (n <=? 102))%nat then Some (n - 87)%nat
  else if ((65 <=? n) && (n <=? 70))%nat then Some (n - 55)%nat
  else None.

(** [bytes.fromhex]: pairs of digits, blanks allowed between the pairs; [None] is its ValueError. *)
Fixpoint fromhex (s : string) : option bytes :=
  match s with
  | EmptyString => Some ""
  | String c s =>
      if is_space c then fromhex s
      else match s with
           | EmptyString => None
           | String d s =>
               h ← hex_code c; l ← hex_code d;
               String (ascii_of_nat (16 * h + l)) <$> fromhex s
           end
  end.

(** [bytes.decode("utf-8")] succeeds. *)
Fixpoint utf8_from (fuel : nat) (raw : raw_name) : bool :=
  match fuel, raw with
  | _, [] => true
  | O, _ => false
  | S fuel, b :: rest =>
      let n := utf8_sequence_len b in
      if (n =? 0)%nat then false
      else if (n =? 1)%nat then utf8_from fuel rest
      else is_valid_utf8 (take n raw) && utf8_from fuel (drop n raw)
  end.

Definition utf8_decodes (raw : bytes) : bool :=
  let l := byte_of_ascii <$> String.list_ascii_of_string raw in utf8_from (length l) l.

Fixpoint join (sep : string) (l : list string) : string :=
  match l with
  | [] => ""
  | [x] => x
  | x :: l => x +:+ sep +:+ join sep l
  end.

(** [str(PurePosixPath(s))] *)
Definition posix_path_str (s : string) : string :=
  let parts := filter (λ p, p ≠ "" ∧ p ≠ ".") (split_on "/" s) in
  let root := match strip_prefix "//" s, strip_prefix "///" s, strip_prefix "/" s with
              | Some _, None, _ => "//"
              | _, _, Some _ => "/"
              | _, _, None => ""
              end in
  match root, parts with
  | EmptyString, [] => "."
  | _, _ => root +:+ join "/" parts
  end.

Record SourceFile := { sf_path : string; sf_encodable : bool }.

(** [_member_source_path] *)
Definition member_source_path (m : BundleMember) : result FanoutError (option SourceFile) :=
  match bm_source_path m with
  | Some p => Ok (Some {| sf_path := posix_path_str p; sf_encodable := true |})
  | None =>
      match dget "source_path_bytes_hex" (default [] (bm_source_metadata m)) with
      | Some (JStr (String c h)) =>
          match fromhex (String c h) with
          | Some raw => Ok (Some {| sf_path := posix_path_str raw; sf_encodable := utf8_decodes raw |})
          | None => Err InvalidSourceHex
          end
      | _ => Ok None
      end
  end.

(** ** Members of one flush *)

Record MemberInput := {
  in_logical_asset_hash : bytes;
  in_member_path : string;
  in_source_path : SourceFile;
  in_size_bytes : Z;
  in_file_sha256 : bytes;
  in_ingest_item_id : option Z;
}.

Abbreviation member_entry := (prod Z BundleMember).

(** [_member_rows_for_flush] *)
Definition member_rows_for_flush (k : Cat) (bundle_id : string) : list member_entry :=
  sort_by (λ im, bm_member_path im.2) (filter (λ im, bm_bundle_id im.2 = bundle_id) (tbl_list (members k))).

(** [d[i] = v] on a dictionary with integer keys, in insertion order *)
Fixpoint zset {A} (i : Z) (v : A) (d : list (Z * A)) : list (Z * A) :=
  match d with
  | [] => [(i, v)]
  | (j, w) :: d => if decide (i = j) then (i, v) :: d else (j, w) :: zset i v d
  end.

Definition zget {A} (i : Z) (d : list (Z * A)) : option A := snd <$> head (filter (λ p, p.1 = i) d).

Definition row_links (im : member_entry) : list Z :=
  (submission_links (default [] (bm_source_metadata im.2))).*2.

Definition linked_rows (rows : list member_entry) : list (Z * member_entry) :=
  foldl (λ d im, foldl (λ d i, zset i im d) d (row_links im)) [] rows.

(** The checks of one linked member, in the order of the code. *)
Definition identity_ok (k : Cat) (member_id : Z) (m : BundleMember) : bool :=
  match t_rows (submission_members k) !! member_id with
  | None => false
  | Some r =>
      bool_decide (bm_logical_asset_hash m = sm_sha256 r) &&
      bool_decide (bm_file_sha256 m = sm_sha256 r) && (bm_size_bytes m =? sm_size_bytes r) &&
      bool_decide (sm_ingest_item_id r ≠ None)
  end.

(** The first linked member in id order that does not match its submission row is reported. *)
Definition validate_submission_member_identity (k : Cat) (rows : list member_entry)
    : result FanoutError unit :=
  match filter (λ p, identity_ok k p.1 p.2.2 = false) (sort_by fst (linked_rows rows)) with
  | [] => Ok tt
  | (i, _) :: _ => Err (SubmissionIdentity i)
  end.

(** [_member_input] *)
Definition member_input (m : BundleMember) (ingest : option Z) : result FanoutError MemberInput :=
  source ← member_source_path m;
  match source with
  | None => Err NoSourcePath
  | Some f => Ok {| in_logical_asset_hash := bm_logical_asset_hash m;
                    in_member_path := bm_member_path m; in_source_path := f;
                    in_size_bytes := bm_size_bytes m; in_file_sha256 := bm_file_sha256 m;
                    in_ingest_item_id := ingest |}
  end.

(** The lineage of each member row, from the links its append recorded. *)
Definition resolved_lineage (k : Cat) (rows : list member_entry) : list (Z * Z) :=
  foldl (λ d p, match t_rows (submission_members k) !! p.1 with
                | Some r => match sm_ingest_item_id r with
                            | Some ingest => zset p.2.1 ingest d
                            | None => d
                            end
                | None => d
                end) [] (linked_rows rows).

Fixpoint collect {A B} (f : A → result FanoutError B) (l : list A) : result FanoutError (list B) :=
  match l with
  | [] => Ok []
  | x :: l => y ← f x; ys ← collect f l; Ok (y :: ys)
  end.

Definition member_inputs_for_flush (k : Cat) (rows : list member_entry)
    : result FanoutError (list MemberInput) :=
  let resolved := resolved_lineage k rows in
  collect (λ im, member_input im.2 (zget im.1 resolved)) rows.

(** ** The source map *)

Record SourceMapEntry := {
  sme_archive_path : string;
  sme_source_path : string;
  sme_sha256 : bytes;
  sme_size_bytes : Z;
  sme_ingest_item_id : option Z;
}.

Definition TAB : string := String (ascii_of_nat 9) "".
Definition NEWLINE : string := String (ascii_of_nat 10) "".

Definition SOURCE_MAP_COLUMNS : list string :=
  ["archive_path"; "source_path"; "sha256"; "size"; "ingest_item_id"].

Definition source_map_fields (e : SourceMapEntry) : list string :=
  [sme_archive_path e; sme_source_path e; bytes_hex (sme_sha256 e); pretty (sme_size_bytes e);
   match sme_ingest_item_id e with None => "" | Some i => pretty i end].

Definition source_map_lines (entries : list SourceMapEntry) : list string :=
  join TAB <$> SOURCE_MAP_COLUMNS :: (source_map_fields <$> entries).

Definition render_source_map (entries : list SourceMapEntry) : string :=
  join NEWLINE (source_map_lines entries) +:+ NEWLINE.

(** [_submission_ingest_item_ids]: the last submission row, by id, of a path and digest. *)
Definition submission_ingest_item_id (k : Cat) (path : string) (digest : bytes) : option Z :=
  last (omap (λ im, if bool_decide (sm_archive_path im.2 = path) && bool_decide (sm_sha256 im.2 = digest)
                    then sm_ingest_item_id im.2 else None) (tbl_list (submission_members k))).

Definition map_entry (k : Cat) (m : MemberInput) : SourceMapEntry := {|
  sme_archive_path := in_member_path m; sme_source_path := sf_path (in_source_path m);
  sme_sha256 := in_file_sha256 m; sme_size_bytes := in_size_bytes m;
  sme_ingest_item_id := match in_ingest_item_id m with
                        | Some i => Some i
                        | None => submission_ingest_item_id k (in_member_path m) (in_file_sha256 m)
                        end |}.

(** [_reject_unmappable_member]; the row is the flush's, or absent for a repair. *)
Definition reject_unmappable_member (m : MemberInput) (row : option member_entry)
    : result FanoutError unit :=
  if sf_encodable (in_source_path m) then Ok tt
  else Err (match row with
            | None => UnmappableMember (in_member_path m)
            | Some r => MemberBuildFailure r "not UTF-8 encodable"
            end).

Definition render_flush_map (k : Cat) (ms : list MemberInput) (rows : option (list member_entry))
    : result FanoutError string :=
  _ ← collect (λ im, reject_unmappable_member im.2 (rs ← rows; rs !! im.1)) (imap pair ms);
  Ok (render_source_map (map_entry k <$> ms)).

(** ** Attribution of a build failure *)

Definition is_digit (c : ascii) : bool :=
  let n := nat_of_ascii c in ((48 <=? n) && (n <=? 57))%nat.

Fixpoint leading_digits (s : string) : string :=
  match s with
  | String c s => if is_digit c then String c (leading_digits s) else ""
  | EmptyString => ""
  end.

Definition digits_value (s : string) : Z :=
  foldl (λ n c, 10 * n + (Z.of_nat (nat_of_ascii c) - 48)) 0 (String.list_ascii_of_string s).

(** The leftmost match of [source map line (\d+)]. *)
Fixpoint search_map_line (s : string) : option Z :=
  match (match strip_prefix "source map line " s with
         | Some rest => match leading_digits rest with EmptyString => None | ds => Some ds end
         | None => None
         end), s with
  | Some ds, _ => Some (digits_value ds)
  | None, String _ s => search_map_line s
  | None, EmptyString => None
  end.

(** The shortest non-empty run without a newline that [suffix] follows. *)
Fixpoint lazy_group (suffix s : string) : option string :=
  match s with
  | EmptyString => None
  | String c s =>
      if Ascii.eqb c (ascii_of_nat 10) then None
      else if bool_decide (is_Some (strip_prefix suffix s)) then Some (String c "")
      else String c <$> lazy_group suffix s
  end.

(** The leftmost match of [streamed data hash for (.+?) does not match spec]. *)
Fixpoint search_writer_digest (s : string) : option string :=
  match (rest ← strip_prefix "streamed data hash for " s; lazy_group " does not match spec" rest), s with
  | Some path, _ => Some path
  | None, String _ s => search_writer_digest s
  | None, EmptyString => None
  end.

Definition identify_member_failure (message : string) (rows : list member_entry)
    : option member_entry :=
  match search_map_line message with
  | Some line =>
      let index := line - 2 in
      if (0 <=? index) && (index <? Z.of_nat (length rows)) then rows !! Z.to_nat index else None
  | None =>
      path ← search_writer_digest message;
      head (filter (λ im, bm_member_path im.2 = path) rows)
  end.

(** ** Built members *)

Record BuiltMember := {
  bt_logical_asset_hash : bytes;
  bt_member_path : string;
  bt_size_bytes : Z;
  bt_file_sha256 : bytes;
  bt_native_locator : dict json;
  bt_ingest_item_id : option string;
}.

Record BuiltBlobRoot := { bb_root_path : string; bb_native_locator : dict json }.

Record BuiltExclusion := {
  be_path : string;
  be_reason : string;
  be_count : Z;
  be_bytes_total : Z;
  be_detail : option (dict json);
}.

Record BuildArtifact := {
  ba_stored_digest : bytes;
  ba_members : list BuiltMember;
  ba_manifest : bool;
  ba_blob_roots : list BuiltBlobRoot;
  ba_exclusions : list BuiltExclusion;
  ba_recipient_epochs : list string;
}.

(** [{member.member_path: member for member in ms}], read at one key. *)
Definition input_at (path : string) (ms : list MemberInput) : option MemberInput :=
  last (filter (λ m, in_member_path m = path) ms).

Definition lineage_ok (m : MemberInput) (b : BuiltMember) : bool :=
  match in_ingest_item_id m, bt_ingest_item_id b with
  | Some i, Some s => bool_decide (s = pretty i)
  | _, _ => true
  end.

Definition built_member_ok (ms : list MemberInput) (b : BuiltMember) : bool :=
  match input_at (bt_member_path b) ms with
  | None => false
  | Some m =>
      bool_decide (bt_logical_asset_hash b = in_logical_asset_hash m) &&
      bool_decide (bt_file_sha256 b = in_file_sha256 m) &&
      (bt_size_bytes b =? in_size_bytes m) && lineage_ok m b
  end.

Definition omitted_paths (ms : list MemberInput) (bs : list BuiltMember) : list string :=
  sort_by (λ x, x) (remove_dups (filter (λ p, p ∉ bt_member_path <$> bs) (in_member_path <$> ms))).

Definition validate_built_members (a : BuildArtifact) (ms : list MemberInput)
    : result FanoutError unit :=
  match filter (λ b, built_member_ok ms b = false) (ba_members a) with
  | b :: _ => Err (BuiltMemberMismatch (bt_member_path b))
  | [] => match omitted_paths ms (ba_members a) with
          | [] => Ok tt
          | ps => Err (BuiltMembersOmitted ps)
          end
  end.

(** ** The report of [rem archive build] *)

Definition falsy (j : json) : bool :=
  match j with
  | JNull | JBool false => true
  | JInt n => n =? 0
  | JStr s => bool_decide (s = "")
  | JList l => bool_decide (length l = 0%nat)
  | JObj d => bool_decide (length d = 0%nat)
  | _ => false
  end.

(** [d.get(k1) or d.get(k2)] *)
Definition get_or (k1 k2 : string) (d : dict json) : json :=
  match dget k1 d with
  | Some j => if falsy j then default JNull (dget k2 d) else j
  | None => default JNull (dget k2 d)
  end.

Definition report_member (j : json) : option json :=
  match j with
  | JObj item =>
      match dget "path" item with
      | Some (JStr path) =>
          let get key := default JNull (dget key item) in
          Some (JObj [("path", JStr path); ("size_bytes", get "size_bytes");
                      ("sha256", get_or "file_sha256" "sha256" item);
                      ("first_chunk_lba", get "first_chunk_lba");
                      ("ingest_item_id", get "ingest_item_id")])
      | _ => None
      end
  | _ => None
  end.

(** [_normalized_rem_build_report] *)
Definition normalized_rem_build_report (report : dict json) : dict json :=
  if negb (falsy (default JNull (dget "members" report))) then report
  else match dget "files" report with
       | Some (JList files) => dset "members" (JList (omap report_member files)) report
       | _ => report
       end.

Section report.
Context (parse_int : string → option Z) (json_str : json → string).

(** [int(x)], absent means 0 *)
Definition int_of (j : option json) : option Z :=
  match j with
  | None => Some 0
  | Some (JInt n) => Some n
  | Some (JBool b) => Some (if b then 1 else 0)
  | Some (JStr s) => parse_int s
  | _ => None
  end.

Definition size_matches (j : option json) (n : Z) : bool :=
  match j with
  | Some (JInt m) => m =? n
  | Some (JBool b) => (if b then 1 else 0) =? n
  | _ => false
  end.

Definition manifest_member (ms : list MemberInput) (seen : list string) (j : json)
    : result FanoutError BuiltMember :=
  match j with
  | JObj item =>
      match get_or "path" "member_path" item with
      | JStr (String c p) =>
          let path := String c p in
          match input_at path ms with
          | None => Err ManifestMalformed
          | Some m =>
              _ ← raise_if (bool_decide (path ∈ seen)) ManifestMalformed;
              _ ← raise_if (negb (size_matches (dget "size_bytes" item) (in_size_bytes m)))
                    ManifestMalformed;
              match dget "sha256" item with
              | Some (JStr s) =>
                  _ ← raise_if (negb (bool_decide (fromhex s = Some (in_file_sha256 m))))
                        ManifestMalformed;
                  match int_of (dget "first_chunk_lba" item) with
                  | None => Err ManifestMalformed
                  | Some lba =>
                      Ok {| bt_logical_asset_hash := in_logical_asset_hash m;
                            bt_member_path := in_member_path m; bt_size_bytes := in_size_bytes m;
                            bt_file_sha256 := in_file_sha256 m;
                            bt_native_locator := [("member_path", JStr (in_member_path m));
                                                  ("first_chunk_lba", JInt lba);
                                                  ("size_bytes", JInt (in_size_bytes m))];
                            bt_ingest_item_id := match dget "ingest_item_id" item with
                                                 | None | Some JNull => None
                                                 | Some j => Some (json_str j)
                                                 end |}
                  end
              | _ => Err ManifestMalformed
              end
          end
      | _ => Err ManifestMalformed
      end
  | _ => Err ManifestMalformed
  end.

Fixpoint manifest_members (ms : list MemberInput) (seen : list string) (items : list json)
    : result FanoutError (list BuiltMember) :=
  match items with
  | [] => Ok []
  | j :: items =>
      b ← manifest_member ms seen j;
      bs ← manifest_members ms (bt_member_path b :: seen) items;
      Ok (b :: bs)
  end.

(** [_members_from_manifest] *)
Definition members_from_manifest (manifest : dict json) (ms : list MemberInput)
    : result FanoutError (list BuiltMember) :=
  _ ← raise_if (negb (bool_decide (NoDup (in_member_path <$> ms)))) ManifestMalformed;
  match dget "members" manifest with
  | Some (JList (item :: items)) =>
      bs ← manifest_members ms [] (item :: items);
      _ ← raise_if (negb (bool_decide (omitted_paths ms bs = []))) ManifestMalformed;
      Ok bs
  | _ => Err ManifestMalformed
  end.
End report.
