(* ===== verification/Fanout.v ===== *)
(** * Flushing a bundle

    The second half of [archive_fanout.py]: building and validating every target, writing and
    verifying the copies, the quarantine loop and [flush_bundle] itself, which runs in one
    transaction: an [Err] leaves the database as it was.  What lies outside the catalog (the archive
    builder, tar files, storage, the disk, the receipt file and the drive cache) is the record
    [World], whose functions say what each call returns or raises. *)

From stdpp Require Import pretty.
From Stdlib Require Import Ascii.
From S2P Require Import Prelude Json JsonText JobModels Catalog RetryConfig Conditions MemberName.
From S2P Require Import Leases Engine Durability BundleGroup Copies Scrub Accumulator FanoutMap.

Definition REM_OBJECT_V1 : string := "rem-object-v1".
Definition D2TAR_RAW : string := "d2tar-raw".

(** ** Fan-out targets ([replication.py]) *)

Fixpoint basis_targets (k : Cat) (json_str : json → string) (supplied : Z → bool)
    (key_epoch : option string) (write_eligible_only : bool) (sort_order : Z)
    (entries : list basis_entry) : result DurError (list PoolTarget) :=
  match entries with
  | [] => Ok []
  | e :: entries =>
      let pool_id := match dget "pool" e with Some (JStr s) => s | Some j => json_str j | None => "" end in
      match pools k !! pool_id with
      | None => Err ReplicationInvariantError
      | Some p =>
          let drifted := match dget "representation" e with
                         | None | Some JNull => false
                         | Some (JStr w) => negb (bool_decide (w = pl_representation p))
                         | Some _ => true
                         end in
          _ ← raise_if drifted ReplicationInvariantError;
          if write_eligible_only && negb (pl_accepts_writes p)
          then basis_targets k json_str supplied key_epoch write_eligible_only (sort_order + 1) entries
          else
            t ← pool_target_entry k supplied pool_id p "" key_epoch sort_order;
            ts ← basis_targets k json_str supplied key_epoch write_eligible_only (sort_order + 1) entries;
            Ok (t :: ts)
      end
  end.

Definition bundle_group_targets (k : Cat) (json_str : json → string) (supplied : Z → bool)
    (b : Bundle) (key_epoch : option string) (write_eligible_only : bool)
    : result DurError (list PoolTarget) :=
  let entries := basis_entries (bu_group_basis b) in
  _ ← raise_if (bool_decide (length entries = 0%nat)) ReplicationPolicyMissing;
  ts ← basis_targets k json_str supplied key_epoch write_eligible_only 0 entries;
  _ ← raise_if (bool_decide (length ts = 0%nat)) ReplicationPolicyMissing;
  Ok ts.

Definition require_key_epoch (ts : list PoolTarget) : result FanoutError unit :=
  match filter (λ t, pt_representation t = REM_ENCRYPT_V1 ∧ pt_key_epoch t = None) ts with
  | [] => Ok tt
  | t :: _ => Err (KeyEpochMissing (pt_pool_id t))
  end.

(** ** The outside world *)

Inductive BuildOutcome :=
  | Built (a : BuildArtifact)
  | BuildRuntimeError (message : string)
  | BuildRaised (message : string).

Inductive WriteOutcome :=
  | Written (locator : dict json) (size_bytes : Z)
  | WriteBackendError (message : string)
  | WriteRaised (message : string).

Inductive VerifyOutcome :=
  | Verified (r : VerifyResult)
  | VerifyBackendError (message : string)
  | VerifyFanoutError (message : string)
  | VerifyRaised (message : string).

Inductive ReadOutcome :=
  | ReadBytes (data : bytes)
  | ReadBackendError (message : string)
  | ReadRestoreError (message : string)
  | ReadFanoutError (message : string)
  | ReadRaised (message : string).

Record World := {
  w_supplied : Z → bool;
  w_available_bytes : Z;
  w_build : nat → nat → PoolTarget → option string → list MemberInput → string → BuildOutcome;
  w_tar : nat → nat → list MemberInput → result string (list (Z * Z) * bytes);
  w_write : PoolTarget → BuildArtifact → WriteOutcome;
  w_verify : PoolTarget → dict json → VerifyOutcome;
  w_read_member : PoolTarget → dict json → dict json → BuiltMember → ReadOutcome;
  w_verify_member : option (PoolTarget → dict json → dict json → BuiltMember → ReadOutcome);
  w_deliver : option (dict json → result string string);
  w_has_signer : bool;
  w_enqueue_fills : Database → string → result string Database;
}.

(** Exceptions the fan-out does not catch. *)
Inductive Escape :=
  | FromCatalog (e : CatalogError)
  | FromBundle (e : BundleError)
  | FromOutside (message : string).

(** What one target's write phase came to. *)
Inductive PlaceOutcome :=
  | Placed (copy_id : Z)
  | TransientFailed (message : string)
  | PostWriteFailed (message : string)
  | Escaped (e : Escape).

Record FanoutResult := {
  fr_bundle_id : string;
  fr_copy_ids : list Z;
  fr_manifest_path : option string;
  fr_partial : bool;
  fr_failed_pools : list string;
  fr_condition_reason : option string;
  fr_condition_message : option string;
}.

(** ** Locators, blob roots and exclusions *)

Definition record_asset_locator (k : Cat) (asset : bytes) (pool_id : string) (locator : dict json)
    (representation : string) (copy_id : Z) (bundle_id member_path : string) : result BundleError Cat :=
  _ ← require_asset k asset;
  _ ← raise_if (bool_decide (pools k !! pool_id = None)) UnknownBundlePool;
  _ ← raise_if (negb (bool_decide (is_Some (t_rows (copies k) !! copy_id)))) UnknownBundleCopy;
  path ← match member_path, dget "member_path" locator with
         | String c p, _ => Ok (String c p)
         | EmptyString, Some (JStr (String c p)) => Ok (String c p)
         | EmptyString, _ => Err AssetLocatorError
         end;
  _ ← raise_if (existsb (λ il, bool_decide (al_copy_id il.2 = Some copy_id) &&
                               bool_decide (al_logical_asset_hash il.2 = asset) &&
                               bool_decide (al_member_path il.2 = path)) (tbl_list (locators k)))
        BundleIntegrityError;
  Ok (with_locators (tbl_insert {|
        al_logical_asset_hash := asset; al_pool_id := pool_id; al_copy_id := Some copy_id;
        al_bundle_id := Some bundle_id; al_member_path := path;
        al_representation := representation; al_native_locator := locator |} (locators k)).1 k).

Definition record_blob_root (k : Cat) (bundle_id : string) (copy_id : Z) (pool_id root_path : string)
    (locator : dict json) (archive_id : option string) : result BundleError Cat :=
  _ ← raise_if (bool_decide (bundles k !! bundle_id = None)) BundleStateError;
  _ ← raise_if (negb (bool_decide (is_Some (t_rows (copies k) !! copy_id)))) UnknownBundleCopy;
  _ ← raise_if (bool_decide (pools k !! pool_id = None)) UnknownBundlePool;
  _ ← raise_if (existsb (λ ir, bool_decide (br_copy_id ir.2 = copy_id) &&
                               bool_decide (br_root_path ir.2 = root_path)) (tbl_list (blob_roots k)))
        BundleIntegrityError;
  Ok (with_blob_roots (tbl_insert {|
        br_bundle_id := bundle_id; br_copy_id := copy_id; br_pool_id := pool_id;
        br_root_path := root_path; br_native_locator := locator;
        br_archive_id := archive_id |} (blob_roots k)).1 k).

Fixpoint record_all {A} (f : Cat → A → result BundleError Cat) (k : Cat) (l : list A)
    : result BundleError Cat :=
  match l with
  | [] => Ok k
  | x :: l => k ← f k x; record_all f k l
  end.

Definition record_build_locators_and_roots (k : Cat) (bundle_id : string) (t : PoolTarget)
    (copy_id : Z) (a : BuildArtifact) : result BundleError Cat :=
  k ← record_all (λ k m, record_asset_locator k (bt_logical_asset_hash m) (pt_pool_id t)
                           (bt_native_locator m) (pt_representation t) copy_id bundle_id
                           (bt_member_path m)) k (ba_members a);
  record_all (λ k r, record_blob_root k bundle_id copy_id (pt_pool_id t) (bb_root_path r)
                       (bb_native_locator r) (b ← bundles k !! bundle_id; bu_archive_id b)) k
    (ba_blob_roots a).

Definition record_exclusion (k : Cat) (x : ExclusionRecord) : result BundleError Cat :=
  _ ← match ex_logical_asset_hash x with Some h => require_asset k h | None => Ok tt end;
  Ok (with_exclusions (tbl_insert x (exclusions k)).1 k).

(** [policy.ruleset or None] of a class *)
Definition ruleset_for (k : Cat) (artifactclass : option string) : option string :=
  a ← artifactclass; a ← non_empty a; p ← policies k !! a; non_empty (pr_ruleset p).

Definition exclusion_row (k : Cat) (bundle_id : string) (rows : list member_entry)
    (x : BuiltExclusion) : ExclusionRecord :=
  let member := if be_count x <=? 1
                then last (filter (λ im, bm_member_path im.2 = be_path x) rows) else None in
  let classes := remove_dups ((λ im, bm_artifactclass im.2) <$> rows) in
  let artifactclass := match member, classes with
                       | Some im, _ => Some (bm_artifactclass im.2)
                       | None, [c] => Some c
                       | None, _ => None
                       end in
  {| ex_bundle_id := Some bundle_id; ex_artifactclass := default "" artifactclass;
     ex_logical_asset_hash := (λ im, bm_logical_asset_hash im.2) <$> member;
     ex_path := Some (be_path x); ex_reason := be_reason x; ex_count := be_count x;
     ex_bytes_total := be_bytes_total x; ex_ruleset_name := ruleset_for k artifactclass;
     ex_ruleset_hash := None; ex_detail := be_detail x |}.

Definition record_build_exclusions (k : Cat) (bundle_id : string) (a : BuildArtifact)
    : result BundleError Cat :=
  record_all (λ k x, record_exclusion k (exclusion_row k bundle_id (member_rows_for_flush k bundle_id) x))
    k (ba_exclusions a).

Definition copy_storage_metadata (representation : string) (recipient_epochs : list string)
    (stored_size_bytes : Z) : result FanoutError (dict json) :=
  let metadata := [("representation", JStr representation);
                   ("stored_size_bytes", JInt stored_size_bytes)] in
  let metadata := if bool_decide (representation ∈ [REM_OBJECT_V1; REM_ENCRYPT_V1])
                  then dset "chunk_size" (JInt REM_OBJECT_CHUNK_SIZE) metadata else metadata in
  if decide (representation = REM_ENCRYPT_V1) then
    _ ← raise_if (bool_decide (recipient_epochs = [])) MissingRecipientEpochs;
    Ok (dset "recipient_epochs" (JList (JStr <$> recipient_epochs)) metadata)
  else Ok metadata.

(** ** The customer receipt *)

Definition customer_manifest_member (k : Cat) (im : member_entry) : json :=
  let m := im.2 in
  let steps := sort_by tr_step_order
                 (filter (λ t, tr_bundle_member_id t = im.1) (tbl_list (transforms k)).*2) in
  JObj [("member_name", match dget "logical_path" (default [] (bm_source_metadata m)) with
                        | Some (JStr (String c p)) => JStr (String c p)
                        | _ => JStr (bm_member_path m)
                        end);
        ("stored_member_name", JStr (bm_member_path m));
        ("artifactclass", JStr (bm_artifactclass m));
        ("logical_sha256", JStr (bytes_hex (bm_logical_asset_hash m)));
        ("stored_sha256", JStr (bytes_hex (bm_file_sha256 m)));
        ("transforms", JList ((λ t, JStr (tr_kind t)) <$> steps));
        ("pfr_original", JBool (negb (existsb (λ t, bool_decide (tr_kind t = "zstd-file-v1")) steps)))].

(** The part of the receipt that comes from the catalog; the builder's manifest, the time stamp and
    the signature are added by [w_deliver], which writes the file and returns its path. *)
Definition customer_manifest_payload (k : Cat) (bundle_id : string) (b : Bundle) : dict json :=
  let rows := member_rows_for_flush k bundle_id in
  [("archive_id", JStr (resolve_bundle_id (bu_archive_id b) ("archive-" +:+ bundle_id)));
   ("bundle_id", JStr bundle_id);
   ("member_classes", JList (JStr <$> sort_by (λ x, x) (remove_dups ((λ im, bm_artifactclass im.2) <$> rows))));
   ("members", JList (customer_manifest_member k <$> rows));
   ("exclusion_summary", default (JList []) (s ← bu_scan_summary b; dget "exclusions" s))].

Definition set_scan_summary (b : Bundle) (summary : option (dict json)) (manifest : option string)
    : Bundle := {|
  bu_bundle_group := bu_bundle_group b; bu_group_basis := bu_group_basis b;
  bu_status := bu_status b; bu_total_bytes := bu_total_bytes b;
  bu_member_count := bu_member_count b; bu_target_bytes := bu_target_bytes b;
  bu_max_age_seconds := bu_max_age_seconds b; bu_archive_id := bu_archive_id b;
  bu_claimed_by := bu_claimed_by b; bu_opened_at := bu_opened_at b;
  bu_flushed_at := bu_flushed_at b; bu_sealed_at := bu_sealed_at b; bu_held_at := bu_held_at b;
  bu_review_summary := bu_review_summary b; bu_scan_summary := summary;
  bu_customer_manifest_path := manifest |}.

Definition update_bundle (f : Bundle → Bundle) (id : string) (d : Database) : Database :=
  with_cat (λ k, with_bundles (alter f id (bundles k)) k) d.

Section fanout.
Context (sha256 : bytes → bytes) (sha256_hex : string → string) (json_str : json → string).
Context (producer_process : string) (uniform : Z → Z → Z).
Context (w : World).

(** ** Building *)

Definition tar_member (m : MemberInput) (info : Z * Z) : BuiltMember := {|
  bt_logical_asset_hash := in_logical_asset_hash m; bt_member_path := in_member_path m;
  bt_size_bytes := in_size_bytes m; bt_file_sha256 := in_file_sha256 m;
  bt_native_locator := [("member_path", JStr (in_member_path m));
                        ("block_range", JList [JInt info.1; JInt (info.1 + info.2)]);
                        ("size_bytes", JInt info.2)];
  bt_ingest_item_id := pretty <$> in_ingest_item_id m |}.

(** [_build_d2_tar]; the tar file gives the data offset and size of each member. *)
Definition build_d2_tar (attempt index : nat) (ms : list MemberInput) : BuildOutcome :=
  match w_tar w attempt index ms with
  | Err message => BuildRaised message
  | Ok (infos, digest) =>
      Built {| ba_stored_digest := digest; ba_members := zip_with tar_member ms infos;
               ba_manifest := true; ba_blob_roots := []; ba_exclusions := [];
               ba_recipient_epochs := [] |}
  end.

Definition build_for_target (attempt index : nat) (t : PoolTarget) (key_epoch : option string)
    (ms : list MemberInput) (map_text : string) : BuildOutcome :=
  if decide (pt_representation t = D2TAR_RAW) then build_d2_tar attempt index ms
  else w_build w attempt index t
         (if decide (pt_representation t = REM_ENCRYPT_V1) then key_epoch else None) ms map_text.

(** The build phase: every target is built and validated before any is written. *)
Fixpoint build_targets (attempt index : nat) (ts : list PoolTarget) (key_epoch : option string)
    (ms : list MemberInput) (rows : list member_entry) (map_text : string)
    : result FanoutError (list (PoolTarget * BuildArtifact)) :=
  match ts with
  | [] => Ok []
  | t :: ts =>
      match build_for_target attempt index t key_epoch ms map_text with
      | BuildRuntimeError message =>
          match identify_member_failure message rows with
          | Some row => Err (MemberBuildFailure row message)
          | None => Err (BuildFailure message)
          end
      | BuildRaised message => Err (BuildFailure message)
      | Built a =>
          _ ← validate_built_members a ms;
          rest ← build_targets attempt (S index) ts key_epoch ms rows map_text;
          Ok ((t, a) :: rest)
      end
  end.

(** ** Writing one copy *)

(** [_verified_member_bytes] *)
Definition verified_member_bytes (t : PoolTarget) (locator metadata : dict json) (m : BuiltMember)
    : ReadOutcome :=
  match w_read_member w t locator metadata m with
  | ReadRestoreError message =>
      if decide (pt_representation t = REM_ENCRYPT_V1) then
        match w_verify_member w with
        | None => ReadFanoutError message
        | Some verifier => verifier t locator metadata m
        end
      else ReadFanoutError message
  | o => o
  end.

Fixpoint verify_members (t : PoolTarget) (locator metadata : dict json) (r : VerifyResult)
    (ms : list BuiltMember) : VerifyOutcome :=
  match ms with
  | [] => Verified r
  | m :: ms =>
      match verified_member_bytes t locator metadata m with
      | ReadBytes data =>
          if decide (sha256 data = bt_file_sha256 m) then verify_members t locator metadata r ms
          else VerifyFanoutError "member verification failed"
      | ReadBackendError message => VerifyBackendError message
      | ReadFanoutError message => VerifyFanoutError message
      | ReadRestoreError message | ReadRaised message => VerifyRaised message
      end
  end.

Definition verify_members_from_copy (t : PoolTarget) (locator metadata : dict json)
    (ms : list BuiltMember) : VerifyOutcome :=
  match w_verify w t locator with
  | Verified r => if vf_ok r then verify_members t locator metadata r ms else Verified r
  | o => o
  end.

Definition mark_suspect (copy_id : Z) (d : Database) : Database :=
  match copy_row copy_id d with
  | Some c => set_copy copy_id (set_health c SUSPECT) d
  | None => d
  end.

Definition execution_id (bundle_id : string) (t : PoolTarget) (c : Copy) : string :=
  bundle_id +:+ ":" +:+ pt_pool_id t +:+ ":" +:+ cp_native_locator_key c.

(** The evidence of a read-back, then the verdict. *)
Definition record_evidence (d : Database) (copy_id : Z) (r : VerifyResult) (execution : string)
    (now : time) : result CatalogError Database :=
  if vf_measured r && bool_decide (is_Some (vf_actual_hash r)) then
    '(k, _) ← record_measured producer_process (cat d) copy_id r "fanout" execution None now;
    Ok {| cat := k; jobs := jobs d |}
  else if vf_ok r then
    '(d, _, _) ← record_unmeasured_promotion producer_process d copy_id r "fanout" execution None now;
    Ok d
  else Ok (mark_suspect copy_id d).

Definition fanout_spec (t : PoolTarget) (a : BuildArtifact) (locator metadata : dict json) : CopySpec := {|
  cs_backend_id := pt_backend_id t; cs_pool_id := Some (pt_pool_id t); cs_native_locator := locator;
  cs_integrity_hash := ba_stored_digest a; cs_source := INGEST; cs_health := HEALTH_OK;
  cs_provenance := LOCALLY_COMPUTED; cs_storage_metadata := metadata;
  cs_first_observed_at := None |}.

(** [write_bundle_copy_for_pool]: the database at its return or at the point it raises. *)
Definition write_bundle_copy_for_pool (d : Database) (bundle_id : string) (t : PoolTarget)
    (a : BuildArtifact) (now : time) : Database * PlaceOutcome :=
  match w_write w t a with
  | WriteBackendError message => (d, TransientFailed message)
  | WriteRaised message => (d, Escaped (FromOutside message))
  | Written locator size =>
      match copy_storage_metadata (pt_representation t) (ba_recipient_epochs a) size with
      | Err _ => (d, PostWriteFailed "encrypted archive artifact is missing recipient epochs")
      | Ok metadata =>
          match add_bundle_copy (cat d) bundle_id (pt_pool_id t) (fanout_spec t a locator metadata) now with
          | Err e => (d, Escaped (FromCatalog e))
          | Ok (k, (copy_id, c), _) =>
              match record_build_locators_and_roots k bundle_id t copy_id a with
              | Err e => (d, Escaped (FromBundle e))
              | Ok k =>
                  let d := {| cat := k; jobs := jobs d |} in
                  match verify_members_from_copy t (cp_native_locator c) metadata (ba_members a) with
                  | VerifyBackendError message => (mark_suspect copy_id d, TransientFailed message)
                  | VerifyFanoutError message => (mark_suspect copy_id d, PostWriteFailed message)
                  | VerifyRaised message => (mark_suspect copy_id d, Escaped (FromOutside message))
                  | Verified r =>
                      match record_evidence d copy_id r (execution_id bundle_id t c) now with
                      | Err e => (d, Escaped (FromCatalog e))
                      | Ok d => (d, if vf_ok r then Placed copy_id
                                    else PostWriteFailed ("backend verify failed: " +:+ vf_detail r))
                      end
                  end
              end
          end
      end
  end.

(** ** The write phase *)

Record WriteState := {
  ws_db : Database;
  ws_copy_ids : list Z;
  ws_transient : list (string * string);
  ws_post_write : list (string * string);
  ws_receipt : option string;
}.

Definition initial_writes (d : Database) : WriteState := {|
  ws_db := d; ws_copy_ids := []; ws_transient := []; ws_post_write := []; ws_receipt := None |}.

(** The receipt of the first REM-OBJECT copy. *)
Definition emit_customer_manifest (d : Database) (bundle_id : string) (t : PoolTarget)
    (a : BuildArtifact) (receipt : option string) : result FanoutError (Database * option string) :=
  match w_deliver w with
  | Some deliver =>
      if ba_manifest a && bool_decide (receipt = None) &&
         bool_decide (pt_representation t ∈ [REM_OBJECT_V1; REM_ENCRYPT_V1])
      then
        match bundles (cat d) !! bundle_id with
        | None => Err BundleNotFound
        | Some b =>
            match deliver (customer_manifest_payload (cat d) bundle_id b) with
            | Err message => Err (UnhandledFailure message)
            | Ok path =>
                Ok (update_bundle (λ b, set_scan_summary b (bu_scan_summary b) (Some path)) bundle_id d,
                    Some path)
            end
        end
      else Ok (d, receipt)
  | None => Ok (d, receipt)
  end.

(** One target in its savepoint.  A transient failure discards the target's rows; a post-write
    failure keeps them. *)
Definition write_target (bundle_id : string) (now : time) (s : WriteState)
    (ta : PoolTarget * BuildArtifact) : result FanoutError WriteState :=
  let '(t, a) := ta in
  let '(d, outcome) := write_bundle_copy_for_pool (ws_db s) bundle_id t a now in
  match outcome with
  | TransientFailed message =>
      Ok {| ws_db := ws_db s; ws_copy_ids := ws_copy_ids s;
            ws_transient := ws_transient s ++ [(pt_pool_id t, message)];
            ws_post_write := ws_post_write s; ws_receipt := ws_receipt s |}
  | PostWriteFailed message =>
      Ok {| ws_db := d; ws_copy_ids := ws_copy_ids s; ws_transient := ws_transient s;
            ws_post_write := ws_post_write s ++ [(pt_pool_id t, message)];
            ws_receipt := ws_receipt s |}
  | Escaped _ => Err (UnhandledFailure "uncaught exception in the write phase")
  | Placed copy_id =>
      match record_build_exclusions (cat d) bundle_id a with
      | Err _ => Err (UnhandledFailure "uncaught exception in the write phase")
      | Ok k =>
          '(d, receipt) ← emit_customer_manifest {| cat := k; jobs := jobs d |} bundle_id t a (ws_receipt s);
          Ok {| ws_db := d; ws_copy_ids := ws_copy_ids s ++ [copy_id];
                ws_transient := ws_transient s; ws_post_write := ws_post_write s;
                ws_receipt := receipt |}
      end
  end.

Fixpoint write_targets (bundle_id : string) (now : time) (s : WriteState)
    (tas : list (PoolTarget * BuildArtifact)) : result FanoutError WriteState :=
  match tas with
  | [] => Ok s
  | ta :: tas => s ← write_target bundle_id now s ta; write_targets bundle_id now s tas
  end.

(** [_fan_out_targets] *)
Definition fan_out_targets (d : Database) (bundle_id : string) (attempt : nat) (ts : list PoolTarget)
    (key_epoch : option string) (ms : list MemberInput) (rows : list member_entry)
    (map_text : string) (now : time) : result FanoutError WriteState :=
  prepared ← build_targets attempt 0 ts key_epoch ms rows map_text;
  write_targets bundle_id now (initial_writes d) prepared.

(** ** The flush *)

Definition scan_summary (map_text : string) (n : nat) : dict json :=
  [("mode", JStr "map"); ("map_sha256", JStr (sha256_hex map_text)); ("member_count", JInt (Z.of_nat n))].

(** One pass of the loop up to its exception handler. *)
Definition flush_attempt (d : Database) (bundle_id : string) (attempt : nat) (ts : list PoolTarget)
    (key_epoch : option string) (ms : list MemberInput) (rows : list member_entry) (now : time)
    : result FanoutError WriteState :=
  map_text ← render_flush_map (cat d) ms (Some rows);
  let d := update_bundle (λ b, set_scan_summary b (Some (scan_summary map_text (length rows)))
                                 (bu_customer_manifest_path b)) bundle_id d in
  fan_out_targets d bundle_id attempt ts key_epoch ms rows map_text now.

(** The summary a failing attempt leaves on the bundle. *)
Definition after_attempt (d : Database) (bundle_id : string) (ms : list MemberInput)
    (rows : list member_entry) : Database :=
  match render_flush_map (cat d) ms (Some rows) with
  | Ok map_text => update_bundle (λ b, set_scan_summary b (Some (scan_summary map_text (length rows)))
                                         (bu_customer_manifest_path b)) bundle_id d
  | Err _ => d
  end.

Definition oversize (capacity : option Z) (rows : list member_entry) : option member_entry :=
  c ← capacity; head (filter (λ im, c < bm_size_bytes im.2) rows).

(** The [while True] loop; [None] is lack of fuel. *)
Fixpoint flush_loop (fuel : nat) (d : Database) (bundle_id : string) (attempt : nat)
    (max_attempts : option nat) (quarantine : option string) (ts : list PoolTarget)
    (key_epoch : option string) (capacity : option Z) (fresh : string) (now : time)
    : option (result FanoutError WriteState) :=
  match fuel with
  | O => None
  | S fuel =>
      let rows := member_rows_for_flush (cat d) bundle_id in
      match rows with
      | [] => Some (Err AllMembersQuarantined)
      | _ =>
          let bound := default (length rows) max_attempts in
          match oversize capacity rows with
          | Some im => Some (Err (BundleOversize (bm_member_path im.2)))
          | None =>
              match (_ ← validate_submission_member_identity (cat d) rows;
                     member_inputs_for_flush (cat d) rows) with
              | Err e => Some (Err e)
              | Ok ms =>
                  match flush_attempt d bundle_id attempt ts key_epoch ms rows now with
                  | Err (MemberBuildFailure row message) =>
                      if (bound <? S attempt)%nat then Some (Err QuarantineBoundExceeded)
                      else
                        let d := after_attempt d bundle_id ms rows in
                        match quarantine_member (cat d) bundle_id row.1 quarantine fresh message now with
                        | Err e => Some (Err (ClaimFailure e))
                        | Ok (k, qid) =>
                            flush_loop fuel {| cat := k; jobs := jobs d |} bundle_id (S attempt)
                              (Some bound) (Some qid) ts key_epoch capacity fresh now
                        end
                  | o => Some o
                  end
              end
          end
      end
  end.

(** ** Conditions *)

Definition failure_detail (failures : list (string * string)) : string :=
  join "; " ((λ f, "pool " +:+ f.1 +:+ ": " +:+ f.2) <$> failures).

Definition record_bundle_copy_outbox (db : JobDB) (bundle_id : string) (now : time) : JobDB :=
  (record_observation db now "bundle_copy" bundle_id true OBSERVED_MISSING
     (Some "durability-unverified")
     (Some "bundle fan-out committed copies; post-commit durability check pending")).1.

Definition record_fanout_failure (db : JobDB) (bundle_id : string) (condition : Condition)
    (reason message : string) (now : time) : result CondError JobDB :=
  let db := (record_observation db now "bundle_copy" bundle_id true OBSERVED_MISSING (Some reason)
               (Some message)).1 in
  '(db, _) ← record_condition uniform db now "bundle_copy" bundle_id (Some condition) (Some reason)
               (Some message) None None None true;
  Ok db.

Definition transient_message (bundle_id : string) (failures : list (string * string)) : string :=
  "bundle " +:+ bundle_id +:+ " sealed with partial fan-out; transient backend failure for " +:+
  failure_detail failures.

Definition write_failure_message (bundle_id : string) (failures : list (string * string)) : string :=
  "bundle " +:+ bundle_id +:+ " sealed with partial fan-out; post-write failure for " +:+
  failure_detail failures.

(** The conditions a flush records, the more severe verdict last. *)
Definition record_fanout_conditions (db : JobDB) (bundle_id : string)
    (transient post_write : list (string * string)) (now : time)
    : result CondError (JobDB * option (string * string)) :=
  '(db, c) ← match transient with
             | [] => Ok (db, None)
             | _ => let message := transient_message bundle_id transient in
                    db ← record_fanout_failure db bundle_id BACKOFF "transient-backend-failure" message now;
                    Ok (db, Some ("transient-backend-failure", message))
             end;
  '(db, c) ← match post_write with
             | [] => Ok (db, c)
             | _ => let message := write_failure_message bundle_id post_write in
                    db ← record_fanout_failure db bundle_id BLOCKED "post-write-pool-failure" message now;
                    Ok (db, Some ("post-write-pool-failure", message))
             end;
  match transient, post_write with
  | [], [] => Ok (record_bundle_copy_outbox db bundle_id now, c)
  | _, _ => Ok (db, c)
  end.

(** From the seal to the result. *)
Definition finish_flush (s : WriteState) (bundle_id token : string) (now : time)
    : result FanoutError (Database * FanoutResult) :=
  match close_bundle (cat (ws_db s)) bundle_id token now with
  | Err e => Err (ClaimFailure e)
  | Ok k =>
      match record_fanout_conditions (jobs (ws_db s)) bundle_id (ws_transient s) (ws_post_write s) now with
      | Err e => Err (ConditionFailure e)
      | Ok (db, c) =>
          match w_enqueue_fills w {| cat := k; jobs := db |} bundle_id with
          | Err message => Err (UnhandledFailure message)
          | Ok d =>
              Ok (d, {| fr_bundle_id := bundle_id; fr_copy_ids := ws_copy_ids s;
                        fr_manifest_path := ws_receipt s;
                        fr_partial := negb (bool_decide (ws_transient s = [])) ||
                                      negb (bool_decide (ws_post_write s = []));
                        fr_failed_pools := (ws_transient s ++ ws_post_write s).*1;
                        fr_condition_reason := fst <$> c; fr_condition_message := snd <$> c |})
          end
      end
  end.

(** The fuel is one more than the members the claim finds. *)
Definition flush_fuel (d : Database) (bundle_id : string) : nat :=
  S (length (member_rows_for_flush (cat d) bundle_id)).

Definition flush_bundle (d : Database) (bundle_id : string) (key_epoch : option string)
    (capacity : option Z) (token fresh : string) (now : time)
    : option (result FanoutError (Database * FanoutResult)) :=
  if bool_decide (is_Some (w_deliver w)) && negb (w_has_signer w)
  then Some (Err ManifestSigningError)
  else
    match bundles (cat d) !! bundle_id with
    | None => Some (Err BundleNotFound)
    | Some b =>
        if negb (is_open b) then Some (Err BundleNotOpen)
        else if bu_member_count b =? 0 then Some (Err BundleHasNoMembers)
        else
          match bundle_group_targets (cat d) json_str (w_supplied w) b key_epoch true with
          | Err e => Some (Err (TargetFailure e))
          | Ok ts =>
              match require_key_epoch ts with
              | Err e => Some (Err e)
              | Ok _ =>
                  if w_available_bytes w <? bu_total_bytes b * Z.max (Z.of_nat (length ts)) 1
                  then Some (Err FlushPreflightShort)
                  else
                    match begin_flush (cat d) bundle_id token now with
                    | Err e => Some (Err (ClaimFailure e))
                    | Ok k =>
                        let d := {| cat := k; jobs := jobs d |} in
                        match flush_loop (flush_fuel d bundle_id) d bundle_id 0 None None ts key_epoch
                                capacity fresh now with
                        | None => None
                        | Some (Err e) => Some (Err e)
                        | Some (Ok s) => Some (finish_flush s bundle_id token now)
                        end
                    end
              end
          end
    end.
End fanout.
