(* ===== verification/Sweeper.v ===== *)
(** * The bundle sweeper

    [archive_sweeper.py]: one pass reaps dead flush claims, seals empty orphans void, and flushes
    what is drained or due, each flush behind its own savepoint.  The outside world a flush meets is
    an argument per bundle; process liveness is read through parameters. *)

From Stdlib Require Import Ascii.
From S2P Require Import Prelude Json JsonText JobModels Catalog RetryConfig Conditions MemberName.
From S2P Require Import Leases Engine Durability BundleGroup Copies Scrub Accumulator FanoutMap Fanout.

Definition VOID_STATUS : string := "void".

Record SweepResult := {
  sw_reaped : list string;
  sw_voided : list string;
  sw_drained : list string;
  sw_flushed : list string;
  sw_failed : list (string * FanoutError);
}.

Definition acted (r : SweepResult) : Z :=
  Z.of_nat (length (sw_reaped r) + length (sw_voided r) + length (sw_flushed r)).

(** [_open_bundles]: every open bundle, funnels included, in opening order. *)
Definition open_bundles (k : Cat) : list (string * Bundle) :=
  sort_by opening_order (filter (λ ib, is_open ib.2 = true) (map_to_list (bundles k))).

Section sweeper.
Context (sha256_hex : string → string).

(** The live fingerprints and the classes whose stored projection has drifted. *)
Definition live_group_fingerprints (k : Cat) : gset string * list string :=
  let rows := map_to_list (policies k) in
  let derived a := fingerprint_basis sha256_hex (compute_group_basis k a) in
  (list_to_set ((λ ar, derived ar.1) <$> rows),
   omap (λ ar, if decide (pr_bundle_group ar.2 = Some (derived ar.1)) then None else Some ar.1) rows).

(** An empty accumulator that no live class derives. *)
Definition void_orphan (live : gset string) (b : Bundle) : bool :=
  bool_decide (bu_archive_id b = None) && (bu_member_count b =? 0) &&
  negb (bool_decide (bu_bundle_group b ∈ live)).

Definition void_one (live : gset string) (now : time) (acc : Cat * list string)
    (ib : string * Bundle) : Cat * list string :=
  let '(k, voided) := acc in
  if void_orphan live ib.2 then
    match bundles k !! ib.1 with
    | Some b =>
        if is_open b
        then (put_bundle ib.1 (set_flow b VOID_STATUS (bu_claimed_by b) (bu_flushed_at b) (Some now)) k,
              voided ++ [ib.1])
        else (k, voided)
    | None => (k, voided)
    end
  else (k, voided).

Definition void_seal_orphans (k : Cat) (live : gset string) (now : time) : Cat * list string :=
  foldl (void_one live now) (k, []) (open_bundles k).

Definition drainable (live : gset string) (b : Bundle) : bool :=
  bool_decide (bu_archive_id b = None) && (0 <? bu_member_count b) &&
  negb (bool_decide (bu_bundle_group b ∈ live)).

Definition drain_candidates (k : Cat) (live : gset string) : list string :=
  (filter (λ ib, drainable live ib.2 = true) (open_bundles k)).*1.

Definition was_reaped (b : Bundle) : bool :=
  is_open b && negb (bool_decide (bu_archive_id b = None)) &&
  negb (bool_decide (bu_flushed_at b = None)) && bool_decide (bu_claimed_by b = None) &&
  (0 <? bu_member_count b).

Definition due_bundles (k : Cat) (now : time) : list string :=
  (filter (λ ib, (was_reaped ib.2 || bundle_due ib.2 now false) = true) (open_bundles k)).*1.

(** ** Liveness of a claim *)

(** What [os.kill(pid, 0)] says. *)
Inductive PidProbe := ProcessGone | ProcessAlive | ProcessDenied.

Section liveness.
Context (lock_identity : option string) (hostname : string).
Context (parse_int : string → option Z) (probe : Z → PidProbe).

Definition claim_is_live (token : option string) : bool :=
  match token with
  | None | Some EmptyString => false
  | Some t =>
      if decide (lock_identity = Some t) then true
      else
        let '(host, raw_pid) := match rpartition ":" t with Some hp => hp | None => ("", t) end in
        if decide (host ≠ hostname) then false
        else match parse_int raw_pid with
             | None => false
             | Some pid =>
                 if pid <=? 0 then false
                 else match probe pid with ProcessGone => false | _ => true end
             end
  end.
End liveness.

(** ** The reaper *)

Definition reap_one (alive : option string → bool) (acc : Cat * list string)
    (ib : string * Bundle) : Cat * list string :=
  let '(k, reaped) := acc in
  if alive (bu_claimed_by ib.2) then (k, reaped)
  else
    match bundles k !! ib.1 with
    | Some b =>
        if decide (bu_status b = "flushing")
        then (put_bundle ib.1 (set_flow b "open" None (bu_flushed_at b) (bu_sealed_at b)) k,
              reaped ++ [ib.1])
        else (k, reaped)
    | None => (k, reaped)
    end.

Definition flushing_bundles (k : Cat) : list (string * Bundle) :=
  sort_by fst (filter (λ ib, bu_status ib.2 = "flushing") (map_to_list (bundles k))).

Definition reap_stuck_flushing (alive : option string → bool) (k : Cat) : Cat * list string :=
  foldl (reap_one alive) (k, []) (flushing_bundles k).

(** ** The pass *)

(** The sweep hands a deliverables directory to the flush, and no signer. *)
Definition without_signer (w : World) : World := {|
  w_supplied := w_supplied w; w_available_bytes := w_available_bytes w; w_build := w_build w;
  w_tar := w_tar w; w_write := w_write w; w_verify := w_verify w;
  w_read_member := w_read_member w; w_verify_member := w_verify_member w;
  w_deliver := w_deliver w; w_has_signer := false; w_enqueue_fills := w_enqueue_fills w |}.

Fixpoint flush_all (flush : Database → string → result FanoutError Database) (d : Database)
    (ids : list string) : Database * list string * list (string * FanoutError) :=
  match ids with
  | [] => (d, [], [])
  | id :: ids =>
      match flush d id with
      | Ok d' => let '(d'', flushed, failed) := flush_all flush d' ids in (d'', id :: flushed, failed)
      | Err e =>
          let '(d'', flushed, failed) := flush_all flush d ids in (d'', flushed, (id, e) :: failed)
      end
  end.

Section pass.
Context (sha256 : bytes → bytes) (json_str : json → string) (producer_process : string).
Context (uniform : Z → Z → Z).
Context (worlds : string → World) (key_epoch : option string) (token : string) (fresh : string → string).

(** One flush of the pass; [None], which [flush_bundle] never returns, would be a failure too. *)
Definition sweep_flush (now : time) (d : Database) (id : string) : result FanoutError Database :=
  match flush_bundle sha256 sha256_hex json_str producer_process uniform (without_signer (worlds id)) d
          id key_epoch None token (fresh id) now with
  | Some (Ok (d', _)) => Ok d'
  | Some (Err e) => Err e
  | None => Err QuarantineBoundExceeded
  end.

Definition sweep_bundles (alive : option string → bool) (d : Database) (now : time) (reap : bool)
    : Database * SweepResult :=
  let '(k, reaped) := if reap then reap_stuck_flushing alive (cat d) else (cat d, []) in
  let live := (live_group_fingerprints k).1 in
  let '(k, voided) := void_seal_orphans k live now in
  let drained := drain_candidates k live in
  let due := due_bundles k now in
  let '(d, flushed, failed) :=
    flush_all (sweep_flush now) {| cat := k; jobs := jobs d |}
      (sort_by (λ x, x) (remove_dups (drained ++ due))) in
  (d, {| sw_reaped := reaped; sw_voided := voided; sw_drained := sort_by (λ x, x) drained;
         sw_flushed := flushed; sw_failed := failed |}).
End pass.
End sweeper.
