(* ===== verification/AccumulatorFacts.v ===== *)
(** * Correctness of the bundle accumulator

    The invariant of the bundle tables over the whole life of bundles, the finality of sealed
    bundles, the member naming ladder and the idempotence of appends. *)

From Stdlib Require Import Ascii.
From S2P Require Import Prelude Json JsonText JobModels Catalog RetryConfig Conditions.
From S2P Require Import Durability BundleGroup Accumulator Sweeper.

(** ** Sums over the members of one bundle *)

Definition member_sum (w : BundleMember → Z) (id : string) (rows : gmap Z BundleMember) : Z :=
  map_fold (λ _ m acc, (if decide (bm_bundle_id m = id) then w m else 0) + acc) 0 rows.

Section member_sum.
Context (w : BundleMember → Z) (id : string).
Implicit Types rows : gmap Z BundleMember.
Let share (m : BundleMember) : Z := if decide (bm_bundle_id m = id) then w m else 0.

Lemma member_sum_insert rows i m :
  rows !! i = None → member_sum w id (<[i := m]> rows) = share m + member_sum w id rows.
Proof. intros Hi. unfold member_sum. rewrite map_fold_insert_L; [done|intros; lia|done]. Qed.

Lemma member_sum_overwrite rows i old m :
  rows !! i = Some old →
  member_sum w id (<[i := m]> rows) = member_sum w id rows - share old + share m.
Proof.
  intros Hi. rewrite <- insert_delete_eq, member_sum_insert by apply lookup_delete_eq.
  rewrite <- (insert_delete_id rows i old Hi) at 2.
  rewrite member_sum_insert by apply lookup_delete_eq. lia.
Qed.

Lemma member_sum_none rows :
  (∀ i m, rows !! i = Some m → bm_bundle_id m ≠ id) → member_sum w id rows = 0.
Proof.
  induction rows as [|i m rows Hi Hf IH] using map_first_key_ind; [done|].
  intros H. rewrite member_sum_insert by done. rewrite IH.
  - unfold share. rewrite decide_False; [lia|]. eapply H, lookup_insert_eq.
  - intros j m' Hj. apply (H j). rewrite lookup_insert_ne; [done|]. intros ->. congruence.
Qed.
End member_sum.

(** ** The invariant *)

Definition counters_ok (k : Cat) (id : string) (b : Bundle) : Prop :=
  bu_member_count b = member_sum (λ _, 1) id (t_rows (members k)) ∧
  bu_total_bytes b = member_sum bm_size_bytes id (t_rows (members k)).

Record bundles_ok (k : Cat) : Prop := {
  bo_ids : tbl_ok (members k);
  bo_unique : ∀ i i' m m', t_rows (members k) !! i = Some m → t_rows (members k) !! i' = Some m' →
    bm_bundle_id m = bm_bundle_id m' → bm_member_path m = bm_member_path m' → i = i';
  bo_fk : ∀ i m, t_rows (members k) !! i = Some m → is_Some (bundles k !! bm_bundle_id m);
  bo_counts : ∀ id b, bundles k !! id = Some b → counters_ok k id b;
  bo_one_open : ∀ id id' b b', bundles k !! id = Some b → bundles k !! id' = Some b' →
    is_accumulator b = true → is_accumulator b' = true →
    bu_bundle_group b = bu_bundle_group b' → id = id';
  bo_claim : ∀ id b, bundles k !! id = Some b → bu_status b = "flushing" →
    is_Some (bu_archive_id b) ∧ is_Some (bu_claimed_by b) ∧ is_Some (bu_flushed_at b);
  bo_witness : ∀ id b, bundles k !! id = Some b → is_accumulator b = true → witness_matches b = true;
}.

Lemma find_open_accumulator_Some k g id b :
  find_open_accumulator k g = Some (id, b) →
  bundles k !! id = Some b ∧ bu_bundle_group b = g ∧ is_accumulator b = true.
Proof.
  unfold find_open_accumulator. intros H. apply head_Some_elem_of in H.
  rewrite elem_of_sort_by in H. apply list_elem_of_filter in H as [H Hin%elem_of_map_to_list].
  cbn in *. split_bools. done.
Qed.

Lemma find_open_accumulator_None k g id b :
  find_open_accumulator k g = None → bundles k !! id = Some b → bu_bundle_group b = g →
  is_accumulator b = false.
Proof.
  unfold find_open_accumulator. intros H Hb Hg. apply head_None in H.
  destruct (is_accumulator b) eqn:E; [|done]. exfalso.
  assert (Hin : (id, b) ∈ ([] : list (string * Bundle))); [|by apply not_elem_of_nil in Hin].
  rewrite <- H. apply elem_of_sort_by, list_elem_of_filter. cbn. rewrite E.
  split; [|by apply elem_of_map_to_list]. by rewrite bool_decide_true.
Qed.

(** A change of one bundle row that keeps its group and counters. *)
Lemma put_bundle_ok k id b b' :
  bundles_ok k → bundles k !! id = Some b →
  bu_bundle_group b' = bu_bundle_group b → bu_member_count b' = bu_member_count b →
  bu_total_bytes b' = bu_total_bytes b →
  (is_accumulator b' = true → is_accumulator b = true ∧ witness_matches b' = witness_matches b) →
  (bu_status b' = "flushing" →
     is_Some (bu_archive_id b') ∧ is_Some (bu_claimed_by b') ∧ is_Some (bu_flushed_at b')) →
  bundles_ok (put_bundle id b' k).
Proof.
  intros [H1 H2 H3 H4 H5 H6 H7] Hb Hg Hc Ht Hacc Hfl.
  constructor; cbn; try done.
  - intros i m Hm. destruct (H3 i m Hm) as [x Hx].
    destruct (decide (bm_bundle_id m = id)) as [->|]; [rewrite lookup_insert_eq; eauto|].
    rewrite lookup_insert_ne by done. eauto.
  - intros id' x. rewrite lookup_insert. case_decide as Hid; [intros [= <-]; subst id'|apply H4].
    destruct (H4 id b Hb) as [? ?]. split; cbn; congruence.
  - intros id1 id2 b1 b2. rewrite !lookup_insert. intros Hb1 Hb2 Ha1 Ha2 Hgg.
    repeat case_decide; simplify_eq; try done.
    + eapply (H5 id1 id2); [exact Hb1|exact Hb|done|by apply Hacc|congruence].
    + eapply (H5 id1 id2); [exact Hb|exact Hb2|by apply Hacc|done|congruence].
    + by eapply (H5 id1 id2 b1 b2).
  - intros id' x. rewrite lookup_insert. case_decide; [intros [= <-]; done|apply H6].
  - intros id' x. rewrite lookup_insert. case_decide; [intros [= <-] Ha|apply H7].
    destruct (Hacc Ha) as [Hb1 ->]. by eapply H7.
Qed.

(** The INSERT of an empty bundle that meets no conflict. *)
Lemma insert_bundle_ok k id b :
  bundles_ok k → bundle_conflict k id b = false →
  bu_member_count b = 0 → bu_total_bytes b = 0 → bu_status b ≠ "flushing" →
  (is_accumulator b = true → witness_matches b = true) →
  bundles_ok (put_bundle id b k).
Proof.
  intros [H1 H2 H3 H4 H5 H6 H7] Hcf Hc Ht Hs Hw. unfold bundle_conflict in Hcf.
  apply orb_false_iff in Hcf as [Hnone Hopen]. apply bool_decide_eq_false_1 in Hnone.
  apply eq_None_not_Some in Hnone.
  assert (Hfree : is_accumulator b = true → ∀ id' b', bundles k !! id' = Some b' →
    is_accumulator b' = true → bu_bundle_group b' ≠ bu_bundle_group b).
  { intros Ha id' b' Hb' Ha' Hg. rewrite Ha in Hopen. cbn in Hopen.
    apply bool_decide_eq_false_1, eq_None_not_Some in Hopen.
    by rewrite (find_open_accumulator_None _ _ _ _ Hopen Hb' Hg) in Ha'. }
  assert (Hnone' : ∀ w, member_sum w id (t_rows (members k)) = 0).
  { intros w. apply member_sum_none. intros i m Hm Hid.
    destruct (H3 i m Hm) as [x Hx]. rewrite Hid in Hx. congruence. }
  constructor; cbn; try done.
  - intros i m Hm. destruct (H3 i m Hm) as [x Hx]. rewrite lookup_insert. case_decide; eauto.
  - intros id' x. rewrite lookup_insert. case_decide as Hid; [intros [= <-]; subst id'|apply H4].
    split; cbn; by rewrite Hnone'.
  - intros id1 id2 b1 b2. rewrite !lookup_insert. intros Hb1 Hb2 Ha1 Ha2 Hgg.
    repeat case_decide; simplify_eq; try done.
    + by destruct (Hfree Ha2 _ _ Hb1 Ha1).
    + by destruct (Hfree Ha1 _ _ Hb2 Ha2).
    + by eapply (H5 id1 id2 b1 b2).
  - intros id' x. rewrite lookup_insert. case_decide; [by intros [= <-]|apply H6].
  - intros id' x. rewrite lookup_insert. case_decide; [by intros [= <-]|apply H7].
Qed.

(** ** Finality of sealed and void bundles *)

Definition is_final (b : Bundle) : bool := bool_decide (bu_status b ∈ ["sealed"; VOID_STATUS]).

Definition final_id (k : Cat) (id : string) : Prop :=
  ∃ b, bundles k !! id = Some b ∧ is_final b = true.

(** Final bundles keep their row and exactly their members. *)
Definition frozen (k k' : Cat) : Prop :=
  ∀ id b, bundles k !! id = Some b → is_final b = true →
    bundles k' !! id = Some b ∧
    ∀ i m, bm_bundle_id m = id → (t_rows (members k') !! i = Some m ↔ t_rows (members k) !! i = Some m).

#[export] Instance frozen_preorder : PreOrder frozen.
Proof.
  split.
  - intros k id b Hb _. done.
  - intros k1 k2 k3 H12 H23 id b Hb Hf. destruct (H12 id b Hb Hf) as [Hb2 Hm2].
    destruct (H23 id b Hb2 Hf) as [Hb3 Hm3]. split; [done|]. intros i m Hi.
    by rewrite Hm3, Hm2.
Qed.

Lemma frozen_intro k k' :
  (∀ id b, bundles k !! id = Some b → is_final b = true → bundles k' !! id = Some b) →
  (∀ i, t_rows (members k') !! i = t_rows (members k) !! i ∨
     (∀ m, t_rows (members k) !! i = Some m ∨ t_rows (members k') !! i = Some m →
           ¬ final_id k (bm_bundle_id m))) →
  frozen k k'.
Proof.
  intros Hb Hm id b Hid Hf. split; [by apply Hb|]. intros i m <-.
  destruct (Hm i) as [->|Hnf]; [done|].
  split; intros Hi; exfalso; eapply Hnf; eauto; by exists b.
Qed.

Lemma frozen_bundle k id b' :
  ¬ final_id k id → frozen k (put_bundle id b' k).
Proof.
  intros Hnf. apply frozen_intro; [|by left]. intros id' b Hb Hf. cbn.
  rewrite lookup_insert_ne; [done|]. intros ->. apply Hnf. by exists b.
Qed.

Lemma not_final_open k id b : bundles k !! id = Some b → is_open b = true → ¬ final_id k id.
Proof.
  intros Hb Ho%bool_decide_eq_true_1 (b' & Hb' & Hf). simplify_eq.
  unfold is_final in Hf. by rewrite Ho in Hf.
Qed.

Lemma not_final_flushing k id b : bundles k !! id = Some b → bu_status b = "flushing" → ¬ final_id k id.
Proof.
  intros Hb Ho (b' & Hb' & Hf). simplify_eq. unfold is_final in Hf. by rewrite Ho in Hf.
Qed.

(** The member rows of a bundle survive, up to their metadata. *)
Definition same_member (m m' : BundleMember) : Prop :=
  bm_bundle_id m' = bm_bundle_id m ∧ bm_member_path m' = bm_member_path m ∧
  bm_artifactclass m' = bm_artifactclass m ∧ bm_logical_asset_hash m' = bm_logical_asset_hash m.

Definition rows_kept (k k' : Cat) (id : string) : Prop :=
  ∀ i m, t_rows (members k) !! i = Some m → bm_bundle_id m = id →
    ∃ m', t_rows (members k') !! i = Some m' ∧ same_member m m'.

(** What another transaction is assumed to do between a check and the INSERT that follows it: the
    invariant and final bundles are kept, and an open bundle stays open with its members.  The last clause
    is an assumption on the deployment (no flush claims the bundle in that window): [add_bundle_member]
    checks a status it has read before and inserts the row and updates the counters with no guard on the
    status (archive_bundle.py, lines 751-803), and a read takes no lock on the database. *)
Definition race_ok (race : Cat → Cat) : Prop :=
  ∀ k, bundles_ok k → bundles_ok (race k) ∧ frozen k (race k) ∧
    ∀ id b, bundles k !! id = Some b → is_open b = true →
      (∃ b', bundles (race k) !! id = Some b' ∧ is_open b' = true) ∧ rows_kept k (race k) id.

(** ** The naming ladder *)

Lemma head_filter_elem {A} (P : A → Prop) `{∀ x, Decision (P x)} (l : list A) x :
  head (filter P l) = Some x → x ∈ l ∧ P x.
Proof. intros Hh%head_Some_elem_of. apply list_elem_of_filter in Hh as [? ?]. done. Qed.

Lemma member_at_Some k id path i m :
  member_at k id path = Some (i, m) →
  t_rows (members k) !! i = Some m ∧ bm_bundle_id m = id ∧ bm_member_path m = path.
Proof.
  intros H. apply head_filter_elem in H as [Hin%elem_of_tbl_list [? ?]]. done.
Qed.

Lemma member_at_None k id path i m :
  member_at k id path = None → t_rows (members k) !! i = Some m → bm_bundle_id m = id →
  bm_member_path m ≠ path.
Proof.
  intros H Hm Hid Hp. apply head_None in H.
  assert (Hin : (i, m) ∈ ([] : list (Z * BundleMember))); [|by apply not_elem_of_nil in Hin].
  rewrite <- H. apply list_elem_of_filter. split; [done|]. by apply elem_of_tbl_list.
Qed.

Lemma member_at_row k i m :
  bundles_ok k → t_rows (members k) !! i = Some m →
  member_at k (bm_bundle_id m) (bm_member_path m) = Some (i, m).
Proof.
  intros Hok Hm. destruct (member_at k (bm_bundle_id m) (bm_member_path m)) as [[i' m']|] eqn:E.
  - apply member_at_Some in E as (Hm' & Hb & Hp).
    assert (i' = i) as -> by (eapply bo_unique; eauto). congruence.
  - by destruct (member_at_None _ _ _ _ _ E Hm eq_refl).
Qed.

(** A rung occupied by somebody else's row. *)
Definition taken (k : Cat) (id : string) (q : MemberRequest) (rung : string) : Prop :=
  ∃ i m, member_at k id rung = Some (i, m) ∧ own_row q m = false.

Lemma walk_ladder_spec k id q occ rungs r :
  walk_ladder k id q occ rungs = r →
  match r with
  | Ok (path, existing, _) =>
      ∃ pre post, rungs = pre ++ path :: post ∧ Forall (taken k id q) pre ∧
        match existing with
        | None => member_at k id path = None
        | Some im => member_at k id path = Some im ∧ own_row q im.2 = true
        end
  | Err e => e = MemberNamingError ∧ Forall (taken k id q) rungs
  end.
Proof.
  revert occ r. induction rungs as [|c rungs IH]; intros occ r H; cbn in H; [by subst r|].
  destruct (member_at k id c) as [[i m]|] eqn:E.
  2: { subst r. exists [], rungs. split_and!; [done|constructor|done]. }
  destruct (own_row q m) eqn:Ho.
  { subst r. exists [], rungs. split_and!; [done|constructor|done..]. }
  assert (Ht : taken k id q c) by (exists i, m; done).
  apply IH in H. destruct r as [[[path existing] o]|e].
  - destruct H as (pre & post & -> & Hpre & Hex). exists (c :: pre), post.
    split_and!; [done|by constructor|done].
  - destruct H as [? ?]. split; [done|by constructor].
Qed.

(** The walk meets the requester's own row, if some earlier rungs are all taken. *)
Lemma walk_ladder_own k id q occ pre path post i m :
  Forall (taken k id q) pre → member_at k id path = Some (i, m) → own_row q m = true →
  ∃ o, walk_ladder k id q occ (pre ++ path :: post) = Ok (path, Some (i, m), o).
Proof.
  intros Hpre Hm Ho. revert occ. induction Hpre as [|c pre (j & x & Hj & Hx) _ IH]; intros occ; cbn.
  - rewrite Hm, Ho. eauto.
  - rewrite Hj, Hx. apply IH.
Qed.

(** ** Appends keep the invariant *)

Lemma merge_metadata_frame m md m' ch :
  merge_member_source_metadata m md = (m', ch) →
  bm_bundle_id m' = bm_bundle_id m ∧ bm_member_path m' = bm_member_path m ∧
  bm_size_bytes m' = bm_size_bytes m ∧ bm_artifactclass m' = bm_artifactclass m ∧
  bm_logical_asset_hash m' = bm_logical_asset_hash m ∧ bm_file_sha256 m' = bm_file_sha256 m ∧
  (ch = false → m' = m).
Proof.
  unfold merge_member_source_metadata. destruct md as [[|kv kvs]|]; [by intros [= <- <-]| |by intros [= <- <-]].
  destruct (foldl _ _ _) as [merged [|]]; by intros [= <- <-].
Qed.

Lemma put_member_ok k i m m' :
  bundles_ok k → t_rows (members k) !! i = Some m →
  bm_bundle_id m' = bm_bundle_id m → bm_member_path m' = bm_member_path m →
  bm_size_bytes m' = bm_size_bytes m →
  bundles_ok (with_members (tbl_put i m' (members k)) k).
Proof.
  intros [H1 H2 H3 H4 H5 H6 H7] Hm Hb Hp Hs.
  constructor; cbn; try done.
  - by eapply tbl_put_ok.
  - intros j j' x x'. rewrite !lookup_insert. repeat case_decide; intros; simplify_eq; try done.
    + symmetry. eapply H2; eauto; congruence.
    + eapply H2; eauto; congruence.
    + by eapply H2.
  - intros j x. rewrite lookup_insert. case_decide; [intros [= <-]; rewrite Hb; by eapply H3|apply H3].
  - intros id b Hid. destruct (H4 id b Hid) as [Hc Ht]. split; cbn;
      rewrite (member_sum_overwrite _ _ _ _ m) by done; rewrite Hb, ?Hs; lia.
Qed.

Lemma add_member_ok k id b m :
  bundles_ok k → bundles k !! id = Some b → bm_bundle_id m = id →
  member_at k id (bm_member_path m) = None →
  bundles_ok (bump_bundle id (bm_size_bytes m) 1 (with_members (tbl_insert m (members k)).1 k)).
Proof.
  intros [H1 H2 H3 H4 H5 H6 H7] Hid Hbm Hnone.
  assert (Hfresh : t_rows (members k) !! t_next (members k) = None) by by apply tbl_fresh.
  assert (Hfree : ∀ i x, t_rows (members k) !! i = Some x → bm_bundle_id x = id →
    bm_member_path x ≠ bm_member_path m) by (intros; by eapply (member_at_None k id)).
  constructor; cbn.
  - by apply (tbl_insert_ok m) in H1.
  - intros i i' x x'. rewrite !lookup_insert.
    repeat case_decide; intros; simplify_eq; try done; try (by eapply H2);
      exfalso; by eapply Hfree; eauto.
  - intros i x. rewrite lookup_insert. rewrite lookup_alter_is_Some.
    case_decide; [intros [= <-]; rewrite Hbm; eauto|apply H3].
  - intros id' b'. rewrite lookup_alter_Some.
    intros [(<- & x & Hx & ->)|(Hne & Hb')].
    + destruct (H4 _ _ Hx) as [Hc Ht]. split; cbn; rewrite member_sum_insert by done;
        rewrite decide_True by done; lia.
    + destruct (H4 _ _ Hb') as [Hc Ht]. split; cbn; rewrite member_sum_insert by done;
        rewrite decide_False by congruence; lia.
  - intros id1 id2 b1 b2. rewrite !lookup_alter_Some.
    intros [(<- & x & Hx & ->)|(Hne & Hb1)] [(<- & y & Hy & ->)|(Hne' & Hb2)] Ha1 Ha2 Hg;
      [done|eapply (H5 _ _ x b2); eauto|eapply (H5 _ _ b1 y); eauto|by eapply (H5 _ _ b1 b2)].
  - intros id' b'. rewrite lookup_alter_Some. intros [(<- & x & Hx & ->)|(Hne & Hb')]; [|by eapply H6].
    intros Hs. by apply (H6 _ _ Hx).
  - intros id' b'. rewrite lookup_alter_Some. intros [(<- & x & Hx & ->)|(Hne & Hb')]; [|by eapply H7].
    intros Ha. by apply (H7 _ _ Hx).
Qed.

Lemma same_member_refl m : same_member m m.
Proof. done. Qed.

Lemma rows_kept_trans k1 k2 k3 id : rows_kept k1 k2 id → rows_kept k2 k3 id → rows_kept k1 k3 id.
Proof.
  intros H12 H23 i m Hm Hid. destruct (H12 i m Hm Hid) as (m2 & Hm2 & S1 & S2 & S3 & S4).
  destruct (H23 i m2 Hm2) as (m3 & Hm3 & T1 & T2 & T3 & T4); [congruence|].
  exists m3. split; [done|]. split_and!; congruence.
Qed.

Lemma own_row_same q m m' : same_member m m' → own_row q m' = own_row q m.
Proof. intros (_ & _ & Hc & Hh). unfold own_row. by rewrite Hc, Hh. Qed.

Lemma taken_kept k k' id q c :
  bundles_ok k' → rows_kept k k' id → taken k id q c → taken k' id q c.
Proof.
  intros Hok Hkept (i & m & Hat & Ho). apply member_at_Some in Hat as (Hm & Hid & <-).
  destruct (Hkept i m Hm Hid) as (m' & Hm' & Hs). exists i, m'.
  split; [|by rewrite (own_row_same q m m')].
  destruct Hs as (Hb & Hp & _). rewrite <- Hp, <- Hid, <- Hb. by apply member_at_row.
Qed.

Lemma own_member_row id path q : own_row q (member_row id path q) = true.
Proof. unfold own_row. cbn. by rewrite !bool_decide_true. Qed.

Section appends.
Context (sha256_hex : string → string).

(** What one append establishes. *)
Record appended_ok (k k' : Cat) (id : string) (q : MemberRequest) (ap : Appended) : Prop := {
  ao_ok : bundles_ok k';
  ao_frozen : frozen k k';
  ao_open : ∃ b', bundles k' !! id = Some b' ∧ is_open b' = true;
  ao_kept : rows_kept k k' id;
  ao_row : t_rows (members k') !! ap_member_id ap = Some (ap_member ap);
  ao_bundle : bm_bundle_id (ap_member ap) = id;
  ao_own : own_row q (ap_member ap) = true;
  ao_rung : ∃ pre post, ladder_of sha256_hex q = pre ++ bm_member_path (ap_member ap) :: post ∧
    Forall (taken k' id q) pre;
}.

Lemma existing_row_ok k id b q path i m o m' ch :
  bundles_ok k → bundles k !! id = Some b → is_open b = true →
  resolve_member_name sha256_hex k id q = Ok (path, Some (i, m), o) →
  merge_member_source_metadata m (mr_source_metadata q) = (m', ch) →
  appended_ok k (if ch : bool then with_members (tbl_put i m' (members k)) k else k) id q
    {| ap_member_id := i; ap_member := m'; ap_created := false; ap_disambiguated := None |}.
Proof.
  intros Hok Hb Ho Hres Hmerge.
  apply walk_ladder_spec in Hres as (pre & post & Hl & Hpre & Hat & Hown). cbn in Hown.
  apply member_at_Some in Hat as (Hrow & Hid & Hpath).
  apply merge_metadata_frame in Hmerge as (F1 & F2 & F3 & F4 & F5 & F6 & F7).
  set (k' := if ch : bool then _ else k).
  assert (Hok' : bundles_ok k') by (destruct ch; [by eapply put_member_ok|done]).
  assert (Hbundles : bundles k' = bundles k) by by destruct ch.
  assert (Hrows : t_rows (members k') = <[i := m']> (t_rows (members k))).
  { destruct ch; [done|]. rewrite F7 by done. symmetry. by apply insert_id. }
  assert (Hkept : rows_kept k k' id).
  { intros j x Hx Hxid. rewrite Hrows. destruct (decide (j = i)) as [->|].
    - exists m'. rewrite lookup_insert_eq. split; [done|]. simplify_eq. by split_and!.
    - exists x. by rewrite lookup_insert_ne. }
  constructor; cbn.
  - done.
  - apply frozen_intro; [by rewrite Hbundles|]. intros j. rewrite Hrows.
    destruct (decide (j = i)) as [->|]; [right|left; by rewrite lookup_insert_ne].
    intros x [Hx|Hx]; [|rewrite lookup_insert_eq in Hx]; simplify_eq; rewrite ?F1;
      by eapply not_final_open.
  - rewrite Hbundles. eauto.
  - done.
  - rewrite Hrows. apply lookup_insert_eq.
  - congruence.
  - by rewrite (own_row_same q m m').
  - exists pre, post. rewrite F2, Hpath. split; [done|].
    eapply Forall_impl; [exact Hpre|]. intros c. by apply taken_kept.
Qed.

Lemma created_row_ok k k1 id b q path pre post d :
  bundles_ok k1 → frozen k k1 → rows_kept k k1 id →
  bundles k1 !! id = Some b → is_open b = true →
  ladder_of sha256_hex q = pre ++ path :: post → Forall (taken k id q) pre →
  member_at k1 id path = None →
  appended_ok k (bump_bundle id (mr_size_bytes q) 1
                   (with_members (tbl_insert (member_row id path q) (members k1)).1 k1)) id q
    {| ap_member_id := t_next (members k1); ap_member := member_row id path q;
       ap_created := true; ap_disambiguated := d |}.
Proof.
  intros Hok Hfr Hkept Hb Ho Hl Hpre Hnone.
  pose proof (add_member_ok k1 id b (member_row id path q) Hok Hb eq_refl Hnone) as Hok'.
  cbn [member_row bm_size_bytes] in Hok'.
  set (k' := bump_bundle _ _ _ _) in *.
  assert (Hfresh : t_rows (members k1) !! t_next (members k1) = None) by apply tbl_fresh, Hok.
  assert (Hk1 : rows_kept k1 k' id).
  { intros i m Hm _. exists m. split; [|apply same_member_refl]. cbn.
    rewrite lookup_insert_ne; [done|]. intros <-. congruence. }
  assert (Hkept' : rows_kept k k' id) by by eapply rows_kept_trans.
  constructor; cbn.
  - done.
  - etrans; [exact Hfr|]. apply frozen_intro; cbn.
    + intros id' b' Hb' Hf. rewrite lookup_alter_ne; [done|]. intros <-.
      by eapply not_final_open in Ho; [destruct Ho; exists b'|].
    + intros i. destruct (decide (i = t_next (members k1))) as [->|].
      * right. intros m [Hm|Hm]; [congruence|]. rewrite lookup_insert_eq in Hm. simplify_eq.
        by eapply not_final_open.
      * left. by rewrite lookup_insert_ne.
  - exists (add_counters b (mr_size_bytes q) 1). rewrite lookup_alter_eq, Hb. done.
  - done.
  - apply lookup_insert_eq.
  - done.
  - apply own_member_row.
  - exists pre, post. split; [done|]. eapply Forall_impl; [exact Hpre|]. intros c. by apply taken_kept.
Qed.

Lemma appended_ok_trans k k1 k' id q ap :
  frozen k k1 → rows_kept k k1 id → appended_ok k1 k' id q ap → appended_ok k k' id q ap.
Proof.
  intros Hf Hk [H1 H2 H3 H4 H5 H6 H7 H8]. constructor; try done; [by etrans|by eapply rows_kept_trans].
Qed.

Lemma append_attempts_ok n race i k id b q k' ap :
  (∀ i, race_ok (race i)) → bundles_ok k → bundles k !! id = Some b → is_open b = true →
  append_attempts sha256_hex n race i k id q = Ok (k', ap) → appended_ok k k' id q ap.
Proof.
  intros Hrace. revert i k b. induction n as [|n IH]; intros i k b Hok Hb Ho H; [done|].
  cbn [append_attempts] in H. apply bind_Ok in H as ([[path existing] occ] & Hres & H).
  destruct existing as [[mid m]|].
  { destruct (merge_member_source_metadata m _) as [m' ch] eqn:Em.
    injection H as <- <-. by eapply existing_row_ok. }
  destruct (Hrace i k Hok) as (Hok1 & Hfr1 & Hopen1).
  destruct (Hopen1 id b Hb Ho) as [(b1 & Hb1 & Ho1) Hkept1].
  destruct (member_at (race i k) id path) eqn:Eat.
  - eapply appended_ok_trans; [exact Hfr1|exact Hkept1|]. by eapply IH.
  - apply walk_ladder_spec in Hres as (pre & post & Hl & Hpre & Hnone).
    destruct (tbl_insert _ _) as [t mid] eqn:Et. injection Et as <- <-. injection H as <- <-.
    by eapply created_row_ok.
Qed.

Lemma add_bundle_member_ok race k id q k' ap :
  (∀ i, race_ok (race i)) → bundles_ok k → add_bundle_member sha256_hex k race id q = Ok (k', ap) →
  appended_ok k k' id q ap.
Proof.
  intros Hrace Hok H. unfold add_bundle_member in H.
  destruct (bundles k !! id) as [b|] eqn:Eb; [|done].
  apply bind_Ok in H as ([] & Ho%raise_if_Ok & H). apply negb_false_iff in Ho.
  apply bind_Ok in H as ([] & _ & H). by eapply append_attempts_ok.
Qed.

(** Appends are crash-safe.  Once a request was appended to a bundle, repeating it later (after
    any other appends, while the bundle is open) finds its own row, whatever rung of the ladder it
    had been given: nothing is inserted, no counter moves, and only that row's metadata can change. *)
Lemma append_retry_idempotent race race' k id q k1 ap k2 b2 :
  (∀ i, race_ok (race i)) → bundles_ok k → add_bundle_member sha256_hex k race id q = Ok (k1, ap) →
  bundles_ok k2 → rows_kept k1 k2 id → bundles k2 !! id = Some b2 → is_open b2 = true →
  require_asset k2 (mr_logical_asset_hash q) = Ok tt →
  ∃ k3 ap', add_bundle_member sha256_hex k2 race' id q = Ok (k3, ap') ∧
    ap_member_id ap' = ap_member_id ap ∧ ap_created ap' = false ∧ bundles k3 = bundles k2 ∧
    ∀ i, i ≠ ap_member_id ap → t_rows (members k3) !! i = t_rows (members k2) !! i.
Proof.
  intros Hrace Hok H Hok2 Hkept Hb2 Ho2 Hasset.
  apply add_bundle_member_ok in H as [H1 H2 H3 H4 H5 H6 H7 (pre & post & Hl & Hpre)]; [|done..].
  destruct (Hkept _ _ H5 H6) as (m2 & Hm2 & Hs).
  assert (Hat : member_at k2 id (bm_member_path (ap_member ap)) = Some (ap_member_id ap, m2)).
  { destruct Hs as (S1 & S2 & _). rewrite <- S2, <- H6, <- S1. by apply member_at_row. }
  destruct (walk_ladder_own k2 id q None pre _ post _ _
    (Forall_impl _ _ _ Hpre (λ c, taken_kept k1 k2 id q c Hok2 Hkept)) Hat
    ltac:(by rewrite (own_row_same q _ _ Hs))) as [o Ho].
  unfold add_bundle_member. rewrite Hb2, Ho2, Hasset. cbn [raise_if negb mbind result_bind].
  cbn [append_attempts]. unfold resolve_member_name. rewrite Hl, Ho. cbn [mbind result_bind].
  destruct (merge_member_source_metadata m2 _) as [m3 ch] eqn:Em.
  eexists _, _. split; [done|]. split_and!; [done..|by destruct ch|].
  intros i Hi. destruct ch; [|done]. cbn. by rewrite lookup_insert_ne.
Qed.

(** ** Opening *)

Lemma new_bundle_spec g basis t a archive now b :
  new_bundle g basis t a archive now = Ok b →
  bu_bundle_group b = g ∧ bu_status b = "open" ∧ bu_archive_id b = archive ∧
  bu_member_count b = 0 ∧ bu_total_bytes b = 0 ∧ bu_target_bytes b = t ∧
  bu_max_age_seconds b = a ∧ witness_matches b = true.
Proof.
  unfold new_bundle. intros H. apply bind_Ok in H as (doc & _ & H).
  apply bind_Ok in H as ([] & Hw%raise_if_Ok & H). apply negb_false_iff in Hw.
  injection H as <-. by split_and!.
Qed.

Definition opened_ok (k k' : Cat) (id : string) : Prop :=
  bundles_ok k' ∧ frozen k k' ∧ ∃ b, bundles k' !! id = Some b ∧ is_open b = true.

Lemma insert_opened_ok k k1 id b :
  bundles_ok k1 → frozen k k1 → bundle_conflict k1 id b = false → bu_status b = "open" →
  bu_member_count b = 0 → bu_total_bytes b = 0 → (is_accumulator b = true → witness_matches b = true) →
  opened_ok k (put_bundle id b k1) id.
Proof.
  intros Hok Hfr Hcf Hs Hc Ht Hw. split_and!.
  - eapply insert_bundle_ok; try done. by rewrite Hs.
  - etrans; [exact Hfr|]. apply frozen_bundle. intros (b' & Hb' & _).
    unfold bundle_conflict in Hcf. by rewrite Hb' in Hcf.
  - exists b. cbn. rewrite lookup_insert_eq. split; [done|]. unfold is_open. by rewrite Hs.
Qed.

Lemma get_or_create_ok k race cls policy bid fresh now k' id created :
  race_ok race → bundles_ok k →
  get_or_create_open_bundle sha256_hex k race cls policy bid fresh now = Ok (k', id, created) →
  opened_ok k k' id.
Proof.
  intros Hrace Hok H. unfold get_or_create_open_bundle, compute_bundle_group in H.
  set (g := fingerprint_basis _ _) in H.
  assert (Hfound : ∀ k0 i b0, find_open_accumulator k0 g = Some (i, b0) →
    bundles k0 !! i = Some b0 ∧ is_open b0 = true).
  { intros k0 i b0 Hf. apply find_open_accumulator_Some in Hf as (? & _ & Ha). split; [done|].
    by apply andb_true_iff in Ha as [? _]. }
  destruct (find_open_accumulator k g) as [[i b]|] eqn:E.
  { apply bind_Ok in H as (_ & _ & H). injection H as <- <- <-.
    split_and!; [done|done|]. exists b. by apply Hfound. }
  apply bind_Ok in H as ([t a] & _ & H). apply bind_Ok in H as (b & Hnew & H).
  apply new_bundle_spec in Hnew as (N1 & N2 & N3 & N4 & N5 & N6 & N7 & N8).
  destruct (Hrace k Hok) as (Hok1 & Hfr1 & _). case_bool.
  - destruct (find_open_accumulator (race k) g) as [[i w]|] eqn:Ew; [|done].
    injection H as <- <- <-. split_and!; [done|done|]. exists w. by apply Hfound.
  - injection H as <- <- <-. by apply insert_opened_ok.
Qed.

Lemma mint_funnel_ok k race g basis t a bid fresh now k' id :
  race_ok race → bundles_ok k →
  mint_funnel k race g basis t a bid fresh now = Ok (k', id) → opened_ok k k' id.
Proof.
  intros Hrace Hok H. unfold mint_funnel in H. apply bind_Ok in H as (b & Hnew & H).
  apply new_bundle_spec in Hnew as (N1 & N2 & N3 & N4 & N5 & N6 & N7 & N8).
  destruct (Hrace k Hok) as (Hok1 & Hfr1 & _). case_bool.
  - destruct (bundles (race k) !! resolve_bundle_id bid fresh) as [w|] eqn:Ew; [|done].
    case_bool; [|done]. split_bools. injection H as <- <-. split_and!; eauto.
  - injection H as <- <-. by apply insert_opened_ok.
Qed.

Context (escape_name : SourcePath → string) (escape_text : string → string).

(** The bundle an enqueue appends to is open in a sound catalog. *)
Lemma enqueue_appends k mint_race race policy q fresh now k' id ap :
  race_ok mint_race → bundles_ok k →
  enqueue_artifact sha256_hex escape_name escape_text k mint_race race policy q fresh now
    = Ok (k', id, ap) →
  ∃ k1, bundles_ok k1 ∧ frozen k k1 ∧
    add_bundle_member sha256_hex k1 race id (append_request escape_name escape_text q) = Ok (k', ap).
Proof.
  intros Hmint Hok H. unfold enqueue_artifact in H. apply bind_Ok in H as ([] & _ & H).
  destruct (compute_bundle_group sha256_hex k (eq_artifactclass q)) as [g basis].
  apply bind_Ok in H as ([t a] & _ & H). apply bind_Ok in H as ([k1 id1] & Hopen & H).
  apply bind_Ok in H as ([k2 ap2] & Happ & H). injection H as <- <- <-.
  assert (Hok1 : bundles_ok k1 ∧ frozen k k1).
  { case_bool.
    - destruct (find_funnel _ _ _); [by injection Hopen as <- <-|].
      apply mint_funnel_ok in Hopen as (? & ? & _); done.
    - apply bind_Ok in Hopen as ([[k3 id3] c] & Hg & Heq). injection Heq as <- <-.
      apply get_or_create_ok in Hg as (? & ? & _); done. }
  destruct Hok1. by exists k1.
Qed.

Lemma enqueue_artifact_ok k mint_race race policy q fresh now k' id ap :
  race_ok mint_race → (∀ i, race_ok (race i)) → bundles_ok k →
  enqueue_artifact sha256_hex escape_name escape_text k mint_race race policy q fresh now
    = Ok (k', id, ap) →
  bundles_ok k' ∧ frozen k k'.
Proof.
  intros Hmint Hrace Hok H. apply enqueue_appends in H as (k1 & Hok1 & Hfr1 & Happ); [|done..].
  apply add_bundle_member_ok in Happ as []; [|done..]. split; [done|]. by etrans.
Qed.

Lemma attempts_created n race i k id q k' ap :
  append_attempts sha256_hex n race i k id q = Ok (k', ap) → ap_created ap = true →
  ap_member ap = member_row id (bm_member_path (ap_member ap)) q.
Proof.
  intros H Hc. revert i k H. induction n as [|n IH]; intros i k H; [discriminate H|]. cbn [append_attempts] in H.
  apply bind_Ok in H as ([[path existing] occ] & _ & H). destruct existing as [[j m]|].
  - destruct (merge_member_source_metadata m _). injection H as _ <-. discriminate Hc.
  - destruct (member_at (race i k) id path); [by eapply IH|].
    destruct (tbl_insert _ _) as [t j]. by injection H as _ <-.
Qed.

(** A row an append creates is the one requested, under the name the ladder gave. *)
Lemma append_created race k id q k' ap :
  add_bundle_member sha256_hex k race id q = Ok (k', ap) → ap_created ap = true →
  ap_member ap = member_row id (bm_member_path (ap_member ap)) q.
Proof.
  intros H Hc. unfold add_bundle_member in H. destruct (bundles k !! id); [|done].
  apply bind_Ok in H as ([] & _ & H). apply bind_Ok in H as ([] & _ & H). by eapply attempts_created.
Qed.
End appends.
