(* ===== verification/BundleLife.v ===== *)
(** * The life of bundles

    Each operation of the accumulator, the flush, the sweeper and the seal that writes the bundle tables
    is a step; the invariant [bundles_ok] and the finality of sealed and void bundles hold along every
    sequence of steps, in any order.  The tables have other writers, which are no steps: the [cloud_blob.py] handler
    keeps bundles of its own group, sealed with a member count and without member rows (lines 166 and
    327-357), [cli/archive.py] (line 502) marks a bundle aborted on an operator's decision, and
    [staging.py] (lines 225 and 255) rewrites the metadata of a member, which the invariant does not read. *)

From S2P Require Import Prelude Json JsonText JobModels Catalog RetryConfig Conditions.
From S2P Require Import Durability BundleGroup Accumulator Sweeper AccumulatorFacts.

Lemma alter_present {A} (f : A → A) (i : string) (x : A) (m : gmap string A) :
  m !! i = Some x → alter f i m = <[i := f x]> m.
Proof. intros H. by rewrite <- alter_insert_eq, insert_id. Qed.

(** The invariant and finality read the two bundle tables only. *)
Lemma bundles_ok_ext k k' :
  bundles k' = bundles k → members k' = members k → bundles_ok k → bundles_ok k'.
Proof.
  intros Hb Hm [H1 H2 H3 H4 H5 H6 H7].
  constructor; unfold counters_ok; by rewrite ?Hb, ?Hm.
Qed.

Lemma frozen_ext k k' : bundles k' = bundles k → members k' = members k → frozen k k'.
Proof. intros Hb Hm id b H _. by rewrite Hb, Hm. Qed.

(** ** The flush claim and the seal *)

Definition claimed_bundle (id token : string) (now : time) (b : Bundle) : Bundle :=
  let b' := set_flow b "flushing" (Some token) (Some now) (bu_sealed_at b) in
  match bu_archive_id b with
  | None => set_archive_id b' ("archive-" +:+ id)
  | Some _ => b'
  end.

Lemma begin_flush_spec k id token now k' :
  begin_flush k id token now = Ok k' ↔
  ∃ b, bundles k !! id = Some b ∧ is_open b = true ∧ bu_member_count b ≠ 0 ∧
    k' = put_bundle id (claimed_bundle id token now b) k.
Proof.
  unfold begin_flush, claim_bundle_for_flush. destruct (bundles k !! id) as [b|] eqn:Eb;
    [|by split; [|intros (? & ? & _)]].
  destruct (is_open b) eqn:Eo; [|by split; [|intros (? & ? & ? & _); congruence]].
  cbn [negb raise_if mbind result_bind].
  destruct (Z.eqb_spec (bu_member_count b) 0) as [Hz|Hz]; cbn [raise_if mbind result_bind].
  { split; [done|]. intros (b' & Hb' & _ & Hc & _). simplify_eq. }
  unfold claimed_bundle. destruct (bu_archive_id b) eqn:Ea.
  - split; [intros [= <-]; exists b; by rewrite Ea|]. intros (b' & [= <-] & _ & _ & ->). by rewrite Ea.
  - assert (Heq : ∀ f b', with_bundles (alter f id (bundles (put_bundle id b' k))) (put_bundle id b' k)
                         = put_bundle id (f b') k).
    { intros f b'. unfold put_bundle. cbn. by rewrite alter_insert_eq. }
    rewrite Heq. split; [intros [= <-]; exists b; by rewrite Ea|].
    intros (b' & [= <-] & _ & _ & ->). by rewrite Ea.
Qed.

Lemma claimed_bundle_frame id token now b :
  let b' := claimed_bundle id token now b in
  bu_status b' = "flushing" ∧ bu_claimed_by b' = Some token ∧ bu_flushed_at b' = Some now ∧
  is_Some (bu_archive_id b') ∧ bu_bundle_group b' = bu_bundle_group b ∧
  bu_member_count b' = bu_member_count b ∧ bu_total_bytes b' = bu_total_bytes b.
Proof. unfold claimed_bundle. destruct (bu_archive_id b) eqn:E; cbn; rewrite ?E; by split_and!; eauto. Qed.

Lemma begin_flush_ok k id token now k' :
  bundles_ok k → begin_flush k id token now = Ok k' → bundles_ok k' ∧ frozen k k'.
Proof.
  intros Hok (b & Hb & Ho & Hc & ->)%begin_flush_spec.
  destruct (claimed_bundle_frame id token now b) as (F1 & F2 & F3 & F4 & F5 & F6 & F7).
  split; [|by eapply frozen_bundle, not_final_open].
  eapply put_bundle_ok; try done. unfold is_accumulator, is_open. by rewrite F1.
Qed.

Lemma close_bundle_spec k id token now k' :
  close_bundle k id token now = Ok k' ↔
  ∃ b, bundles k !! id = Some b ∧ bu_status b = "flushing" ∧ bu_claimed_by b = Some token ∧
    k' = put_bundle id (set_flow b "sealed" (bu_claimed_by b) (bu_flushed_at b) (Some now)) k.
Proof.
  unfold close_bundle. destruct (bundles k !! id) as [b|]; [|by split; [|intros (? & ? & _)]].
  destruct (bool_decide_reflect (bu_status b = "flushing")) as [Hs|Hs]; cbn [andb];
    [|by split; [|intros (? & ? & ? & _); simplify_eq]].
  destruct (bool_decide_reflect (bu_claimed_by b = Some token)) as [Hc|Hc];
    [|by split; [|intros (? & ? & _ & ? & _); simplify_eq]].
  split; [intros [= <-]; by exists b|]. by intros (b' & [= <-] & _ & _ & ->).
Qed.

Lemma close_bundle_ok k id token now k' :
  bundles_ok k → close_bundle k id token now = Ok k' → bundles_ok k' ∧ frozen k k'.
Proof.
  intros Hok (b & Hb & Hs & Hc & ->)%close_bundle_spec.
  split; [|by eapply frozen_bundle, not_final_flushing]. by eapply put_bundle_ok.
Qed.

Lemma hold_bundle_eq k id b summary now :
  bundles k !! id = Some b → hold_bundle k id summary now = put_bundle id (set_held b now summary) k.
Proof.
  intros Hb. unfold hold_bundle, put_bundle. by rewrite (alter_present _ _ _ _ Hb).
Qed.

Lemma hold_bundle_ok k id b summary now :
  bundles_ok k → bundles k !! id = Some b → is_open b = true →
  bundles_ok (hold_bundle k id summary now) ∧ frozen k (hold_bundle k id summary now).
Proof.
  intros Hok Hb Ho. rewrite (hold_bundle_eq _ _ _ _ _ Hb).
  split; [|by eapply frozen_bundle, not_final_open]. by eapply put_bundle_ok.
Qed.

(** ** Quarantine *)

(** Row [b'] is [b] with its counters moved by [size] and [n]. *)
Record recounted (b b' : Bundle) (size n : Z) : Prop := {
  rn_count : bu_member_count b' = bu_member_count b + n;
  rn_bytes : bu_total_bytes b' = bu_total_bytes b + size;
  rn_status : bu_status b' = bu_status b;
  rn_archive : bu_archive_id b' = bu_archive_id b;
  rn_claim : bu_claimed_by b' = bu_claimed_by b;
  rn_flushed : bu_flushed_at b' = bu_flushed_at b;
}.

Lemma recounted_accumulator b b' size n :
  recounted b b' size n → is_accumulator b' = is_accumulator b.
Proof. intros [_ _ Hs Ha _ _]. unfold is_accumulator, is_open. by rewrite Hs, Ha. Qed.

Lemma move_member_ok k id b b' mid m qid qb qb' :
  bundles_ok k → bundles k !! id = Some b → bundles k !! qid = Some qb → id ≠ qid →
  t_rows (members k) !! mid = Some m → bm_bundle_id m = id →
  member_at k qid (bm_member_path m) = None →
  is_accumulator b = false → is_accumulator qb = false →
  recounted b b' (- bm_size_bytes m) (-1) → recounted qb qb' (bm_size_bytes m) 1 →
  bundles_ok (with_bundles (<[qid := qb']> (<[id := b']> (bundles k)))
    (with_members (tbl_put mid (move_member m qid) (members k)) k)).
Proof.
  intros [H1 H2 H3 H4 H5 H6 H7] Hb Hq Hne Hm Hid Hnone Hacc Hqacc Rb Rq.
  assert (Hfree : ∀ i x, t_rows (members k) !! i = Some x → bm_bundle_id x = qid →
    bm_member_path x ≠ bm_member_path m) by (intros; by eapply (member_at_None k qid)).
  pose proof (recounted_accumulator _ _ _ _ Rb) as Ab.
  pose proof (recounted_accumulator _ _ _ _ Rq) as Aq.
  destruct Rb as [B1 B2 B3 B4 B5 B6], Rq as [Q1 Q2 Q3 Q4 Q5 Q6].
  assert (Hlook : ∀ i x, <[qid := qb']> (<[id := b']> (bundles k)) !! i = Some x →
    is_accumulator x = true → bundles k !! i = Some x).
  { intros i x. rewrite !lookup_insert. repeat case_decide; intros; simplify_eq; congruence. }
  constructor; cbn.
  - by eapply tbl_put_ok.
  - intros i i' x x'. rewrite !lookup_insert. repeat case_decide; intros; simplify_eq; try done;
      try (by eapply H2); exfalso; by eapply Hfree; eauto.
  - intros i x. rewrite !lookup_insert. intros Hx. repeat case_decide; eauto; simplify_eq; eauto.
  - intros i x. unfold counters_ok. cbn. rewrite !(member_sum_overwrite _ _ _ _ m) by done. cbn.
    rewrite !lookup_insert. repeat case_decide; intros Hx; simplify_eq; try done.
    + destruct (H4 _ _ Hq). split; lia.
    + destruct (H4 _ _ Hb). split; lia.
    + destruct (H4 _ _ Hx). split; lia.
  - intros i i' x x' Hx Hx' Ha Ha'. eapply (H5 i i' x x'); eauto.
  - intros i x. rewrite !lookup_insert. repeat case_decide; intros Hx Hs; simplify_eq.
    + rewrite Q4, Q5, Q6. eapply (H6 _ _ Hq). congruence.
    + rewrite B4, B5, B6. eapply (H6 _ _ Hb). congruence.
    + by eapply H6.
  - intros i x Hx Ha. eapply (H7 i x); eauto.
Qed.

(** The member of a flushing bundle moves to a held one: the flush's quarantine bundle, or a new
    one. *)
Lemma quarantine_moves k id b mid m qid qb message :
  bundles_ok k → bundles k !! id = Some b → bu_status b = "flushing" →
  bundles k !! qid = Some qb → bu_status qb = "held" →
  t_rows (members k) !! mid = Some m → bm_bundle_id m = id →
  member_at k qid (bm_member_path m) = None →
  let k' := with_bundles (alter (λ b, append_quarantined b (quarantine_entry m message)) qid
              (alter (λ b, add_counters b (bm_size_bytes m) 1) qid
                (alter (λ b, add_counters b (- bm_size_bytes m) (-1)) id (bundles k))))
              (with_members (tbl_put mid (move_member m qid) (members k)) k) in
  bundles_ok k' ∧ frozen k k'.
Proof.
  intros Hok Hb Hs Hq Hqs Hm Hid Hnone k'.
  assert (Hne : id ≠ qid) by (intros ->; simplify_eq; by rewrite Hs in Hqs).
  unfold k'. rewrite (alter_present _ _ _ _ Hb),
    (alter_present (λ b, add_counters b (bm_size_bytes m) 1) qid qb) by by rewrite lookup_insert_ne.
  rewrite alter_insert_eq. split.
  - assert (Ha : ∀ x s, bu_status x = s → s ≠ "open" → is_accumulator x = false).
    { intros x s <- Hx. unfold is_accumulator, is_open. by rewrite bool_decide_false. }
    eapply (move_member_ok k id b _ mid m qid qb _ Hok Hb Hq Hne Hm Hid Hnone);
      [by eapply Ha|by eapply Ha|by constructor|by constructor].
  - apply frozen_intro; cbn.
    + intros i x Hx Hf. rewrite !lookup_insert_ne; [done|..]; intros <-; simplify_eq;
        unfold is_final in Hf; [by rewrite Hs in Hf|by rewrite Hqs in Hf].
    + intros i. destruct (decide (i = mid)) as [->|]; [right|left; by rewrite lookup_insert_ne].
      intros x [Hx|Hx]; [|rewrite lookup_insert_eq in Hx]; simplify_eq; cbn.
      * by eapply not_final_flushing.
      * intros (y & Hy & Hf). simplify_eq. unfold is_final in Hf. by rewrite Hqs in Hf.
Qed.

Lemma quarantine_member_ok k id b mid m quarantine fresh message now k' qid :
  bundles_ok k → bundles k !! id = Some b → bu_status b = "flushing" →
  t_rows (members k) !! mid = Some m → bm_bundle_id m = id →
  (∀ qid, quarantine = Some qid → ∃ qb, bundles k !! qid = Some qb ∧ bu_status qb = "held") →
  quarantine_member k id mid quarantine fresh message now = Ok (k', qid) →
  bundles_ok k' ∧ frozen k k' ∧ (∃ qb, bundles k' !! qid = Some qb ∧ bu_status qb = "held") ∧
  (∃ b', bundles k' !! id = Some b' ∧ recounted b b' (- bm_size_bytes m) (-1)) ∧
  members k' = tbl_put mid (move_member m qid) (members k) ∧ qid ≠ id.
Proof.
  intros Hok Hb Hs Hm Hid Hquar H. unfold quarantine_member in H. rewrite Hb, Hm in H.
  apply bind_Ok in H as ([k1 q1] & Hmint & H). apply bind_Ok in H as ([] & Hnone%raise_if_Ok & H).
  apply bool_decide_eq_false_1, eq_None_not_Some in Hnone.
  assert (∃ qb, bundles_ok k1 ∧ frozen k k1 ∧ bundles k1 !! id = Some b ∧ members k1 = members k ∧
    bundles k1 !! q1 = Some qb ∧ bu_status qb = "held") as (qb & Hok1 & Hf1 & Hb1 & Hm1 & Hq & Hqs).
  { destruct quarantine as [q|].
    - injection Hmint as <- <-. destruct (Hquar q eq_refl) as (qb & ? & ?). by exists qb.
    - apply bind_Ok in Hmint as ([] & Hfresh%raise_if_Ok & Hmint). injection Hmint as <- <-.
      pose proof Hfresh as Hnew. apply bool_decide_eq_false_1, eq_None_not_Some in Hnew.
      exists (quarantine_bundle b fresh now). cbn. rewrite lookup_insert_eq, lookup_insert_ne by congruence.
      split_and!; try done.
      + apply insert_bundle_ok; try done. unfold bundle_conflict. by rewrite Hfresh.
      + apply frozen_bundle. intros (x & Hx & _). congruence. }
  injection H as <- <-. rewrite <- Hm1 in Hm.
  destruct (quarantine_moves k1 id b mid m q1 qb message Hok1 Hb1 Hs Hq Hqs Hm Hid Hnone) as [Hok2 Hf2].
  assert (Hne : q1 ≠ id) by (intros ->; simplify_eq; by rewrite Hs in Hqs).
  split_and!; cbn.
  - by eapply bundles_ok_ext; [..|exact Hok2].
  - etrans; [exact Hf1|]. etrans; [exact Hf2|]. by apply frozen_ext.
  - eexists. by rewrite lookup_alter_eq, lookup_alter_eq, lookup_alter_ne, Hq.
  - eexists. rewrite lookup_alter_ne, lookup_alter_ne, lookup_alter_eq, Hb1 by done. by split; [|constructor].
  - congruence.
  - done.
Qed.

(** ** The sweeper's own writes *)

Definition kept (k k' : Cat) : Prop := bundles_ok k → bundles_ok k' ∧ frozen k k'.

Lemma kept_refl k : kept k k.
Proof. intros Hok. split; [done|]. reflexivity. Qed.

Lemma kept_trans k1 k2 k3 : kept k1 k2 → kept k2 k3 → kept k1 k3.
Proof. intros H12 H23 Hok. destruct (H12 Hok) as [Hok2 ?]. destruct (H23 Hok2). split; [done|]. by etrans. Qed.

Lemma foldl_kept {A B} (f : Cat * A → B → Cat * A) acc l :
  (∀ k a x, kept k (f (k, a) x).1) → kept acc.1 (foldl f acc l).1.
Proof.
  intros Hf. revert acc. induction l as [|x l IH]; intros [k a]; cbn; [apply kept_refl|].
  eapply kept_trans; [apply Hf|apply IH].
Qed.

Lemma reap_kept alive k : kept k (reap_stuck_flushing alive k).1.
Proof.
  apply (foldl_kept _ (k, [])). intros k0 acc [id b0]. unfold reap_one. cbn. case_match; [apply kept_refl|].
  destruct (bundles k0 !! id) as [b|] eqn:Eb; [|apply kept_refl].
  case_decide as Hs; [|apply kept_refl]. intros Hok. cbn.
  destruct (bo_claim _ Hok _ _ Eb Hs) as (Ha & _).
  split; [|by eapply frozen_bundle, not_final_flushing].
  eapply put_bundle_ok; try done. intros Hacc. cbn in Hacc. unfold is_accumulator in Hacc. cbn in Hacc.
  destruct Ha as [x Ha]. by rewrite Ha in Hacc.
Qed.

Lemma void_kept live now k : kept k (void_seal_orphans k live now).1.
Proof.
  apply (foldl_kept _ (k, [])). intros k0 acc [id b0]. unfold void_one. cbn. case_match; [|apply kept_refl].
  destruct (bundles k0 !! id) as [b|] eqn:Eb; [|apply kept_refl].
  destruct (is_open b) eqn:Eo; [|apply kept_refl]. intros Hok. cbn.
  split; [|by eapply frozen_bundle, not_final_open]. by eapply put_bundle_ok.
Qed.

(** ** Steps *)

Section life.
Context (sha256_hex : string → string).
Context (escape_name : SourcePath → string) (escape_text : string → string).

(** One write of the bundle tables, by whichever process runs it.  A step is one statement group of
    the code; a flush is the sequence claim, quarantines, seal. *)
Inductive bundle_step : Cat → Cat → Prop :=
  | step_enqueue k mint_race race policy q fresh now k' id ap :
      race_ok mint_race → (∀ i, race_ok (race i)) →
      enqueue_artifact sha256_hex escape_name escape_text k mint_race race policy q fresh now
        = Ok (k', id, ap) → bundle_step k k'
  | step_hold k race cls policy bid fresh now k' id created summary :
      race_ok race →
      get_or_create_open_bundle sha256_hex k race cls policy bid fresh now = Ok (k', id, created) →
      bundle_step k (hold_bundle k' id summary now)
  | step_claim k id token now k' : begin_flush k id token now = Ok k' → bundle_step k k'
  | step_quarantine k id b mid m quarantine fresh message now k' qid :
      bundles k !! id = Some b → bu_status b = "flushing" →
      t_rows (members k) !! mid = Some m → bm_bundle_id m = id →
      (∀ qid, quarantine = Some qid → ∃ qb, bundles k !! qid = Some qb ∧ bu_status qb = "held") →
      quarantine_member k id mid quarantine fresh message now = Ok (k', qid) → bundle_step k k'
  | step_seal k id token now k' : close_bundle k id token now = Ok k' → bundle_step k k'
  | step_reap alive k : bundle_step k (reap_stuck_flushing alive k).1
  | step_void k live now : bundle_step k (void_seal_orphans k live now).1
  | step_other k k' : bundles k' = bundles k → members k' = members k → bundle_step k k'.

Lemma bundle_step_kept k k' : bundle_step k k' → kept k k'.
Proof.
  intros Hstep Hok. destruct Hstep.
  - by eapply enqueue_artifact_ok.
  - eapply get_or_create_ok in H0 as (Hok' & Hf & b & Hb & Ho); [|done..].
    destruct (hold_bundle_ok _ _ _ summary now Hok' Hb Ho). split; [done|]. by etrans.
  - by eapply begin_flush_ok.
  - eapply quarantine_member_ok in H4 as (? & ? & _); done.
  - by eapply close_bundle_ok.
  - by apply reap_kept.
  - by apply void_kept.
  - split; [by eapply bundles_ok_ext|by apply frozen_ext].
Qed.

(** C2: along any sequence of enqueues (with races that keep an open bundle open), holds, flush claims,
    quarantines, seals, reaps and voids, member ids stay fresh, [(bundle, path)] names one member, every member's bundle exists,
    the stored counters equal the members' count and bytes, a group has at most one open
    accumulator, a flushing bundle has its archive id, claim token and claim time, and an open
    accumulator keeps its recorded thresholds. *)
Theorem bundle_life_invariant k k' : rtc bundle_step k k' → bundles_ok k → bundles_ok k'.
Proof.
  induction 1 as [|k1 k2 k3 H12 _ IH]; [done|]. intros Hok. apply IH. by apply bundle_step_kept in H12 as [? ?].
Qed.

(** A sealed or void bundle does not change along these steps: its row is the same, and a member row
    belongs to it afterwards exactly if it did before.  That the append of [step_enqueue] finds its
    bundle still open at the INSERT is part of [race_ok], an assumption. *)
Lemma sealed_bundle_frozen k k' id b :
  rtc bundle_step k k' → bundles_ok k → bundles k !! id = Some b → is_final b = true →
  bundles k' !! id = Some b ∧
  ∀ i m, bm_bundle_id m = id → (t_rows (members k') !! i = Some m ↔ t_rows (members k) !! i = Some m).
Proof.
  intros Hrtc Hok. revert id b. change (frozen k k').
  induction Hrtc as [|k1 k2 k3 H12 _ IH]; [reflexivity|].
  destruct (bundle_step_kept _ _ H12 Hok) as [Hok2 ?]. etrans; [done|]. by apply IH.
Qed.
End life.

(** A flush claim is exclusive and its token is required to seal.  While one process holds the
    claim, no other process can claim the bundle and no other token can seal it; after the sweeper
    reaped the claim, the old token cannot seal it either, and the bundle can be claimed again. *)
Lemma flush_claim_protocol k id token now k1 token' now' :
  begin_flush k id token now = Ok k1 →
  begin_flush k1 id token' now' = Err BundleStateError ∧
  (∀ k2, close_bundle k1 id token' now' = Ok k2 → token' = token) ∧
  (∃ k2, close_bundle k1 id token now' = Ok k2) ∧
  ∀ b, bundles k1 !! id = Some b →
    let k2 := put_bundle id (set_flow b "open" None (bu_flushed_at b) (bu_sealed_at b)) k1 in
    (reap_one (λ _, false) (k1, []) (id, b)).1 = k2 ∧
    close_bundle k2 id token now' = Err BundleClaimLost ∧
    ∃ k3, begin_flush k2 id token' now' = Ok k3.
Proof.
  intros (b & Hb & Ho & Hc & ->)%begin_flush_spec.
  destruct (claimed_bundle_frame id token now b) as (F1 & F2 & F3 & F4 & F5 & F6 & F7).
  set (b1 := claimed_bundle id token now b) in *.
  assert (Hb1 : bundles (put_bundle id b1 k) !! id = Some b1) by apply lookup_insert_eq.
  split_and!.
  - unfold begin_flush. rewrite Hb1. unfold is_open. by rewrite F1.
  - intros k2 (b' & Hb' & _ & Hc' & _)%close_bundle_spec. simplify_eq. congruence.
  - eexists. apply close_bundle_spec. exists b1. done.
  - intros b' Hb'. simplify_eq. split_and!.
    + cbn. by rewrite lookup_insert_eq, decide_True.
    + unfold close_bundle. cbn. by rewrite lookup_insert_eq.
    + eexists. apply begin_flush_spec. eexists. split; [apply lookup_insert_eq|].
      split_and!; [done|cbn; congruence|done].
Qed.
