(* ===== verification/NamingFacts.v ===== *)
(** * Correctness of the member naming ladder

    The disambiguation tag can be read back from a tagged path, the rungs of the ladder are
    pairwise different, and naming fails only when every rung is held by somebody else. *)

From Stdlib Require Import Ascii.
From S2P Require Import Prelude Json JsonText JobModels Catalog RetryConfig Conditions.
From S2P Require Import Scrub Durability BundleGroup Accumulator AccumulatorFacts.

(** ** Strings *)

Lemma string_cons_app c (s t : string) : String c s +:+ t = String c (s +:+ t).
Proof. done. Qed.

Lemma string_nil_app (s : string) : "" +:+ s = s.
Proof. done. Qed.

Lemma lacks_app sep s t : lacks sep (s +:+ t) = lacks sep s && lacks sep t.
Proof. induction s as [|c s IH]; [done|]. rewrite string_cons_app. cbn. by rewrite IH, andb_assoc. Qed.

Lemma string_app_assoc (s t u : string) : (s +:+ t) +:+ u = s +:+ t +:+ u.
Proof. induction s as [|c s IH]; [done|]. rewrite !string_cons_app. by f_equal. Qed.

Lemma string_length_app (s t : string) : String.length (s +:+ t) = (String.length s + String.length t)%nat.
Proof. induction s as [|c s IH]; [done|]. rewrite string_cons_app. cbn. by f_equal. Qed.

(** Concatenations in right-nested cons form. *)
Ltac str_norm := rewrite ?string_app_assoc, ?string_cons_app, ?string_nil_app.

Lemma rpartition_None sep s : rpartition sep s = None ↔ lacks sep s = true.
Proof.
  induction s as [|c s IH]; cbn; [done|]. destruct (rpartition sep s) as [[h b]|].
  - split; [done|]. intros [_ H]%andb_true_iff. by apply IH in H.
  - destruct IH as [-> _]; [|done]. rewrite andb_true_r. by destruct (Ascii.eqb c sep).
Qed.

Lemma rpartition_app sep h b : lacks sep b = true → rpartition sep (h +:+ String sep b) = Some (h, b).
Proof.
  intros Hb. induction h as [|c h IH]; [|rewrite string_cons_app]; cbn.
  - apply rpartition_None in Hb. rewrite string_nil_app. cbn.
    by rewrite Hb, Ascii.eqb_refl.
  - by rewrite IH.
Qed.

Lemma rpartition_Some sep s h b :
  rpartition sep s = Some (h, b) → s = h +:+ String sep b ∧ lacks sep b = true.
Proof.
  revert h b. induction s as [|c s IH]; intros h b; cbn; [done|].
  destruct (rpartition sep s) as [[h' b']|] eqn:E.
  - intros [= <- <-]. destruct (IH _ _ eq_refl) as [-> ?]. done.
  - destruct (Ascii.eqb_spec c sep) as [->|]; [|done]. intros [= <- <-].
    split; [done|]. by apply rpartition_None.
Qed.

Lemma partition_Some sep s h b :
  partition sep s = Some (h, b) → s = h +:+ String sep b ∧ lacks sep h = true.
Proof.
  revert h b. induction s as [|c s IH]; intros h b; cbn; [done|].
  destruct (Ascii.eqb_spec c sep) as [->|Hne]; [by intros [= <- <-]|].
  destruct (partition sep s) as [[h' b']|] eqn:E; [|done]. intros [= <- <-].
  destruct (IH _ _ eq_refl) as [-> ?]. split; [done|]. cbn.
  by destruct (Ascii.eqb_spec c sep).
Qed.

Lemma strip_prefix_app p s : strip_prefix p (p +:+ s) = Some s.
Proof. induction p as [|c p IH]; [by destruct s|]. rewrite string_cons_app. cbn. by rewrite Ascii.eqb_refl. Qed.

Lemma strip_suffix_app suffix s : strip_suffix suffix (s +:+ suffix) = Some s.
Proof.
  induction s as [|c s IH].
  - rewrite string_nil_app. destruct suffix; cbn; by rewrite decide_True.
  - rewrite string_cons_app. cbn. rewrite decide_False; [by rewrite IH|]. intros Heq.
    apply (f_equal String.length) in Heq. cbn in Heq. rewrite string_length_app in Heq. lia.
Qed.

(** ** Paths *)

Lemma split_dir_base path : lacks "/" (split_dir path).2 = true.
Proof.
  unfold split_dir. destruct (rpartition "/" path) as [[h b]|] eqn:E; cbn.
  - by apply rpartition_Some in E as [_ ?].
  - by apply rpartition_None.
Qed.

(** Replacing the final segment keeps the directory. *)
Lemma split_dir_rebase path base :
  lacks "/" base = true →
  split_dir ((split_dir path).1 +:+ base) = ((split_dir path).1, base) ∧
  path_head ((split_dir path).1 +:+ base) = path_head path.
Proof.
  intros Hb. unfold split_dir, path_head. destruct (rpartition "/" path) as [[h b]|]; cbn.
  - str_norm. by rewrite rpartition_app.
  - apply rpartition_None in Hb. by rewrite string_nil_app, Hb.
Qed.

Lemma split_dir_join path : (split_dir path).1 +:+ (split_dir path).2 = path.
Proof.
  unfold split_dir. destruct (rpartition "/" path) as [[h b]|] eqn:E; cbn; [|done].
  apply rpartition_Some in E as [-> _]. by str_norm.
Qed.

Lemma tag_base_lacks base tag :
  lacks "/" base = true → lacks "/" tag = true → lacks "/" (tag_base base tag) = true.
Proof.
  intros Hb Ht. unfold tag_base. destruct (partition "." base) as [[stem rest]|] eqn:E.
  - apply partition_Some in E as [-> _]. rewrite lacks_app in Hb. cbn in Hb.
    apply andb_true_iff in Hb as [H1 H2]. by rewrite !lacks_app, H1, Ht.
  - by rewrite !lacks_app, Hb, Ht.
Qed.

Lemma tag_member_path_longer path tag :
  String.length (tag_member_path path tag) = (String.length path + 1 + String.length tag)%nat.
Proof.
  unfold tag_member_path. rewrite <- (split_dir_join path) at 3. rewrite !string_length_app.
  unfold tag_base. destruct (partition "." (split_dir path).2) as [[stem rest]|] eqn:E.
  - apply partition_Some in E as [-> _]. rewrite !string_length_app. cbn. lia.
  - rewrite !string_length_app. cbn. lia.
Qed.

(** The tag of a tagged path is read back exactly, for any tag that is not empty and holds no
    slash. *)
Lemma extract_tag path tag :
  tag ≠ "" → lacks "/" tag = true → extract_member_tag path (tag_member_path path tag) = Some tag.
Proof.
  intros Hne Ht. unfold extract_member_tag.
  rewrite decide_False.
  2: { intros Heq. apply (f_equal String.length) in Heq. rewrite tag_member_path_longer in Heq. lia. }
  pose proof (tag_base_lacks _ tag (split_dir_base path) Ht) as Hl.
  destruct (split_dir_rebase path _ Hl) as [Hs Hh]. unfold tag_member_path.
  rewrite Hs, Hh, decide_False by (intros Hc; by apply Hc). cbn.
  assert (Hnon : non_empty tag = Some tag) by (unfold non_empty; by rewrite decide_False).
  unfold tag_base. destruct (partition "." (split_dir path).2) as [[stem rest]|] eqn:E.
  - rewrite <- string_app_assoc, strip_prefix_app. cbn. by rewrite strip_suffix_app.
  - rewrite <- string_app_assoc, strip_prefix_app. done.
Qed.

(** ** The rungs *)

Lemma bytes_hex_length b : String.length (bytes_hex b) = (2 * String.length b)%nat.
Proof. induction b as [|c b IH]; cbn; [done|]. rewrite IH. lia. Qed.

Lemma hex_digit_no_slash n : Ascii.eqb (hex_digit (n mod 16)) "/" = false.
Proof.
  assert (H : ∀ m, (m < 16)%nat → Ascii.eqb (hex_digit m) "/" = false).
  { intros m Hm. do 16 (destruct m as [|m]; [done|]). lia. }
  apply H, Nat.mod_upper_bound. lia.
Qed.

Lemma bytes_hex_lacks b : lacks "/" (bytes_hex b) = true.
Proof.
  induction b as [|c b IH]; [done|]. cbn [bytes_hex lacks]. rewrite IH, hex_digit_no_slash.
  rewrite <- (Nat.mod_small (nat_of_ascii c / 16) 16), hex_digit_no_slash; [done|].
  pose proof (nat_ascii_bounded c). apply Nat.Div0.div_lt_upper_bound. lia.
Qed.

Lemma substring_prefix_length n s :
  String.length (String.substring 0 n s) = Nat.min n (String.length s).
Proof. revert n. induction s as [|c s IH]; intros [|n]; cbn; [done..|]. by rewrite IH. Qed.

Lemma substring_prefix_lacks sep n s : lacks sep s = true → lacks sep (String.substring 0 n s) = true.
Proof.
  revert n. induction s as [|c s IH]; intros [|n]; cbn; [done..|].
  intros [-> ?]%andb_true_iff. by apply IH.
Qed.

Lemma slug_lacks r s : lacks "/" (slug_from r s) = true.
Proof.
  revert r. induction s as [|c s IH]; intros r; [done|]. cbn [slug_from].
  destruct (slug_char c) eqn:E; [|destruct r; [done|apply IH]].
  cbn [lacks]. rewrite IH. destruct (Ascii.eqb_spec c "/") as [->|]; done.
Qed.

Lemma class_slug_lacks a : lacks "/" (class_slug a) = true.
Proof.
  unfold class_slug. pose proof (slug_lacks false a) as H. by destruct (slug_from false a).
Qed.

Section ladder.
Context (sha256_hex : string → string).

Definition ladder_tags (digest : bytes) (artifactclass : string) : list string :=
  let hex := bytes_hex digest in
  ((λ n, String.substring 0 n hex) <$> NAME_LADDER_PREFIXES) ++
  [hex +:+ "." +:+ class_slug artifactclass +:+ "-" +:+ class_seed sha256_hex artifactclass].

Lemma name_ladder_tags requested digest artifactclass :
  name_ladder sha256_hex requested digest artifactclass =
  requested :: (tag_member_path requested <$> ladder_tags digest artifactclass).
Proof. done. Qed.

Lemma ladder_lengths requested digest artifactclass :
  is_content_hash digest = true →
  ∃ n : nat, String.length <$> name_ladder sha256_hex requested digest artifactclass =
    (λ x, String.length requested + x)%nat <$> [0; 11; 21; 33; 49; 65; 67 + n]%nat.
Proof.
  intros Hd. apply Nat.eqb_eq in Hd. unfold CONTENT_HASH_LEN in Hd.
  exists (String.length (class_slug artifactclass) +
          String.length (class_seed sha256_hex artifactclass))%nat.
  rewrite name_ladder_tags. unfold ladder_tags, NAME_LADDER_PREFIXES. cbn [fmap list_fmap app].
  rewrite !tag_member_path_longer, !substring_prefix_length, !string_length_app, bytes_hex_length, Hd.
  cbn [String.length]. repeat (apply f_equal2; [lia|]). reflexivity.
Qed.

Lemma ladder_distinct requested digest artifactclass :
  is_content_hash digest = true → NoDup (name_ladder sha256_hex requested digest artifactclass).
Proof.
  intros Hd. apply (NoDup_fmap_1 String.length).
  destruct (ladder_lengths requested digest artifactclass Hd) as [n ->].
  apply NoDup_fmap_2; [intros x y Hxy; cbn in Hxy; lia|].
  repeat (apply NoDup_cons; split; [rewrite ?elem_of_cons, elem_of_nil; lia|]). apply NoDup_nil_2.
Qed.

Hypothesis hex_output : ∀ s, lacks "/" (sha256_hex s) = true.

Lemma ladder_tags_lack digest artifactclass t :
  is_content_hash digest = true → t ∈ ladder_tags digest artifactclass → t ≠ "" ∧ lacks "/" t = true.
Proof.
  intros Hd Ht. apply Nat.eqb_eq in Hd. unfold CONTENT_HASH_LEN in Hd.
  pose proof (bytes_hex_length digest) as Hlen. pose proof (bytes_hex_lacks digest) as Hl.
  assert (Hpos : ∀ s : string, (0 < String.length s)%nat → s ≠ "") by (intros s ? ->; cbn in *; lia).
  unfold ladder_tags in Ht. apply elem_of_app in Ht as [Ht|Ht].
  - apply list_elem_of_fmap in Ht as (n & -> & Hn). split; [|by apply substring_prefix_lacks].
    apply Hpos. rewrite substring_prefix_length. unfold NAME_LADDER_PREFIXES in Hn. set_unfold. lia.
  - apply list_elem_of_singleton in Ht as ->. split.
    + apply Hpos. rewrite string_length_app. lia.
    + rewrite !lacks_app, Hl, class_slug_lacks. cbn. by apply substring_prefix_lacks.
Qed.

(** The naming ladder of an append.  For a 32-byte digest the seven names are pairwise different
    and start with the requested one; every other name carries a tag that [extract_member_tag] reads
    back.  The name given is the first one that is free or already holds this very request, and
    naming fails only when all seven are held by other members. *)
Lemma naming_ladder_sound k id q :
  is_content_hash (mr_file_sha256 q) = true →
  let ladder := ladder_of sha256_hex q in
  NoDup ladder ∧ length ladder = 7%nat ∧ head ladder = Some (mr_member_path q) ∧
  (∀ r, r ∈ tail ladder → ∃ t, r = tag_member_path (mr_member_path q) t ∧
     extract_member_tag (mr_member_path q) r = Some t) ∧
  match resolve_member_name sha256_hex k id q with
  | Ok (path, existing, _) =>
      ∃ pre post, ladder = pre ++ path :: post ∧ Forall (taken k id q) pre ∧
        match existing with
        | None => member_at k id path = None
        | Some im => member_at k id path = Some im ∧ own_row q im.2 = true
        end
  | Err e => e = MemberNamingError ∧ Forall (taken k id q) ladder
  end.
Proof.
  intros Hd ladder. split_and!.
  - by apply ladder_distinct.
  - done.
  - done.
  - intros r Hr. unfold ladder, ladder_of in Hr. rewrite name_ladder_tags in Hr. cbn [tail] in Hr.
    apply list_elem_of_fmap in Hr as (t & -> & Ht). exists t. split; [done|].
    destruct (ladder_tags_lack _ _ _ Hd Ht). by apply extract_tag.
  - by apply (walk_ladder_spec _ _ _ None ladder).
Qed.
End ladder.
