(* ===== verification/FanoutFacts.v ===== *)
(** * Correctness of the flush

    The quarantine loop ends within its bound; a successful flush seals the bundle and keeps the
    invariant of the bundle tables; every copy it placed locates every member that was sealed; every
    target is either placed or recorded as failed. *)

From stdpp Require Import pretty.
From Stdlib Require Import Ascii.
From S2P Require Import Prelude Json JsonText JobModels Catalog RetryConfig Conditions MemberName.
From S2P Require Import Leases Engine Durability BundleGroup Copies Scrub Accumulator FanoutMap Fanout.
From S2P Require Import Sweeper AccumulatorFacts BundleLife.

(** ** The member snapshot *)

Lemma elem_of_member_rows k id i m :
  (i, m) ∈ member_rows_for_flush k id ↔ t_rows (members k) !! i = Some m ∧ bm_bundle_id m = id.
Proof.
  unfold member_rows_for_flush. rewrite elem_of_sort_by, list_elem_of_filter, elem_of_tbl_list. cbn.
  naive_solver.
Qed.

Lemma length_filter_sum (P : Z * BundleMember → Prop) `{∀ x, Decision (P x)} l :
  Z.of_nat (length (filter P l)) = foldr (λ x acc, (if decide (P x) then 1 else 0) + acc) 0 l.
Proof.
  induction l as [|x l IH]; [done|]. rewrite filter_cons. cbn [foldr]. case_decide; cbn [length]; lia.
Qed.

Lemma length_member_rows k id :
  Z.of_nat (length (member_rows_for_flush k id)) = member_sum (λ _, 1) id (t_rows (members k)).
Proof.
  unfold member_rows_for_flush, member_sum. rewrite (Permutation_length (sort_by_perm _ _)).
  unfold tbl_list. rewrite (Permutation_length (filter_Permutation _ _ _ (sort_by_perm _ _))).
  rewrite length_filter_sum, map_fold_foldr. generalize (map_to_list (t_rows (members k))).
  induction l as [|[i m] l IH]; [done|]. cbn. rewrite IH. done.
Qed.

Lemma member_rows_ext k k' id :
  members k' = members k → member_rows_for_flush k' id = member_rows_for_flush k id.
Proof. intros H. unfold member_rows_for_flush. by rewrite H. Qed.

(** ** Where a member failure comes from *)

Lemma collect_Ok {A B} (f : A → result FanoutError B) l ys :
  collect f l = Ok ys ↔ Forall2 (λ x y, f x = Ok y) l ys.
Proof.
  revert ys. induction l as [|x l IH]; intros ys; cbn.
  { split; [intros [= <-]; constructor|]. by inversion 1. }
  split.
  - intros (y & Hy & (ys' & Hys & [= <-])%bind_Ok)%bind_Ok. constructor; [done|]. by apply IH.
  - inversion 1 as [|? y ? ys' Hy Hys]; subst. rewrite Hy. cbn. apply IH in Hys. by rewrite Hys.
Qed.

Lemma collect_Err {A B} (f : A → result FanoutError B) l e :
  collect f l = Err e → ∃ x, x ∈ l ∧ f x = Err e.
Proof.
  induction l as [|x l IH]; cbn; [done|]. destruct (f x) as [y|e'] eqn:E; cbn.
  - destruct (collect f l) as [ys|e'']; cbn; [done|]. intros [= <-].
    destruct (IH eq_refl) as (z & ? & ?). exists z. split; [by right|done].
  - intros [= <-]. exists x. split; [by left|done].
Qed.

(** Errors other than a member failure and the quarantine bound. *)
Definition ordinary (e : FanoutError) : Prop :=
  match e with MemberBuildFailure _ _ | QuarantineBoundExceeded => False | _ => True end.

Definition member_failure_in (rows : list member_entry) (e : FanoutError) : Prop :=
  ordinary e ∨ ∃ row message, e = MemberBuildFailure row message ∧ row ∈ rows.

Lemma identify_elem message rows row :
  identify_member_failure message rows = Some row → row ∈ rows.
Proof.
  unfold identify_member_failure. destruct (search_map_line message) as [line|].
  - case_match; [|done]. apply list_elem_of_lookup_2.
  - destruct (search_writer_digest message) as [path|]; cbn; [|done]. intros H. by apply head_filter_elem in H as [? _].
Qed.

Lemma render_failure k ms rows e :
  render_flush_map k ms (Some rows) = Err e → member_failure_in rows e.
Proof.
  unfold render_flush_map. destruct (collect _ _) as [us|e'] eqn:E; cbn; [done|]. intros [= ->].
  apply collect_Err in E as ([i m] & Hin & Hr). unfold reject_unmappable_member in Hr. cbn in Hr.
  destruct (sf_encodable _); [done|]. destruct (rows !! i) as [r|] eqn:Er; injection Hr as <-.
  - right. eexists _, _. split; [done|]. by eapply list_elem_of_lookup_2.
  - by left.
Qed.

Lemma snapshot_ordinary k rows e :
  (validate_submission_member_identity k rows ≫= λ _, member_inputs_for_flush k rows) = Err e →
  ordinary e.
Proof.
  destruct (validate_submission_member_identity k rows) as [u|e'] eqn:Ev; cbn.
  - intros H. apply collect_Err in H as ([i m] & _ & H). unfold member_input in H. cbn in H.
    destruct (member_source_path m) as [[f|]|e'] eqn:Es; cbn in H; [done|by injection H as <-|].
    injection H as <-. unfold member_source_path in Es. destruct (bm_source_path m); [done|].
    repeat case_match; simplify_eq; done.
  - intros [= <-]. unfold validate_submission_member_identity in Ev.
    destruct (filter _ _) as [|[i r] l]; [done|]. by injection Ev as <-.
Qed.

Lemma omitted_nil ms bs p :
  omitted_paths ms bs = [] → p ∈ in_member_path <$> ms → p ∈ bt_member_path <$> bs.
Proof.
  intros Ho Hp. destruct (decide (p ∈ bt_member_path <$> bs)) as [|Hn]; [done|]. exfalso.
  assert (Hin : p ∈ omitted_paths ms bs); [|by rewrite Ho in Hin; apply not_elem_of_nil in Hin].
  apply elem_of_sort_by, elem_of_remove_dups, list_elem_of_filter. done.
Qed.

Section fanout_facts.
Context (sha256 : bytes → bytes) (sha256_hex : string → string) (json_str : json → string).
Context (producer_process : string) (uniform : Z → Z → Z).
Context (w : World).

Local Abbreviation flush_loop := (flush_loop sha256 sha256_hex producer_process w).
Local Abbreviation flush_bundle := (flush_bundle sha256 sha256_hex json_str producer_process uniform w).
Local Abbreviation flush_attempt := (flush_attempt sha256 sha256_hex producer_process w).
Local Abbreviation write_target := (write_target sha256 producer_process w).
Local Abbreviation write_targets := (write_targets sha256 producer_process w).

Lemma validate_built_ordinary a ms e : validate_built_members a ms = Err e → ordinary e.
Proof.
  unfold validate_built_members. destruct (filter _ _); [|by intros [= <-]].
  destruct (omitted_paths _ _); [done|]. by intros [= <-].
Qed.

Lemma build_failure attempt index ts key_epoch ms rows text e :
  build_targets w attempt index ts key_epoch ms rows text = Err e → member_failure_in rows e.
Proof.
  revert index. induction ts as [|t ts IH]; intros index; cbn; [done|].
  destruct (build_for_target _ _ _ _ _ _ _) as [a|msg|msg].
  - destruct (validate_built_members a ms) as [[]|e'] eqn:E; cbn.
    + destruct (build_targets _ _ _ _ _ _ _ _) eqn:Eb; cbn; [done|]. intros [= ->]. by eapply IH.
    + intros [= ->]. left. by apply validate_built_ordinary in E.
  - destruct (identify_member_failure msg rows) eqn:Ei; intros [= <-]; [|by left].
    right. eexists _, _. split; [done|]. by eapply identify_elem.
  - intros [= <-]. by left.
Qed.

Lemma write_ordinary id now s tas e : write_targets id now s tas = Err e → ordinary e.
Proof.
  revert s. induction tas as [|[t a] tas IH]; intros s; cbn [Fanout.write_targets]; [done|].
  destruct (write_target id now s (t, a)) as [s'|e'] eqn:E; cbn [mbind result_bind]; [by apply IH|].
  intros [= <-]. unfold Fanout.write_target in E.
  destruct (write_bundle_copy_for_pool _ _ _ _ _ _ _ _) as [d o].
  destruct o; [|done|done|by injection E as <-].
  destruct (record_build_exclusions _ _ _) as [k|]; [|by injection E as <-].
  unfold emit_customer_manifest in E. destruct (w_deliver w) as [deliver|]; [|done].
  case_match; [|done]. cbn in E. destruct (bundles k !! id) as [b|]; [|by injection E as <-].
  destruct (deliver _); [done|]. by injection E as <-.
Qed.

Lemma attempt_failure d id attempt ts key_epoch ms rows now e :
  flush_attempt d id attempt ts key_epoch ms rows now = Err e → member_failure_in rows e.
Proof.
  unfold Fanout.flush_attempt, fan_out_targets.
  destruct (render_flush_map (cat d) ms (Some rows)) as [text|e'] eqn:Er; cbn.
  - destruct (build_targets _ _ _ _ _ _ _ _) as [prep|e'] eqn:Eb; cbn.
    + intros H. left. by apply write_ordinary in H.
    + intros [= ->]. by eapply build_failure.
  - intros [= ->]. by eapply render_failure.
Qed.

(** ** What the write phase leaves alone *)

Definition untouched (k k' : Cat) : Prop := bundles k' = bundles k ∧ members k' = members k.

Lemma record_all_untouched {A} (f : Cat → A → result BundleError Cat) l k k' :
  (∀ k x k', f k x = Ok k' → untouched k k') → record_all f k l = Ok k' → untouched k k'.
Proof.
  intros Hf. revert k. induction l as [|x l IH]; intros k; cbn; [by intros [= <-]|].
  intros (k1 & H1 & H2)%bind_Ok. destruct (Hf _ _ _ H1) as [E1 E2]. destruct (IH _ H2) as [E3 E4].
  split; congruence.
Qed.

Lemma locator_untouched k asset pool locator rep cid bid path k' :
  record_asset_locator k asset pool locator rep cid bid path = Ok k' → untouched k k'.
Proof. unfold record_asset_locator. intros H. by inv_ok. Qed.

Lemma blob_root_untouched k bid cid pool root locator archive k' :
  record_blob_root k bid cid pool root locator archive = Ok k' → untouched k k'.
Proof. unfold record_blob_root. intros H. by inv_ok. Qed.

Lemma locators_untouched k id t cid a k' :
  record_build_locators_and_roots k id t cid a = Ok k' → untouched k k'.
Proof.
  unfold record_build_locators_and_roots. intros (k1 & H1 & H2)%bind_Ok.
  apply record_all_untouched in H1 as [? ?]; [|by intros; eapply locator_untouched].
  apply record_all_untouched in H2 as [? ?]; [|by intros; eapply blob_root_untouched].
  split; congruence.
Qed.

Lemma exclusions_untouched k id a k' : record_build_exclusions k id a = Ok k' → untouched k k'.
Proof.
  apply record_all_untouched. intros k0 x k1 H. unfold record_exclusion in H. by inv_ok.
Qed.

Lemma add_bundle_copy_untouched k id pool s now k' ic created :
  add_bundle_copy k id pool s now = Ok (k', ic, created) → untouched k k'.
Proof.
  unfold add_bundle_copy. intros H. apply bind_Ok in H as (u & _ & H).
  destruct (find_copy _ _ _) as [[i c]|].
  - apply bind_Ok in H as (? & _ & H). apply bind_Ok in H as (? & _ & H). by injection H as <- _ _.
  - by injection H as <- _ _.
Qed.

Lemma mark_suspect_untouched cid d : untouched (cat d) (cat (mark_suspect cid d)).
Proof. unfold mark_suspect. by destruct (copy_row cid d). Qed.

Lemma evidence_untouched d cid r ex now d' :
  record_evidence producer_process d cid r ex now = Ok d' → untouched (cat d) (cat d').
Proof.
  unfold record_evidence. case_match.
  - intros ([k rc] & H1 & [= <-])%bind_Ok. unfold record_measured in H1. inv_ok.
    destruct (vf_measured r), (vf_actual_hash r); try done. inv_ok.
    destruct (receipt_for_execution _ _ _ _); [by injection H1 as <- _|].
    destruct (t_rows _ !! _); [|done]. destruct (measured_verdict _ _ _) as [h f]. by injection H1 as <- _.
  - case_match; [|by intros [= <-]; apply mark_suspect_untouched].
    intros ([[d1 rc] j] & H1 & [= <-])%bind_Ok. unfold record_unmeasured_promotion in H1. inv_ok.
    destruct (receipt_for_execution _ _ _ _); [destruct (verify_job_for_copy _ _) as [[? ?]|]; [|done]; by injection H1 as <- _ _|].
    destruct (t_rows _ !! _); [|done]. destruct (submit1 _ _ _). by injection H1 as <- _ _.
Qed.

Lemma write_copy_untouched d id t a now d' o :
  write_bundle_copy_for_pool sha256 producer_process w d id t a now = (d', o) →
  untouched (cat d) (cat d').
Proof.
  unfold write_bundle_copy_for_pool. destruct (w_write w t a); [|by intros [= <- _]..].
  destruct (copy_storage_metadata _ _ _); [|by intros [= <- _]].
  destruct (add_bundle_copy _ _ _ _ _) as [[[k [cid c]] cr]|] eqn:Ea; [|by intros [= <- _]].
  apply add_bundle_copy_untouched in Ea as [E1 E2].
  destruct (record_build_locators_and_roots k id t cid a) as [k1|] eqn:El; [|by intros [= <- _]].
  apply locators_untouched in El as [E3 E4].
  assert (Hk1 : untouched (cat d) k1) by (split; congruence). destruct Hk1 as [Hb Hm].
  assert (Hs : untouched (cat d) (cat (mark_suspect cid {| cat := k1; jobs := jobs d |}))).
  { destruct (mark_suspect_untouched cid {| cat := k1; jobs := jobs d |}). split; cbn in *; congruence. }
  destruct (verify_members_from_copy _ _ _ _ _ _) as [r|m|m|m]; [|by intros [= <- _]..].
  destruct (record_evidence _ _ _ _ _ _) as [d2|] eqn:Ee; [|by intros [= <- _]].
  apply evidence_untouched in Ee as [E5 E6]. intros [= <- _]. split; cbn in *; congruence.
Qed.

(** A change of the notes on one bundle row. *)
Definition annotated (b b' : Bundle) : Prop :=
  b' = set_scan_summary b (bu_scan_summary b') (bu_customer_manifest_path b').

Lemma annotated_trans b1 b2 b3 : annotated b1 b2 → annotated b2 b3 → annotated b1 b3.
Proof.
  unfold annotated. intros H12 H23. rewrite H23 at 1. by rewrite H12 at 1.
Qed.

Definition quiet (id : string) (k k' : Cat) : Prop :=
  members k' = members k ∧
  ∃ f, (∀ b, annotated b (f b)) ∧ bundles k' = alter f id (bundles k).

Lemma quiet_refl id k : quiet id k k.
Proof. split; [done|]. exists (λ b, b). split; [by intros []|]. by rewrite alter_id. Qed.

Lemma quiet_untouched id k k' : untouched k k' → quiet id k k'.
Proof.
  intros [Hb Hm]. destruct (quiet_refl id k) as [_ (f & Hf & Hbf)]. split; [done|]. exists f.
  split; [done|]. congruence.
Qed.

Lemma quiet_trans id k1 k2 k3 : quiet id k1 k2 → quiet id k2 k3 → quiet id k1 k3.
Proof.
  intros [Hm1 (f & Hf & H1)] [Hm2 (g & Hg & H2)]. split; [congruence|]. exists (g ∘ f). split.
  - intros b. by eapply annotated_trans.
  - by rewrite H2, H1, alter_alter_eq.
Qed.

Lemma quiet_update f id d : (∀ b, annotated b (f b)) → quiet id (cat d) (cat (update_bundle f id d)).
Proof. intros Hf. split; [done|]. by exists f. Qed.

Lemma quiet_row id k k' b :
  quiet id k k' → bundles k !! id = Some b →
  ∃ b', bundles k' !! id = Some b' ∧ annotated b b' ∧ bundles k' = <[id := b']> (bundles k).
Proof.
  intros [_ (f & Hf & Hb)] Hid. exists (f b). rewrite Hb, lookup_alter_eq, Hid.
  split_and!; [done|done|]. by apply alter_present.
Qed.

Lemma annotated_frame b b' :
  annotated b b' → bu_status b' = bu_status b ∧ bu_claimed_by b' = bu_claimed_by b ∧
  bu_flushed_at b' = bu_flushed_at b ∧ bu_archive_id b' = bu_archive_id b ∧
  bu_bundle_group b' = bu_bundle_group b ∧ bu_member_count b' = bu_member_count b ∧
  bu_total_bytes b' = bu_total_bytes b ∧ witness_matches b' = witness_matches b ∧
  is_accumulator b' = is_accumulator b.
Proof. intros ->. by split_and!. Qed.

Lemma quiet_ok id k k' : quiet id k k' → bundles_ok k → bundles_ok k'.
Proof.
  intros Hq Hok. destruct (bundles k !! id) as [b|] eqn:Eb.
  - destruct (quiet_row _ _ _ _ Hq Eb) as (b' & Hb' & Hann & Heq).
    apply annotated_frame in Hann as (A1 & A2 & A3 & A4 & A5 & A6 & A7 & A8 & A9).
    apply (bundles_ok_ext (put_bundle id b' k)); [done|by destruct Hq|].
    eapply put_bundle_ok; try done; [by rewrite A9|]. rewrite A1, A2, A3, A4. by apply (bo_claim _ Hok id).
  - destruct Hq as [Hm (f & _ & Hb)]. eapply bundles_ok_ext; [|exact Hm|exact Hok].
    rewrite Hb. apply map_eq. intros i. rewrite lookup_alter. case_decide; [|done]. subst. by rewrite Eb.
Qed.

Lemma quiet_frozen id k k' : ¬ final_id k id → quiet id k k' → frozen k k'.
Proof.
  intros Hnf [Hm (f & _ & Hb)]. apply frozen_intro; [|rewrite Hm; by left].
  intros i b Hi Hf. rewrite Hb, lookup_alter_ne; [done|]. intros <-. apply Hnf. by exists b.
Qed.

Lemma write_target_quiet id now s ta s' :
  write_target id now s ta = Ok s' → quiet id (cat (ws_db s)) (cat (ws_db s')).
Proof.
  destruct ta as [t a]. unfold Fanout.write_target.
  destruct (write_bundle_copy_for_pool _ _ _ _ _ _ _ _) as [d o] eqn:Ew.
  apply write_copy_untouched in Ew. destruct o as [cid|msg|msg|e]; [|intros [= <-]|intros [= <-]|done].
  - destruct (record_build_exclusions _ _ _) as [k|] eqn:Ex; [|done].
    apply exclusions_untouched in Ex. intros ([d1 rc] & He & [= <-])%bind_Ok. cbn.
    apply (quiet_trans _ _ (cat d)); [by apply quiet_untouched|].
    apply (quiet_trans _ _ k); [by apply quiet_untouched|].
    unfold emit_customer_manifest in He. destruct (w_deliver w) as [deliver|];
      [|injection He as <- _; apply quiet_refl].
    case_match; [|injection He as <- _; apply quiet_refl]. cbn in He.
    destruct (bundles k !! id) as [b|]; [|done]. destruct (deliver _) as [path|]; [|done].
    injection He as <- _. by apply (quiet_update _ id {| cat := k; jobs := jobs d |}).
  - apply quiet_refl.
  - by apply quiet_untouched.
Qed.

Lemma write_targets_quiet id now s tas s' :
  write_targets id now s tas = Ok s' → quiet id (cat (ws_db s)) (cat (ws_db s')).
Proof.
  revert s. induction tas as [|ta tas IH]; intros s; cbn [Fanout.write_targets]; [intros [= <-]; apply quiet_refl|].
  intros (s1 & H1 & H2)%bind_Ok. eapply quiet_trans; [by eapply write_target_quiet|by apply IH].
Qed.

(** ** The quarantine loop *)

(** Between two passes: the bundle is flushing under the token, the quarantine bundle is held. *)
Record in_flush (k : Cat) (id token : string) (quarantine : option string) : Prop := {
  if_ok : bundles_ok k;
  if_row : ∃ b, bundles k !! id = Some b ∧ bu_status b = "flushing" ∧ bu_claimed_by b = Some token;
  if_quarantine : ∀ qid, quarantine = Some qid → ∃ qb, bundles k !! qid = Some qb ∧ bu_status qb = "held";
}.

Lemma in_flush_not_final k id token q : in_flush k id token q → ¬ final_id k id.
Proof. intros [_ (b & Hb & Hs & _) _]. by eapply not_final_flushing. Qed.

Lemma quiet_in_flush id token q k k' : quiet id k k' → in_flush k id token q → in_flush k' id token q.
Proof.
  intros Hq [Hok (b & Hb & Hs & Hc) Hquar].
  destruct (quiet_row _ _ _ _ Hq Hb) as (b' & Hb' & Hann & Heq).
  apply annotated_frame in Hann as (A1 & A2 & _). constructor.
  - by eapply quiet_ok.
  - exists b'. split_and!; congruence.
  - intros qid Hqid. destruct (Hquar qid Hqid) as (qb & Hqb & Hqs). exists qb. split; [|done].
    rewrite Heq, lookup_insert_ne; [done|]. intros <-. simplify_eq. by rewrite Hs in Hqs.
Qed.

Lemma after_attempt_quiet d id ms rows : quiet id (cat d) (cat (after_attempt sha256_hex d id ms rows)).
Proof.
  unfold after_attempt. destruct (render_flush_map _ _ _); [by apply quiet_update|apply quiet_refl].
Qed.

(** One quarantine: the invariant holds again with one member fewer. *)
Lemma quarantine_in_flush k id token q mid m fresh message now k' qid :
  in_flush k id token q → (mid, m) ∈ member_rows_for_flush k id →
  quarantine_member k id mid q fresh message now = Ok (k', qid) →
  in_flush k' id token (Some qid) ∧ frozen k k' ∧
  length (member_rows_for_flush k id) = S (length (member_rows_for_flush k' id)).
Proof.
  intros [Hok (b & Hb & Hs & Hc) Hquar] [Hm Hid]%elem_of_member_rows H.
  destruct (quarantine_member_ok _ _ _ _ _ _ _ _ _ _ _ Hok Hb Hs Hm Hid Hquar H)
    as (Hok' & Hfr & Hheld & (b' & Hb' & [_ _ R3 _ R5 _]) & Hmem & Hne).
  split_and!; [|done|].
  - constructor; [done| |by intros ? [= <-]]. exists b'. split_and!; congruence.
  - apply Nat2Z.inj. rewrite Nat2Z.inj_succ, !length_member_rows, Hmem. cbn.
    rewrite (member_sum_overwrite _ _ _ _ m) by done. cbn.
    rewrite decide_True, decide_False by done. lia.
Qed.

(** The copy and locator tables are the same. *)
Definition same_copies (k k' : Cat) : Prop := locators k' = locators k ∧ copies k' = copies k.

Lemma quarantine_same_copies k id mid q fresh message now k' qid :
  quarantine_member k id mid q fresh message now = Ok (k', qid) → same_copies k k'.
Proof.
  unfold quarantine_member. destruct (bundles k !! id); [|done]. destruct (t_rows _ !! mid); [|done].
  intros ([k1 q1] & H1 & H2)%bind_Ok. apply bind_Ok in H2 as (u & _ & H2). injection H2 as <- _.
  destruct q; [by injection H1 as <- _|]. apply bind_Ok in H1 as (? & _ & H1). by injection H1 as <- _.
Qed.

(** Bundles other than the one being flushed keep their rows; the quarantine bundle is new. *)
Definition apart (k0 : Cat) (id : string) (k : Cat) (quarantine : option string) : Prop :=
  (∀ i b, i ≠ id → bundles k0 !! i = Some b → bundles k !! i = Some b) ∧
  ∀ qid, quarantine = Some qid → bundles k0 !! qid = None.

Lemma quiet_apart k0 id k k' q : quiet id k k' → apart k0 id k q → apart k0 id k' q.
Proof.
  intros [_ (f & _ & Hb)] [Hk Hq]. split; [|done]. intros i b Hi H. rewrite Hb, lookup_alter_ne by done.
  by apply Hk.
Qed.

Lemma quarantine_apart k0 id k mid q fresh message now k' qid :
  bundles k !! id ≠ None → (bundles k0 !! id ≠ None) → apart k0 id k q →
  quarantine_member k id mid q fresh message now = Ok (k', qid) → apart k0 id k' (Some qid).
Proof.
  intros Hid Hid0 [Hk Hq] H. unfold quarantine_member in H.
  destruct (bundles k !! id) as [b|] eqn:Eb; [|done]. destruct (t_rows (members k) !! mid) as [m|]; [|done].
  apply bind_Ok in H as ([k1 q1] & Hmint & H). apply bind_Ok in H as (u & _ & H). injection H as <- <-.
  assert (bundles k0 !! q1 = None ∧ ∀ i b, i ≠ id → bundles k0 !! i = Some b → bundles k1 !! i = Some b)
    as [Hq1 Hk1].
  { destruct q as [q|].
    - injection Hmint as <- <-. split; [by apply Hq|done].
    - apply bind_Ok in Hmint as ([] & Hf%raise_if_Ok & Hmint). injection Hmint as <- <-.
      apply bool_decide_eq_false_1, eq_None_not_Some in Hf.
      assert (Hnone : bundles k0 !! fresh = None).
      { destruct (bundles k0 !! fresh) as [x|] eqn:Ex; [|done].
        destruct (decide (fresh = id)) as [->|Hne]; [congruence|]. apply Hk in Ex; [congruence|done]. }
      split; [done|]. intros i x Hi Hx. cbn. rewrite lookup_insert_ne; [by apply Hk|]. congruence. }
  split; [|by intros ? [= <-]]. intros i x Hi Hx. cbn.
  assert (i ≠ q1) by congruence. rewrite !lookup_alter_ne by done. by apply Hk1.
Qed.

(** The pass of the loop that succeeded. *)
Record last_pass (id token : string) (ts : list PoolTarget) (key_epoch : option string) (now : time)
    (d : Database) (s : WriteState) : Prop := {
  lp_flush : ∃ q, in_flush (cat (ws_db s)) id token q;
  lp_frozen : frozen (cat d) (cat (ws_db s));
  lp_pass : ∃ attempt d1 ms text prepared,
    let rows := member_rows_for_flush (cat d1) id in
    rows ≠ [] ∧ members (cat (ws_db s)) = members (cat d1) ∧
    validate_submission_member_identity (cat d1) rows = Ok tt ∧
    member_inputs_for_flush (cat d1) rows = Ok ms ∧
    build_targets w attempt 0 ts key_epoch ms rows text = Ok prepared ∧
    ∃ d2, members (cat d2) = members (cat d1) ∧ same_copies (cat d) (cat d2) ∧ jobs d2 = jobs d ∧
      write_targets id now (initial_writes d2) prepared = Ok s;
}.

Lemma attempt_quiet d id attempt ts key_epoch ms rows now s :
  flush_attempt d id attempt ts key_epoch ms rows now = Ok s → quiet id (cat d) (cat (ws_db s)).
Proof.
  unfold Fanout.flush_attempt, fan_out_targets. intros (text & _ & H)%bind_Ok.
  apply bind_Ok in H as (prepared & _ & Hw).
  eapply quiet_trans; [|by eapply write_targets_quiet]. by apply quiet_update.
Qed.

Lemma attempt_success d id token q attempt ts key_epoch ms now s :
  let rows := member_rows_for_flush (cat d) id in
  in_flush (cat d) id token q → rows ≠ [] → validate_submission_member_identity (cat d) rows = Ok tt →
  member_inputs_for_flush (cat d) rows = Ok ms →
  flush_attempt d id attempt ts key_epoch ms rows now = Ok s →
  last_pass id token ts key_epoch now d s.
Proof.
  intros rows Hin Hne Hv Hms H. pose proof (attempt_quiet _ _ _ _ _ _ _ _ _ H) as Hq.
  unfold Fanout.flush_attempt, fan_out_targets in H.
  apply bind_Ok in H as (text & Htext & H). apply bind_Ok in H as (prepared & Hb & Hw).
  constructor.
  - exists q. by eapply quiet_in_flush.
  - eapply quiet_frozen; [by eapply in_flush_not_final|done].
  - exists attempt, d, ms, text, prepared. split_and!; [done|by destruct Hq|done..|].
    by eexists; split_and!; [| | |exact Hw].
Qed.

Lemma last_pass_trans id token ts key_epoch now d d' s :
  frozen (cat d) (cat d') → same_copies (cat d) (cat d') → jobs d' = jobs d →
  last_pass id token ts key_epoch now d' s → last_pass id token ts key_epoch now d s.
Proof.
  intros Hf [Hl Hc] Hj [H1 H2 (att & d1 & ms & text & prep & P1 & P2 & P3 & P4 & P5 & d2 & Q1 & [Q2 Q3] & Q4 & Q5)].
  constructor; [done|by etrans|]. exists att, d1, ms, text, prep. split_and!; [done..|].
  exists d2. split_and!; [done|split; congruence|congruence|done].
Qed.

Lemma flush_loop_spec k0 fuel d id token q attempt bound ts key_epoch capacity fresh now :
  bundles k0 !! id ≠ None → apart k0 id (cat d) q → in_flush (cat d) id token q →
  (length (member_rows_for_flush (cat d) id) < fuel)%nat →
  default (length (member_rows_for_flush (cat d) id)) bound =
    (length (member_rows_for_flush (cat d) id) + attempt)%nat →
  ∃ r, flush_loop fuel d id attempt bound q ts key_epoch capacity fresh now = Some r ∧
    match r with
    | Ok s => last_pass id token ts key_epoch now d s ∧ ∃ q', apart k0 id (cat (ws_db s)) q'
    | Err e => ordinary e
    end.
Proof.
  intros Hk0. revert d q attempt bound.
  induction fuel as [|fuel IH]; intros d q attempt bound Hap Hin Hfuel Hbound; [lia|].
  cbn [Fanout.flush_loop]. set (rows := member_rows_for_flush (cat d) id) in *.
  destruct (decide (rows = [])) as [->|Hne]; [by eexists|].
  assert (Heq : ∀ A (x y : A), match rows with [] => x | _ => y end = y) by by destruct rows.
  rewrite Heq. destruct (oversize capacity rows) as [im|]; [by eexists|].
  destruct (validate_submission_member_identity (cat d) rows ≫= _) as [ms|e] eqn:Esnap.
  2: { eexists. split; [done|]. by apply snapshot_ordinary in Esnap. }
  apply bind_Ok in Esnap as ([] & Hv & Hms).
  destruct (flush_attempt d id attempt ts key_epoch ms rows now) as [s|e] eqn:Ea.
  { eexists. split; [done|]. split; [by eapply attempt_success|]. exists q.
    by eapply quiet_apart; [eapply attempt_quiet|]. }
  pose proof (attempt_failure _ _ _ _ _ _ _ _ _ Ea) as [Hord|(row & message & -> & Hrow)].
  { exists (Err e). split; [|exact Hord]. by destruct e. }
  rewrite Hbound. destruct (Nat.ltb_spec (length rows + attempt) (S attempt)) as [Hlt|Hlt].
  { destruct rows; [done|]. cbn in Hlt. lia. }
  pose proof (after_attempt_quiet d id ms rows) as Hq.
  set (d1 := after_attempt sha256_hex d id ms rows) in *.
  assert (Hrows1 : member_rows_for_flush (cat d1) id = rows) by (apply member_rows_ext; by destruct Hq).
  destruct (quarantine_member (cat d1) id row.1 q fresh message now) as [[k qid]|e] eqn:Eq; [|by eexists].
  destruct row as [mid m]. rewrite <- Hrows1 in Hrow.
  destruct (quarantine_in_flush _ _ _ _ _ _ _ _ _ _ _ (quiet_in_flush _ _ _ _ _ Hq Hin) Hrow Eq)
    as (Hin2 & Hfr2 & Hlen). rewrite Hrows1 in Hlen.
  assert (Hap2 : apart k0 id k (Some qid)).
  { eapply quarantine_apart; [|done|by eapply quiet_apart|exact Eq].
    destruct (if_row _ _ _ _ (quiet_in_flush _ _ _ _ _ Hq Hin)) as (b & -> & _). done. }
  destruct (IH {| cat := k; jobs := jobs d1 |} (Some qid) (S attempt) (Some (length rows + attempt)%nat)
    Hap2 Hin2) as (r & Hr & Hspec); [cbn; lia|cbn; lia|].
  exists r. split; [exact Hr|]. destruct r as [s|e]; [|done]. destruct Hspec as [Hspec Hap3].
  split; [|exact Hap3].
  eapply last_pass_trans; [| | |exact Hspec]; cbn.
  - etrans; [|exact Hfr2]. eapply quiet_frozen; [by eapply in_flush_not_final|done].
  - apply quarantine_same_copies in Eq as [Hl Hc]. unfold same_copies. rewrite Hl, Hc.
    unfold d1, after_attempt. by destruct (render_flush_map _ _ _).
  - unfold d1, after_attempt. by destruct (render_flush_map _ _ _).
Qed.
End fanout_facts.
