(* ===== verification/FlushFacts.v ===== *)
(** * What a flush guarantees

    The theorems about [flush_bundle] as a whole: it ends, it seals, its copies locate every sealed
    member, and every target is accounted for in the result and in the condition it records. *)

From stdpp Require Import pretty.
From Stdlib Require Import Ascii.
From S2P Require Import Prelude Json JsonText JobModels Catalog RetryConfig Conditions MemberName.
From S2P Require Import Leases Engine Durability BundleGroup Copies Scrub Accumulator FanoutMap Fanout.
From S2P Require Import Spine SpineFacts Sweeper AccumulatorFacts BundleLife FanoutFacts.

(** ** Copies and locators only accumulate *)

Definition tables_ok (k : Cat) : Prop := tbl_ok (locators k) ∧ tbl_ok (copies k).

Definition keeps_copies (k k' : Cat) : Prop :=
  ∀ i c, t_rows (copies k) !! i = Some c → ∃ c', t_rows (copies k') !! i = Some c' ∧
    cp_bundle_id c' = cp_bundle_id c ∧ cp_pool_id c' = cp_pool_id c ∧
    cp_backend_id c' = cp_backend_id c ∧ cp_integrity_hash c' = cp_integrity_hash c.

Definition grows (k k' : Cat) : Prop :=
  tables_ok k → tables_ok k' ∧ keeps_copies k k' ∧
  ∀ j l, t_rows (locators k) !! j = Some l → t_rows (locators k') !! j = Some l.

Lemma keeps_copies_refl k : keeps_copies k k.
Proof. intros i c Hc. by exists c. Qed.

#[export] Instance grows_preorder : PreOrder grows.
Proof.
  split.
  - intros k Hok. split_and!; [done|apply keeps_copies_refl|done].
  - intros k1 k2 k3 H12 H23 Hok. destruct (H12 Hok) as (Hok2 & Hc2 & Hl2).
    destruct (H23 Hok2) as (Hok3 & Hc3 & Hl3). split_and!; [done| |eauto].
    intros i c Hc. destruct (Hc2 i c Hc) as (c2 & R2 & ? & ? & ? & ?).
    destruct (Hc3 i c2 R2) as (c3 & R3 & ? & ? & ? & ?). exists c3. split_and!; congruence.
Qed.

Lemma grows_same k k' : locators k' = locators k → copies k' = copies k → grows k k'.
Proof.
  intros Hl Hc Hok. unfold tables_ok, keeps_copies. rewrite Hl, Hc. split_and!; [apply Hok..| |done].
  intros i c H. by exists c.
Qed.

Lemma grows_insert_locator k l : grows k (with_locators (tbl_insert l (locators k)).1 k).
Proof.
  intros [Hl Hc]. split_and!; [split; [by apply (tbl_insert_ok l)|done]|by intros i c H; exists c|].
  intros j x Hj. cbn. rewrite lookup_insert_ne; [done|]. apply Hl in Hj. lia.
Qed.

Lemma grows_insert_copy k c : grows k (insert_copy k c).1.
Proof.
  intros [Hl Hc]. split_and!; [split; [done|by apply (tbl_insert_ok c)]| |done].
  intros i x Hx. exists x. cbn. rewrite lookup_insert_ne; [done|]. apply Hc in Hx. lia.
Qed.

Lemma grows_put_copy k i c c' :
  t_rows (copies k) !! i = Some c →
  cp_bundle_id c' = cp_bundle_id c → cp_pool_id c' = cp_pool_id c →
  cp_backend_id c' = cp_backend_id c → cp_integrity_hash c' = cp_integrity_hash c →
  grows k (with_copies (tbl_put i c' (copies k)) k).
Proof.
  intros Hi H1 H2 H3 H4 [Hl Hc]. split_and!; [split; [done|by eapply tbl_put_ok]| |done].
  intros j x Hj. cbn. destruct (decide (j = i)) as [->|Hne].
  - exists c'. rewrite lookup_insert_eq. simplify_eq. done.
  - exists x. by rewrite lookup_insert_ne.
Qed.

Lemma grows_put_evidence k i c h at_time digest measured_at rs :
  t_rows (copies k) !! i = Some c →
  grows k (with_receipts rs
             (with_copies (tbl_put i (set_evidence c h at_time digest measured_at) (copies k)) k)).
Proof. intros Hi. etrans; [by eapply (grows_put_copy _ _ _ (set_evidence c h _ _ _) Hi)|by apply grows_same]. Qed.

Lemma mark_suspect_grows cid d : grows (cat d) (cat (mark_suspect cid d)).
Proof.
  unfold mark_suspect, copy_row. destruct (t_rows _ !! cid) as [c|] eqn:E; [|reflexivity].
  by eapply grows_put_copy.
Qed.

Lemma record_all_grows {A} (f : Cat → A → result BundleError Cat) l k k' :
  (∀ k x k', f k x = Ok k' → grows k k') → record_all f k l = Ok k' → grows k k'.
Proof.
  intros Hf. revert k. induction l as [|x l IH]; intros k; cbn; [intros [= <-]; reflexivity|].
  intros (k1 & H1 & H2)%bind_Ok. etrans; [by eapply Hf|by apply IH].
Qed.

Lemma asset_locator_spec k asset pool locator rep cid bid path k' :
  record_asset_locator k asset pool locator rep cid bid path = Ok k' →
  grows k k' ∧ (tables_ok k → path ≠ "" → ∃ j l, t_rows (locators k') !! j = Some l ∧
    al_copy_id l = Some cid ∧ al_logical_asset_hash l = asset ∧ al_member_path l = path ∧
    al_bundle_id l = Some bid).
Proof.
  unfold record_asset_locator. intros H. apply bind_Ok in H as (? & _ & H).
  apply bind_Ok in H as (? & _ & H). apply bind_Ok in H as (? & _ & H).
  apply bind_Ok in H as (p & Hp & H). apply bind_Ok in H as (? & _ & H). injection H as <-.
  split; [apply grows_insert_locator|]. intros _ Hne. destruct path as [|ch path]; [done|].
  injection Hp as <-. eexists _, _. cbn. rewrite lookup_insert_eq. by split.
Qed.

Section flush_facts.
Context (sha256 : bytes → bytes) (sha256_hex : string → string) (json_str : json → string).
Context (producer_process : string) (uniform : Z → Z → Z).
Context (w : World).

Local Abbreviation flush_bundle := (flush_bundle sha256 sha256_hex json_str producer_process uniform w).
Local Abbreviation write_target := (write_target sha256 producer_process w).
Local Abbreviation write_targets := (write_targets sha256 producer_process w).
Local Abbreviation last_pass := (last_pass sha256 producer_process w).

(** Copy [cid] is a copy of the bundle in the pool. *)
Definition copy_in (k : Cat) (id pool : string) (cid : Z) : Prop :=
  ∃ c, t_rows (copies k) !! cid = Some c ∧ cp_bundle_id c = Some id ∧ cp_pool_id c = Some pool.

(** The copy locates every asset and path of [keys]. *)
Definition locates (k : Cat) (id pool : string) (keys : list (bytes * string)) (cid : Z) : Prop :=
  copy_in k id pool cid ∧
  ∀ h p, (h, p) ∈ keys → p ≠ "" → ∃ j l, t_rows (locators k) !! j = Some l ∧
    al_copy_id l = Some cid ∧ al_logical_asset_hash l = h ∧ al_member_path l = p ∧
    al_bundle_id l = Some id.

Definition built_keys (a : BuildArtifact) : list (bytes * string) :=
  (λ b, (bt_logical_asset_hash b, bt_member_path b)) <$> ba_members a.

Lemma copy_in_grows k k' id pool cid : tables_ok k → grows k k' → copy_in k id pool cid → copy_in k' id pool cid.
Proof.
  intros Hok Hg (c & Hc & Hb & Hp). destruct (Hg Hok) as (_ & Hcs & _).
  destruct (Hcs cid c Hc) as (c' & ? & ? & ? & _). exists c'. split_and!; [done|congruence..].
Qed.

Lemma locates_grows k k' id pool keys cid :
  tables_ok k → grows k k' → locates k id pool keys cid → locates k' id pool keys cid.
Proof.
  intros Hok Hg [Hc Hl]. split; [by eapply copy_in_grows|]. destruct (Hg Hok) as (_ & _ & Hls).
  intros h p Hin Hne. destruct (Hl h p Hin Hne) as (j & l & Hj & ?). exists j, l.
    split; [by apply Hls|done].
Qed.

Lemma locators_located k id t cid a k' pool :
  tables_ok k → copy_in k id pool cid →
  record_build_locators_and_roots k id t cid a = Ok k' → grows k k' ∧ locates k' id pool (built_keys a) cid.
Proof.
  intros Hok Hcopy. unfold record_build_locators_and_roots. intros (k1 & H1 & H2)%bind_Ok.
  assert (Hg2 : grows k1 k').
  { eapply record_all_grows, H2. intros k0 x k2 H. unfold record_blob_root in H. inv_ok.
    by apply grows_same. }
  enough (grows k k1 ∧ locates k1 id pool (built_keys a) cid) as [Hg1 Hl1].
  { split; [by etrans|]. destruct (Hg1 Hok) as [? _]. by eapply locates_grows. }
  clear H2 Hg2. unfold built_keys. revert k Hok Hcopy H1. induction (ba_members a) as [|b bs IH]; intros k Hok Hcopy.
  - intros [= <-]. split; [reflexivity|]. split; [done|]. intros h p []%not_elem_of_nil.
  - cbn. intros (k0 & H0 & H1)%bind_Ok. apply asset_locator_spec in H0 as [Hg0 Hl0].
    destruct (Hg0 Hok) as (Hok0 & Hc0 & _).
    destruct (IH k0 Hok0) as [Hg1 [Hcopy1 Hl1]]; [by apply (copy_in_grows k)|exact H1|].
    split; [by etrans|]. split; [done|]. intros h p [[= -> ->]|Hin]%elem_of_cons Hne; [|by apply Hl1].
    destruct (Hl0 Hok Hne) as (j & l & Hj & ?). exists j, l. split; [|done].
    by apply (Hg1 Hok0).
Qed.

Lemma add_bundle_copy_spec k id pool s now k' cid c created :
  add_bundle_copy k id pool s now = Ok (k', (cid, c), created) →
  grows k k' ∧ t_rows (copies k') !! cid = Some c ∧ cp_bundle_id c = Some id ∧
  cp_pool_id c = Some pool.
Proof.
  unfold add_bundle_copy. intros H. apply bind_Ok in H as (u & _ & H).
  destruct (find_copy k (cs_backend_id s) (locator_key (cs_native_locator s))) as [[i x]|] eqn:Ef.
  - apply bind_Ok in H as (? & Hb%raise_if_Ok & H). apply bind_Ok in H as (? & Hp%raise_if_Ok & H).
    injection H as <- <- <- _. split_bools. split_and!; [reflexivity| |done|done].
    apply head_filter_elem in Ef as [Hin _]. by apply elem_of_tbl_list.
  - injection H as <- <- <- _. split_and!; [apply grows_insert_copy|apply lookup_insert_eq|done|done].
Qed.

Lemma evidence_grows d cid r ex now d' :
  record_evidence producer_process d cid r ex now = Ok d' → grows (cat d) (cat d').
Proof.
  unfold record_evidence. case_match.
  - intros ([k rc] & H1 & [= <-])%bind_Ok. unfold record_measured in H1. inv_ok.
    destruct (vf_measured r), (vf_actual_hash r); try done. inv_ok.
    destruct (receipt_for_execution _ _ _ _); [injection H1 as <- _; reflexivity|].
    destruct (t_rows (copies (cat d)) !! cid) as [c|] eqn:Ec; [|done].
    destruct (measured_verdict _ _ _) as [h f]. injection H1 as <- _. cbn.
    by eapply grows_put_evidence.
  - case_match; [|intros [= <-]; apply mark_suspect_grows].
    intros ([[d1 rc] j] & H1 & [= <-])%bind_Ok. unfold record_unmeasured_promotion in H1. inv_ok.
    destruct (receipt_for_execution _ _ _ _);
      [destruct (verify_job_for_copy _ _) as [[? ?]|]; [|done]; injection H1 as <- _ _; reflexivity|].
    destruct (t_rows (copies (cat d)) !! cid) as [c|] eqn:Ec; [|done].
    destruct (submit1 _ _ _). injection H1 as <- _ _. cbn.
    by eapply grows_put_evidence.
Qed.

Lemma write_copy_spec d id t a now d' o :
  tables_ok (cat d) →
  write_bundle_copy_for_pool sha256 producer_process w d id t a now = (d', o) →
  grows (cat d) (cat d') ∧
  match o with
  | Placed cid => locates (cat d') id (pt_pool_id t) (built_keys a) cid
  | _ => True
  end.
Proof.
  intros Hok. unfold write_bundle_copy_for_pool.
  destruct (w_write w t a); [|by intros [= <- <-]; split; [reflexivity|]..].
  destruct (copy_storage_metadata _ _ _); [|by intros [= <- <-]; split; [reflexivity|]].
  destruct (add_bundle_copy _ _ _ _ _) as [[[k [cid c]] cr]|] eqn:Ea;
    [|by intros [= <- <-]; split; [reflexivity|]].
  apply add_bundle_copy_spec in Ea as (Hg1 & Hc & Hbc & Hpc).
  destruct (record_build_locators_and_roots k id t cid a) as [k1|] eqn:El;
    [|by intros [= <- <-]; split; [reflexivity|]].
  destruct (Hg1 Hok) as [Hok1 _].
  apply (locators_located _ _ _ _ _ _ (pt_pool_id t)) in El as [Hg2 Hloc]; [|done|by exists c].
  destruct (Hg2 Hok1) as [Hok2 _].
  set (d1 := {| cat := k1; jobs := jobs d |}).
  assert (Hd1 : grows (cat d) (cat d1)) by by etrans.
  assert (Hs : grows (cat d) (cat (mark_suspect cid d1))) by (etrans; [done|apply mark_suspect_grows]).
  destruct (verify_members_from_copy _ _ _ _ _ _) as [r|m|m|m]; [|by intros [= <- <-]..].
  destruct (record_evidence _ _ _ _ _ _) as [d2|] eqn:Ee; [|by intros [= <- <-]].
  apply evidence_grows in Ee. intros [= <- <-]. split; [etrans; [exact Hd1|exact Ee]|].
  destruct (vf_ok r); [|done]. by eapply locates_grows.
Qed.

(** ** Accounting of the targets *)

(** Every pool of [pools] is the pool of one of the copies, which locates [keys], or a failed one. *)
Definition accounted (id : string) (keys : list (bytes * string)) (s : WriteState) (pools : list string) : Prop :=
  ∃ placed, Forall2 (λ cid pool, locates (cat (ws_db s)) id pool keys cid) (ws_copy_ids s) placed ∧
    placed ++ (ws_transient s ++ ws_post_write s).*1 ≡ₚ pools.

Lemma emit_grows d id t a rc d' rc' :
  emit_customer_manifest w d id t a rc = Ok (d', rc') → grows (cat d) (cat d').
Proof.
  unfold emit_customer_manifest. destruct (w_deliver w) as [deliver|]; [|intros [= <- _]; reflexivity].
  case_match; [|intros [= <- _]; reflexivity]. destruct (bundles _ !! id); [|done].
  destruct (deliver _); [|done]. intros [= <- _]. by apply grows_same.
Qed.

Lemma write_target_spec id now s t a s' :
  tables_ok (cat (ws_db s)) → write_target id now s (t, a) = Ok s' →
  grows (cat (ws_db s)) (cat (ws_db s')) ∧
  ((ws_copy_ids s' = ws_copy_ids s ∧
    ∃ message, (ws_transient s' ++ ws_post_write s' ≡ₚ (pt_pool_id t, message) :: ws_transient s ++ ws_post_write s)) ∨
   ∃ cid, ws_copy_ids s' = ws_copy_ids s ++ [cid] ∧
     locates (cat (ws_db s')) id (pt_pool_id t) (built_keys a) cid ∧
     ws_transient s' = ws_transient s ∧ ws_post_write s' = ws_post_write s).
Proof.
  intros Hok. unfold Fanout.write_target.
  destruct (write_bundle_copy_for_pool _ _ _ _ _ _ _ _) as [d o] eqn:Ew.
  apply write_copy_spec in Ew as [Hg Ho]; [|done].
  destruct o as [cid|msg|msg|e]; [|intros [= <-]|intros [= <-]|done].
  - destruct (record_build_exclusions _ _ _) as [k|] eqn:Ex; [|done].
    intros ([d1 rc] & He & [= <-])%bind_Ok. apply emit_grows in He. cbn in *.
    assert (Hgx : grows (cat d) k).
    { eapply record_all_grows, Ex. intros k0 x k1 H. unfold record_exclusion in H. inv_ok.
      by apply grows_same. }
    destruct (Hg Hok) as [Hok1 _]. destruct (Hgx Hok1) as [Hok2 _].
    split; [etrans; [exact Hg|]; by etrans|].
    right. exists cid. split_and!; [done| |done|done].
    apply (locates_grows k); [done..|]. by apply (locates_grows (cat d)).
  - cbn. split; [reflexivity|]. left. split; [done|].
    exists msg. rewrite <- app_assoc, (Permutation_app_comm [_]), app_assoc. cbn.
    by rewrite <- Permutation_cons_append.
  - cbn. split; [done|]. left. split; [done|].
    exists msg. rewrite app_assoc. by rewrite <- Permutation_cons_append.
Qed.

Lemma write_target_accounted id now s t a s' keys pools :
  tables_ok (cat (ws_db s)) → write_target id now s (t, a) = Ok s' → keys ⊆ built_keys a →
  accounted id keys s pools → accounted id keys s' (pt_pool_id t :: pools).
Proof.
  intros Hok Hw Hkeys (placed & Hpl & Hpools). apply write_target_spec in Hw as [Hg Hcase]; [|done].
  assert (Hpl' : Forall2 (λ cid pool, locates (cat (ws_db s')) id pool keys cid) (ws_copy_ids s) placed).
  { eapply Forall2_impl; [exact Hpl|]. intros cid pool Hl. by eapply locates_grows. }
  destruct Hcase as [[Heq [message Hperm]]|(cid & Heq & [Hcopy Hl] & Ht & Hp)].
  - exists placed. rewrite Heq, Hperm. split; [done|]. cbn. by rewrite <- Permutation_middle, Hpools.
  - exists (placed ++ [pt_pool_id t]). rewrite Heq, Ht, Hp. split.
    + apply Forall2_app; [done|]. constructor; [|constructor]. split; [done|]. intros h p Hin. by apply Hl, Hkeys.
    + by rewrite <- Permutation_cons_append, <- Hpools.
Qed.

Lemma write_targets_spec id now tas s s' pools keys :
  tables_ok (cat (ws_db s)) → write_targets id now s tas = Ok s' →
  (∀ ta, ta ∈ tas → keys ⊆ built_keys ta.2) → accounted id keys s pools →
  accounted id keys s' ((pt_pool_id <$> tas.*1) ++ pools).
Proof.
  revert s pools. induction tas as [|[t a] tas IH]; intros s pools Hok; cbn [Fanout.write_targets].
  { by intros [= <-]. }
  intros (s1 & H1 & H2)%bind_Ok Hbs Hacc.
  pose proof (write_target_spec _ _ _ _ _ _ Hok H1) as [Hg _]. destruct (Hg Hok) as [Hok1 _].
  eapply write_target_accounted in Hacc; [|done|exact H1|by apply (Hbs (t, a)); left].
  assert (Hbs1 : ∀ ta, ta ∈ tas → keys ⊆ built_keys ta.2) by (intros ta Hta; apply Hbs; by right).
  destruct (IH s1 _ Hok1 H2 Hbs1 Hacc) as (placed & Hpl & Hperm).
  exists placed. split; [done|]. rewrite Hperm. cbn. by rewrite <- Permutation_middle.
Qed.

(** ** Built artifacts hold the snapshot *)

Lemma build_targets_spec attempt index ts key_epoch ms rows text prepared :
  build_targets w attempt index ts key_epoch ms rows text = Ok prepared →
  prepared.*1 = ts ∧ ∀ ta, ta ∈ prepared → validate_built_members ta.2 ms = Ok tt.
Proof.
  revert index prepared. induction ts as [|t ts IH]; intros index prepared; cbn.
  { intros [= <-]. split; [done|]. intros ta []%not_elem_of_nil. }
  destruct (build_for_target _ _ _ _ _ _ _) as [a|msg|msg]; [|by destruct (identify_member_failure msg rows)|done].
  intros ([] & Hv & (rest & Hrest & [= <-])%bind_Ok)%bind_Ok.
  destruct (IH _ _ Hrest) as [<- Hall]. split; [done|].
  intros ta [->|Hta]%elem_of_cons; [done|by apply Hall].
Qed.

Definition input_keys (ms : list MemberInput) : list (bytes * string) :=
  (λ m, (in_logical_asset_hash m, in_member_path m)) <$> ms.

Lemma input_at_unique ms m :
  NoDup (in_member_path <$> ms) → m ∈ ms → input_at (in_member_path m) ms = Some m.
Proof.
  intros Hnd Hin. unfold input_at.
  assert (Heq : filter (λ x, in_member_path x = in_member_path m) ms = [m]); [|by rewrite Heq].
  induction ms as [|x ms IH]; [by apply not_elem_of_nil in Hin|].
  rewrite fmap_cons in Hnd. apply NoDup_cons in Hnd as [Hx Hnd]. rewrite filter_cons.
  assert (Hnone : ∀ p, p ∉ in_member_path <$> ms → filter (λ x, in_member_path x = p) ms = []).
  { intros p Hp. destruct (filter (λ x, in_member_path x = p) ms) as [|y l] eqn:Ey; [done|]. destruct Hp.
    assert (Hy : y ∈ filter (λ x, in_member_path x = p) ms) by (rewrite Ey; left).
    apply list_elem_of_filter in Hy as [<- Hy]. by apply list_elem_of_fmap_2. }
  apply elem_of_cons in Hin as [->|Hin].
  - rewrite decide_True by done. by rewrite Hnone.
  - rewrite decide_False; [by apply IH|]. intros Heq. apply Hx. rewrite Heq.
    by apply list_elem_of_fmap_2.
Qed.

Lemma validated_keys a ms :
  NoDup (in_member_path <$> ms) → validate_built_members a ms = Ok tt → input_keys ms ⊆ built_keys a.
Proof.
  intros Hnd Hv [h p] (m & [= -> ->] & Hm)%list_elem_of_fmap. unfold validate_built_members in Hv.
  destruct (filter _ (ba_members a)) as [|x l] eqn:Ef; [|done].
  destruct (omitted_paths ms (ba_members a)) as [|q qs] eqn:Eo; [|done].
  destruct (list_elem_of_fmap_1 _ _ _ (omitted_nil ms _ _ Eo (list_elem_of_fmap_2 in_member_path ms m Hm)))
    as (b & Hp & Hb).
  apply list_elem_of_fmap. exists b. split; [|done].
  assert (Hok : built_member_ok ms b = true).
  { destruct (built_member_ok ms b) eqn:E; [done|].
    assert (Hin : b ∈ ([] : list BuiltMember)); [|by apply not_elem_of_nil in Hin].
    rewrite <- Ef. by apply list_elem_of_filter. }
  unfold built_member_ok in Hok. rewrite <- Hp, input_at_unique in Hok by done. split_bools. congruence.
Qed.

Lemma inputs_rows k rows ms :
  member_inputs_for_flush k rows = Ok ms →
  (in_member_path <$> ms) = (λ im, bm_member_path im.2) <$> rows ∧
  input_keys ms = (λ im, (bm_logical_asset_hash im.2, bm_member_path im.2)) <$> rows.
Proof.
  intros H%collect_Ok. unfold input_keys. induction H as [|[i m] x rows' ms' Hx _ [IH1 IH2]]; [done|].
  unfold member_input in Hx. apply bind_Ok in Hx as ([f|] & _ & Hx); [|done]. injection Hx as <-.
  cbn. by rewrite IH1, IH2.
Qed.

Lemma member_paths_unique k id :
  bundles_ok k → NoDup ((λ im, bm_member_path im.2) <$> member_rows_for_flush k id).
Proof.
  intros Hok. apply NoDup_fmap_2_strong.
  - intros [i m] [i' m'] [Hm Hid]%elem_of_member_rows [Hm' Hid']%elem_of_member_rows Hp. cbn in Hp.
    assert (i = i') as <- by (eapply (bo_unique _ Hok); eauto; congruence). congruence.
  - apply NoDup_sort_by, NoDup_filter. eapply NoDup_fmap_1, NoDup_tbl_list.
Qed.

Lemma member_row_key k id i m :
  t_rows (members k) !! i = Some m → bm_bundle_id m = id →
  (bm_logical_asset_hash m, bm_member_path m) ∈
    (λ im, (bm_logical_asset_hash im.2, bm_member_path im.2)) <$> member_rows_for_flush k id.
Proof. intros Hm Hid. apply list_elem_of_fmap. exists (i, m). split; [done|]. by apply elem_of_member_rows. Qed.

(** ** The flush as a whole *)

Lemma begin_in_flush k id token now k' :
  bundles_ok k → begin_flush k id token now = Ok k' → in_flush k' id token None ∧ frozen k k'.
Proof.
  intros Hok Hb. destruct (begin_flush_ok _ _ _ _ _ Hok Hb) as [Hok' Hf]. split; [|done].
  apply begin_flush_spec in Hb as (b & Hid & Ho & Hc & ->).
  destruct (claimed_bundle_frame id token now b) as (F1 & F2 & _).
  constructor; [done| |done]. eexists. cbn. rewrite lookup_insert_eq. done.
Qed.

Lemma begin_same_copies k id token now k' : begin_flush k id token now = Ok k' → same_copies k k'.
Proof. by intros (b & _ & _ & _ & ->)%begin_flush_spec. Qed.

Lemma finish_ordinary s id token now e :
  finish_flush uniform w s id token now = Err e → ordinary e.
Proof.
  unfold finish_flush. destruct (close_bundle _ _ _ _); [|by intros [= <-]].
  destruct (record_fanout_conditions _ _ _ _ _ _) as [[db c]|]; [|by intros [= <-]].
  destruct (w_enqueue_fills w _ _); [done|by intros [= <-]].
Qed.

Lemma flush_bundle_cases d id key_epoch capacity token fresh now :
  bundles_ok (cat d) →
  ∃ r, flush_bundle d id key_epoch capacity token fresh now = Some r ∧
    match r with
    | Err e => ordinary e
    | Ok dr => ∃ b ts s, bundles (cat d) !! id = Some b ∧ is_open b = true ∧
        bundle_group_targets (cat d) json_str (w_supplied w) b key_epoch true = Ok ts ∧
        last_pass id token ts key_epoch now d s ∧ finish_flush uniform w s id token now = Ok dr ∧
        ∃ q, apart (cat d) id (cat (ws_db s)) q
    end.
Proof.
  intros Hok. unfold Fanout.flush_bundle. case_match; [by eexists|].
  destruct (bundles (cat d) !! id) as [b|] eqn:Eb; [|by eexists].
  destruct (is_open b) eqn:Eo; [|by eexists]. cbn [negb]. case_match; [by eexists|].
  destruct (bundle_group_targets _ _ _ _ _ _) as [ts|e] eqn:Et; [|by eexists].
  destruct (require_key_epoch ts) as [[]|e] eqn:Ek.
  2: { exists (Err e). split; [done|]. unfold require_key_epoch in Ek.
       destruct (filter _ ts); [done|]. by injection Ek as <-. }
  case_match; [by eexists|]. destruct (begin_flush (cat d) id token now) as [k|e] eqn:Ebf; [|by eexists].
  pose proof Ebf as Ebf'. apply begin_in_flush in Ebf as [Hin Hfr]; [|done]. set (d1 := {| cat := k; jobs := jobs d |}).
  assert (Hap : apart (cat d) id (cat d1) None).
  { split; [|done]. intros i x Hi Hx. apply begin_flush_spec in Ebf' as (y & _ & _ & _ & ->). cbn.
    by rewrite lookup_insert_ne. }
  destruct (flush_loop_spec sha256 sha256_hex producer_process w (cat d) (flush_fuel d1 id) d1 id token None
    0 None ts key_epoch capacity fresh now) as (r & Hr & Hspec);
    [by rewrite Eb|done|done|unfold flush_fuel; lia|cbn; lia|].
  rewrite Hr. destruct r as [s|e]; [|by eexists]. destruct Hspec as [Hspec Hap2]. eexists. split; [done|].
  destruct (finish_flush uniform w s id token now) as [dr|e] eqn:Ef; [|by apply finish_ordinary in Ef].
  exists b, ts, s. split_and!; [done..| |done|done].
  apply (last_pass_trans _ _ _ _ _ _ _ _ d d1); [done| |done|done]. by apply begin_same_copies in Ebf'.
Qed.

(** C24: the quarantine loop of a flush ends.  From a well-formed catalog [flush_bundle] always returns,
    within as many passes as the bundle has members plus one, whatever the builder, the backends and
    the member failures do; the code's own bound on the number of quarantines is never reached. *)
Theorem flush_terminates d id key_epoch capacity token fresh now :
  bundles_ok (cat d) →
  ∃ r, flush_bundle d id key_epoch capacity token fresh now = Some r ∧ r ≠ Err QuarantineBoundExceeded.
Proof.
  intros Hok. destruct (flush_bundle_cases d id key_epoch capacity token fresh now Hok) as (r & Hr & Hs).
  exists r. split; [done|]. intros ->. done.
Qed.

(** The drive cache's fills write their own tables and jobs, and conditions of their own domain. *)
Definition fills_quiet : Prop :=
  ∀ d id d', w_enqueue_fills w d id = Ok d' →
    cat d' = cat d ∧
    ∀ x, cond_tbl (jobs d') !! ("bundle_copy", x) = cond_tbl (jobs d) !! ("bundle_copy", x).

Lemma finish_flush_spec s id token now d' r :
  fills_quiet → finish_flush uniform w s id token now = Ok (d', r) →
  close_bundle (cat (ws_db s)) id token now = Ok (cat d') ∧
  fr_copy_ids r = ws_copy_ids s ∧ fr_failed_pools r = (ws_transient s ++ ws_post_write s).*1 ∧
  fr_partial r = negb (bool_decide (ws_transient s = [])) || negb (bool_decide (ws_post_write s = [])) ∧
  ∃ db c, record_fanout_conditions uniform (jobs (ws_db s)) id (ws_transient s) (ws_post_write s) now
            = Ok (db, c) ∧ fr_condition_reason r = fst <$> c ∧
    ∀ x, cond_tbl (jobs d') !! ("bundle_copy", x) = cond_tbl db !! ("bundle_copy", x).
Proof.
  intros Hfills. unfold finish_flush. destruct (close_bundle _ _ _ _) as [k|] eqn:Ec; [|done].
  destruct (record_fanout_conditions _ _ _ _ _ _) as [[db c]|] eqn:Er; [|done].
  destruct (w_enqueue_fills w _ _) as [d2|] eqn:Ef; [|done]. intros [= <- <-].
  apply Hfills in Ef as [Hcat Hcond]. split_and!; [by rewrite Hcat|done|done|done|].
  exists db, c. by split_and!.
Qed.

Lemma flush_sealed d id key_epoch capacity token fresh now d' r :
  bundles_ok (cat d) → fills_quiet →
  flush_bundle d id key_epoch capacity token fresh now = Some (Ok (d', r)) →
  bundles_ok (cat d') ∧ frozen (cat d) (cat d') ∧
  (∃ b, bundles (cat d') !! id = Some b ∧ bu_status b = "sealed" ∧ bu_claimed_by b = Some token ∧
    bu_sealed_at b = Some now ∧ 0 < bu_member_count b ∧ is_Some (bu_archive_id b)) ∧
  ∀ i b, i ≠ id → bundles (cat d) !! i = Some b → bundles (cat d') !! i = Some b.
Proof.
  intros Hok Hfills H.
  destruct (flush_bundle_cases d id key_epoch capacity token fresh now Hok) as (x & Hx & Hs).
  rewrite Hx in H. injection H as ->. destruct Hs as (b & ts & s & Hb & Ho & Ht & Hpass & Hfin & Hap).
  destruct Hpass as [(q & Hin) Hfr (att & d1 & ms & text & prep & Hne & Hmem & Hrest)].
  apply finish_flush_spec in Hfin as (Hclose & _); [|done].
  destruct Hin as [Hok1 (b1 & Hb1 & Hs1 & Hc1) _].
  destruct (close_bundle_ok _ _ _ _ _ Hok1 Hclose) as [Hok2 Hfr2].
  apply close_bundle_spec in Hclose as (b2 & Hb2 & _ & _ & Heq). simplify_eq.
  split_and!; [done|by etrans| |].
  2: { intros i y Hi Hy. destruct Hap as (q' & Hap & _). rewrite Heq. cbn.
       rewrite lookup_insert_ne by done. by apply Hap. }
  eexists. rewrite Heq. cbn. rewrite lookup_insert_eq. split; [done|]. cbn.
  split_and!; [done|done|done| |].
  - destruct (bo_counts _ Hok1 _ _ Hb1) as [-> _]. rewrite <- length_member_rows.
    rewrite (member_rows_ext _ _ _ Hmem). destruct (member_rows_for_flush (cat d1) id); [done|]. cbn. lia.
  - by destruct (bo_claim _ Hok1 _ _ Hb1 Hs1) as [? _].
Qed.

(** A successful flush seals its bundle under the claim's token, with at least one member and an
    archive id; the bundle tables stay well-formed, no bundle that was sealed or void before changes,
    and every other bundle keeps its row. *)
Lemma flush_seals d id key_epoch capacity token fresh now d' r :
  bundles_ok (cat d) → fills_quiet →
  flush_bundle d id key_epoch capacity token fresh now = Some (Ok (d', r)) →
  bundles_ok (cat d') ∧ frozen (cat d) (cat d') ∧
  (∃ b, bundles (cat d') !! id = Some b ∧ bu_status b = "sealed" ∧ bu_claimed_by b = Some token ∧
    bu_sealed_at b = Some now ∧ 0 < bu_member_count b ∧ is_Some (bu_archive_id b)) ∧
  ∀ i b, i ≠ id → bundles (cat d) !! i = Some b → bundles (cat d') !! i = Some b.
Proof. apply flush_sealed. Qed.

(** C5: a flush accounts for every target.  After a successful flush of a well-formed catalog, whose
    drive-cache fills leave the catalog and the conditions of bundles alone: every reported copy is a row
    of the bundle, and for each member of the sealed bundle with a non-empty path there is a locator row
    with that copy, asset, path and bundle.  The pools of the reported copies together with the failed
    pools are exactly the pools of the targets of the frozen basis, each as often as it is a target, and
    the result is partial exactly when a pool failed. *)
Theorem flush_copies_complete d id key_epoch capacity token fresh now d' r :
  bundles_ok (cat d) → tables_ok (cat d) → fills_quiet →
  flush_bundle d id key_epoch capacity token fresh now = Some (Ok (d', r)) →
  (∀ cid, cid ∈ fr_copy_ids r →
    (∃ c, t_rows (copies (cat d')) !! cid = Some c ∧ cp_bundle_id c = Some id) ∧
    ∀ i m, t_rows (members (cat d')) !! i = Some m → bm_bundle_id m = id → bm_member_path m ≠ "" →
      ∃ j l, t_rows (locators (cat d')) !! j = Some l ∧ al_copy_id l = Some cid ∧
        al_logical_asset_hash l = bm_logical_asset_hash m ∧ al_member_path l = bm_member_path m ∧
        al_bundle_id l = Some id) ∧
  (∃ b ts, bundles (cat d) !! id = Some b ∧
     bundle_group_targets (cat d) json_str (w_supplied w) b key_epoch true = Ok ts ∧
     ∃ placed, Forall2 (λ cid pool, copy_in (cat d') id pool cid) (fr_copy_ids r) placed ∧
       placed ++ fr_failed_pools r ≡ₚ pt_pool_id <$> ts) ∧
  (fr_partial r = true ↔ fr_failed_pools r ≠ []).
Proof.
  intros Hok Htab Hfills H.
  destruct (flush_bundle_cases d id key_epoch capacity token fresh now Hok) as (x & Hx & Hs).
  rewrite Hx in H. injection H as ->. destruct Hs as (b & ts & s & Hb & Ho & Ht & Hpass & Hfin & Hap).
  destruct Hpass as [(q & Hin) Hfr (att & d1 & ms & text & prep & Hne & Hmem & Hv & Hms & Hbuild & d2 & Hm2 &
    [Hl2 Hc2] & _ & Hw)].
  apply finish_flush_spec in Hfin as (Hclose & Hids & Hpools & Hpart & _); [|done].
  apply build_targets_spec in Hbuild as [Hts Hval]. destruct (inputs_rows _ _ _ Hms) as [Hpaths Hkeys].
  assert (Hnd : NoDup (in_member_path <$> ms)).
  { rewrite Hpaths. rewrite <- (member_rows_ext _ _ id Hmem). apply member_paths_unique, Hin. }
  assert (Htab2 : tables_ok (cat d2)) by (unfold tables_ok in *; by rewrite Hl2, Hc2).
  destruct (write_targets_spec id now prep (initial_writes d2) s [] (input_keys ms) Htab2 Hw)
    as (placed & Hpl & Hperm).
  { intros ta Hta. by apply validated_keys, Hval. }
  { by exists []. }
  apply close_bundle_spec in Hclose as (b2 & Hb2 & _ & _ & Heq).
  split_and!.
  - intros cid Hcid. rewrite Hids in Hcid. apply list_elem_of_lookup in Hcid as [n Hn].
    destruct (Forall2_lookup_l _ _ _ _ _ Hpl Hn) as (pool & _ & (c & Hc & Hbc & _) & Hlocs).
    rewrite Heq. split; [by exists c|]. cbn. intros i m Hm Hid Hp. apply Hlocs; [|done].
    rewrite Hkeys, <- (member_rows_ext _ _ id Hmem). by eapply member_row_key.
  - exists b, ts. split_and!; [done..|]. exists placed. rewrite Hids, Hpools, Hperm, Hts, app_nil_r.
    split; [|done]. eapply Forall2_impl; [exact Hpl|]. intros cid pool [Hc _]. rewrite Heq. exact Hc.
  - rewrite Hpart, Hpools. destruct (ws_transient s), (ws_post_write s); cbn; naive_solver.
Qed.

(** ** The condition a flush leaves *)

Definition same_conds (d d' : Database) : Prop := cond_tbl (jobs d') = cond_tbl (jobs d).

Lemma mark_suspect_conds cid d : same_conds d (mark_suspect cid d).
Proof. unfold mark_suspect. by destruct (copy_row cid d). Qed.

Lemma evidence_conds d cid r ex now d' :
  record_evidence producer_process d cid r ex now = Ok d' → same_conds d d'.
Proof.
  unfold record_evidence. case_match; [by intros ([k rc] & _ & [= <-])%bind_Ok|].
  case_match; [|intros [= <-]; apply mark_suspect_conds].
  intros ([[d1 rc] j] & H1 & [= <-])%bind_Ok. unfold record_unmeasured_promotion in H1. inv_ok.
  destruct (receipt_for_execution _ _ _ _);
    [destruct (verify_job_for_copy _ _) as [[? ?]|]; [|done]; by injection H1 as <- _ _|].
  destruct (t_rows (copies (cat d)) !! cid) as [c|]; [|done].
  destruct (submit1 (jobs d) (verify_spec cid (remeasure_key cid)) now) as [db jid] eqn:Es.
  injection H1 as <- _ _. unfold same_conds. cbn.
  destruct (submit1_cases (jobs d) (verify_spec cid (remeasure_key cid)) now) as [Hdb|Hdb];
    rewrite Es in Hdb; cbn in Hdb; by rewrite Hdb.
Qed.

Lemma write_copy_conds d id t a now d' o :
  write_bundle_copy_for_pool sha256 producer_process w d id t a now = (d', o) → same_conds d d'.
Proof.
  unfold write_bundle_copy_for_pool. destruct (w_write w t a); [|by intros [= <- _]..].
  destruct (copy_storage_metadata _ _ _); [|by intros [= <- _]].
  destruct (add_bundle_copy _ _ _ _ _) as [[[k [cid c]] cr]|]; [|by intros [= <- _]].
  destruct (record_build_locators_and_roots k id t cid a) as [k1|]; [|by intros [= <- _]].
  pose proof (mark_suspect_conds cid {| cat := k1; jobs := jobs d |}) as Hs.
  destruct (verify_members_from_copy _ _ _ _ _ _) as [r|m|m|m]; [|by intros [= <- _]..].
  destruct (record_evidence _ _ _ _ _ _) as [d2|] eqn:Ee; [|by intros [= <- _]].
  apply evidence_conds in Ee. by intros [= <- _].
Qed.

Lemma write_targets_conds id now s tas s' :
  write_targets id now s tas = Ok s' → same_conds (ws_db s) (ws_db s').
Proof.
  revert s. induction tas as [|[t a] tas IH]; intros s; cbn [Fanout.write_targets]; [by intros [= <-]|].
  intros (s1 & H1 & H2)%bind_Ok. apply IH in H2. unfold same_conds in *. rewrite H2. clear H2.
  unfold Fanout.write_target in H1.
  destruct (write_bundle_copy_for_pool _ _ _ _ _ _ _ _) as [d o] eqn:Ew. apply write_copy_conds in Ew.
  destruct o as [cid|msg|msg|e]; [|by injection H1 as <-..|done].
  destruct (record_build_exclusions _ _ _) as [k|]; [|done].
  apply bind_Ok in H1 as ([d1 rc] & He & H1). injection H1 as <-. cbn. rewrite <- Ew.
  unfold emit_customer_manifest in He. destruct (w_deliver w) as [deliver|]; [|by injection He as <- _].
  case_match; [|by injection He as <- _]. cbn in He. destruct (bundles k !! id); [|done].
  destruct (deliver _); [|done]. by injection He as <- _.
Qed.

(** The row of a bundle after one observation and one attempt outcome. *)
Lemma blocked_row db id reason message now db' :
  record_fanout_failure uniform db id BLOCKED reason message now = Ok db' →
  ∃ row, cond_tbl db' !! ("bundle_copy", id) = Some row ∧ rc_condition row = BLOCKED ∧
    rc_reason row = Some reason.
Proof.
  unfold record_fanout_failure. intros ([db2 row] & H & [= <-])%bind_Ok. unfold record_condition in H.
  rewrite record_observation_row in H. cbn [link_attempt] in H. exists row.
  destruct (bool_decide _) in H; injection H as <- <-; cbn; by rewrite lookup_insert_eq.
Qed.

Lemma backoff_row db id reason message now db' :
  cond_tbl db !! ("bundle_copy", id) = None →
  record_fanout_failure uniform db id BACKOFF reason message now = Ok db' →
  ∃ row, cond_tbl db' !! ("bundle_copy", id) = Some row ∧ rc_condition row = BACKOFF ∧
    rc_reason row = Some reason ∧ rc_attempt_count row = 1 ∧
    rc_next_eligible_at row = Some (default_backoff_due uniform now 1).
Proof.
  intros Hnone. unfold record_fanout_failure. intros ([db2 row] & H & [= <-])%bind_Ok.
  unfold record_condition in H. rewrite record_observation_row in H.
  unfold record_observation in H. rewrite Hnone in H. cbn in H. injection H as <- <-.
  eexists. cbn. rewrite lookup_insert_eq. done.
Qed.

Lemma fanout_conditions_row db id transient post_write now db' c :
  cond_tbl db !! ("bundle_copy", id) = None →
  record_fanout_conditions uniform db id transient post_write now = Ok (db', c) →
  ∃ row, cond_tbl db' !! ("bundle_copy", id) = Some row ∧
    match transient, post_write with
    | [], [] => c = None ∧ rc_condition row = OPEN ∧ rc_reason row = Some "durability-unverified"
    | _, [] => fst <$> c = Some "transient-backend-failure" ∧ rc_condition row = BACKOFF ∧
               rc_next_eligible_at row = Some (default_backoff_due uniform now 1)
    | _, _ => fst <$> c = Some "post-write-pool-failure" ∧ rc_condition row = BLOCKED
    end.
Proof.
  intros Hnone. unfold record_fanout_conditions. intros ([db1 c1] & H1 & H)%bind_Ok.
  apply bind_Ok in H as ([db2 c2] & H2 & H).
  destruct post_write as [|x xs].
  - injection H2 as <- <-. destruct transient as [|y ys].
    + injection H1 as <- <-. injection H as <- <-. unfold record_bundle_copy_outbox.
      pose proof (record_observation_row db now "bundle_copy" id true OBSERVED_MISSING
        (Some "durability-unverified")
        (Some "bundle fan-out committed copies; post-commit durability check pending")) as Hrow.
      cbn zeta in Hrow. eexists. split; [exact Hrow|].
      unfold record_observation. by rewrite Hnone.
    + injection H as <- <-. apply bind_Ok in H1 as (db1' & H1 & [= <- <-]).
      apply backoff_row in H1 as (row & Hrow & Hc & _ & _ & Hdue); [|done]. exists row. by split_and!.
  - apply bind_Ok in H2 as (db2' & H2 & [= <- <-]).
    apply blocked_row in H2 as (row & Hrow & Hc & Hr). exists row.
    destruct transient; injection H as <- <-; by split_and!.
Qed.

(** A flush leaves its outcome to the bundle-copy reconciler.  On a bundle without an earlier
    condition row, a complete fan-out leaves it open with reason [durability-unverified]; a
    transient pool failure leaves it backing off with the first retry due; a post-write failure, even
    beside transient ones, leaves it blocked for a human.  It is never satisfied. *)
Lemma flush_condition d id key_epoch capacity token fresh now d' r :
  bundles_ok (cat d) → fills_quiet → cond_tbl (jobs d) !! ("bundle_copy", id) = None →
  flush_bundle d id key_epoch capacity token fresh now = Some (Ok (d', r)) →
  ∃ row, cond_tbl (jobs d') !! ("bundle_copy", id) = Some row ∧
    ((fr_condition_reason r = None ∧ fr_failed_pools r = [] ∧ rc_condition row = OPEN ∧
      rc_reason row = Some "durability-unverified") ∨
     (fr_condition_reason r = Some "transient-backend-failure" ∧ fr_failed_pools r ≠ [] ∧
      rc_condition row = BACKOFF ∧ rc_next_eligible_at row = Some (default_backoff_due uniform now 1)) ∨
     (fr_condition_reason r = Some "post-write-pool-failure" ∧ fr_failed_pools r ≠ [] ∧
      rc_condition row = BLOCKED)).
Proof.
  intros Hok Hfills Hnone H.
  destruct (flush_bundle_cases d id key_epoch capacity token fresh now Hok) as (x & Hx & Hs).
  rewrite Hx in H. injection H as ->. destruct Hs as (b & ts & s & Hb & Ho & Ht & Hpass & Hfin & Hap).
  destruct Hpass as [_ _ (att & d1 & ms & text & prep & _ & _ & _ & _ & _ & d2 & _ & _ & Hj2 & Hw)].
  apply finish_flush_spec in Hfin as (_ & _ & Hpools & _ & db & c & Hcond & Hreason & Htbl); [|done].
  apply write_targets_conds in Hw. unfold same_conds in Hw. cbn in Hw. rewrite Hj2 in Hw.
  apply fanout_conditions_row in Hcond as (row & Hrow & Hcase); [|by rewrite Hw].
  exists row. rewrite Htbl, Hreason, Hpools. split; [done|].
  destruct (ws_transient s) as [|x xs], (ws_post_write s) as [|y ys]; cbn.
  - left. destruct Hcase as (-> & ? & ?). done.
  - right. right. naive_solver.
  - right. left. naive_solver.
  - right. right. naive_solver.
Qed.

(** ** Failures after the write *)

Definition receipts_fk (k : Cat) : Prop :=
  ∀ i r, t_rows (receipts k) !! i = Some r → is_Some (t_rows (copies k) !! vr_copy_id r).

Lemma locators_same_rows k id t cid a k' :
  record_build_locators_and_roots k id t cid a = Ok k' → copies k' = copies k ∧ receipts k' = receipts k.
Proof.
  unfold record_build_locators_and_roots. intros (k1 & H1 & H2)%bind_Ok.
  assert (Hall : ∀ A (f : Cat → A → result BundleError Cat) l k k',
    (∀ k x k', f k x = Ok k' → copies k' = copies k ∧ receipts k' = receipts k) →
    record_all f k l = Ok k' → copies k' = copies k ∧ receipts k' = receipts k).
  { intros A f l. induction l as [|x l IH]; intros k0 k0' Hf; cbn; [by intros [= <-]|].
    intros (k2 & E1 & E2)%bind_Ok. destruct (Hf _ _ _ E1). destruct (IH _ _ Hf E2). split; congruence. }
  apply Hall in H1 as [? ?]; [|intros k0 x k0' Hf; unfold record_asset_locator in Hf; by inv_ok].
  apply Hall in H2 as [? ?]; [|intros k0 x k0' Hf; unfold record_blob_root in Hf; by inv_ok].
  split; congruence.
Qed.

(** A read-back that is not ok never leaves the copy healthy, when it is the copy's first. *)
Lemma failed_evidence d cid c r ex now d' :
  t_rows (copies (cat d)) !! cid = Some c → vf_ok r = false →
  (∀ i x, t_rows (receipts (cat d)) !! i = Some x → vr_copy_id x ≠ cid) →
  record_evidence producer_process d cid r ex now = Ok d' →
  ∃ c', t_rows (copies (cat d')) !! cid = Some c' ∧ cp_health c' ≠ HEALTH_OK ∧
    cp_bundle_id c' = cp_bundle_id c ∧ cp_pool_id c' = cp_pool_id c ∧
    cp_native_locator c' = cp_native_locator c.
Proof.
  intros Hc Hno Hfresh. unfold record_evidence. rewrite Hno. case_match.
  - intros ([k rc] & H1 & [= <-])%bind_Ok. unfold record_measured in H1.
    apply bind_Ok in H1 as ([] & _ & H1). apply bind_Ok in H1 as ([] & _ & H1).
    destruct (vf_measured r), (vf_actual_hash r) as [digest|]; try done.
    apply bind_Ok in H1 as ([] & _ & H1).
    destruct (receipt_for_execution (cat d) cid "fanout" ex) as [[i x]|] eqn:Er.
    { apply head_filter_elem in Er as [Hin%elem_of_tbl_list (Hx & _)]. by apply Hfresh in Hin. }
    rewrite Hc, Hno in H1. destruct (measured_verdict c digest false) as [h f] eqn:Ev.
    injection H1 as <- _. eexists. cbn. rewrite lookup_insert_eq. split; [done|]. cbn.
    split_and!; [|done..]. unfold measured_verdict in Ev. cbn in Ev. case_decide; by injection Ev as <- _.
  - intros [= <-]. unfold mark_suspect, copy_row. rewrite Hc. eexists. cbn. by rewrite lookup_insert_eq.
Qed.

(** A failure found after the write keeps a row that no durability count includes, unless the metadata
    was refused before the row. *)
Lemma post_write_row d id t a now d' message locator size :
  tables_ok (cat d) → receipts_fk (cat d) → w_write w t a = Written locator size →
  find_copy (cat d) (pt_backend_id t) (locator_key locator) = None →
  write_bundle_copy_for_pool sha256 producer_process w d id t a now = (d', PostWriteFailed message) →
  (pt_representation t = REM_ENCRYPT_V1 ∧ ba_recipient_epochs a = [] ∧ d' = d) ∨
  ∃ cid c, t_rows (copies (cat d')) !! cid = Some c ∧ cp_bundle_id c = Some id ∧
    cp_pool_id c = Some (pt_pool_id t) ∧ cp_native_locator c = locator ∧ copy_ok c = false.
Proof.
  intros [_ Hcop] Hfk Hw Hfind. unfold write_bundle_copy_for_pool. rewrite Hw.
  destruct (copy_storage_metadata _ _ _) as [metadata|e] eqn:Em.
  2: { intros [= <- _]. left. unfold copy_storage_metadata in Em. case_decide; [|done].
       destruct (ba_recipient_epochs a); [done|]. discriminate Em. }
  unfold add_bundle_copy. cbn [fanout_spec cs_backend_id cs_native_locator]. rewrite Hfind.
  destruct (bool_decide (bundles (cat d) !! id = None)); cbn [raise_if mbind result_bind]; [done|].
  destruct (insert_copy (cat d) _) as [k [cid c]] eqn:Ei. injection Ei as <- <- <-.
  set (c := new_copy _ _ _ _). set (k := with_copies _ _).
  assert (Hfresh : ∀ i x, t_rows (receipts (cat d)) !! i = Some x → vr_copy_id x ≠ t_next (copies (cat d))).
  { intros i x Hx Heq. destruct (Hfk i x Hx) as [y Hy]. apply Hcop in Hy. lia. }
  destruct (record_build_locators_and_roots k id t _ a) as [k1|] eqn:El; [|done].
  apply locators_same_rows in El as [Ec Er].
  assert (Hc : t_rows (copies k1) !! t_next (copies (cat d)) = Some c) by (rewrite Ec; apply lookup_insert_eq).
  set (d1 := {| cat := k1; jobs := jobs d |}).
  assert (Hbad : ∀ h, h ≠ HEALTH_OK → ∀ x, cp_health x = h → copy_ok x = false).
  { intros h Hh x <-. unfold copy_ok. by rewrite bool_decide_false. }
  destruct (verify_members_from_copy _ _ _ _ _ _) as [r|m|m|m]; [|done| |done].
  - destruct (record_evidence _ _ _ _ _ _) as [d2|] eqn:Ee; [|done]. destruct (vf_ok r) eqn:Eok; [done|].
    intros [= <- _]. right.
    apply (failed_evidence d1 _ c) in Ee as (c' & Hc' & Hh & H1 & H2 & H3); [|done|done|].
    + eexists _, c'. split_and!; [done|by rewrite H1|by rewrite H2|by rewrite H3|by eapply Hbad].
    + intros i x. cbn. rewrite Er. apply Hfresh.
  - intros [= <- _]. right. eexists _, (set_health c SUSPECT). unfold mark_suspect, copy_row. cbn [cat d1].
    rewrite Hc. cbn. rewrite lookup_insert_eq. split_and!; [done..|]. by apply (Hbad SUSPECT).
Qed.

(** A transient failure after the write is a read-back the storage refused. *)
Lemma transient_after_write d id t a now d' message locator size :
  w_write w t a = Written locator size →
  find_copy (cat d) (pt_backend_id t) (locator_key locator) = None →
  write_bundle_copy_for_pool sha256 producer_process w d id t a now = (d', TransientFailed message) →
  ∃ metadata, verify_members_from_copy sha256 w t locator metadata (ba_members a) = VerifyBackendError message.
Proof.
  intros Hw Hfind. unfold write_bundle_copy_for_pool. rewrite Hw.
  destruct (copy_storage_metadata _ _ _) as [metadata|e]; [|done].
  unfold add_bundle_copy. cbn [fanout_spec cs_backend_id cs_native_locator]. rewrite Hfind.
  destruct (bool_decide (bundles (cat d) !! id = None)); cbn [raise_if mbind result_bind]; [done|].
  destruct (insert_copy (cat d) _) as [k [cid c]] eqn:Ei. injection Ei as <- <- <-. cbn [cp_native_locator].
  destruct (record_build_locators_and_roots _ id t _ a) as [k1|]; [|done].
  destruct (verify_members_from_copy _ _ _ _ _ _) as [r|m|m|m] eqn:Ev; cbn [cp_native_locator new_copy] in Ev;
    [|intros [= _ <-]; by exists metadata|done|done].
  destruct (record_evidence _ _ _ _ _ _); [|done]. by destruct (vf_ok r).
Qed.

(** C27: what becomes of bytes that reached media.  When the storage returned a locator that no copy row
    has, and the write phase of the target returns, the target is in exactly one of four places.  Its
    copy is reported placed, with a row of this bundle and pool; or its pool is reported as a post-write
    failure with a row of this bundle, pool and locator whose health is not OK, so no durability count
    includes it; or, and only then is there no row for the bytes, the pool is reported as a post-write
    failure because an encrypted artifact has no recipient epochs, or as a transient failure because
    the storage refused the read-back, and the catalog is as before. *)
Theorem written_bytes_accounted id now s t a s' locator size :
  tables_ok (cat (ws_db s)) → receipts_fk (cat (ws_db s)) → w_write w t a = Written locator size →
  find_copy (cat (ws_db s)) (pt_backend_id t) (locator_key locator) = None →
  write_target id now s (t, a) = Ok s' →
  (∃ cid, ws_copy_ids s' = ws_copy_ids s ++ [cid] ∧ ws_transient s' = ws_transient s ∧
     ws_post_write s' = ws_post_write s ∧ copy_in (cat (ws_db s')) id (pt_pool_id t) cid) ∨
  ws_copy_ids s' = ws_copy_ids s ∧
  ((ws_transient s' = ws_transient s ∧
    (∃ message, ws_post_write s' = ws_post_write s ++ [(pt_pool_id t, message)]) ∧
    ((∃ cid c, t_rows (copies (cat (ws_db s'))) !! cid = Some c ∧ cp_bundle_id c = Some id ∧
        cp_pool_id c = Some (pt_pool_id t) ∧ cp_native_locator c = locator ∧ copy_ok c = false) ∨
     (pt_representation t = REM_ENCRYPT_V1 ∧ ba_recipient_epochs a = [] ∧ ws_db s' = ws_db s))) ∨
   (ws_post_write s' = ws_post_write s ∧ ws_db s' = ws_db s ∧
    ∃ metadata message, verify_members_from_copy sha256 w t locator metadata (ba_members a) = VerifyBackendError message ∧
      ws_transient s' = ws_transient s ++ [(pt_pool_id t, message)])).
Proof.
  intros Hok Hfk Hw Hfind Hrun. pose proof (write_target_spec _ _ _ _ _ _ Hok Hrun) as [_ Hcase].
  unfold Fanout.write_target in Hrun.
  destruct (write_bundle_copy_for_pool _ _ _ _ _ _ _ _) as [d o] eqn:Ew.
  destruct o as [cid|message|message|e]; [|injection Hrun as <-..|done].
  - left. destruct Hcase as [[Heq _]|(c & H1 & [H2 _] & H3 & H4)]; [|by exists c].
    destruct (record_build_exclusions _ _ _); [|done]. apply bind_Ok in Hrun as ([d1 rc] & _ & [= <-]).
    cbn in Heq. by apply (f_equal length) in Heq; rewrite length_app in Heq; cbn in Heq; lia.
  - right. split; [done|]. right. cbn. split_and!; [done|done|].
    destruct (transient_after_write _ _ _ _ _ _ _ _ _ Hw Hfind Ew) as [metadata Hm]. by exists metadata, message.
  - right. split; [done|]. left. cbn. split_and!; [done|by exists message|].
    destruct (post_write_row _ _ _ _ _ _ _ _ _ Hok Hfk Hw Hfind Ew) as [(? & ? & ->)|H]; [by right|by left].
Qed.
End flush_facts.
