(* ===== verification/FanoutMapFacts.v ===== *)
(** * Correctness of the source map and of the builder's report

    A line number of the rendered map names the member row the failure handler picks, and an
    accepted report of the builder is the member snapshot, no member more or less. *)

From stdpp Require Import pretty.
From Stdlib Require Import Ascii.
From S2P Require Import Prelude Json JsonText JobModels Catalog RetryConfig Conditions MemberName.
From S2P Require Import Leases Engine Durability BundleGroup Copies Scrub Accumulator FanoutMap.
From S2P Require Import AccumulatorFacts NamingFacts FanoutFacts.

(** ** Splitting what was joined *)

Lemma split_on_cons sep s t :
  lacks sep s = true → split_on sep (s +:+ String sep t) = s :: split_on sep t.
Proof.
  induction s as [|c s IH]; rewrite ?string_nil_app, ?string_cons_app; cbn.
  - by rewrite Ascii.eqb_refl.
  - intros [Hc Hs]%andb_true_iff. apply negb_true_iff in Hc. rewrite Hc, IH by done. done.
Qed.

Lemma split_on_lacks sep s : lacks sep s = true → split_on sep s = [s].
Proof.
  induction s as [|c s IH]; cbn; [done|]. intros [Hc Hs]%andb_true_iff. apply negb_true_iff in Hc.
  by rewrite Hc, IH.
Qed.

Lemma split_on_join sep l t :
  Forall (λ s, lacks sep s = true) l →
  split_on sep (join (String sep "") l +:+ String sep t) =
    (match l with [] => [""] | _ => l end) ++ split_on sep t.
Proof.
  induction 1 as [|s l Hs Hl IH].
  - cbn [join]. by rewrite split_on_cons.
  - cbn [join]. destruct l as [|s' l]; [by rewrite split_on_cons|].
    rewrite !string_app_assoc, string_cons_app, string_nil_app, split_on_cons by done.
    rewrite IH. done.
Qed.

Lemma split_on_join_end sep l :
  Forall (λ s, lacks sep s = true) l → l ≠ [] → split_on sep (join (String sep "") l) = l.
Proof.
  induction 1 as [|s l Hs Hl IH]; [done|]. intros _. cbn [join]. destruct l as [|s' l].
  - by apply split_on_lacks.
  - rewrite string_cons_app, string_nil_app, split_on_cons by done. by rewrite IH.
Qed.

Lemma join_lacks sep c l :
  Ascii.eqb c sep = false → Forall (λ s, lacks sep s = true) l → lacks sep (join (String c "") l) = true.
Proof.
  intros Hc. induction 1 as [|s l Hs Hl IH]; [done|]. cbn [join]. destruct l as [|s' l]; [done|].
  rewrite !lacks_app, Hs, IH. cbn. by rewrite Hc.
Qed.

(** ** Numbers and digests hold no separator *)

Definition control (c : ascii) : Prop := (nat_of_ascii c < 32)%nat.

Lemma control_neq c sep : control sep → (32 ≤ nat_of_ascii c)%nat → Ascii.eqb c sep = false.
Proof.
  unfold control. intros Hs Hc. destruct (Ascii.eqb_spec c sep) as [->|]; [lia|done].
Qed.

Lemma lacks_char sep c : control sep → (32 ≤ nat_of_ascii c)%nat → lacks sep (String c "") = true.
Proof. intros Hs Hc. cbn [lacks]. by rewrite control_neq. Qed.

Lemma pretty_N_go_lacks sep x s : control sep → lacks sep s = true → lacks sep (pretty_N_go x s) = true.
Proof.
  intros Hsep. revert s. induction (N.lt_wf_0 x) as [x _ IH]; intros s Hs.
  destruct (decide (0 < x)%N) as [Hx|Hx].
  - rewrite pretty_N_go_step by done. apply IH; [by apply N.div_lt|]. cbn. rewrite Hs.
    rewrite control_neq; [done|done|]. unfold pretty_N_char. repeat case_match; vm_compute; lia.
  - assert (x = 0%N) as -> by lia. done.
Qed.

Lemma pretty_N_lacks sep (n : N) : control sep → lacks sep (pretty n) = true.
Proof.
  intros Hsep. unfold pretty, pretty_N. case_decide.
  - by apply lacks_char; [|vm_compute; lia].
  - by apply pretty_N_go_lacks.
Qed.

Lemma pretty_Z_lacks sep (n : Z) : control sep → lacks sep (pretty n) = true.
Proof.
  intros Hsep. unfold pretty, pretty_Z. destruct n; [|by apply pretty_N_lacks|].
  - by apply lacks_char; [|vm_compute; lia].
  - rewrite lacks_app, (lacks_char sep); [|done|vm_compute; lia].
    change (pretty p) with (pretty (N.pos p)). by rewrite pretty_N_lacks.
Qed.

Lemma hex_lacks sep b : control sep → lacks sep (bytes_hex b) = true.
Proof.
  intros Hsep. assert (Hd : ∀ m, (m < 16)%nat → Ascii.eqb (hex_digit m) sep = false).
  { intros m Hm. apply control_neq; [done|]. do 16 (destruct m as [|m]; [vm_compute; lia|]). lia. }
  induction b as [|c b IH]; [done|]. cbn [bytes_hex lacks]. rewrite IH, !Hd; [done|..].
  - apply Nat.mod_upper_bound. lia.
  - pose proof (nat_ascii_bounded c). apply Nat.Div0.div_lt_upper_bound. lia.
Qed.

(** ** Lines of the map *)

(** Paths without tab and newline. *)
Definition plain_path (p : string) : Prop :=
  lacks (ascii_of_nat 9) p = true ∧ lacks (ascii_of_nat 10) p = true.

Definition plain_entry (e : SourceMapEntry) : Prop :=
  plain_path (sme_archive_path e) ∧ plain_path (sme_source_path e).

Lemma fields_lack sep e :
  control sep → lacks sep (sme_archive_path e) = true → lacks sep (sme_source_path e) = true →
  Forall (λ s, lacks sep s = true) (source_map_fields e).
Proof.
  intros Hsep Ha Hs. unfold source_map_fields.
  repeat constructor; [done|done|by apply hex_lacks|by apply pretty_Z_lacks|].
  destruct (sme_ingest_item_id e); [by apply pretty_Z_lacks|done].
Qed.

Lemma map_line_fields entries i e :
  Forall plain_entry entries → entries !! i = Some e →
  ∃ line, split_on (ascii_of_nat 10) (render_source_map entries) !! S i = Some line ∧
    split_on (ascii_of_nat 9) line = source_map_fields e.
Proof.
  intros Hall Hi. exists (join TAB (source_map_fields e)). split.
  - unfold render_source_map, NEWLINE. rewrite split_on_join.
    + cbn [source_map_lines fmap list_fmap]. rewrite <- app_comm_cons. cbn [lookup list_lookup].
      apply lookup_app_l_Some. rewrite !list_lookup_fmap, Hi. done.
    + constructor; [done|]. apply Forall_fmap, Forall_fmap. eapply Forall_impl; [exact Hall|].
      intros x [[_ Ha] [_ Hs]]. apply join_lacks; [done|]. apply fields_lack; [vm_compute; lia|done..].
  - apply split_on_join_end; [|done]. apply fields_lack; [vm_compute; lia|..];
      rewrite Forall_forall in Hall; by apply (Hall e (list_elem_of_lookup_2 _ _ _ Hi)).
Qed.

(** The handler quarantines the member whose map row the builder refused.  If no path of the
    snapshot holds a tab or a newline and the builder's message names line [n] of the map, then line
    [n] of the text that was sent holds exactly the path, source, digest and size of the row that is
    picked. *)
Lemma failure_attribution k rows ms text message n row :
  member_inputs_for_flush k rows = Ok ms → render_flush_map k ms (Some rows) = Ok text →
  Forall (λ m, plain_path (in_member_path m) ∧ plain_path (sf_path (in_source_path m))) ms →
  search_map_line message = Some n → identify_member_failure message rows = Some row →
  ∃ line source lineage, split_on (ascii_of_nat 10) text !! Z.to_nat (n - 1) = Some line ∧
    member_source_path row.2 = Ok (Some source) ∧
    split_on (ascii_of_nat 9) line =
      [bm_member_path row.2; sf_path source; bytes_hex (bm_file_sha256 row.2);
       pretty (bm_size_bytes row.2); lineage].
Proof.
  intros Hms Htext Hplain Hn Hrow. unfold identify_member_failure in Hrow. rewrite Hn in Hrow.
  case_bool; [|done]. split_bools.
  unfold render_flush_map in Htext. apply bind_Ok in Htext as (us & _ & [= <-]).
  apply collect_Ok in Hms. destruct (Forall2_lookup_l _ _ _ _ _ Hms Hrow) as (m & Hm & Hin).
  unfold member_input in Hin. apply bind_Ok in Hin as ([f|] & Hf & Hin); [|done]. injection Hin as Hin.
  destruct (map_line_fields (map_entry k <$> ms) (Z.to_nat (n - 2)) (map_entry k m)) as (line & Hl & Hs).
  - apply Forall_fmap. exact Hplain.
  - rewrite list_lookup_fmap, Hm. done.
  - replace (S (Z.to_nat (n - 2))) with (Z.to_nat (n - 1)) in Hl by lia.
    eexists line, f, _. split_and!; [exact Hl|exact Hf|]. rewrite Hs, <- Hin. reflexivity.
Qed.

Definition odd_member (bundle_id path source : string) : BundleMember := {|
  bm_bundle_id := bundle_id; bm_logical_asset_hash := "h"; bm_artifactclass := "masters";
  bm_member_path := path; bm_source_path := Some source; bm_size_bytes := 1;
  bm_file_sha256 := "d"; bm_source_metadata := None |}.

Definition newline_rows : list member_entry :=
  [(1, odd_member "b1" "a" ("/staging/a" +:+ NEWLINE +:+ "x")); (2, odd_member "b1" "c" "/staging/c")].

(** A newline in a source path defeats the attribution.  The flush accepts such a member and
    renders its path as it is, so the row takes two lines of the map and a refusal of line 3, which
    still belongs to the first member, quarantines the second one. *)
Lemma newline_source_misattributed :
  ∃ ms text row line,
    member_inputs_for_flush empty_cat newline_rows = Ok ms ∧
    render_flush_map empty_cat ms (Some newline_rows) = Ok text ∧
    identify_member_failure "rem: source map line 3: no such file" newline_rows = Some row ∧
    split_on (ascii_of_nat 10) text !! 2%nat = Some line ∧
    row.1 = 2 ∧ head (split_on (ascii_of_nat 9) line) = Some "x".
Proof.
  destruct (member_inputs_for_flush empty_cat newline_rows) as [ms|] eqn:Ems; [|run_ok Ems].
  destruct (render_flush_map empty_cat ms (Some newline_rows)) as [text|] eqn:Et.
  2: { exfalso. revert Ems Et. vm_compute. intros [= <-]. discriminate. }
  exists ms, text, (2, odd_member "b1" "c" "/staging/c").
  assert (Htext : text = render_source_map (map_entry empty_cat <$> ms)).
  { unfold render_flush_map in Et. by apply bind_Ok in Et as (us & _ & [= <-]). }
  eexists. split_and!; [done|done|reflexivity| |done|].
  - rewrite Htext. revert Ems. vm_compute. intros [= <-]. reflexivity.
  - vm_compute. reflexivity.
Qed.

(** ** The builder's report *)

Definition built_facts (b : BuiltMember) : bytes * string * Z * bytes :=
  (bt_logical_asset_hash b, bt_member_path b, bt_size_bytes b, bt_file_sha256 b).

Definition input_facts (m : MemberInput) : bytes * string * Z * bytes :=
  (in_logical_asset_hash m, in_member_path m, in_size_bytes m, in_file_sha256 m).

Section report_facts.
Context (parse_int : string → option Z) (json_str : json → string).

Lemma input_at_Some path ms m : input_at path ms = Some m → m ∈ ms ∧ in_member_path m = path.
Proof.
  unfold input_at. intros H%last_Some_elem_of. apply list_elem_of_filter in H as [? ?]. done.
Qed.

Lemma manifest_member_spec ms seen j b :
  manifest_member parse_int json_str ms seen j = Ok b →
  bt_member_path b ∉ seen ∧ ∃ m, m ∈ ms ∧ built_facts b = input_facts m.
Proof.
  unfold manifest_member. destruct j as [| | | | | |item]; try done.
  destruct (get_or "path" "member_path" item) as [| | |[|c p]| | |]; try done.
  destruct (input_at (String c p) ms) as [m|] eqn:Em; [|done]. apply input_at_Some in Em as [Hin Hp].
  intros ([] & Hs%raise_if_Ok & H)%bind_Ok. apply bind_Ok in H as ([] & _ & H).
  destruct (dget "sha256" item) as [[| | |s| | |]|]; try done. apply bind_Ok in H as ([] & _ & H).
  destruct (int_of _ _) as [lba|]; [|done]. injection H as <-. cbn.
  split; [rewrite Hp; by apply bool_decide_eq_false_1 in Hs|]. by exists m.
Qed.

Lemma manifest_members_spec ms seen items bs :
  manifest_members parse_int json_str ms seen items = Ok bs →
  NoDup (bt_member_path <$> bs) ∧
  ∀ b, b ∈ bs → bt_member_path b ∉ seen ∧ ∃ m, m ∈ ms ∧ built_facts b = input_facts m.
Proof.
  revert seen bs. induction items as [|j items IH]; intros seen bs; cbn.
  { intros [= <-]. split; [constructor|]. intros b []%not_elem_of_nil. }
  intros (b & Hb & (bs' & Hbs & [= <-])%bind_Ok)%bind_Ok.
  apply manifest_member_spec in Hb as [Hseen Hm]. apply IH in Hbs as [Hnd Hall]. split.
  - cbn. constructor; [|done]. intros (b' & Heq & Hb')%list_elem_of_fmap.
    destruct (Hall b' Hb') as [Hns _]. apply Hns. rewrite <- Heq. left.
  - intros b' [->|Hb']%elem_of_cons; [done|]. destruct (Hall b' Hb') as [Hns Hm'].
    split; [|done]. intros Hin. apply Hns. by right.
Qed.

(** An accepted build report describes exactly the members that were sent: as multisets, the
    asset hashes, paths, sizes and digests of the built members are those of the inputs, so a report
    that drops, adds, duplicates, resizes or rehashes a member is refused. *)
Lemma manifest_members_exact manifest ms bs :
  members_from_manifest parse_int json_str manifest ms = Ok bs →
  built_facts <$> bs ≡ₚ input_facts <$> ms.
Proof.
  unfold members_from_manifest. intros ([] & Hnd%raise_if_Ok & H)%bind_Ok.
  apply negb_false_iff, bool_decide_eq_true_1 in Hnd.
  destruct (dget "members" manifest) as [[| | | | |[|item items]|]|]; try done.
  apply bind_Ok in H as (bs' & Hbs & H). apply bind_Ok in H as ([] & Hom%raise_if_Ok & [= <-]).
  apply negb_false_iff, bool_decide_eq_true_1 in Hom.
  apply manifest_members_spec in Hbs as [Hndb Hall].
  assert (Hproj : ∀ b m, built_facts b = input_facts m → bt_member_path b = in_member_path m)
    by (intros b m; unfold built_facts, input_facts; congruence).
  apply NoDup_Permutation.
  - apply (NoDup_fmap_1 (λ x, x.1.1.2)). by rewrite <- list_fmap_compose.
  - apply (NoDup_fmap_1 (λ x, x.1.1.2)). by rewrite <- list_fmap_compose.
  - intros x. rewrite !list_elem_of_fmap. split.
    + intros (b & -> & Hb). destruct (Hall b Hb) as [_ (m & Hm & Heq)]. by exists m.
    + intros (m & -> & Hm).
      assert (Hp : in_member_path m ∈ bt_member_path <$> bs').
      { apply (omitted_nil ms); [done|]. by apply list_elem_of_fmap_2. }
      apply list_elem_of_fmap in Hp as (b & Hpb & Hb). destruct (Hall b Hb) as [_ (m' & Hm' & Heq)].
      exists b. split; [|done]. rewrite Heq. f_equal.
      apply list_elem_of_lookup in Hm as [i Hi], Hm' as [i' Hi'].
      assert (Hii : i = i'); [|congruence].
      eapply (NoDup_lookup _ _ _ (in_member_path m) Hnd); rewrite list_lookup_fmap;
        [by rewrite Hi|]. rewrite Hi'. cbn. f_equal. rewrite <- (Hproj b m') by done. done.
Qed.
End report_facts.
