(* ===== verification/SweeperFacts.v ===== *)
(** * Correctness of the sweeper

    Nothing is stranded: a pass seals every bundle that has to go, or reports it and leaves it open;
    dead claims are retried in the same pass, live ones are left alone, and only empty orphans are
    sealed void. *)

From Stdlib Require Import Ascii.
From S2P Require Import Prelude Json JsonText JobModels Catalog RetryConfig Conditions MemberName.
From S2P Require Import Leases Engine Durability BundleGroup Copies Scrub Accumulator FanoutMap Fanout.
From S2P Require Import Sweeper AccumulatorFacts BundleLife FanoutFacts FlushFacts.

(** ** Folds that rewrite some rows *)

Section row_fold.
Context (P : Bundle → bool) (f : Bundle → Bundle).
Context (step : Cat * list string → string * Bundle → Cat * list string).
Hypothesis step_row : ∀ k acc i b, bundles k !! i = Some b →
  step (k, acc) (i, b) = if P b then (put_bundle i (f b) k, acc ++ [i]) else (k, acc).

Lemma row_fold_spec l k acc :
  NoDup l.*1 → (∀ i b, (i, b) ∈ l → bundles k !! i = Some b) →
  let r := foldl step (k, acc) l in
  r.2 = acc ++ (filter (λ ib, P ib.2 = true) l).*1 ∧
  (∀ i b, (i, b) ∈ l → P b = true → bundles r.1 !! i = Some (f b)) ∧
  (∀ i, (∀ b, (i, b) ∈ l → P b = false) → bundles r.1 !! i = bundles k !! i) ∧
  pools r.1 = pools k ∧ acpools r.1 = acpools k ∧ policies r.1 = policies k ∧ members r.1 = members k.
Proof.
  revert k acc. induction l as [|[i b] l IH]; intros k acc Hnd Hl; cbn zeta; cbn [foldl].
  { cbn. split_and!; [by rewrite app_nil_r|by intros ? ? ?%not_elem_of_nil|done..]. }
  apply NoDup_cons in Hnd as [Hi Hnd]. rewrite (step_row k acc i b) by (apply Hl; left).
  set (k1 := if P b then put_bundle i (f b) k else k).
  assert (Hl1 : ∀ i' b', (i', b') ∈ l → bundles k1 !! i' = Some b').
  { intros i' b' Hin. assert (i ≠ i').
    { intros ->. apply Hi. apply list_elem_of_fmap. by exists (i', b'). }
    unfold k1. destruct (P b); cbn; rewrite ?lookup_insert_ne by done; apply Hl; by right. }
  destruct (IH k1 (if P b then acc ++ [i] else acc) Hnd Hl1) as (IH1 & IH2 & IH3 & IH4 & IH5 & IH6 & IH7).
  assert (Heq : (if P b then (put_bundle i (f b) k, acc ++ [i]) else (k, acc))
                = (k1, if P b then acc ++ [i] else acc)) by (unfold k1; by destruct (P b)).
  rewrite Heq. clear Heq. split_and!.
  - rewrite IH1, filter_cons. cbn [snd]. destruct (P b); [|done]. by rewrite <- app_assoc.
  - intros i' b' [[= -> ->]|Hin]%elem_of_cons Hp; [|by apply IH2].
    rewrite IH3. { unfold k1. rewrite Hp. apply lookup_insert_eq. }
    intros b'' Hin. destruct Hi. apply list_elem_of_fmap. by exists (i, b'').
  - intros i' Hnone. rewrite IH3 by (intros; apply Hnone; by right). unfold k1.
    destruct (P b) eqn:Ep; [|done]. cbn. rewrite lookup_insert_ne; [done|]. intros <-.
    rewrite (Hnone b) in Ep; [done|by left].
  - rewrite IH4. unfold k1. by destruct (P b).
  - rewrite IH5. unfold k1. by destruct (P b).
  - rewrite IH6. unfold k1. by destruct (P b).
  - rewrite IH7. unfold k1. by destruct (P b).
Qed.
End row_fold.

Lemma NoDup_sorted_rows {K} `{Ordered K} (key : string * Bundle → K) (P : string * Bundle → Prop)
    `{∀ x, Decision (P x)} (m : gmap string Bundle) :
  NoDup (sort_by key (filter P (map_to_list m))).*1.
Proof.
  rewrite (fmap_Permutation fst _ _ (sort_by_perm _ _)).
  eapply sublist_NoDup; [apply (NoDup_fst_map_to_list m)|]. apply fmap_sublist, sublist_filter.
Qed.

Lemma elem_of_open_bundles k i b : (i, b) ∈ open_bundles k ↔ bundles k !! i = Some b ∧ is_open b = true.
Proof.
  unfold open_bundles. rewrite elem_of_sort_by, list_elem_of_filter, elem_of_map_to_list. cbn. naive_solver.
Qed.

Lemma elem_of_flushing k i b :
  (i, b) ∈ flushing_bundles k ↔ bundles k !! i = Some b ∧ bu_status b = "flushing".
Proof.
  unfold flushing_bundles. rewrite elem_of_sort_by, list_elem_of_filter, elem_of_map_to_list. cbn. naive_solver.
Qed.

(** ** Reaping and voiding *)

Definition reopened (b : Bundle) : Bundle := set_flow b "open" None (bu_flushed_at b) (bu_sealed_at b).

Definition voided (now : time) (b : Bundle) : Bundle :=
  set_flow b VOID_STATUS (bu_claimed_by b) (bu_flushed_at b) (Some now).

Lemma reap_spec alive k :
  let r := reap_stuck_flushing alive k in
  (∀ i, i ∈ r.2 ↔ ∃ b, bundles k !! i = Some b ∧ bu_status b = "flushing" ∧ alive (bu_claimed_by b) = false) ∧
  (∀ i b, bundles k !! i = Some b → bu_status b = "flushing" → alive (bu_claimed_by b) = false →
     bundles r.1 !! i = Some (reopened b)) ∧
  (∀ i, i ∉ r.2 → bundles r.1 !! i = bundles k !! i) ∧
  pools r.1 = pools k ∧ acpools r.1 = acpools k ∧ policies r.1 = policies k.
Proof.
  set (P := λ b, negb (alive (bu_claimed_by b)) && bool_decide (bu_status b = "flushing")).
  assert (Hstep : ∀ k acc i b, bundles k !! i = Some b →
    reap_one alive (k, acc) (i, b) = if P b then (put_bundle i (reopened b) k, acc ++ [i]) else (k, acc)).
  { intros k0 acc i b Hb. unfold reap_one, P. cbn. rewrite Hb. destruct (alive _); [done|]. cbn.
    by destruct (decide (bu_status b = "flushing")); [rewrite bool_decide_true|rewrite bool_decide_false]. }
  destruct (row_fold_spec P reopened _ Hstep (flushing_bundles k) k []) as (H1 & H2 & H3 & H4 & H5 & H6 & _).
  { apply NoDup_sorted_rows. }
  { intros i b. rewrite elem_of_flushing. naive_solver. }
  intros r. assert (Hin : ∀ i, i ∈ r.2 ↔
    ∃ b, bundles k !! i = Some b ∧ bu_status b = "flushing" ∧ alive (bu_claimed_by b) = false).
  { intros i. unfold r, reap_stuck_flushing. rewrite H1. cbn. rewrite list_elem_of_fmap. split.
    - intros ([i' b] & -> & [Hp Hb%elem_of_flushing]%list_elem_of_filter). exists b. unfold P in Hp. cbn in Hp.
      split_bools. naive_solver.
    - intros (b & Hb & Hs & Ha). exists (i, b). split; [done|]. apply list_elem_of_filter. cbn.
      unfold P. rewrite Ha, bool_decide_true by done. split; [done|]. by apply elem_of_flushing. }
  split_and!; [done| | |done..].
  - intros i b Hb Hs Ha. apply H2; [by apply elem_of_flushing|]. unfold P.
    by rewrite Ha, bool_decide_true.
  - intros i Hi. apply H3. intros b Hb%elem_of_flushing. unfold P.
    destruct (alive (bu_claimed_by b)) eqn:Ea; [done|]. destruct Hi. apply Hin. exists b. naive_solver.
Qed.

Lemma void_spec live now k :
  let r := void_seal_orphans k live now in
  (∀ i, i ∈ r.2 ↔ ∃ b, bundles k !! i = Some b ∧ is_open b = true ∧ void_orphan live b = true) ∧
  (∀ i, i ∉ r.2 → bundles r.1 !! i = bundles k !! i) ∧
  (∀ i b, bundles k !! i = Some b → i ∈ r.2 → bundles r.1 !! i = Some (voided now b)).
Proof.
  set (P := λ b, void_orphan live b && is_open b).
  assert (Hstep : ∀ k acc i b, bundles k !! i = Some b →
    void_one live now (k, acc) (i, b) = if P b then (put_bundle i (voided now b) k, acc ++ [i]) else (k, acc)).
  { intros k0 acc i b Hb. unfold void_one, P. cbn. rewrite Hb. by destruct (void_orphan live b), (is_open b). }
  destruct (row_fold_spec P (voided now) _ Hstep (open_bundles k) k []) as (H1 & H2 & H3 & _).
  { apply NoDup_sorted_rows. }
  { intros i b. rewrite elem_of_open_bundles. naive_solver. }
  intros r. assert (Hin : ∀ i, i ∈ r.2 ↔
    ∃ b, bundles k !! i = Some b ∧ is_open b = true ∧ void_orphan live b = true).
  { intros i. unfold r, void_seal_orphans. rewrite H1. cbn. rewrite list_elem_of_fmap. split.
    - intros ([i' b] & -> & [Hp Hb%elem_of_open_bundles]%list_elem_of_filter). exists b. unfold P in Hp.
      cbn in Hp. split_bools. naive_solver.
    - intros (b & Hb & Ho & Hv). exists (i, b). split; [done|]. apply list_elem_of_filter. cbn.
      unfold P. rewrite Hv, Ho. split; [done|]. by apply elem_of_open_bundles. }
  split_and!; [done| |].
  - intros i Hi. apply H3. intros b [Hb Ho]%elem_of_open_bundles. unfold P. rewrite Ho.
    destruct (void_orphan live b) eqn:Ev; [|done]. destruct Hi. apply Hin. by exists b.
  - intros i b Hb (b' & Hb' & Ho & Hv)%Hin. simplify_eq. apply H2; [by apply elem_of_open_bundles|].
    unfold P. by rewrite Hv, Ho.
Qed.

(** ** The pass *)

Section pass_facts.
Context (sha256_hex : string → string) (sha256 : bytes → bytes) (json_str : json → string).
Context (producer_process : string) (uniform : Z → Z → Z).
Context (worlds : string → World) (key_epoch : option string) (token : string) (fresh : string → string).

Hypothesis fills : ∀ id, fills_quiet (worlds id).

Local Abbreviation sweep_flush :=
  (sweep_flush sha256_hex sha256 json_str producer_process uniform worlds key_epoch token fresh).
Local Abbreviation sweep_bundles :=
  (sweep_bundles sha256_hex sha256 json_str producer_process uniform worlds key_epoch token fresh).

Lemma sweep_flush_ok now d id d' :
  bundles_ok (cat d) → sweep_flush now d id = Ok d' →
  bundles_ok (cat d') ∧ frozen (cat d) (cat d') ∧
  (∃ b, bundles (cat d') !! id = Some b ∧ bu_status b = "sealed") ∧
  ∀ i b, i ≠ id → bundles (cat d) !! i = Some b → bundles (cat d') !! i = Some b.
Proof.
  intros Hok. unfold Sweeper.sweep_flush.
  destruct (flush_bundle _ _ _ _ _ _ _ _ _ _ _ _ _) as [[[d1 r]|e]|] eqn:Ef; try done. intros [= <-].
  apply flush_sealed in Ef as (H1 & H2 & (b & Hb & Hs & _) & H4); [|done|exact (fills id)]. eauto 10.
Qed.

Lemma flush_all_spec now ids d d' flushed failed :
  bundles_ok (cat d) → NoDup ids → flush_all (sweep_flush now) d ids = (d', flushed, failed) →
  bundles_ok (cat d') ∧ frozen (cat d) (cat d') ∧ flushed ++ failed.*1 ≡ₚ ids ∧
  (∀ i, i ∈ flushed → ∃ b, bundles (cat d') !! i = Some b ∧ bu_status b = "sealed") ∧
  (∀ i b, i ∉ flushed → bundles (cat d) !! i = Some b → bundles (cat d') !! i = Some b).
Proof.
  revert d flushed failed. induction ids as [|id ids IH]; intros d flushed failed Hok Hnd; cbn [flush_all].
  { intros [= <- <- <-]. split_and!; [done|reflexivity|done|by intros ? ?%not_elem_of_nil|done]. }
  apply NoDup_cons in Hnd as [Hid Hnd]. destruct (sweep_flush now d id) as [d1|e] eqn:Ef.
  - destruct (sweep_flush_ok _ _ _ _ Hok Ef) as (Hok1 & Hfr1 & (b & Hb & Hs) & Hothers).
    destruct (flush_all (sweep_flush now) d1 ids) as [[d2 fl] fa] eqn:Ea. intros [= <- <- <-].
    destruct (IH _ _ _ Hok1 Hnd Ea) as (Hok2 & Hfr2 & Hperm & Hsealed & Hkept).
    assert (Hnf : id ∉ fl).
    { intros Hin. apply Hid. rewrite <- Hperm. apply elem_of_app. by left. }
    split_and!; [done|by etrans|cbn; by rewrite Hperm| |].
    + intros i [->|Hi]%elem_of_cons; [|by apply Hsealed]. exists b. split; [|done]. by apply Hkept.
    + intros i x Hi Hx. apply not_elem_of_cons in Hi as [Hne Hi]. apply Hkept; [done|]. by apply Hothers.
  - destruct (flush_all (sweep_flush now) d ids) as [[d2 fl] fa] eqn:Ea. intros [= <- <- <-].
    destruct (IH _ _ _ Hok Hnd Ea) as (Hok2 & Hfr2 & Hperm & Hsealed & Hkept).
    split_and!; [done|done|cbn; by rewrite <- Permutation_middle, Hperm|done|done].
Qed.

(** What is left of a pass after the reaper: the rows it saw and the ones it leaves. *)
Record pass_facts (alive : option string → bool) (d : Database) (now : time) (d' : Database)
    (r : SweepResult) : Prop := {
  pf_ok : bundles_ok (cat d');
  pf_frozen : frozen (cat d) (cat d');
  pf_rows : ∃ k1 k2, k1 = (reap_stuck_flushing alive (cat d)).1 ∧
    sw_reaped r = (reap_stuck_flushing alive (cat d)).2 ∧
    let live := (live_group_fingerprints sha256_hex k1).1 in
    k2 = (void_seal_orphans k1 live now).1 ∧ sw_voided r = (void_seal_orphans k1 live now).2 ∧
    (∀ i, i ∈ sw_flushed r ++ (sw_failed r).*1 ↔ i ∈ drain_candidates k2 live ∨ i ∈ due_bundles k2 now) ∧
    (∀ i, i ∈ sw_flushed r → ∃ b, bundles (cat d') !! i = Some b ∧ bu_status b = "sealed") ∧
    (∀ i b, i ∉ sw_flushed r → bundles k2 !! i = Some b → bundles (cat d') !! i = Some b);
}.

Lemma sweep_pass alive d now d' r :
  bundles_ok (cat d) → sweep_bundles alive d now true = (d', r) → pass_facts alive d now d' r.
Proof.
  intros Hok. unfold Sweeper.sweep_bundles.
  destruct (reap_kept alive (cat d) Hok) as [Hok1 Hfr1].
  destruct (reap_stuck_flushing alive (cat d)) as [k1 reaped] eqn:Er. cbn [fst] in *.
  set (live := (live_group_fingerprints sha256_hex k1).1).
  destruct (void_kept live now k1 Hok1) as [Hok2 Hfr2].
  destruct (void_seal_orphans k1 live now) as [k2 vs] eqn:Ev. cbn [fst] in *.
  destruct (flush_all _ _ _) as [[d3 fl] fa] eqn:Ef. intros [= <- <-].
  apply flush_all_spec in Ef as (Hok3 & Hfr3 & Hperm & Hsealed & Hkept); [|done|].
  2: { apply NoDup_sort_by, NoDup_remove_dups. }
  constructor; [done|by etrans; [|etrans]|]. exists k1, k2.
  cbn [sw_reaped sw_voided sw_flushed sw_failed]. rewrite Er. fold live. rewrite Ev.
  split_and!; [done..| |done|done].
  intros i. rewrite Hperm, elem_of_sort_by, elem_of_remove_dups, elem_of_app. done.
Qed.

Lemma live_after_reap alive k :
  (live_group_fingerprints sha256_hex (reap_stuck_flushing alive k).1).1 =
  (live_group_fingerprints sha256_hex k).1.
Proof.
  destruct (reap_spec alive k) as (_ & _ & _ & Hp & Ha & Hpol).
  unfold live_group_fingerprints, compute_group_basis, active_placements. cbn.
  by rewrite Hp, Ha, Hpol.
Qed.

(** The row of a bundle that has to go, as the flush loop meets it. *)
Lemma row_to_flush alive k now id b live :
  bundles_ok k → bundles k !! id = Some b → 0 < bu_member_count b →
  (bu_status b = "flushing" ∧ alive (bu_claimed_by b) = false) ∨ bundle_due b now false = true ∨
  (is_accumulator b = true ∧ bu_bundle_group b ∉ live) →
  let k2 := (void_seal_orphans (reap_stuck_flushing alive k).1 live now).1 in
  ∃ b1, bundles k2 !! id = Some b1 ∧ is_open b1 = true ∧
    (bu_status b = "flushing" → bu_claimed_by b1 = None) ∧
    (id ∈ drain_candidates k2 live ∨ id ∈ due_bundles k2 now).
Proof.
  intros Hok Hb Hcount Hwhy k2. destruct (reap_spec alive k) as (R1 & R2 & R3 & _).
  set (k1 := (reap_stuck_flushing alive k).1) in *. destruct (void_spec live now k1) as (V1 & V2 & _).
  assert (Hvoid : ∀ b1, bundles k1 !! id = Some b1 → 0 < bu_member_count b1 → bundles k2 !! id = Some b1).
  { intros b1 Hb1 Hc. unfold k2. rewrite V2; [done|]. intros (b' & Hb' & _ & Hv)%V1. simplify_eq.
    unfold void_orphan in Hv. split_bools. lia. }
  destruct (decide (bu_status b = "flushing")) as [Hs|Hs].
  - destruct Hwhy as [[_ Ha]|[Hdue|[Hacc _]]].
    2: { unfold bundle_due, is_open in Hdue. by rewrite Hs in Hdue. }
    2: { unfold is_accumulator, is_open in Hacc. by rewrite Hs in Hacc. }
    destruct (bo_claim _ Hok _ _ Hb Hs) as ([a Harc] & _ & [fl Hfl]).
    pose proof (Hvoid _ (R2 _ _ Hb Hs Ha) Hcount) as Hb2. exists (reopened b). split_and!; [done..|].
    right. unfold due_bundles. apply list_elem_of_fmap. exists (id, reopened b). split; [done|].
    apply list_elem_of_filter. split; [|by apply elem_of_open_bundles]. unfold was_reaped. cbn.
    rewrite Harc, Hfl. cbn. by apply Z.ltb_lt in Hcount as ->.
  - assert (Hb1 : bundles k1 !! id = Some b).
    { rewrite <- Hb. apply R3. intros (b' & Hb' & Hs' & _)%R1. congruence. }
    pose proof (Hvoid _ Hb1 Hcount) as Hb2. exists b. destruct Hwhy as [[? _]|[Hdue|[Hacc Hlive]]]; [done|..].
    + assert (Ho : is_open b = true) by (unfold bundle_due in Hdue; by destruct (is_open b)).
      split_and!; [done..|]. right. unfold due_bundles. apply list_elem_of_fmap. exists (id, b).
      split; [done|]. apply list_elem_of_filter. cbn. rewrite Hdue, orb_true_r.
      split; [done|]. by apply elem_of_open_bundles.
    + apply andb_true_iff in Hacc as [Ho Harc]. split_and!; [done..|]. left. unfold drain_candidates.
      apply list_elem_of_fmap. exists (id, b). split; [done|]. apply list_elem_of_filter. cbn.
      split; [|by apply elem_of_open_bundles]. unfold drainable. rewrite Harc.
      apply Z.ltb_lt in Hcount as ->. by rewrite bool_decide_false.
Qed.

(** C18: no bundle with members is stranded.  A bundle that is claimed by a dead process, is due, or
    accumulates for a group no class derives any more, is sealed by the pass, or is reported as
    failed and left open, unclaimed if its claim was dead, for the next pass. *)
Theorem sweep_progress alive d now d' r id b :
  bundles_ok (cat d) → sweep_bundles alive d now true = (d', r) →
  bundles (cat d) !! id = Some b → 0 < bu_member_count b →
  (bu_status b = "flushing" ∧ alive (bu_claimed_by b) = false) ∨
  bundle_due b now false = true ∨
  (is_accumulator b = true ∧ bu_bundle_group b ∉ (live_group_fingerprints sha256_hex (cat d)).1) →
  (id ∈ sw_flushed r ∧ ∃ b', bundles (cat d') !! id = Some b' ∧ bu_status b' = "sealed") ∨
  (∃ e, (id, e) ∈ sw_failed r ∧ ∃ b', bundles (cat d') !! id = Some b' ∧ is_open b' = true ∧
     (bu_status b = "flushing" → bu_claimed_by b' = None)).
Proof.
  intros Hok Hsweep Hb Hcount Hwhy.
  destruct (sweep_pass _ _ _ _ _ Hok Hsweep) as [_ _ (k1 & k2 & -> & _ & -> & _ & Hwork & Hsealed & Hkept)].
  rewrite live_after_reap in Hwork, Hkept.
  destruct (row_to_flush alive (cat d) now id b _ Hok Hb Hcount Hwhy) as (b1 & Hb1 & Ho1 & Hc1 & Hw1).
  destruct (decide (id ∈ sw_flushed r)) as [Hf|Hf]; [left; split; [done|by apply Hsealed]|right].
  apply Hwork, elem_of_app in Hw1 as [?|He]; [done|].
  apply list_elem_of_fmap in He as ([i e] & -> & He). exists e. split; [done|]. eauto.
Qed.

Lemma worklist_open k live now i :
  i ∈ drain_candidates k live ∨ i ∈ due_bundles k now → ∃ b, bundles k !! i = Some b ∧ is_open b = true.
Proof.
  intros [H|H]; apply list_elem_of_fmap in H as ([i' b] & -> & H); apply list_elem_of_filter in H as [_ H];
    exists b; by apply elem_of_open_bundles.
Qed.

(** A row that is not open and whose claim is not dead goes through the pass as it is. *)
Lemma closed_row_kept alive d now d' r id b :
  bundles_ok (cat d) → sweep_bundles alive d now true = (d', r) →
  bundles (cat d) !! id = Some b → is_open b = false →
  (bu_status b = "flushing" → alive (bu_claimed_by b) = true) → bundles (cat d') !! id = Some b.
Proof.
  intros Hok Hsweep Hb Ho Halive.
  destruct (sweep_pass _ _ _ _ _ Hok Hsweep) as [_ _ (k1 & k2 & -> & _ & -> & _ & Hwork & Hsealed & Hkept)].
  destruct (reap_spec alive (cat d)) as (R1 & R2 & R3 & _).
  rewrite live_after_reap in Hwork, Hkept.
  set (live := (live_group_fingerprints sha256_hex (cat d)).1) in *.
  destruct (void_spec live now (reap_stuck_flushing alive (cat d)).1) as (V1 & V2 & _).
  assert (Hb1 : bundles (reap_stuck_flushing alive (cat d)).1 !! id = Some b).
  { rewrite <- Hb. apply R3. intros (b' & Hb' & Hs & Ha)%R1. simplify_eq. rewrite Halive in Ha; done. }
  assert (Hb2 : bundles (void_seal_orphans (reap_stuck_flushing alive (cat d)).1 live now).1 !! id = Some b).
  { rewrite V2; [done|]. intros (b' & Hb' & Ho' & _)%V1. congruence. }
  apply Hkept; [|done]. intros Hf.
  assert (Hin : id ∈ sw_flushed r ++ (sw_failed r).*1) by (apply elem_of_app; by left).
  apply Hwork, worklist_open in Hin as (b' & Hb' & Ho'). congruence.
Qed.

(** A pass does nothing it should not.  It keeps the bundle tables well-formed and sealed bundles
    frozen; a bundle whose flush claim is alive, and a bundle held for review, keep their rows; and
    only empty open accumulators of groups that no class derives are sealed void. *)
Lemma sweep_safe alive d now d' r :
  bundles_ok (cat d) → sweep_bundles alive d now true = (d', r) →
  bundles_ok (cat d') ∧ frozen (cat d) (cat d') ∧
  (∀ id b, bundles (cat d) !! id = Some b →
     bu_status b = "held" ∨ (bu_status b = "flushing" ∧ alive (bu_claimed_by b) = true) →
     bundles (cat d') !! id = Some b) ∧
  ∀ id, id ∈ sw_voided r → ∃ b, bundles (cat d) !! id = Some b ∧ is_accumulator b = true ∧
    bu_member_count b = 0 ∧ bu_bundle_group b ∉ (live_group_fingerprints sha256_hex (cat d)).1.
Proof.
  intros Hok Hsweep. pose proof (sweep_pass _ _ _ _ _ Hok Hsweep) as [Hok' Hfr Hrows].
  split_and!; [done|done| |].
  - intros id b Hb Hs. apply (closed_row_kept alive d now d' r id b Hok Hsweep Hb).
    + unfold is_open. by destruct Hs as [->|[-> _]].
    + destruct Hs as [->|[_ ?]]; done.
  - destruct Hrows as (k1 & k2 & -> & _ & -> & Hv & _). rewrite live_after_reap in Hv. rewrite Hv.
    intros id (b & Hb & Ho & Hvo)%void_spec. unfold void_orphan in Hvo. split_bools.
    destruct (reap_spec alive (cat d)) as (R1 & R2 & R3 & _).
    destruct (decide (id ∈ (reap_stuck_flushing alive (cat d)).2)) as [Hin|Hin].
    + apply R1 in Hin as (b0 & Hb0 & Hs & Ha). rewrite (R2 _ _ Hb0 Hs Ha) in Hb. simplify_eq.
      destruct (bo_claim _ Hok _ _ Hb0 Hs) as ([x Hx] & _). cbn in *. congruence.
    + rewrite R3 in Hb by done. exists b. split_and!; [done| |done|done].
      unfold is_accumulator. by rewrite Ho, bool_decide_true.
Qed.

(** With a deliverables directory the pass flushes nothing: the flush demands a signer, and the pass
    has none to give. *)
Lemma sweep_deliverables_flushes_nothing alive d now d' r :
  (∀ id, is_Some (w_deliver (worlds id))) → sweep_bundles alive d now true = (d', r) →
  sw_flushed r = [] ∧ ∀ id e, (id, e) ∈ sw_failed r → e = ManifestSigningError.
Proof.
  intros Hdir. unfold Sweeper.sweep_bundles.
  destruct (reap_stuck_flushing alive (cat d)) as [k1 reaped].
  destruct (void_seal_orphans k1 _ now) as [k2 vs]. generalize {| cat := k2; jobs := jobs d |} as d0.
  generalize (sort_by (λ x : string, x) (remove_dups (drain_candidates k2 (live_group_fingerprints sha256_hex k1).1
    ++ due_bundles k2 now))) as ids.
  assert (Hall : ∀ ids d0, ∃ fa, flush_all (sweep_flush now) d0 ids = (d0, [], fa) ∧
    ∀ id e, (id, e) ∈ fa → e = ManifestSigningError).
  { induction ids as [|i ids IH]; intros d0; cbn [flush_all].
    - exists []. split; [done|]. by intros ? ? ?%not_elem_of_nil.
    - assert (Hf : sweep_flush now d0 i = Err ManifestSigningError).
      { unfold Sweeper.sweep_flush, flush_bundle. cbn. destruct (Hdir i) as [x ->]. done. }
      rewrite Hf. destruct (IH d0) as (fa & -> & Hfa). exists ((i, ManifestSigningError) :: fa).
      split; [done|]. intros id e [[= -> ->]|Hin]%elem_of_cons; [done|by eapply Hfa]. }
  intros ids d0. destruct (Hall ids d0) as (fa & Hfa & Herr). rewrite Hfa. intros [= <- <-]. done.
Qed.
End pass_facts.
