(* ===== verification/Profiles.v ===== *)
(** * Media kinds and prepare profiles

    [jobs/reconcilers/profiles.py]: the registry of derivation jobs a source class and a prepare
    profile ask for; and the media classification of [intake.py] that selects among them. *)

From Stdlib Require Import Ascii.
From S2P Require Import Prelude Json JobModels Catalog Scrub Accumulator FanoutMap.

(** ** Media kinds *)

Inductive MediaKind := VIDEO | AUDIO | IMAGE | DOCUMENT | OTHER.

#[export] Instance MediaKind_eq_dec : EqDecision MediaKind.
Proof. solve_decision. Defined.

Definition VIDEO_EXTENSIONS : list string :=
  [".3gp"; ".avi"; ".m2ts"; ".m4v"; ".mkv"; ".mov"; ".mp4"; ".mpeg"; ".mpg"; ".mts"; ".mxf"; ".r3d"; ".wmv"].
Definition AUDIO_EXTENSIONS : list string :=
  [".aac"; ".aif"; ".aiff"; ".flac"; ".m4a"; ".mp3"; ".wav"].
Definition IMAGE_EXTENSIONS : list string :=
  [".arw"; ".cr2"; ".dng"; ".heic"; ".jpeg"; ".jpg"; ".nef"; ".png"; ".tif"; ".tiff"].
Definition DOCUMENT_EXTENSIONS : list string :=
  [".csv"; ".doc"; ".docx"; ".json"; ".pdf"; ".txt"; ".xml"].

(** [str.lower] on the letters the extension sets hold. *)
Definition lower_char (c : ascii) : ascii :=
  let n := nat_of_ascii c in
  if ((65 <=? n) && (n <=? 90))%nat then ascii_of_nat (n + 32) else c.

Fixpoint lower (s : string) : string :=
  match s with EmptyString => "" | String c s => String (lower_char c) (lower s) end.

(** The components of a path: empty and [.] ones are dropped. *)
Definition path_parts (s : string) : list string :=
  filter (λ p, p ≠ "" ∧ p ≠ ".") (split_on "/" s).

(** The root of a path: exactly two slashes are kept. *)
Definition path_root (s : string) : string :=
  if decide (is_Some (strip_prefix "///" s)) then "/"
  else if decide (is_Some (strip_prefix "//" s)) then "//"
  else if decide (is_Some (strip_prefix "/" s)) then "/" else "".

(** [str(Path(s))] *)
Definition path_str (s : string) : string :=
  match path_root s +:+ join "/" (path_parts s) with "" => "." | t => t end.

(** [Path(a) / b]: an absolute [b] replaces [a]. *)
Definition path_join (a b : string) : string :=
  if decide (is_Some (strip_prefix "/" b)) then b
  else if decide (is_Some (strip_suffix "/" a)) then a +:+ b else a +:+ "/" +:+ b.

(** [Path(s).parent] *)
Definition path_parent (s : string) : string :=
  match path_root s +:+ join "/" (removelast (path_parts s)) with "" => "." | t => t end.

(** [Path(s).suffix]: from the last dot of the name, unless it is the first or last character. *)
Definition path_suffix (s : string) : string :=
  match rpartition "." (default "" (last (path_parts s))) with
  | Some (String _ _, String c ext) => String "." (String c ext)
  | _ => ""
  end.

Definition media_kind_for_path (path : string) : MediaKind :=
  let suffix := lower (path_suffix path) in
  if bool_decide (suffix ∈ VIDEO_EXTENSIONS) then VIDEO
  else if bool_decide (suffix ∈ AUDIO_EXTENSIONS) then AUDIO
  else if bool_decide (suffix ∈ IMAGE_EXTENSIONS) then IMAGE
  else if bool_decide (suffix ∈ DOCUMENT_EXTENSIONS) then DOCUMENT
  else OTHER.

(** ** Profiles *)

Inductive FactType := FactDerivation | FactIndex.

#[export] Instance FactType_eq_dec : EqDecision FactType.
Proof. solve_decision. Defined.

Record FactSpec := { fs_kind : string; fs_fact_type : FactType }.

Record DerivationEntry := {
  de_job_kind : string;
  de_input_media_kind : option MediaKind;
  de_produces : list FactSpec;
  de_output_class : option string;
  de_params : dict json;
  de_resources : list (dict json);
}.

Abbreviation ProfileTable := (list ((string * string) * list DerivationEntry)).

Definition transcode_entry : DerivationEntry := {|
  de_job_kind := "transcode"; de_input_media_kind := Some VIDEO;
  de_produces := [{| fs_kind := "mezz"; fs_fact_type := FactDerivation |};
                  {| fs_kind := "preview"; fs_fact_type := FactDerivation |}];
  de_output_class := Some "s-proxy"; de_params := [];
  de_resources := [[("pool", JStr "cpu"); ("count", JInt 8)]] |}.

Definition pfr_index_entry : DerivationEntry := {|
  de_job_kind := "pfr-index"; de_input_media_kind := Some VIDEO;
  de_produces := [{| fs_kind := "pfr-index-v1"; fs_fact_type := FactIndex |}];
  de_output_class := None; de_params := [];
  de_resources := [[("pool", JStr "io"); ("count", JInt 1)]; [("pool", JStr "cpu"); ("count", JInt 1)]] |}.

Definition PROFILES : ProfileTable :=
  [(("s-masters", "hd-review"), [transcode_entry; pfr_index_entry]);
   (("s-masters", "proxy-review"), [transcode_entry])].

Definition known_profile_names (profiles : ProfileTable) : list string :=
  remove_dups ((λ p, p.1.2) <$> profiles).

Definition profile_entries (profiles : ProfileTable) (artifactclass profile_name : string)
    : list DerivationEntry :=
  match filter (λ p, p.1 = (artifactclass, profile_name)) profiles with
  | p :: _ => p.2
  | [] => []
  end.

(** [_validate_unique_job_kinds] *)
Definition unique_job_kinds (entries : list DerivationEntry) : bool :=
  bool_decide (NoDup (de_job_kind <$> entries)).

Definition entry_matches (media_kind : MediaKind) (e : DerivationEntry) : bool :=
  match de_input_media_kind e with
  | None => true
  | Some k => bool_decide (k = media_kind)
  end.

(** [None] is the [ValueError] of a duplicated job kind. *)
Definition entries_for (profiles : ProfileTable) (artifactclass : string)
    (profile_name : option string) (media_kind : MediaKind) : option (list DerivationEntry) :=
  match profile_name with
  | None => Some []
  | Some name =>
      let filtered := filter (λ e, entry_matches media_kind e = true)
                        (profile_entries profiles artifactclass name) in
      if unique_job_kinds filtered then Some filtered else None
  end.

Definition entry_for_job (profiles : ProfileTable) (artifactclass : string)
    (profile_name : option string) (media_kind : MediaKind) (job_kind : string)
    : option (option DerivationEntry) :=
  entries ← entries_for profiles artifactclass profile_name media_kind;
  Some (head (filter (λ e, de_job_kind e = job_kind) entries)).

(** [validate_profiles], run on [PROFILES] when the module is imported *)
Definition entry_valid (e : DerivationEntry) : bool :=
  negb (bool_decide (de_job_kind e = "")) && negb (bool_decide (length (de_produces e) = 0%nat)) &&
  forallb (λ f, negb (bool_decide (fs_kind f = ""))) (de_produces e).

Definition validate_profiles (profiles : ProfileTable) : bool :=
  forallb (λ p, negb (bool_decide (p.1.1 = "")) && negb (bool_decide (p.1.2 = "")) &&
                unique_job_kinds p.2 && forallb entry_valid p.2) profiles.

(** A validated registry never raises at lookup. *)
Lemma entries_for_total profiles artifactclass name media_kind :
  validate_profiles profiles = true → is_Some (entries_for profiles artifactclass name media_kind).
Proof.
  intros Hv. unfold entries_for. destruct name as [name|]; [|by eexists].
  assert (Hu : unique_job_kinds (profile_entries profiles artifactclass name) = true).
  { unfold profile_entries. destruct (filter _ profiles) as [|p l] eqn:E; [done|].
    assert (Hp : p ∈ filter (λ p, p.1 = (artifactclass, name)) profiles) by (rewrite E; left).
    apply list_elem_of_filter in Hp as [_ Hp]. unfold validate_profiles in Hv.
    rewrite forallb_forall in Hv. apply list_elem_of_In in Hp. specialize (Hv p Hp). by split_bools. }
  unfold unique_job_kinds in *. rewrite bool_decide_true; [by eexists|].
  apply bool_decide_eq_true_1 in Hu.
  induction (profile_entries profiles artifactclass name) as [|e l IH]; [constructor|].
  apply NoDup_cons in Hu as [Hn Hu]. rewrite filter_cons. case_decide; [|by apply IH].
  cbn. apply NoDup_cons. split; [|by apply IH].
  intros (e' & He & Hin)%list_elem_of_fmap. apply Hn. apply list_elem_of_fmap. exists e'.
  split; [done|]. by apply list_elem_of_filter in Hin as [_ ?].
Qed.

Lemma registry_valid : validate_profiles PROFILES = true.
Proof. reflexivity. Qed.

Example camera_clip : media_kind_for_path "DCIM/100/CLIP.0001.MOV" = VIDEO.
Proof. reflexivity. Qed.

Example hidden_file : media_kind_for_path ".mov" = OTHER.
Proof. reflexivity. Qed.
