(* ===== verification/Policy.v ===== *)
(** * Artifactclass policies

    [artifactclass_policy.py]: the strict parse of a policy document, the hydration of the persisted
    staging and hdcache tables, and [apply_artifactclass_policy], which upserts the memberships of the
    class and its policy record.  [tomllib.loads] is a parameter: a document is the value it returns,
    with floats as IEEE doubles.  The policy-apply report, which only reads, is left out. *)

From Stdlib Require Import Ascii Floats.SpecFloat.
From S2P Require Import Prelude Json JobModels Catalog Scrub Accumulator BundleGroup.

Inductive toml :=
  | TNull
  | TBool (b : bool)
  | TInt (n : Z)
  | TFloat (f : spec_float)
  | TStr (s : string)
  | TList (l : list toml)
  | TTable (d : list (string * toml))
  | TOther.

Inductive PolicyError :=
  | ArtifactClassPolicyError (message : string)
  | UnknownPolicyPool
  | PolicyFloatError.

(** A persisted JSON document read by the same parsers *)
Fixpoint toml_of_json (j : json) : toml :=
  match j with
  | JNull => TNull
  | JBool b => TBool b
  | JInt n => TInt n
  | JStr s => TStr s
  | JBytes _ => TOther
  | JList l => TList (map toml_of_json l)
  | JObj d => TTable (map (λ kv, (kv.1, toml_of_json kv.2)) d)
  end.

(** ** Policies *)

Record PlacementPolicy := { pp_pool : string; pp_role : option string; pp_active : bool }.

Record BundlingPolicy := { bp_target_gb : spec_float; bp_max_age_seconds : Z }.

Record AppleDoubleStagingPolicy := {
  ap_action : string;
  ap_tool : string;
  ap_on_error : string;
  ap_record : bool;
}.

Record CompressionStagingPolicy := {
  cs_codec : string;
  cs_level : option Z;
  cs_globs : list string;
  cs_min_bytes : option Z;
}.

Record StagingPolicy := { sp_appledouble : AppleDoubleStagingPolicy; sp_compression : CompressionStagingPolicy }.

Record HdcachePolicy := { hp_enabled : bool; hp_privacy_level : string }.

Record DurabilityPolicy := { dp_min_copies : Z; dp_min_impl_families : Z }.

Record ArtifactClassPolicy := {
  po_ruleset : string;
  po_placements : list PlacementPolicy;
  po_bundling : BundlingPolicy;
  po_restore_preference : list string;
  po_expect : string;
  po_staging : StagingPolicy;
  po_hdcache : HdcachePolicy;
  po_durability : DurabilityPolicy;
}.

Definition default_appledouble : AppleDoubleStagingPolicy :=
  {| ap_action := "off"; ap_tool := "sutradhara-parser"; ap_on_error := "hold"; ap_record := true |}.
Definition default_compression : CompressionStagingPolicy :=
  {| cs_codec := "off"; cs_level := None; cs_globs := []; cs_min_bytes := None |}.
Definition default_staging : StagingPolicy :=
  {| sp_appledouble := default_appledouble; sp_compression := default_compression |}.
Definition default_hdcache : HdcachePolicy := {| hp_enabled := false; hp_privacy_level := "none" |}.
Definition default_durability : DurabilityPolicy := {| dp_min_copies := 3; dp_min_impl_families := 2 |}.

Definition appledouble_to_json (p : AppleDoubleStagingPolicy) : dict json :=
  [("action", JStr (ap_action p)); ("tool", JStr (ap_tool p)); ("on_error", JStr (ap_on_error p));
   ("record", JBool (ap_record p))].

Definition compression_to_json (p : CompressionStagingPolicy) : dict json :=
  [("codec", JStr (cs_codec p)); ("globs", JList (JStr <$> cs_globs p))] ++
  match cs_level p with Some n => [("level", JInt n)] | None => [] end ++
  match cs_min_bytes p with Some n => [("min_bytes", JInt n)] | None => [] end.

Definition staging_to_json (p : StagingPolicy) : dict json :=
  [("appledouble", JObj (appledouble_to_json (sp_appledouble p)));
   ("compression", JObj (compression_to_json (sp_compression p)))].

Definition hdcache_to_json (p : HdcachePolicy) : dict json :=
  [("enabled", JBool (hp_enabled p)); ("privacy_level", JStr (hp_privacy_level p))].

(** [int(self.target_gb * 1024**3)] on doubles: infinities and NaN have no integer. *)
Definition GIB : spec_float := S754_finite false (2 ^ 52) (-22).

Definition int_of_float (f : spec_float) : result PolicyError Z :=
  match f with
  | S754_zero _ => Ok 0
  | S754_finite s m e =>
      let n := if 0 <=? e then Z.pos m * 2 ^ e else Z.pos m / 2 ^ (- e) in
      Ok (if s then - n else n)
  | _ => Err PolicyFloatError
  end.

Definition target_bytes (b : BundlingPolicy) : result PolicyError Z :=
  int_of_float (SFmul 53 1024 (bp_target_gb b) GIB).

(** ** Field parsers *)

Definition policy_error {A} (message : string) : result PolicyError A := Err (ArtifactClassPolicyError message).

Definition require_keys (d : dict toml) (required : list string) : result PolicyError unit :=
  raise_if (existsb (λ r, negb (bool_decide (r ∈ dkeys d))) required)
    (ArtifactClassPolicyError "missing required key(s)").

Definition reject_keys (d : dict toml) (allowed : list string) : result PolicyError unit :=
  raise_if (existsb (λ r, negb (bool_decide (r ∈ allowed))) (dkeys d))
    (ArtifactClassPolicyError "unknown key(s)").

Definition required_table (raw : toml) : result PolicyError (dict toml) :=
  match raw with TTable d => Ok d | _ => policy_error "must be a table" end.

Definition required_str (raw : toml) : result PolicyError string :=
  match raw with TStr (String c s) => Ok (String c s) | _ => policy_error "must be a non-empty string" end.

(** [table.get(key)] *)
Definition tget (key : string) (d : dict toml) : toml := default TNull (dget key d).

Definition optional_str (raw : toml) (dflt : string) : result PolicyError string :=
  match raw with TNull => Ok dflt | _ => required_str raw end.

Definition optional_int (raw : toml) : result PolicyError (option Z) :=
  match raw with
  | TNull => Ok None
  | TInt n => Ok (Some n)
  | _ => policy_error "must be an integer"
  end.

Definition positive_int (raw : toml) : result PolicyError Z :=
  match raw with
  | TInt n => _ ← raise_if (n <? 1) (ArtifactClassPolicyError "must be >= 1"); Ok n
  | _ => policy_error "must be an integer"
  end.

(** [table.get(key, dflt)] that has to be a bool *)
Definition bool_at (key : string) (d : dict toml) (dflt : bool) : result PolicyError bool :=
  match dget key d with
  | None => Ok dflt
  | Some (TBool b) => Ok b
  | Some _ => policy_error "must be a boolean"
  end.

(** [value <= 0] on a double; a comparison with NaN is false. *)
Definition not_positive (f : spec_float) : bool :=
  match f with
  | S754_zero _ => true
  | S754_infinity s | S754_finite s _ _ => s
  | S754_nan => false
  end.

Definition positive_number (raw : toml) : result PolicyError spec_float :=
  match raw with
  | TInt n =>
      let value := binary_normalize 53 1024 n 0 false in
      match value with
      | S754_infinity _ => Err PolicyFloatError
      | _ => _ ← raise_if (not_positive value) (ArtifactClassPolicyError "must be positive"); Ok value
      end
  | TFloat value => _ ← raise_if (not_positive value) (ArtifactClassPolicyError "must be positive"); Ok value
  | _ => policy_error "must be a positive number"
  end.

Definition digit_value (c : ascii) : option Z :=
  let n := Z.of_nat (nat_of_ascii c) in
  if (48 <=? n) && (n <=? 57) then Some (n - 48) else None.

(** [[1-9][0-9]*] from the front: the value, once a digit was read, and the rest *)
Fixpoint read_digits (acc : Z) (s : string) : Z * string :=
  match s with
  | String c t => match digit_value c with Some d => read_digits (acc * 10 + d) t | None => (acc, s) end
  | EmptyString => (acc, s)
  end.

Definition duration_multiplier (unit : string) : option Z :=
  if decide (unit = "s") then Some 1 else if decide (unit = "m") then Some 60
  else if decide (unit = "h") then Some 3600 else if decide (unit = "d") then Some 86400 else None.

(** The [$] of the pattern also matches before a final newline. *)
Definition strip_newline (s : string) : string :=
  match s with
  | String c (String n EmptyString) => if decide (n = ascii_of_nat 10) then String c "" else s
  | _ => s
  end.

Definition duration_text (s : string) : option Z :=
  match s with
  | String c _ =>
      match digit_value c with
      | Some d =>
          if d =? 0 then None
          else let '(n, rest) := read_digits 0 s in Z.mul n <$> duration_multiplier (strip_newline rest)
      | None => None
      end
  | EmptyString => None
  end.

Definition duration_seconds (raw : toml) : result PolicyError Z :=
  match raw with
  | TInt n => _ ← raise_if (n <=? 0) (ArtifactClassPolicyError "must be positive"); Ok n
  | TStr s =>
      match duration_text s with
      | Some n => Ok n
      | None => policy_error "must be a duration like '48h', '7d', '30m', or '60s'"
      end
  | _ => policy_error "must be a duration like '48h' or integer seconds"
  end.

Fixpoint required_strs (l : list toml) : result PolicyError (list string) :=
  match l with
  | [] => Ok []
  | x :: l => s ← required_str x; rest ← required_strs l; Ok (s :: rest)
  end.

Definition str_tuple (raw : toml) : result PolicyError (list string) :=
  match raw with
  | TStr s => Ok [s]
  | TList l => required_strs l
  | _ => policy_error "must be a string or string array"
  end.

(** ** Tables *)

Definition parse_placement (raw : toml) : result PolicyError PlacementPolicy :=
  table ← required_table raw;
  _ ← require_keys table ["pool"];
  _ ← reject_keys table ["pool"; "role"; "active"];
  active ← bool_at "active" table true;
  pool ← required_str (tget "pool" table);
  role ← match tget "role" table with TNull => Ok None | r => s ← required_str r; Ok (Some s) end;
  Ok {| pp_pool := pool; pp_role := role; pp_active := active |}.

Fixpoint parse_placements (l : list toml) : result PolicyError (list PlacementPolicy) :=
  match l with
  | [] => Ok []
  | x :: l => p ← parse_placement x; rest ← parse_placements l; Ok (p :: rest)
  end.

Definition one_of (value : string) (values : list string) : result PolicyError unit :=
  raise_if (negb (bool_decide (value ∈ values))) (ArtifactClassPolicyError "must be one of the known values").

Definition parse_appledouble (raw : toml) : result PolicyError AppleDoubleStagingPolicy :=
  match raw with
  | TNull => Ok default_appledouble
  | _ =>
      table ← required_table raw;
      _ ← reject_keys table ["action"; "tool"; "on_error"; "record"];
      action ← optional_str (tget "action" table) "off";
      _ ← one_of action ["off"; "merge-to-xattrs"];
      tool ← optional_str (tget "tool" table) "sutradhara-parser";
      _ ← one_of tool ["netatalk-ad"; "sutradhara-parser"];
      on_error ← optional_str (tget "on_error" table) "hold";
      _ ← one_of on_error ["hold"; "fail"];
      record ← bool_at "record" table true;
      _ ← raise_if (bool_decide (action = "merge-to-xattrs") && negb record)
            (ArtifactClassPolicyError "record must be true when merging AppleDouble");
      Ok {| ap_action := action; ap_tool := tool; ap_on_error := on_error; ap_record := record |}
  end.

Definition parse_compression (raw : toml) : result PolicyError CompressionStagingPolicy :=
  match raw with
  | TNull => Ok default_compression
  | _ =>
      table ← required_table raw;
      _ ← reject_keys table ["codec"; "level"; "globs"; "min_bytes"];
      codec ← optional_str (tget "codec" table) "off";
      _ ← one_of codec ["off"; "zstd"];
      level ← optional_int (tget "level" table);
      _ ← raise_if (bool_decide (codec = "zstd") && bool_decide (level = None))
            (ArtifactClassPolicyError "level is required when codec='zstd'");
      _ ← raise_if (match level with Some n => negb ((1 <=? n) && (n <=? 22)) | None => false end)
            (ArtifactClassPolicyError "level must be between 1 and 22");
      globs ← str_tuple (default (TList []) (dget "globs" table));
      min_bytes ← optional_int (tget "min_bytes" table);
      _ ← raise_if (match min_bytes with Some n => n <? 0 | None => false end)
            (ArtifactClassPolicyError "min_bytes must be non-negative");
      Ok {| cs_codec := codec; cs_level := level; cs_globs := globs; cs_min_bytes := min_bytes |}
  end.

Definition parse_staging (raw : toml) : result PolicyError StagingPolicy :=
  match raw with
  | TNull => Ok default_staging
  | _ =>
      table ← required_table raw;
      _ ← reject_keys table ["appledouble"; "compression"];
      appledouble ← parse_appledouble (tget "appledouble" table);
      compression ← parse_compression (tget "compression" table);
      Ok {| sp_appledouble := appledouble; sp_compression := compression |}
  end.

(** [re.fullmatch(r"p[1-9][0-9]*", level)] *)
Definition privacy_level_ok (level : string) : bool :=
  match level with
  | String p (String c rest) =>
      bool_decide (p = "p"%char) &&
      match digit_value c with Some d => negb (d =? 0) | None => false end &&
      bool_decide ((read_digits 0 rest).2 = "")
  | _ => false
  end.

Definition parse_hdcache (raw : toml) : result PolicyError HdcachePolicy :=
  match raw with
  | TNull => Ok default_hdcache
  | _ =>
      table ← required_table raw;
      _ ← reject_keys table ["enabled"; "privacy_level"];
      enabled ← bool_at "enabled" table false;
      level ← optional_str (tget "privacy_level" table) "none";
      _ ← raise_if (negb (bool_decide (level = "none")) && negb (privacy_level_ok level))
            (ArtifactClassPolicyError "privacy_level must be 'none' or a p<N> level");
      Ok {| hp_enabled := enabled; hp_privacy_level := level |}
  end.

Definition parse_durability (raw : toml) : result PolicyError DurabilityPolicy :=
  match raw with
  | TNull => Ok default_durability
  | _ =>
      table ← required_table raw;
      _ ← require_keys table ["min_copies"; "min_impl_families"];
      _ ← reject_keys table ["min_copies"; "min_impl_families"];
      min_copies ← positive_int (tget "min_copies" table);
      min_impl_families ← positive_int (tget "min_impl_families" table);
      Ok {| dp_min_copies := min_copies; dp_min_impl_families := min_impl_families |}
  end.

Definition staging_policy_from_json (raw : json) : result PolicyError StagingPolicy :=
  parse_staging (toml_of_json raw).

Definition hdcache_policy_from_json (raw : json) : result PolicyError HdcachePolicy :=
  parse_hdcache (toml_of_json raw).

Fixpoint has_duplicate (seen : list string) (ids : list string) : bool :=
  match ids with
  | [] => false
  | i :: ids => bool_decide (i ∈ seen) || has_duplicate (i :: seen) ids
  end.

(** [parse_artifactclass_policy] on the document [tomllib.loads] returned *)
Definition parse_artifactclass_policy (raw : dict toml) : result PolicyError ArtifactClassPolicy :=
  _ ← require_keys raw ["ruleset"; "placements"; "bundling"; "restore"; "expect"];
  _ ← reject_keys raw ["ruleset"; "placements"; "bundling"; "restore"; "expect"; "staging"; "hdcache"; "durability"];
  ruleset ← required_str (tget "ruleset" raw);
  expect ← required_str (tget "expect" raw);
  _ ← one_of expect ["compliant"; "messy"];
  placements_raw ← match tget "placements" raw with
                   | TList (x :: l) => Ok (x :: l)
                   | _ => policy_error "placements must be a non-empty array"
                   end;
  placements ← parse_placements placements_raw;
  _ ← raise_if (has_duplicate [] (pp_pool <$> placements))
        (ArtifactClassPolicyError "placements contain duplicate pool");
  bundling_raw ← required_table (tget "bundling" raw);
  _ ← require_keys bundling_raw ["target_gb"; "max_age"];
  _ ← reject_keys bundling_raw ["target_gb"; "max_age"];
  target_gb ← positive_number (tget "target_gb" bundling_raw);
  max_age ← duration_seconds (tget "max_age" bundling_raw);
  restore_raw ← required_table (tget "restore" raw);
  _ ← require_keys restore_raw ["preference"];
  _ ← reject_keys restore_raw ["preference"];
  preference ← str_tuple (tget "preference" restore_raw);
  _ ← raise_if (bool_decide (preference = [])) (ArtifactClassPolicyError "restore.preference must not be empty");
  staging ← parse_staging (tget "staging" raw);
  hdcache ← parse_hdcache (tget "hdcache" raw);
  durability ← parse_durability (tget "durability" raw);
  Ok {| po_ruleset := ruleset; po_placements := placements;
        po_bundling := {| bp_target_gb := target_gb; bp_max_age_seconds := max_age |};
        po_restore_preference := preference; po_expect := expect; po_staging := staging;
        po_hdcache := hdcache; po_durability := durability |}.

(** ** Applying *)

(** [hdcache_privacy_capability_map_from_env], with the value of the variable *)
Definition hdcache_privacy_capabilities (json_loads : string → option json) (env : option string)
    : result PolicyError (gmap string string) :=
  match env with
  | None | Some "" => Ok (<["p2" := "can_restore_p2"]> {["p3" := "can_restore_p3"]})
  | Some raw =>
      match json_loads raw with
      | Some (JObj d) =>
          foldl (λ acc kv,
            result ← acc;
            _ ← raise_if (bool_decide (kv.1 = ""))
                  (ArtifactClassPolicyError "hdcache privacy capability levels must be strings");
            match kv.2 with
            | JStr (String c s) => Ok (<[kv.1 := String c s]> result)
            | _ => policy_error "hdcache privacy capabilities must be strings"
            end) (Ok ∅) d
      | _ => policy_error "SUTRADHARA_HDCACHE_PRIVACY_CAPABILITIES must be a JSON object"
      end
  end.

Definition validate_hdcache_privacy (capabilities : result PolicyError (gmap string string)) (policy : ArtifactClassPolicy)
    : result PolicyError unit :=
  let level := hp_privacy_level (po_hdcache policy) in
  if decide (level = "none") then Ok tt
  else
    mapping ← capabilities;
    raise_if (bool_decide (mapping !! level = None))
      (ArtifactClassPolicyError "hdcache privacy_level has no configured restore capability").

Definition accepts_writes (k : Cat) (pool : string) : bool :=
  match pools k !! pool with Some p => pl_accepts_writes p | None => false end.

Definition pool_family (k : Cat) (pool : string) : option string :=
  p ← pools k !! pool; b ← backends k !! pl_backend_id p; non_empty (be_implementation_family b).

Definition eligible_placements (k : Cat) (policy : ArtifactClassPolicy) : list string :=
  pp_pool <$> filter (λ p, (pp_active p && accepts_writes k (pp_pool p)) = true) (po_placements policy).

Definition validate_write_eligible_floor (k : Cat) (policy : ArtifactClassPolicy) : result PolicyError unit :=
  let eligible := eligible_placements k policy in
  let families := remove_dups (omap (pool_family k) eligible) in
  raise_if (negb ((dp_min_copies (po_durability policy) <=? Z.of_nat (length eligible)) &&
                  (dp_min_impl_families (po_durability policy) <=? Z.of_nat (length families))))
    (ArtifactClassPolicyError "write-eligible pools cannot satisfy durability floor").

(** The id SQLite gives to a new membership *)
Definition next_membership_id (k : Cat) : Z :=
  1 + foldr Z.max 0 ((λ e, acp_id e.2) <$> map_to_list (acpools k)).

Definition upsert_membership (artifactclass : string) (k : Cat) (ip : nat * PlacementPolicy) : Cat :=
  let key := (artifactclass, pp_pool ip.2) in
  let id := match acpools k !! key with Some m => acp_id m | None => next_membership_id k end in
  with_acpools (<[key := {| acp_id := id; acp_role := pp_role ip.2; acp_active := pp_active ip.2;
                            acp_sort_order := Z.of_nat ip.1 |}]> (acpools k)) k.

Definition deactivate (m : ArtifactClassPool) : ArtifactClassPool :=
  {| acp_id := acp_id m; acp_role := acp_role m; acp_active := false; acp_sort_order := acp_sort_order m |}.

Definition deactivate_absent (artifactclass : string) (listed : list string) (k : Cat) : Cat :=
  with_acpools (map_imap (λ key m, Some (if decide (key.1 = artifactclass ∧ key.2 ∉ listed) then deactivate m else m))
                  (acpools k)) k.

Definition policy_record (k : Cat) (artifactclass : string) (policy : ArtifactClassPolicy) (target : Z)
    (source digest : option string) : ArtifactClassPolicyRecord := {|
  pr_bundle_group := r ← policies k !! artifactclass; pr_bundle_group r; pr_target_bytes := target;
  pr_max_age_seconds := bp_max_age_seconds (po_bundling policy);
  pr_min_copies := dp_min_copies (po_durability policy);
  pr_min_impl_families := dp_min_impl_families (po_durability policy); pr_ruleset := po_ruleset policy;
  pr_expect := po_expect policy; pr_restore_preference := po_restore_preference policy;
  pr_staging_config := staging_to_json (po_staging policy);
  pr_hdcache_config := hdcache_to_json (po_hdcache policy); pr_policy_source := source;
  pr_policy_sha256 := digest |}.

Definition apply_artifactclass_policy (sha256_hex : string → string) (json_loads : string → option json)
    (env : option string) (k : Cat) (artifactclass : string) (policy : ArtifactClassPolicy)
    (source source_text : option string) : result PolicyError Cat :=
  let pool_ids := pp_pool <$> po_placements policy in
  _ ← raise_if (existsb (λ p, bool_decide (pools k !! p = None)) pool_ids) UnknownPolicyPool;
  _ ← raise_if (existsb (λ p, bool_decide (pools k !! p = None)) (po_restore_preference policy))
        (ArtifactClassPolicyError "restore.preference references unknown pools");
  _ ← validate_write_eligible_floor k policy;
  _ ← validate_hdcache_privacy (hdcache_privacy_capabilities json_loads env) policy;
  let k := foldl (upsert_membership artifactclass) k (imap pair (po_placements policy)) in
  let k := deactivate_absent artifactclass pool_ids k in
  target ← target_bytes (po_bundling policy);
  let row := policy_record k artifactclass policy target source (sha256_hex <$> source_text) in
  let k := with_policies (<[artifactclass := row]> (policies k)) k in
  Ok (refresh_bundle_group_projections sha256_hex k [artifactclass]).
