(* ===== verification/PolicyFacts.v ===== *)
(** * Correctness of artifactclass policies

    What a document that parses guarantees, that the persisted tables hydrate to it, and what an
    apply leaves in the catalog. *)

From Stdlib Require Import Ascii Floats.SpecFloat.
From S2P Require Import Prelude Json JobModels Catalog Scrub Accumulator Durability BundleGroup BundleGroupFacts Policy.

(** ** The parse *)


Lemma required_str_Ok raw s : required_str raw = Ok s → raw = TStr s ∧ s ≠ "".
Proof. destruct raw as [| | | |[|c t]| | |]; cbn; intros; by simplify_eq. Qed.

Lemma optional_str_Ok raw dflt s : optional_str raw dflt = Ok s → dflt ≠ "" → s ≠ "".
Proof.
  intros H Hd. destruct raw as [| | | |[|c t]| | |]; cbn in H; by simplify_eq.
Qed.











(** ** Hydration *)






(** ** Applying *)

Section apply.
Context (sha256_hex : string → string) (json_loads : string → option json) (env : option string).
Context (a : string).

Lemma upserts_frame k l : ∃ x, foldl (upsert_membership a) k l = with_acpools x k.
Proof.
  revert k. induction l as [|ip l IH]; intros k; cbn; [exists (acpools k); by destruct k|].
  destruct (IH (upsert_membership a k ip)) as [x ->]. by exists x.
Qed.

(** The membership a placement at position [n] leaves *)
Definition membership_of (n : nat) (p : PlacementPolicy) (m : ArtifactClassPool) : Prop :=
  acp_role m = pp_role p ∧ acp_active m = pp_active p ∧ acp_sort_order m = Z.of_nat n.

Lemma upserts_keep k l key :
  key.1 ≠ a ∨ key.2 ∉ (pp_pool ∘ snd <$> l) →
  acpools (foldl (upsert_membership a) k l) !! key = acpools k !! key.
Proof.
  revert k. induction l as [|ip l IH]; intros k Hk; [done|]. cbn [foldl].
  rewrite IH by set_solver. cbn. rewrite lookup_insert_ne; [done|]. intros <-. set_solver.
Qed.

Lemma upserts_set k l n p :
  NoDup (pp_pool ∘ snd <$> l) → (n, p) ∈ l →
  ∃ m, acpools (foldl (upsert_membership a) k l) !! (a, pp_pool p) = Some m ∧ membership_of n p m.
Proof.
  revert k. induction l as [|ip l IH]; intros k Hnd Hin; [by apply elem_of_nil in Hin|].
  rewrite fmap_cons, NoDup_cons in Hnd. destruct Hnd as [Hnew Hnd].
  apply elem_of_cons in Hin as [<-|Hin]; [|by apply IH]. cbn [foldl].
  rewrite upserts_keep by (right; exact Hnew). cbn. rewrite lookup_insert_eq. eexists. split; [done|]. by split_and!.
Qed.

Lemma elem_imap_pair {A} (l : list A) n x : (n, x) ∈ imap pair l ↔ l !! n = Some x.
Proof.
  rewrite list_elem_of_lookup. setoid_rewrite list_lookup_imap. split.
  - intros (i & H). apply fmap_Some in H as (y & Hy & [= -> ->]). done.
  - intros H. exists n. by rewrite H.
Qed.

Lemma imap_pair_snd {A B} (f : A → B) (l : list A) : f ∘ snd <$> imap pair l = f <$> l.
Proof.
  apply list_eq. intros i. rewrite !list_lookup_fmap, list_lookup_imap. by destruct (l !! i).
Qed.

(** The memberships after an apply *)
Lemma applied_memberships k ps key :
  NoDup (pp_pool <$> ps) →
  let k' := deactivate_absent a (pp_pool <$> ps) (foldl (upsert_membership a) k (imap pair ps)) in
  (key.1 ≠ a → acpools k' !! key = acpools k !! key) ∧
  (∀ n p, ps !! n = Some p → ∃ m, acpools k' !! (a, pp_pool p) = Some m ∧ membership_of n p m) ∧
  (∀ q m, q ∉ (pp_pool <$> ps) → acpools k' !! (a, q) = Some m → acp_active m = false).
Proof.
  intros Hnd k'. rewrite <- (imap_pair_snd pp_pool) in Hnd.
  assert (Hk' : ∀ key, acpools k' !! key =
    m ← acpools (foldl (upsert_membership a) k (imap pair ps)) !! key;
    Some (if decide (key.1 = a ∧ key.2 ∉ (pp_pool <$> ps)) then deactivate m else m)) by (intros; apply map_lookup_imap).
  split_and!.
  - intros Hne. rewrite Hk', upserts_keep by (by left). destruct (acpools k !! key); cbn; [|done].
    by rewrite decide_False by naive_solver.
  - intros n p Hn. apply elem_imap_pair in Hn as Hin. destruct (upserts_set k _ n p Hnd Hin) as (m & Hm & Ho).
    exists m. rewrite Hk', Hm. cbn. rewrite decide_False; [done|]. intros [_ Hout]. apply Hout.
    apply list_elem_of_fmap. exists p. split; [done|]. by eapply list_elem_of_lookup_2.
  - intros q m Hq. rewrite Hk'. destruct (_ !! (a, q)) as [m0|]; cbn; [|done].
    rewrite decide_True by done. by intros [= <-].
Qed.

Lemma has_duplicate_NoDup seen l : has_duplicate seen l = false → NoDup l ∧ ∀ x, x ∈ l → x ∉ seen.
Proof.
  revert seen. induction l as [|x l IH]; intros seen H; cbn in H; [split; [constructor|set_solver]|].
  apply orb_false_iff in H as [Hx%bool_decide_eq_false H]. apply IH in H as [Hnd Hs].
  split; [constructor; [|done]; intros Hin; apply (Hs _ Hin); left|]. set_solver.
Qed.

Lemma read_digits_ge s : ∀ acc, 0 <= acc → acc <= (read_digits acc s).1.
Proof.
  induction s as [|c s IH]; intros acc Hacc; cbn; [done|].
  unfold digit_value. case_bool; [|done]. split_bools.
  etrans; [|apply IH; lia]. lia.
Qed.

Lemma duration_positive raw n : duration_seconds raw = Ok n → 0 < n.
Proof.
  destruct raw as [| |z| |s| | |]; cbn; try done; intros H.
  - inv_ok. by split_bools.
  - destruct (duration_text s) as [m|] eqn:E; [|done]. injection H as ->.
    destruct s as [|c s]; [done|]. cbn in E. unfold digit_value in E. case_bool; [|done]. case_bool; [done|].
    destruct (read_digits _ s) as [v rest] eqn:Er. apply fmap_Some in E as (mu & Hmu & ->).
    split_bools. pose proof (read_digits_ge s (0 * 10 + (Z.of_nat (Ascii.nat_of_ascii c) - 48)) ltac:(lia)) as Hge.
    rewrite Er in Hge. cbn in Hge. assert (0 < mu); [|nia].
    unfold duration_multiplier in Hmu. repeat case_decide; simplify_eq; lia.
Qed.

Lemma parsed_policy raw p :
  parse_artifactclass_policy raw = Ok p →
  NoDup (pp_pool <$> po_placements p) ∧ 0 < bp_max_age_seconds (po_bundling p) ∧
  1 <= dp_min_copies (po_durability p).
Proof.
  intros H. unfold parse_artifactclass_policy in H. inv_ok. cbn. split_and!.
  - by eapply has_duplicate_NoDup.
  - by eapply duration_positive.
  - match goal with H : parse_durability ?r = Ok _ |- _ => unfold parse_durability in H; destruct r end; inv_ok; try done.
    cbn. match goal with H : positive_int ?r = Ok ?n |- 1 <= ?n => destruct r; try done; cbn in H; inv_ok end.
    split_bools. lia.
Qed.

(** The floor the apply checked is met by pools the class is actively placed on. *)
Lemma eligible_floor k k' p r :
  NoDup (pp_pool <$> po_placements p) → validate_write_eligible_floor k p = Ok tt →
  pools k' = pools k → backends k' = backends k →
  (∀ n pl, po_placements p !! n = Some pl → ∃ m, acpools k' !! (a, pp_pool pl) = Some m ∧ membership_of n pl m) →
  pr_min_copies r = dp_min_copies (po_durability p) →
  pr_min_impl_families r = dp_min_impl_families (po_durability p) → floors_writable k' a r.
Proof.
  intros Hnd Hv Hp Hb Hm Hc Hf. unfold validate_write_eligible_floor in Hv. apply raise_if_Ok in Hv. split_bools.
  set (es := eligible_placements k p) in *.
  assert (Hes : ∀ q, q ∈ es → ∃ pool, pools k !! q = Some pool ∧ pl_accepts_writes pool = true ∧
    ∃ n pl, po_placements p !! n = Some pl ∧ pp_pool pl = q ∧ pp_active pl = true).
  { intros q Hq. apply list_elem_of_fmap in Hq as (pl & -> & Hq). apply list_elem_of_filter in Hq as [Hw Hq].
    unfold accepts_writes in Hw. destruct (pools k !! pp_pool pl) as [pool|] eqn:Ep; [|by rewrite andb_false_r in Hw].
    apply andb_true_iff in Hw as [? ?]. apply list_elem_of_lookup in Hq as [n Hn]. exists pool. eauto 8. }
  assert (Hnde : NoDup es).
  { unfold es, eligible_placements. eapply sublist_NoDup; [exact Hnd|]. apply fmap_sublist, sublist_filter. }
  set (ps := omap (λ q, (q,.) <$> pools k !! q) es).
  assert (Hfst : ps.*1 = es).
  { unfold ps. clear Hnde. revert Hes. generalize es. intros l. induction l as [|q l IH]; intros Hes; [done|]. cbn.
    destruct (Hes q) as (pool & -> & _); [left|]. cbn. by rewrite IH by (intros; apply Hes; by right). }
  exists ps. split_and!.
  - by rewrite Hfst.
  - intros q pool Hin. apply list_elem_of_omap in Hin as (q' & Hq & Heq). apply fmap_Some in Heq as (po & Hpo & [= -> ->]).
    destruct (Hes _ Hq) as (pool' & Hpool & Hw & n & pl & Hn & <- & Hact). simplify_eq.
    destruct (Hm _ _ Hn) as (m & Hacp & _ & Ha & _). exists m. rewrite Hp. split_and!; congruence.
  - rewrite Hc. rewrite <- (length_fmap fst ps), Hfst. done.
  - rewrite Hf. etrans; [eassumption|]. apply inj_le.
    apply submseteq_length, NoDup_submseteq; [apply NoDup_remove_dups|]. intros f Hin.
    apply elem_of_remove_dups, list_elem_of_omap in Hin as (q & Hq & Hfam).
    unfold eligible_families. apply elem_of_remove_dups, list_elem_of_fmap.
    unfold pool_family in Hfam. destruct (pools k !! q) as [pool|] eqn:Eq; cbn in Hfam; [|done].
    destruct (backends k !! pl_backend_id pool) as [b|] eqn:Eb; cbn in Hfam; [|done].
    exists (q, pool). cbn. rewrite Hb, Eb. unfold non_empty in Hfam. case_decide; simplify_eq. split; [done|].
    apply list_elem_of_omap. exists q. by rewrite Eq.
Qed.

(** A class with an active placement, positive targets and positive ages opens an accumulator. *)
Lemma thresholds_defined k r g q rep :
  placed_on k a q rep → 0 < pr_target_bytes r → 0 < pr_max_age_seconds r →
  (∀ b r', policies k !! b = Some r' → 0 < pr_max_age_seconds r') →
  ∃ t age, effective_group_thresholds k a r g (compute_group_basis k a) = Ok (t, age).
Proof.
  intros Hpl%elem_active_placements Ht Ha Hall. unfold effective_group_thresholds.
  set (basis := compute_group_basis k a).
  assert (Hb : basis ≠ []).
  { unfold basis, compute_group_basis. intros H%fmap_nil_inv. apply (elem_of_sort_by fst) in Hpl. rewrite H in Hpl.
    by apply elem_of_nil in Hpl. }
  rewrite bool_decide_false by done. cbn [raise_if mbind result_bind].
  destruct (declared_target_max k a r g basis) as [Hub _].
  destruct (max_age_min k a r g basis) as [_ (t & Hmin)].
  pose proof (Hub _ _ (opener_declares k a r g)) as Hge.
  assert (Htgt : 0 < gt_target_bytes (group_thresholds k a r g basis)).
  { rewrite target_bytes_eq. eapply Z.lt_le_trans; [exact Ht|]. etrans; [exact Hge|]. apply max_from_ub. left. }
  assert (Hage : 0 < gt_max_age_seconds (group_thresholds k a r g basis)).
  { destruct Hmin as [[_ Hm]|(b & r' & _ & Hr' & _ & _ & Hm)]; rewrite Hm; eauto. }
  apply Z.leb_gt in Htgt as ->. apply Z.leb_gt in Hage as ->. cbn. eauto.
Qed.

(** What an apply leaves, before the projection is refreshed *)
Lemma applied_catalog k p source text k' :
  apply_artifactclass_policy sha256_hex json_loads env k a p source text = Ok k' →
  ∃ target k1, target_bytes (po_bundling p) = Ok target ∧ validate_write_eligible_floor k p = Ok tt ∧
    (∀ q, q ∈ (pp_pool <$> po_placements p) → is_Some (pools k !! q)) ∧
    k1 = deactivate_absent a (pp_pool <$> po_placements p)
           (foldl (upsert_membership a) k (imap pair (po_placements p))) ∧
    (∃ x, k1 = with_acpools x k) ∧
    k' = refresh_bundle_group_projections sha256_hex
           (with_policies (<[a := policy_record k a p target source (sha256_hex <$> text)]> (policies k1)) k1) [a].
Proof.
  intros H. unfold apply_artifactclass_policy in H.
  apply bind_Ok in H as ([] & Hpools%raise_if_Ok & H). apply bind_Ok in H as ([] & _ & H).
  apply bind_Ok in H as ([] & Hfloor & H). apply bind_Ok in H as ([] & _ & H).
  apply bind_Ok in H as (target & Ht & [= <-]).
  destruct (upserts_frame k (imap pair (po_placements p))) as [x Hx].
  eexists target, _. split_and!; [done|done| |done|rewrite Hx; by eexists|].
  - intros q Hq. destruct (pools k !! q) eqn:E; [by eexists|]. exfalso. apply not_true_iff_false in Hpools.
    apply Hpools, existsb_exists. exists q. split; [by apply list_elem_of_In|by apply bool_decide_eq_true].
  - by rewrite Hx.
Qed.

Lemma fresh_elsewhere k k' :
  (∀ b r, policies k' !! b = Some r →
     pr_bundle_group r = Some (fingerprint_basis sha256_hex (compute_group_basis k' b)) ∨
     policies k !! b = Some r ∧ compute_group_basis k' b = compute_group_basis k b) →
  projections_fresh sha256_hex k → projections_fresh sha256_hex k'.
Proof. intros H Hf b r Hb. destruct (H b r Hb) as [|[Hk ->]]; [done|by apply Hf]. Qed.

Lemma refresh_backends k cs : backends (refresh_bundle_group_projections sha256_hex k cs) = backends k.
Proof.
  unfold refresh_bundle_group_projections. revert k. induction cs as [|c cs IH]; intros k; [done|]. cbn [foldl].
  rewrite IH. unfold refresh_projection. by destruct (policies k !! c).
Qed.

Lemma floors_placed k r : floors_writable k a r → 1 <= pr_min_copies r → ∃ q rep, placed_on k a q rep.
Proof.
  intros ([|[q pool] ps] & _ & Hw & Hlen & _) Hc; [cbn in Hlen; lia|].
  destruct (Hw q pool) as (m & Hm & Ha & Hp & _); [left|]. by exists q, (pl_representation pool), m, pool.
Qed.

(** C13: applying a policy document.  When an apply succeeds, the class is placed on exactly the active
    placements of the document and every other class as before; the stored fingerprints are those of
    the live placements; enough distinct pools that accept writes, over enough implementation families,
    carry the declared durability floor; and, unless the target rounds to zero bytes, an accumulator can
    open for the class. *)
Theorem apply_policy_sound k raw p source text k' :
  parse_artifactclass_policy raw = Ok p →
  apply_artifactclass_policy sha256_hex json_loads env k a p source text = Ok k' →
  (projections_fresh sha256_hex k → projections_fresh sha256_hex k') ∧
  (∀ b q rep, placed_on k' b q rep ↔
     if decide (b = a)
     then ∃ pl pool, pl ∈ po_placements p ∧ pp_active pl = true ∧ pp_pool pl = q ∧
            pools k !! q = Some pool ∧ pl_representation pool = rep
     else placed_on k b q rep) ∧
  ∃ r, policies k' !! a = Some r ∧ pr_staging_config r = staging_to_json (po_staging p) ∧
    pr_hdcache_config r = hdcache_to_json (po_hdcache p) ∧ Ok (pr_target_bytes r) = target_bytes (po_bundling p) ∧
    floors_writable k' a r ∧
    (0 < pr_target_bytes r → (∀ b r', policies k !! b = Some r' → 0 < pr_max_age_seconds r') →
     ∃ t age, effective_group_thresholds k' a r (compute_bundle_group sha256_hex k' a).1
                (compute_bundle_group sha256_hex k' a).2 = Ok (t, age)).
Proof.
  intros Hparse Happ. destruct (parsed_policy _ _ Hparse) as (Hnd & Hage & Hcopies).
  destruct (applied_catalog _ _ _ _ _ Happ) as (target & k1 & Ht & Hfloor & Hpools & Hk1 & [x Hx] & Hk').
  pose proof (λ key, applied_memberships k (po_placements p) key Hnd) as Hmem. cbn zeta in Hmem.
  rewrite <- Hk1 in Hmem. set (row := policy_record _ _ _ _ _ _) in Hk'.
  set (k2 := with_policies (<[a := row]> (policies k1)) k1) in Hk'.
  assert (Hp2 : pools k2 = pools k) by (unfold k2; by rewrite Hx).
  assert (Hpol2 : policies k2 = <[a := row]> (policies k)) by (unfold k2; by rewrite Hx).
  assert (Hacp2 : acpools k2 = acpools k1) by done.
  pose proof (λ b, refresh_all_spec sha256_hex [a] k2 b) as Href. rewrite <- Hk' in Href.
  destruct (Href a) as (Hp' & Hacp' & _ & Hpol').
  rewrite Hpol2, lookup_insert_eq in Hpol'. cbn in Hpol'. rewrite decide_True in Hpol' by left.
  assert (Hplaced : ∀ b q rep, placed_on k' b q rep ↔ if decide (b = a) then ∃ pl pool, pl ∈ po_placements p ∧
    pp_active pl = true ∧ pp_pool pl = q ∧ pools k !! q = Some pool ∧ pl_representation pool = rep
    else placed_on k b q rep).
  { intros b q rep. unfold placed_on. rewrite Hp', Hp2, Hacp', Hacp2. destruct (Hmem (b, q)) as (H1 & H2 & H3).
    case_decide as Hb; [subst b|by rewrite H1]. split.
    - intros (m & pool & Hm & Hact & Hpool & Hrep).
      destruct (decide (q ∈ (pp_pool <$> po_placements p))) as [Hin|Hout]; [|by rewrite (H3 _ _ Hout Hm) in Hact].
      apply list_elem_of_fmap in Hin as (pl & -> & Hin). apply list_elem_of_lookup in Hin as Hn. destruct Hn as [n Hn].
      destruct (H2 _ _ Hn) as (m' & Hm' & _ & Ha & _). exists pl, pool. split_and!; congruence.
    - intros (pl & pool & Hin & Hact & <- & Hpool & Hrep). apply list_elem_of_lookup in Hin as [n Hn].
      destruct (H2 _ _ Hn) as (m & Hm & _ & Ha & _). exists m, pool. split_and!; congruence. }
  split; [|split; [exact Hplaced|]].
  - apply fresh_elsewhere. intros b r Hb. destruct (Href b) as (_ & _ & _ & Hb'). rewrite Hb' in Hb.
    apply fmap_Some in Hb as (r0 & Hr0 & ->). rewrite (basis_frame k' k2 b Hp' Hacp').
    case_decide as Hin; [by left|]. right. assert (b ≠ a) by set_solver.
    rewrite Hpol2, lookup_insert_ne in Hr0 by done. split; [done|]. apply same_placements_same_basis. intros q rep.
    transitivity (placed_on k' b q rep); [unfold placed_on; by rewrite Hp', Hacp'|].
    rewrite (Hplaced b q rep). by rewrite decide_False.
  - assert (Hfl : floors_writable k' a (set_bundle_group row (fingerprint_basis sha256_hex (compute_group_basis k2 a)))).
    { eapply (eligible_floor k k' p); [done|done|congruence| | |done|done].
      - rewrite Hk', refresh_backends. unfold k2. by rewrite Hx.
      - intros n pl Hn. rewrite Hacp', Hacp2. destruct (Hmem (a, "")) as (_ & H2 & _). by apply H2. }
    eexists. split; [exact Hpol'|]. split_and!; [done|done|by rewrite Ht|done|]. intros Htgt Hall.
    destruct (floors_placed _ _ Hfl Hcopies) as (q & rep & Hq).
    eapply thresholds_defined; [exact Hq|done|exact Hage|]. intros b r' Hb. destruct (Href b) as (_ & _ & _ & Hb').
    rewrite Hb' in Hb. apply fmap_Some in Hb as (r0 & Hr0 & ->). rewrite Hpol2, lookup_insert_Some in Hr0.
    destruct Hr0 as [[_ <-]|[_ Hr0]]; case_decide; try exact Hage; by apply Hall in Hr0.
Qed.
End apply.
