(* ===== verification/AppleDouble.v ===== *)
(** * AppleDouble sidecars

    The binary parser of [staging.py]: [_parse_appledouble], [_apply_appledouble_entries] and the ATTR
    trailer of the Finder entry.  [struct.unpack_from] raises [struct.error] outside the buffer, which is
    kept apart from the errors the parser reports itself; a slice is clamped to the buffer, as in
    Python. *)

From Stdlib Require Import Ascii.
From S2P Require Import Prelude Json Catalog Scrub Accumulator.

Inductive AppleDoubleError :=
  | SidecarError (message : string)
  | StructError
  | XattrError.

(** ** Slices and big-endian fields *)

Fixpoint stake (n : nat) (s : string) : string :=
  match n, s with S n, String c s => String c (stake n s) | _, _ => "" end.

Fixpoint sdrop (n : nat) (s : string) : string :=
  match n, s with S n, String _ s => sdrop n s | _, _ => s end.

Definition blen (s : bytes) : Z := Z.of_nat (String.length s).

(** [raw[a:b]] with non-negative bounds *)
Definition slice (raw : bytes) (a b : Z) : bytes := stake (Z.to_nat (b - a)) (sdrop (Z.to_nat a) raw).

Fixpoint be_value (acc : Z) (s : bytes) : Z :=
  match s with
  | EmptyString => acc
  | String c s => be_value (acc * 256 + Z.of_nat (nat_of_ascii c)) s
  end.

(** One unsigned field of [n] bytes at [offset] *)
Definition unpack_at (n offset : Z) (raw : bytes) : result AppleDoubleError Z :=
  if (0 <=? offset) && (offset + n <=? blen raw) then Ok (be_value 0 (slice raw offset (offset + n)))
  else Err StructError.

(** ** Entries *)

Definition APPLEDOUBLE_MAGIC : Z := 333319.
Definition APPLEDOUBLE_VERSION : Z := 131072.
Definition APPLEDOUBLE_RESOURCE_FORK : Z := 2.
Definition APPLEDOUBLE_FINDER_INFO : Z := 9.
Definition APPLEDOUBLE_FINDER_INFO_BYTES : Z := 32.
Definition APPLEDOUBLE_ATTR_MAGIC : Z := 1096045650.
Definition APPLEDOUBLE_ATTR_HEADER_BYTES : Z := 36.
Definition APPLEDOUBLE_ATTR_ENTRY_FIXED_BYTES : Z := 11.

Record AppleDoubleEntry := { ade_offset : Z; ade_data : bytes }.

(** The loop over the [n] entries of the table that are left, the next one at [at_] *)
Fixpoint read_entries (n : nat) (raw : bytes) (at_ : Z) (entries : gmap Z AppleDoubleEntry)
    : result AppleDoubleError (gmap Z AppleDoubleEntry) :=
  match n with
  | O => Ok entries
  | S n =>
      entry_id ← unpack_at 4 at_ raw;
      offset ← unpack_at 4 (at_ + 4) raw;
      length ← unpack_at 4 (at_ + 8) raw;
      let stop := offset + length in
      _ ← raise_if ((blen raw <? offset) || (blen raw <? stop) || (stop <? offset))
            (SidecarError "AppleDouble entry points outside the sidecar");
      read_entries n raw (at_ + 12)
        (<[entry_id := {| ade_offset := offset; ade_data := slice raw offset stop |}]> entries)
  end.

Definition parse_sidecar (raw : bytes) : result AppleDoubleError (gmap Z AppleDoubleEntry) :=
  _ ← raise_if (blen raw <? 26) (SidecarError "AppleDouble sidecar is too short");
  magic ← unpack_at 4 0 raw;
  version ← unpack_at 4 4 raw;
  _ ← raise_if (negb (magic =? APPLEDOUBLE_MAGIC) || negb (version =? APPLEDOUBLE_VERSION))
        (SidecarError "AppleDouble sidecar has invalid magic/version");
  entry_count ← unpack_at 2 24 raw;
  _ ← raise_if (blen raw <? 26 + entry_count * 12) (SidecarError "AppleDouble entry table is truncated");
  entries ← read_entries (Z.to_nat entry_count) raw 26 ∅;
  _ ← raise_if (bool_decide (entries !! APPLEDOUBLE_RESOURCE_FORK = None) &&
                bool_decide (entries !! APPLEDOUBLE_FINDER_INFO = None))
        (SidecarError "AppleDouble sidecar has no supported metadata entries");
  Ok entries.

(** ** Extended attributes in the Finder entry *)

Definition starts_with (p s : string) : bool := bool_decide (is_Some (strip_prefix p s)).

Definition linux_xattr_name (name : string) : string :=
  if existsb (λ p, starts_with p name) ["user."; "system."; "security."; "trusted."] then name
  else "user." +:+ name.

(** [(value + 3) & ~3] *)
Definition align4 (value : Z) : Z := Z.land (value + 3) (Z.lnot 3).

Definition outside (raw : bytes) (a b : Z) : bool := (blen raw <? a) || (blen raw <? b) || (b <? a).

Section xattrs.
(** [raw_name[:-1].decode("utf-8")] succeeds *)
Context (utf8 : bytes → bool).

Fixpoint read_attrs (n : nat) (raw : bytes) (attr_start at_ : Z)
    : result AppleDoubleError (list (string * bytes)) :=
  match n with
  | O => Ok []
  | S n =>
      let fixed_end := at_ + APPLEDOUBLE_ATTR_ENTRY_FIXED_BYTES in
      _ ← raise_if (blen raw <? fixed_end) (SidecarError "AppleDouble ATTR entry is truncated");
      value_offset ← unpack_at 4 at_ raw;
      value_length ← unpack_at 4 (at_ + 4) raw;
      _ ← unpack_at 2 (at_ + 8) raw;
      name_length ← unpack_at 1 (at_ + 10) raw;
      _ ← raise_if ((name_length <? 2) || (129 <? name_length))
            (SidecarError "AppleDouble ATTR entry has invalid name length");
      let name_end := fixed_end + name_length in
      _ ← raise_if (blen raw <? name_end) (SidecarError "AppleDouble ATTR entry name is truncated");
      let raw_name := slice raw fixed_end name_end in
      _ ← raise_if (negb (bool_decide (slice raw_name (name_length - 1) name_length = String (ascii_of_nat 0) "")))
            (SidecarError "AppleDouble ATTR entry name is not NUL-terminated");
      let name := slice raw_name 0 (name_length - 1) in
      _ ← raise_if (negb (utf8 name)) (SidecarError "AppleDouble ATTR entry name is not UTF-8");
      let value_start :=
        if outside raw value_offset (value_offset + value_length) then attr_start + value_offset
        else value_offset in
      _ ← raise_if (outside raw value_start (value_start + value_length))
            (SidecarError "AppleDouble ATTR entry data points outside the sidecar");
      rest ← read_attrs n raw attr_start (at_ + align4 (APPLEDOUBLE_ATTR_ENTRY_FIXED_BYTES + name_length));
      Ok ((linux_xattr_name name, slice raw value_start (value_start + value_length)) :: rest)
  end.

Definition parse_attrs (raw : bytes) (attr_start : Z) : result AppleDoubleError (list (string * bytes)) :=
  let header_end := attr_start + APPLEDOUBLE_ATTR_HEADER_BYTES in
  _ ← raise_if (blen raw <? header_end) (SidecarError "AppleDouble ATTR header is truncated");
  magic ← unpack_at 4 attr_start raw;
  data_start ← unpack_at 4 (attr_start + 12) raw;
  data_length ← unpack_at 4 (attr_start + 16) raw;
  attr_count ← unpack_at 2 (attr_start + 34) raw;
  _ ← raise_if (negb (magic =? APPLEDOUBLE_ATTR_MAGIC))
        (SidecarError "AppleDouble ATTR header has invalid magic");
  _ ← raise_if ((blen raw <? data_start) || (blen raw <? data_start + data_length))
        (SidecarError "AppleDouble ATTR data points outside the sidecar");
  read_attrs (Z.to_nat attr_count) raw attr_start header_end.

(** [not trailer.strip(b"\0")] *)
Fixpoint all_nul (s : bytes) : bool :=
  match s with EmptyString => true | String c s => (nat_of_ascii c =? 0)%nat && all_nul s end.

Definition ATTR_MAGIC_BYTES : bytes := "ATTR".

Definition parse_finder_xattrs (raw : bytes) (finder : AppleDoubleEntry)
    : result AppleDoubleError (list (string * bytes)) :=
  let trailer_start := ade_offset finder + APPLEDOUBLE_FINDER_INFO_BYTES in
  let trailer := slice raw trailer_start (ade_offset finder + blen (ade_data finder)) in
  if all_nul trailer then Ok []
  else if starts_with ATTR_MAGIC_BYTES trailer then parse_attrs raw trailer_start
  else if starts_with (String (ascii_of_nat 0) (String (ascii_of_nat 0) ATTR_MAGIC_BYTES)) trailer
  then parse_attrs raw (trailer_start + 2)
  else Err (SidecarError "AppleDouble FinderInfo ATTR trailer has invalid magic").

(** ** Application *)

(** The attributes of the staged file; [accepts] is the kernel's answer to [os.setxattr]. *)
Context (accepts : string → bytes → bool).

Fixpoint set_xattrs (xattrs : gmap string bytes) (l : list (string * bytes))
    : gmap string bytes * result AppleDoubleError (list string) :=
  match l with
  | [] => (xattrs, Ok [])
  | (name, value) :: l =>
      if accepts name value then
        let '(xattrs, r) := set_xattrs (<[name := value]> xattrs) l in
        (xattrs, applied ← r; Ok (name :: applied))
      else (xattrs, Err XattrError)
  end.

Definition RESOURCE_FORK_XATTR : string := "user.com.apple.ResourceFork".
Definition FINDER_INFO_XATTR : string := "user.com.apple.FinderInfo".

(** What is set on a failure stays set. *)
Definition apply_entries (xattrs : gmap string bytes) (raw : bytes) (entries : gmap Z AppleDoubleEntry)
    : gmap string bytes * result AppleDoubleError (list string) :=
  let fork := match entries !! APPLEDOUBLE_RESOURCE_FORK with
              | Some e => [(RESOURCE_FORK_XATTR, ade_data e)]
              | None => []
              end in
  match set_xattrs xattrs fork with
  | (xattrs, Err e) => (xattrs, Err e)
  | (xattrs, Ok applied) =>
      match entries !! APPLEDOUBLE_FINDER_INFO with
      | None => (xattrs, Ok applied)
      | Some finder =>
          if blen (ade_data finder) <? APPLEDOUBLE_FINDER_INFO_BYTES then
            (xattrs, Err (SidecarError "AppleDouble FinderInfo entry is shorter than 32 bytes"))
          else
            match set_xattrs xattrs [(FINDER_INFO_XATTR, slice (ade_data finder) 0 APPLEDOUBLE_FINDER_INFO_BYTES)] with
            | (xattrs, Err e) => (xattrs, Err e)
            | (xattrs, Ok info) =>
                match parse_finder_xattrs raw finder with
                | Err e => (xattrs, Err e)
                | Ok attrs =>
                    let '(xattrs, r) := set_xattrs xattrs attrs in
                    (xattrs, more ← r; Ok (applied ++ info ++ more))
                end
            end
      end
  end.
End xattrs.
