(* ===== verification/AppleDoubleFacts.v ===== *)
(** * Correctness of the AppleDouble parser

    On any bytes it stays inside the buffer and reports its own errors; on a well-formed sidecar it
    returns the entries that were written. *)

From Stdlib Require Import Ascii.
From S2P Require Import Prelude Json Catalog Scrub Accumulator NamingFacts AppleDouble.

(** ** Slices *)

Lemma blen_app s t : blen (s +:+ t) = blen s + blen t.
Proof. unfold blen. rewrite string_length_app. lia. Qed.

Lemma blen_nonneg s : 0 <= blen s.
Proof. unfold blen. lia. Qed.

Lemma sdrop_app s t : sdrop (String.length s) (s +:+ t) = t.
Proof. induction s; cbn; [done|]. done. Qed.

Lemma stake_app s t : stake (String.length s) (s +:+ t) = s.
Proof. induction s as [|c s IH]; [by destruct t|]. cbn. f_equal. exact IH. Qed.

Lemma slice_app pre s post : slice (pre +:+ s +:+ post) (blen pre) (blen pre + blen s) = s.
Proof.
  unfold slice, blen. rewrite Nat2Z.id, sdrop_app.
  replace (Z.to_nat _) with (String.length s) by lia. apply stake_app.
Qed.

Lemma sdrop_length n s : String.length (sdrop n s) = (String.length s - n)%nat.
Proof. revert s. induction n as [|n IH]; intros [|c s]; cbn; [done..|]. apply IH. Qed.

Lemma stake_length n s : String.length (stake n s) = (n `min` String.length s)%nat.
Proof. revert s. induction n as [|n IH]; intros [|c s]; cbn; [done..|]. by rewrite IH. Qed.

Lemma slice_length raw a b : 0 <= a <= b → b <= blen raw → blen (slice raw a b) = b - a.
Proof. intros Ha Hb. unfold slice, blen in *. rewrite stake_length, sdrop_length. lia. Qed.

Lemma be_value_bounds s acc : 0 <= acc → 0 <= be_value acc s < (acc + 1) * 256 ^ blen s.
Proof.
  revert acc. induction s as [|c s IH]; intros acc Hacc; [unfold blen; cbn; lia|]. cbn [be_value].
  pose proof (nat_ascii_bounded c) as Hc.
  assert (Hb : blen (String c s) = 1 + blen s) by (unfold blen; cbn; lia).
  rewrite Hb, Z.pow_add_r by (try apply blen_nonneg; lia).
  destruct (IH (acc * 256 + Z.of_nat (nat_of_ascii c)) ltac:(lia)) as [H1 H2]. split; [done|].
  eapply Z.lt_le_trans; [exact H2|]. pose proof (Z.pow_nonneg 256 (blen s) ltac:(lia)). nia.
Qed.

Lemma unpack_bounds n offset raw v : 0 <= n → unpack_at n offset raw = Ok v → 0 <= v < 256 ^ n.
Proof.
  intros Hn H. unfold unpack_at in H. case_bool; [|done]. split_bools. injection H as <-.
  pose proof (be_value_bounds (slice raw offset (offset + n)) 0 ltac:(lia)) as Hb.
  rewrite slice_length in Hb by lia. replace (offset + n - offset) with n in Hb by lia. lia.
Qed.

Lemma unpack_inside n offset raw : 0 <= offset → offset + n <= blen raw → ∃ v, unpack_at n offset raw = Ok v.
Proof.
  intros H1 H2. unfold unpack_at. apply Z.leb_le in H1 as ->. apply Z.leb_le in H2 as ->. by eexists.
Qed.

(** ** Safety *)

(** The value of an attribute: an attribute entry at [at_] declares its offset, from the start of the
    buffer or from a later base, and its length, and all of its bytes lie in the buffer. *)
Definition within (raw data : bytes) : Prop :=
  ∃ at_ offset len base, unpack_at 4 at_ raw = Ok offset ∧ unpack_at 4 (at_ + 4) raw = Ok len ∧
    0 <= base ∧ base + offset + len <= blen raw ∧ blen data = len ∧
    data = slice raw (base + offset) (base + offset + len).

(** A table row at [at_] declares the entry's offset and length, and all of its bytes lie in the buffer. *)
Definition entry_within (raw : bytes) (e : AppleDoubleEntry) : Prop :=
  0 <= ade_offset e ∧ ade_offset e + blen (ade_data e) <= blen raw ∧
  ade_data e = slice raw (ade_offset e) (ade_offset e + blen (ade_data e)) ∧
  ∃ at_, unpack_at 4 (at_ + 4) raw = Ok (ade_offset e) ∧ unpack_at 4 (at_ + 8) raw = Ok (blen (ade_data e)).

(** No access outside the buffer *)
Definition contained {A} (r : result AppleDoubleError A) : Prop := r ≠ Err StructError.

Lemma contained_bind {A B} (r : result AppleDoubleError A) (f : A → result AppleDoubleError B) :
  contained r → (∀ x, r = Ok x → contained (f x)) → contained (r ≫= f).
Proof. intros Hr Hf. destruct r as [x|e]; cbn; [by apply Hf|]. intros [= ->]. by apply Hr. Qed.

Lemma contained_raise b m : contained (raise_if b (SidecarError m)).
Proof. by destruct b. Qed.

Lemma contained_unpack n offset raw : 0 <= offset → offset + n <= blen raw → contained (unpack_at n offset raw).
Proof. intros H1 H2. by destruct (unpack_inside n offset raw H1 H2) as [v ->]. Qed.

(** A run of checked reads: [raise_if] steps leave their negation, reads their bounds. *)
Ltac contained_step :=
  first
    [ apply contained_bind;
      [ first [apply contained_raise | apply contained_unpack; lia]
      | let x := fresh "v" in let H := fresh "Hv" in intros x H;
        first [ apply raise_if_Ok in H; unfold outside in H; split_bools
              | apply unpack_bounds in H; [cbn in H|lia] ] ] ].

Lemma read_entries_contained n raw at_ es :
  0 <= at_ → at_ + 12 * Z.of_nat n <= blen raw → contained (read_entries n raw at_ es).
Proof.
  revert at_ es. induction n as [|n IH]; intros at_ es H1 H2; [done|]. cbn [read_entries].
  repeat contained_step. apply IH; lia.
Qed.

Lemma read_entries_within n raw at_ es es' :
  (∀ i e, es !! i = Some e → entry_within raw e) → read_entries n raw at_ es = Ok es' →
  ∀ i e, es' !! i = Some e → entry_within raw e.
Proof.
  revert at_ es. induction n as [|n IH]; intros at_ es Hes H; cbn in H; [by injection H as <-|].
  apply bind_Ok in H as (id & _ & H). apply bind_Ok in H as (off & Hoff & H).
  apply bind_Ok in H as (len & Hlen & H). apply bind_Ok in H as ([] & Hb%raise_if_Ok & H). split_bools.
  pose proof Hoff as Hb%unpack_bounds; [|lia]. pose proof Hlen as Hb'%unpack_bounds; [|lia].
  eapply IH; [|exact H]. intros i e.
  rewrite lookup_insert_Some. intros [[_ <-]|[_ He]]; [|by eapply Hes].
  unfold entry_within. cbn [ade_offset ade_data]. rewrite slice_length by lia.
  replace (off + len - off) with len by lia. split_and!; [lia|lia|done|by exists at_].
Qed.

Lemma parse_sidecar_contained raw : contained (parse_sidecar raw).
Proof.
  unfold parse_sidecar. do 6 contained_step.
  apply contained_bind; [apply read_entries_contained; lia|]. intros entries _. by contained_step.
Qed.

Lemma parse_sidecar_within raw entries :
  parse_sidecar raw = Ok entries →
  (∀ i e, entries !! i = Some e → entry_within raw e) ∧
  (is_Some (entries !! APPLEDOUBLE_RESOURCE_FORK) ∨ is_Some (entries !! APPLEDOUBLE_FINDER_INFO)).
Proof.
  intros H. unfold parse_sidecar in H. do 6 apply bind_Ok in H as (? & ? & H).
  apply bind_Ok in H as (es & Hes & H). apply bind_Ok in H as ([] & Hsup%raise_if_Ok & [= <-]). split.
  - eapply read_entries_within; [|exact Hes]. intros i e. by rewrite lookup_empty.
  - apply andb_false_iff in Hsup as [Hs|Hs]; apply bool_decide_eq_false, not_eq_None_Some in Hs; auto.
Qed.

Section xattrs.
Context (utf8 : bytes → bool).

Lemma align4_nonneg v : 0 <= v → 0 <= align4 v.
Proof. intros H. unfold align4. apply Z.land_nonneg. left. lia. Qed.

Lemma read_attrs_contained n raw attr_start at_ :
  0 <= at_ → 0 <= attr_start → contained (read_attrs utf8 n raw attr_start at_).
Proof.
  revert at_. induction n as [|n IH]; intros at_ H1 H2; [done|]. cbn [read_attrs].
  unfold APPLEDOUBLE_ATTR_ENTRY_FIXED_BYTES.
  repeat contained_step.
  apply contained_bind; [|done]. apply IH; [|done].
  match goal with |- context [align4 ?x] => pose proof (align4_nonneg x ltac:(lia)) end. lia.
Qed.

Lemma read_attrs_within n raw attr_start at_ attrs :
  0 <= attr_start → read_attrs utf8 n raw attr_start at_ = Ok attrs → Forall (λ nv, within raw nv.2) attrs.
Proof.
  intros Hs. revert at_ attrs. induction n as [|n IH]; intros at_ attrs H; cbn in H; [by injection H as <-|].
  apply bind_Ok in H as ([] & _ & H). apply bind_Ok in H as (vo & Hvo & H). apply bind_Ok in H as (vl & Hvl & H).
  do 6 apply bind_Ok in H as (? & _ & H). apply bind_Ok in H as ([] & Hout%raise_if_Ok & H).
  apply bind_Ok in H as (rest & Hrest & [= <-]).
  pose proof Hvo as Hb%unpack_bounds; [|lia]. pose proof Hvl as Hb'%unpack_bounds; [|lia].
  constructor; [|by eapply IH]. cbn [snd]. set (vs := if outside _ _ _ then _ else _) in *.
  assert (Hbase : ∃ base, 0 <= base ∧ vs = base + vo) by (unfold vs; case_bool; [exists attr_start|exists 0]; lia).
  clearbody vs. destruct Hbase as (base & ? & ->). unfold outside in Hout. split_bools.
  exists at_, vo, vl, base. rewrite slice_length by lia. split_and!; try done; lia.
Qed.

Lemma parse_attrs_contained raw s : 0 <= s → contained (parse_attrs utf8 raw s).
Proof.
  intros Hs. unfold parse_attrs, APPLEDOUBLE_ATTR_HEADER_BYTES. do 7 contained_step. apply read_attrs_contained; lia.
Qed.

Lemma parse_attrs_within raw s attrs : 0 <= s → parse_attrs utf8 raw s = Ok attrs → Forall (λ nv, within raw nv.2) attrs.
Proof.
  intros Hs H. unfold parse_attrs in H. do 7 apply bind_Ok in H as (? & _ & H). by eapply read_attrs_within.
Qed.

(** C33: the sidecar parser is safe on any bytes.  Whatever the sidecar holds, no field is read outside it:
    the parse ends with the entries or with an error of its own, never with [struct.error]; every entry,
    and every attribute found in the Finder entry, has all the bytes its offset and length in the sidecar
    declare, none of them outside it; and a parse that succeeds has a resource fork or a Finder entry. *)
Theorem sidecar_parse_safe raw :
  contained (parse_sidecar raw) ∧
  ∀ entries, parse_sidecar raw = Ok entries →
    (∀ i e, entries !! i = Some e → entry_within raw e) ∧
    (is_Some (entries !! APPLEDOUBLE_RESOURCE_FORK) ∨ is_Some (entries !! APPLEDOUBLE_FINDER_INFO)) ∧
    ∀ i finder, entries !! i = Some finder →
      contained (parse_finder_xattrs utf8 raw finder) ∧
      ∀ attrs, parse_finder_xattrs utf8 raw finder = Ok attrs → Forall (λ nv, within raw nv.2) attrs.
Proof.
  split; [apply parse_sidecar_contained|]. intros entries H. apply parse_sidecar_within in H as [Hin Hsup].
  split; [done|]. split; [done|]. intros i finder Hf. destruct (Hin _ _ Hf) as (H0 & _).
  unfold parse_finder_xattrs, APPLEDOUBLE_FINDER_INFO_BYTES. split.
  - repeat case_bool; try done; apply parse_attrs_contained; lia.
  - intros attrs. repeat case_bool; [by intros [= <-]|..|done]; apply parse_attrs_within; lia.
Qed.
End xattrs.

(** ** Round trip with a writer *)

Fixpoint be_bytes (n : nat) (v : Z) : bytes :=
  match n with
  | O => ""
  | S n => String (ascii_of_nat (Z.to_nat (v / 256 ^ Z.of_nat n mod 256))) (be_bytes n v)
  end.

Lemma be_bytes_length n v : blen (be_bytes n v) = Z.of_nat n.
Proof. induction n as [|n IH]; [done|]. unfold blen in *. cbn. lia. Qed.

Lemma be_value_bytes n v acc : be_value acc (be_bytes n v) = acc * 256 ^ Z.of_nat n + v mod 256 ^ Z.of_nat n.
Proof.
  revert acc. induction n as [|n IH]; intros acc; cbn [be_bytes be_value].
  { cbn. rewrite Z.mod_1_r. lia. }
  rewrite IH. set (p := 256 ^ Z.of_nat n). assert (Hp : 0 < p) by (apply Z.pow_pos_nonneg; lia).
  assert (Hd : 0 <= v / p mod 256 < 256) by (apply Z.mod_pos_bound; lia).
  rewrite nat_ascii_embedding by lia. rewrite Z2Nat.id by lia.
  replace (256 ^ Z.of_nat (S n)) with (p * 256) by (unfold p; rewrite Nat2Z.inj_succ, Z.pow_succ_r by lia; lia).
  rewrite (Z.rem_mul_r v p 256) by lia. lia.
Qed.

Lemma unpack_bytes n v pre post :
  0 <= v < 256 ^ Z.of_nat n → unpack_at (Z.of_nat n) (blen pre) (pre +:+ be_bytes n v +:+ post) = Ok v.
Proof.
  intros Hv. unfold unpack_at. pose proof (blen_nonneg pre). pose proof (blen_nonneg post).
  rewrite !blen_app, be_bytes_length, (proj2 (Z.leb_le _ _)), (proj2 (Z.leb_le _ _)) by lia. cbn [andb].
  rewrite <- (be_bytes_length n v) at 1. rewrite slice_app, be_value_bytes. f_equal. rewrite Z.mod_small by done. lia.
Qed.

(** The table from the offset of the first data on, and the data *)
Fixpoint render_table (offset : Z) (es : list (Z * bytes)) : bytes :=
  match es with
  | [] => ""
  | (id, data) :: es =>
      be_bytes 4 id +:+ be_bytes 4 offset +:+ be_bytes 4 (blen data) +:+ render_table (offset + blen data) es
  end.

Fixpoint render_data (es : list (Z * bytes)) : bytes :=
  match es with [] => "" | (_, data) :: es => data +:+ render_data es end.

Definition render_sidecar (filler : bytes) (es : list (Z * bytes)) : bytes :=
  be_bytes 4 APPLEDOUBLE_MAGIC +:+ be_bytes 4 APPLEDOUBLE_VERSION +:+ filler +:+
  be_bytes 2 (Z.of_nat (length es)) +:+ render_table (26 + 12 * Z.of_nat (length es)) es +:+ render_data es.

Lemma render_table_length es offset : blen (render_table offset es) = 12 * Z.of_nat (length es).
Proof.
  revert offset. induction es as [|[id data] es IH]; intros offset; [done|]. cbn [render_table].
  rewrite !blen_app, !be_bytes_length, IH. cbn [length]. lia.
Qed.

Lemma read_rendered es : ∀ pre mid acc offset raw,
  raw = pre +:+ render_table offset es +:+ mid +:+ render_data es →
  offset = blen (pre +:+ render_table offset es +:+ mid) →
  Forall (λ e, 0 <= e.1 < 2 ^ 32) es → blen raw < 2 ^ 32 →
  ∃ m, read_entries (length es) raw (blen pre) acc = Ok m ∧
    ∀ i, ade_data <$> m !! i = foldl (λ o e, if decide (e.1 = i) then Some e.2 else o) (ade_data <$> acc !! i) es.
Proof.
  induction es as [|[id data] es IH]; intros pre mid acc offset raw Hraw Hoff Hids Hlen; [by exists acc|].
  cbn [length read_entries render_table render_data] in *. apply Forall_cons in Hids as [Hid Hids]. cbn [fst] in Hid.
  set (tail := render_table (offset + blen data) es +:+ mid +:+ data +:+ render_data es).
  assert (Hr : raw = pre +:+ be_bytes 4 id +:+ be_bytes 4 offset +:+ be_bytes 4 (blen data) +:+ tail)
    by (rewrite Hraw; unfold tail; rewrite !string_app_assoc; done).
  assert (Ho : offset = blen pre + 12 * (1 + Z.of_nat (length es)) + blen mid)
    by (rewrite Hoff at 1; rewrite !blen_app, !be_bytes_length, render_table_length; lia).
  assert (Hbig : blen raw = offset + blen data + blen (render_data es))
    by (rewrite Hraw, !blen_app, !be_bytes_length, render_table_length; lia).
  pose proof (blen_nonneg data). pose proof (blen_nonneg (render_data es)).
  pose proof (blen_nonneg pre). pose proof (blen_nonneg mid). assert (0 <= offset) by lia.
  assert (U1 : unpack_at 4 (blen pre) raw = Ok id) by (rewrite Hr; apply (unpack_bytes 4); lia).
  assert (U2 : unpack_at 4 (blen pre + 4) raw = Ok offset).
  { replace (blen pre + 4) with (blen (pre +:+ be_bytes 4 id)) by (rewrite blen_app, be_bytes_length; lia).
    rewrite Hr, <- string_app_assoc. apply (unpack_bytes 4). lia. }
  assert (U3 : unpack_at 4 (blen pre + 8) raw = Ok (blen data)).
  { replace (blen pre + 8) with (blen ((pre +:+ be_bytes 4 id) +:+ be_bytes 4 offset))
      by (rewrite !blen_app, !be_bytes_length; lia).
    rewrite Hr, <- 2!string_app_assoc. apply (unpack_bytes 4). lia. }
  rewrite U1. cbn [mbind result_bind]. rewrite U2. cbn [mbind result_bind]. rewrite U3. cbn [mbind result_bind].
  rewrite (proj2 (Z.ltb_ge _ _)), (proj2 (Z.ltb_ge (blen raw) (offset + _))), (proj2 (Z.ltb_ge _ _)) by lia.
  cbn [orb raise_if mbind result_bind].
  set (head := be_bytes 4 id +:+ be_bytes 4 offset +:+ be_bytes 4 (blen data)).
  assert (Hhead : blen head = 12) by (unfold head; rewrite !blen_app, !be_bytes_length; lia).
  assert (Hdata : slice raw offset (offset + blen data) = data).
  { assert (∃ P, raw = P +:+ data +:+ render_data es ∧ blen P = offset) as (P & HrP & <-); [|by rewrite HrP, slice_app].
    exists (pre +:+ head +:+ render_table (offset + blen data) es +:+ mid). split.
    - rewrite Hr. unfold tail, head. by rewrite !string_app_assoc.
    - rewrite !blen_app, Hhead, render_table_length. lia. }
  rewrite Hdata. destruct (IH (pre +:+ head) (mid +:+ data) (<[id := {| ade_offset := offset; ade_data := data |}]> acc)
    (offset + blen data) raw) as (m & Hm & Hall); [| |done|done|].
  - rewrite Hr. unfold tail, head. by rewrite !string_app_assoc.
  - rewrite !blen_app, Hhead, render_table_length. lia.
  - replace (blen (pre +:+ head)) with (blen pre + 12) in Hm by (rewrite blen_app, Hhead; done).
    exists m. split; [exact Hm|]. intros i. rewrite (Hall i). cbn [foldl fst snd].
    destruct (decide (id = i)) as [<-|]; [by rewrite lookup_insert_eq|by rewrite lookup_insert_ne].
Qed.

Lemma last_written (es : list (Z * bytes)) i (o : option bytes) data :
  NoDup es.*1 →
  foldl (λ o e, if decide (e.1 = i) then Some e.2 else o) o es = Some data ↔
  (i, data) ∈ es ∨ (i ∉ es.*1 ∧ o = Some data).
Proof.
  revert o. induction es as [|[j d] es IH]; intros o Hnd; cbn [foldl fst snd]; [set_solver|].
  apply NoDup_cons in Hnd as [Hj Hnd]. rewrite (IH _ Hnd). cbn [fst] in Hj.
  assert (Hin : ∀ x, (j, x) ∉ es) by (intros x Hx; apply Hj, list_elem_of_fmap; by exists (j, x)).
  rewrite fmap_cons. cbn [fst]. case_decide as Hd; [subst j|]; split.
  - intros [Hx|[_ [= ->]]]; [by apply Hin in Hx|]. left. left.
  - intros [[[= ->]|Hx]%elem_of_cons|[Hx _]]; [by right|by apply Hin in Hx|set_solver].
  - intros [Hx|[Hx ->]]; [left; by right|right; set_solver].
  - intros [[[= -> ->]|Hx]%elem_of_cons|[Hx ->]]; [done|by left|right; set_solver].
Qed.

(** A well-formed sidecar parses to what was written.  For any entries with distinct 32-bit ids, a
    resource fork or a Finder entry among them, laid out as AppleDouble prescribes (magic, version, 16
    bytes of filler, the count, the table, the data) in less than 4 GiB, the parser returns exactly these
    entries with their data. *)
Lemma sidecar_roundtrip filler es :
  blen filler = 16 → NoDup es.*1 → Forall (λ e, 0 <= e.1 < 2 ^ 32) es → Z.of_nat (length es) < 2 ^ 16 →
  blen (render_sidecar filler es) < 2 ^ 32 →
  (APPLEDOUBLE_RESOURCE_FORK ∈ es.*1 ∨ APPLEDOUBLE_FINDER_INFO ∈ es.*1) →
  ∃ m, parse_sidecar (render_sidecar filler es) = Ok m ∧
    ∀ i data, ade_data <$> m !! i = Some data ↔ (i, data) ∈ es.
Proof.
  intros Hf Hnd Hids Hcount Hlen Hsup. set (raw := render_sidecar filler es) in *. set (n := Z.of_nat (length es)) in *.
  set (pre := be_bytes 4 APPLEDOUBLE_MAGIC +:+ be_bytes 4 APPLEDOUBLE_VERSION +:+ filler +:+ be_bytes 2 n).
  assert (Hpre : blen pre = 26) by (unfold pre; rewrite !blen_app, !be_bytes_length, Hf; lia).
  set (rest := render_table (26 + 12 * n) es +:+ render_data es).
  assert (Hraw : raw = pre +:+ rest) by (unfold raw, pre, rest, render_sidecar; rewrite !string_app_assoc; done).
  assert (Hrest : 12 * n <= blen rest).
  { unfold rest. rewrite blen_app, render_table_length. pose proof (blen_nonneg (render_data es)). lia. }
  assert (Hn : 0 <= n) by (unfold n; lia).
  assert (Hr : blen raw = 26 + blen rest) by (rewrite Hraw, blen_app, Hpre; lia).
  assert (U1 : unpack_at 4 0 raw = Ok APPLEDOUBLE_MAGIC).
  { rewrite Hraw. unfold pre. rewrite !string_app_assoc. apply (unpack_bytes 4 _ ""). vm_compute. by split. }
  assert (U2 : unpack_at 4 4 raw = Ok APPLEDOUBLE_VERSION).
  { rewrite Hraw. unfold pre. rewrite !string_app_assoc. apply (unpack_bytes 4 _ (be_bytes 4 APPLEDOUBLE_MAGIC)).
    vm_compute. by split. }
  assert (U3 : unpack_at 2 24 raw = Ok n).
  { assert (∃ P, raw = P +:+ be_bytes 2 n +:+ rest ∧ blen P = 24) as (P & -> & <-); [|apply (unpack_bytes 2); cbn; lia].
    exists (be_bytes 4 APPLEDOUBLE_MAGIC +:+ be_bytes 4 APPLEDOUBLE_VERSION +:+ filler). split.
    - rewrite Hraw. unfold pre. by rewrite !string_app_assoc.
    - rewrite !blen_app, !be_bytes_length, Hf. done. }
  destruct (read_rendered es pre "" ∅ (26 + 12 * n) raw) as (m & Hm & Hall); [done| |done|done|].
  { rewrite !blen_app, Hpre, render_table_length. change (blen "") with 0. unfold n. lia. }
  assert (Hmem : ∀ i data, ade_data <$> m !! i = Some data ↔ (i, data) ∈ es).
  { intros i data. rewrite Hall, lookup_empty, (last_written es i None data Hnd). naive_solver. }
  exists m. split; [|exact Hmem]. unfold parse_sidecar.
  rewrite (proj2 (Z.ltb_ge (blen raw) 26)) by lia. cbn [raise_if mbind result_bind]. rewrite U1. cbn [mbind result_bind].
  rewrite U2. cbn [mbind result_bind]. rewrite !Z.eqb_refl. cbn [negb orb raise_if mbind result_bind].
  rewrite U3. cbn [mbind result_bind]. rewrite (proj2 (Z.ltb_ge _ _)) by lia. cbn [raise_if mbind result_bind].
  unfold n. rewrite Nat2Z.id, <- Hpre, Hm. cbn [mbind result_bind].
  assert (Hs : bool_decide (m !! APPLEDOUBLE_RESOURCE_FORK = None) && bool_decide (m !! APPLEDOUBLE_FINDER_INFO = None)
    = false); [|by rewrite Hs].
  apply andb_false_iff. destruct Hsup as [H|H]; [left|right]; apply bool_decide_eq_false; intros Hnone;
    apply list_elem_of_fmap in H as ([i d] & Hi & Hin); cbn in Hi; subst i; apply Hmem in Hin; by rewrite Hnone in Hin.
Qed.
