(* ===== verification/Staging.v ===== *)
(** * Staging transforms

    [staging.py]: the copy-on-write stage that merges AppleDouble sidecars and compresses members before
    they are enqueued, the recording of the transform chain, and its inverse at restore.  Files are a map
    from paths to files with their extended attributes and to directories; symbolic links below the
    staging root and beside the source are left out.  [zstandard], the pattern matchers of [fnmatch] and
    [pathlib], UTF-8 validity and the kernel's answer to [setxattr] are parameters. *)

From stdpp Require Import pretty.
From S2P Require Import Prelude Json JobModels Catalog RetryConfig Scrub BundleGroup Accumulator Profiles Policy.
From S2P Require Import AppleDouble.

Inductive SNode :=
  | SFile (content : bytes) (xattrs : gmap string bytes)
  | SDir.

Abbreviation Tree := (gmap (list string) SNode).

Inductive StagingFault :=
  | StagingError (message : string)
  | StagingHeld (summary : dict json)
  | StagingPolicyFault (e : PolicyError)
  | StagingOSError
  | StagingBundle (e : BundleError).

Definition APPLEDOUBLE_MERGE_KIND : string := "appledouble-merge-v1".
Definition ZSTD_FILE_KIND : string := "zstd-file-v1".
Definition ZSTD_SUFFIX : string := ".zst".

Record TransformSpec := {
  ts_kind : string;
  ts_reversible : bool;
  ts_original_member_path : string;
  ts_stored_member_path : string;
  ts_original_size_bytes : Z;
  ts_stored_size_bytes : Z;
  ts_original_sha256 : bytes;
  ts_stored_sha256 : bytes;
  ts_parameters : dict json;
  ts_result : dict json;
}.

Record StagedArtifact := {
  st_original_path : list string;
  st_staged_path : list string;
  st_logical_member_path : string;
  st_stored_member_path : string;
  st_logical_sha256 : bytes;
  st_staged_sha256 : bytes;
  st_logical_size_bytes : Z;
  st_staged_size_bytes : Z;
  st_transforms : list TransformSpec;
  st_pfr_original : bool;
  st_bundle_id : option string;
}.

(** ** Programs over the files *)

Definition Stage (A : Type) : Type := Tree → Tree * result StagingFault A.

#[export] Instance Stage_ret : MRet Stage := λ A a t, (t, Ok a).
#[export] Instance Stage_bind : MBind Stage := λ A B f m t,
  match m t with (t, Ok a) => f a t | (t, Err e) => (t, Err e) end.

Definition fault {A} (e : StagingFault) : Stage A := λ t, (t, Err e).
Definition liftr {A} (r : result StagingFault A) : Stage A := λ t, (t, r).
Definition tree : Stage Tree := λ t, (t, Ok t).

Definition exists_at (t : Tree) (p : list string) : bool := bool_decide (is_Some (t !! p)).

Definition file_at (t : Tree) (p : list string) : option bytes :=
  match t !! p with Some (SFile c _) => Some c | _ => None end.

Definition xattrs_at (t : Tree) (p : list string) : gmap string bytes :=
  match t !! p with Some (SFile _ x) => x | _ => ∅ end.

Definition read_file (p : list string) : Stage bytes := λ t,
  match file_at t p with Some c => (t, Ok c) | None => (t, Err StagingOSError) end.

(** The proper prefixes of a path, the longest last *)
Fixpoint prefixes (p : list string) : list (list string) :=
  match p with [] => [] | x :: p => [] :: (cons x <$> prefixes p) end.

(** [path.parent.mkdir(parents=True, exist_ok=True)]: a file in the way is refused. *)
Definition make_parents (p : list string) : Stage unit := λ t,
  if existsb (λ q, bool_decide (is_Some (file_at t q))) (prefixes p) then (t, Err StagingOSError)
  else (foldl (λ t q, <[q := SDir]> t) t (prefixes p), Ok tt).

(** Opening for writing: a directory at the path is refused, the attributes of a file that is there stay. *)
Definition write_file (p : list string) (content : bytes) : Stage unit := λ t,
  match t !! p with
  | Some SDir => (t, Err StagingOSError)
  | _ => (<[p := SFile content (xattrs_at t p)]> t, Ok tt)
  end.

(** [shutil.copy2], which copies the extended attributes too *)
Definition copy2 (source destination : list string) : Stage unit := λ t,
  match t !! source, t !! destination with
  | Some (SFile c x), d =>
      if decide (source = destination) then (t, Err StagingOSError)
      else match d with
           | Some SDir => (t, Err StagingOSError)
           | _ => (<[destination := SFile c (x ∪ xattrs_at t destination)]> t, Ok tt)
           end
  | _, _ => (t, Err StagingOSError)
  end.

Definition set_attributes (p : list string) (x : gmap string bytes) (t : Tree) : Tree :=
  match t !! p with Some (SFile c _) => <[p := SFile c x]> t | _ => t end.

Definition path_name (p : list string) : string := default "" (last p).
Definition with_name (p : list string) (name : string) : list string := removelast p ++ [name].

Section staging.
Context (sha256 : bytes → bytes) (sha256_hex : string → string).
Context (compress : Z → bytes → bytes) (decompress : bytes → option bytes) (zstd_version : string).
Context (fnmatchcase : string → string → bool) (path_match : string → string → bool).
Context (utf8 : bytes → bool) (accepts : string → bytes → bool).
Context (escape_path_name : SourcePath → string) (escape_path_text : string → string).
Context (path_of : string → list string) (path_text : list string → string).

(** ** Compression choice *)

(** The text of [PurePosixPath(p)] is [path_str p]. *)
Definition glob_matches (member_path pattern : string) : bool :=
  let normalized := path_str member_path in
  fnmatchcase normalized pattern ||
  match strip_prefix "**/" pattern with Some rest => fnmatchcase normalized rest | None => false end ||
  path_match normalized pattern.

Definition should_compress (policy : CompressionStagingPolicy) (member_path : string) (size : Z)
    : result StagingFault bool :=
  if decide (cs_codec policy = "off") then Ok false
  else if decide (cs_codec policy ≠ "zstd") then
    Err (StagingPolicyFault (ArtifactClassPolicyError "unsupported compression codec"))
  else if match cs_min_bytes policy with Some n => size <? n | None => false end then Ok false
  else match cs_globs policy with
       | [] => Ok true
       | globs => Ok (existsb (glob_matches member_path) globs)
       end.

Definition required_compression_level (policy : CompressionStagingPolicy) : result StagingFault Z :=
  match cs_level policy with
  | Some n => Ok n
  | None => Err (StagingError "zstd compression requires a pinned level")
  end.

Definition safe_staging_path (root : list string) (member_path : string) : result StagingFault (list string) :=
  let parts := path_parts member_path in
  _ ← raise_if (bool_decide (is_Some (strip_prefix "/" member_path)) || bool_decide (".." ∈ parts))
        (StagingError "unsafe member path for staging");
  Ok (root ++ parts).

(** ** AppleDouble *)

Definition appledouble_summary (message reason : string) : dict json :=
  [("clusters", JList [JObj [("prefix", JStr ""); ("reason", JStr reason); ("count", JInt 1);
                             ("bytes_total", JInt 0); ("samples", JList [JStr message]);
                             ("proposed_default", JStr "review")]]);
   ("exclusions", JList [])].

Definition appledouble_error (policy : AppleDoubleStagingPolicy) (message reason : string) : StagingFault :=
  if decide (ap_on_error policy = "hold") then StagingHeld (appledouble_summary message reason)
  else StagingError message.

Definition is_appledouble_sidecar (source : list string) : bool :=
  bool_decide (is_Some (strip_prefix "._" (path_name source))) && (2 <? String.length (path_name source))%nat.

Definition sidecar_source_fault (policy : AppleDoubleStagingPolicy) (t : Tree) (source : list string) : StagingFault :=
  let sibling := with_name source (sdrop 2 (path_name source)) in
  appledouble_error policy
    ("AppleDouble sidecar " +:+ path_text source +:+ " is metadata for " +:+ path_text sibling +:+
     ", not an archive member")
    (if exists_at t sibling then "appledouble-sidecar-consumed" else "appledouble-sidecar-without-data-fork").

Definition merge_spec (member_path : string) (hash : bytes) (size : Z) (parameters result : dict json)
    : TransformSpec := {|
  ts_kind := APPLEDOUBLE_MERGE_KIND; ts_reversible := false; ts_original_member_path := member_path;
  ts_stored_member_path := member_path; ts_original_size_bytes := size; ts_stored_size_bytes := size;
  ts_original_sha256 := hash; ts_stored_sha256 := hash; ts_parameters := parameters; ts_result := result |}.

(** The parse and the attributes; what was set before a failure stays on the staged file. *)
Definition merge_sidecar (staged : list string) (raw : bytes) (policy : AppleDoubleStagingPolicy)
    (message : string) : Stage (gmap Z AppleDoubleEntry * list string) := λ t,
  match parse_sidecar raw with
  | Err _ => (t, Err (appledouble_error policy message "appledouble-merge-failed"))
  | Ok entries =>
      let '(x, r) := apply_entries utf8 accepts (xattrs_at t staged) raw entries in
      (set_attributes staged x t,
       match r with
       | Ok names => Ok (entries, names)
       | Err _ => Err (appledouble_error policy message "appledouble-merge-failed")
       end)
  end.

Definition unlink_if_exists (p : list string) : Stage unit := λ t,
  match t !! p with
  | None => (t, Ok tt)
  | Some SDir => (t, Err StagingOSError)
  | Some _ => (delete p t, Ok tt)
  end.

Definition merge_appledouble (source staged : list string) (member_path : string) (hash : bytes) (size : Z)
    (policy : AppleDoubleStagingPolicy) : Stage TransformSpec :=
  t ← tree;
  let sidecar := with_name source ("._" +:+ path_name source) in
  let base := [("action", JStr "merge-to-xattrs"); ("tool", JStr (ap_tool policy))] in
  match t !! sidecar with
  | None =>
      mret (merge_spec member_path hash size base [("merged", JBool false); ("reason", JStr "sidecar-not-found")])
  | Some SDir =>
      fault (appledouble_error policy ("AppleDouble sidecar is not a file: " +:+ path_text sidecar)
               "appledouble-merge-failed")
  | Some (SFile raw _) =>
      '(entries, names) ← merge_sidecar staged raw policy ("AppleDouble merge failed for " +:+ path_text sidecar);
      _ ← unlink_if_exists (with_name staged ("._" +:+ path_name staged));
      let fork_bytes := match entries !! APPLEDOUBLE_RESOURCE_FORK with
                        | Some e => blen (ade_data e)
                        | None => 0
                        end in
      mret (merge_spec member_path hash size
              (base ++ [("sidecar_path", JStr (path_text sidecar)); ("sidecar_sha256", JStr (sha256_hex raw))])
              [("merged", JBool true); ("consumed_sidecar", JBool true); ("sidecar_path", JStr (path_text sidecar));
               ("xattrs", JList (JStr <$> names)); ("resource_fork_bytes", JInt fork_bytes)])
  end.

(** ** Staging *)

Definition zstd_spec (level : Z) (original stored : string) (size stored_size : Z) (hash stored_hash : bytes)
    : TransformSpec := {|
  ts_kind := ZSTD_FILE_KIND; ts_reversible := true; ts_original_member_path := original;
  ts_stored_member_path := stored; ts_original_size_bytes := size; ts_stored_size_bytes := stored_size;
  ts_original_sha256 := hash; ts_stored_sha256 := stored_hash;
  ts_parameters := [("codec", JStr "zstd"); ("level", JInt level); ("threads", JInt 0); ("suffix", JStr ZSTD_SUFFIX);
                    ("implementation", JStr "python-zstandard"); ("implementation_version", JStr zstd_version)];
  ts_result := [("pfr_original", JBool false)] |}.

Definition stage_copy (needs_copy : bool) (source root : list string) (member_path : string) : Stage (list string) :=
  if needs_copy then
    p ← liftr (safe_staging_path root member_path);
    _ ← make_parents p;
    _ ← copy2 source p;
    mret p
  else mret source.

Definition stage_compress (policy : CompressionStagingPolicy) (current root : list string) (logical : string)
    (size : Z) (hash : bytes) : Stage (list string * TransformSpec) :=
  let stored := logical +:+ ZSTD_SUFFIX in
  p ← liftr (safe_staging_path root stored);
  _ ← make_parents p;
  level ← liftr (required_compression_level policy);
  content ← read_file current;
  _ ← write_file p (compress level content);
  packed ← read_file p;
  mret (p, zstd_spec level logical stored size (blen packed) hash (sha256 packed)).

Definition stage_artifact (source_path : string) (root : list string) (policy : StagingPolicy)
    (member_path : option string) : Stage StagedArtifact :=
  let source := path_of source_path in
  let merging := bool_decide (ap_action (sp_appledouble policy) = "merge-to-xattrs") in
  t ← tree;
  match file_at t source with
  | None => fault (StagingError "staging currently requires a regular file")
  | Some content =>
      if merging && is_appledouble_sidecar source then fault (sidecar_source_fault (sp_appledouble policy) t source)
      else
        let logical := match member_path with
                       | None => escape_path_name (Utf8Path source_path)
                       | Some p => escape_path_text p
                       end in
        let size := blen content in
        let hash := sha256 content in
        needs_copy ← (if merging then mret true
                      else liftr (should_compress (sp_compression policy) logical size));
        current ← stage_copy needs_copy source root logical;
        merged ← (if merging then
                    s ← merge_appledouble source current logical hash size (sp_appledouble policy); mret [s]
                  else mret []);
        compressing ← liftr (should_compress (sp_compression policy) logical size);
        if compressing : bool then
          '(p, s) ← stage_compress (sp_compression policy) current root logical size hash;
          mret {| st_original_path := source; st_staged_path := p; st_logical_member_path := logical;
                  st_stored_member_path := ts_stored_member_path s; st_logical_sha256 := hash;
                  st_staged_sha256 := ts_stored_sha256 s; st_logical_size_bytes := size;
                  st_staged_size_bytes := ts_stored_size_bytes s; st_transforms := merged ++ [s];
                  st_pfr_original := false; st_bundle_id := None |}
        else
          mret {| st_original_path := source; st_staged_path := current; st_logical_member_path := logical;
                  st_stored_member_path := logical; st_logical_sha256 := hash; st_staged_sha256 := hash;
                  st_logical_size_bytes := size; st_staged_size_bytes := size; st_transforms := merged;
                  st_pfr_original := true; st_bundle_id := None |}
  end.

(** ** Restore *)

(** [reverse_transforms_to_path]: the reversible steps, the last one first; the content of each step *)
Fixpoint reverse_steps (content : bytes) (steps : list StagingTransform) : result StagingFault bytes :=
  match steps with
  | [] => Ok content
  | s :: steps =>
      if decide (tr_kind s = ZSTD_FILE_KIND) then
        match decompress content with
        | Some c => reverse_steps c steps
        | None => Err (StagingError "zstd decompression failed during restore")
        end
      else Err (StagingError "unsupported reversible transform")
  end.

Definition reverse_transforms (content : bytes) (transforms : list StagingTransform)
    : result StagingFault (bytes * bytes * Z) :=
  let reversible := filter (λ s, tr_reversible s = true) (sort_by (λ s, - tr_step_order s) transforms) in
  restored ← reverse_steps content reversible;
  Ok (restored, sha256 restored, blen restored).

(** ** Enqueueing *)

(** The chain after the naming ladder tagged the member *)
Definition retag (tag member_path : string) (a : StagedArtifact) : StagedArtifact := {|
  st_original_path := st_original_path a; st_staged_path := st_staged_path a;
  st_logical_member_path := st_logical_member_path a; st_stored_member_path := member_path;
  st_logical_sha256 := st_logical_sha256 a; st_staged_sha256 := st_staged_sha256 a;
  st_logical_size_bytes := st_logical_size_bytes a; st_staged_size_bytes := st_staged_size_bytes a;
  st_transforms := imap (λ i s, {|
    ts_kind := ts_kind s; ts_reversible := ts_reversible s;
    ts_original_member_path := if decide (i = 0%nat) then ts_original_member_path s
                               else tag_member_path (ts_original_member_path s) tag;
    ts_stored_member_path := tag_member_path (ts_stored_member_path s) tag;
    ts_original_size_bytes := ts_original_size_bytes s; ts_stored_size_bytes := ts_stored_size_bytes s;
    ts_original_sha256 := ts_original_sha256 s; ts_stored_sha256 := ts_stored_sha256 s;
    ts_parameters := ts_parameters s; ts_result := ts_result s |}) (st_transforms a);
  st_pfr_original := st_pfr_original a; st_bundle_id := st_bundle_id a |}.

Definition set_bundle (id : string) (a : StagedArtifact) : StagedArtifact := {|
  st_original_path := st_original_path a; st_staged_path := st_staged_path a;
  st_logical_member_path := st_logical_member_path a; st_stored_member_path := st_stored_member_path a;
  st_logical_sha256 := st_logical_sha256 a; st_staged_sha256 := st_staged_sha256 a;
  st_logical_size_bytes := st_logical_size_bytes a; st_staged_size_bytes := st_staged_size_bytes a;
  st_transforms := st_transforms a; st_pfr_original := st_pfr_original a; st_bundle_id := Some id |}.

Definition stage_metadata (a : StagedArtifact) : dict json :=
  [("logical_path", JStr (st_logical_member_path a)); ("stored_member_path", JStr (st_stored_member_path a));
   ("pfr_original", JBool (st_pfr_original a));
   ("transforms", JList ((λ s, JObj [("kind", JStr (ts_kind s))]) <$> st_transforms a))].

Definition stage_request (artifactclass : string) (bundle_id : option string) (a : StagedArtifact) (content : bytes)
    : EnqueueRequest := {|
  eq_artifactclass := artifactclass; eq_logical_asset_hash := st_logical_sha256 a;
  eq_source_path := Utf8Path (path_text (st_staged_path a)); eq_member_path := Some (st_stored_member_path a);
  eq_member_path_is_escaped := true; eq_bundle_id := bundle_id; eq_source_metadata := Some (stage_metadata a);
  eq_size_bytes := blen content; eq_file_sha256 := sha256 content |}.

Definition transform_row (artifactclass : string) (n : nat) (s : TransformSpec) : StagingTransform := {|
  tr_bundle_member_id := 0; tr_bundle_id := ""; tr_logical_asset_hash := ""; tr_artifactclass := artifactclass;
  tr_step_order := Z.of_nat n; tr_kind := ts_kind s; tr_reversible := ts_reversible s;
  tr_original_member_path := ts_original_member_path s; tr_stored_member_path := ts_stored_member_path s;
  tr_original_size_bytes := ts_original_size_bytes s; tr_stored_size_bytes := ts_stored_size_bytes s;
  tr_original_sha256 := ts_original_sha256 s; tr_stored_sha256 := ts_stored_sha256 s;
  tr_parameters := ts_parameters s; tr_result := ts_result s |}.

(** The loop over the steps, from step [n] on; the references it collects *)
Fixpoint record_steps (k : Cat) (artifactclass : string) (mid : Z) (m : BundleMember) (n : nat)
    (steps : list TransformSpec) : result BundleError (Cat * list json) :=
  match steps with
  | [] => Ok (k, [])
  | s :: steps =>
      '(k, id) ← record_staging_transform k mid m (transform_row artifactclass n s) (bool_decide (steps = []));
      '(k, refs) ← record_steps k artifactclass mid m (S n) steps;
      Ok (k, JObj [("kind", JStr (ts_kind s)); ("id", JInt id)] :: refs)
  end.

(** [member.source_metadata = {**(member.source_metadata or {}), key: value}] *)
Definition assign_metadata (k : Cat) (mid : Z) (m : BundleMember) (key : string) (value : json) : Cat * BundleMember :=
  let m := set_member_metadata m (Some (dset key value (default [] (bm_source_metadata m)))) in
  (with_members (tbl_put mid m (members k)) k, m).

Definition member_transforms (k : Cat) (mid : Z) : list StagingTransform :=
  (filter (λ it, tr_bundle_member_id it.2 = mid) (tbl_list (transforms k))).*2.

Inductive StageOutcome :=
  | Staged (k : Cat) (a : StagedArtifact)
  | Held (k : Cat) (summary : dict json)
  | Failed (e : StagingFault).

Definition outcome (r : result StagingFault (Cat * StagedArtifact)) : StageOutcome :=
  match r with Ok (k, a) => Staged k a | Err e => Failed e end.

Definition lift_staging {A} (r : result BundleError A) : result StagingFault A :=
  match r with Ok a => Ok a | Err e => Err (StagingBundle e) end.

Definition ensure_asset (k : Cat) (hash : bytes) (size : Z) (now : time) : Cat :=
  match assets k !! hash with
  | Some _ => k
  | None => with_assets (<[hash := {| la_size_bytes := size; la_first_seen_at := now |}]> (assets k)) k
  end.

(** After the append: the chain takes the name the member was given, *)
Definition rekey (k : Cat) (mid : Z) (m : BundleMember) (created : bool) (a : StagedArtifact)
    : result StagingFault (Cat * BundleMember * StagedArtifact) :=
  if decide (bm_member_path m = st_stored_member_path a) then Ok (k, m, a)
  else
    match extract_member_tag (st_stored_member_path a) (bm_member_path m) with
    | None => Err (StagingError "cannot re-key transforms")
    | Some tag =>
        let a := retag tag (bm_member_path m) a in
        if created then
          let '(k, m) := assign_metadata k mid m "stored_member_path" (JStr (bm_member_path m)) in
          Ok (k, m, a)
        else Ok (k, m, a)
    end.

(** and is recorded step by step, unless the member found had its steps already. *)
Definition record_chain (k : Cat) (artifactclass : string) (mid : Z) (m : BundleMember) (created : bool)
    (a : StagedArtifact) : result StagingFault (Cat * StagedArtifact) :=
  if negb created && negb (bool_decide (member_transforms k mid = [])) then Ok (k, a)
  else
    '(k, refs) ← lift_staging (record_steps k artifactclass mid m 0 (st_transforms a));
    match refs with
    | [] => Ok (k, a)
    | _ => Ok ((assign_metadata k mid m "transforms" (JList refs)).1, a)
    end.

Definition record_staged (k : Cat) (artifactclass : string) (a : StagedArtifact) (ap : Appended)
    : result StagingFault (Cat * StagedArtifact) :=
  let mid := ap_member_id ap in
  let created := ap_created ap in
  '(k, m, a) ← rekey k mid (ap_member ap) created (set_bundle (bm_bundle_id (ap_member ap)) a);
  record_chain k artifactclass mid m created a.

Definition stage_and_enqueue_artifact (k : Cat) (t : Tree) (mint_race : Cat → Cat) (race : nat → Cat → Cat)
    (artifactclass : string) (policy : ArtifactClassPolicyRecord) (source_path : string) (root : list string)
    (member_path bundle_id : option string) (fresh : string) (now : time) : Tree * StageOutcome :=
  match staging_policy_from_json (JObj (pr_staging_config policy)) with
  | Err e => (t, Failed (StagingPolicyFault e))
  | Ok staging =>
      let '(t, staged) := stage_artifact source_path root staging member_path t in
      match staged with
      | Err (StagingHeld summary) =>
          (t, match get_or_create_open_bundle sha256_hex k mint_race artifactclass policy bundle_id fresh now with
              | Err e => Failed (StagingBundle e)
              | Ok (k, id, _) => Held (hold_bundle k id summary now) summary
              end)
      | Err e => (t, Failed e)
      | Ok a =>
          (t, outcome (
             let k := ensure_asset k (st_logical_sha256 a) (st_logical_size_bytes a) now in
             content ← match file_at t (st_staged_path a) with Some c => Ok c | None => Err StagingOSError end;
             '(k, _, ap) ← lift_staging (enqueue_artifact sha256_hex escape_path_name escape_path_text k mint_race race
                             policy (stage_request artifactclass bundle_id a content) fresh now);
             record_staged k artifactclass a ap))
      end
  end.
End staging.
