(* ===== verification/StagingFacts.v ===== *)
(** * Correctness of staging

    The staged file holds what the chain of transforms says, restoring inverts it, and the chain is
    recorded under the name the member was given. *)

From Stdlib Require Import Ascii.
From S2P Require Import Prelude Json JobModels Catalog RetryConfig Scrub BundleGroup Accumulator AccumulatorFacts.
From S2P Require Import NamingFacts EngineFacts Profiles Policy AppleDouble AppleDoubleFacts Staging.

(** ** Files *)

Lemma foldl_dirs (ps : list (list string)) (t : Tree) q :
  foldl (λ t q, <[q := SDir]> t) t ps !! q = if decide (q ∈ ps) then Some SDir else t !! q.
Proof.
  revert t. induction ps as [|p ps IH]; intros t; cbn [foldl].
  { by rewrite decide_False by apply not_elem_of_nil. }
  rewrite IH. repeat case_decide; try done; try set_solver.
  - assert (q = p) as -> by set_solver. apply lookup_insert_eq.
  - apply lookup_insert_ne. set_solver.
Qed.

(** Making directories keeps every file. *)
Lemma make_parents_keeps p t t' q : make_parents p t = (t', Ok tt) → file_at t' q = file_at t q.
Proof.
  unfold make_parents. case_bool; [done|]. intros [= <-]. unfold file_at at 1. rewrite foldl_dirs.
  case_decide as Hin; [|done]. destruct (file_at t q) as [c|] eqn:Ef; [|done]. exfalso.
  match goal with H : existsb _ _ = false |- _ => apply not_true_iff_false in H; apply H, existsb_exists end.
  exists q. split; [by apply list_elem_of_In|]. rewrite Ef. by apply bool_decide_eq_true.
Qed.

Lemma copy2_spec s d t t' :
  copy2 s d t = (t', Ok tt) → ∃ c, file_at t s = Some c ∧ file_at t' d = Some c.
Proof.
  unfold copy2, file_at. destruct (t !! s) as [[c x|]|]; [|done..]. case_decide; [done|].
  destruct (t !! d) as [[c' x'|]|]; try done; intros [= <-]; exists c; by rewrite lookup_insert_eq.
Qed.

Lemma set_attributes_keeps p x t q : file_at (set_attributes p x t) q = file_at t q.
Proof.
  unfold set_attributes, file_at. destruct (t !! p) as [[c y|]|] eqn:E; try done.
  destruct (decide (q = p)) as [->|]; [by rewrite lookup_insert_eq, E|by rewrite lookup_insert_ne].
Qed.

Lemma write_file_spec p c t t' : write_file p c t = (t', Ok tt) → file_at t' p = Some c.
Proof.
  unfold write_file. intros H. destruct (t !! p) as [[c' x|]|]; try done; injection H as <-;
    unfold file_at; by rewrite lookup_insert_eq.
Qed.

Lemma read_file_spec p t t' c : read_file p t = (t', Ok c) → t' = t ∧ file_at t p = Some c.
Proof. unfold read_file. destruct (file_at t p); by intros [= <- <-]. Qed.

Lemma stage_bind {A B} (m : Stage A) (f : A → Stage B) t t' b :
  (m ≫= f) t = (t', Ok b) → ∃ t1 a, m t = (t1, Ok a) ∧ f a t1 = (t', Ok b).
Proof. unfold mbind, Stage_bind. destruct (m t) as [t1 [a|e]]; [eauto|done]. Qed.

Lemma liftr_spec {A} (r : result StagingFault A) t t' a : liftr r t = (t', Ok a) → t' = t ∧ r = Ok a.
Proof. by intros [= <- ->]. Qed.

Lemma with_name_ne p name : name ≠ path_name p → with_name p name ≠ p.
Proof.
  intros Hne Heq. apply Hne. unfold path_name. rewrite <- Heq. unfold with_name. by rewrite last_snoc.
Qed.

Lemma dot_underscore_ne s : "._" +:+ s ≠ s.
Proof. intros H%(f_equal String.length). rewrite string_length_app in H. cbn in H. lia. Qed.

(** ** Chains *)

(** The steps lead from one name, size and digest to another, each from where the one before ended. *)
Fixpoint chained (p : string) (n : Z) (h : bytes) (steps : list TransformSpec) (p' : string) (n' : Z) (h' : bytes)
    : Prop :=
  match steps with
  | [] => p = p' ∧ n = n' ∧ h = h'
  | s :: steps =>
      ts_original_member_path s = p ∧ ts_original_size_bytes s = n ∧ ts_original_sha256 s = h ∧
      chained (ts_stored_member_path s) (ts_stored_size_bytes s) (ts_stored_sha256 s) steps p' n' h'
  end.

Section facts.
Context (sha256 : bytes → bytes) (sha256_hex : string → string).
Context (compress : Z → bytes → bytes) (decompress : bytes → option bytes) (zstd_version : string).
Context (fnmatchcase : string → string → bool) (path_match : string → string → bool).
Context (utf8 : bytes → bool) (accepts : string → bytes → bool).
Context (escape_path_name : SourcePath → string) (escape_path_text : string → string).
Context (path_of : string → list string) (path_text : list string → string).
(** What [zstandard] promises: a frame decompresses to what was compressed. *)
Hypothesis zstd_inverse : ∀ level content, decompress (compress level content) = Some content.

Local Abbreviation stage := (stage_artifact sha256 sha256_hex compress zstd_version fnmatchcase path_match utf8 accepts
  escape_path_name escape_path_text path_of path_text).
Local Abbreviation merge := (merge_appledouble sha256_hex utf8 accepts path_text).

Lemma merge_spec_of source staged mp h n policy t t' s c :
  merge source staged mp h n policy t = (t', Ok s) → file_at t staged = Some c →
  file_at t' staged = Some c ∧ chained mp n h [s] mp n h ∧ ts_reversible s = false.
Proof.
  intros H Hc. unfold merge_appledouble in H. apply stage_bind in H as (t1 & t2 & [= <- <-] & H).
  destruct (t !! with_name source _) as [[raw x|]|].
  - apply stage_bind in H as (t1 & [entries names] & Hm & H). apply stage_bind in H as (t2 & [] & Hu & [= <- <-]).
    split; [|done]. unfold merge_sidecar in Hm. destruct (parse_sidecar raw) as [es|]; [|done].
    destruct (apply_entries _ _ _ _ _) as [y r]. injection Hm as <- _.
    unfold unlink_if_exists in Hu. set (t1 := set_attributes staged y t) in *.
    assert (H1 : file_at t1 staged = Some c) by (unfold t1; by rewrite set_attributes_keeps).
    destruct (t1 !! _) as [[c' x'|]|]; try done; injection Hu as <-; [|done].
    unfold file_at. rewrite lookup_delete_ne; [done|]. apply with_name_ne, dot_underscore_ne.
  - done.
  - by injection H as <- <-.
Qed.

Lemma stage_copy_spec b source root mp t t' p c :
  stage_copy b source root mp t = (t', Ok p) → file_at t source = Some c → file_at t' p = Some c ∧ (b = false → t' = t ∧ p = source).
Proof.
  intros H Hc. unfold stage_copy in H. destruct b; [|by injection H as <- <-].
  apply stage_bind in H as (t1 & q & [-> _]%liftr_spec & H). apply stage_bind in H as (t2 & [] & Hm & H).
  apply stage_bind in H as (t3 & [] & Hcp & [= <- <-]). split; [|done].
  apply copy2_spec in Hcp as (c' & Hs & Hd). by rewrite (make_parents_keeps _ _ _ _ Hm), Hc in Hs; simplify_eq.
Qed.

Lemma stage_compress_spec policy current root logical n h t t' p s c :
  stage_compress sha256 compress zstd_version policy current root logical n h t = (t', Ok (p, s)) →
  file_at t current = Some c →
  ∃ level, file_at t' p = Some (compress level c) ∧ ts_kind s = ZSTD_FILE_KIND ∧ ts_reversible s = true ∧
    chained logical n h [s] (logical +:+ ZSTD_SUFFIX) (blen (compress level c)) (sha256 (compress level c)).
Proof.
  intros H Hc. unfold stage_compress in H. apply stage_bind in H as (t1 & q & [-> _]%liftr_spec & H).
  apply stage_bind in H as (t2 & [] & Hm & H). apply stage_bind in H as (t3 & level & [-> _]%liftr_spec & H).
  apply stage_bind in H as (t4 & content & [-> Hr]%read_file_spec & H).
  apply stage_bind in H as (t5 & [] & Hw & H). apply stage_bind in H as (t6 & packed & [-> Hp]%read_file_spec & H).
  injection H as <- <- <-. rewrite (make_parents_keeps _ _ _ _ Hm), Hc in Hr. injection Hr as <-.
  apply write_file_spec in Hw. rewrite Hw in Hp. injection Hp as <-. exists level. by split_and!.
Qed.

(** ** Restoring *)

(** What a restore reads of the recorded steps *)
Definition step_shape (r : StagingTransform) : string * bool * Z := (tr_kind r, tr_reversible r, tr_step_order r).
Definition spec_shape (n : nat) (s : TransformSpec) : string * bool * Z := (ts_kind s, ts_reversible s, Z.of_nat n).

Lemma sort_two (r0 r1 : StagingTransform) :
  tr_step_order r0 = 0 → tr_step_order r1 = 1 → sort_by (λ s, - tr_step_order s) [r0; r1] = [r1; r0].
Proof.
  intros H0 H1. apply (key_sorted_unique (λ s, - tr_step_order s)).
  - apply sort_by_sorted.
  - repeat constructor. cbn. rewrite H0, H1. done.
  - rewrite sort_by_perm. apply Permutation_swap.
  - intros x y Hx Hy. rewrite elem_of_sort_by in Hx, Hy. set_unfold. destruct Hx as [->|[->|[]]], Hy as [->|[->|[]]]; rewrite ?H0, ?H1; done.
Qed.

Lemma reverse_plain rows content :
  Forall (λ r, tr_reversible r = false) rows → (length rows <= 1)%nat →
  reverse_transforms sha256 decompress content rows = Ok (content, sha256 content, blen content).
Proof.
  intros Hf Hl. unfold reverse_transforms. destruct rows as [|r [|r' rows]]; [done| |cbn in Hl; lia].
  apply Forall_cons in Hf as [Hf _]. change (sort_by _ [r]) with [r]. rewrite filter_cons_False; [done|by rewrite Hf].
Qed.

Lemma reverse_zstd rows r level content :
  tr_kind r = ZSTD_FILE_KIND → tr_reversible r = true → tr_step_order r = Z.of_nat (length rows) →
  (length rows <= 1)%nat → Forall (λ r, tr_reversible r = false ∧ tr_step_order r = 0) rows →
  reverse_transforms sha256 decompress (compress level content) (rows ++ [r]) = Ok (content, sha256 content, blen content).
Proof.
  intros Hk Hr Ho Hl Hf. unfold reverse_transforms.
  assert (Hs : filter (λ s, tr_reversible s = true) (sort_by (λ s, - tr_step_order s) (rows ++ [r])) = [r]).
  { destruct rows as [|r0 [|? ?]]; [| |cbn in Hl; lia].
    - change (sort_by _ ([] ++ [r])) with [r]. rewrite filter_cons_True by done. done.
    - apply Forall_cons in Hf as [[Hf0 Ho0] _]. cbn [app]. rewrite sort_two by done.
      rewrite filter_cons_True by done. rewrite filter_cons_False; [done|by rewrite Hf0]. }
  rewrite Hs. cbn [reverse_steps]. rewrite decide_True by done. rewrite zstd_inverse. done.
Qed.

Lemma shapes_single rows steps :
  (length steps <= 1)%nat → Forall (λ s, ts_reversible s = false) steps →
  step_shape <$> rows = imap spec_shape steps →
  length rows = length steps ∧ Forall (λ r, tr_reversible r = false ∧ tr_step_order r = 0) rows.
Proof.
  intros Hl Hf H. destruct steps as [|s [|? ?]]; [| |cbn in Hl; lia].
  - by apply fmap_nil_inv in H as ->.
  - apply Forall_cons in Hf as [Hf _]. destruct rows as [|r [|? ?]]; [done| |done]. cbn in H. injection H as H1 H2 H3.
    split; [done|]. apply Forall_singleton. rewrite H2, H3. done.
Qed.

Lemma shapes_app rows steps s :
  step_shape <$> rows = imap spec_shape (steps ++ [s]) →
  ∃ rs r, rows = rs ++ [r] ∧ step_shape <$> rs = imap spec_shape steps ∧ step_shape r = spec_shape (length steps) s.
Proof.
  rewrite imap_app. intros (rs & l & Hrs & Hl & ->)%fmap_app_inv.
  destruct l as [|r [|? ?]]; [done| |done]. exists rs, r. split; [done|]. split; [by symmetry|].
  cbn in Hl. injection Hl as H1 H2 H3. unfold step_shape, spec_shape. rewrite <- H1, <- H2, <- H3.
  by rewrite Nat.add_0_r.
Qed.

(** What staging establishes *)
Lemma stage_artifact_spec source_path root policy member_path t t' a :
  stage source_path root policy member_path t = (t', Ok a) →
  ∃ content staged,
    file_at t (path_of source_path) = Some content ∧ file_at t' (st_staged_path a) = Some staged ∧
    st_logical_sha256 a = sha256 content ∧ st_logical_size_bytes a = blen content ∧
    st_staged_sha256 a = sha256 staged ∧ st_staged_size_bytes a = blen staged ∧
    chained (st_logical_member_path a) (st_logical_size_bytes a) (st_logical_sha256 a) (st_transforms a)
      (st_stored_member_path a) (st_staged_size_bytes a) (st_staged_sha256 a) ∧
    ∀ rows, step_shape <$> rows = imap spec_shape (st_transforms a) →
      reverse_transforms sha256 decompress staged rows = Ok (content, sha256 content, blen content).
Proof.
  intros H. unfold stage_artifact in H. apply stage_bind in H as (t1 & t2 & [= <- <-] & H).
  destruct (file_at t (path_of source_path)) as [content|] eqn:Hc; [|done]. case_bool; [done|].
  set (merging := bool_decide _) in H. set (logical := match member_path with None => _ | _ => _ end) in H.
  apply stage_bind in H as (t1 & needs & Hneeds & H).
  assert (t1 = t) as -> by (destruct merging; [by injection Hneeds as <- _|by apply liftr_spec in Hneeds as [-> _]]).
  apply stage_bind in H as (t2 & current & Hcopy & H).
  apply stage_copy_spec with (c := content) in Hcopy as [Hcur _]; [|done].
  apply stage_bind in H as (t3 & merged & Hmerged & H).
  assert (Hm : file_at t3 current = Some content ∧ (length merged <= 1)%nat ∧
    Forall (λ s, ts_reversible s = false) merged ∧
    ∀ steps p n h, chained logical (blen content) (sha256 content) steps p n h →
      chained logical (blen content) (sha256 content) (merged ++ steps) p n h).
  { destruct merging; [|injection Hmerged as <- <-; split_and!; [done|cbn; lia|constructor|done]].
    apply stage_bind in Hmerged as (t4 & s & Hs & [= <- <-]).
    destruct (merge_spec_of _ _ _ _ _ _ _ _ _ _ Hs Hcur) as (Hf & (Hp & Hn & Hh & Hp' & Hn' & Hh') & Hrev).
    split_and!; [done|cbn; lia|by apply Forall_singleton|]. intros steps p n h Hch. cbn.
    split_and!; [done..|]. by rewrite Hp', Hn', Hh'. }
  destruct Hm as (Hcur3 & Hlen & Hrev & Hchain).
  apply stage_bind in H as (t4 & compressing & [-> _]%liftr_spec & H). destruct compressing.
  - apply stage_bind in H as (t5 & [p s] & Hz & [= <- <-]).
    destruct (stage_compress_spec _ _ _ _ _ _ _ _ _ _ _ Hz Hcur3) as (level & Hp & Hk & Hr & Hone).
    exists content, (compress level content). cbn in *. destruct Hone as (O1 & O2 & O3 & O4 & O5 & O6).
    split_and!; [done|done|done|done|done|done| |].
    + apply Hchain. by split_and!.
    + intros rows Hrows. apply shapes_app in Hrows as (rs & r & -> & Hrs & Hs).
      destruct (shapes_single _ _ Hlen Hrev Hrs) as [Hlrs Hfrs].
      unfold step_shape, spec_shape in Hs. injection Hs as Hs1 Hs2 Hs3.
      apply reverse_zstd; [congruence|congruence| |by rewrite Hlrs|done]. by rewrite Hlrs.
  - injection H as <- <-. exists content, content. cbn. split_and!; [done..| |].
    + rewrite <- (app_nil_r merged). by apply Hchain.
    + intros rows Hrows. destruct (shapes_single _ _ Hlen Hrev Hrows) as [Hlrs Hfrs].
      apply reverse_plain; [|by rewrite Hlrs]. eapply Forall_impl; [exact Hfrs|]. by intros r [? _].
Qed.

(** C9: staging keeps the original recoverable.  When a file is staged, the staged file is on disk with
    the size and digest reported, the steps lead without a gap from the logical name, size and digest of
    the source to those of the staged file, and undoing the recorded steps, whatever they were renamed
    to, gives back the source's bytes. *)
Theorem staging_restores source_path root policy member_path t t' a :
  stage source_path root policy member_path t = (t', Ok a) →
  ∃ content staged,
    file_at t (path_of source_path) = Some content ∧ file_at t' (st_staged_path a) = Some staged ∧
    st_logical_sha256 a = sha256 content ∧ st_logical_size_bytes a = blen content ∧
    st_staged_sha256 a = sha256 staged ∧ st_staged_size_bytes a = blen staged ∧
    chained (st_logical_member_path a) (st_logical_size_bytes a) (st_logical_sha256 a) (st_transforms a)
      (st_stored_member_path a) (st_staged_size_bytes a) (st_staged_sha256 a) ∧
    ∀ rows, step_shape <$> rows = imap spec_shape (st_transforms a) →
      reverse_transforms sha256 decompress staged rows = Ok (content, sha256 content, blen content).
Proof. apply stage_artifact_spec. Qed.

(** ** Recording *)

(** The step at position [i] of a chain whose member was given a tag *)
Definition tagged_step (tag : string) (i : nat) (s : TransformSpec) : TransformSpec := {|
  ts_kind := ts_kind s; ts_reversible := ts_reversible s;
  ts_original_member_path := if decide (i = 0%nat) then ts_original_member_path s
                             else tag_member_path (ts_original_member_path s) tag;
  ts_stored_member_path := tag_member_path (ts_stored_member_path s) tag;
  ts_original_size_bytes := ts_original_size_bytes s; ts_stored_size_bytes := ts_stored_size_bytes s;
  ts_original_sha256 := ts_original_sha256 s; ts_stored_sha256 := ts_stored_sha256 s;
  ts_parameters := ts_parameters s; ts_result := ts_result s |}.

Lemma chained_later tag steps : ∀ p n h p' n' h' (f : nat → nat),
  (∀ i, f i ≠ 0%nat) → chained p n h steps p' n' h' →
  chained (tag_member_path p tag) n h (imap (λ i, tagged_step tag (f i)) steps) (tag_member_path p' tag) n' h'.
Proof.
  induction steps as [|s steps IH]; intros p n h p' n' h' f Hf Hc; [by destruct Hc as (-> & -> & ->)|].
  destruct Hc as (H1 & H2 & H3 & Hc). cbn. rewrite decide_False by apply Hf. split_and!; [by rewrite H1|done..|].
  apply (IH _ _ _ _ _ _ (f ∘ S)); [intros i; apply Hf|done].
Qed.

(** The first name of the chain is the source's own and is not tagged. *)
Lemma chained_tagged tag steps p n h p' n' h' :
  steps ≠ [] → chained p n h steps p' n' h' →
  chained p n h (imap (tagged_step tag) steps) (tag_member_path p' tag) n' h'.
Proof.
  destruct steps as [|s steps]; [done|]. intros _ (H1 & H2 & H3 & Hc). cbn. rewrite decide_True by done.
  split_and!; [done..|]. by apply (chained_later tag steps _ _ _ _ _ _ S).
Qed.

Lemma record_steps_fault m artifactclass mid steps : ∀ k n p sz h sz' e,
  chained p sz h steps (bm_member_path m) sz' (bm_file_sha256 m) → (n = 0%nat → h = bm_logical_asset_hash m) →
  record_steps k artifactclass mid m n steps = Err e → e = BundleIntegrityError.
Proof.
  induction steps as [|s steps IH]; intros k n p sz h sz' e Hc Hn H; [done|].
  destruct Hc as (H1 & H2 & H3 & Hc). cbn [record_steps] in H.
  destruct (record_staging_transform k mid m (transform_row artifactclass n s) (bool_decide (steps = [])))
    as [[k1 i]|e1] eqn:Er; cbn [mbind result_bind] in H.
  - destruct (record_steps k1 artifactclass mid m (S n) steps) as [[k2 refs]|e2] eqn:E2; [done|]. injection H as <-.
    eapply (IH k1 (S n)); [exact Hc|done|exact E2].
  - injection H as <-. unfold record_staging_transform in Er. cbn in Er.
    assert (Hlast : steps = [] → ts_stored_member_path s = bm_member_path m ∧ ts_stored_sha256 s = bm_file_sha256 m).
    { intros ->. by destruct Hc as (-> & _ & ->). }
    rewrite (proj2 (andb_false_iff _ _)) in Er.
    2: { case_bool_decide as Hs; [right; destruct (Hlast Hs); by rewrite bool_decide_true|by left]. }
    cbn [raise_if mbind result_bind] in Er. rewrite (proj2 (andb_false_iff _ _)) in Er.
    2: { destruct n as [|n]; [right|left; by apply bool_decide_eq_false]. by rewrite bool_decide_true by (rewrite H3; auto). }
    cbn [raise_if mbind result_bind] in Er. rewrite (proj2 (andb_false_iff _ _)) in Er.
    2: { case_bool_decide as Hs; [right; destruct (Hlast Hs); by rewrite bool_decide_true|by left]. }
    cbn [raise_if mbind result_bind] in Er.
    destruct (existsb _ _); cbn in Er; [by injection Er|done].
Qed.

(** The rung an append was given is the requested name or a tag of it that reads back. *)
Lemma rung_tag q pre path post :
  (∀ s, lacks "/" (sha256_hex s) = true) → is_content_hash (mr_file_sha256 q) = true →
  ladder_of sha256_hex q = pre ++ path :: post →
  path = mr_member_path q ∨
  ∃ tag, path = tag_member_path (mr_member_path q) tag ∧ extract_member_tag (mr_member_path q) path = Some tag.
Proof.
  intros Hhex Hd Hl. assert (Hin : path ∈ ladder_of sha256_hex q) by (rewrite Hl; set_solver).
  unfold ladder_of in Hin. rewrite name_ladder_tags in Hin. apply elem_of_cons in Hin as [->|Hin]; [by left|right].
  apply list_elem_of_fmap in Hin as (tag & -> & Ht). exists tag. split; [done|].
  destruct (ladder_tags_lack _ Hhex _ _ _ Hd Ht). by apply extract_tag.
Qed.

(** *** The rows a recording appends *)

Lemma key_sorted_snoc {A} (f : A → Z) l x :
  key_sorted f l → (∀ y, y ∈ l → ole (f y) (f x) = true) → key_sorted f (l ++ [x]).
Proof.
  intros Hl. induction Hl as [|y l Hs IH Hall]; intros Hx; cbn; [by repeat constructor|]. constructor.
  - apply IH. intros z Hz. apply Hx. by right.
  - apply Forall_app. split; [done|]. constructor; [apply Hx; left|constructor].
Qed.

Lemma tbl_list_appended {V} (v : V) (t : Tbl V) :
  tbl_ok t → tbl_list (tbl_insert v t).1 = tbl_list t ++ [(t_next t, v)].
Proof.
  intros Hok. apply (key_sorted_unique fst); [apply sort_by_sorted|..].
  - apply key_sorted_snoc; [apply sort_by_sorted|]. intros [i x] Hin%elem_of_tbl_list%Hok.
    apply Z.leb_le. cbn. lia.
  - unfold tbl_list at 1. rewrite sort_by_perm. cbn. rewrite map_to_list_insert by by apply tbl_fresh.
    unfold tbl_list. rewrite sort_by_perm. apply Permutation_cons_append.
  - intros [i x] [j y] Hx%elem_of_tbl_list Hy%elem_of_tbl_list. cbn. intros ->. f_equal. congruence.
Qed.

(** The row of the step [s] of member [mid], at position [n] *)
Definition stored_step (artifactclass : string) (mid : Z) (m : BundleMember) (n : nat) (s : TransformSpec)
    : StagingTransform := {|
  tr_bundle_member_id := mid; tr_bundle_id := bm_bundle_id m; tr_logical_asset_hash := bm_logical_asset_hash m;
  tr_artifactclass := artifactclass; tr_step_order := Z.of_nat n; tr_kind := ts_kind s;
  tr_reversible := ts_reversible s; tr_original_member_path := ts_original_member_path s;
  tr_stored_member_path := ts_stored_member_path s; tr_original_size_bytes := ts_original_size_bytes s;
  tr_stored_size_bytes := ts_stored_size_bytes s; tr_original_sha256 := ts_original_sha256 s;
  tr_stored_sha256 := ts_stored_sha256 s; tr_parameters := ts_parameters s; tr_result := ts_result s |}.

(** The rows of [steps] are appended to the table, in their order, and nothing else changes. *)
Definition appends_steps (k k' : Cat) (artifactclass : string) (mid : Z) (m : BundleMember) (n : nat)
    (steps : list TransformSpec) : Prop :=
  ∃ new, tbl_list (transforms k') = tbl_list (transforms k) ++ new ∧
    new.*2 = imap (λ i, stored_step artifactclass mid m (n + i)) steps.

Lemma record_steps_rows artifactclass mid m steps : ∀ k n k' refs,
  tbl_ok (transforms k) → record_steps k artifactclass mid m n steps = Ok (k', refs) →
  appends_steps k k' artifactclass mid m n steps.
Proof.
  induction steps as [|s steps IH]; intros k n k' refs Hok; cbn [record_steps].
  { intros [= <- _]. exists []. split; [by rewrite app_nil_r|done]. }
  intros ([k1 i] & H1 & ([k2 rs] & H2 & [= <- _])%bind_Ok)%bind_Ok. unfold record_staging_transform in H1.
  do 4 (apply bind_Ok in H1 as ([] & _ & H1)). injection H1 as <- _. cbn in H2.
  set (row := {| tr_bundle_member_id := mid |}) in H2.
  destruct (IH (with_transforms (tbl_insert row (transforms k)).1 k) _ _ _ (tbl_insert_ok row _ Hok) H2)
    as (new & Hnew & Hrows).
  exists ((t_next (transforms k), row) :: new). split.
  - rewrite Hnew. cbn [transforms with_transforms]. by rewrite tbl_list_appended, <- app_assoc.
  - cbn. rewrite Hrows, Nat.add_0_r. f_equal. apply imap_ext. intros j x _. cbn. by rewrite Nat.add_succ_r.
Qed.

Lemma appended_member_rows k k' artifactclass mid m steps :
  member_transforms k mid = [] → appends_steps k k' artifactclass mid m 0 steps →
  member_transforms k' mid = imap (stored_step artifactclass mid m) steps.
Proof.
  intros Hnone (new & Hnew & Hrows). unfold member_transforms in *. apply fmap_nil_inv in Hnone.
  change (new.*2 = imap (stored_step artifactclass mid m) steps) in Hrows.
  rewrite Hnew, filter_app, Hnone. cbn [app]. rewrite <- Hrows. f_equal.
  assert (Hall : Forall (λ r, tr_bundle_member_id r = mid) new.*2).
  { rewrite Hrows. apply Forall_forall. intros r Hr. apply elem_of_lookup_imap_1 in Hr as (i & x & -> & _). done. }
  clear -Hall. induction new as [|[j r] new IH]; [done|]. apply Forall_cons in Hall as [Hr Hall].
  rewrite filter_cons_True by done. by rewrite IH.
Qed.

(** What the recording returns of a staged artifact: the member's name and bundle, the same kinds of steps,
    and a chain to the member's name *)
Definition recorded_as (a a' : StagedArtifact) (m : BundleMember) : Prop :=
  st_stored_member_path a' = bm_member_path m ∧ st_bundle_id a' = Some (bm_bundle_id m) ∧
  imap spec_shape (st_transforms a') = imap spec_shape (st_transforms a) ∧
  (st_transforms a' ≠ [] →
   chained (st_logical_member_path a) (st_logical_size_bytes a) (st_logical_sha256 a) (st_transforms a')
     (bm_member_path m) (st_staged_size_bytes a) (st_staged_sha256 a)).

Lemma record_chain_spec k artifactclass mid m created a a' :
  created = true → tbl_ok (transforms k) →
  bm_logical_asset_hash m = st_logical_sha256 a → bm_file_sha256 m = st_staged_sha256 a →
  recorded_as a a' m →
  match record_chain k artifactclass mid m created a' with
  | Ok (k', a'') => a'' = a' ∧ appends_steps k k' artifactclass mid m 0 (st_transforms a')
  | Err e => e = StagingBundle BundleIntegrityError
  end.
Proof.
  intros -> Hok Hh Hf Hrec. unfold record_chain. cbn [negb andb]. unfold lift_staging.
  destruct (record_steps k artifactclass mid m 0 (st_transforms a')) as [[k2 refs]|e] eqn:Er; cbn [mbind result_bind].
  - apply record_steps_rows in Er; [|done]. by destruct refs.
  - f_equal. destruct Hrec as (_ & _ & _ & Hc). destruct (st_transforms a') as [|s steps] eqn:Es; [done|].
    specialize (Hc ltac:(done)). rewrite <- Hf in Hc. by eapply (record_steps_fault m artifactclass mid); [exact Hc| |exact Er].
Qed.

Lemma retag_shapes tag p a : imap spec_shape (st_transforms (retag tag p a)) = imap spec_shape (st_transforms a).
Proof.
  apply list_eq. intros i. cbn [retag st_transforms]. rewrite !list_lookup_imap. by destruct (st_transforms a !! i).
Qed.

Lemma rekey_spec k mid m created a :
  chained (st_logical_member_path a) (st_logical_size_bytes a) (st_logical_sha256 a) (st_transforms a)
    (st_stored_member_path a) (st_staged_size_bytes a) (st_staged_sha256 a) →
  (bm_member_path m = st_stored_member_path a ∨
   ∃ tag, bm_member_path m = tag_member_path (st_stored_member_path a) tag ∧
     extract_member_tag (st_stored_member_path a) (bm_member_path m) = Some tag) →
  ∃ k' m' a', rekey k mid m created (set_bundle (bm_bundle_id m) a) = Ok (k', m', a') ∧ recorded_as a a' m' ∧
    transforms k' = transforms k ∧
    bm_logical_asset_hash m' = bm_logical_asset_hash m ∧ bm_file_sha256 m' = bm_file_sha256 m ∧
    bm_member_path m' = bm_member_path m ∧ bm_bundle_id m' = bm_bundle_id m.
Proof.
  intros Hch Hname. unfold rekey. case_decide as Hd.
  { eexists _, _, _. split; [done|]. split_and!; try done. unfold recorded_as. cbn in *. by rewrite Hd. }
  destruct Hname as [|(tag & Htag & Hex)]; [done|]. cbn [st_stored_member_path set_bundle]. rewrite Hex.
  assert (Hrec : recorded_as a (retag tag (bm_member_path m) (set_bundle (bm_bundle_id m) a)) m).
  { split_and!; [done|done|apply (retag_shapes tag (bm_member_path m) (set_bundle (bm_bundle_id m) a))|].
    intros Hne. rewrite Htag. apply chained_tagged; [|done]. intros Hnil. apply Hne.
    cbn in *. by rewrite Hnil. }
  destruct created; eexists _, _, _; (split; [done|]); by split_and!.
Qed.

Lemma stored_shapes artifactclass mid m steps :
  step_shape <$> imap (stored_step artifactclass mid m) steps = imap spec_shape steps.
Proof. rewrite fmap_imap. by apply imap_ext. Qed.

(** C32: the chain of a staged file is stored with its member and can be undone.  When a staged file
    creates its bundle member, whichever rung of the naming ladder it was given, and no step names the
    new member yet, the recording is refused by the unique index on the stored names or succeeds; the
    checks of [record_staging_transform] never fail.  When it succeeds, exactly the rows of the member's
    steps are appended to the table, in order and after every earlier row; they carry the member's id,
    bundle and asset and lead without a gap from the source's own name, size and digest to the member's
    name and the staged size and digest; and undoing the rows stored for the member on the staged bytes
    gives back the source's bytes. *)
Theorem staged_chain_recorded source_path root policy member_path t t' a content k mint_race race record artifactclass
    bundle_id fresh now k' id ap :
  (∀ c, is_content_hash (sha256 c) = true) → (∀ s, lacks "/" (sha256_hex s) = true) →
  race_ok mint_race → (∀ i, race_ok (race i)) → bundles_ok k →
  stage source_path root policy member_path t = (t', Ok a) → file_at t' (st_staged_path a) = Some content →
  enqueue_artifact sha256_hex escape_path_name escape_path_text k mint_race race record
    (stage_request sha256 path_text artifactclass bundle_id a content) fresh now = Ok (k', id, ap) →
  ap_created ap = true → tbl_ok (transforms k') → member_transforms k' (ap_member_id ap) = [] →
  match record_staged k' artifactclass a ap with
  | Ok (k2, a') =>
      recorded_as a a' (ap_member ap) ∧
      appends_steps k' k2 artifactclass (ap_member_id ap) (ap_member ap) 0 (st_transforms a') ∧
      ∃ source, file_at t (path_of source_path) = Some source ∧
        reverse_transforms sha256 decompress content (member_transforms k2 (ap_member_id ap))
          = Ok (source, sha256 source, blen source)
  | Err e => e = StagingBundle BundleIntegrityError
  end.
Proof.
  intros Hlen Hhex Hmint Hrace Hok Hst Hc Hen Hcr Htab Hnone.
  destruct (stage_artifact_spec _ _ _ _ _ _ _ Hst) as (orig & staged & Ho & Hs & Hlh & _ & Hsh & _ & Hch & Hrev).
  rewrite Hs in Hc. injection Hc as <-. set (q := stage_request _ _ _ _ _ _) in Hen.
  apply enqueue_appends in Hen as (k1 & Hok1 & _ & Happ); [|done..].
  pose proof (append_created _ _ _ _ _ _ _ Happ Hcr) as Hrow.
  apply add_bundle_member_ok in Happ as [_ _ _ _ _ _ _ (pre & post & Hl & _)]; [|done..].
  apply rung_tag in Hl; [|done|apply Hlen].
  assert (Hm : bm_logical_asset_hash (ap_member ap) = st_logical_sha256 a ∧ bm_file_sha256 (ap_member ap) = st_staged_sha256 a)
    by (rewrite Hrow; cbn; by rewrite Hsh).
  destruct Hm as [Hm1 Hm2].
  destruct (rekey_spec k' (ap_member_id ap) (ap_member ap) (ap_created ap) a Hch Hl)
    as (k2 & m2 & a2 & Hre & Hrec & Et & E1 & E2 & E3 & E4).
  unfold record_staged. rewrite Hre. cbn [mbind result_bind].
  pose proof (record_chain_spec k2 artifactclass (ap_member_id ap) m2 (ap_created ap) a a2 Hcr) as Hrc.
  destruct (record_chain _ _ _ _ _ _) as [[k3 a3]|e]; [|by apply Hrc; [rewrite Et|congruence..|]].
  destruct Hrc as [-> Happ]; [by rewrite Et|congruence..|done|].
  assert (Hrec' : recorded_as a a2 (ap_member ap)) by (unfold recorded_as in *; rewrite <- E3, <- E4; done).
  assert (Happ' : appends_steps k' k3 artifactclass (ap_member_id ap) (ap_member ap) 0 (st_transforms a2)).
  { destruct Happ as (new & Hnew & Hrows). exists new. rewrite Hnew, Et. split; [done|]. rewrite Hrows.
    apply imap_ext. intros i x _. unfold stored_step. by rewrite E1, E4. }
  split_and!; [done|done|]. exists orig. split; [done|]. apply Hrev.
  rewrite (appended_member_rows _ _ _ _ _ _ Hnone Happ'), stored_shapes. apply Hrec'.
Qed.
End facts.
