(* ===== verification/Novelty.v ===== *)
(** * Content novelty

    [receive_novelty.py]: whether the asset of an occurrence already meets its class's placement, when
    that suppresses further work for the occurrence, and the disposition counts of an intake. *)

From S2P Require Import Prelude Json JobModels Catalog Durability.

(** A failure other than [ReplicationPolicyMissing] is raised. *)
Definition asset_policy_qualified_durable (k : Cat) (it : IngestItem) : result DurError bool :=
  match policies k !! ii_artifactclass it with
  | None => Ok false
  | Some _ =>
      match placement_status k (AssetTarget (ii_logical_asset_hash it) (ii_artifactclass it)) true with
      | Ok st => Ok (ps_complete st && negb (bool_decide (length (ps_want st) = 0%nat)))
      | Err ReplicationPolicyMissing => Ok false
      | Err e => Err e
      end
  end.

Definition work_suppression_safe (k : Cat) (it : IngestItem) : result DurError bool :=
  if decide (ii_disposition it = KNOWN_DURABLE) then asset_policy_qualified_durable k it else Ok false.

Record NoveltyCounts := {
  nc_total : Z;
  nc_new : Z;
  nc_known_durable : Z;
  nc_known_under_durable : Z;
  nc_reverified : Z;
  nc_legacy_unknown : Z;
}.

Definition novelty_summary (k : Cat) (intake_id : string) : NoveltyCounts :=
  let its := filter (λ it, ii_intake_id it.2 = intake_id) (tbl_list (items k)) in
  let count d := Z.of_nat (length (filter (λ it, ii_disposition it.2 = d) its)) in
  {| nc_total := Z.of_nat (length its); nc_new := count NEW; nc_known_durable := count KNOWN_DURABLE;
     nc_known_under_durable := count KNOWN_UNDER_DURABLE; nc_reverified := count REVERIFIED;
     nc_legacy_unknown := count LEGACY_UNKNOWN |}.

(** The counts split the intake's items. *)
Lemma novelty_summary_total k intake_id :
  let c := novelty_summary k intake_id in
  nc_total c = nc_new c + nc_known_durable c + nc_known_under_durable c + nc_reverified c + nc_legacy_unknown c.
Proof.
  cbn. induction (filter _ _) as [|[i it] l IH]; [done|].
  rewrite !filter_cons. cbn [snd]. destruct (ii_disposition it); repeat case_decide; try done; cbn [length]; lia.
Qed.
