(* ===== verification/Arrangement.v ===== *)
(** * Arrangements and submissions

    [arrangement.py]: a mutable namespace over the master items of one intake, and its freezing into a
    source map, a submission and its member rows.  The helpers never commit: each is a function on the
    catalog, and an exception leaves the caller's transaction to be rolled back.  Files are read and
    written outside the transaction: source files are a function from a path to its bytes, and
    submission directories a map that keeps what a failed submit has written. *)

From Stdlib Require Import Ascii.
From stdpp Require Import pretty.
From S2P Require Import Prelude Json JsonText JobModels Catalog RetryConfig Scrub Accumulator Durability.
From S2P Require Import FanoutMap Novelty.

Inductive ArrangementFault :=
  | ArrangementError (message : string)
  | ArrangementFrozen
  | ArrangementSubmitRace
  | ArrangementIntegrity
  | ArrangementDurability (e : DurError).

(** ** Member paths *)

(** [posixpath.normpath] of a relative path: the components kept so far, in reverse *)
Definition norm_step (kept : list string) (comp : string) : list string :=
  if decide (comp = "" ∨ comp = ".") then kept
  else if decide (comp ≠ ".." ∨ kept = [] ∨ head kept = Some "..") then comp :: kept
  else tail kept.

Definition normpath (value : string) : string :=
  match join "/" (rev (foldl norm_step [] (split_on "/" value))) with
  | "" => "."
  | s => s
  end.

(** [_reject_control_chars] on UTF-8 text: U+0000 to U+001F, U+007F, and U+0080 to U+009F, which are
    the two bytes C2 80 to C2 9F *)
Fixpoint has_control (after_c2 : bool) (s : string) : bool :=
  match s with
  | EmptyString => false
  | String c s =>
      let n := nat_of_ascii c in
      (n <? 32)%nat || (n =? 127)%nat || (after_c2 && (128 <=? n)%nat && (n <=? 159)%nat) ||
      has_control (n =? 194)%nat s
  end.

Definition reject_control_chars (value label : string) : result ArrangementFault unit :=
  raise_if (has_control false value) (ArrangementError (label +:+ " contains a control character")).

Section arrangement.
(** [unicodedata.normalize("NFC", value)], the files of the landing tree, their digest *)
Context (nfc : string → string) (files : string → option bytes) (sha256 : bytes → bytes).
Context (sha256_hex : string → string) (isoformat : time → string).

Definition canonical_member_path (value : string) : result ArrangementFault string :=
  _ ← raise_if (bool_decide (value = "")) (ArrangementError "member_path must be a non-empty string");
  _ ← reject_control_chars value "member_path";
  _ ← raise_if (negb (lacks "\" value)) (ArrangementError "member_path must use forward slashes");
  _ ← raise_if (negb (bool_decide (nfc value = value))) (ArrangementError "member_path must be NFC-normalized");
  _ ← raise_if (bool_decide (is_Some (strip_prefix "/" value))) (ArrangementError "member_path must be relative");
  let normalized := normpath value in
  _ ← raise_if (bool_decide (normalized = "" ∨ normalized = ".")) (ArrangementError "member_path must name a file");
  _ ← raise_if (negb (bool_decide (normalized = value))) (ArrangementError "member_path must be normalized");
  _ ← raise_if (existsb (λ p, bool_decide (p = "" ∨ p = "." ∨ p = "..")) (split_on "/" normalized))
        (ArrangementError "member_path must not contain empty, '.', or '..' segments");
  Ok normalized.

(** ** Rows *)

Definition mutable_status (st : ArrangementStatus) : bool :=
  match st with DRAFT | PENDING_DERIVATIVES | READY => true | SUBMITTED | ARR_ABANDONED => false end.

Definition accepts_landing_work (row : Intake) : bool :=
  match in_retention_state row with RELEASED | PURGED => false | _ => true end.

Definition assert_intake_accepts_landing_work (row : Intake) : result ArrangementFault unit :=
  raise_if (negb (accepts_landing_work row))
    (ArrangementError "use virtual arrangements for post-archive organizing").

(** The members of an arrangement, in path order *)
Definition members_of (k : Cat) (id : Z) : list (Z * ArrangementMember) :=
  sort_by (λ im, am_member_path im.2)
    (filter (λ im, am_arrangement_id im.2 = id) (tbl_list (arrangement_members k))).

Definition get_arrangement (k : Cat) (id : Z) : result ArrangementFault Arrangement :=
  match t_rows (arrangements k) !! id with
  | Some a => Ok a
  | None => Err (ArrangementError "arrangement does not exist")
  end.

Definition get_mutable_arrangement (k : Cat) (id : Z) : result ArrangementFault Arrangement :=
  a ← get_arrangement k id;
  _ ← raise_if (negb (mutable_status (ar_status a))) ArrangementFrozen;
  Ok a.

(** [_one_active_member_by_path] and [_one_excluded_member_by_path] *)
Definition one_member_by_path (k : Cat) (id : Z) (path : string) (excluded : bool)
    : result ArrangementFault (Z * ArrangementMember) :=
  match filter (λ im, am_member_path im.2 = path ∧ am_excluded im.2 = excluded) (members_of k id) with
  | [] => Err (ArrangementError "arrangement has no such member")
  | [m] => Ok m
  | _ => Err (ArrangementError "arrangement has ambiguous member")
  end.

(** A row other than [mid] holds the path in the partial unique index. *)
Definition path_taken (k : Cat) (id mid : Z) (path : string) : bool :=
  existsb (λ im, negb (bool_decide (im.1 = mid)) && negb (am_excluded im.2) &&
                 bool_decide (am_member_path im.2 = path)) (members_of k id).

Definition touch_arrangement (now : time) (a : Arrangement) : Arrangement := {|
  ar_label := ar_label a; ar_intake_id := ar_intake_id a; ar_artifactclass := ar_artifactclass a;
  ar_status := ar_status a; ar_submission_id := ar_submission_id a; ar_cloned_from := ar_cloned_from a;
  ar_updated_at := now; ar_submitted_at := ar_submitted_at a |}.

Definition put_arrangement_member (mid : Z) (m : ArrangementMember) (k : Cat) : Cat :=
  with_arrangement_members (tbl_put mid m (arrangement_members k)) k.

Definition update_member (k : Cat) (id mid : Z) (a : Arrangement) (m : ArrangementMember) (path : string)
    (excluded : bool) (now : time) : Cat :=
  with_arrangements (tbl_put id (touch_arrangement now a) (arrangements k))
    (put_arrangement_member mid
       {| am_arrangement_id := am_arrangement_id m; am_ingest_item_id := am_ingest_item_id m;
          am_member_path := path; am_excluded := excluded; am_updated_at := now |} k).

(** ** Editing *)

Definition move_member (k : Cat) (id : Z) (from_path to_path : string) (now : time)
    : result ArrangementFault (Cat * Z) :=
  a ← get_mutable_arrangement k id;
  source_path ← canonical_member_path from_path;
  target_path ← canonical_member_path to_path;
  '(mid, m) ← one_member_by_path k id source_path false;
  _ ← raise_if (path_taken k id mid target_path) (ArrangementError "duplicate active archive path");
  Ok (update_member k id mid a m target_path (am_excluded m) now, mid).

Definition exclude_member (k : Cat) (id : Z) (member_path : string) (now : time)
    : result ArrangementFault (Cat * Z) :=
  a ← get_mutable_arrangement k id;
  archive_path ← canonical_member_path member_path;
  '(mid, m) ← one_member_by_path k id archive_path false;
  Ok (update_member k id mid a m (am_member_path m) true now, mid).

Definition include_member (k : Cat) (id : Z) (member_path : string) (now : time)
    : result ArrangementFault (Cat * Z) :=
  a ← get_mutable_arrangement k id;
  archive_path ← canonical_member_path member_path;
  '(mid, m) ← one_member_by_path k id archive_path true;
  _ ← raise_if (path_taken k id mid archive_path) (ArrangementError "duplicate active archive path");
  Ok (update_member k id mid a m (am_member_path m) false now, mid).

(** ** Creation *)

(** The INSERT of an active member; the partial unique index refuses a second row at the path. *)
Definition add_arrangement_member (k : Cat) (id item : Z) (path : string) (now : time)
    : result ArrangementFault Cat :=
  _ ← raise_if (existsb (λ im, negb (am_excluded im.2) && bool_decide (am_member_path im.2 = path))
                  (members_of k id)) ArrangementIntegrity;
  Ok (with_arrangement_members
        (tbl_insert {| am_arrangement_id := id; am_ingest_item_id := item; am_member_path := path;
                       am_excluded := false; am_updated_at := now |} (arrangement_members k)).1 k).

Definition add_arrangement (k : Cat) (label intake_id artifactclass : string) (cloned_from : option Z)
    (now : time) : Cat * Z :=
  let '(t, id) := tbl_insert {| ar_label := label; ar_intake_id := intake_id;
                                ar_artifactclass := artifactclass; ar_status := DRAFT;
                                ar_submission_id := None; ar_cloned_from := cloned_from;
                                ar_updated_at := now; ar_submitted_at := None |} (arrangements k) in
  (with_arrangements t k, id).

Definition is_derived (k : Cat) (item : Z) : bool :=
  existsb (λ e, bool_decide (ad_derived_item_id e.2 = item)) (tbl_list (derivations k)).

Fixpoint drop_suppressed (k : Cat) (its : list (Z * IngestItem))
    : result ArrangementFault (list (Z * IngestItem)) :=
  match its with
  | [] => Ok []
  | it :: its =>
      match work_suppression_safe k it.2 with
      | Err e => Err (ArrangementDurability e)
      | Ok suppressed =>
          rest ← drop_suppressed k its;
          Ok (if suppressed then rest else it :: rest)
      end
  end.

Definition registered (k : Cat) (intake_id : string) : bool :=
  match intakes k !! intake_id with Some i => bool_decide (in_status i = REGISTERED) | None => false end.

Definition live_master_items_for_intake (k : Cat) (intake_id : string)
    : result ArrangementFault (list (Z * IngestItem)) :=
  drop_suppressed k
    (sort_by (λ it, ii_as_received_path it.2)
       (filter (λ it, (bool_decide (ii_intake_id it.2 = intake_id) && registered k intake_id &&
                       negb (is_derived k it.1)) = true) (tbl_list (items k)))).

Fixpoint named_items (its : list (Z * IngestItem)) : result ArrangementFault (list (Z * string)) :=
  match its with
  | [] => Ok []
  | it :: its =>
      path ← canonical_member_path (ii_as_received_path it.2);
      rest ← named_items its;
      Ok ((it.1, path) :: rest)
  end.

(** The flush of the appended members *)
Fixpoint add_members (k : Cat) (id : Z) (ms : list (Z * string)) (now : time) : result ArrangementFault Cat :=
  match ms with
  | [] => Ok k
  | (item, path) :: ms => k ← add_arrangement_member k id item path now; add_members k id ms now
  end.

Definition create_from_intake (k : Cat) (intake_id label : string) (now : time)
    : result ArrangementFault (Cat * Z) :=
  _ ← raise_if (bool_decide (label = "")) (ArrangementError "arrangement label must be non-empty");
  match intakes k !! intake_id with
  | None => Err (ArrangementError "intake does not exist")
  | Some row =>
      _ ← raise_if (negb (bool_decide (in_status row = REGISTERED)))
            (ArrangementError "arrangement requires registered");
      _ ← assert_intake_accepts_landing_work row;
      let '(k, id) := add_arrangement k label intake_id (in_artifactclass row) None now in
      its ← live_master_items_for_intake k intake_id;
      ms ← named_items its;
      k ← add_members k id ms now;
      Ok (k, id)
  end.

Definition create_from_arrangement (k : Cat) (source_id : Z) (label : string) (now : time)
    : result ArrangementFault (Cat * Z) :=
  _ ← raise_if (bool_decide (label = "")) (ArrangementError "arrangement label must be non-empty");
  source ← get_arrangement k source_id;
  _ ← match intakes k !! ar_intake_id source with
      | Some row => assert_intake_accepts_landing_work row
      | None => Ok tt
      end;
  let ms := (λ im, (am_ingest_item_id im.2, am_member_path im.2)) <$>
              filter (λ im, am_excluded im.2 = false) (members_of k source_id) in
  let '(k, id) := add_arrangement k label (ar_intake_id source) (ar_artifactclass source) (Some source_id) now in
  k ← add_members k id ms now;
  Ok (k, id).

(** ** Submission *)

Definition validate_live_master (k : Cat) (item : Z) (it : IngestItem) : result ArrangementFault unit :=
  match intakes k !! ii_intake_id it with
  | None => Err (ArrangementError "item is not in a registered intake")
  | Some row =>
      _ ← raise_if (negb (bool_decide (in_status row = REGISTERED)))
            (ArrangementError "item is not in a registered intake");
      _ ← assert_intake_accepts_landing_work row;
      raise_if (is_derived k item) (ArrangementError "item is a derived item, not a master")
  end.

Definition source_path_for_item (it : IngestItem) : result ArrangementFault string :=
  match dget "source_path" (ii_item_metadata it) with
  | Some (JStr (String c s)) => Ok (String c s)
  | _ => Err (ArrangementError "item has no source_path")
  end.

Definition source_map_entry (k : Cat) (a : Arrangement) (archive_path : string) (item : Z)
    : result ArrangementFault SourceMapEntry :=
  match t_rows (items k) !! item with
  | None => Err (ArrangementError "arrangement member references a missing ingest item")
  | Some it =>
      _ ← validate_live_master k item it;
      _ ← raise_if (negb (bool_decide (ii_artifactclass it = ar_artifactclass a)))
            (ArrangementError "artifactclass does not match");
      source_path ← source_path_for_item it;
      _ ← reject_control_chars source_path "source_path";
      match files source_path with
      | None => Err (ArrangementError "source_path is missing or not a file")
      | Some content =>
          _ ← raise_if (negb (bool_decide (sha256 content = ii_logical_asset_hash it)))
                (ArrangementError "source_path hashes to another digest");
          _ ← raise_if (negb (bool_decide (Z.of_nat (String.length content) = ii_size_bytes it)))
                (ArrangementError "source_path has another size");
          Ok {| sme_archive_path := archive_path; sme_source_path := source_path;
                sme_sha256 := ii_logical_asset_hash it; sme_size_bytes := ii_size_bytes it;
                sme_ingest_item_id := Some item |}
      end
  end.

Fixpoint source_map_entries (k : Cat) (a : Arrangement) (seen : list string) (ms : list (Z * ArrangementMember))
    : result ArrangementFault (list SourceMapEntry) :=
  match ms with
  | [] => Ok []
  | m :: ms =>
      archive_path ← canonical_member_path (am_member_path m.2);
      _ ← raise_if (bool_decide (archive_path ∈ seen)) (ArrangementError "duplicate active archive path");
      e ← source_map_entry k a archive_path (am_ingest_item_id m.2);
      rest ← source_map_entries k a (archive_path :: seen) ms;
      Ok (e :: rest)
  end.

Definition build_source_map_entries (k : Cat) (id : Z) (a : Arrangement)
    : result ArrangementFault (list SourceMapEntry) :=
  source_map_entries k a [] (filter (λ im, am_excluded im.2 = false) (members_of k id)).

(** The three files of a submission directory; the JSON document is kept as a value. *)
Record SubmissionFiles := {
  sf_source_map : string;
  sf_submission_json : dict json;
  sf_manifest : string;
}.

Record SubmissionResult := {
  sr_submission_id : string;
  sr_arrangement_id : Z;
  sr_source_map_path : string;
  sr_manifest_digest : string;
  sr_member_count : Z;
}.

Definition SOURCE_MAP_NAME : string := "source-map.tsv".

Definition submission_document (id : string) (arrangement_id : Z) (a : Arrangement) (source_map_path digest : string)
    (count : Z) (submitted_by : string) (now : time) : dict json :=
  [("id", JStr id); ("arrangement_id", JInt arrangement_id); ("artifactclass", JStr (ar_artifactclass a));
   ("source_map_path", JStr source_map_path); ("manifest_digest", JStr digest); ("member_count", JInt count);
   ("status", JStr "pending_archive"); ("submitted_by", JStr submitted_by);
   ("submitted_at", JStr (isoformat now))].

(** [_write_submission_files]: an existing directory is refused. *)
Definition write_submission_files (dirs : gmap string SubmissionFiles) (dir : string) (fs : SubmissionFiles)
    : gmap string SubmissionFiles * result ArrangementFault unit :=
  match dirs !! dir with
  | Some _ => (dirs, Err (ArrangementError "submission directory already exists"))
  | None => (<[dir := fs]> dirs, Ok tt)
  end.

Definition set_submitted (now : time) (a : Arrangement) : Arrangement := {|
  ar_label := ar_label a; ar_intake_id := ar_intake_id a; ar_artifactclass := ar_artifactclass a;
  ar_status := SUBMITTED; ar_submission_id := ar_submission_id a; ar_cloned_from := ar_cloned_from a;
  ar_updated_at := now; ar_submitted_at := Some now |}.

Definition set_submission_id (id : string) (a : Arrangement) : Arrangement := {|
  ar_label := ar_label a; ar_intake_id := ar_intake_id a; ar_artifactclass := ar_artifactclass a;
  ar_status := ar_status a; ar_submission_id := Some id; ar_cloned_from := ar_cloned_from a;
  ar_updated_at := ar_updated_at a; ar_submitted_at := ar_submitted_at a |}.

Definition submission_member (submission_id : string) (ord : Z) (e : SourceMapEntry) : SubmissionMember := {|
  sm_submission_id := submission_id; sm_sha256 := sme_sha256 e; sm_size_bytes := sme_size_bytes e;
  sm_archive_path := sme_archive_path e; sm_ingest_item_id := sme_ingest_item_id e;
  sm_source_path := sme_source_path e; sm_ord := ord |}.

(** The INSERT of the member rows; the unique constraint is on [(submission_id, archive_path)]. *)
Fixpoint add_submission_members (t : Tbl SubmissionMember) (submission_id : string) (ord : Z)
    (entries : list SourceMapEntry) : result ArrangementFault (Tbl SubmissionMember) :=
  match entries with
  | [] => Ok t
  | e :: entries =>
      _ ← raise_if (existsb (λ im, bool_decide (sm_submission_id im.2 = submission_id) &&
                                   bool_decide (sm_archive_path im.2 = sme_archive_path e)) (tbl_list t))
            ArrangementIntegrity;
      add_submission_members (tbl_insert (submission_member submission_id ord e) t).1 submission_id (ord + 1) entries
  end.

(** The rows of the submission; [race] is what other transactions committed before the UPDATE. *)
Definition record_submission (k : Cat) (race : Cat → Cat) (id : Z) (artifactclass submission_id source_map_path digest : string)
    (entries : list SourceMapEntry) (submitted_by : string) (now : time) : result ArrangementFault Cat :=
  let k := race k in
  match t_rows (arrangements k) !! id with
  | None => Err ArrangementSubmitRace
  | Some a =>
      _ ← raise_if (bool_decide (ar_status a = SUBMITTED)) ArrangementSubmitRace;
      _ ← raise_if (bool_decide (is_Some (submissions k !! submission_id)) ||
                    existsb (λ s, bool_decide (su_arrangement_id s.2 = id)) (map_to_list (submissions k)))
            ArrangementIntegrity;
      let row := {| su_arrangement_id := id; su_artifactclass := artifactclass;
                    su_source_map_path := source_map_path; su_manifest_digest := digest;
                    su_member_count := Z.of_nat (length entries); su_status := PENDING_ARCHIVE;
                    su_archived_at := None; su_submitted_by := submitted_by; su_submitted_at := now |} in
      t ← add_submission_members (submission_members k) submission_id 0 entries;
      Ok (with_arrangements (tbl_put id (set_submission_id submission_id (set_submitted now a)) (arrangements k))
            (with_submission_members t (with_submissions (<[submission_id := row]> (submissions k)) k)))
  end.

Definition submit_arrangement (k : Cat) (dirs : gmap string SubmissionFiles) (race : Cat → Cat) (id : Z)
    (submitted_by submission_root : string) (submission_id : option string) (fresh : string) (now : time)
    : gmap string SubmissionFiles * result ArrangementFault (Cat * SubmissionResult) :=
  let prepared :=
    _ ← raise_if (bool_decide (submitted_by = "")) (ArrangementError "submitted_by must be non-empty");
    a ← get_arrangement k id;
    _ ← raise_if (negb (mutable_status (ar_status a))) ArrangementFrozen;
    entries ← build_source_map_entries k id a;
    _ ← raise_if (bool_decide (length entries = 0%nat))
          (ArrangementError "cannot submit an arrangement with no active members");
    Ok (a, entries) in
  match prepared with
  | Err e => (dirs, Err e)
  | Ok (a, entries) =>
      let sid := resolve_bundle_id submission_id fresh in
      let dir := submission_root +:+ "/" +:+ sid in
      let source_map_path := dir +:+ "/" +:+ SOURCE_MAP_NAME in
      let source_map := render_source_map entries in
      let digest := sha256_hex source_map in
      let count := Z.of_nat (length entries) in
      let fs := {| sf_source_map := source_map;
                   sf_submission_json := submission_document sid id a source_map_path digest count submitted_by now;
                   sf_manifest := digest +:+ "  " +:+ SOURCE_MAP_NAME +:+ NEWLINE |} in
      let '(dirs, written) := write_submission_files dirs dir fs in
      (dirs,
       _ ← written;
       k ← record_submission k race id (ar_artifactclass a) sid source_map_path digest entries submitted_by now;
       Ok (k, {| sr_submission_id := sid; sr_arrangement_id := id; sr_source_map_path := source_map_path;
                 sr_manifest_digest := digest; sr_member_count := count |}))
  end.

(** ** Inspection *)

Record ArrangementSummary := {
  as_id : Z;
  as_label : string;
  as_intake_id : string;
  as_artifactclass : string;
  as_status : ArrangementStatus;
  as_submission_id : option string;
  as_cloned_from : option Z;
  as_member_count : Z;
  as_active_member_count : Z;
}.

Definition summarize_arrangement (k : Cat) (ia : Z * Arrangement) : ArrangementSummary :=
  let ms := members_of k ia.1 in
  {| as_id := ia.1; as_label := ar_label ia.2; as_intake_id := ar_intake_id ia.2;
     as_artifactclass := ar_artifactclass ia.2; as_status := ar_status ia.2;
     as_submission_id := ar_submission_id ia.2; as_cloned_from := ar_cloned_from ia.2;
     as_member_count := Z.of_nat (length ms);
     as_active_member_count := Z.of_nat (length (filter (λ im, am_excluded im.2 = false) ms)) |}.

Definition list_arrangements (k : Cat) : list ArrangementSummary :=
  summarize_arrangement k <$> tbl_list (arrangements k).
End arrangement.
