(* ===== verification/Retention.v ===== *)
(** * The retention gate

    The read-only half of [retention.py]: the witness evidence of copies, the decision of one pool,
    asset and intake, the policy fingerprint, and the holds of the release and of the purge.  Every
    decision is a function of the database, the intake row the session holds, the witness answers and
    the clock.  A hold is the text the code reports. *)

From stdpp Require Import pretty.
From S2P Require Import Prelude Json JsonText JobModels Catalog RetryConfig Conditions Durability.
From S2P Require Import ArchivePredicate Profiles.

Definition DEFAULT_STAGING_GRACE_DAYS : Z := 30.
Definition DEFAULT_BATCH_LIMIT : Z := 25.
Definition WITNESS_MAX_AGE : time := seconds 5.
Definition CLOUD_BLOB_PREFIX : string := "cloud-blob:".
Definition POLICY_FINGERPRINT_VERSION : string := "v1".
Definition TOMBSTONE_BASENAME_VERSION : string := "v1".
Definition DERIVATION_DOMAIN : string := "derivation".

Definition days (n : Z) : time := seconds (n * 86400).

Inductive RetentionFault :=
  | RetentionError (message : string)
  | RetentionValueError (message : string)
  | UnsupportedBackendKind
  | OtherException (message : string).

(** ** Texts of the enumerations *)

Definition retention_text (s : RetentionState) : string :=
  match s with
  | HELD => "held" | RELEASED => "released" | TOMBSTONED => "tombstoned"
  | ABANDONED => "abandoned" | PURGED => "purged"
  end.

Definition intake_status_text (s : IntakeStatus) : string :=
  match s with
  | RECEIVING => "receiving" | VERIFYING => "verifying" | QUARANTINED => "quarantined"
  | REGISTERED => "registered"
  end.

Definition arrangement_text (s : ArrangementStatus) : string :=
  match s with
  | DRAFT => "draft" | PENDING_DERIVATIVES => "pending_derivatives" | READY => "ready"
  | SUBMITTED => "submitted" | ARR_ABANDONED => "abandoned"
  end.

Definition condition_text (c : Condition) : string :=
  match c with
  | OPEN => "open" | BACKOFF => "backoff" | BLOCKED => "blocked" | SUPPRESSED => "suppressed"
  | SATISFIED => "satisfied"
  end.

Definition backend_kind_text (k : BackendKind) : string :=
  match k with
  | REM_TAPE => "rem_tape" | D2_TAPE => "d2_tape" | REM_DISK => "rem_disk"
  | PLAIN_DISK => "plain_disk" | SSH_DISK => "ssh_disk" | S3 => "s3" | GCS => "gcs"
  | AZURE_BLOB => "azure_blob" | MEMORY => "memory"
  end.

(** ** Witnesses *)

(** [backend_declares_retention_witness]: of the adapter classes, only the Remanence one has
    [witness_copy]; a kind without an adapter raises. *)
Definition backend_declares_retention_witness (b : Backend) : option bool :=
  match be_kind b with
  | REM_TAPE => Some true
  | MEMORY | D2_TAPE | S3 | SSH_DISK => Some false
  | REM_DISK | PLAIN_DISK | GCS | AZURE_BLOB => None
  end.

Record WitnessResult := { wr_confirmed : bool; wr_detail : string }.

Record WitnessEvidence := {
  we_eligible : bool;
  we_result : option WitnessResult;
  we_observed_at : time;
}.

Abbreviation WitnessAnswers := (gmap Z WitnessEvidence).

(** A copy the gate must not count: its backend is able to deny it and has not confirmed it. *)
Definition copy_declares_witness (k : Cat) (c : Copy) : bool :=
  match backends k !! cp_backend_id c with
  | Some b => default true (backend_declares_retention_witness b)
  | None => true
  end.

Definition witness_holds (k : Cat) (witnesses : WitnessAnswers) (ic : copy_entry) : bool :=
  match witnesses !! ic.1 with
  | None => copy_declares_witness k ic.2
  | Some w => we_eligible w &&
              negb (match we_result w with Some r => wr_confirmed r | None => false end)
  end.

Definition witness_answers_stale (answers : WitnessAnswers) (now : time) : bool :=
  existsb (λ ia, we_eligible ia.2 && (WITNESS_MAX_AGE <? now - we_observed_at ia.2))
    (map_to_list answers).

(** ** The decision of one pool *)

Record PoolGateStatus := {
  pg_pool_id : string;
  pg_offsite_gate : bool;
  pg_satisfied : bool;
  pg_copy_id : option Z;
  pg_media_id : option string;
  pg_reason : option string;
}.

Definition qualifying_copies_for_pool (k : Cat) (asset_hash : bytes) (pool_id artifactclass : string)
    : list copy_entry :=
  durable_placements k (AssetTarget asset_hash artifactclass) true (Some artifactclass) (Some pool_id).

(** [_copy_media_id] *)
Definition media_id_or_none (k : Cat) (ic : copy_entry) : option string :=
  match copy_media_id k ic with Ok s => Some s | Err _ => None end.

Definition confirmed_media_ids (k : Cat) : gset string :=
  dom (filter (λ mc, oc_revoked_at mc.2 = None) (offsite k)).

(** The loop over the candidates: the first that passes, or why the last of them did not. *)
Fixpoint first_passing (k : Cat) (witnesses : WitnessAnswers) (gated : bool) (saw_witness saw_media : bool)
    (candidates : list copy_entry) : copy_entry * option string + bool * bool :=
  match candidates with
  | [] => inr (saw_witness, saw_media)
  | ic :: candidates =>
      if witness_holds k witnesses ic then first_passing k witnesses gated true saw_media candidates
      else
        let media := media_id_or_none k ic in
        if gated then
          match media with
          | None | Some EmptyString => first_passing k witnesses gated saw_witness true candidates
          | Some m =>
              if bool_decide (m ∈ confirmed_media_ids k) then inl (ic, media)
              else first_passing k witnesses gated saw_witness saw_media candidates
          end
        else inl (ic, media)
  end.

Definition pool_gate_status (k : Cat) (witnesses : WitnessAnswers) (asset_hash : bytes) (t : PoolTarget)
    : PoolGateStatus :=
  let status satisfied copy media reason :=
    {| pg_pool_id := pt_pool_id t; pg_offsite_gate := pt_offsite_gate t; pg_satisfied := satisfied;
       pg_copy_id := copy; pg_media_id := media; pg_reason := reason |} in
  match pools k !! pt_pool_id t with
  | None => status false None None (Some "pool-missing")
  | Some p =>
      let candidates := filter (λ ic, cp_pool_id ic.2 = Some (pt_pool_id t) ∧ cp_backend_id ic.2 = pl_backend_id p)
                          (qualifying_copies_for_pool k asset_hash (pt_pool_id t) (pt_artifactclass t)) in
      match candidates with
      | [] => status false None None (Some "no-verified-copy")
      | ic0 :: _ =>
          match first_passing k witnesses (pt_offsite_gate t) false false candidates with
          | inl (ic, media) => status true (Some ic.1) media None
          | inr (saw_witness, saw_media) =>
              status false (Some ic0.1) (media_id_or_none k ic0)
                (Some (if saw_witness then "rem-unconfirmed"
                       else if saw_media then "missing-media-id" else "offsite-unconfirmed"))
          end
      end
  end.

(** ** The decision of one item *)

Record AssetGateStatus := {
  ag_ingest_item_id : Z;
  ag_logical_asset_hash : bytes;
  ag_artifactclass : string;
  ag_releasable : bool;
  ag_pools : list PoolGateStatus;
}.

Section gate.
Context (sha256_hex : string → string).
(** [f"{type(exc).__name__}:{exc}"] *)
Context (error_text : DurError → string).

Definition policy_expansion_hold (e : DurError) : string :=
  match e with
  | ReplicationPolicyMissing => "policy-missing"
  | _ => "policy-invalid:" +:+ error_text e
  end.

Definition asset_gate_status (k : Cat) (witnesses : WitnessAnswers) (it : Z * IngestItem)
    : AssetGateStatus :=
  let status releasable ps :=
    {| ag_ingest_item_id := it.1; ag_logical_asset_hash := ii_logical_asset_hash it.2;
       ag_artifactclass := ii_artifactclass it.2; ag_releasable := releasable; ag_pools := ps |} in
  match policy_targets k (ii_artifactclass it.2) with
  | Err e => status false [{| pg_pool_id := "<policy>"; pg_offsite_gate := false; pg_satisfied := false;
                              pg_copy_id := None; pg_media_id := None;
                              pg_reason := Some (policy_expansion_hold e) |}]
  | Ok ts =>
      let ps := pool_gate_status k witnesses (ii_logical_asset_hash it.2) <$> ts in
      status (negb (bool_decide (length ps = 0%nat)) && forallb pg_satisfied ps) ps
  end.

(** ** Holds of an intake *)

Definition intake_items (k : Cat) (intake_id : string) : list (Z * IngestItem) :=
  filter (λ it, ii_intake_id it.2 = intake_id) (tbl_list (items k)).

Definition intake_eligibility_holds (row : Intake) (its : list (Z * IngestItem)) : list string :=
  (if decide (in_status row = REGISTERED) then []
   else ["intake-status:" +:+ intake_status_text (in_status row)]) ++
  match its with [] => ["intake-empty"] | _ => [] end.

Definition arrangement_hold (k : Cat) (ia : Z * Arrangement) : list string :=
  let tag := "arrangement:" +:+ pretty ia.1 +:+ ":" in
  match ar_status ia.2 with
  | ARR_ABANDONED => []
  | SUBMITTED =>
      match ar_submission_id ia.2 with
      | None | Some EmptyString => [tag +:+ "submitted-missing-submission"]
      | Some s => if submission_is_archived k s then [] else [tag +:+ "submitted-not-archived"]
      end
  | st => [tag +:+ arrangement_text st]
  end.

Definition arrangement_holds (k : Cat) (intake_id : string) : list string :=
  filter (λ ia, ar_intake_id ia.2 = intake_id) (tbl_list (arrangements k)) ≫= arrangement_hold k.

Definition make_target_key (source_item_id : Z) (job_kind : string) : string :=
  "derivation:" +:+ pretty source_item_id +:+ ":" +:+ job_kind.

Definition derivation_hold (db : JobDB) (item_id : Z) (e : DerivationEntry) : list string :=
  let key := make_target_key item_id (de_job_kind e) in
  match cond_tbl db !! (DERIVATION_DOMAIN, key) with
  | None => ["derivation:" +:+ key +:+ ":missing-condition"]
  | Some c => if decide (rc_condition c = SATISFIED) then []
              else ["derivation:" +:+ key +:+ ":" +:+ condition_text (rc_condition c)]
  end.

(** Lookups in the validated registry do not raise ([entries_for_total]). *)
Definition prepared_profile_holds (d : Database) (row : Intake) (its : list (Z * IngestItem))
    : list string :=
  match in_requested_profile row with
  | None | Some EmptyString => []
  | Some profile =>
      its ≫= (λ it,
        default [] (entries_for PROFILES (ii_artifactclass it.2) (Some profile)
                      (media_kind_for_path (ii_as_received_path it.2)))
        ≫= derivation_hold (jobs d) it.1)
  end.

Definition asset_holds (assets : list AssetGateStatus) : list string :=
  assets ≫= (λ a, omap (λ p,
    if pg_satisfied p then None
    else Some ("asset:" +:+ pretty (ag_ingest_item_id a) +:+ ":pool:" +:+ pg_pool_id p +:+ ":" +:+
               default "None" (pg_reason p))) (ag_pools a)).

(** ** The policy fingerprint *)

(** The active memberships of a class with their pool and backend, in pool order. *)
Definition fingerprint_rows (k : Cat) (artifactclass : string) : list (string * Pool * Backend) :=
  sort_by (λ r, r.1.1)
    (omap (λ cm, if bool_decide (cm.1.1 = artifactclass) && acp_active cm.2 then
                   p ← pools k !! cm.1.2; b ← backends k !! pl_backend_id p; Some (cm.1.2, p, b)
                 else None) (map_to_list (acpools k))).

Definition fingerprint_pool (r : string * Pool * Backend) : result RetentionFault json :=
  match backend_declares_retention_witness r.2 with
  | None => Err UnsupportedBackendKind
  | Some eligible =>
      Ok (JObj [("pool_id", JStr r.1.1); ("backend_id", JInt (pl_backend_id r.1.2));
                ("backend_name", JStr (be_name r.2));
                ("backend_kind", JStr (backend_kind_text (be_kind r.2)));
                ("offsite_gate", JBool (pl_offsite_gate r.1.2)); ("witness_eligible", JBool eligible)])
  end.

Fixpoint each {A B} (f : A → result RetentionFault B) (l : list A) : result RetentionFault (list B) :=
  match l with
  | [] => Ok []
  | x :: l => y ← f x; ys ← each f l; Ok (y :: ys)
  end.

Definition fingerprint_class (k : Cat) (artifactclass : string) : result RetentionFault json :=
  ps ← each fingerprint_pool (fingerprint_rows k artifactclass);
  Ok (JObj [("artifactclass", JStr artifactclass); ("pools", JList ps)]).

Definition item_classes (its : list (Z * IngestItem)) : list string :=
  sort_by (λ x, x) (remove_dups ((λ it, ii_artifactclass it.2) <$> its)).

Definition policy_snapshot (k : Cat) (its : list (Z * IngestItem)) : result RetentionFault json :=
  cs ← each (fingerprint_class k) (item_classes its);
  Ok (JObj [("version", JInt 1); ("artifactclasses", JList cs)]).

Definition policy_fingerprint (k : Cat) (its : list (Z * IngestItem)) : result RetentionFault string :=
  snapshot ← policy_snapshot k its;
  Ok (POLICY_FINGERPRINT_VERSION +:+ ":" +:+ sha256_hex (default "" (json_dumps snapshot))).

(** ** The decision of one intake *)

Record IntakeGateStatus := {
  ig_intake_id : string;
  ig_retention_state : RetentionState;
  ig_releasable : bool;
  ig_holds : list string;
  ig_assets : list AssetGateStatus;
  ig_released_at : option time;
  ig_staging_deleted_at : option time;
  ig_grace_deadline : option time;
  ig_purge_status : string;
  ig_assessed_at : time;
}.

Definition purge_projection (k : Cat) (row : Intake) (holds : list string) (deadline : option time)
    (now : time) (its : list (Z * IngestItem)) : result RetentionFault string :=
  match in_retention_state row with
  | TOMBSTONED => Ok "tombstone-gc-pending"
  | ABANDONED => Ok "abandoned"
  | HELD | PURGED => Ok "not-applicable"
  | RELEASED =>
      match deadline with
      | None => Ok "grace-active"
      | Some dl =>
          if now <=? dl then Ok "grace-active"
          else match in_release_policy_fingerprint row with
               | None => Ok "blocked:missing-policy-fingerprint"
               | Some f =>
                   current ← policy_fingerprint k its;
                   if decide (current ≠ f) then Ok "blocked:policy-changed"
                   else Ok (match holds with h :: _ => "blocked:" +:+ h | [] => "eligible" end)
               end
      end
  end.

Definition local_gate_status (d : Database) (intake_id : string) (row : Intake)
    (witnesses : WitnessAnswers) (require_held : bool) (grace_days : Z) (now : time)
    : result RetentionFault IntakeGateStatus :=
  let its := intake_items (cat d) intake_id in
  let eligibility := intake_eligibility_holds row its in
  let base := eligibility ++ arrangement_holds (cat d) intake_id ++ prepared_profile_holds d row its in
  let assets := match eligibility with
                | [] => asset_gate_status (cat d) witnesses <$> its
                | _ => []
                end in
  let holds := base ++ asset_holds assets in
  let assets_releasable := negb (bool_decide (length assets = 0%nat)) && forallb ag_releasable assets in
  let state_allows := negb require_held || bool_decide (in_retention_state row = HELD) in
  let deadline := (λ t, t + days grace_days) <$> in_released_at row in
  purge ← purge_projection (cat d) row holds deadline now its;
  Ok {| ig_intake_id := intake_id; ig_retention_state := in_retention_state row;
        ig_releasable := state_allows && bool_decide (length base = 0%nat) && assets_releasable;
        ig_holds := holds; ig_assets := assets; ig_released_at := in_released_at row;
        ig_staging_deleted_at := in_staging_deleted_at row; ig_grace_deadline := deadline;
        ig_purge_status := purge; ig_assessed_at := now |}.

Definition hold_reason (st : IntakeGateStatus) : string :=
  match ig_holds st with
  | h :: _ => h
  | [] => "state=" +:+ retention_text (ig_retention_state st)
  end.

(** [gate_now] is the clock the gate reads, [now] the caller's. *)
Definition purge_holds (d : Database) (intake_id : string) (row : Intake) (witnesses : WitnessAnswers)
    (grace_days : Z) (now gate_now : time) : result RetentionFault (list string) :=
  match in_retention_state row, in_released_at row with
  | RELEASED, Some released_at =>
      st ← local_gate_status d intake_id row witnesses false grace_days gate_now;
      let deadline := released_at + days grace_days in
      let holds := ig_holds st ++ (if now <=? deadline then ["grace-active"] else []) in
      match in_release_policy_fingerprint row with
      | None => Ok (holds ++ ["missing-policy-fingerprint"])
      | Some f =>
          current ← policy_fingerprint (cat d) (intake_items (cat d) intake_id);
          Ok (holds ++ if decide (current ≠ f) then ["policy-changed"] else [])
      end
  | st, _ => Ok ["state=" +:+ retention_text st]
  end.
End gate.
