(* ===== verification/RetentionFs.v ===== *)
(** * Files and paths of the retention funnel

    The file-system half of [retention.py]: path guards, the tombstone rename and the idempotent
    delete, over a small POSIX file system.  A path is the list of its components below [/]; a node is
    a file, a directory or a symbolic link; names are resolved the way the kernel does it, links
    followed, with a bound on the number of steps in the place of [ELOOP] and [PATH_MAX]. *)

From Stdlib Require Import Ascii.
From stdpp Require Import pretty.
From S2P Require Import Prelude Json JsonText JobModels Catalog RetryConfig Scrub Accumulator FanoutMap.
From S2P Require Import Durability Profiles Retention.

Abbreviation path := (list string).

Inductive Node :=
  | NFile (content : bytes)
  | NDir
  | NLink (target : string).

Abbreviation Fs := (gmap path Node).

Inductive PathError := ENOENT | ENOTDIR | ELOOP.

(** 4096 is [PATH_MAX]: no path has more components. *)
Definition RESOLVE_STEPS : nat := 4096.

Definition node_at (fs : Fs) (p : path) : option Node :=
  match p with [] => Some NDir | _ => fs !! p end.

Definition absolute_text (s : string) : bool := bool_decide (is_Some (strip_prefix "/" s)).

(** Resolution of [todo] from the resolved directory [done]; [lax] is [strict=False], which goes on
    lexically below a missing component. *)
Fixpoint walk (fuel : nat) (fs : Fs) (lax : bool) (done todo : path) : result PathError path :=
  match fuel with
  | O => Err ELOOP
  | S fuel =>
      match todo with
      | [] => Ok done
      | name :: todo =>
          if decide (name = "..") then walk fuel fs lax (removelast done) todo
          else
            let p := done ++ [name] in
            match fs !! p with
            | Some (NLink t) =>
                walk fuel fs lax (if absolute_text t then [] else done) (path_parts t ++ todo)
            | Some NDir => walk fuel fs lax p todo
            | Some (NFile _) =>
                match todo with
                | [] => Ok p
                | _ => if lax then walk fuel fs lax p todo else Err ENOTDIR
                end
            | None => if lax then walk fuel fs lax p todo else Err ENOENT
            end
      end
  end.

Definition resolve (fs : Fs) (lax : bool) (p : path) : result PathError path :=
  walk RESOLVE_STEPS fs lax [] p.

(** [os.stat] and [os.lstat]; the second does not follow a link in the last component. *)
Definition stat (fs : Fs) (p : path) : result PathError Node :=
  q ← resolve fs false p;
  match node_at fs q with Some n => Ok n | None => Err ENOENT end.

Definition lstat (fs : Fs) (p : path) : result PathError Node :=
  match last p with
  | None => Ok NDir
  | Some name =>
      parent ← resolve fs false (removelast p);
      match node_at fs parent with
      | Some NDir =>
          if decide (name = "..") then Ok NDir
          else match fs !! (parent ++ [name]) with Some n => Ok n | None => Err ENOENT end
      | _ => Err ENOTDIR
      end
  end.

Definition path_exists (fs : Fs) (p : path) : bool := is_ok (stat fs p).

Definition is_file (fs : Fs) (p : path) : bool :=
  match stat fs p with Ok (NFile _) => true | _ => false end.

Definition is_dir (fs : Fs) (p : path) : bool :=
  match stat fs p with Ok NDir => true | _ => false end.

(** ** Effects *)

Definition under (root p : path) : bool := bool_decide (root `prefix_of` p).

(** [shutil.rmtree] of a resolved directory, and [os.replace] of a resolved directory. *)
Definition remove_tree (root : path) (fs : Fs) : Fs := filter (λ pn, under root pn.1 = false) fs.

Definition relocate (s d p : path) : path := if under s p then d ++ drop (length s) p else p.

Definition rename_tree (s d : path) (fs : Fs) : Fs :=
  list_to_map ((λ pn, (relocate s d pn.1, pn.2)) <$> map_to_list (remove_tree d fs)).

(** A directory can replace nothing or an empty directory of an existing parent, and not a path inside
    itself. *)
Definition can_rename (s d : path) (fs : Fs) : bool :=
  match fs !! d with Some (NFile _) | Some (NLink _) => false | _ => true end &&
  forallb (λ pn, negb (under d pn.1) || bool_decide (pn.1 = d)) (map_to_list fs) &&
  match node_at fs (removelast d) with Some NDir => true | _ => false end &&
  negb (under s d).

(** [mkdir(parents=True, exist_ok=True)] below the resolved directory [done] *)
Fixpoint make_dirs (fs : Fs) (done todo : path) : result RetentionFault Fs :=
  match todo with
  | [] => Ok fs
  | name :: todo =>
      let p := done ++ [name] in
      match fs !! p with
      | Some NDir => make_dirs fs p todo
      | None => make_dirs (<[p := NDir]> fs) p todo
      | Some _ => Err (OtherException "mkdir: not a directory")
      end
  end.

(** ** Guards *)

Definition os_fault {A} (r : result PathError A) : result RetentionFault A :=
  match r with Ok a => Ok a | Err _ => Err (OtherException "OSError") end.

(** [_assert_no_symlink_components] from the directory [current] down *)
Fixpoint no_symlinks_from (fs : Fs) (allow_missing_leaf : bool) (current todo : path)
    : result RetentionFault unit :=
  match todo with
  | [] => Ok tt
  | part :: todo =>
      let current := current ++ [part] in
      match lstat fs current with
      | Ok (NLink _) => Err (RetentionError "symlink path component rejected")
      | Ok _ => no_symlinks_from fs allow_missing_leaf current todo
      | Err ENOENT =>
          if allow_missing_leaf then no_symlinks_from fs allow_missing_leaf current todo
          else Err (RetentionError "path component does not exist")
      | Err _ => Err (OtherException "OSError")
      end
  end.

Definition unsafe_delete_root (p : path) : bool := (length p <? 2)%nat.

(** [_is_relative_to]: strictly below *)
Definition strictly_below (p root : path) : bool := under root p && negb (bool_decide (p = root)).

Section files.
Context (sha256_hex : string → string).
(** [json.loads] of a file's bytes, [None] when it raises *)
Context (json_loads : bytes → option json).
(** The working directory, the configured roots and the device of each path *)
Context (cwd : path) (landing_config : list string) (tombstone_config : option string).
Context (device : path → Z).

(** [Path(s).absolute()] *)
Definition absolute (s : string) : path :=
  if absolute_text s then path_parts s else cwd ++ path_parts s.

Definition path_text (p : path) : string := "/" +:+ join "/" p.

Definition landing_root (fs : Fs) (value : string) : result RetentionFault path :=
  let p := absolute value in
  _ ← no_symlinks_from fs false [] p;
  os_fault (resolve fs false p).

Definition landing_roots (fs : Fs) : result RetentionFault (list path) :=
  each (landing_root fs) landing_config.

Definition tombstone_root (fs : Fs) : result RetentionFault path :=
  match tombstone_config with
  | Some (String c s) => Ok (absolute (String c s))
  | _ =>
      roots ← landing_roots fs;
      match roots with
      | first :: _ => Ok (first ++ [".retention-tombstones"])
      | [] => Err (RetentionValueError "no landing roots")
      end
  end.

Definition validate_sentinel (fs : Fs) (root : path) (intake_id : string) : result RetentionFault unit :=
  let sentinel := root ++ ["intake.json"] in
  _ ← no_symlinks_from fs false [] sentinel;
  match stat fs sentinel with
  | Ok (NFile content) =>
      match json_loads content with
      | None => Err (RetentionError "invalid intake sentinel")
      | Some payload =>
          match dget "intake_id" (as_obj (Some payload)) with
          | Some (JStr s) =>
              raise_if (negb (bool_decide (s = intake_id)))
                (RetentionError "intake sentinel identity mismatch")
          | _ => Err (RetentionError "intake sentinel identity mismatch")
          end
      end
  | _ => Err (RetentionError "intake sentinel is not a regular file")
  end.

(** A relative manifest path is checked from the working directory on. *)
Definition no_symlinks_text (fs : Fs) (s : string) : result RetentionFault unit :=
  no_symlinks_from fs false (if absolute_text s then [] else cwd) (path_parts s).

Definition validate_manifest (fs : Fs) (root : path) (row : Intake) : result RetentionFault unit :=
  match in_manifest_path row with
  | None => Ok tt
  | Some s =>
      _ ← no_symlinks_text fs s;
      manifest ← os_fault (resolve fs false (absolute s));
      _ ← raise_if (negb (strictly_below manifest root)) (RetentionError "manifest escapes the staging root");
      match stat fs manifest with
      | Ok (NFile content) =>
          match in_manifest_digest row with
          | None => Err (RetentionError "manifest digest is missing")
          | Some digest => raise_if (negb (bool_decide (sha256_hex content = digest)))
                             (RetentionError "manifest digest mismatch")
          end
      | _ => Err (RetentionError "manifest is not a regular file")
      end
  end.

Definition validate_staging_root (fs : Fs) (root : path) (intake_id : string) (row : Intake)
    : result RetentionFault unit :=
  _ ← no_symlinks_from fs false [] root;
  resolved ← os_fault (resolve fs false root);
  _ ← raise_if (unsafe_delete_root resolved) (RetentionError "unsafe staging root");
  roots ← landing_roots fs;
  _ ← raise_if (negb (existsb (strictly_below resolved) roots))
        (RetentionError "staging root is outside the configured landing roots");
  _ ← validate_sentinel fs resolved intake_id;
  validate_manifest fs resolved row.

Definition tombstone_basename (intake_id : string) : string :=
  TOMBSTONE_BASENAME_VERSION +:+ "-" +:+ sha256_hex intake_id.

Definition validate_tombstone_path (fs : Fs) (p : path) (intake_id : string) : result RetentionFault unit :=
  root ← tombstone_root fs;
  expected_root ← os_fault (resolve fs false root);
  _ ← no_symlinks_from fs true [] p;
  resolved ← os_fault (resolve fs true p);
  _ ← raise_if (negb (bool_decide (removelast resolved = expected_root)))
        (RetentionError "recorded tombstone path is outside the configured root");
  _ ← raise_if (negb (bool_decide (last resolved = Some (tombstone_basename intake_id))))
        (RetentionError "recorded tombstone basename does not match the intake");
  if path_exists fs resolved then validate_sentinel fs resolved intake_id else Ok tt.

(** [os.path.commonpath] of the parents of the recorded source paths *)
Fixpoint common_prefix (p q : path) : path :=
  match p, q with
  | x :: p, y :: q => if decide (x = y) then x :: common_prefix p q else []
  | _, _ => []
  end.

Definition source_parent (it : Z * IngestItem) : option path :=
  match dget "source_path" (ii_item_metadata it.2) with
  | Some (JStr (String c s)) => Some (removelast (absolute (String c s)))
  | _ => None
  end.

Definition staging_root_for_intake (its : list (Z * IngestItem)) (row : Intake) : option path :=
  match in_manifest_path row with
  | Some (String c s) => Some (removelast (absolute (String c s)))
  | _ => match omap source_parent its with
         | [] => None
         | p :: ps => Some (foldl common_prefix p ps)
         end
  end.

(** [_preflight_staging_paths]: the file system with the tombstone root made, and both paths *)
Definition preflight_staging_paths (fs : Fs) (its : list (Z * IngestItem)) (intake_id : string)
    (row : Intake) : result RetentionFault (Fs * path * path) :=
  match staging_root_for_intake its row with
  | None => Err (RetentionError "staging root is not recorded")
  | Some staging =>
      root ← tombstone_root fs;
      _ ← no_symlinks_from fs true [] root;
      resolved_root ← os_fault (resolve fs true root);
      fs ← make_dirs fs [] resolved_root;
      _ ← no_symlinks_from fs false [] root;
      let tombstone := root ++ [tombstone_basename intake_id] in
      if path_exists fs tombstone && negb (path_exists fs staging) then
        _ ← validate_tombstone_path fs tombstone intake_id;
        Ok (fs, staging, tombstone)
      else
        _ ← validate_staging_root fs staging intake_id row;
        s ← os_fault (resolve fs false staging);
        t ← os_fault (resolve fs false root);
        _ ← raise_if (negb (device s =? device t))
              (RetentionError "tombstone root is not on the staging filesystem");
        Ok (fs, staging, tombstone)
  end.

(** ** Rename and delete *)

Definition atomic_tombstone (fs : Fs) (source destination : path) (intake_id : string)
    : Fs * result RetentionFault unit :=
  if path_exists fs destination then
    (fs, _ ← validate_sentinel fs destination intake_id;
         raise_if (path_exists fs source) (RetentionError "both staging and tombstone paths exist"))
  else if negb (path_exists fs source) then
    (fs, Err (RetentionError "staging path disappeared before tombstone rename"))
  else
    match resolve fs false source, resolve fs true destination with
    | Ok s, Ok d =>
        if can_rename s d fs
        then let fs := rename_tree s d fs in (fs, validate_sentinel fs destination intake_id)
        else (fs, Err (OtherException "OSError"))
    | _, _ => (fs, Err (OtherException "OSError"))
    end.

(** How a recursive removal ends: complete, or cut short by an error or a crash with some entries
    left. *)
Inductive Removal := Complete | Interrupted (remains : path → bool).

Definition delete_path_idempotent (removal : Removal) (fs : Fs) (p : path)
    : Fs * result RetentionFault unit :=
  match resolve fs true p with
  | Err _ => (fs, Err (OtherException "OSError"))
  | Ok resolved =>
      if unsafe_delete_root resolved
      then (fs, Err (RetentionError "refusing to delete unsafe staging path"))
      else if is_dir fs resolved then
        match removal with
        | Complete => (remove_tree resolved fs, Ok tt)
        | Interrupted remains =>
            (filter (λ pn, (negb (under resolved pn.1) || remains pn.1) = true) fs,
             Err (OtherException "OSError"))
        end
      else (delete resolved fs, Ok tt)
  end.
End files.
