(* ===== verification/Submission.v ===== *)
(** * Convergence of submissions onto the accumulator

    [archive_submission.py]: the members of a frozen submission are verified against their files and
    appended to the group accumulator through [enqueue_artifact]; the link recorded in each member's
    metadata makes the append re-entrant, and the status is a projection of the archive predicate.
    Files live in the POSIX file system of the retention funnel. *)

From S2P Require Import Prelude Json JobModels Catalog Scrub BundleGroup Accumulator ArchivePredicate.
From S2P Require Import FanoutMap Profiles RetentionFs.

Inductive SubmissionFault :=
  | ArchiveSubmissionError (message : string)
  | SubmissionPolicyMissing
  | SubmissionSymlinkLoop
  | SubmissionBundle (e : BundleError).

Definition lift_bundle {A} (r : result BundleError A) : result SubmissionFault A :=
  match r with Ok a => Ok a | Err e => Err (SubmissionBundle e) end.

Record ArchiveSubmissionResult := {
  asr_submission_id : string;
  asr_bundle_ids : list string;
  asr_copies_by_bundle : gmap string (list Z);
  asr_archived : bool;
  asr_noop : bool;
}.

Definition copy_ids (r : ArchiveSubmissionResult) : list Z :=
  asr_bundle_ids r ≫= λ id, default [] (asr_copies_by_bundle r !! id).

(** ** Where the members are *)

Definition member_links (m : BundleMember) : list (string * Z) :=
  submission_links (default [] (bm_source_metadata m)).

(** The rows of a submission, by [ord] *)
Definition submission_rows (k : Cat) (sid : string) : list (Z * SubmissionMember) :=
  sort_by (λ ir, sm_ord ir.2) (filter (λ ir, sm_submission_id ir.2 = sid) (tbl_list (submission_members k))).

Definition add_links (sid : string) (found : gmap Z (Z * BundleMember)) (im : Z * BundleMember)
    : gmap Z (Z * BundleMember) :=
  foldl (λ found l, if decide (l.1 = sid) then <[l.2 := im]> found else found) found (member_links im.2).

Definition submission_bundle_members (k : Cat) (sid : string) : gmap Z (Z * BundleMember) :=
  let digests := (λ ir, sm_sha256 ir.2) <$> submission_rows k sid in
  foldl (add_links sid) ∅ (filter (λ im, bm_logical_asset_hash im.2 ∈ digests) (tbl_list (members k))).

Definition submission_bundles (k : Cat) (sid : string) : list (string * Bundle) :=
  let ids := (λ e, bm_bundle_id e.2.2) <$> map_to_list (submission_bundle_members k sid) in
  sort_by opening_order (filter (λ ib, ib.1 ∈ ids) (map_to_list (bundles k))).

(** ** The derived status *)

Definition set_status (st : SubmissionStatus) (at_time : option time) (s : Submission) : Submission := {|
  su_arrangement_id := su_arrangement_id s; su_artifactclass := su_artifactclass s;
  su_source_map_path := su_source_map_path s; su_manifest_digest := su_manifest_digest s;
  su_member_count := su_member_count s; su_status := st; su_archived_at := at_time;
  su_submitted_by := su_submitted_by s; su_submitted_at := su_submitted_at s |}.

Definition refresh_submission_status (k : Cat) (sid : string) (s : Submission) (now : time) : Cat * Submission :=
  let put s := (with_submissions (<[sid := s]> (submissions k)) k, s) in
  if submission_is_archived k sid then
    if decide (su_status s = ARCHIVED) then (k, s) else put (set_status ARCHIVED (Some now) s)
  else if decide (su_status s = ACCUMULATED) then (k, s)
  else put (set_status ACCUMULATED None s).

Definition bundle_copies (k : Cat) (id : string) : list Z :=
  fst <$> filter (λ ic, cp_bundle_id ic.2 = Some id) (tbl_list (copies k)).

Definition submission_result (k : Cat) (sid : string) (s : Submission) (noop : bool) : ArchiveSubmissionResult :=
  let ids := fst <$> submission_bundles k sid in
  {| asr_submission_id := sid; asr_bundle_ids := ids;
     asr_copies_by_bundle := list_to_map ((λ id, (id, bundle_copies k id)) <$> ids);
     asr_archived := bool_decide (su_status s = ARCHIVED); asr_noop := noop |}.

(** ** Verification *)

Section submission.
Context (sha256 : bytes → bytes) (sha256_hex : string → string) (cwd : path).
Context (escape_path_name : SourcePath → string) (escape_path_text : string → string).

Definition verified_source_map_path (fs : Fs) (s : Submission) : result SubmissionFault unit :=
  match stat fs (absolute cwd (su_source_map_path s)) with
  | Ok (NFile content) =>
      raise_if (negb (bool_decide (sha256_hex content = su_manifest_digest s)))
        (ArchiveSubmissionError "submission source-map digest drifted")
  | _ => Err (ArchiveSubmissionError "submission source-map is missing")
  end.

(** [Path(manifest_path).parent / "data"] *)
Definition data_path (manifest_path : string) : path :=
  (if absolute_text manifest_path then [] else cwd) ++ removelast (path_parts manifest_path) ++ ["data"].

Definition source_root (k : Cat) (fs : Fs) (s : Submission) : result SubmissionFault path :=
  let manifest :=
    a ← t_rows (arrangements k) !! su_arrangement_id s;
    i ← intakes k !! ar_intake_id a;
    in_manifest_path i in
  match manifest with
  | None | Some "" => Err (ArchiveSubmissionError "intake has no manifest_path")
  | Some manifest_path =>
      match resolve fs true (data_path manifest_path) with
      | Err _ => Err SubmissionSymlinkLoop
      | Ok root =>
          _ ← raise_if (negb (is_dir fs root)) (ArchiveSubmissionError "submission source root is missing");
          Ok root
      end
  end.

Definition verify_source (fs : Fs) (root : path) (m : SubmissionMember) : result SubmissionFault unit :=
  match resolve fs false (absolute cwd (sm_source_path m)) with
  | Err ELOOP => Err SubmissionSymlinkLoop
  | Err _ => Err (ArchiveSubmissionError "source_path is unavailable")
  | Ok resolved =>
      _ ← raise_if (negb (under root resolved)) (ArchiveSubmissionError "source_path escapes source root");
      match stat fs resolved with
      | Ok (NFile content) =>
          _ ← raise_if (negb (bool_decide (sha256 content = sm_sha256 m)))
                (ArchiveSubmissionError "source_path hashes to another digest");
          raise_if (negb (bool_decide (Z.of_nat (String.length content) = sm_size_bytes m)))
            (ArchiveSubmissionError "source_path has another size")
      | _ => Err (ArchiveSubmissionError "source_path is not a file")
      end
  end.

Fixpoint verify_sources (fs : Fs) (root : path) (rows : list (Z * SubmissionMember)) : result SubmissionFault unit :=
  match rows with
  | [] => Ok tt
  | r :: rows => _ ← verify_source fs root r.2; verify_sources fs root rows
  end.

(** ** Convergence *)

Definition enqueue_request (s : Submission) (sid : string) (ir : Z * SubmissionMember) : EnqueueRequest := {|
  eq_artifactclass := su_artifactclass s; eq_logical_asset_hash := sm_sha256 ir.2;
  eq_source_path := Utf8Path (path_str (sm_source_path ir.2)); eq_member_path := Some (sm_archive_path ir.2);
  eq_member_path_is_escaped := true; eq_bundle_id := None;
  eq_source_metadata := Some (submission_link_metadata sid ir.1); eq_size_bytes := sm_size_bytes ir.2;
  eq_file_sha256 := sm_sha256 ir.2 |}.

(** What the environment gives to one append: the transactions of others, the fresh id, the time *)
Record AppendEnv := {
  ae_mint_race : Cat → Cat;
  ae_race : nat → Cat → Cat;
  ae_fresh : string;
  ae_now : time;
}.

Fixpoint append_members (k : Cat) (env : Z → AppendEnv) (policy : ArtifactClassPolicyRecord) (s : Submission)
    (sid : string) (already : gmap Z (Z * BundleMember)) (rows : list (Z * SubmissionMember))
    : result SubmissionFault Cat :=
  match rows with
  | [] => Ok k
  | r :: rows =>
      if decide (is_Some (already !! r.1)) then append_members k env policy s sid already rows
      else
        let e := env r.1 in
        '(k, _, _) ← lift_bundle (enqueue_artifact sha256_hex escape_path_name escape_path_text k (ae_mint_race e)
                                    (ae_race e) policy (enqueue_request s sid r) (ae_fresh e) (ae_now e));
        append_members k env policy s sid already rows
  end.

Definition archive_submission (k : Cat) (fs : Fs) (env : Z → AppendEnv) (sid : string) (now : time)
    : result SubmissionFault (Cat * ArchiveSubmissionResult) :=
  match submissions k !! sid with
  | None => Err (ArchiveSubmissionError "no submission")
  | Some s =>
      let rows := submission_rows k sid in
      _ ← raise_if (bool_decide (length rows = 0%nat)) (ArchiveSubmissionError "submission has no members");
      let already := submission_bundle_members k sid in
      if bool_decide (size already = length rows) then
        let '(k, s) := refresh_submission_status k sid s now in
        Ok (k, submission_result k sid s true)
      else
        _ ← verified_source_map_path fs s;
        root ← source_root k fs s;
        _ ← verify_sources fs root rows;
        policy ← match policies k !! su_artifactclass s with
                 | Some p => Ok p
                 | None => Err SubmissionPolicyMissing
                 end;
        k ← append_members k env policy s sid already rows;
        let '(k, s) := refresh_submission_status k sid s now in
        Ok (k, submission_result k sid s false)
  end.
End submission.
