(* ===== verification/ArrangementFacts.v ===== *)
(** * Correctness of arrangements and submissions

    Editing keeps the namespace of an arrangement sound; submitting freezes it into rows that mirror its
    active members exactly, and nothing an arrangement operation does changes them afterwards. *)

From Stdlib Require Import Ascii.
From stdpp Require Import pretty.
From S2P Require Import Prelude Json JsonText JobModels Catalog RetryConfig Scrub Accumulator Durability.
From S2P Require Import EngineFacts DurabilityFacts NamingFacts FanoutMap FanoutMapFacts Novelty Arrangement.
From S2P Require Import Submission.

(** ** Tables *)

(** A filtered table depends only on the rows that pass the filter. *)
Lemma tbl_filter_ext {V} (P : Z * V → Prop) `{∀ x, Decision (P x)} (t t' : Tbl V) :
  (∀ i v, P (i, v) → t_rows t !! i = Some v ↔ t_rows t' !! i = Some v) →
  filter P (tbl_list t) = filter P (tbl_list t').
Proof.
  intros Hext. apply (key_sorted_unique fst).
  - apply StronglySorted_filter, sort_by_sorted.
  - apply StronglySorted_filter, sort_by_sorted.
  - apply NoDup_Permutation; [apply (NoDup_fmap_1 fst), NoDup_filter_tbl..|]. intros [i v].
    rewrite !list_elem_of_filter, !elem_of_tbl_list. naive_solver.
  - intros [i v] [i' v']. rewrite !list_elem_of_filter, !elem_of_tbl_list. cbn. intros [_ H1] [_ H2] ->.
    congruence.
Qed.

Lemma elem_of_members_of k id i m :
  (i, m) ∈ members_of k id ↔ t_rows (arrangement_members k) !! i = Some m ∧ am_arrangement_id m = id.
Proof.
  unfold members_of. rewrite elem_of_sort_by, list_elem_of_filter, elem_of_tbl_list. naive_solver.
Qed.

Lemma members_of_ext k k' id :
  (∀ i m, am_arrangement_id m = id →
     t_rows (arrangement_members k') !! i = Some m ↔ t_rows (arrangement_members k) !! i = Some m) →
  members_of k' id = members_of k id.
Proof. intros H. unfold members_of. f_equal. apply tbl_filter_ext. intros i m Hm. by apply H. Qed.

(** ** Paths *)

Lemma no_control_lacks b s c :
  has_control b s = false → (nat_of_ascii c < 32)%nat → lacks c s = true.
Proof.
  revert b. induction s as [|x s IH]; intros b Hc Hn; [done|]. cbn in Hc |- *.
  apply orb_false_iff in Hc as [Hc Hrest]. rewrite !orb_false_iff in Hc. destruct Hc as [[Hx _] _].
  rewrite (IH _ Hrest Hn), andb_true_r. apply negb_true_iff, Ascii.eqb_neq. intros ->.
  apply Nat.leb_gt in Hx. lia.
Qed.

Lemma no_control_plain b s : has_control b s = false → plain_path s.
Proof. intros H. split; eapply no_control_lacks; try exact H; vm_compute; lia. Qed.

Section facts.
Context (nfc : string → string) (files : string → option bytes) (sha256 : bytes → bytes).
Context (sha256_hex : string → string) (isoformat : time → string).
Local Abbreviation canonical := (canonical_member_path nfc).

Lemma canonical_spec v p : canonical v = Ok p → p = v ∧ has_control false v = false.
Proof.
  unfold canonical_member_path, reject_control_chars. intros H. inv_ok. split_bools. done.
Qed.

(** ** The invariant *)

(** The active members of an arrangement as items and paths, in path order *)
Definition active_list (k : Cat) (id : Z) : list (Z * string) :=
  (λ im, (am_ingest_item_id im.2, am_member_path im.2)) <$>
    filter (λ im, am_excluded im.2 = false) (members_of k id).

(** The rows of a submission mirror the active members of its arrangement, in their order. *)
Definition mirrored (k : Cat) (sid : string) (id : Z) : Prop := ∀ n item path,
  (∃ i r, t_rows (submission_members k) !! i = Some r ∧ sm_submission_id r = sid ∧
     sm_ord r = Z.of_nat n ∧ sm_archive_path r = path ∧ sm_ingest_item_id r = Some item) ↔
  active_list k id !! n = Some (item, path).

Record arrangements_ok (k : Cat) : Prop := {
  ao_arrangements : tbl_ok (arrangements k);
  ao_members : tbl_ok (arrangement_members k);
  ao_rows : tbl_ok (submission_members k);
  ao_parent : ∀ i m, t_rows (arrangement_members k) !! i = Some m →
    is_Some (t_rows (arrangements k) !! am_arrangement_id m);
  ao_canonical : ∀ i m, t_rows (arrangement_members k) !! i = Some m →
    canonical (am_member_path m) = Ok (am_member_path m);
  ao_active : ∀ i i' m m', t_rows (arrangement_members k) !! i = Some m →
    t_rows (arrangement_members k) !! i' = Some m' → am_excluded m = false → am_excluded m' = false →
    am_arrangement_id m = am_arrangement_id m' → am_member_path m = am_member_path m' → i = i';
  ao_linked : ∀ id a, t_rows (arrangements k) !! id = Some a → ar_status a = SUBMITTED →
    ∃ sid s, ar_submission_id a = Some sid ∧ submissions k !! sid = Some s ∧ su_arrangement_id s = id;
  ao_submission : ∀ sid s, submissions k !! sid = Some s →
    ∃ a, t_rows (arrangements k) !! su_arrangement_id s = Some a ∧ ar_status a = SUBMITTED ∧
      ar_submission_id a = Some sid ∧ su_artifactclass s = ar_artifactclass a ∧
      mirrored k sid (su_arrangement_id s) ∧
      su_member_count s = Z.of_nat (length (active_list k (su_arrangement_id s))) ∧ 0 < su_member_count s;
  ao_owned : ∀ i r, t_rows (submission_members k) !! i = Some r → is_Some (submissions k !! sm_submission_id r);
}.

(** What an operation leaves alone: every submitted arrangement with its members, every submission and
    every submission member. *)
Record frozen (k k' : Cat) : Prop := {
  fz_arrangement : ∀ id a, t_rows (arrangements k) !! id = Some a → ar_status a = SUBMITTED →
    t_rows (arrangements k') !! id = Some a ∧ members_of k' id = members_of k id;
  fz_submission : ∀ sid s, submissions k !! sid = Some s → submissions k' !! sid = Some s;
  fz_row : ∀ i r, t_rows (submission_members k) !! i = Some r → t_rows (submission_members k') !! i = Some r;
  fz_rows : ∀ i r, t_rows (submission_members k') !! i = Some r → is_Some (submissions k !! sm_submission_id r) →
    t_rows (submission_members k) !! i = Some r;
}.

Lemma active_list_ext k k' id : members_of k' id = members_of k id → active_list k' id = active_list k id.
Proof. unfold active_list. by intros ->. Qed.

(** ** Edits of one arrangement that is not submitted *)

Record edited (k k' : Cat) (id : Z) : Prop := {
  ed_submissions : submissions k' = submissions k;
  ed_rows : submission_members k' = submission_members k;
  ed_others : ∀ j, j ≠ id → t_rows (arrangements k') !! j = t_rows (arrangements k) !! j;
  ed_here : ∃ a, t_rows (arrangements k') !! id = Some a ∧ ar_status a ≠ SUBMITTED;
  ed_was : ∀ a, t_rows (arrangements k) !! id = Some a → ar_status a ≠ SUBMITTED;
  ed_members : ∀ i m, am_arrangement_id m ≠ id →
    t_rows (arrangement_members k') !! i = Some m ↔ t_rows (arrangement_members k) !! i = Some m;
}.

Lemma edited_members_of k k' id j : edited k k' id → j ≠ id → members_of k' j = members_of k j.
Proof. intros He Hj. apply members_of_ext. intros i m Hm. apply (ed_members _ _ _ He). congruence. Qed.

Lemma edited_frozen k k' id : edited k k' id → frozen k k'.
Proof.
  intros He. constructor.
  - intros j a Ha Hst. assert (j ≠ id) as Hj by (intros ->; by apply (ed_was _ _ _ He) in Ha).
    split; [by rewrite (ed_others _ _ _ He)|by eapply edited_members_of].
  - intros sid s. by rewrite (ed_submissions _ _ _ He).
  - intros i r. by rewrite (ed_rows _ _ _ He).
  - intros i r. by rewrite (ed_rows _ _ _ He).
Qed.

Lemma edited_trans k1 k2 k3 id : edited k1 k2 id → edited k2 k3 id → edited k1 k3 id.
Proof.
  intros H1 H2. constructor.
  - by rewrite (ed_submissions _ _ _ H2), (ed_submissions _ _ _ H1).
  - by rewrite (ed_rows _ _ _ H2), (ed_rows _ _ _ H1).
  - intros j Hj. by rewrite (ed_others _ _ _ H2), (ed_others _ _ _ H1).
  - apply H2.
  - apply H1.
  - intros i m Hm. by rewrite (ed_members _ _ _ H2), (ed_members _ _ _ H1).
Qed.

Lemma edited_ok k k' id :
  arrangements_ok k → edited k k' id → tbl_ok (arrangements k') → tbl_ok (arrangement_members k') →
  (∀ i m, t_rows (arrangement_members k') !! i = Some m → am_arrangement_id m = id →
     canonical (am_member_path m) = Ok (am_member_path m)) →
  (∀ i i' m m', t_rows (arrangement_members k') !! i = Some m → t_rows (arrangement_members k') !! i' = Some m' →
     am_arrangement_id m = id → am_arrangement_id m' = id → am_excluded m = false → am_excluded m' = false →
     am_member_path m = am_member_path m' → i = i') →
  arrangements_ok k'.
Proof.
  intros Hok He Ha Hm Hc Hu. pose proof (edited_frozen _ _ _ He) as Hf. constructor; [done|done|..].
  - rewrite (ed_rows _ _ _ He). apply Hok.
  - intros i m Hi. destruct (decide (am_arrangement_id m = id)) as [Hid|Hid].
    + rewrite Hid. destruct (ed_here _ _ _ He) as (a & -> & _). eauto.
    + rewrite (ed_others _ _ _ He) by done. apply (ao_parent _ Hok i), (ed_members _ _ _ He); done.
  - intros i m Hi. destruct (decide (am_arrangement_id m = id)) as [Hid|Hid]; [by eapply Hc|].
    by eapply (ao_canonical _ Hok i), (ed_members _ _ _ He).
  - intros i i' m m' Hi Hi' Hx Hx' Hid Hp. destruct (decide (am_arrangement_id m = id)) as [Hm1|Hm1].
    + eapply (Hu i i' m m'); try done. congruence.
    + apply (ed_members _ _ _ He) in Hi; [|done]. apply (ed_members _ _ _ He) in Hi'; [|congruence].
      by eapply (ao_active _ Hok).
  - intros j a Hj Hst. destruct (decide (j = id)) as [->|Hne].
    + destruct (ed_here _ _ _ He) as (a' & Ha' & Hst'). congruence.
    + rewrite (ed_others _ _ _ He) in Hj by done. rewrite (ed_submissions _ _ _ He). by apply (ao_linked _ Hok).
  - intros sid s. rewrite (ed_submissions _ _ _ He). intros Hs.
    destruct (ao_submission _ Hok _ _ Hs) as (a & Ha' & Hst & Hsid & Hcl & Hmir & Hn & Hpos).
    destruct (fz_arrangement _ _ Hf _ _ Ha' Hst) as [Hrow Hmem]. exists a. split_and!; try done.
    + intros n item path. rewrite (ed_rows _ _ _ He), (active_list_ext _ _ _ Hmem). apply Hmir.
    + by rewrite (active_list_ext _ _ _ Hmem).
  - intros i r. rewrite (ed_rows _ _ _ He), (ed_submissions _ _ _ He). apply (ao_owned _ Hok).
Qed.

(** ** Editing operations *)

Lemma get_arrangement_spec k id a : get_arrangement k id = Ok a → t_rows (arrangements k) !! id = Some a.
Proof. unfold get_arrangement. destruct (_ !! id); congruence. Qed.

Lemma get_mutable_spec k id a :
  get_mutable_arrangement k id = Ok a → t_rows (arrangements k) !! id = Some a ∧ ar_status a ≠ SUBMITTED.
Proof.
  unfold get_mutable_arrangement. intros H. inv_ok. split; [by apply get_arrangement_spec|].
  intros Hst. by rewrite Hst in *.
Qed.

Lemma one_member_spec k id p b mid m :
  one_member_by_path k id p b = Ok (mid, m) →
  t_rows (arrangement_members k) !! mid = Some m ∧ am_arrangement_id m = id ∧ am_member_path m = p ∧
  am_excluded m = b.
Proof.
  unfold one_member_by_path. destruct (filter _ _) as [|x [|y l]] eqn:E; [done| |done]. intros [= ->].
  assert (Hin : (mid, m) ∈ filter (λ im, am_member_path im.2 = p ∧ am_excluded im.2 = b) (members_of k id))
    by (rewrite E; left).
  apply list_elem_of_filter in Hin as [[Hp Hb] Hin]. apply elem_of_members_of in Hin. naive_solver.
Qed.

Lemma path_taken_false k id mid path i m :
  path_taken k id mid path = false → t_rows (arrangement_members k) !! i = Some m → am_arrangement_id m = id →
  am_excluded m = false → am_member_path m = path → i = mid.
Proof.
  intros Ht Hi Hid Hx Hp. destruct (decide (i = mid)) as [|Hne]; [done|]. exfalso.
  unfold path_taken in Ht. apply not_true_iff_false in Ht. apply Ht, existsb_exists.
  exists (i, m). split; [apply list_elem_of_In, elem_of_members_of; done|]. cbn.
  by rewrite bool_decide_false, Hx, bool_decide_true.
Qed.

Lemma update_member_ok k id mid a m path excluded now :
  arrangements_ok k → t_rows (arrangements k) !! id = Some a → ar_status a ≠ SUBMITTED →
  t_rows (arrangement_members k) !! mid = Some m → am_arrangement_id m = id → canonical path = Ok path →
  excluded = true ∨ path_taken k id mid path = false ∨ (path = am_member_path m ∧ am_excluded m = false) →
  arrangements_ok (update_member k id mid a m path excluded now) ∧
  edited k (update_member k id mid a m path excluded now) id.
Proof.
  intros Hok Ha Hst Hm Hid Hc Hfree. set (k' := update_member k id mid a m path excluded now).
  assert (Hrows : ∀ i x, t_rows (arrangement_members k') !! i = Some x →
    i = mid ∧ am_arrangement_id x = id ∧ am_member_path x = path ∧ am_excluded x = excluded ∨
    i ≠ mid ∧ t_rows (arrangement_members k) !! i = Some x).
  { intros i x. cbn. rewrite lookup_insert. case_decide; [|by right]. intros [= <-]. by left. }
  assert (He : edited k k' id).
  { constructor; try done.
    - intros j Hj. cbn. by rewrite lookup_insert_ne.
    - exists (touch_arrangement now a). cbn. by rewrite lookup_insert_eq.
    - congruence.
    - intros i x Hx. split; [intros [(-> & ? & _)|[_ ?]]%Hrows; [done|done]|]. intros Hi. cbn.
      rewrite lookup_insert_ne; [done|]. intros ->. congruence. }
  split; [|done]. apply (edited_ok k k' id); [done|done|..].
  - eapply tbl_put_ok; [done|apply Hok].
  - eapply tbl_put_ok; [done|apply Hok].
  - intros i x [(-> & _ & Hp & _)|[_ Hi]]%Hrows _; [by rewrite Hp|by eapply (ao_canonical _ Hok)].
  - assert (Huniq : ∀ i x, t_rows (arrangement_members k) !! i = Some x → am_arrangement_id x = id →
      am_excluded x = false → excluded = false → am_member_path x = path → i = mid).
    { intros i x Hi Hxid Hx Hex Hp. destruct Hfree as [|[Hf|[-> Hxm]]]; [congruence|by eapply path_taken_false|].
      by eapply (ao_active _ Hok i mid x m); [..|congruence|]. }
    intros i i' x x' [(-> & _ & Hp & Hx)|[Hne Hi]]%Hrows [(-> & _ & Hp' & Hx')|[Hne' Hi']]%Hrows Hid1 Hid2 E1 E2 Heq.
    + done.
    + exfalso. apply Hne'. eapply Huniq; try done; congruence.
    + exfalso. apply Hne. eapply Huniq; try done; congruence.
    + by eapply (ao_active _ Hok i i' x x'); try done; congruence.
Qed.

Lemma arranged_move_ok k id from to now k' mid :
  arrangements_ok k → move_member nfc k id from to now = Ok (k', mid) → arrangements_ok k' ∧ edited k k' id.
Proof.
  intros Hok H. unfold move_member in H. inv_ok. destruct x2 as [i m]. inv_ok.
  apply get_mutable_spec in H0 as [Ha Hst]. apply one_member_spec in H3 as (Hm & Hid & _ & _).
  pose proof (canonical_spec _ _ H2) as [-> _]. eapply update_member_ok; eauto.
Qed.

Lemma exclude_member_ok k id p now k' mid :
  arrangements_ok k → exclude_member nfc k id p now = Ok (k', mid) → arrangements_ok k' ∧ edited k k' id.
Proof.
  intros Hok H. unfold exclude_member in H. inv_ok. destruct x1 as [i m]. inv_ok.
  apply get_mutable_spec in H0 as [Ha Hst]. apply one_member_spec in H2 as (Hm & Hid & _ & _).
  eapply update_member_ok; eauto. by eapply (ao_canonical _ Hok).
Qed.

Lemma include_member_ok k id p now k' mid :
  arrangements_ok k → include_member nfc k id p now = Ok (k', mid) → arrangements_ok k' ∧ edited k k' id.
Proof.
  intros Hok H. unfold include_member in H. inv_ok. destruct x1 as [i m]. inv_ok.
  apply get_mutable_spec in H0 as [Ha Hst]. apply one_member_spec in H2 as (Hm & Hid & Hp & _).
  eapply update_member_ok; eauto; [by eapply (ao_canonical _ Hok)|]. right. left. by rewrite Hp.
Qed.

(** ** Creation *)

Lemma add_arrangement_ok k label intake_id cls cloned now k' id :
  arrangements_ok k → add_arrangement k label intake_id cls cloned now = (k', id) →
  arrangements_ok k' ∧ edited k k' id ∧ members_of k' id = [] ∧ t_rows (arrangements k) !! id = None.
Proof.
  intros Hok H. unfold add_arrangement in H. cbn in H. injection H as Hk Hid. subst k' id.
  pose proof (tbl_fresh _ (ao_arrangements _ Hok)) as Hfresh.
  match goal with |- arrangements_ok ?x ∧ _ => set (k' := x) end. set (id := t_next (arrangements k)) in *.
  assert (Hnone : ∀ i m, t_rows (arrangement_members k) !! i = Some m → am_arrangement_id m ≠ id).
  { intros i m Hi <-. apply (ao_parent _ Hok) in Hi as [a Ha]. congruence. }
  assert (He : edited k k' id).
  { constructor; try done.
    - intros j Hj. cbn. by rewrite lookup_insert_ne.
    - eexists. cbn. by rewrite lookup_insert_eq.
    - congruence. }
  split_and!; [|done| |done].
  - apply (edited_ok k k' id); [done|done|by apply (tbl_insert_ok _ _ (ao_arrangements _ Hok))|apply Hok|..].
    + intros i m Hi Hid. by apply Hnone in Hi.
    + intros i i' m m' Hi _ Hid. by apply Hnone in Hi.
  - destruct (members_of k' id) as [|[i m] l] eqn:E; [done|]. exfalso.
    assert (Hin : (i, m) ∈ members_of k' id) by (rewrite E; left).
    apply elem_of_members_of in Hin as [Hi Hid]. by apply (Hnone i m Hi).
Qed.

Lemma add_arrangement_member_ok k id item path now k' a :
  arrangements_ok k → t_rows (arrangements k) !! id = Some a → ar_status a ≠ SUBMITTED → canonical path = Ok path →
  add_arrangement_member k id item path now = Ok k' →
  arrangements_ok k' ∧ edited k k' id ∧ t_rows (arrangements k') !! id = Some a.
Proof.
  intros Hok Ha Hst Hc H. unfold add_arrangement_member in H. apply bind_Ok in H as ([] & H0%raise_if_Ok & [= <-]).
  pose proof (tbl_fresh _ (ao_members _ Hok)) as Hfresh.
  match goal with |- arrangements_ok ?x ∧ _ => set (k' := x) end.
  set (n := t_next (arrangement_members k)) in *.
  assert (Hrows : ∀ i x, t_rows (arrangement_members k') !! i = Some x →
    i = n ∧ am_arrangement_id x = id ∧ am_member_path x = path ∨
    i ≠ n ∧ t_rows (arrangement_members k) !! i = Some x).
  { intros i x. cbn. rewrite lookup_insert. case_decide; [|by right]. intros [= <-]. by left. }
  assert (Hno : ∀ i m, t_rows (arrangement_members k) !! i = Some m → am_arrangement_id m = id →
    am_excluded m = false → am_member_path m ≠ path).
  { intros i m Hi Hid Hx Hp. apply not_true_iff_false in H0. apply H0, existsb_exists. exists (i, m).
    split; [by apply list_elem_of_In, elem_of_members_of|]. cbn. by rewrite Hx, bool_decide_true. }
  assert (He : edited k k' id).
  { constructor; try done; [by exists a|congruence|]. intros i x Hx. split.
    - intros [(-> & ? & _)|[_ ?]]%Hrows; done.
    - intros Hi. cbn. rewrite lookup_insert_ne; [done|]. intros <-. congruence. }
  split_and!; [|done|done]. apply (edited_ok k k' id); [done|done|apply Hok|by apply (tbl_insert_ok _ _ (ao_members _ Hok))|..].
  - intros i x [(-> & _ & Hp)|[_ Hi]]%Hrows _; [by rewrite Hp|by eapply (ao_canonical _ Hok)].
  - intros i i' x x' [(-> & _ & Hp)|[Hne Hi]]%Hrows [(-> & _ & Hp')|[Hne' Hi']]%Hrows Hid1 Hid2 E1 E2 Heq.
    + done.
    + exfalso. eapply (Hno i' x'); try done. congruence.
    + exfalso. eapply (Hno i x); try done. congruence.
    + by eapply (ao_active _ Hok i i' x x'); try done; congruence.
Qed.

Lemma add_members_ok k id ms now k' a :
  arrangements_ok k → t_rows (arrangements k) !! id = Some a → ar_status a ≠ SUBMITTED →
  Forall (λ ip, canonical ip.2 = Ok ip.2) ms → edited k k id →
  add_members k id ms now = Ok k' → arrangements_ok k' ∧ edited k k' id.
Proof.
  revert k. induction ms as [|[item path] ms IH]; intros k Hok Ha Hst Hc Hk H; cbn in H; [by injection H as <-|].
  apply Forall_cons in Hc as [Hp Hc]. apply bind_Ok in H as (k1 & H1 & H).
  apply (add_arrangement_member_ok _ _ _ _ _ _ a) in H1 as (Hok1 & He1 & Ha1); [|done..].
  destruct (IH k1) as [Hok' He']; [done|done|done|done| |done|].
  - constructor; try done; [by exists a|congruence].
  - split; [done|by eapply edited_trans].
Qed.

Lemma named_items_spec its ms :
  named_items nfc its = Ok ms →
  ms = (λ it, (it.1, ii_as_received_path it.2)) <$> its ∧ Forall (λ ip, canonical ip.2 = Ok ip.2) ms.
Proof.
  revert ms. induction its as [|it its IH]; intros ms H; cbn in H; [by injection H as <-|].
  apply bind_Ok in H as (p & Hp & H). apply bind_Ok in H as (rest & Hrest & [= <-]).
  pose proof (canonical_spec _ _ Hp) as [-> _]. destruct (IH _ Hrest) as [-> Hall]. split; [done|by constructor].
Qed.

Lemma created_ok k k1 id ms now k' :
  arrangements_ok k1 → edited k k1 id → Forall (λ ip, canonical ip.2 = Ok ip.2) ms →
  add_members k1 id ms now = Ok k' → arrangements_ok k' ∧ edited k k' id.
Proof.
  intros Hok He Hc H. destruct (ed_here _ _ _ He) as (a & Ha & Hst).
  destruct (add_members_ok k1 id ms now k' a) as [Hok' He']; try done.
  - constructor; try done; [by exists a|congruence].
  - split; [done|by eapply edited_trans].
Qed.

Lemma create_from_intake_ok k intake_id label now k' id :
  arrangements_ok k → create_from_intake nfc k intake_id label now = Ok (k', id) →
  arrangements_ok k' ∧ edited k k' id.
Proof.
  intros Hok H. unfold create_from_intake in H. apply bind_Ok in H as ([] & _ & H).
  destruct (intakes k !! intake_id) as [row|]; [|done].
  apply bind_Ok in H as ([] & _ & H). apply bind_Ok in H as ([] & _ & H).
  destruct (add_arrangement _ _ _ _ _ _) as [k1 id1] eqn:E. apply add_arrangement_ok in E as (Hok1 & He & _); [|done].
  apply bind_Ok in H as (its & _ & H). apply bind_Ok in H as (ms & Hms & H).
  apply bind_Ok in H as (k2 & Hk2 & [= <- <-]). apply named_items_spec in Hms as [_ Hc].
  by eapply created_ok.
Qed.

Lemma clone_paths_ok k id :
  arrangements_ok k →
  Forall (λ ip, canonical ip.2 = Ok ip.2) (active_list k id).
Proof.
  intros Hok. apply Forall_fmap, Forall_forall. intros [i m] [_ Hin]%list_elem_of_filter.
  apply elem_of_members_of in Hin as [Hi _]. cbn. by apply (ao_canonical _ Hok i).
Qed.

Lemma create_from_arrangement_ok k source label now k' id :
  arrangements_ok k → create_from_arrangement k source label now = Ok (k', id) →
  arrangements_ok k' ∧ edited k k' id.
Proof.
  intros Hok H. unfold create_from_arrangement in H. apply bind_Ok in H as ([] & _ & H).
  apply bind_Ok in H as (a & _ & H). apply bind_Ok in H as ([] & _ & H).
  destruct (add_arrangement _ _ _ _ _ _) as [k1 id1] eqn:E. apply add_arrangement_ok in E as (Hok1 & He & _); [|done].
  apply bind_Ok in H as (k2 & Hk2 & [= <- <-]). apply (created_ok k k1 id1 (active_list k source) now); [done|done|by apply clone_paths_ok|exact Hk2].
Qed.

(** ** Submission *)

Definition entry_key (e : SourceMapEntry) : option Z * string := (sme_ingest_item_id e, sme_archive_path e).

(** What a source-map entry guarantees about the item it stands for. *)
Definition entry_checked (k : Cat) (a : Arrangement) (e : SourceMapEntry) : Prop :=
  ∃ item it content, sme_ingest_item_id e = Some item ∧ t_rows (items k) !! item = Some it ∧
    registered k (ii_intake_id it) = true ∧ is_derived k item = false ∧ ii_artifactclass it = ar_artifactclass a ∧
    sme_sha256 e = ii_logical_asset_hash it ∧ sme_size_bytes e = ii_size_bytes it ∧
    files (sme_source_path e) = Some content ∧ sha256 content = sme_sha256 e ∧
    Z.of_nat (String.length content) = sme_size_bytes e ∧ plain_path (sme_source_path e).

Lemma source_map_entry_spec k a path item e :
  source_map_entry files sha256 k a path item = Ok e →
  sme_archive_path e = path ∧ sme_ingest_item_id e = Some item ∧ entry_checked k a e.
Proof.
  unfold source_map_entry. destruct (t_rows (items k) !! item) as [it|] eqn:Ei; [|done].
  intros H. apply bind_Ok in H as ([] & Hlive & H). apply bind_Ok in H as ([] & Hcls%raise_if_Ok & H).
  apply bind_Ok in H as (sp & Hsp & H). apply bind_Ok in H as ([] & Hctl%raise_if_Ok & H).
  destruct (files sp) as [content|] eqn:Ef; [|done].
  apply bind_Ok in H as ([] & Hsha%raise_if_Ok & H). apply bind_Ok in H as ([] & Hsize%raise_if_Ok & [= <-]).
  cbn. split_and!; [done..|]. exists item, it, content. split_bools. unfold validate_live_master in Hlive.
  destruct (intakes k !! ii_intake_id it) as [row|] eqn:Ein; [|done].
  apply bind_Ok in Hlive as ([] & Hreg%raise_if_Ok & Hlive). apply bind_Ok in Hlive as ([] & _ & Hder%raise_if_Ok).
  split_bools. cbn. split_and!; try done; [|by eapply no_control_plain].
  unfold registered. by rewrite Ein, bool_decide_true.
Qed.

Lemma source_map_entries_spec k a seen ms es :
  source_map_entries nfc files sha256 k a seen ms = Ok es →
  entry_key <$> es = (λ im, (Some (am_ingest_item_id im.2), am_member_path im.2)) <$> ms ∧
  Forall (λ e, entry_checked k a e ∧ plain_path (sme_archive_path e)) es ∧
  NoDup (sme_archive_path <$> es) ∧ (∀ p, p ∈ sme_archive_path <$> es → p ∉ seen).
Proof.
  revert seen es. induction ms as [|m ms IH]; intros seen es H; cbn in H.
  { injection H as <-. split_and!; [done|constructor|constructor|]. intros p []%elem_of_nil. }
  apply bind_Ok in H as (p & Hp & H). apply bind_Ok in H as ([] & Hs%raise_if_Ok & H).
  apply bind_Ok in H as (e & He & H). apply bind_Ok in H as (rest & Hrest & [= <-]).
  pose proof (canonical_spec _ _ Hp) as [-> Hctl]. apply source_map_entry_spec in He as (Hpath & Hitem & Hchk).
  destruct (IH _ _ Hrest) as (Hkeys & Hall & Hnd & Hseen). apply bool_decide_eq_false in Hs.
  split_and!.
  - cbn. f_equal; [|done]. unfold entry_key. by rewrite Hpath, Hitem.
  - constructor; [|done]. split; [done|]. rewrite Hpath. by eapply no_control_plain.
  - cbn. constructor; [|done]. intros Hin. apply Hseen in Hin. rewrite Hpath in Hin. apply Hin. left.
  - intros q. cbn. rewrite elem_of_cons. intros [->|Hq]; [by rewrite Hpath|].
    apply Hseen in Hq. by apply not_elem_of_cons in Hq as [_ ?].
Qed.

Lemma build_entries_spec k id a es :
  build_source_map_entries nfc files sha256 k id a = Ok es →
  entry_key <$> es = (λ ip, (Some ip.1, ip.2)) <$> active_list k id ∧
  Forall (λ e, entry_checked k a e ∧ plain_path (sme_archive_path e)) es ∧ NoDup (sme_archive_path <$> es).
Proof.
  intros (Hk & Hall & Hnd & _)%source_map_entries_spec. split_and!; [|done..].
  rewrite Hk. unfold active_list. by rewrite <- list_fmap_compose.
Qed.

Lemma add_submission_members_spec t sid ord es t' :
  tbl_ok t → add_submission_members t sid ord es = Ok t' →
  tbl_ok t' ∧ ∀ i r, t_rows t' !! i = Some r ↔ t_rows t !! i = Some r ∨
    ∃ n e, es !! n = Some e ∧ i = t_next t + Z.of_nat n ∧ r = submission_member sid (ord + Z.of_nat n) e.
Proof.
  revert t ord. induction es as [|e es IH]; intros t ord Ht H; cbn in H.
  { injection H as <-. split; [done|]. intros i r. split; [by left|]. intros [|(n & e & H & _)]; [done|]. done. }
  apply bind_Ok in H as ([] & _ & H). pose proof (tbl_fresh _ Ht) as Hfresh.
  apply IH in H as [Ht' Hrows]; [|by apply (tbl_insert_ok _ _ Ht)]. split; [done|].
  intros i r. rewrite Hrows. cbn. rewrite lookup_insert_Some. split.
  - intros [[[<- <-]|[_ Hi]]|(n & e' & Hn & -> & ->)]; [right|by left|right].
    + exists 0%nat, e. split_and!; [done|lia|f_equal; lia].
    + exists (S n), e'. split_and!; [done|lia|f_equal; lia].
  - intros [Hi|([|n] & e' & Hn & -> & ->)].
    + left. right. split; [|done]. intros <-. congruence.
    + injection Hn as <-. left. left. split; [lia|f_equal; lia].
    + right. exists n, e'. split_and!; [done|lia|f_equal; lia].
Qed.

(** The arrangement row is locked for the submit: other transactions keep it and its members. *)
Definition locked (k k' : Cat) (id : Z) : Prop :=
  t_rows (arrangements k') !! id = t_rows (arrangements k) !! id ∧ members_of k' id = members_of k id.

Lemma entries_active k id es n item path :
  entry_key <$> es = (λ ip, (Some ip.1, ip.2)) <$> active_list k id →
  (∃ e, es !! n = Some e ∧ sme_archive_path e = path ∧ sme_ingest_item_id e = Some item) ↔
  active_list k id !! n = Some (item, path).
Proof.
  intros Heq. assert (Hn : (entry_key <$> es) !! n = ((λ ip, (Some ip.1, ip.2)) <$> active_list k id) !! n)
    by (by rewrite Heq).
  rewrite !list_lookup_fmap in Hn. unfold entry_key in Hn.
  destruct (es !! n) as [e|], (active_list k id !! n) as [[i p]|]; cbn in Hn; naive_solver.
Qed.

(** The rows just inserted mirror the arrangement they were read from. *)
Lemma mirrored_new k k' t sid id es :
  arrangements_ok k → submissions k !! sid = None → submission_members k' = t → active_list k' id = active_list k id →
  entry_key <$> es = (λ ip, (Some ip.1, ip.2)) <$> active_list k id →
  (∀ i r, t_rows t !! i = Some r ↔ t_rows (submission_members k) !! i = Some r ∨
     ∃ n e, es !! n = Some e ∧ i = t_next (submission_members k) + Z.of_nat n ∧
       r = submission_member sid (0 + Z.of_nat n) e) →
  mirrored k' sid id.
Proof.
  intros Hok Hsid Ht Hact Hkeys Hrows n item p. rewrite Ht, Hact, <- (entries_active k id es n item p Hkeys). split.
  - intros (i & r & Hi & Hr & Hord & Hp & Hit). apply Hrows in Hi as [Hi|(m & e & He & -> & ->)].
    + apply (ao_owned _ Hok) in Hi as [x Hx]. congruence.
    + cbn in *. exists e. split_and!; [|done..]. rewrite <- He. f_equal. lia.
  - intros (e & He & Hp & Hit). eexists _, _. split; [apply Hrows; right; by exists n, e|]. cbn. done.
Qed.

Lemma mirrored_kept k k' sid id :
  active_list k' id = active_list k id →
  (∀ i r, sm_submission_id r = sid →
     t_rows (submission_members k') !! i = Some r ↔ t_rows (submission_members k) !! i = Some r) →
  mirrored k sid id → mirrored k' sid id.
Proof.
  intros Hact Hrows Hm n item p. rewrite Hact, <- (Hm n item p).
  split; intros (i & r & Hi & Hr & Hrest); exists i, r; (split; [by apply Hrows|done]).
Qed.

Lemma record_submission_ok k race id a sid path digest es by_ now k' :
  arrangements_ok (race k) → locked k (race k) id → t_rows (arrangements k) !! id = Some a →
  entry_key <$> es = (λ ip, (Some ip.1, ip.2)) <$> active_list k id → es ≠ [] →
  record_submission k race id (ar_artifactclass a) sid path digest es by_ now = Ok k' →
  arrangements_ok k' ∧ frozen (race k) k' ∧ submissions (race k) !! sid = None ∧
  ∃ s, submissions k' !! sid = Some s ∧ su_arrangement_id s = id ∧ su_manifest_digest s = digest ∧
    su_source_map_path s = path ∧ su_status s = PENDING_ARCHIVE.
Proof.
  intros Hok [Hrow Hmem] Ha Hkeys Hne H. unfold record_submission in H. set (k0 := race k) in *.
  rewrite Hrow, Ha in H. apply bind_Ok in H as ([] & Hst%raise_if_Ok & H).
  apply bind_Ok in H as ([] & Hfree%raise_if_Ok & H). apply bind_Ok in H as (t & Ht & [= <-]).
  split_bools. assert (Hsid : submissions k0 !! sid = None) by (by apply eq_None_not_Some).
  assert (Hnoarr : ∀ s' x, submissions k0 !! s' = Some x → su_arrangement_id x ≠ id).
  { intros s' x Hx Heq. match goal with H : existsb _ _ = false |- _ => rename H into Hex end.
    apply not_true_iff_false in Hex. apply Hex, existsb_exists. exists (s', x).
    split; [by apply list_elem_of_In, elem_of_map_to_list|by apply bool_decide_eq_true]. }
  apply add_submission_members_spec in Ht as [Htok Htrows]; [|apply Hok].
  match goal with |- arrangements_ok ?x ∧ _ => set (k' := x) end.
  assert (Hact : ∀ j, active_list k' j = active_list k0 j) by done.
  assert (Hother : ∀ i r, sm_submission_id r ≠ sid →
    t_rows (submission_members k') !! i = Some r ↔ t_rows (submission_members k0) !! i = Some r).
  { intros i r Hr. cbn. rewrite Htrows. split; [|by left]. intros [|(n & e & _ & _ & ->)]; done. }
  assert (Hkeys0 : active_list k0 id = active_list k id) by (by apply active_list_ext).
  assert (Hfz : frozen k0 k').
  { constructor.
    - intros j x Hx Hs. split; [|done]. cbn. rewrite lookup_insert_ne; [done|]. intros <-.
      rewrite Hrow, Ha in Hx. naive_solver.
    - intros s' x Hx. cbn. rewrite lookup_insert_ne; [done|]. intros <-. congruence.
    - intros i r Hi. cbn. rewrite Htrows. by left.
    - intros i r Hi [x Hx]. apply (Hother i r); [|done]. intros Heq. congruence. }
  split_and!; [|done|done|].
  2: { eexists. cbn. rewrite lookup_insert_eq. by split_and!. }
  constructor.
  - eapply tbl_put_ok; [|apply Hok]. by rewrite Hrow.
  - apply Hok.
  - exact Htok.
  - intros i m Hi. cbn. destruct (decide (am_arrangement_id m = id)) as [->|Hj];
      [rewrite lookup_insert_eq; eauto|rewrite lookup_insert_ne by done; by apply (ao_parent _ Hok i)].
  - apply (ao_canonical _ Hok).
  - apply (ao_active _ Hok).
  - intros j x. cbn. rewrite lookup_insert_Some. intros [[<- <-]|[Hj Hx]] Hs.
    + exists sid. eexists. rewrite lookup_insert_eq. by split_and!.
    + destruct (ao_linked _ Hok _ _ Hx Hs) as (sid' & s & H1 & H2 & H3). exists sid', s.
      rewrite lookup_insert_ne by congruence. done.
  - intros sid' s. cbn [submissions k' with_arrangements with_submission_members with_submissions].
    rewrite lookup_insert_Some. intros [[<- <-]|[Hj Hs]].
    + eexists. cbn [su_arrangement_id]. split; [cbn; by rewrite lookup_insert_eq|]. split_and!; try done.
      * apply (mirrored_new k0 k' t sid id es Hok Hsid eq_refl (Hact id)); [|exact Htrows]. by rewrite Hkeys0.
      * cbn. rewrite Hact, Hkeys0. rewrite <- (length_fmap entry_key es), Hkeys, length_fmap. done.
      * cbn. destruct es; [done|]. cbn. lia.
    + destruct (ao_submission _ Hok _ _ Hs) as (x & H1 & H2 & H3 & H4 & H5 & H6 & H7). exists x.
      split; [cbn; rewrite lookup_insert_ne; [done|]; intros Heq; by apply (Hnoarr _ _ Hs)|].
      split_and!; try done. apply (mirrored_kept k0 k' _ _ (Hact _)); [|exact H5]. intros i r Hr. apply (Hother i r). congruence.
  - intros i r. cbn [submissions k' with_arrangements with_submission_members with_submissions].
    intros Hi. destruct (decide (sm_submission_id r = sid)) as [->|Hr]; [rewrite lookup_insert_eq; eauto|].
    rewrite lookup_insert_ne by done. apply (ao_owned _ Hok i). by apply (Hother i r).
Qed.

Lemma prepared_spec k id by_ a es :
  (_ ← raise_if (bool_decide (by_ = "")) (ArrangementError "submitted_by must be non-empty");
   a ← get_arrangement k id;
   _ ← raise_if (negb (mutable_status (ar_status a))) ArrangementFrozen;
   entries ← build_source_map_entries nfc files sha256 k id a;
   _ ← raise_if (bool_decide (length entries = 0%nat))
         (ArrangementError "cannot submit an arrangement with no active members");
   Ok (a, entries)) = Ok (a, es) →
  t_rows (arrangements k) !! id = Some a ∧ build_source_map_entries nfc files sha256 k id a = Ok es ∧ es ≠ [].
Proof.
  intros H. apply bind_Ok in H as ([] & _ & H). apply bind_Ok in H as (a' & Ha & H).
  apply bind_Ok in H as ([] & _ & H). apply bind_Ok in H as (es' & Hes & H).
  apply bind_Ok in H as ([] & Hne%raise_if_Ok & [= -> ->]). split_and!; [by apply get_arrangement_spec|done|].
  intros ->. done.
Qed.

(** C12: a submission freezes exactly what was arranged.  When a submit succeeds, every active member, in
    path order and no other, has its row; each row's source file was present with the recorded digest
    and size and belongs to a registered master of the arrangement's class; the directory written is
    new and its map, whose digest is recorded, reads back line by line to these rows; the tables stay
    sound and everything submitted before is as it was. *)
Theorem submit_sound k dirs race id by_ root given fresh now dirs' k' r :
  arrangements_ok (race k) → locked k (race k) id →
  submit_arrangement nfc files sha256 sha256_hex isoformat k dirs race id by_ root given fresh now
    = (dirs', Ok (k', r)) →
  arrangements_ok k' ∧ frozen (race k) k' ∧
  ∃ a s es fs, t_rows (arrangements k) !! id = Some a ∧ submissions k' !! sr_submission_id r = Some s ∧
    su_arrangement_id s = id ∧ mirrored k' (sr_submission_id r) id ∧
    entry_key <$> es = (λ ip, (Some ip.1, ip.2)) <$> active_list k id ∧ Forall (entry_checked k a) es ∧
    dirs !! (root +:+ "/" +:+ sr_submission_id r) = None ∧
    dirs' = <[root +:+ "/" +:+ sr_submission_id r := fs]> dirs ∧
    sha256_hex (sf_source_map fs) = su_manifest_digest s ∧
    ∀ n e, es !! n = Some e →
      ∃ line, split_on (ascii_of_nat 10) (sf_source_map fs) !! S n = Some line ∧
        split_on (ascii_of_nat 9) line = source_map_fields e.
Proof.
  intros Hok Hlock H. unfold submit_arrangement in H. cbn zeta in H.
  match type of H with (match ?p with _ => _ end) = _ => destruct p as [[a es]|] eqn:Ep; [|done] end.
  apply prepared_spec in Ep as (Ha & Hes & Hne). apply build_entries_spec in Hes as (Hkeys & Hall & _).
  unfold write_submission_files in H. destruct (dirs !! _) as [|] eqn:Ed; injection H as Hd Hk; [done|].
  apply bind_Ok in Hk as (k1 & Hk1 & [= -> <-]).
  apply (record_submission_ok k race id a) in Hk1 as (Hok' & Hfz & _ & s & Hs & Hid & Hdig & _); [|done..].
  destruct (ao_submission _ Hok' _ _ Hs) as (_ & _ & _ & _ & _ & Hmir & _). rewrite Hid in Hmir.
  split; [done|]. split; [done|]. exists a, s, es. eexists. cbn. split_and!; try done.
  - eapply Forall_impl; [exact Hall|]. by intros e [? _].
  - intros n e Hn. apply map_line_fields; [|done]. eapply Forall_impl; [exact Hall|].
    intros x [(? & ? & ? & Hx) Hp]. split; [done|]. naive_solver.
Qed.

(** A submit that fails leaves every directory that was there. *)
Lemma submit_keeps_dirs k dirs race id by_ root given fresh now dirs' res dir fs :
  submit_arrangement nfc files sha256 sha256_hex isoformat k dirs race id by_ root given fresh now = (dirs', res) →
  dirs !! dir = Some fs → dirs' !! dir = Some fs.
Proof.
  unfold submit_arrangement. cbn zeta.
  match goal with |- (match ?p with _ => _ end) = _ → _ => destruct p as [[a es]|]; [|by intros [= <- _]] end.
  unfold write_submission_files. destruct (dirs !! _) eqn:Ed; intros [= <- _]; [done|].
  intros Hdir. rewrite lookup_insert_ne; [done|]. intros <-. congruence.
Qed.

(** ** The life of arrangements *)

(** One committed transaction: an operation on arrangements, the status refresh that ends
    [archive_submission], or a transaction of another component, none of which writes these tables.
    Transactions follow one another; the edits of two sessions do not interleave. *)
Inductive arr_step (k k' : Cat) : Prop :=
  | step_create intake_id label now id : create_from_intake nfc k intake_id label now = Ok (k', id) → arr_step k k'
  | step_clone source label now id : create_from_arrangement k source label now = Ok (k', id) → arr_step k k'
  | step_move id from to now mid : move_member nfc k id from to now = Ok (k', mid) → arr_step k k'
  | step_exclude id path now mid : exclude_member nfc k id path now = Ok (k', mid) → arr_step k k'
  | step_include id path now mid : include_member nfc k id path now = Ok (k', mid) → arr_step k k'
  | step_submit dirs dirs' id by_ root given fresh now r :
      submit_arrangement nfc files sha256 sha256_hex isoformat k dirs (λ k, k) id by_ root given fresh now
        = (dirs', Ok (k', r)) → arr_step k k'
  | step_refresh sid s now : submissions k !! sid = Some s →
      k' = (refresh_submission_status k sid s now).1 → arr_step k k'
  | step_other : arrangements k' = arrangements k → arrangement_members k' = arrangement_members k →
      submissions k' = submissions k → submission_members k' = submission_members k → arr_step k k'.

(** Two rows of a submission that differ at most in its derived status and the time of it *)
Definition same_terms (s s' : Submission) : Prop := ∃ st t, s' = set_status st t s.

#[local] Instance same_terms_preorder : PreOrder same_terms.
Proof.
  split.
  - intros s. exists (su_status s), (su_archived_at s). by destruct s.
  - intros s1 s2 s3 (st & t & ->) (st' & t' & ->). by exists st', t'.
Qed.

(** What never changes again: every submitted arrangement with its members, the terms of every
    submission, and its rows. *)
Record settled (k k' : Cat) : Prop := {
  se_arrangement : ∀ id a, t_rows (arrangements k) !! id = Some a → ar_status a = SUBMITTED →
    t_rows (arrangements k') !! id = Some a ∧ members_of k' id = members_of k id;
  se_submission : ∀ sid s, submissions k !! sid = Some s →
    ∃ s', submissions k' !! sid = Some s' ∧ same_terms s s';
  se_row : ∀ i r, t_rows (submission_members k) !! i = Some r → t_rows (submission_members k') !! i = Some r;
  se_rows : ∀ i r, t_rows (submission_members k') !! i = Some r → is_Some (submissions k !! sm_submission_id r) →
    t_rows (submission_members k) !! i = Some r;
}.

Lemma frozen_settled k k' : frozen k k' → settled k k'.
Proof.
  intros [H1 H2 H3 H4]. constructor; [done| |done|done]. intros sid s Hs. exists s. split; [by apply H2|reflexivity].
Qed.

#[local] Instance settled_preorder : PreOrder settled.
Proof.
  split; [intros k; apply frozen_settled; by constructor|].
  intros k1 k2 k3 H1 H2. constructor.
  - intros id a Ha Hst. destruct (se_arrangement _ _ H1 _ _ Ha Hst) as [Ha2 Hm2].
    destruct (se_arrangement _ _ H2 _ _ Ha2 Hst) as [Ha3 Hm3]. split; congruence.
  - intros sid s Hs. destruct (se_submission _ _ H1 _ _ Hs) as (s2 & Hs2 & Ht2).
    destruct (se_submission _ _ H2 _ _ Hs2) as (s3 & Hs3 & Ht3). exists s3. split; [done|by etrans].
  - intros i r Hr. by apply H2, H1.
  - intros i r Hr [s Hs]. apply H1; [|eauto]. apply H2; [done|].
    destruct (se_submission _ _ H1 _ _ Hs) as (s2 & Hs2 & _). eauto.
Qed.

(** Rewriting the status of a submission *)
Lemma restatus_ok k sid s st t :
  arrangements_ok k → submissions k !! sid = Some s →
  let k' := with_submissions (<[sid := set_status st t s]> (submissions k)) k in
  arrangements_ok k' ∧ settled k k'.
Proof.
  intros Hok Hs. cbn zeta. set (k' := with_submissions _ _). split.
  - destruct Hok as [H1 H2 H3 H4 H5 H6 H7 H8 H9]. constructor; try assumption; cbn [submissions k' with_submissions].
    + intros id a Ha Hst. destruct (H7 _ _ Ha Hst) as (sid' & s' & ? & Hs' & ?). exists sid'.
      destruct (decide (sid' = sid)) as [->|Hne].
      * simplify_eq. eexists. by rewrite lookup_insert_eq.
      * exists s'. by rewrite lookup_insert_ne by done.
    + intros sid' s'. rewrite lookup_insert_Some. intros [[<- <-]|[_ Hs']]; [|by apply H8]. apply (H8 _ _ Hs).
    + intros i r Hr. rewrite lookup_insert_is_Some'. right. by eapply H9.
  - constructor; try done. intros sid' s' Hs'. cbn [submissions k' with_submissions].
    destruct (decide (sid' = sid)) as [->|Hne].
    + simplify_eq. eexists. rewrite lookup_insert_eq. split; [done|by exists st, t].
    + exists s'. rewrite lookup_insert_ne by done. split; [done|reflexivity].
Qed.

Lemma same_tables_ok k k' :
  arrangements k' = arrangements k → arrangement_members k' = arrangement_members k →
  submissions k' = submissions k → submission_members k' = submission_members k →
  arrangements_ok k → arrangements_ok k' ∧ settled k k'.
Proof.
  intros Ha Hm Hs Hr Hok.
  assert (Hmo : ∀ id, members_of k' id = members_of k id) by (intros id; apply members_of_ext; by rewrite Hm).
  split.
  - destruct Hok as [H1 H2 H3 H4 H5 H6 H7 H8 H9].
    constructor; rewrite ?Ha, ?Hm, ?Hs, ?Hr; try assumption.
    intros sid s Hsid. destruct (H8 _ _ Hsid) as (a & ? & ? & ? & ? & Hmir & Hn & ?).
    exists a. split_and!; try done.
    + intros n item p. rewrite Hr, (active_list_ext _ _ _ (Hmo _)). apply Hmir.
    + by rewrite (active_list_ext _ _ _ (Hmo _)).
  - apply frozen_settled. constructor; rewrite ?Ha, ?Hs, ?Hr; done.
Qed.

Lemma refresh_ok k sid s now :
  arrangements_ok k → submissions k !! sid = Some s →
  arrangements_ok (refresh_submission_status k sid s now).1 ∧ settled k (refresh_submission_status k sid s now).1.
Proof.
  intros Hok Hs. unfold refresh_submission_status. repeat case_match; cbn [fst];
    first [by apply restatus_ok|split; [done|reflexivity]].
Qed.

Lemma arr_step_ok k k' : arrangements_ok k → arr_step k k' → arrangements_ok k' ∧ settled k k'.
Proof.
  intros Hok Hstep. assert (Hed : ∀ id, arrangements_ok k' ∧ edited k k' id → arrangements_ok k' ∧ settled k k')
    by (intros id [? ?]; split; [done|by eapply frozen_settled, edited_frozen]).
  destruct Hstep as [i l n id H|s l n id H|id f t n mid H|id p n mid H|id p n mid H|d d' id b ro g fr n r H|sid s n H ->|];
    [by eapply Hed, create_from_intake_ok|by eapply Hed, create_from_arrangement_ok|by eapply Hed, arranged_move_ok
    |by eapply Hed, exclude_member_ok|by eapply Hed, include_member_ok| |by apply refresh_ok|by apply same_tables_ok].
  unfold submit_arrangement in H. cbn zeta in H.
  match type of H with (match ?p with _ => _ end) = _ => destruct p as [[a es]|] eqn:Ep; [|done] end.
  apply prepared_spec in Ep as (Ha & Hes & Hne). apply build_entries_spec in Hes as (Hkeys & _).
  destruct (write_submission_files _ _ _) as [d1 [[]|e]]; injection H as Hd Hk; [|done].
  apply bind_Ok in Hk as (k1 & Hk1 & [= -> <-]).
  apply (record_submission_ok k (λ k, k) id a) in Hk1 as (? & Hf & _); [|done..]. split; [done|by apply frozen_settled].
Qed.

Lemma empty_arrangements_ok : arrangements_ok empty_cat.
Proof. constructor; cbn; try done; by intros i v; rewrite lookup_empty. Qed.

Lemma arr_steps_ok k k' : arrangements_ok k → rtc arr_step k k' → arrangements_ok k' ∧ settled k k'.
Proof.
  intros Hok H. induction H as [|x y z Hs _ IH]; [split; [done|reflexivity]|].
  destruct (arr_step_ok _ _ Hok Hs) as [Hy Hf]. destruct (IH Hy) as [Hz Hf']. split; [done|by etrans].
Qed.

(** C7: the namespace of every arrangement stays sound, and a submission is final.  Along any sequence of
    committed transactions, one after the other (creations, clones, moves, exclusions, inclusions,
    submissions, refreshes of a submission's derived status, and transactions of other components, which
    do not write these tables): every member path is canonical, no two active members of an arrangement
    share a path, every submission belongs to one submitted arrangement and mirrors its active members in
    path order; and from any point on, submitted arrangements, their members, the rows of their
    submissions and everything of a submission but its status and archival time never change. *)
Theorem arrangement_life_invariant k k' :
  rtc arr_step empty_cat k → rtc arr_step k k' → arrangements_ok k' ∧ settled k k'.
Proof.
  intros H1 H2. apply arr_steps_ok; [|done]. by apply (arr_steps_ok empty_cat k empty_arrangements_ok).
Qed.
End facts.
