(* ===== verification/RetentionRun.v ===== *)
(** * The retention funnel

    The operations of [retention.py]: offsite confirmations, abandonment, release, staging purge and
    the two batches, as programs over a session.

    A session works on a snapshot ([s_work]) of the committed database and makes it durable with
    [commit]; an exception leaves the committed state.  Between two transactions other processes act
    ([others], [files_others]).  The session keeps the intake rows it has loaded, and [session.get]
    returns such a row without reading the database again: [make_session_factory] sets
    [expire_on_commit=False], so only a rollback makes the session forget them.  Every reading of the
    clock and every call to a backend takes the next [s_tick], and [s_trace] lists what an observer
    sees: the database each transaction began with, and every irreversible step with the number of outside
    events before it and the files it meets. *)

From stdpp Require Import pretty.
From S2P Require Import Prelude Json JsonText JobModels Catalog RetryConfig Conditions Durability.
From S2P Require Import FanoutMap ArchivePredicate Profiles Retention RetentionFs.

Inductive Effect :=
  | Began (d : Database)
  | ObjectDeletion (at_ : nat) (ic : copy_entry)
  | Tombstoning (at_ : nat) (fs : Fs) (source destination : path)
  | TreeRemoval (fs : Fs) (p : path).

Record Sess := {
  s_committed : Database;
  s_work : Database;
  s_cache : gmap string Intake;
  s_fs : Fs;
  s_tick : nat;
  s_point : nat;
  s_trace : list Effect;
}.

Definition M (A : Type) : Type := Sess → Sess * result RetentionFault A.

#[export] Instance M_ret : MRet M := λ A a s, (s, Ok a).
#[export] Instance M_bind : MBind M := λ A B f m s,
  match m s with
  | (s, Ok a) => f a s
  | (s, Err e) => (s, Err e)
  end.

Definition raise {A} (e : RetentionFault) : M A := λ s, (s, Err e).
Definition lift {A} (r : result RetentionFault A) : M A := λ s, (s, r).
Definition work : M Database := λ s, (s, Ok (s_work s)).
Definition files : M Fs := λ s, (s, Ok (s_fs s)).

Definition set_work (d : Database) (s : Sess) : Sess := {|
  s_committed := s_committed s; s_work := d; s_cache := s_cache s; s_fs := s_fs s;
  s_tick := s_tick s; s_point := s_point s; s_trace := s_trace s |}.

Definition set_cache (c : gmap string Intake) (s : Sess) : Sess := {|
  s_committed := s_committed s; s_work := s_work s; s_cache := c; s_fs := s_fs s;
  s_tick := s_tick s; s_point := s_point s; s_trace := s_trace s |}.

Definition set_fs (fs : Fs) (s : Sess) : Sess := {|
  s_committed := s_committed s; s_work := s_work s; s_cache := s_cache s; s_fs := fs;
  s_tick := s_tick s; s_point := s_point s; s_trace := s_trace s |}.

Definition modify (f : Cat → Cat) : M unit := λ s, (set_work (with_cat f (s_work s)) s, Ok tt).
Definition put_files (fs : Fs) : M unit := λ s, (set_fs fs s, Ok tt).

Definition emit (e : Effect) : M unit := λ s,
  ({| s_committed := s_committed s; s_work := s_work s; s_cache := s_cache s; s_fs := s_fs s;
      s_tick := s_tick s; s_point := s_point s; s_trace := s_trace s ++ [e] |}, Ok tt).

(** The number of outside events so far *)
Definition moment : M nat := λ s, (s, Ok (s_tick s)).

(** The number of the next outside event *)
Definition tick : M nat := λ s,
  ({| s_committed := s_committed s; s_work := s_work s; s_cache := s_cache s; s_fs := s_fs s;
      s_tick := S (s_tick s); s_point := s_point s; s_trace := s_trace s |}, Ok (s_tick s)).

(** ** Intake rows *)

(** [session.get(Intake, id)] *)
Definition require_intake (intake_id : string) : M Intake := λ s,
  match s_cache s !! intake_id with
  | Some row => (s, Ok row)
  | None =>
      match intakes (cat (s_work s)) !! intake_id with
      | Some row => (set_cache (<[intake_id := row]> (s_cache s)) s, Ok row)
      | None => (s, Err (RetentionError "intake does not exist"))
      end
  end.

(** An assignment to the attributes of a loaded row and its UPDATE, which writes only these columns. *)
Definition update_intake (intake_id : string) (f : Intake → Intake) : M unit := λ s,
  match intakes (cat (s_work s)) !! intake_id with
  | None => (s, Err (OtherException "StaleDataError"))
  | Some row =>
      let s := set_work (with_cat (with_intakes (<[intake_id := f row]> (intakes (cat (s_work s)))))
                           (s_work s)) s in
      (set_cache (alter f intake_id (s_cache s)) s, Ok tt)
  end.

Definition set_state (st : RetentionState) (row : Intake) : Intake := {|
  in_artifactclass := in_artifactclass row; in_status := in_status row; in_retention_state := st;
  in_released_at := in_released_at row; in_staging_deleted_at := in_staging_deleted_at row;
  in_manifest_path := in_manifest_path row; in_manifest_digest := in_manifest_digest row;
  in_requested_profile := in_requested_profile row;
  in_release_policy_fingerprint := in_release_policy_fingerprint row;
  in_staging_tombstoned_at := in_staging_tombstoned_at row;
  in_staging_tombstone_path := in_staging_tombstone_path row |}.

Definition set_released (now : time) (fingerprint : string) (row : Intake) : Intake := {|
  in_artifactclass := in_artifactclass row; in_status := in_status row; in_retention_state := RELEASED;
  in_released_at := Some now; in_staging_deleted_at := in_staging_deleted_at row;
  in_manifest_path := in_manifest_path row; in_manifest_digest := in_manifest_digest row;
  in_requested_profile := in_requested_profile row; in_release_policy_fingerprint := Some fingerprint;
  in_staging_tombstoned_at := in_staging_tombstoned_at row;
  in_staging_tombstone_path := in_staging_tombstone_path row |}.

Definition set_tombstoned (now : time) (p : string) (row : Intake) : Intake := {|
  in_artifactclass := in_artifactclass row; in_status := in_status row; in_retention_state := TOMBSTONED;
  in_released_at := in_released_at row; in_staging_deleted_at := in_staging_deleted_at row;
  in_manifest_path := in_manifest_path row; in_manifest_digest := in_manifest_digest row;
  in_requested_profile := in_requested_profile row;
  in_release_policy_fingerprint := in_release_policy_fingerprint row;
  in_staging_tombstoned_at := Some now; in_staging_tombstone_path := Some p |}.

Definition set_purged (now : time) (row : Intake) : Intake := {|
  in_artifactclass := in_artifactclass row; in_status := in_status row; in_retention_state := PURGED;
  in_released_at := in_released_at row; in_staging_deleted_at := Some now;
  in_manifest_path := in_manifest_path row; in_manifest_digest := in_manifest_digest row;
  in_requested_profile := in_requested_profile row;
  in_release_policy_fingerprint := in_release_policy_fingerprint row;
  in_staging_tombstoned_at := in_staging_tombstoned_at row;
  in_staging_tombstone_path := in_staging_tombstone_path row |}.

(** ** Audit events *)

Definition EVENT_DETAIL_KEYS : list (string * list string) :=
  [("released", ["copy_ids"]);
   ("cloud_blob_deleted", ["bundle_id"; "copy_ids"; "outcome"; "copy_outcomes"]);
   ("staging_deleted", ["path"]);
   ("release_attempted", ["policy_fingerprint"]);
   ("purge_attempted", ["path"; "grace_days"]);
   ("staging_tombstoned", ["source_path"; "tombstone_path"]);
   ("staging_purge_held", ["reasons"]);
   ("batch_invoked", ["action"; "limit"; "candidate_count"; "dry_run"; "refused"]);
   ("batch_refused", ["action"; "limit"; "candidate_count"; "dry_run"; "refused"; "reason"]);
   ("grace_overridden", ["grace_days"; "default_grace_days"]);
   ("abandoned", ["reason"; "previous_state"]);
   ("correction_recorded", ["kind"; "reason"]);
   ("offsite_confirmed", ["shipment_id"; "confirmed_by"])].

Definition validate_event_detail (action : string) (detail : dict json) : result RetentionFault unit :=
  match dget action EVENT_DETAIL_KEYS with
  | None => Err (RetentionValueError "unknown retention event action")
  | Some expected =>
      _ ← raise_if (negb (bool_decide (list_to_set (C := gset string) (dkeys detail) = list_to_set expected)))
            (RetentionValueError "invalid detail keys");
      raise_if (bool_decide (action = "cloud_blob_deleted") &&
                match dget "outcome" detail with
                | Some (JStr o) => negb (bool_decide (o = "deleted" ∨ o = "already-absent"))
                | _ => true
                end) (RetentionValueError "cloud_blob_deleted outcome must be deleted or already-absent")
  end.

(** What [backend_from_row] gives: nothing, or an adapter with or without [witness_copy]. *)
Inductive Adapter := NoAdapter (message : string) | PlainAdapter | WitnessAdapter.

Inductive Deletion := Deleted | AlreadyAbsent | DeleteUnsupported | DeleteRaised.

Definition set_deleted (c : Copy) (at_ : option time) : Copy := {|
  cp_logical_asset_hash := cp_logical_asset_hash c; cp_bundle_id := cp_bundle_id c;
  cp_backend_id := cp_backend_id c; cp_pool_id := cp_pool_id c;
  cp_native_locator := cp_native_locator c; cp_native_locator_key := cp_native_locator_key c;
  cp_storage_metadata := cp_storage_metadata c; cp_integrity_hash := cp_integrity_hash c;
  cp_integrity_hash_provenance := cp_integrity_hash_provenance c; cp_health := cp_health c;
  cp_last_checked_at := cp_last_checked_at c; cp_last_measured_digest := cp_last_measured_digest c;
  cp_last_measured_at := cp_last_measured_at c; cp_deleted_at := at_;
  cp_first_observed_at := cp_first_observed_at c; cp_source := cp_source c |}.

Section funnel.
Context (sha256_hex : string → string) (error_text : DurError → string).
Context (json_loads : bytes → option json) (cwd : path) (landing_config : list string)
        (tombstone_config : option string) (device : path → Z).
(** What the clock, other processes, [uuid4] and the backends answer *)
Context (clock : nat → time) (uuid : nat → string).
Context (others : nat → Database → Database) (files_others : nat → Fs → Fs).

Context (backend_from_row : Backend → Adapter).
(** [witness_copy], [None] when it raises *)
Context (witness_copy : nat → copy_entry → option WitnessResult).
Context (delete_object : nat → copy_entry → Deletion) (rmtree : nat → Removal).

Definition utcnow : M time := n ← tick; mret (clock n).
Definition uuid4 : M string := n ← tick; mret (uuid n).

(** Other processes run before the next transaction begins. *)
Definition commit : M unit := λ s,
  let d := others (s_point s) (s_work s) in
  ({| s_committed := d; s_work := d; s_cache := s_cache s; s_fs := files_others (s_point s) (s_fs s);
      s_tick := s_tick s; s_point := S (s_point s);
      s_trace := s_trace s ++ [Began d] |}, Ok tt).

Definition rollback : M unit := λ s,
  let d := others (s_point s) (s_committed s) in
  ({| s_committed := d; s_work := d; s_cache := ∅; s_fs := files_others (s_point s) (s_fs s);
      s_tick := s_tick s; s_point := S (s_point s);
      s_trace := s_trace s ++ [Began d] |}, Ok tt).

(** [_begin_immediate] ends the transaction that is open and takes the write lock. *)
Definition begin_immediate : M unit := commit.

Record NewEvent := {
  ne_intake_id : option string;
  ne_subject_type : string;
  ne_subject_id : string;
  ne_action : string;
  ne_operation_id : string;
  ne_actor : string;
  ne_detail : dict json;
}.

Definition insert_event (e : NewEvent) (at_ : time) (supersedes : option (string * Z)) : M unit :=
  modify (λ k, with_events (tbl_insert {|
    re_intake_id := ne_intake_id e; re_subject_type := ne_subject_type e;
    re_subject_id := ne_subject_id e; re_action := ne_action e;
    re_operation_id := ne_operation_id e; re_actor := ne_actor e; re_at := at_;
    re_detail := ne_detail e; re_supersedes_source := fst <$> supersedes;
    re_supersedes_event_id := snd <$> supersedes |} (events k)).1 k).

(** [at or _utcnow()] *)
Definition add_event (e : NewEvent) (at_ : option time) (supersedes : option (string * Z)) : M unit :=
  _ ← lift (validate_event_detail (ne_action e) (ne_detail e));
  now ← match at_ with Some t => mret t | None => utcnow end;
  insert_event e now supersedes.

Definition intake_event (intake_id action operation_id actor : string) (detail : dict json) : NewEvent := {|
  ne_intake_id := Some intake_id; ne_subject_type := "intake"; ne_subject_id := intake_id;
  ne_action := action; ne_operation_id := operation_id; ne_actor := actor; ne_detail := detail |}.

Definition batch_event (operation_id action actor : string) (detail : dict json) : NewEvent := {|
  ne_intake_id := None; ne_subject_type := "batch"; ne_subject_id := operation_id; ne_action := action;
  ne_operation_id := operation_id; ne_actor := actor; ne_detail := detail |}.

Definition media_event (media_id action operation_id actor : string) (detail : dict json) : NewEvent := {|
  ne_intake_id := None; ne_subject_type := "media"; ne_subject_id := media_id; ne_action := action;
  ne_operation_id := operation_id; ne_actor := actor; ne_detail := detail |}.

Definition event_exists (k : Cat) (action operation_id : string) : bool :=
  existsb (λ ie, bool_decide (re_action ie.2 = action) && bool_decide (re_operation_id ie.2 = operation_id))
    (tbl_list (events k)).

Definition add_once_event (intake_id action operation_id actor : string) (at_ : option time)
    (detail : dict json) : M unit :=
  d ← work;
  if event_exists (cat d) action operation_id then mret tt
  else add_event (intake_event intake_id action operation_id actor detail) at_ None.

Definition require_text (message : string) (ss : list string) : M unit :=
  lift (raise_if (existsb (λ s, bool_decide (s = "")) ss) (RetentionValueError message)).

(** ** Offsite confirmations *)

Definition known_media_id (k : Cat) (media_id : string) : bool :=
  existsb (λ ic, bool_decide (cp_deleted_at ic.2 = None) &&
                 bool_decide (media_id_or_none k ic = Some media_id)) (tbl_list (copies k)).

Definition confirm_offsite (media_id confirmed_by : string) (shipment_id : option string)
    (confirmed_at : option time) : M bool :=
  _ ← require_text "must be non-empty" [media_id; confirmed_by];
  d ← work;
  _ ← lift (raise_if (negb (known_media_id (cat d) media_id)) (RetentionError "media id matches no known copy"));
  match offsite (cat d) !! media_id with
  | Some {| oc_revoked_at := None |} => mret false
  | _ =>
      now ← match confirmed_at with Some t => mret t | None => utcnow end;
      _ ← modify (λ k, with_offsite (<[media_id := {|
             oc_confirmed_at := now; oc_confirmed_by := confirmed_by; oc_shipment_id := shipment_id;
             oc_revoked_at := None; oc_revoked_by := None |}]> (offsite k)) k);
      u ← uuid4;
      _ ← add_event (media_event media_id "offsite_confirmed"
                       ("offsite-confirm:" +:+ media_id +:+ ":" +:+ u) confirmed_by
                       [("shipment_id", match shipment_id with Some s => JStr s | None => JNull end);
                        ("confirmed_by", JStr confirmed_by)]) (Some now) None;
      mret true
  end.

Definition confirmation_receipt (k : Cat) (media_id : string) : option Z :=
  last (filter (λ ie, re_subject_type ie.2 = "media" ∧ re_subject_id ie.2 = media_id ∧
                      re_action ie.2 = "offsite_confirmed") (tbl_list (events k))).*1.

Definition revoke_offsite (media_id actor reason : string) : M bool :=
  _ ← require_text "actor and reason must be non-empty" [actor; reason];
  d ← work;
  match offsite (cat d) !! media_id with
  | None => raise (RetentionError "offsite confirmation does not exist")
  | Some row =>
      match oc_revoked_at row with
      | Some _ => mret false
      | None =>
          match confirmation_receipt (cat d) media_id with
          | None => raise (RetentionError "offsite confirmation has no receipt to supersede")
          | Some receipt =>
              now ← utcnow;
              _ ← modify (λ k, with_offsite (<[media_id := {|
                     oc_confirmed_at := oc_confirmed_at row; oc_confirmed_by := oc_confirmed_by row;
                     oc_shipment_id := oc_shipment_id row; oc_revoked_at := Some now;
                     oc_revoked_by := Some actor |}]> (offsite k)) k);
              u ← uuid4;
              _ ← add_event (media_event media_id "correction_recorded"
                               ("offsite-revoke:" +:+ media_id +:+ ":" +:+ u) actor
                               [("kind", JStr "offsite-revocation"); ("reason", JStr reason)])
                    (Some now) (Some ("retention_event", receipt));
              mret true
          end
      end
  end.

(** ** Abandonment *)

Definition abandon_retention (intake_id actor reason : string) : M bool :=
  _ ← require_text "actor and reason must be non-empty" [actor; reason];
  row ← require_intake intake_id;
  match in_retention_state row with
  | ABANDONED => mret false
  | HELD | RELEASED =>
      now ← utcnow;
      _ ← update_intake intake_id (set_state ABANDONED);
      u ← uuid4;
      _ ← add_event (intake_event intake_id "abandoned" ("abandon:" +:+ intake_id +:+ ":" +:+ u) actor
                       [("reason", JStr reason);
                        ("previous_state", JStr (retention_text (in_retention_state row)))]) (Some now) None;
      mret true
  | _ => raise (RetentionError "cannot abandon intake")
  end.

(** ** Witness calls *)

Record WitnessRequest := {
  wq_copy : copy_entry;
  wq_eligible : bool;
  wq_adapter : bool;
  wq_error : option string;
}.

Definition witness_request (k : Cat) (ic : copy_entry) : WitnessRequest :=
  let request eligible adapter error :=
    {| wq_copy := ic; wq_eligible := eligible; wq_adapter := adapter; wq_error := error |} in
  match backends k !! cp_backend_id ic.2 with
  | None => request true false (Some "witness capability unavailable")
  | Some b =>
      match backend_declares_retention_witness b with
      | None => request true false (Some "witness capability unavailable")
      | Some false => request false false None
      | Some true =>
          match backend_from_row b with
          | NoAdapter message => request true false (Some ("witness unavailable: " +:+ message))
          | PlainAdapter =>
              request true false (Some "adapter declares but does not implement witness capability")
          | WitnessAdapter => request true true None
          end
      end
  end.

(** The copies the gate may look at, each once *)
Definition witness_copies (k : Cat) (its : list (Z * IngestItem)) : list copy_entry :=
  dedup_by fst (its ≫= (λ it,
    match policy_targets k (ii_artifactclass it.2) with
    | Err _ => []
    | Ok ts => ts ≫= (λ t, qualifying_copies_for_pool k (ii_logical_asset_hash it.2) (pt_pool_id t)
                             (pt_artifactclass t))
    end)).

Definition prepare_witness_requests (k : Cat) (its : list (Z * IngestItem)) : list WitnessRequest :=
  witness_request k <$> witness_copies k its.

Definition execute_one (q : WitnessRequest) : M WitnessEvidence :=
  if negb (wq_eligible q) then
    now ← utcnow; mret {| we_eligible := false; we_result := None; we_observed_at := now |}
  else
    match wq_error q with
    | Some e =>
        now ← utcnow;
        mret {| we_eligible := true; we_result := Some {| wr_confirmed := false; wr_detail := e |};
                we_observed_at := now |}
    | None =>
        if wq_adapter q then
          n ← tick;
          now ← utcnow;
          mret {| we_eligible := true;
                  we_result := Some (default {| wr_confirmed := false; wr_detail := "witness unavailable" |}
                                       (witness_copy n (wq_copy q)));
                  we_observed_at := now |}
        else raise (OtherException "eligible retention witness request has no backend adapter")
    end.

Fixpoint execute_witness_requests (qs : list WitnessRequest) (answers : WitnessAnswers)
    : M WitnessAnswers :=
  match qs with
  | [] => mret answers
  | q :: qs =>
      e ← execute_one q;
      execute_witness_requests qs (<[(wq_copy q).1 := e]> answers)
  end.

Definition collect_witness_answers (its : list (Z * IngestItem)) : M WitnessAnswers :=
  d ← work;
  execute_witness_requests (prepare_witness_requests (cat d) its) ∅.

Definition fresh_witness_answers (its : list (Z * IngestItem)) (answers : option WitnessAnswers)
    : M WitnessAnswers :=
  match answers with
  | None => collect_witness_answers its
  | Some answers =>
      now ← utcnow;
      if witness_answers_stale answers now then collect_witness_answers its else mret answers
  end.

(** ** The gate, with the clock it reads *)

Definition gate (intake_id : string) (row : Intake) (witnesses : WitnessAnswers) (require_held : bool)
    (grace_days : Z) : M IntakeGateStatus :=
  d ← work;
  now ← utcnow;
  lift (local_gate_status sha256_hex error_text d intake_id row witnesses require_held grace_days now).

Definition purge_gate (intake_id : string) (row : Intake) (witnesses : WitnessAnswers) (grace_days : Z)
    : M (list string) :=
  d ← work;
  now ← utcnow;
  gate_now ← utcnow;
  lift (purge_holds sha256_hex error_text d intake_id row witnesses grace_days now gate_now).

Definition items_of (intake_id : string) : M (list (Z * IngestItem)) :=
  d ← work; mret (intake_items (cat d) intake_id).

(** ** Release *)

Record RetentionRunResult := {
  rr_intake_id : string;
  rr_released : bool;
  rr_deleted_copy_ids : list Z;
  rr_reason : string;
}.

Definition not_released (intake_id reason : string) : RetentionRunResult :=
  {| rr_intake_id := intake_id; rr_released := false; rr_deleted_copy_ids := []; rr_reason := reason |}.

Definition cloud_bundle_id (intake_id : string) : string := CLOUD_BLOB_PREFIX +:+ intake_id.

Definition cloud_blob_copies (k : Cat) (intake_id : string) : list copy_entry :=
  filter (λ ic, cp_bundle_id ic.2 = Some (cloud_bundle_id intake_id) ∧ cp_deleted_at ic.2 = None)
    (tbl_list (copies k)).

(** [_delete_copy_object]: whether the object had been there *)
Definition delete_copy_object (ic : copy_entry) : M bool :=
  n ← tick;
  _ ← emit (ObjectDeletion n ic);
  match delete_object n ic with
  | Deleted => mret true
  | AlreadyAbsent => mret false
  | DeleteUnsupported => raise (RetentionError "backend does not support delete_object")
  | DeleteRaised => raise (OtherException "delete_object")
  end.

Fixpoint delete_copies (cs : list copy_entry) : M (list (Z * bool)) :=
  match cs with
  | [] => mret []
  | ic :: cs => deleted ← delete_copy_object ic; rest ← delete_copies cs; mret ((ic.1, deleted) :: rest)
  end.

Definition outcome_text (deleted : bool) : string := if deleted then "deleted" else "already-absent".

Fixpoint mark_deleted (now : time) (ids : list Z) : M unit :=
  match ids with
  | [] => mret tt
  | i :: ids =>
      d ← work;
      match t_rows (copies (cat d)) !! i with
      | None => raise (OtherException "StaleDataError")
      | Some c =>
          _ ← modify (λ k, with_copies (tbl_put i (set_deleted c (Some now)) (copies k)) k);
          mark_deleted now ids
      end
  end.

Definition run_retention (intake_id actor : string) (answers : option WitnessAnswers)
    : M RetentionRunResult :=
  _ ← require_text "actor must be non-empty" [actor];
  row ← require_intake intake_id;
  if decide (in_retention_state row ≠ HELD)
  then mret (not_released intake_id ("state=" +:+ retention_text (in_retention_state row)))
  else
    its ← items_of intake_id;
    witnesses ← fresh_witness_answers its answers;
    precheck ← gate intake_id row witnesses true DEFAULT_STAGING_GRACE_DAYS;
    if negb (ig_releasable precheck) then mret (not_released intake_id (hold_reason precheck))
    else
      let operation_id := "release:" +:+ intake_id in
      _ ← commit;
      _ ← require_intake intake_id;
      its ← items_of intake_id;
      witnesses ← fresh_witness_answers its (Some witnesses);
      _ ← begin_immediate;
      row ← require_intake intake_id;
      reserved ← gate intake_id row witnesses true DEFAULT_STAGING_GRACE_DAYS;
      if negb (ig_releasable reserved) then
        _ ← rollback; mret (not_released intake_id (hold_reason reserved))
      else
        d ← work;
        fingerprint ← lift (policy_fingerprint sha256_hex (cat d) (intake_items (cat d) intake_id));
        _ ← add_once_event intake_id "release_attempted" operation_id actor None
              [("policy_fingerprint", JStr fingerprint)];
        let cloud := cloud_blob_copies (cat d) intake_id in
        _ ← commit;
        outcomes ← delete_copies cloud;
        _ ← begin_immediate;
        row ← require_intake intake_id;
        if decide (in_retention_state row ≠ HELD) then
          _ ← rollback;
          row ← require_intake intake_id;
          mret (not_released intake_id ("state=" +:+ retention_text (in_retention_state row)))
        else
          now ← utcnow;
          let ids := cloud.*1 in
          _ ← mark_deleted now ids;
          _ ← update_intake intake_id (set_released now fingerprint);
          _ ← add_once_event intake_id "cloud_blob_deleted" operation_id actor (Some now)
                [("bundle_id", JStr (cloud_bundle_id intake_id)); ("copy_ids", JList (JInt <$> ids));
                 ("outcome", JStr (outcome_text (existsb snd outcomes)));
                 ("copy_outcomes", JList ((λ o, JObj [("copy_id", JInt o.1);
                                                     ("outcome", JStr (outcome_text o.2))]) <$> outcomes))];
          _ ← add_once_event intake_id "released" operation_id actor (Some now)
                [("copy_ids", JList (JInt <$> ids))];
          _ ← commit;
          mret {| rr_intake_id := intake_id; rr_released := true; rr_deleted_copy_ids := ids;
                  rr_reason := "released" |}.

(** ** Purge of the staging tree *)

Record StagingSweepResult := {
  ss_intake_id : string;
  ss_purged : bool;
  ss_deleted_path : option string;
  ss_reason : string;
}.

Definition sweep_result (intake_id : string) (purged : bool) (p : option string) (reason : string)
    : StagingSweepResult :=
  {| ss_intake_id := intake_id; ss_purged := purged; ss_deleted_path := p; ss_reason := reason |}.

Definition record_grace_override (actor : string) (grace_days : Z) (operation_id : option string) : M unit :=
  correlation ← match operation_id with
                | Some o => mret o
                | None => u ← uuid4; mret ("grace-override:" +:+ u)
                end;
  add_event (batch_event correlation "grace_overridden" actor
               [("grace_days", JInt grace_days); ("default_grace_days", JInt DEFAULT_STAGING_GRACE_DAYS)])
    None None.

Definition record_purge_hold (intake_id actor : string) (reasons : list string) : M unit :=
  add_event (intake_event intake_id "staging_purge_held" ("purge:" +:+ intake_id) actor
               [("reasons", JList (JStr <$> reasons))]) None None.

(** A hold recorded and committed; the first reason is reported. *)
Definition purge_held (intake_id actor : string) (reasons : list string) : M StagingSweepResult :=
  _ ← record_purge_hold intake_id actor reasons;
  _ ← commit;
  mret (sweep_result intake_id false None (default "" (head reasons))).

(** The last transaction of a purge, after the tree is gone *)
Definition finish_gc (intake_id actor deleted_path : string) : M StagingSweepResult :=
  _ ← begin_immediate;
  current ← require_intake intake_id;
  match in_retention_state current with
  | PURGED =>
      _ ← rollback; mret (sweep_result intake_id false (Some deleted_path) "already-purged")
  | TOMBSTONED =>
      now ← utcnow;
      _ ← update_intake intake_id (set_purged now);
      _ ← add_once_event intake_id "staging_deleted" ("purge:" +:+ intake_id) actor (Some now)
            [("path", JStr deleted_path)];
      _ ← commit;
      mret (sweep_result intake_id true (Some deleted_path) "purged")
  | _ =>
      _ ← rollback;
      current ← require_intake intake_id;
      mret (sweep_result intake_id false (Some deleted_path)
              ("state=" +:+ retention_text (in_retention_state current)))
  end.

Definition resume_tombstone_gc (intake_id : string) (row : Intake) (actor : string)
    : M StagingSweepResult :=
  match in_staging_tombstone_path row with
  | None => raise (RetentionError "tombstoned intake is missing its tombstone path")
  | Some recorded =>
      let tombstone := absolute cwd recorded in
      fs ← files;
      _ ← lift (validate_tombstone_path sha256_hex json_loads cwd landing_config tombstone_config fs
                  tombstone intake_id);
      n ← tick;
      _ ← emit (TreeRemoval fs tombstone);
      let '(fs', removed) := delete_path_idempotent (rmtree n) fs tombstone in
      _ ← put_files fs';
      _ ← lift removed;
      finish_gc intake_id actor (posix_path_str recorded)
  end.

Definition preflight (intake_id : string) (row : Intake) : M (path * path) :=
  fs ← files;
  its ← items_of intake_id;
  '(fs, staging, tombstone) ← lift (preflight_staging_paths sha256_hex json_loads cwd landing_config
                                      tombstone_config device fs its intake_id row);
  _ ← put_files fs;
  mret (staging, tombstone).

(** The [while True] loop of transaction B; [refreshes] witness refreshes are left. *)
Fixpoint purge_commitment (refreshes : nat) (intake_id actor : string) (grace_days : Z)
    (witnesses : WitnessAnswers) : M StagingSweepResult :=
  _ ← begin_immediate;
  row ← require_intake intake_id;
  holds ← purge_gate intake_id row witnesses grace_days;
  match holds with
  | _ :: _ => purge_held intake_id actor holds
  | [] =>
      '(staging, tombstone) ← preflight intake_id row;
      now ← utcnow;
      if witness_answers_stale witnesses now then
        match refreshes with
        | O =>
            _ ← rollback;
            _ ← require_intake intake_id;
            purge_held intake_id actor ["rem-unconfirmed"]
        | S refreshes =>
            d ← work;
            let requests := prepare_witness_requests (cat d) (intake_items (cat d) intake_id) in
            _ ← rollback;
            witnesses ← execute_witness_requests requests ∅;
            purge_commitment refreshes intake_id actor grace_days witnesses
        end
      else
        fs ← files;
        at_ ← moment;
        _ ← emit (Tombstoning at_ fs staging tombstone);
        let '(fs', renamed) := atomic_tombstone json_loads fs staging tombstone intake_id in
        _ ← put_files fs';
        _ ← lift renamed;
        now ← utcnow;
        _ ← update_intake intake_id (set_tombstoned now (path_text tombstone));
        _ ← add_once_event intake_id "staging_tombstoned" ("purge:" +:+ intake_id) actor (Some now)
              [("source_path", JStr (path_text staging)); ("tombstone_path", JStr (path_text tombstone))];
        _ ← commit;
        row ← require_intake intake_id;
        resume_tombstone_gc intake_id row actor
  end.

(** The precheck's path errors are holds too. *)
Definition precheck_paths (intake_id : string) (row : Intake) : M (option (path * path) * list string) :=
  λ s, match preflight intake_id row s with
       | (s, Ok ps) => (s, Ok (Some ps, []))
       | (s, Err (RetentionError message)) => (s, Ok (None, ["staging-path:" +:+ message]))
       | (s, Err e) => (s, Err e)
       end.

Definition sweep_staging (intake_id actor : string) (grace_days : Z) (break_glass : bool)
    (answers : option WitnessAnswers) (grace_override_evented : bool) : M StagingSweepResult :=
  _ ← require_text "actor must be non-empty" [actor];
  row ← require_intake intake_id;
  match in_retention_state row with
  | PURGED => mret (sweep_result intake_id false None "already-purged")
  | ABANDONED => mret (sweep_result intake_id false None "abandoned")
  | state =>
      if (grace_days <? DEFAULT_STAGING_GRACE_DAYS) && negb break_glass
      then mret (sweep_result intake_id false None "grace-below-floor")
      else
        _ ← (if (grace_days <? DEFAULT_STAGING_GRACE_DAYS) && negb grace_override_evented
             then _ ← record_grace_override actor grace_days None; commit
             else mret tt);
        match state, in_released_at row with
        | TOMBSTONED, _ => resume_tombstone_gc intake_id row actor
        | RELEASED, Some _ =>
            its ← items_of intake_id;
            witnesses ← fresh_witness_answers its answers;
            holds ← purge_gate intake_id row witnesses grace_days;
            '(paths, path_holds) ← precheck_paths intake_id row;
            match holds ++ path_holds, paths with
            | _ :: _, _ => purge_held intake_id actor (holds ++ path_holds)
            | [], None => raise (OtherException "purge precheck passed without resolved paths")
            | [], Some (staging, _) =>
                let operation_id := "purge:" +:+ intake_id in
                _ ← commit;
                _ ← require_intake intake_id;
                its ← items_of intake_id;
                witnesses ← fresh_witness_answers its (Some witnesses);
                _ ← begin_immediate;
                row ← require_intake intake_id;
                holds ← purge_gate intake_id row witnesses grace_days;
                match holds with
                | _ :: _ => purge_held intake_id actor holds
                | [] =>
                    _ ← add_once_event intake_id "purge_attempted" operation_id actor None
                          [("path", JStr (path_text staging)); ("grace_days", JInt grace_days)];
                    _ ← commit;
                    purge_commitment 1 intake_id actor grace_days witnesses
                end
            end
        | _, _ => mret (sweep_result intake_id false None ("state=" +:+ retention_text state))
        end
  end.

(** ** Batches *)

Record BatchCandidate := {
  bc_intake_id : string;
  bc_release_condition : string;
  bc_evidence : list string;
}.

Record RetentionBatchResult (R : Type) := {
  rb_operation_id : string;
  rb_action : string;
  rb_limit : Z;
  rb_candidate_count : Z;
  rb_refused : bool;
  rb_dry_run : bool;
  rb_all_held : bool;
  rb_candidates : list BatchCandidate;
  rb_holds : list (string * list string);
  rb_results : list R;
  rb_reason : string;
}.

Definition exit_code {R} (r : RetentionBatchResult R) : Z :=
  if rb_refused R r || rb_all_held R r then 2 else 0.

Definition batch_limit (value : option Z) : M Z :=
  let limit := default DEFAULT_BATCH_LIMIT value in
  _ ← lift (raise_if (limit <=? 0) (RetentionValueError "batch_limit must be greater than zero"));
  mret limit.

(** [_candidate_intakes]: one named intake, whatever its state, or all in the given states; the rows
    are loaded into the session. *)
Definition candidate_ids (k : Cat) (intake_id : option string) (states : list RetentionState)
    : list string :=
  (sort_by fst (filter (λ ir, match intake_id with
                              | Some i => bool_decide (ir.1 = i)
                              | None => bool_decide (in_retention_state ir.2 ∈ states)
                              end = true) (map_to_list (intakes k)))).*1.

Fixpoint load_intakes (ids : list string) : M unit :=
  match ids with
  | [] => mret tt
  | i :: ids => _ ← require_intake i; load_intakes ids
  end.

Definition assess_intake (intake_id : string) (grace_days : Z) : M (IntakeGateStatus * WitnessAnswers) :=
  row ← require_intake intake_id;
  its ← items_of intake_id;
  witnesses ← match in_retention_state row with
              | TOMBSTONED | ABANDONED | PURGED => mret ∅
              | _ => collect_witness_answers its
              end;
  st ← gate intake_id row witnesses true grace_days;
  mret (st, witnesses).

Definition retention_status (intake_id : string) (grace_days : Z) : M IntakeGateStatus :=
  a ← assess_intake intake_id grace_days; mret a.1.

Definition releasable (intake_id : string) : M bool :=
  st ← retention_status intake_id DEFAULT_STAGING_GRACE_DAYS; mret (ig_releasable st).

(** [purge_status]: the projection and when it was assessed, without asking witnesses in vain *)
Definition purge_status (intake_id : string) (grace_days : Z) : M (string * time) :=
  row ← require_intake intake_id;
  now ← utcnow;
  match in_retention_state row with
  | TOMBSTONED => mret ("tombstone-gc-pending", now)
  | ABANDONED => mret ("abandoned", now)
  | HELD | PURGED => mret ("not-applicable", now)
  | RELEASED => st ← retention_status intake_id grace_days; mret (ig_purge_status st, ig_assessed_at st)
  end.

Fixpoint assess_all (ids : list string) (grace_days : Z) : M (list (IntakeGateStatus * WitnessAnswers)) :=
  match ids with
  | [] => mret []
  | i :: ids => a ← assess_intake i grace_days; rest ← assess_all ids grace_days; mret (a :: rest)
  end.

(** The evidence of one satisfied pool: when its copy was measured, when its medium was confirmed. *)
Definition pool_evidence (k : Cat) (p : PoolGateStatus) : list (time * string) :=
  match (if pg_satisfied p then i ← pg_copy_id p; c ← t_rows (copies k) !! i; cp_last_measured_at c
         else None) with
  | None => []
  | Some measured_at =>
      (measured_at, "verified:" +:+ pg_pool_id p) ::
      match (if pg_offsite_gate p then m ← pg_media_id p; c ← offsite k !! m; Some (m, c) else None) with
      | Some (m, c) => match oc_revoked_at c with
                       | None => [(oc_confirmed_at c, "offsite-confirmed:" +:+ m)]
                       | Some _ => []
                       end
      | None => []
      end
  end.

Definition evidence_max (a b : time * string) : time * string := if ole a b then b else a.

Definition release_condition (k : Cat) (st : IntakeGateStatus) : result RetentionFault string :=
  match ig_assets st ≫= (λ a, ag_pools a ≫= pool_evidence k) with
  | [] => Err (RetentionError "releasable intake has no release-enabling evidence")
  | e :: es => Ok (foldl evidence_max e es).2
  end.

Definition batch_candidate (st : IntakeGateStatus) (condition : string) : BatchCandidate := {|
  bc_intake_id := ig_intake_id st; bc_release_condition := condition;
  bc_evidence := ig_assets st ≫= (λ a, omap (λ p,
    if pg_satisfied p
    then Some ("asset:" +:+ pretty (ag_ingest_item_id a) +:+ ":pool:" +:+ pg_pool_id p +:+ ":copy:" +:+
               match pg_copy_id p with Some i => pretty i | None => "None" end)
    else None) (ag_pools a)) |}.

Definition record_batch_invocation (operation_id actor action : string) (limit candidate_count : Z)
    (dry_run refused : bool) (refusal_reason : string) : M unit :=
  let detail := [("action", JStr action); ("limit", JInt limit);
                 ("candidate_count", JInt candidate_count); ("dry_run", JBool dry_run);
                 ("refused", JBool refused)] in
  _ ← add_event (batch_event operation_id "batch_invoked" actor detail) None None;
  if refused
  then add_event (batch_event operation_id "batch_refused" actor
                    (detail ++ [("reason", JStr refusal_reason)])) None None
  else mret tt.

Fixpoint run_each {R} (run : string → WitnessAnswers → M R) (chosen : list (IntakeGateStatus * WitnessAnswers))
    : M (list R) :=
  match chosen with
  | [] => mret []
  | (st, w) :: chosen => r ← run (ig_intake_id st) w; rest ← run_each run chosen; mret (r :: rest)
  end.

Definition batch_reason (refused all_held dry_run : bool) : string :=
  if refused then "batch-limit-exceeded" else if all_held then "all-held"
  else if dry_run then "dry-run" else "completed".

(** The common tail of both batches, after the pre-pass *)
Definition run_batch {R} (operation_id actor action : string) (limit : Z) (dry_run : bool)
    (chosen : list (IntakeGateStatus * WitnessAnswers)) (candidates : list BatchCandidate)
    (holds : list (string * list string)) (run : string → WitnessAnswers → M R) (acted : R → bool)
    : M (RetentionBatchResult R) :=
  let count := Z.of_nat (length candidates) in
  let refused := limit <? count in
  _ ← record_batch_invocation operation_id actor action limit count dry_run refused "batch-limit-exceeded";
  _ ← commit;
  results ← (if refused || dry_run then mret [] else run_each run chosen);
  let all_held := if dry_run || refused then bool_decide (length candidates = 0%nat)
                  else negb (existsb acted results) in
  mret {| rb_operation_id := operation_id; rb_action := action; rb_limit := limit;
          rb_candidate_count := count; rb_refused := refused; rb_dry_run := dry_run;
          rb_all_held := all_held; rb_candidates := candidates; rb_holds := holds;
          rb_results := results; rb_reason := batch_reason refused all_held dry_run |}.

Definition run_retention_batch (actor : string) (intake_id : option string) (limit : option Z)
    (dry_run : bool) : M (RetentionBatchResult RetentionRunResult) :=
  _ ← require_text "actor must be non-empty" [actor];
  limit ← batch_limit limit;
  d ← work;
  let ids := candidate_ids (cat d) intake_id [HELD] in
  _ ← load_intakes ids;
  assessments ← assess_all ids DEFAULT_STAGING_GRACE_DAYS;
  let chosen := filter (λ a, ig_releasable a.1 = true) assessments in
  candidates ← lift (each (λ a, c ← release_condition (cat d) a.1; Ok (batch_candidate a.1 c)) chosen);
  let holds := (λ a, (ig_intake_id a.1,
                      match ig_holds a.1 with
                      | [] => ["state=" +:+ retention_text (ig_retention_state a.1)]
                      | hs => hs
                      end)) <$> filter (λ a, ig_releasable a.1 = false) assessments in
  u ← uuid4;
  run_batch ("batch:release:" +:+ u) actor "release" limit dry_run chosen candidates holds
    (λ i w, run_retention i actor (Some w)) rr_released.

Definition purge_ready (st : IntakeGateStatus) : bool :=
  bool_decide (ig_purge_status st = "eligible" ∨ ig_purge_status st = "tombstone-gc-pending").

Definition purge_condition (k : Cat) (st : IntakeGateStatus) : result RetentionFault string :=
  if decide (ig_purge_status st = "tombstone-gc-pending") then Ok "purge:tombstone-gc-pending"
  else release_condition k st.

Definition sweep_staging_batch (actor : string) (intake_id : option string) (limit : option Z)
    (dry_run : bool) (grace_days : Z) (break_glass : bool)
    : M (RetentionBatchResult StagingSweepResult) :=
  _ ← require_text "actor must be non-empty" [actor];
  limit ← batch_limit limit;
  u ← uuid4;
  let operation_id := "batch:purge:" +:+ u in
  if (grace_days <? DEFAULT_STAGING_GRACE_DAYS) && negb break_glass then
    _ ← record_batch_invocation operation_id actor "purge" limit 0 dry_run true "grace-below-floor";
    _ ← commit;
    mret {| rb_operation_id := operation_id; rb_action := "purge"; rb_limit := limit;
            rb_candidate_count := 0; rb_refused := true; rb_dry_run := dry_run; rb_all_held := false;
            rb_candidates := []; rb_holds := []; rb_results := []; rb_reason := "grace-below-floor" |}
  else
    _ ← (if grace_days <? DEFAULT_STAGING_GRACE_DAYS
         then record_grace_override actor grace_days (Some operation_id) else mret tt);
    d ← work;
    let ids := candidate_ids (cat d) intake_id [RELEASED; TOMBSTONED] in
    _ ← load_intakes ids;
    assessments ← assess_all ids grace_days;
    let chosen := filter (λ a, purge_ready a.1 = true) assessments in
    candidates ← lift (each (λ a, c ← purge_condition (cat d) a.1; Ok (batch_candidate a.1 c)) chosen);
    let holds := (λ a, (ig_intake_id a.1, [ig_purge_status a.1]))
                   <$> filter (λ a, purge_ready a.1 = false) assessments in
    run_batch operation_id actor "purge" limit dry_run chosen candidates holds
      (λ i w, sweep_staging i actor grace_days break_glass (Some w) true) ss_purged.

(** [session_scope]: commit on success, rollback on an exception *)
Definition in_scope {A} (m : M A) : M A := λ s,
  match m s with
  | (s, Ok a) => ((commit s).1, Ok a)
  | (s, Err e) => ((rollback s).1, Err e)
  end.
End funnel.
