(* ===== verification/RetentionGateFacts.v ===== *)
(** * What the retention gate promises

    A releasable intake has, for every item and every active pool of the item's class, a healthy and
    verified copy that its backend does not deny and that is confirmed offsite where the pool asks for
    it; the holds and the verdict agree; the policy fingerprint identifies the policy. *)

From stdpp Require Import pretty.
From S2P Require Import Prelude Json JsonText JobModels Catalog RetryConfig Conditions Durability.
From S2P Require Import DurabilityFacts ArchivePredicate Profiles Retention.

(** ** Targets of a policy that expands *)

Lemma target_entries_inv k supplied cls ke seen ms ts :
  target_entries k supplied cls ke seen ms = Ok ts →
  pt_pool_id <$> ts = ms.*1 ∧
  ∀ t, t ∈ ts → ∃ p, pools k !! pt_pool_id t = Some p ∧ pt_artifactclass t = cls ∧
    pt_offsite_gate t = pl_offsite_gate p ∧ pt_backend_id t = pl_backend_id p.
Proof.
  revert seen ts. induction ms as [|[pid m] ms IH]; intros seen ts; cbn.
  { intros [= <-]. split; [done|]. by intros t ?%not_elem_of_nil. }
  destruct (pools k !! pid) as [p|] eqn:Ep; [|done].
  intros ([] & _ & (t & Ht & (ts' & Hts & [= <-])%bind_Ok)%bind_Ok)%bind_Ok.
  unfold pool_target_entry in Ht. apply bind_Ok in Ht as ([] & _ & Ht). apply bind_Ok in Ht as ([] & _ & Ht).
  destruct (backends k !! pl_backend_id p); [|done]. injection Ht as <-.
  apply IH in Hts as [Hids Hall]. split; [cbn; by rewrite Hids|].
  intros t [->|Ht]%elem_of_cons; [by exists p|]. by apply Hall.
Qed.

Lemma policy_targets_inv k cls ts :
  policy_targets k cls = Ok ts →
  ts ≠ [] ∧ (∀ p, class_wants k cls p ↔ ∃ t, t ∈ ts ∧ pt_pool_id t = p) ∧
  ∀ t, t ∈ ts → ∃ p, pools k !! pt_pool_id t = Some p ∧ pt_artifactclass t = cls ∧
    pt_offsite_gate t = pl_offsite_gate p ∧ pt_backend_id t = pl_backend_id p.
Proof.
  unfold policy_targets, target_pools. intros H.
  assert (Hw : ∀ p, class_wants k cls p ↔ p ∈ (class_memberships k cls false).*1).
  { intros p. unfold class_wants. rewrite list_elem_of_fmap. split.
    - intros (m & Hm & Ha). exists (p, m). split; [done|]. by apply elem_of_class_memberships.
    - intros ([p' m] & -> & Hin). apply elem_of_class_memberships in Hin as (? & ? & _). by exists m. }
  destruct (class_memberships k cls false) as [|x ms] eqn:E; [done|].
  apply target_entries_inv in H as [Hids Hall]. split_and!; [by intros ->| |done].
  intros p. rewrite Hw, <- Hids, list_elem_of_fmap. naive_solver.
Qed.

(** ** One pool *)

(** The copy is not denied: its backend cannot testify, or it has confirmed the copy. *)
Definition not_denied (k : Cat) (w : WitnessAnswers) (i : Z) (c : Copy) : Prop :=
  match w !! i with
  | None => ∃ b, backends k !! cp_backend_id c = Some b ∧ backend_declares_retention_witness b = Some false
  | Some e => we_eligible e = false ∨ ∃ r, we_result e = Some r ∧ wr_confirmed r = true
  end.

Definition offsite_confirmed (k : Cat) (m : string) : Prop :=
  ∃ o, offsite k !! m = Some o ∧ oc_revoked_at o = None.

(** What clears the pool [p] with row [pl] for an asset of a class. *)
Definition cleared_by (k : Cat) (w : WitnessAnswers) (h : bytes) (cls p : string) (pl : Pool)
    (i : Z) (c : Copy) : Prop :=
  t_rows (copies k) !! i = Some c ∧ cp_health c = HEALTH_OK ∧ cp_deleted_at c = None ∧
  cp_last_measured_digest c = Some (cp_integrity_hash c) ∧
  cp_pool_id c = Some p ∧ cp_backend_id c = pl_backend_id pl ∧
  carries k (AssetTarget h cls) (Some cls) (Some p) i c ∧ not_denied k w i c ∧
  (pl_offsite_gate pl = true → ∃ m, copy_media_id k (i, c) = Ok m ∧ m ≠ "" ∧ offsite_confirmed k m).

Lemma witness_holds_false k w i c : witness_holds k w (i, c) = false ↔ not_denied k w i c.
Proof.
  unfold witness_holds, not_denied, copy_declares_witness. cbn.
  destruct (w !! i) as [e|].
  - destruct (we_eligible e), (we_result e) as [r|]; cbn; [destruct (wr_confirmed r) eqn:Er| | |];
      naive_solver.
  - destruct (backends k !! cp_backend_id c) as [b|]; [|naive_solver].
    destruct (backend_declares_retention_witness b) as [[]|] eqn:Eb; cbn; naive_solver.
Qed.

Lemma elem_of_confirmed k m : m ∈ confirmed_media_ids k ↔ offsite_confirmed k m.
Proof.
  unfold confirmed_media_ids, offsite_confirmed. rewrite elem_of_dom. split.
  - intros [o Ho]. apply map_lookup_filter_Some in Ho as [? ?]. by exists o.
  - intros (o & Ho & Hr). exists o. by apply map_lookup_filter_Some.
Qed.

Definition passes (k : Cat) (w : WitnessAnswers) (gated : bool) (ic : copy_entry) : Prop :=
  not_denied k w ic.1 ic.2 ∧
  (gated = true → ∃ m, copy_media_id k ic = Ok m ∧ m ≠ "" ∧ offsite_confirmed k m).

Lemma media_id_Some k ic m : media_id_or_none k ic = Some m ↔ copy_media_id k ic = Ok m.
Proof. unfold media_id_or_none. destruct (copy_media_id k ic); naive_solver. Qed.

Lemma passes_next k w gated sw sm ic l :
  passes k w gated ic ∧ (∃ m, first_passing k w gated sw sm (ic :: l) = inl (ic, m)) ∨
  ¬ passes k w gated ic ∧ ∃ sw' sm', first_passing k w gated sw sm (ic :: l) = first_passing k w gated sw' sm' l.
Proof.
  destruct ic as [i c]. cbn [first_passing]. unfold passes. cbn [fst snd].
  destruct (witness_holds k w (i, c)) eqn:Ew.
  { right. split; [|by eexists _, _]. rewrite <- witness_holds_false, Ew. naive_solver. }
  apply witness_holds_false in Ew. destruct gated; [|left; split; [split; [done|]|]; naive_solver].
  destruct (media_id_or_none k (i, c)) as [m|] eqn:Em.
  2: { right. split; [|by eexists _, _]. intros [_ H]. destruct (H eq_refl) as (m & Hm & _).
       apply media_id_Some in Hm. congruence. }
  apply media_id_Some in Em. destruct m as [|a m].
  { right. split; [|by eexists _, _]. intros [_ H]. destruct (H eq_refl) as (m & Hm & Hne & _). congruence. }
  case_bool; apply bool_decide_eq_true_1 in Hb || apply bool_decide_eq_false_1 in Hb;
    rewrite elem_of_confirmed in Hb.
  - left. split; [|by eexists]. split; [done|]. intros _. by exists (String a m).
  - right. split; [|by eexists _, _]. intros [_ H]. destruct (H eq_refl) as (m' & Hm & _ & Hc).
    assert (m' = String a m) by congruence. by subst.
Qed.

Lemma first_passing_spec k w gated sw sm l :
  (∃ ic m, first_passing k w gated sw sm l = inl (ic, m) ∧ ic ∈ l ∧ passes k w gated ic) ∨
  (∃ x, first_passing k w gated sw sm l = inr x) ∧ ∀ ic, ic ∈ l → ¬ passes k w gated ic.
Proof.
  revert sw sm. induction l as [|ic l IH]; intros sw sm.
  { right. split; [by eexists|]. by intros ic ?%not_elem_of_nil. }
  destruct (passes_next k w gated sw sm ic l) as [[Hp [m Hm]]|[Hp (sw' & sm' & ->)]].
  - left. exists ic, m. split_and!; [done|left|done].
  - destruct (IH sw' sm') as [(ic' & m & H1 & H2 & H3)|[H1 H2]].
    + left. exists ic', m. split_and!; [done|by right|done].
    + right. split; [done|]. intros ic' [->|Hin]%elem_of_cons; [done|by apply H2].
Qed.

Lemma pool_satisfied_iff k w h t :
  pg_satisfied (pool_gate_status k w h t) = true ↔
  ∃ pl i c, pools k !! pt_pool_id t = Some pl ∧
    passes k w (pt_offsite_gate t) (i, c) ∧ cp_pool_id c = Some (pt_pool_id t) ∧ cp_backend_id c = pl_backend_id pl ∧
    (i, c) ∈ qualifying_copies_for_pool k h (pt_pool_id t) (pt_artifactclass t).
Proof.
  unfold pool_gate_status. destruct (pools k !! pt_pool_id t) as [pl|] eqn:Ep;
    [|cbn; split; [done|by intros (? & ? & ? & ? & _)]].
  set (cands := filter _ _).
  assert (Hc : ∀ i c, (i, c) ∈ cands ↔ (cp_pool_id c = Some (pt_pool_id t) ∧ cp_backend_id c = pl_backend_id pl) ∧
    (i, c) ∈ qualifying_copies_for_pool k h (pt_pool_id t) (pt_artifactclass t))
    by (intros i c; unfold cands; rewrite list_elem_of_filter; done).
  destruct cands as [|ic0 l]; cbn -[first_passing].
  { split; [done|]. intros (pl' & i & c & [= <-] & _ & H1 & H2 & H3).
    by assert ((i, c) ∈ []) as ?%not_elem_of_nil by (by apply Hc). }
  destruct (first_passing_spec k w (pt_offsite_gate t) false false (ic0 :: l))
    as [([i c] & m & -> & Hin & Hp)|[[[sw sm] ->] Hno]]; cbn.
  - split; [|done]. intros _. apply Hc in Hin as [[? ?] ?]. by exists pl, i, c.
  - split; [done|]. intros (pl' & i & c & [= <-] & Hp & H1 & H2 & H3).
    exfalso. eapply (Hno (i, c)); [by apply Hc|done].
Qed.

Lemma pool_satisfied_cleared k w h t pl :
  pools k !! pt_pool_id t = Some pl → pt_offsite_gate t = pl_offsite_gate pl →
  pg_satisfied (pool_gate_status k w h t) = true ↔
  ∃ i c, cleared_by k w h (pt_artifactclass t) (pt_pool_id t) pl i c.
Proof.
  intros Hpl Hg. rewrite pool_satisfied_iff. unfold passes, cleared_by, qualifying_copies_for_pool.
  setoid_rewrite elem_of_durable_placements. unfold counts_for. rewrite Hg. split.
  - intros (pl' & i & c & Hpl' & [? ?] & ? & ? & (? & ? & ? & ? & ?) & ?). simplify_eq.
    exists i, c. split_and!; auto.
  - intros (i & c & ? & ? & ? & ? & ? & ? & ? & ? & ?). exists pl, i, c. split_and!; auto.
    intros ? [= <-]. done.
Qed.

(** ** One item *)

(** The policy of the class expands, and every active pool of it is cleared. *)
Definition asset_cleared (k : Cat) (w : WitnessAnswers) (it : IngestItem) : Prop :=
  is_ok (policy_targets k (ii_artifactclass it)) = true ∧
  ∀ p, class_wants k (ii_artifactclass it) p →
    ∃ pl i c, pools k !! p = Some pl ∧
      cleared_by k w (ii_logical_asset_hash it) (ii_artifactclass it) p pl i c.

Lemma forallb_all {A} (f : A → bool) l : forallb f l = true ↔ ∀ x, x ∈ l → f x = true.
Proof. rewrite forallb_forall. by setoid_rewrite list_elem_of_In. Qed.

Lemma targets_satisfied k w h cls ts :
  policy_targets k cls = Ok ts →
  (∀ t, t ∈ ts → pg_satisfied (pool_gate_status k w h t) = true) ↔
  ∀ p, class_wants k cls p → ∃ pl i c, pools k !! p = Some pl ∧ cleared_by k w h cls p pl i c.
Proof.
  intros (_ & Hwants & Hrow)%policy_targets_inv. split.
  - intros Hall p (t & Ht & <-)%Hwants. destruct (Hrow t Ht) as (pl & Hpl & Hcls & Hg & _).
    specialize (Hall t Ht). apply (pool_satisfied_cleared _ _ _ _ pl) in Hall as (i & c & Hc); [|done..].
    rewrite Hcls in Hc. by exists pl, i, c.
  - intros Hall t Ht. destruct (Hrow t Ht) as (pl & Hpl & Hcls & Hg & _).
    destruct (Hall (pt_pool_id t)) as (pl' & i & c & Hpl' & Hc); [apply Hwants; eauto|].
    simplify_eq. apply (pool_satisfied_cleared _ _ _ _ pl); [done..|]. eauto.
Qed.

Section gate_facts.
Context (sha256_hex : string → string) (error_text : DurError → string).

Lemma asset_satisfied_iff k w i it :
  let a := asset_gate_status error_text k w (i, it) in
  (forallb pg_satisfied (ag_pools a) = true ↔ asset_cleared k w it) ∧
  ag_releasable a = forallb pg_satisfied (ag_pools a).
Proof.
  unfold asset_gate_status, asset_cleared. cbn [snd].
  destruct (policy_targets k (ii_artifactclass it)) as [ts|e] eqn:E; cbn.
  - pose proof (policy_targets_inv _ _ _ E) as (Hne & _). split.
    + rewrite forallb_all. rewrite <- (targets_satisfied _ _ _ _ _ E).
      setoid_rewrite list_elem_of_fmap. naive_solver.
    + rewrite length_fmap, bool_decide_false; [done|]. by destruct ts.
  - split; [naive_solver|done].
Qed.

Lemma asset_holds_nil l : asset_holds l = [] ↔ ∀ a, a ∈ l → forallb pg_satisfied (ag_pools a) = true.
Proof.
  induction l as [|a l IH]; cbn; [split; [by intros _ a ?%not_elem_of_nil|done]|].
  rewrite app_nil, IH. setoid_rewrite elem_of_cons.
  assert (Ha : omap (λ p, if pg_satisfied p then None
    else Some ("asset:" +:+ pretty (ag_ingest_item_id a) +:+ ":pool:" +:+ pg_pool_id p +:+ ":" +:+
               default "None" (pg_reason p))) (ag_pools a) = [] ↔ forallb pg_satisfied (ag_pools a) = true).
  { induction (ag_pools a) as [|p ps IHp]; cbn; [done|]. by destruct (pg_satisfied p). }
  rewrite Ha. naive_solver.
Qed.

(** ** One intake *)

Definition arrangement_done (k : Cat) (a : Arrangement) : Prop :=
  ar_status a = ARR_ABANDONED ∨
  ar_status a = SUBMITTED ∧ ∃ s, ar_submission_id a = Some s ∧ s ≠ "" ∧ submission_is_archived k s = true.

(** Every derivation that the requested profile asks of an item has been observed satisfied. *)
Definition derivations_done (d : Database) (row : Intake) (i : Z) (it : IngestItem) : Prop :=
  ∀ profile es e, in_requested_profile row = Some profile → profile ≠ "" →
    entries_for PROFILES (ii_artifactclass it) (Some profile)
      (media_kind_for_path (ii_as_received_path it)) = Some es → e ∈ es →
    ∃ c, cond_tbl (jobs d) !! (DERIVATION_DOMAIN, make_target_key i (de_job_kind e)) = Some c ∧
      rc_condition c = SATISFIED.

Record intake_cleared (d : Database) (id : string) (row : Intake) (w : WitnessAnswers) : Prop := {
  cl_registered : in_status row = REGISTERED;
  cl_items : ∃ i it, t_rows (items (cat d)) !! i = Some it ∧ ii_intake_id it = id;
  cl_arrangements : ∀ i a, t_rows (arrangements (cat d)) !! i = Some a → ar_intake_id a = id →
    arrangement_done (cat d) a;
  cl_derivations : ∀ i it, t_rows (items (cat d)) !! i = Some it → ii_intake_id it = id →
    derivations_done d row i it;
  cl_assets : ∀ i it, t_rows (items (cat d)) !! i = Some it → ii_intake_id it = id →
    asset_cleared (cat d) w it;
}.

Lemma elem_of_gated_items k id i it :
  (i, it) ∈ intake_items k id ↔ t_rows (items k) !! i = Some it ∧ ii_intake_id it = id.
Proof. unfold intake_items. rewrite list_elem_of_filter, elem_of_tbl_list. cbn. naive_solver. Qed.

Lemma eligibility_nil row its :
  intake_eligibility_holds row its = [] ↔ in_status row = REGISTERED ∧ its ≠ [].
Proof. unfold intake_eligibility_holds. case_decide; destruct its; cbn; naive_solver. Qed.

Lemma bind_nil {A B} (f : A → list B) l : l ≫= f = [] ↔ ∀ x, x ∈ l → f x = [].
Proof.
  induction l as [|x l IH]; cbn; [split; [by intros _ y ?%not_elem_of_nil|done]|].
  rewrite app_nil, IH. setoid_rewrite elem_of_cons. naive_solver.
Qed.

Lemma arrangement_hold_nil k i a : arrangement_hold k (i, a) = [] ↔ arrangement_done k a.
Proof.
  unfold arrangement_hold, arrangement_done. cbn.
  destruct (ar_status a), (ar_submission_id a) as [[|c s]|]; try (split; naive_solver).
  destruct (submission_is_archived k (String c s)) eqn:E.
  - split; [|done]. intros _. right. split; [done|]. by exists (String c s).
  - split; [done|]. intros [?|(_ & s' & [= <-] & _ & ?)]; congruence.
Qed.

Lemma arrangement_holds_nil k id :
  arrangement_holds k id = [] ↔
  ∀ i a, t_rows (arrangements k) !! i = Some a → ar_intake_id a = id → arrangement_done k a.
Proof.
  unfold arrangement_holds. rewrite bind_nil. setoid_rewrite list_elem_of_filter. split.
  - intros H i a Ha Hid. apply (arrangement_hold_nil k i), H. split; [done|]. by apply elem_of_tbl_list.
  - intros H [i a] [Hid Ha%elem_of_tbl_list]. apply arrangement_hold_nil. by eapply H.
Qed.

Lemma derivation_hold_nil db i e :
  derivation_hold db i e = [] ↔
  ∃ c, cond_tbl db !! (DERIVATION_DOMAIN, make_target_key i (de_job_kind e)) = Some c ∧
    rc_condition c = SATISFIED.
Proof.
  unfold derivation_hold. destruct (cond_tbl db !! _) as [c|]; [|naive_solver].
  case_decide; naive_solver.
Qed.

Lemma profile_holds_nil d row its :
  prepared_profile_holds d row its = [] ↔ ∀ i it, (i, it) ∈ its → derivations_done d row i it.
Proof.
  unfold prepared_profile_holds, derivations_done.
  destruct (in_requested_profile row) as [[|c s]|]; [by split; [intros ? ? ? ? ? ? ? [= <-]|]| |by split].
  rewrite bind_nil. split.
  - intros H i it Hin profile es e [= <-] _ Hes He. specialize (H _ Hin). cbn [fst snd] in H.
    rewrite Hes in H. cbn [default] in H. rewrite bind_nil in H. by apply derivation_hold_nil, H.
  - intros H [i it] Hin. cbn [fst snd].
    destruct (entries_for _ _ _ _) as [es|] eqn:E; [|done]. cbn [default]. apply bind_nil.
    intros e He. apply derivation_hold_nil. by eapply H.
Qed.

Lemma gate_assets_cleared k w (its : list (Z * IngestItem)) :
  (∀ a, a ∈ (asset_gate_status error_text k w <$> its) → forallb pg_satisfied (ag_pools a) = true) ↔
  ∀ i it, (i, it) ∈ its → asset_cleared k w it.
Proof.
  split.
  - intros H i it Hin. apply (asset_satisfied_iff k w i it), H. apply list_elem_of_fmap. eauto.
  - intros H a ([i it] & -> & Hin)%list_elem_of_fmap. apply asset_satisfied_iff. eauto.
Qed.

(** The verdict, the holds and the meaning of the gate. *)
Lemma gate_spec d id row w rh g now st :
  local_gate_status sha256_hex error_text d id row w rh g now = Ok st →
  (ig_holds st = [] ↔ intake_cleared d id row w) ∧
  ig_releasable st = (negb rh || bool_decide (in_retention_state row = HELD)) && bool_decide (ig_holds st = []).
Proof.
  intros (purge & _ & [= <-])%bind_Ok. cbn [ig_holds ig_releasable].
  set (its := intake_items (cat d) id). set (el := intake_eligibility_holds row its).
  assert (Hrow : ∀ i it, (i, it) ∈ its ↔ t_rows (items (cat d)) !! i = Some it ∧ ii_intake_id it = id)
    by (intros; apply elem_of_gated_items).
  assert (Hit : its ≠ [] ↔ ∃ i it, t_rows (items (cat d)) !! i = Some it ∧ ii_intake_id it = id).
  { destruct its as [|[i it] l]; [|split; [|done]; intros _; exists i, it; apply Hrow; left].
    split; [done|]. by intros (i & it & ?%Hrow%not_elem_of_nil). }
  assert (Hcl : intake_cleared d id row w ↔ el = [] ∧ arrangement_holds (cat d) id = [] ∧
    prepared_profile_holds d row its = [] ∧ ∀ i it, (i, it) ∈ its → asset_cleared (cat d) w it).
  { unfold el. rewrite eligibility_nil, Hit, arrangement_holds_nil, profile_holds_nil.
    split.
    - intros [H1 H2 H3 H4 H5]. split_and!; [done..| |]; intros i it [? ?]%Hrow; eauto.
    - intros ([? ?] & ? & Hd & Ha). constructor; [done..| |]; intros i it ? ?;
        [eapply Hd|eapply Ha]; by apply Hrow. }
  split.
  - rewrite Hcl, !app_nil, asset_holds_nil. destruct el; [|naive_solver].
    rewrite gate_assets_cleared. naive_solver.
  - rewrite <- !andb_assoc. f_equal. apply eq_true_iff_eq.
    rewrite !andb_true_iff, negb_true_iff, bool_decide_eq_false, !bool_decide_eq_true, !length_zero_iff_nil,
      forallb_all, !app_nil, asset_holds_nil.
    destruct el as [|h el'] eqn:Eel; [|naive_solver].
    apply eligibility_nil in Eel as [_ Hne].
    assert (Hrel : (∀ a, a ∈ (asset_gate_status error_text (cat d) w <$> its) → ag_releasable a = true) ↔
      ∀ a, a ∈ (asset_gate_status error_text (cat d) w <$> its) → forallb pg_satisfied (ag_pools a) = true).
    { split; intros H a Ha; specialize (H a Ha); apply list_elem_of_fmap in Ha as ([i it] & -> & _);
        pose proof (asset_satisfied_iff (cat d) w i it) as [_ Heq]; congruence. }
    rewrite Hrel. assert (asset_gate_status error_text (cat d) w <$> its ≠ []) by (by destruct its).
    naive_solver.
Qed.

(** C15: the release gate means what it says.  It passes exactly when the intake is registered, has
    items, has no open arrangement, has every requested derivation, and for every item and every
    active pool of its class there is a healthy, undeleted copy on the pool's own backend whose last
    read-back gave its integrity hash, which carries the asset, is not denied by a backend that can
    testify, and sits on confirmed offsite media where the pool demands it. *)
Theorem release_gate_sound d id row w g now st :
  local_gate_status sha256_hex error_text d id row w true g now = Ok st →
  ig_releasable st = true ↔ in_retention_state row = HELD ∧ intake_cleared d id row w.
Proof.
  intros [Hh ->]%gate_spec. cbn. by rewrite andb_true_iff, !bool_decide_eq_true, Hh.
Qed.

(** The purge gate: a released intake past its grace time, under the policy it was released with. *)
Lemma purge_holds_nil d id row w g now gate_now :
  purge_holds sha256_hex error_text d id row w g now gate_now = Ok [] →
  in_retention_state row = RELEASED ∧ intake_cleared d id row w ∧
  (∃ t, in_released_at row = Some t ∧ t + days g < now) ∧
  ∃ f, in_release_policy_fingerprint row = Some f ∧
    policy_fingerprint sha256_hex (cat d) (intake_items (cat d) id) = Ok f.
Proof.
  unfold purge_holds. destruct (in_retention_state row) eqn:Es; try done.
  destruct (in_released_at row) as [t|]; [|done]. intros (st & Hst & H)%bind_Ok.
  apply gate_spec in Hst as [Hh _].
  destruct (in_release_policy_fingerprint row) as [f|].
  2: { injection H as H. by apply app_eq_nil in H as [_ ?]. }
  apply bind_Ok in H as (cur & Hcur & [= H]). apply app_eq_nil in H as [H Hf].
  apply app_eq_nil in H as [Hn Hg]. case_decide; [done|]. case_bool; [done|]. split_bools.
  split_and!; [done|by apply Hh|by exists t|]. exists f. split; [done|]. rewrite Hcur. f_equal.
  by destruct (decide (cur = f)).
Qed.
End gate_facts.
