(* ===== verification/RetentionFsFacts.v ===== *)
(** * What the file steps of the retention funnel do

    The rename moves exactly one tree, the delete removes nothing outside the path it was given, and
    the guards tie both paths to the intake. *)

From stdpp Require Import pretty.
From S2P Require Import Prelude Json JsonText JobModels Catalog RetryConfig Scrub Accumulator FanoutMap.
From S2P Require Import Durability Profiles Retention RetentionFs.

(** ** Trees *)

Lemma under_iff r p : under r p = true ↔ ∃ rest, p = r ++ rest.
Proof. unfold under. rewrite bool_decide_eq_true. done. Qed.

Lemma under_app r rest : under r (r ++ rest) = true.
Proof. apply under_iff. eauto. Qed.

Lemma under_false r p : under r p = false ↔ ¬ ∃ rest, p = r ++ rest.
Proof. rewrite <- under_iff. by destruct (under r p). Qed.

Lemma relocate_under s d rest : relocate s d (s ++ rest) = d ++ rest.
Proof. unfold relocate. by rewrite under_app, drop_app_length. Qed.

Lemma relocate_other s d p : under s p = false → relocate s d p = p.
Proof. unfold relocate. by intros ->. Qed.

Lemma relocate_inj s d p q :
  under d p = false → under d q = false → relocate s d p = relocate s d q → p = q.
Proof.
  intros Hp Hq. unfold relocate.
  destruct (under s p) eqn:Ep, (under s q) eqn:Eq; [| | |done].
  - apply under_iff in Ep as [x ->], Eq as [y ->]. rewrite !drop_app_length. by intros ->%(inj _).
  - intros <-. by rewrite under_app in Hq.
  - intros ->. by rewrite under_app in Hp.
Qed.

Lemma remove_tree_lookup r fs p : remove_tree r fs !! p = if under r p then None else fs !! p.
Proof.
  unfold remove_tree. destruct (under r p) eqn:E.
  - apply map_lookup_filter_None. right. intros x _. cbn. by rewrite E.
  - destruct (fs !! p) as [n|] eqn:Ep; [by apply map_lookup_filter_Some|].
    apply map_lookup_filter_None. by left.
Qed.

Lemma rename_tree_lookup s d fs q n :
  rename_tree s d fs !! q = Some n ↔ ∃ p, under d p = false ∧ fs !! p = Some n ∧ relocate s d p = q.
Proof.
  unfold rename_tree. rewrite <- elem_of_list_to_map.
  - rewrite list_elem_of_fmap. split.
    + intros ([p m] & [= -> ->] & Hin). apply elem_of_map_to_list in Hin.
      rewrite remove_tree_lookup in Hin. case_bool; [done|]. by exists p.
    + intros (p & Hp & Hf & <-). exists (p, n). split; [done|]. apply elem_of_map_to_list.
      by rewrite remove_tree_lookup, Hp.
  - rewrite <- list_fmap_compose.
    assert (Hin : ∀ p m, (p, m) ∈ map_to_list (remove_tree d fs) → under d p = false).
    { intros p m Hin%elem_of_map_to_list. rewrite remove_tree_lookup in Hin. by case_bool. }
    pose proof (NoDup_fst_map_to_list (remove_tree d fs)) as Hnd. revert Hin Hnd.
    induction (map_to_list (remove_tree d fs)) as [|[p m] l IH]; intros Hin Hnd; [constructor|].
    cbn in *. apply NoDup_cons in Hnd as [Hni Hnd]. apply NoDup_cons. split.
    + intros ([p' m'] & Heq & Hl)%list_elem_of_fmap. cbn in Heq. apply Hni.
      apply relocate_inj in Heq as ->; [|eapply Hin; by left|eapply Hin; by right].
      apply list_elem_of_fmap. by exists (p', m').
    + apply IH; [|done]. intros p' m' Hl. eapply Hin. by right.
Qed.

(** A rename that the system allows: the tree [s] is at [d], [s] is gone, nothing else changed. *)
Lemma rename_tree_moves s d fs :
  can_rename s d fs = true →
  (∀ rest, rename_tree s d fs !! (d ++ rest) = fs !! (s ++ rest)) ∧
  (∀ p, under s p = true → under d p = false → rename_tree s d fs !! p = None) ∧
  ∀ p, under s p = false → under d p = false → rename_tree s d fs !! p = fs !! p.
Proof.
  unfold can_rename. intros H. split_bools.
  assert (Hfree : ∀ p n, fs !! p = Some n → under d p = true → p = d).
  { intros p n Hp Hu. rewrite forallb_forall in *.
    match goal with H : ∀ x, In x _ → _ |- _ => specialize (H (p, n)) as Hx end.
    rewrite <- list_elem_of_In, elem_of_map_to_list in Hx. specialize (Hx Hp). cbn in Hx.
    rewrite Hu in Hx. cbn in Hx. by apply bool_decide_eq_true_1 in Hx. }
  split_and!.
  - intros rest. apply option_eq. intros n. rewrite rename_tree_lookup. split.
    + intros (p & Hp & Hf & Heq). unfold relocate in Heq. destruct (under s p) eqn:Es.
      * apply under_iff in Es as [r ->]. rewrite drop_app_length in Heq. by apply (inj _) in Heq as ->.
      * subst p. by rewrite under_app in Hp.
    + intros Hf. exists (s ++ rest). rewrite relocate_under. split_and!; [|done..].
      destruct (under d (s ++ rest)) eqn:Eu; [|done]. pose proof (Hfree _ _ Hf Eu) as Heq.
      assert (under s d = true) by (rewrite <- Heq; apply under_app). congruence.
  - intros p Hs Hd. apply eq_None_not_Some. intros [n Hn]. apply rename_tree_lookup in Hn as (q & Hq & _ & Heq).
    unfold relocate in Heq. destruct (under s q) eqn:Eq; [|congruence]. subst p.
    by rewrite under_app in Hd.
  - intros p Hs Hd. apply option_eq. intros n. rewrite rename_tree_lookup. split.
    + intros (q & Hq & Hf & Heq). unfold relocate in Heq. destruct (under s q) eqn:Eq; [|congruence].
      subst p. by rewrite under_app in Hd.
    + intros Hf. exists p. by rewrite relocate_other.
Qed.

(** ** Guards *)

Section guards.
Context (sha256_hex : string → string) (json_loads : bytes → option json).
Context (cwd : path) (landing_config : list string) (tombstone_config : option string).

Local Abbreviation sentinel_ok := (validate_sentinel json_loads).
Local Abbreviation roots := (landing_roots cwd landing_config).
Local Abbreviation tomb_root := (tombstone_root cwd landing_config tombstone_config).

(** The directory holds the intake's own sentinel. *)
Definition owns (fs : Fs) (root : path) (id : string) : Prop :=
  ∃ content payload, stat fs (root ++ ["intake.json"]) = Ok (NFile content) ∧
    json_loads content = Some payload ∧ dget "intake_id" (as_obj (Some payload)) = Some (JStr id).

Lemma sentinel_owns fs root id : sentinel_ok fs root id = Ok tt → owns fs root id.
Proof.
  unfold validate_sentinel. intros ([] & _ & H)%bind_Ok.
  destruct (stat fs (root ++ ["intake.json"])) as [[content| |]|] eqn:Es; try done.
  destruct (json_loads content) as [payload|] eqn:Ej; [|done].
  destruct (dget "intake_id" (as_obj (Some payload))) as [[| | |s| | |]|] eqn:Ed; try done.
  apply raise_if_Ok in H. split_bools. subst s. by exists content, payload.
Qed.

Lemma os_fault_Ok {A} (r : result PathError A) a : os_fault r = Ok a ↔ r = Ok a.
Proof. destruct r; cbn; naive_solver. Qed.

(** The tree that may be renamed: strictly below a configured landing root, at least two levels deep,
    with the intake's sentinel, and with the manifest the catalog recorded when there is one. *)
Definition own_staging (fs : Fs) (s : path) (id : string) (row : Intake) : Prop :=
  (2 <= length s)%nat ∧ owns fs s id ∧
  (∃ rs r, roots fs = Ok rs ∧ r ∈ rs ∧ under r s = true ∧ s ≠ r) ∧
  ∀ m, in_manifest_path row = Some m →
    ∃ q content, resolve fs false (absolute cwd m) = Ok q ∧ under s q = true ∧
      stat fs q = Ok (NFile content) ∧ in_manifest_digest row = Some (sha256_hex content).

Lemma validate_staging_sound fs root id row :
  validate_staging_root sha256_hex json_loads cwd landing_config fs root id row = Ok tt →
  ∃ s, resolve fs false root = Ok s ∧ own_staging fs s id row.
Proof.
  unfold validate_staging_root.
  intros ([] & _ & (s & Hs%os_fault_Ok & ([] & Hlen%raise_if_Ok & (rs & Hrs & ([] & Hin%raise_if_Ok &
    ([] & Hown & Hman)%bind_Ok)%bind_Ok)%bind_Ok)%bind_Ok)%bind_Ok)%bind_Ok.
  exists s. split; [done|]. split_and!.
  - unfold unsafe_delete_root in Hlen. apply Nat.ltb_ge in Hlen. done.
  - by apply sentinel_owns.
  - apply negb_false_iff, existsb_exists in Hin as (r & Hr & Hb). unfold strictly_below in Hb. split_bools.
    exists rs, r. split_and!; [done|by apply list_elem_of_In|done|done].
  - intros m Hm. unfold validate_manifest in Hman. rewrite Hm in Hman.
    apply bind_Ok in Hman as ([] & _ & Hman). apply bind_Ok in Hman as (q & Hq%os_fault_Ok & Hman).
    apply bind_Ok in Hman as ([] & Hb%raise_if_Ok & Hman). unfold strictly_below in Hb. split_bools.
    destruct (stat fs q) as [[content| |]|] eqn:Eq; try done.
    destruct (in_manifest_digest row) as [dg|] eqn:Ed; [|done]. apply raise_if_Ok in Hman. split_bools.
    subst dg. by exists q, content.
Qed.

(** The tombstone that may be removed. *)
Definition own_tombstone (fs : Fs) (t : path) (id : string) : Prop :=
  (∃ root r, tomb_root fs = Ok root ∧ resolve fs false root = Ok r ∧
     t = r ++ [tombstone_basename sha256_hex id]) ∧
  (path_exists fs t = true → owns fs t id).

Lemma validate_tombstone_sound fs p id :
  validate_tombstone_path sha256_hex json_loads cwd landing_config tombstone_config fs p id = Ok tt →
  ∃ t, resolve fs true p = Ok t ∧ own_tombstone fs t id.
Proof.
  unfold validate_tombstone_path.
  intros (root & Hroot & (r & Hr%os_fault_Ok & ([] & _ & (t & Ht%os_fault_Ok & ([] & Hp%raise_if_Ok &
    ([] & Hl%raise_if_Ok & Hs)%bind_Ok)%bind_Ok)%bind_Ok)%bind_Ok)%bind_Ok)%bind_Ok.
  split_bools. exists t. split; [done|]. split.
  - exists root, r. split_and!; [done..|]. apply last_Some in Hl as [l ->].
    by rewrite removelast_last in Hp; subst.
  - intros He. rewrite He in Hs. by apply sentinel_owns.
Qed.

Lemma preflight_sound (device : path → Z) fs its id row fs' staging tombstone :
  preflight_staging_paths sha256_hex json_loads cwd landing_config tombstone_config device fs its id row
    = Ok (fs', staging, tombstone) →
  (path_exists fs' staging = false ∧ ∃ t, resolve fs' true tombstone = Ok t ∧ own_tombstone fs' t id) ∨
  ∃ s, resolve fs' false staging = Ok s ∧ own_staging fs' s id row.
Proof.
  unfold preflight_staging_paths. destruct (staging_root_for_intake cwd its row) as [st|]; [|done].
  intros (root & _ & ([] & _ & (rr & _ & (fs1 & _ & ([] & _ & H)%bind_Ok)%bind_Ok)%bind_Ok)%bind_Ok)%bind_Ok.
  case_bool.
  - apply bind_Ok in H as ([] & Hv & [= <- <- <-]). split_bools. left. split; [done|].
    by apply validate_tombstone_sound in Hv.
  - apply bind_Ok in H as ([] & Hv & H). apply bind_Ok in H as (s & _ & H).
    apply bind_Ok in H as (t & _ & H). apply bind_Ok in H as ([] & _ & [= <- <- <-]).
    right. by apply validate_staging_sound in Hv.
Qed.

(** The tombstone rename moves exactly one tree.  If it succeeds, either the tombstone of this
    intake was already there and the staging path gone (an earlier run was cut off after the rename)
    and nothing changes, or every path below the staging directory is now at the same place below the
    tombstone, nothing is left behind, no other path of the file system changed, and the tombstone
    carries the intake's sentinel. *)
Lemma tombstone_moves_tree fs source destination id fs' :
  atomic_tombstone json_loads fs source destination id = (fs', Ok tt) →
  owns fs' destination id ∧
  (fs' = fs ∧ path_exists fs source = false ∨
   ∃ s d, resolve fs false source = Ok s ∧ resolve fs true destination = Ok d ∧ under s d = false ∧
     (∀ rest, fs' !! (d ++ rest) = fs !! (s ++ rest)) ∧
     (∀ p, under s p = true → under d p = false → fs' !! p = None) ∧
     ∀ p, under s p = false → under d p = false → fs' !! p = fs !! p).
Proof.
  unfold atomic_tombstone. case_bool.
  { intros [= <- ([] & Hs & He%raise_if_Ok)%bind_Ok]. split; [by apply sentinel_owns|]. by left. }
  case_bool; [done|]. destruct (resolve fs false source) as [s|] eqn:Es; [|done].
  destruct (resolve fs true destination) as [d|] eqn:Ed; [|done].
  destruct (can_rename s d fs) eqn:Ec; [|done]. intros [= <- Hs]. split; [by apply sentinel_owns|].
  right. exists s, d. pose proof (rename_tree_moves _ _ _ Ec) as (H1 & H2 & H3). split_and!; try done.
  unfold can_rename in Ec. by split_bools.
Qed.

(** The delete touches nothing outside its resolved path, and when it returns nothing is left there. *)
Lemma delete_path_frame removal fs p fs' r :
  delete_path_idempotent removal fs p = (fs', r) →
  (∀ t q, resolve fs true p = Ok t → under t q = false → fs' !! q = fs !! q) ∧
  (∀ t, r = Ok tt → resolve fs true p = Ok t → fs' !! t = None).
Proof.
  unfold delete_path_idempotent. destruct (resolve fs true p) as [t0|]; [|intros [= <- <-]; done].
  case_bool; [intros [= <- <-]; by split|]. destruct (is_dir fs t0).
  - destruct removal as [|remains]; intros [= <- <-]; split.
    + intros t q [= <-] Hu. by rewrite remove_tree_lookup, Hu.
    + intros t _ [= <-]. rewrite remove_tree_lookup. unfold under. by rewrite bool_decide_true.
    + intros t q [= <-] Hu. destruct (fs !! q) as [n|] eqn:Eq.
      * apply map_lookup_filter_Some. cbn. by rewrite Hu.
      * apply map_lookup_filter_None. by left.
    + done.
  - intros [= <- <-]. split.
    + intros t q [= <-] Hu. apply lookup_delete_ne. intros <-. unfold under in Hu. by rewrite bool_decide_true in Hu.
    + intros t _ [= <-]. apply lookup_delete_eq.
Qed.
End guards.
