(* ===== verification/RetentionFacts.v ===== *)
(** * Correctness of the retention funnel

    Every irreversible step of a release or a purge is authorised by the database its transaction
    began with; batches stop at their limit; a tombstone is garbage-collected by the next run.  Two
    theorems show where the code falls short of its documentation. *)

From stdpp Require Import pretty.
From S2P Require Import Prelude Json JsonText JobModels Catalog RetryConfig Conditions Durability.
From S2P Require Import FanoutMap ArchivePredicate Profiles Retention RetentionFs RetentionRun.
From S2P Require Import DurabilityFacts RetentionGateFacts RetentionFsFacts.

(** ** Runs *)

Lemma bind_run {A B} (m : M A) (f : A → M B) s :
  (m ≫= f) s = match m s with (s, Ok a) => f a s | (s, Err e) => (s, Err e) end.
Proof. done. Qed.

Lemma bind_ok {A B} (m : M A) (f : A → M B) s s1 a r : m s = (s1, Ok a) → f a s1 = r → (m ≫= f) s = r.
Proof. intros Hm. by rewrite bind_run, Hm. Qed.

Definition quiet (l : list Effect) : Prop := Forall (λ e, ∃ d, e = Began d) l.

Lemma quiet_nil : quiet [].
Proof. constructor. Qed.

Lemma quiet_app l1 l2 : quiet l1 → quiet l2 → quiet (l1 ++ l2).
Proof. apply Forall_app_2. Qed.

(** The session's copies of the rows of the intakes [keep] are the rows of the database. *)
Definition coherent (keep : string → Prop) (s : Sess) : Prop :=
  ∀ i row, keep i → s_cache s !! i = Some row → intakes (cat (s_work s)) !! i = Some row.

Section runs.
(** The intakes the run is about, and a moment it has passed *)
Context (keep : string → Prop) (past : Sess).

Definition ready (s : Sess) : Prop :=
  coherent keep s ∧ (s_tick past ≤ s_tick s)%nat ∧ s_trace past `prefix_of` s_trace s.

(** A step that ends no transaction and does nothing irreversible. *)
Definition still {A} (m : M A) : Prop := ∀ s, ready s →
  ready (m s).1 ∧ s_work (m s).1 = s_work s ∧ s_trace (m s).1 = s_trace s.

(** The same, but it may write to the database. *)
Definition mute {A} (m : M A) : Prop := ∀ s, ready s →
  ready (m s).1 ∧ s_trace (m s).1 = s_trace s.

(** A step that does nothing irreversible. *)
Definition calm {A} (m : M A) : Prop := ∀ s, ready s →
  ready (m s).1 ∧ ∃ l, s_trace (m s).1 = s_trace s ++ l ∧ quiet l.

(** A program all of whose runs leave a trace that [G] allows after the trace so far. *)
Definition leaves {A} (G : list Effect → list Effect → Prop) (m : M A) : Prop := ∀ s, ready s →
  ∃ l, s_trace (m s).1 = s_trace s ++ l ∧ G (s_trace s) l.

Lemma still_mute {A} (m : M A) : still m → mute m.
Proof. intros H s Hs. by destruct (H s Hs) as (? & _ & ?). Qed.

Lemma mute_calm {A} (m : M A) : mute m → calm m.
Proof.
  intros H s Hs. destruct (H s Hs) as (? & ->). split; [done|]. exists [].
  split; [by rewrite app_nil_r|constructor].
Qed.

Lemma still_bind {A B} (m : M A) (f : A → M B) : still m → (∀ a, still (f a)) → still (m ≫= f).
Proof.
  intros Hm Hf s Hs. destruct (Hm s Hs) as (Hc & Hw & Ht). rewrite bind_run.
  destruct (m s) as [s1 [a|e]]; cbn in *; [|done]. destruct (Hf a s1 Hc) as (? & ? & ?). split_and!; [done|congruence..].
Qed.

Lemma mute_bind {A B} (m : M A) (f : A → M B) : mute m → (∀ a, mute (f a)) → mute (m ≫= f).
Proof.
  intros Hm Hf s Hs. destruct (Hm s Hs) as (Hc & Ht). rewrite bind_run.
  destruct (m s) as [s1 [a|e]]; cbn in *; [|done]. destruct (Hf a s1 Hc) as (? & ?). split; [done|congruence].
Qed.

Lemma calm_bind {A B} (m : M A) (f : A → M B) : calm m → (∀ a, calm (f a)) → calm (m ≫= f).
Proof.
  intros Hm Hf s Hs. destruct (Hm s Hs) as (Hc & l & Hl & Hq). rewrite bind_run.
  destruct (m s) as [s1 [a|e]]; cbn in *; [|eauto]. destruct (Hf a s1 Hc) as (? & l' & Hl' & Hq').
  split; [done|]. exists (l ++ l'). rewrite Hl', Hl, app_assoc. split; [done|]. by apply quiet_app.
Qed.

Lemma leaves_bind {A B} (G : list Effect → list Effect → Prop) (m : M A) (f : A → M B) :
  (∀ h l, quiet l → G h l) → (∀ h l l', quiet l → G (h ++ l) l' → G h (l ++ l')) →
  calm m → (∀ a, leaves G (f a)) → leaves G (m ≫= f).
Proof.
  intros H0 H1 Hm Hf s Hs. destruct (Hm s Hs) as (Hc & l & Hl & Hq). rewrite bind_run.
  destruct (m s) as [s1 [a|e]]; cbn in *; [|eauto]. destruct (Hf a s1 Hc) as (l' & Hl' & Hq').
  exists (l ++ l'). rewrite Hl', Hl, app_assoc. split; [done|]. apply H1; [done|]. by rewrite <- Hl.
Qed.

Lemma calm_leaves {A} (G : list Effect → list Effect → Prop) (m : M A) :
  (∀ h l, quiet l → G h l) → calm m → leaves G m.
Proof. intros H0 Hm s Hs. destruct (Hm s Hs) as (_ & l & Hl & Hq). eauto. Qed.

(** ** Still steps *)

Lemma still_pure {A} (a : A) : still (mret a).
Proof. by intros s Hs. Qed.

Lemma still_raise {A} e : still (raise (A := A) e).
Proof. by intros s Hs. Qed.

Lemma still_lift {A} (r : result RetentionFault A) : still (lift r).
Proof. by intros s Hs. Qed.

Lemma still_work : still work.
Proof. by intros s Hs. Qed.

Lemma still_files : still files.
Proof. by intros s Hs. Qed.

Lemma still_put_files fs : still (put_files fs).
Proof. by intros s Hs. Qed.

Lemma still_moment : still moment.
Proof. by intros s Hs. Qed.

Lemma still_tick : still tick.
Proof. intros s (Hc & Ht & Hp). split; [split_and!; [done|cbn; lia|done]|done]. Qed.

Lemma require_intake_run i s s' row :
  require_intake i s = (s', Ok row) →
  (s_cache s !! i = Some row ∨ s_cache s !! i = None ∧ intakes (cat (s_work s)) !! i = Some row) ∧
  s' = set_cache (<[i := row]> (s_cache s)) s ∧ s_cache s' !! i = Some row.
Proof.
  unfold require_intake. destruct (s_cache s !! i) as [r|] eqn:Ec.
  - intros [= <- <-]. split_and!; [by left| |done]. destruct s; cbn in *. by rewrite insert_id.
  - destruct (intakes _ !! i) as [r|]; [|done]. intros [= <- <-]. split_and!; [by right|done|].
    cbn. by rewrite lookup_insert_eq.
Qed.

Lemma still_require i : still (require_intake i).
Proof.
  intros s Hs. unfold require_intake. destruct (s_cache s !! i) as [r|] eqn:Ec; [done|].
  destruct (intakes (cat (s_work s)) !! i) as [r|] eqn:Ei; [|done]. destruct Hs as (Hs & Ht & Hp).
  cbn. split_and!; [|done..]. split; [|done].
  intros j row Hj. cbn. rewrite lookup_insert. case_decide as Hi; [|by apply Hs]. subst. congruence.
Qed.

(** A coherent session hands out the row of the database. *)
Lemma require_fresh i s s' row :
  keep i → coherent keep s → require_intake i s = (s', Ok row) → intakes (cat (s_work s)) !! i = Some row.
Proof. intros Hi Hs [[H|[_ H]] _]%require_intake_run; [by apply Hs|done]. Qed.

Lemma mute_modify f : (∀ k, intakes (f k) = intakes k) → mute (modify f).
Proof.
  intros Hf s (Hs & Ht & Hp). split; [|done]. split; [|done].
  intros i row Hi Hr. cbn. rewrite Hf. by apply Hs.
Qed.

Lemma mute_update i f : mute (update_intake i f).
Proof.
  intros s Hs. unfold update_intake. destruct (intakes (cat (s_work s)) !! i) as [r|] eqn:Ei; [|done].
  destruct Hs as (Hs & Ht & Hp). split; [|done]. split; [|done].
  intros j row Hj. cbn. destruct (decide (i = j)) as [->|Hne].
  - rewrite lookup_alter_eq, lookup_insert_eq. intros (r' & Hr' & ->)%fmap_Some.
    apply Hs in Hr'; [congruence|done].
  - rewrite lookup_alter_ne, lookup_insert_ne by done. by apply Hs.
Qed.

(** The moment a program has passed when it goes on with the result of [m] *)
Lemma leaves_past {A B} (G : list Effect → list Effect → Prop) (m : M A) (f : A → M B) s :
  (∀ h l, quiet l → G h l) → (∀ h l l', quiet l → G (h ++ l) l' → G h (l ++ l')) →
  calm m → ready s →
  (∀ s' a, m s = (s', Ok a) → ready s' → ∃ l, s_trace (f a s').1 = s_trace s' ++ l ∧ G (s_trace s') l) →
  ∃ l, s_trace ((m ≫= f) s).1 = s_trace s ++ l ∧ G (s_trace s) l.
Proof.
  intros H0 H1 Hm Hs Hf. destruct (Hm s Hs) as (Hc & l & Hl & Hq). rewrite bind_run.
  destruct (m s) as [s1 [a|e]] eqn:E; cbn in *; [|eauto]. destruct (Hf s1 a eq_refl Hc) as (l' & Hl' & Hq').
  exists (l ++ l'). rewrite Hl', Hl, app_assoc. split; [done|]. apply H1; [done|]. by rewrite <- Hl.
Qed.
End runs.

Create HintDb calm.
#[export] Hint Resolve still_pure still_raise still_lift still_work still_files still_put_files still_tick still_moment
  still_require mute_update : calm.
#[export] Hint Extern 5 (calm _ _ _) => apply mute_calm : calm.
#[export] Hint Extern 5 (mute _ _ _) => apply still_mute : calm.

(** Peels binds and tests off a program. *)
Ltac peel :=
  repeat match goal with
  | |- still _ _ (_ ≫= _) => apply still_bind; [|intros ?]
  | |- mute _ _ (_ ≫= _) => apply mute_bind; [|intros ?]
  | |- calm _ _ (_ ≫= _) => apply calm_bind; [|intros ?]
  | |- still _ _ (if ?x then _ else _) => destruct x
  | |- mute _ _ (if ?x then _ else _) => destruct x
  | |- calm _ _ (if ?x then _ else _) => destruct x
  | |- still _ _ (match ?x with _ => _ end) => destruct x
  | |- mute _ _ (match ?x with _ => _ end) => destruct x
  | |- calm _ _ (match ?x with _ => _ end) => destruct x
  end.
Ltac calm := peel; auto with calm.

Section funnel_facts.
Context (sha256_hex : string → string) (error_text : DurError → string).
Context (json_loads : bytes → option json) (cwd : path) (landing_config : list string)
        (tombstone_config : option string) (device : path → Z).
Context (clock : nat → time) (uuid : nat → string).
Context (others : nat → Database → Database) (files_others : nat → Fs → Fs).
Context (backend_from_row : Backend → Adapter) (witness_copy : nat → copy_entry → option WitnessResult).
Context (delete_object : nat → copy_entry → Deletion) (rmtree : nat → Removal).

(** No other process touches these intakes. *)
Definition untouched (keep : string → Prop) : Prop :=
  ∀ i n d, keep i → intakes (cat (others n d)) !! i = intakes (cat d) !! i.

(** ** The steps of a run *)

Section steps.
Context (keep : string → Prop) (past : Sess).
Hypothesis stable : untouched keep.

Local Abbreviation still := (still keep past).
Local Abbreviation mute := (mute keep past).
Local Abbreviation calm := (calm keep past).
Local Abbreviation ready := (ready keep past).

Lemma still_utcnow : still (utcnow clock).
Proof. unfold utcnow. calm. Qed.

Lemma utcnow_run s : utcnow clock s = ((tick s).1, Ok (clock (s_tick s))).
Proof. done. Qed.

Lemma still_uuid : still (uuid4 uuid).
Proof. unfold uuid4. calm. Qed.

Lemma commit_run s :
  commit others files_others s = ((commit others files_others s).1, Ok tt) ∧
  (ready s → ready (commit others files_others s).1) ∧
  s_trace (commit others files_others s).1 =
    s_trace s ++ [Began (s_work (commit others files_others s).1)].
Proof.
  split_and!; [done| |done]. intros (Hs & Ht & Hp). split_and!; [|done|by apply prefix_app_r].
  intros i row Hi Hr. cbn in *. rewrite stable by done. by apply Hs.
Qed.

Lemma calm_commit : calm (commit others files_others).
Proof.
  intros s Hs. destruct (commit_run s) as (_ & Hc & Ht). split; [by apply Hc|].
  rewrite Ht. eexists. split; [done|]. by repeat econstructor.
Qed.

Lemma calm_rollback : calm (rollback others files_others).
Proof.
  intros s (Hs & Ht & Hp). split.
  - split_and!; [intros i row; cbn; by rewrite lookup_empty|done|by apply prefix_app_r].
  - cbn. eexists. split; [done|]. by repeat econstructor.
Qed.

Lemma calm_begin : calm (begin_immediate others files_others).
Proof. exact calm_commit. Qed.
#[local] Hint Resolve still_utcnow still_uuid calm_commit calm_rollback calm_begin : calm.

Lemma mute_add_event e at_ sup : mute (add_event clock e at_ sup).
Proof. unfold add_event, insert_event. calm. by apply mute_modify. Qed.
#[local] Hint Resolve mute_add_event : calm.

Lemma mute_add_once i a o actor at_ detail : mute (add_once_event clock i a o actor at_ detail).
Proof. unfold add_once_event. calm. Qed.

Lemma still_require_text m ss : still (require_text m ss).
Proof. unfold require_text. calm. Qed.

Lemma still_items i : still (items_of i).
Proof. unfold items_of. calm. Qed.

Lemma still_execute_one q : still (execute_one clock witness_copy q).
Proof. unfold execute_one. calm. Qed.
#[local] Hint Resolve mute_add_once still_require_text still_items still_execute_one : calm.

Lemma still_execute qs w : still (execute_witness_requests clock witness_copy qs w).
Proof. revert w. induction qs as [|q qs IH]; intros w; cbn [execute_witness_requests]; calm. Qed.
#[local] Hint Resolve still_execute : calm.

Lemma still_collect its : still (collect_witness_answers clock backend_from_row witness_copy its).
Proof. unfold collect_witness_answers. calm. Qed.
#[local] Hint Resolve still_collect : calm.

Lemma still_fresh its w : still (fresh_witness_answers clock backend_from_row witness_copy its w).
Proof. unfold fresh_witness_answers. calm. Qed.

Lemma still_gate i row w rh g : still (gate sha256_hex error_text clock i row w rh g).
Proof. unfold gate. calm. Qed.

Lemma still_purge_gate i row w g : still (purge_gate sha256_hex error_text clock i row w g).
Proof. unfold purge_gate. calm. Qed.
#[local] Hint Resolve still_fresh still_gate still_purge_gate : calm.

Lemma mute_mark_deleted now ids : mute (mark_deleted now ids).
Proof. induction ids as [|i ids IH]; cbn [mark_deleted]; calm. by apply mute_modify. Qed.
#[local] Hint Resolve mute_mark_deleted : calm.

Lemma calm_purge_held i actor reasons : calm (purge_held clock others files_others i actor reasons).
Proof. unfold purge_held, record_purge_hold. calm. Qed.

Lemma mute_grace_override actor g o : mute (record_grace_override clock uuid actor g o).
Proof. unfold record_grace_override. calm. Qed.

Lemma still_preflight i row :
  still (preflight sha256_hex json_loads cwd landing_config tombstone_config device i row).
Proof. unfold preflight. calm. Qed.

Lemma still_precheck i row :
  still (precheck_paths sha256_hex json_loads cwd landing_config tombstone_config device i row).
Proof.
  intros s Hs. pose proof (still_preflight i row s Hs) as H. unfold precheck_paths.
  by destruct (preflight _ _ _ _ _ _ i row s) as [s1 [ps|[]]].
Qed.
End steps.
#[local] Hint Resolve still_utcnow still_uuid calm_commit calm_rollback calm_begin mute_add_event mute_add_once
  still_require_text still_items still_execute_one still_execute still_collect still_fresh still_gate
  still_purge_gate mute_mark_deleted calm_purge_held mute_grace_override still_preflight still_precheck : calm.

(** ** A run on one intake *)

Section one_intake.
Context (id : string).
Local Abbreviation keep := (eq id).
Hypothesis stable : untouched keep.

(** *** The witness answers of a run *)

Section answers.
(** The session the run starts with, and the answers it is given *)
Context (start : Sess) (answers : option WitnessAnswers).

(** The run asked for [e] itself, before its outside event [hi] and after the effects [h]: the copy is a
    row of a database the run had worked on, an ineligible answer means that the backend of the copy
    cannot testify there, and a confirmation is what the backend answered. *)
Definition asked (hi : nat) (h : list Effect) (i : Z) (e : WitnessEvidence) : Prop :=
  ∃ d c n, (d = s_work start ∨ Began d ∈ h) ∧ t_rows (copies (cat d)) !! i = Some c ∧
    (s_tick start ≤ n < hi)%nat ∧ we_observed_at e = clock n ∧
    (we_eligible e = false → ∃ b, backends (cat d) !! cp_backend_id c = Some b ∧
                                  backend_declares_retention_witness b = Some false) ∧
    ∀ r, we_result e = Some r → wr_confirmed r = true →
      ∃ m, (s_tick start ≤ m < n)%nat ∧ witness_copy m (i, c) = Some r.

(** Answers a run may act on: every one is asked by the run, or given to it and not stale when the run
    looked. *)
Definition obtained (hi : nat) (h : list Effect) (w : WitnessAnswers) : Prop := ∀ i e, w !! i = Some e →
  asked hi h i e ∨
  ∃ w0 n, answers = Some w0 ∧ w0 !! i = Some e ∧ (s_tick start ≤ n < hi)%nat ∧
    witness_answers_stale w0 (clock n) = false.

Definition had (s : Sess) (w : WitnessAnswers) : Prop :=
  ∃ h, s_trace s = s_trace start ++ h ∧ obtained (s_tick s) h w.

(** The session works on the database the run was called with or began a transaction on. *)
Definition begun (s : Sess) (d : Database) : Prop :=
  ∃ h, s_trace s = s_trace start ++ h ∧ (d = s_work start ∨ Began d ∈ h).

Lemma asked_mono hi hi' h h' i e : (hi ≤ hi')%nat → h `prefix_of` h' → asked hi h i e → asked hi' h' i e.
Proof.
  intros Hhi [x ->] (d & c & n & Hd & H). exists d, c, n. split; [|naive_solver lia].
  rewrite elem_of_app. naive_solver.
Qed.

Lemma obtained_mono hi hi' h h' w : (hi ≤ hi')%nat → h `prefix_of` h' → obtained hi h w → obtained hi' h' w.
Proof.
  intros Hhi Hh H i e [Ha|(w0 & n & ? & ? & ? & ?)]%H; [left; by eapply asked_mono|right].
  exists w0, n. split_and!; try done; lia.
Qed.

Lemma later_trace {past s h} :
  s_trace past = s_trace start ++ h → s_trace past `prefix_of` s_trace s →
  ∃ h', s_trace s = s_trace start ++ h' ∧ h `prefix_of` h'.
Proof. intros Hp [x ->]. exists (h ++ x). rewrite Hp, app_assoc. split; [done|by exists x]. Qed.

Lemma had_later past s w : ready keep past s → had past w → had s w.
Proof.
  intros (_ & Ht & Hp) (h & Hh & Ho). destruct (later_trace Hh Hp) as (h' & Hh' & Hle).
  exists h'. split; [done|]. by eapply obtained_mono.
Qed.

Lemma begun_later past s d : ready keep past s → begun past d → begun s d.
Proof.
  intros (_ & _ & Hp) (h & Hh & Hd). destruct (later_trace Hh Hp) as (h' & Hh' & [x ->]).
  exists (h ++ x). split; [done|]. rewrite elem_of_app. naive_solver.
Qed.

Lemma execute_one_asked d i c h s s' e :
  (d = s_work start ∨ Began d ∈ h) → t_rows (copies (cat d)) !! i = Some c → (s_tick start ≤ s_tick s)%nat →
  execute_one clock witness_copy (witness_request backend_from_row (cat d) (i, c)) s = (s', Ok e) →
  asked (s_tick s') h i e ∧ (s_tick s ≤ s_tick s')%nat.
Proof.
  intros Hd Hc Ht. unfold execute_one, witness_request. cbn [fst snd wq_copy].
  destruct (backends (cat d) !! cp_backend_id c) as [b|] eqn:Eb;
    [destruct (backend_declares_retention_witness b) as [[]|] eqn:Er; [destruct (backend_from_row b)| |]|];
    cbn [negb wq_eligible wq_error wq_adapter wq_copy]; rewrite ?bind_run, ?utcnow_run; cbn [mret M_ret tick fst];
    rewrite ?bind_run, ?utcnow_run; cbn [mret M_ret tick fst]; intros [= <- <-]; cbn [s_tick];
    (split; [|lia]).
  3: { exists d, c, (S (s_tick s)). split_and!; try done; cbn; [lia..|]. intros r [= <-] Hr.
       exists (s_tick s). split; [lia|]. by destruct (witness_copy (s_tick s) (i, c)); [|done]. }
  all: exists d, c, (s_tick s); split_and!; try done; cbn; try lia; try naive_solver.
Qed.

Lemma execute_asked d h cs w0 s s' w :
  (d = s_work start ∨ Began d ∈ h) → (∀ ic, ic ∈ cs → t_rows (copies (cat d)) !! ic.1 = Some ic.2) →
  (s_tick start ≤ s_tick s)%nat → obtained (s_tick s) h w0 →
  execute_witness_requests clock witness_copy (witness_request backend_from_row (cat d) <$> cs) w0 s = (s', Ok w) →
  obtained (s_tick s') h w.
Proof.
  intros Hd. revert w0 s. induction cs as [|[i c] cs IH]; intros w0 s Hcs Ht Ho; cbn [fmap list_fmap execute_witness_requests].
  { by intros [= <- <-]. }
  rewrite bind_run. destruct (execute_one _ _ _ s) as [s1 [e|]] eqn:E; [|done].
  apply (execute_one_asked _ _ _ h) in E as [He Hle]; [|done|apply (Hcs (i, c)); left|done].
  replace (wq_copy (witness_request backend_from_row (cat d) (i, c))) with (i, c)
    by (unfold witness_request; by repeat case_match).
  intros Hrun. eapply IH; [| | |exact Hrun]; [intros ic Hin; apply Hcs; by right|lia|].
  intros j e'. cbn [fst]. rewrite lookup_insert. case_decide; [intros [= <-]; left; by subst|].
  intros Hj. eapply obtained_mono; [..|exact Hj]; [exact Hle|done|exact Ho].
Qed.

(** The copies asked for are rows of the database. *)
Lemma witness_copies_rows d its ic : ic ∈ witness_copies (cat d) its → t_rows (copies (cat d)) !! ic.1 = Some ic.2.
Proof.
  destruct ic as [i c]. unfold witness_copies. intros Hin%elem_of_dedup_by.
  apply list_elem_of_bind in Hin as (it & Hin & _). destruct (policy_targets _ _) as [ts|]; [|by apply not_elem_of_nil in Hin].
  apply list_elem_of_bind in Hin as (t & Hin & _). unfold qualifying_copies_for_pool in Hin.
  apply elem_of_durable_placements in Hin as [Hc _]. unfold counts_for in Hc. naive_solver.
Qed.

Lemma obtained_empty hi h : obtained hi h ∅.
Proof. intros i e. by rewrite lookup_empty. Qed.

Lemma execute_had past d its s s' w :
  begun past d → ready keep past s → (s_tick start ≤ s_tick s)%nat →
  execute_witness_requests clock witness_copy (prepare_witness_requests backend_from_row (cat d) its) ∅ s =
    (s', Ok w) → had s' w.
Proof.
  intros Hb Hs Ht Hrun. pose proof (begun_later _ _ _ Hs Hb) as (h & Hh & Hd).
  pose proof (still_execute keep past (prepare_witness_requests backend_from_row (cat d) its) ∅ s Hs) as (_ & _ & Htr).
  rewrite Hrun in Htr. exists h. split; [by rewrite <- Hh|].
  eapply execute_asked; [exact Hd|apply witness_copies_rows|exact Ht|apply obtained_empty|exact Hrun].
Qed.

(** What [fresh_witness_answers] returns, called with the answers the run was given or with ones it has. *)
Lemma fresh_had past its ws s s' w :
  begun past (s_work s) → ready keep past s → (s_tick start ≤ s_tick s)%nat →
  (ws = answers ∨ ∃ w0, ws = Some w0 ∧ had s w0) →
  fresh_witness_answers clock backend_from_row witness_copy its ws s = (s', Ok w) → had s' w.
Proof.
  intros Hb Hs Ht Hws. unfold fresh_witness_answers, collect_witness_answers. destruct ws as [w0|].
  2: { rewrite bind_run. cbn [work]. by eapply execute_had. }
  rewrite bind_run, utcnow_run. pose proof (still_tick keep past s Hs) as (Hs1 & _). cbn [fst tick] in *.
  destruct (witness_answers_stale w0 _) eqn:Estale.
  - rewrite bind_run. cbn [work s_work]. eapply (execute_had past); [done|done|cbn; lia].
  - intros [= <- <-]. pose proof (begun_later _ _ _ Hs Hb) as (h & Hh & _). destruct Hws as [<-|(w1 & [= <-] & Hw)].
    + exists h. split; [done|]. intros i e He. right. exists w0, (s_tick s). split_and!; try done; cbn; lia.
    + destruct Hw as (h' & Hh' & Ho). exists h'. split; [done|]. eapply obtained_mono; [| |exact Ho]; [cbn; lia|done].
Qed.
End answers.

(** *** Programs inside a transaction *)

Section transactions.
Context (past : Sess).
Local Abbreviation still := (still keep past).
Local Abbreviation mute := (mute keep past).
Local Abbreviation calm := (calm keep past).
Local Abbreviation ready := (ready keep past).
Local Abbreviation leaves := (leaves keep past).

(** What the intake row and the gate of a release give inside a transaction. *)
Lemma row_post d s s' row :
  ready s → s_work s = d → require_intake id s = (s', Ok row) → intakes (cat d) !! id = Some row.
Proof. intros (Hs & _) <- H. by eapply (require_fresh keep). Qed.

Lemma gate_post d i row w rh g s s' st :
  s_work s = d → gate sha256_hex error_text clock i row w rh g s = (s', Ok st) →
  ∃ now, local_gate_status sha256_hex error_text d i row w rh g now = Ok st.
Proof. intros <-. unfold gate, lift. cbn. intros [= _ H]. eauto. Qed.

Lemma commit_leaves {A} (G : list Effect → list Effect → Prop) (f : unit → M A) s :
  (∀ h l, quiet l → G h l) → (∀ h l l', quiet l → G (h ++ l) l' → G h (l ++ l')) → ready s →
  (∀ s', ready s' → s_trace s' = s_trace s ++ [Began (s_work s')] → s_tick s' = s_tick s →
     ∃ l, s_trace (f tt s').1 = s_trace s' ++ l ∧ G (s_trace s') l) →
  ∃ l, s_trace ((commit others files_others ≫= f) s).1 = s_trace s ++ l ∧ G (s_trace s) l.
Proof.
  intros H0 H1 Hs Hf. apply (leaves_past keep past); try done; [by apply calm_commit|].
  intros s' [] E Hs'. destruct (commit_run keep past stable s) as (_ & _ & Ht).
  apply Hf; [done|by rewrite E in Ht|]. by injection E as <-.
Qed.

(** A step before its point of no return: the session still works on a database the run began with. *)
Lemma still_leaves {A B} (G : list Effect → list Effect → Prop) (m : M A) (f : A → M B) s :
  (∀ h l, quiet l → G h l) → still m → ready s →
  (∀ s' a, m s = (s', Ok a) → ready s' → s_work s' = s_work s → s_trace s' = s_trace s →
     ∃ l, s_trace (f a s').1 = s_trace s' ++ l ∧ G (s_trace s') l) →
  ∃ l, s_trace ((m ≫= f) s).1 = s_trace s ++ l ∧ G (s_trace s) l.
Proof.
  intros H0 Hm Hs Hf. destruct (Hm s Hs) as (Hc & Hw & Ht). rewrite bind_run.
  destruct (m s) as [s1 [a|e]] eqn:E; cbn in *.
  - destruct (Hf s1 a eq_refl Hc Hw Ht) as (l & Hl & Hg). exists l. by rewrite Hl, <- Ht.
  - exists []. rewrite Ht, app_nil_r. split; [done|]. apply H0, quiet_nil.
Qed.

Lemma mute_leaves {A B} (G : list Effect → list Effect → Prop) (m : M A) (f : A → M B) s :
  (∀ h l, quiet l → G h l) → mute m → ready s →
  (∀ s' a, ready s' → s_trace s' = s_trace s → ∃ l, s_trace (f a s').1 = s_trace s' ++ l ∧ G (s_trace s') l) →
  ∃ l, s_trace ((m ≫= f) s).1 = s_trace s ++ l ∧ G (s_trace s) l.
Proof.
  intros H0 Hm Hs Hf. destruct (Hm s Hs) as (Hc & Ht). rewrite bind_run.
  destruct (m s) as [s1 [a|e]] eqn:E; cbn in *.
  - destruct (Hf s1 a Hc Ht) as (l & Hl & Hg). exists l. by rewrite Hl, <- Ht.
  - exists []. rewrite Ht, app_nil_r. split; [done|]. apply H0, quiet_nil.
Qed.
End transactions.

(** A session with a current row has passed itself. *)
Lemma ready_now s : coherent keep s → ready keep s s.
Proof. intros Hs. by split_and!. Qed.

Lemma ready_self past s : ready keep past s → ready keep s s.
Proof. intros (Hs & _). by apply ready_now. Qed.

Lemma ready_trans s0 s1 s2 : ready keep s0 s1 → ready keep s1 s2 → ready keep s0 s2.
Proof. intros (_ & ? & ?) (? & ? & ?). split_and!; [done|lia|by etrans]. Qed.

Lemma begun_start start : begun start start (s_work start).
Proof. exists []. rewrite app_nil_r. split; [done|by left]. Qed.

Lemma begun_work start s s' : begun start s (s_work s) → s_work s' = s_work s → s_trace s' = s_trace s →
  begun start s' (s_work s').
Proof. intros (h & Hh & Hd) Hw Ht. exists h. by rewrite Ht, Hw. Qed.

Lemma begun_commit start s s' : ready keep start s → s_trace s' = s_trace s ++ [Began (s_work s')] →
  begun start s' (s_work s').
Proof.
  intros (_ & _ & [h Hh]) Ht. exists (h ++ [Began (s_work s')]). rewrite Ht, Hh, app_assoc. split; [done|].
  right. apply elem_of_app. right. left.
Qed.

(** *** Traces, step by step *)

(** Every effect of [l] is one that [P] allows after the effects before it. *)
Fixpoint stepwise (P : list Effect → Effect → Prop) (h l : list Effect) : Prop :=
  match l with
  | [] => True
  | e :: l => P h e ∧ stepwise P (h ++ [e]) l
  end.

Section stepwise.
Context (P : list Effect → Effect → Prop).
Hypothesis P_began : ∀ h d, P h (Began d).

Lemma stepwise_quiet h l : quiet l → stepwise P h l.
Proof.
  intros Hq. revert h. induction Hq as [|e l [d ->] _ IH]; intros h; [done|]. split; [apply P_began|apply IH].
Qed.

Lemma stepwise_app h l l' : stepwise P h l → stepwise P (h ++ l) l' → stepwise P h (l ++ l').
Proof.
  revert h. induction l as [|e l IH]; intros h; cbn; [by rewrite app_nil_r|].
  intros [He Hl] Hl'. split; [done|]. apply IH; [done|]. by rewrite <- app_assoc.
Qed.

Lemma stepwise_quiet_app h l l' : quiet l → stepwise P (h ++ l) l' → stepwise P h (l ++ l').
Proof. intros Hq. apply stepwise_app. by apply stepwise_quiet. Qed.

Lemma stepwise_at h l1 e l2 : stepwise P h (l1 ++ e :: l2) → P (h ++ l1) e.
Proof.
  revert h. induction l1 as [|x l1 IH]; intros h; cbn; [intros [? _]; by rewrite app_nil_r|].
  intros [_ H]. apply IH in H. by rewrite <- app_assoc in H.
Qed.

End stepwise.

(** *** The course of a run before its point of no return *)

Section course.
Context (start : Sess) (answers : option WitnessAnswers) (P : list Effect → Effect → Prop).
Hypothesis P_began : ∀ h d, P h (Began d).

Definition leaving {A} (m : M A) (s : Sess) : Prop :=
  ∃ l, s_trace (m s).1 = s_trace s ++ l ∧ stepwise P (s_trace s) l.

(** The intake's row is current, and the database is one the run was called with or began on. *)
Definition on_course (s : Sess) : Prop := ready keep start s ∧ begun start s (s_work s).

Lemma course_start : coherent keep start → on_course start.
Proof. intros Hs. split; [by apply ready_now|apply begun_start]. Qed.

Lemma course_calm {A} past (m : M A) s : calm keep past m → ready keep past s → leaving m s.
Proof.
  intros Hm Hs. destruct (Hm s Hs) as (_ & l & Hl & Hq). exists l. split; [done|]. by apply stepwise_quiet.
Qed.

Lemma course_still {A B} (m : M A) (f : A → M B) s :
  (∀ past, still keep past m) → on_course s →
  (∀ s' a, m s = (s', Ok a) → on_course s' → ready keep s s' → s_work s' = s_work s →
     s_trace s' = s_trace s → leaving (f a) s') →
  leaving (m ≫= f) s.
Proof.
  intros Hm [Hs Hb] Hf. apply (still_leaves start); [by apply stepwise_quiet|done|done|].
  intros s' a E Hs' Hw Ht. apply Hf; try done; [split; [done|by eapply begun_work]|].
  destruct (Hm s s (ready_self _ _ Hs)) as [H _]. by rewrite E in H.
Qed.

(** Such a step keeps the answers the run has. *)
Lemma course_keep {A B} w (m : M A) (f : A → M B) s :
  (∀ past, still keep past m) → on_course s → had start answers s w →
  (∀ s' a, on_course s' → had start answers s' w → leaving (f a) s') → leaving (m ≫= f) s.
Proof.
  intros Hm Hs Hw Hf. apply course_still; [done|done|]. intros s' a _ Hs' Hss _ _.
  apply Hf; [done|by eapply had_later].
Qed.

Lemma course_commit {A} (f : unit → M A) s :
  on_course s →
  (∀ s', on_course s' → ready keep s s' → s_trace s' = s_trace s ++ [Began (s_work s')] → s_tick s' = s_tick s →
     leaving (f tt) s') →
  leaving (commit others files_others ≫= f) s.
Proof.
  intros [Hs _] Hf. apply (commit_leaves s); [by apply stepwise_quiet|by apply stepwise_quiet_app|by eapply ready_self|].
  intros s' Hs' Ht Hk. apply Hf; [|done|done|done]. split; [|by eapply begun_commit].
  by eapply ready_trans.
Qed.

Lemma course_fresh {A} its ws (f : WitnessAnswers → M A) s :
  on_course s → (ws = answers ∨ ∃ w, ws = Some w ∧ had start answers s w) →
  (∀ s' w, on_course s' → had start answers s' w → leaving (f w) s') →
  leaving (fresh_witness_answers clock backend_from_row witness_copy its ws ≫= f) s.
Proof.
  intros Hs Hws Hf. apply course_still; [auto with calm|done|]. intros s' w E Hs' _ _ _. apply Hf; [done|].
  destruct Hs as [Hs Hb]. by eapply (fresh_had start answers s); [exact Hb|by eapply ready_self|apply Hs|done|exact E].
Qed.
End course.

(** ** Release *)

Section release.
Context (start : Sess) (answers : option WitnessAnswers).

(** The database [d], begun after the effects [h1], in which a release with the answers [w] is allowed. *)
Definition release_allowed (d : Database) (w : WitnessAnswers) : Prop :=
  ∃ row, intakes (cat d) !! id = Some row ∧ in_retention_state row = HELD ∧ intake_cleared d id row w.

(** An effect of a release, given the trace before it: an object is deleted only after a transaction in
    which the gate passed, and it belongs to a copy of the intake's own cloud bundle. *)
Definition release_step (h : list Effect) (e : Effect) : Prop :=
  match e with
  | Began _ => True
  | ObjectDeletion n ic =>
      ∃ h1 d h2 w, h = s_trace start ++ h1 ++ Began d :: h2 ∧ release_allowed d w ∧
        obtained start answers n h1 w ∧ ic ∈ cloud_blob_copies (cat d) id
  | Tombstoning _ _ _ _ | TreeRemoval _ _ => False
  end.

Lemma release_began h d : release_step h (Began d).
Proof. done. Qed.

Local Abbreviation release_trace := (stepwise release_step).

(** The deletions, once allowed *)
Lemma delete_copies_trace past cs s :
  ready keep past s →
  (∀ h n ic, s_trace s `prefix_of` h → (s_tick s ≤ n)%nat → ic ∈ cs → release_step h (ObjectDeletion n ic)) →
  let s' := (delete_copies delete_object cs s).1 in
  ready keep past s' ∧ ∃ l, s_trace s' = s_trace s ++ l ∧ release_trace (s_trace s) l.
Proof.
  revert s. induction cs as [|ic cs IH]; intros s Hs Hok.
  { split; [done|]. exists []. split; [by rewrite app_nil_r|done]. }
  cbn zeta. cbn [delete_copies]. rewrite bind_run.
  set (s1 := (emit (ObjectDeletion (s_tick s) ic) (tick s).1).1).
  assert (Hrun : delete_copy_object delete_object ic s =
    (s1, match delete_object (s_tick s) ic with
         | Deleted => Ok true
         | AlreadyAbsent => Ok false
         | DeleteUnsupported => Err (RetentionError "backend does not support delete_object")
         | DeleteRaised => Err (OtherException "delete_object")
         end)).
  { unfold delete_copy_object. rewrite bind_run. cbn [tick]. rewrite bind_run. cbn [emit].
    by destruct (delete_object (s_tick s) ic). }
  assert (Hs1 : ready keep past s1).
  { destruct Hs as (? & ? & ?). split_and!; [done|cbn; lia|by apply prefix_app_r]. }
  assert (Hstep : release_step (s_trace s) (ObjectDeletion (s_tick s) ic)) by (apply Hok; [done|done|left]).
  assert (Hstop : ready keep past s1 ∧ ∃ l, s_trace s1 = s_trace s ++ l ∧ release_trace (s_trace s) l).
  { split; [done|]. by exists [ObjectDeletion (s_tick s) ic]. }
  assert (Hgo : let s' := (delete_copies delete_object cs s1).1 in
    ready keep past s' ∧ ∃ l, s_trace s' = s_trace s ++ l ∧ release_trace (s_trace s) l).
  { destruct (IH s1 Hs1) as [Hc (l & Ht & Hl)].
    { intros h n ic' Hh Hn Hic. apply Hok; [|cbn in Hn; lia|by right]. etrans; [|exact Hh]. by apply prefix_app_r. }
    split; [done|]. exists (ObjectDeletion (s_tick s) ic :: l). split; [rewrite Ht; cbn; by rewrite <- app_assoc|].
    by split. }
  rewrite Hrun. destruct (delete_object (s_tick s) ic); [| |done|done];
    rewrite bind_run; revert Hgo; destruct (delete_copies delete_object cs s1) as [s2 [o|e]]; done.
Qed.

Lemma release_step_later d w past h1 h2 h n ic :
  release_allowed d w → obtained start answers (s_tick past) h1 w → (s_tick past ≤ n)%nat →
  ic ∈ cloud_blob_copies (cat d) id → s_trace start ++ h1 ++ Began d :: h2 `prefix_of` h →
  release_step h (ObjectDeletion n ic).
Proof.
  intros Ha Ho Hn Hic [x ->]. exists h1, d, (h2 ++ x), w. split_and!; [by rewrite <- !app_assoc|done| |done].
  by eapply obtained_mono; [exact Hn| |exact Ho].
Qed.

(** After the deletions nothing irreversible is left to do. *)
Lemma leaves_deletions {A} past d w h1 h2 (f : list (Z * bool) → M A) s :
  release_allowed d w → obtained start answers (s_tick past) h1 w →
  s_trace s = s_trace start ++ h1 ++ Began d :: h2 → ready keep past s → (∀ o, calm keep past (f o)) →
  ∃ l, s_trace ((commit others files_others ≫= λ _,
                   delete_copies delete_object (cloud_blob_copies (cat d) id) ≫= f) s).1 = s_trace s ++ l ∧
       release_trace (s_trace s) l.
Proof.
  intros Ha Ho Ht Hs Hf. apply (commit_leaves past); [|by apply stepwise_quiet_app|done|].
  { intros h l. by apply stepwise_quiet. }
  intros s1 Hs1 Ht1 _. rewrite bind_run.
  destruct (delete_copies_trace past (cloud_blob_copies (cat d) id) s1 Hs1) as [Hc2 (l & Ht2 & Hl)].
  { intros h n ic Hh Hn Hic. eapply (release_step_later d w past h1 (h2 ++ [Began (s_work s1)])); try done.
    - destruct Hs1 as (_ & Hle & _). lia.
    - rewrite Ht1, Ht, <- !app_assoc in Hh. exact Hh. }
  destruct (delete_copies delete_object _ s1) as [s2 [o|e]]; cbn [fst] in Hc2, Ht2; [|by exists l].
  destruct (Hf o s2 Hc2) as (_ & l' & Hl' & Hq). exists (l ++ l'). split; [by rewrite Hl', Ht2, app_assoc|].
  apply stepwise_app; [done|]. by apply stepwise_quiet.
Qed.

Local Abbreviation release := (run_retention sha256_hex error_text clock others files_others backend_from_row
  witness_copy delete_object).

Local Abbreviation leaving := (leaving release_step).
Local Abbreviation on_course := (on_course start).

(** From the reservation on: the gate passes in a transaction of its own, and the objects go. *)
Lemma reserved_leaves {A} w (f : Database → string → list (Z * bool) → M A) (g : IntakeGateStatus → M A) actor s :
  on_course s → had start answers s w → (∀ past d fp o, calm keep past (f d fp o)) →
  (∀ past st, calm keep past (g st)) →
  leaving (_ ← begin_immediate others files_others;
           row ← require_intake id;
           reserved ← gate sha256_hex error_text clock id row w true DEFAULT_STAGING_GRACE_DAYS;
           if negb (ig_releasable reserved) then g reserved
           else
             d ← work;
             fp ← lift (policy_fingerprint sha256_hex (cat d) (intake_items (cat d) id));
             _ ← add_once_event clock id "release_attempted" ("release:" +:+ id) actor None
                   [("policy_fingerprint", JStr fp)];
             _ ← commit others files_others;
             o ← delete_copies delete_object (cloud_blob_copies (cat d) id);
             f d fp o) s.
Proof.
  intros Hs (h1 & Hh1 & Ho) Hf Hg. apply (course_commit start release_step release_began); [done|].
  intros s1 Hs1 Hs01 Ht1 _. apply (course_still start release_step release_began); [auto with calm|done|].
  intros s2 row Erow Hs2 Hs12 Hw2 Ht2. apply (course_still start release_step release_began); [auto with calm|done|].
  intros s3 st Est Hs3 Hs23 Hw3 Ht3. case_bool.
  { apply (course_calm release_step release_began s3); [apply Hg|by eapply ready_self, Hs3]. }
  apply (gate_post (s_work s3)) in Est as (now & Hst); [|done]. apply gate_spec in Hst as [Hholds Hrel].
  apply negb_false_iff in Hb. rewrite Hrel in Hb. cbn in Hb. split_bools.
  assert (Ha : release_allowed (s_work s3) w).
  { exists row. split_and!; [|done|by apply Hholds]. rewrite Hw3, Hw2. eapply row_post; [apply Hs1|done|exact Erow]. }
  assert (Hlater : ready keep s s3).
  { eapply ready_trans; [exact Hs01|]. by eapply ready_trans. }
  assert (Htr : s_trace s3 = s_trace start ++ h1 ++ Began (s_work s3) :: []).
  { by rewrite Hw3, Hw2, Ht3, Ht2, Ht1, Hh1, <- app_assoc. }
  unfold leaving. rewrite bind_run. cbn [work]. revert Ha Htr. generalize (s_work s3). intros d Ha Htr.
  apply (still_leaves s); [by apply stepwise_quiet|auto with calm|done|].
  intros s4 fp _ Hs4 _ Ht4. apply (mute_leaves s); [by apply stepwise_quiet|auto with calm|done|].
  intros s5 [] Hs5 Ht5. apply (leaves_deletions s d w h1 [] (f d fp)); [done|done|by rewrite Ht5, Ht4|done|apply Hf].
Qed.

Lemma release_leaves actor : coherent keep start → leaving (release id actor answers) start.
Proof.
  intros Hco. pose proof (course_start start Hco) as Hs. unfold run_retention.
  pose proof release_began as Hb.
  apply (course_still start _ Hb); [auto with calm|done|]. intros s1 [] _ Hs1 _ _ _.
  apply (course_still start _ Hb); [auto with calm|done|]. intros s2 row _ Hs2 _ _ _.
  case_decide; [apply (course_calm _ Hb start); [calm|apply Hs2]|].
  apply (course_still start _ Hb); [auto with calm|done|]. intros s3 its _ Hs3 _ _ _.
  apply (course_fresh start answers _ Hb); [done|by left|]. intros s4 w Hs4 Hw4.
  apply (course_keep start answers _ Hb w); [auto with calm|done..|]. intros s5 st Hs5 Hw5.
  case_bool; [apply (course_calm _ Hb start); [calm|apply Hs5]|].
  apply (course_commit start _ Hb); [done|]. intros s6 Hs6 Hs56 _ _. pose proof (had_later _ _ _ _ _ Hs56 Hw5) as Hw6.
  apply (course_keep start answers _ Hb w); [auto with calm|done..|]. intros s7 row' Hs7 Hw7.
  apply (course_keep start answers _ Hb w); [auto with calm|done..|]. intros s8 its' Hs8 Hw8.
  apply (course_fresh start answers _ Hb); [done|right; by exists w|]. intros s9 w' Hs9 Hw9.
  eapply (reserved_leaves w' (λ d fp o, _) (λ st, _)); [done|done|intros; calm|intros; calm].
Qed.
End release.

(** ** Purge *)

Local Abbreviation staging_ok := (own_staging sha256_hex json_loads cwd landing_config).
Local Abbreviation tombstone_ok := (own_tombstone sha256_hex json_loads cwd landing_config tombstone_config).

(** What the rename may be applied to: the intake's own staging tree, or nothing when the tombstone of
    an interrupted run is already there. *)
Definition may_tombstone (fs : Fs) (source destination : path) (row : Intake) : Prop :=
  (path_exists fs source = false ∧ ∃ t, resolve fs true destination = Ok t ∧ tombstone_ok fs t id) ∨
  ∃ s, resolve fs false source = Ok s ∧ staging_ok fs s id row.

(** The database in which a purge with the answers [w] is allowed, by a gate that reads the clock as
    outside event [a]; the staleness of the answers is looked at two readings later, last of all. *)
Definition purge_allowed (a : nat) (d : Database) (row : Intake) (w : WitnessAnswers) (grace_days : Z) : Prop :=
  intakes (cat d) !! id = Some row ∧ in_retention_state row = RELEASED ∧ intake_cleared d id row w ∧
  (∃ t, in_released_at row = Some t ∧ t + days grace_days < clock a) ∧
  (∃ f, in_release_policy_fingerprint row = Some f ∧
     policy_fingerprint sha256_hex (cat d) (intake_items (cat d) id) = Ok f) ∧
  witness_answers_stale w (clock (a + 2)) = false.

Section purge.
Context (start : Sess) (answers : option WitnessAnswers) (grace_days : Z).

(** An effect of a purge, given the trace before it. *)
Definition purge_step (h : list Effect) (e : Effect) : Prop :=
  match e with
  | Began _ => True
  | ObjectDeletion _ _ => False
  | Tombstoning n fs source destination =>
      ∃ h1 d row w a, h = s_trace start ++ h1 ++ [Began d] ∧ n = (a + 3)%nat ∧ purge_allowed a d row w grace_days ∧
        obtained start answers a h1 w ∧ may_tombstone fs source destination row
  | TreeRemoval fs p => ∃ t, resolve fs true p = Ok t ∧ tombstone_ok fs t id
  end.

Lemma purge_began h d : purge_step h (Began d).
Proof. done. Qed.

Local Abbreviation purge_trace := (stepwise purge_step).
Local Abbreviation leaving := (leaving purge_step).
Local Abbreviation on_course := (on_course start).
Local Abbreviation quietly := (stepwise_quiet purge_step purge_began).
Local Abbreviation quietly_app := (stepwise_quiet_app purge_step purge_began).

Local Abbreviation gc := (resume_tombstone_gc sha256_hex json_loads cwd landing_config tombstone_config clock others
  files_others rmtree).

Lemma gc_leaves past row actor : leaves keep past purge_trace (gc id row actor).
Proof.
  unfold resume_tombstone_gc. destruct (in_staging_tombstone_path row) as [recorded|].
  2: { apply calm_leaves; [exact quietly|auto with calm]. }
  intros s Hs. rewrite bind_run. cbn [files]. rewrite bind_run. unfold lift at 1.
  destruct (validate_tombstone_path _ _ _ _ _ _ _ _) as [[]|e] eqn:Ev.
  2: { exists []. split; [by rewrite app_nil_r|done]. }
  apply validate_tombstone_sound in Ev as (t & Ht & Hown).
  rewrite bind_run. cbn [tick]. rewrite bind_run. cbn [emit].
  set (p := absolute cwd recorded) in *.
  match goal with |- context [s_trace (?m ?s0).1] => set (s1 := s0); assert (Hcalm : calm keep past m) end.
  { destruct (delete_path_idempotent _ _ p) as [fs' r]. unfold finish_gc. calm. }
  assert (Hs1 : ready keep past s1).
  { destruct Hs as (? & ? & ?). split_and!; [done|cbn; lia|by apply prefix_app_r]. }
  destruct (Hcalm s1 Hs1) as (_ & l & Hl & Hq). exists (TreeRemoval (s_fs s) p :: l). split.
  - rewrite Hl. cbn. by rewrite <- app_assoc.
  - split; [by exists t|]. by apply quietly.
Qed.

Local Abbreviation check_paths := (preflight sha256_hex json_loads cwd landing_config tombstone_config device).

Lemma preflight_post row s s' source destination :
  check_paths id row s = (s', Ok (source, destination)) →
  may_tombstone (s_fs s') source destination row ∧ s_tick s' = s_tick s.
Proof.
  unfold preflight. rewrite bind_run. cbn [files]. rewrite bind_run. unfold items_of. rewrite bind_run.
  cbn [work mret M_ret]. rewrite bind_run. unfold lift.
  destruct (preflight_staging_paths _ _ _ _ _ _ _ _ _ _) as [[[fs' a] b]|] eqn:E; [|done].
  intros [= <- <- <-]. split; [|done]. cbn. by apply preflight_sound in E.
Qed.

Lemma purge_gate_post row w s s' holds :
  purge_gate sha256_hex error_text clock id row w grace_days s = (s', Ok holds) →
  purge_holds sha256_hex error_text (s_work s) id row w grace_days (clock (s_tick s)) (clock (S (s_tick s))) = Ok holds ∧
  s_tick s' = S (S (s_tick s)).
Proof. unfold purge_gate, lift. cbn. by intros [= <- H]. Qed.

Local Abbreviation commitment := (purge_commitment sha256_hex error_text json_loads cwd landing_config tombstone_config
  device clock others files_others backend_from_row witness_copy rmtree).

(** The rename and what follows it, on a session whose gate and guards passed. *)
Lemma rename_leaves past h1 d row w a actor source destination s :
  ready keep past s → s_tick s = (a + 3)%nat → s_trace s = s_trace start ++ h1 ++ [Began d] →
  purge_allowed a d row w grace_days → obtained start answers a h1 w →
  may_tombstone (s_fs s) source destination row →
  leaving (fs ← files;
        at_ ← moment;
        _ ← emit (Tombstoning at_ fs source destination);
        let '(fs', renamed) := atomic_tombstone json_loads fs source destination id in
        _ ← put_files fs';
        _ ← lift renamed;
        now ← utcnow clock;
        _ ← update_intake id (set_tombstoned now (path_text destination));
        _ ← add_once_event clock id "staging_tombstoned" ("purge:" +:+ id) actor (Some now)
              [("source_path", JStr (path_text source)); ("tombstone_path", JStr (path_text destination))];
        _ ← commit others files_others;
        row ← require_intake id;
        gc id row actor) s.
Proof.
  intros Hs Hn Htr Hall Hob Hmay. unfold leaving. rewrite bind_run. cbn [files]. rewrite bind_run. cbn [moment].
  rewrite bind_run. cbn [emit].
  match goal with |- context [s_trace (?m ?s0).1] => set (s1 := s0); assert (Hleave : leaves keep past purge_trace m) end.
  { destruct (atomic_tombstone _ _ _ _) as [fs' renamed].
    do 7 (apply leaves_bind; [exact quietly|exact quietly_app|solve [auto with calm]|intros ?]). apply gc_leaves. }
  assert (Hs1 : ready keep past s1).
  { destruct Hs as (? & ? & ?). split_and!; [done|done|by apply prefix_app_r]. }
  destruct (Hleave s1 Hs1) as (l & Hl & Hg).
  exists (Tombstoning (s_tick s) (s_fs s) source destination :: l).
  split; [rewrite Hl; cbn; by rewrite <- app_assoc|]. split; [|exact Hg]. by exists h1, d, row, w, a.
Qed.

(** A session whose gate passed in the transaction on [s_work s], with the clock of event [a] *)
Definition gated (s : Sess) (row : Intake) (w : WitnessAnswers) (a : nat) : Prop :=
  intakes (cat (s_work s)) !! id = Some row ∧ in_retention_state row = RELEASED ∧
  intake_cleared (s_work s) id row w ∧
  (∃ t, in_released_at row = Some t ∧ t + days grace_days < clock a) ∧
  (∃ f, in_release_policy_fingerprint row = Some f ∧
     policy_fingerprint sha256_hex (cat (s_work s)) (intake_items (cat (s_work s)) id) = Ok f) ∧
  s_tick s = (a + 2)%nat.

(** The head of the commitment loop: a transaction, its gate and its path guards. *)
Lemma commitment_head {A} w (f : Intake → path * path → M A) (g : list string → M A) s :
  on_course s → had start answers s w → (∀ past holds, calm keep past (g holds)) →
  (∀ row ps s' h1, on_course s' → s_trace s = s_trace start ++ h1 → obtained start answers (s_tick s) h1 w →
     s_trace s' = s_trace s ++ [Began (s_work s')] → gated s' row w (s_tick s) →
     may_tombstone (s_fs s') ps.1 ps.2 row → leaving (f row ps) s') →
  leaving (_ ← begin_immediate others files_others;
           row ← require_intake id;
           holds ← purge_gate sha256_hex error_text clock id row w grace_days;
           match holds with
           | _ :: _ => g holds
           | [] => ps ← check_paths id row; f row ps
           end) s.
Proof.
  intros Hs (h1 & Hh1 & Ho) Hg Hf. pose proof purge_began as Hb.
  apply (course_commit start _ Hb); [done|]. intros s1 Hs1 Hs01 Ht1 Hk1.
  apply (course_still start _ Hb); [auto with calm|done|]. intros s2 row Erow Hs2 _ Hw2 Ht2.
  assert (Hrow : intakes (cat (s_work s1)) !! id = Some row) by (eapply row_post; [apply Hs1|done|exact Erow]).
  apply require_intake_run in Erow as (_ & Hs2' & _). assert (Hk2 : s_tick s2 = s_tick s1) by (by rewrite Hs2'). clear Hs2'.
  apply (course_still start _ Hb); [auto with calm|done|]. intros s3 holds Eg Hs3 _ Hw3 Ht3.
  destruct holds as [|h hs]; [|apply (course_calm _ Hb s3); [apply Hg|by eapply ready_self, Hs3]].
  apply purge_gate_post in Eg as [Hholds Hk3]. apply purge_holds_nil in Hholds as (Hst & Hcl & Hgr & Hfp).
  apply (course_still start _ Hb); [auto with calm|done|]. intros s4 [a b] Ep Hs4 _ Hw4 Ht4.
  apply preflight_post in Ep as [Hmay Hk4].
  apply (Hf row (a, b) s4 h1); [done|done|done|congruence| |done].
  unfold gated. rewrite Hw4, Hw3, Hw2. rewrite Hw2, Hk2, Hk1 in *. split_and!; try done; lia.
Qed.

Lemma commitment_leaves refreshes actor w s :
  on_course s → had start answers s w → leaving (commitment refreshes id actor grace_days w) s.
Proof.
  pose proof purge_began as Hb.
  revert w s. induction refreshes as [|n IH]; intros w s Hs Hw; cbn [purge_commitment].
  all: apply (commitment_head w _ (λ holds, purge_held clock others files_others id actor holds));
    [done|done|auto with calm|].
  all: intros row [source destination] s1 h1 Hs1 Hh1 Ho Ht1 (Hrow & Hst & Hcl & Hgr & Hfp & Hk) Hmay.
  all: apply (course_still start _ Hb); [auto with calm|done|]; intros s2 now En Hs2 Hs12 Hw2 Ht2.
  all: assert (now = clock (s_tick s + 2) ∧ s_tick s2 = (s_tick s + 3)%nat ∧ s_fs s2 = s_fs s1) as (-> & Hk2 & Hf2)
    by (injection En as <- <-; rewrite Hk; split_and!; [done|cbn; lia|done]); clear En.
  all: destruct (witness_answers_stale w _) eqn:Estale.
  2, 4: apply (rename_leaves start h1 (s_work s1) row w (s_tick s)); try done;
    [apply Hs2|by rewrite Ht2, Ht1, Hh1, <- app_assoc|by rewrite Hf2].
  1: apply (course_calm _ Hb start); [calm|apply Hs2].
  unfold leaving. rewrite bind_run. cbn [work].
  apply (leaves_past keep start); [exact quietly|exact quietly_app|auto with calm|apply Hs2|].
  intros s3 [] Er Hs3. assert (Hrb : begun start s3 (s_work s3)).
  { apply (begun_commit start s2); [apply Hs2|]. by injection Er as <-. }
  assert (Hd : begun start s3 (s_work s2)).
  { destruct (proj2 Hs2) as (h & Hh & Hd). exists (h ++ [Began (s_work s3)]). rewrite elem_of_app.
    split; [|naive_solver]. injection Er as <-. cbn. by rewrite Hh, <- app_assoc. }
  apply (course_still start _ Hb); [auto with calm|done|]. intros s4 w' Ew Hs4 _ _ _.
  apply IH; [done|]. by eapply (execute_had start answers s3); [exact Hd|by eapply ready_self|apply Hs3|exact Ew].
Qed.

Local Abbreviation sweep := (sweep_staging sha256_hex error_text json_loads cwd landing_config tombstone_config
  device clock uuid others files_others backend_from_row witness_copy rmtree).


(** The purge proper, from the witnesses to the commitment *)
Lemma attempt_leaves actor row s :
  on_course s →
  leaving (its ← items_of id;
           witnesses ← fresh_witness_answers clock backend_from_row witness_copy its answers;
           holds ← purge_gate sha256_hex error_text clock id row witnesses grace_days;
           '(paths, path_holds) ← precheck_paths sha256_hex json_loads cwd landing_config tombstone_config device id row;
           match holds ++ path_holds, paths with
           | _ :: _, _ => purge_held clock others files_others id actor (holds ++ path_holds)
           | [], None => raise (OtherException "purge precheck passed without resolved paths")
           | [], Some (staging, _) =>
               _ ← commit others files_others;
               _ ← require_intake id;
               its ← items_of id;
               witnesses ← fresh_witness_answers clock backend_from_row witness_copy its (Some witnesses);
               _ ← begin_immediate others files_others;
               row ← require_intake id;
               holds ← purge_gate sha256_hex error_text clock id row witnesses grace_days;
               match holds with
               | _ :: _ => purge_held clock others files_others id actor holds
               | [] =>
                   _ ← add_once_event clock id "purge_attempted" ("purge:" +:+ id) actor None
                         [("path", JStr (path_text staging)); ("grace_days", JInt grace_days)];
                   _ ← commit others files_others;
                   commitment 1 id actor grace_days witnesses
               end
           end) s.
Proof.
  intros Hs. pose proof purge_began as Hb.
  apply (course_still start _ Hb); [auto with calm|done|]. intros s1 its _ Hs1 _ _ _.
  apply (course_fresh start answers _ Hb); [done|by left|]. intros s2 w Hs2 Hw2.
  apply (course_keep start answers _ Hb w); [auto with calm|done..|]. intros s3 holds Hs3 Hw3.
  apply (course_keep start answers _ Hb w); [auto with calm|done..|]. intros s4 [paths path_holds] Hs4 Hw4.
  destruct (holds ++ path_holds); [|apply (course_calm _ Hb start); [auto with calm|apply Hs4]].
  destruct paths as [[staging tombstone]|]; [|apply (course_calm _ Hb start); [auto with calm|apply Hs4]].
  apply (course_commit start _ Hb); [done|]. intros s5 Hs5 Hs45 _ _. pose proof (had_later _ _ _ _ _ Hs45 Hw4) as Hw5.
  apply (course_keep start answers _ Hb w); [auto with calm|done..|]. intros s6 row' Hs6 Hw6.
  apply (course_keep start answers _ Hb w); [auto with calm|done..|]. intros s7 its' Hs7 Hw7.
  apply (course_fresh start answers _ Hb); [done|right; by exists w|]. intros s8 w' Hs8 Hw8.
  apply (course_commit start _ Hb); [done|]. intros s9 Hs9 Hs89 _ _. pose proof (had_later _ _ _ _ _ Hs89 Hw8) as Hw9.
  apply (course_keep start answers _ Hb w'); [auto with calm|done..|]. intros s10 row2 Hs10 Hw10.
  apply (course_keep start answers _ Hb w'); [auto with calm|done..|]. intros s11 holds' Hs11 Hw11.
  destruct holds'; [|apply (course_calm _ Hb start); [auto with calm|apply Hs11]].
  apply (mute_leaves s11); [exact quietly|auto with calm|by eapply ready_self, Hs11|]. intros s12 [] Hs12 Ht12.
  pose proof (had_later _ _ _ _ _ Hs12 Hw11) as Hw12. pose proof (ready_trans _ _ _ (proj1 Hs11) Hs12) as Hs12s.
  apply (leaves_past keep s12); [exact quietly|exact quietly_app|auto with calm|by eapply ready_self|].
  intros s13 [] Ec Hs13. apply commitment_leaves; [|by eapply had_later].
  split; [by eapply ready_trans|apply (begun_commit start s12); [done|by injection Ec as <-]].
Qed.

Lemma sweep_leaves actor glass evented :
  coherent keep start → leaving (sweep id actor grace_days glass answers evented) start.
Proof.
  intros Hco. pose proof (course_start start Hco) as Hs. pose proof purge_began as Hb. unfold sweep_staging.
  apply (course_still start _ Hb); [auto with calm|done|]. intros s1 [] _ Hs1 _ _ _.
  apply (course_still start _ Hb); [auto with calm|done|]. intros s2 row _ Hs2 _ _ _.
  assert (Hcalm : ∀ A (m : M A), calm keep start m → ∀ s, on_course s → leaving m s).
  { intros A m Hm s [? _]. by apply (course_calm _ Hb start). }
  assert (Hgo : ∀ (m : M StagingSweepResult), (∀ s, on_course s → leaving m s) →
    leaving (_ ← (if (grace_days <? DEFAULT_STAGING_GRACE_DAYS) && negb evented
                  then _ ← record_grace_override clock uuid actor grace_days None; commit others files_others
                  else mret tt); m) s2).
  { intros m Hm. destruct (_ && _); [|apply (course_still start _ Hb); auto with calm].
    apply (leaves_past keep start); [exact quietly|exact quietly_app|calm|apply Hs2|]. intros s3 [] E Hs3.
    apply Hm. split; [done|]. rewrite bind_run in E.
    destruct (mute_grace_override keep start actor grace_days None s2 (proj1 Hs2)) as [Hs' _].
    destruct (record_grace_override _ _ _ _ _ s2) as [s' [[]|]]; [|done].
    apply (begun_commit start s'); [done|by injection E as <-]. }
  destruct (in_retention_state row) eqn:Est; try (refine (Hcalm _ _ _ _ Hs2); solve [auto with calm]).
  all: case_bool; [refine (Hcalm _ _ _ _ Hs2); auto with calm|]; apply Hgo; intros s3 Hs3.
  3: { apply gc_leaves with (past := start). apply Hs3. }
  1: refine (Hcalm _ _ _ _ Hs3); auto with calm.
  destruct (in_released_at row); [|refine (Hcalm _ _ _ _ Hs3); auto with calm]. by apply attempt_leaves.
Qed.
End purge.

Local Abbreviation release := (run_retention sha256_hex error_text clock others files_others backend_from_row
  witness_copy delete_object).
Local Abbreviation sweep := (sweep_staging sha256_hex error_text json_loads cwd landing_config tombstone_config
  device clock uuid others files_others backend_from_row witness_copy rmtree).

(** C4: objects are deleted only after the gate passed.  In any run of [run_retention], finished,
    refused or cut off by an exception, that starts with a current copy of the intake's row (or none)
    and during which no other process writes that row (whatever else others do): before every deletion
    of a backend object the run had begun a transaction on a database in which the intake was held and
    cleared for release by witness answers the run asked for itself before that transaction, or was
    given and found fresh; and the object belongs to a live copy of the intake's own cloud bundle in that
    database.  A release renames and removes no tree. *)
Theorem release_authorised actor answers s s' r :
  coherent keep s → release id actor answers s = (s', r) →
  ∃ l, s_trace s' = s_trace s ++ l ∧
    ∀ l1 e l2, l = l1 ++ e :: l2 →
      match e with
      | Began _ => True
      | ObjectDeletion n ic =>
          ∃ h1 d h2 row w, l1 = h1 ++ Began d :: h2 ∧ intakes (cat d) !! id = Some row ∧
            in_retention_state row = HELD ∧ intake_cleared d id row w ∧ obtained s answers n h1 w ∧
            t_rows (copies (cat d)) !! ic.1 = Some ic.2 ∧
            cp_bundle_id ic.2 = Some (cloud_bundle_id id) ∧ cp_deleted_at ic.2 = None
      | Tombstoning _ _ _ _ | TreeRemoval _ _ => False
      end.
Proof.
  intros Hs Hrun. destruct (release_leaves s answers actor Hs) as (l & Hl & Hg).
  rewrite Hrun in Hl. exists l. split; [exact Hl|]. clear Hl. intros l1 e l2 ->.
  apply stepwise_at in Hg. destruct e as [d0|n ic|n fs a b|fs a]; [done| |done|done].
  destruct Hg as (h1 & d & h2 & w & Heq%app_inv_head & (row & Hrow & Hheld & Hcl) & Ho & Hic).
  exists h1, d, h2, row, w. destruct ic as [i c].
  apply list_elem_of_filter in Hic as [[? ?] ?%elem_of_tbl_list]. by split_and!.
Qed.

(** C3: nothing is purged without authority.  In any run of [sweep_staging], whatever its outcome, that
    starts with a current copy of the intake's row (or none) and during which no other process writes
    that row (whatever else others do): a staging tree is renamed to its tombstone only as the first step
    after a transaction began on a database in which the intake is released, past its grace time by the
    clock read in that transaction, under the policy it was released with, and cleared by witness answers
    that the run asked for itself before that transaction, or was given and found fresh, and that are
    not stale by the clock read last before the rename; and the tree is the intake's own (inside a
    landing root, with its sentinel and its recorded manifest).  A tree is removed only if it is the
    intake's own tombstone, and then no path outside it changes; no backend object is deleted. *)
Theorem purge_authorised actor g glass answers evented s s' r :
  coherent keep s → sweep id actor g glass answers evented s = (s', r) →
  ∃ l, s_trace s' = s_trace s ++ l ∧
    ∀ l1 e l2, l = l1 ++ e :: l2 →
      match e with
      | Began _ => True
      | ObjectDeletion _ _ => False
      | Tombstoning n fs source destination =>
          ∃ l0 d row w a, l1 = l0 ++ [Began d] ∧ n = (a + 3)%nat ∧ purge_allowed a d row w g ∧
            obtained s answers a l0 w ∧ may_tombstone fs source destination row
      | TreeRemoval fs p =>
          ∃ t, resolve fs true p = Ok t ∧ tombstone_ok fs t id ∧
            ∀ removal q, under t q = false → (delete_path_idempotent removal fs p).1 !! q = fs !! q
      end.
Proof.
  intros Hs Hrun. destruct (sweep_leaves s answers g actor glass evented Hs) as (l & Hl & Hg).
  rewrite Hrun in Hl. exists l. split; [exact Hl|]. clear Hl. intros l1 e l2 ->.
  apply stepwise_at in Hg. destruct e as [d|n ic|n fs a b|fs p]; [done|done| |].
  - destruct Hg as (h1 & d & row & w & k & Heq%app_inv_head & Hg). by exists h1, d, row, w, k.
  - destruct Hg as (t & Ht & Hown). exists t. split_and!; [done..|]. intros removal q Hq.
    destruct (delete_path_idempotent removal fs p) as [fs' r'] eqn:E.
    apply delete_path_frame in E as [Hframe _]. by apply (Hframe t).
Qed.

Lemma add_once_ok a o actor now detail s :
  validate_event_detail a detail = Ok tt →
  ∃ s', add_once_event clock id a o actor (Some now) detail s = (s', Ok tt) ∧
    intakes (cat (s_work s')) = intakes (cat (s_work s)) ∧ s_fs s' = s_fs s ∧ s_point s' = s_point s.
Proof.
  intros Hv. unfold add_once_event. rewrite bind_run. cbn [work]. case_bool; [by eexists|].
  unfold add_event. rewrite bind_run. unfold lift. cbn [intake_event ne_action ne_detail]. rewrite Hv.
  by eexists.
Qed.

Lemma finish_gc_purges row actor p s :
  s_cache s !! id = Some row → intakes (cat (s_work s)) !! id = Some row → in_retention_state row = TOMBSTONED →
  ∃ s' now, finish_gc clock others files_others id actor p s = (s', Ok (sweep_result id true (Some p) "purged")) ∧
    intakes (cat (s_committed s')) !! id = Some (set_purged now row) ∧
    s_fs s' = files_others (S (s_point s)) (files_others (s_point s) (s_fs s)).
Proof.
  intros Hc Hw Hst. unfold finish_gc, begin_immediate. rewrite bind_run. cbn [commit].
  rewrite bind_run. unfold require_intake at 1. cbn [s_cache]. rewrite Hc, Hst, bind_run, utcnow_run.
  cbn [tick fst s_tick]. set (now := clock (s_tick s)). rewrite bind_run. unfold update_intake. cbn [s_work].
  rewrite stable, Hw by done.
  match goal with |- context [set_cache ?c ?s0] => set (s1 := set_cache c s0) end.
  rewrite bind_run.
  destruct (add_once_ok "staging_deleted" ("purge:" +:+ id) actor now [("path", JStr p)] s1)
    as (s2 & -> & Hi & Hf & Hp); [done|].
  rewrite bind_run. cbn [commit]. eexists _, now. split; [done|]. cbn [s_committed s_fs]. split.
  - rewrite stable by done. rewrite Hi. unfold s1. cbn. by rewrite lookup_insert_eq.
  - by rewrite Hf, Hp.
Qed.

Lemma delete_path_complete fs p t :
  resolve fs true p = Ok t → unsafe_delete_root t = false →
  ∃ fs', delete_path_idempotent Complete fs p = (fs', Ok tt) ∧ fs' !! t = None.
Proof.
  intros Ht Hsafe.
  assert (∃ fs', delete_path_idempotent Complete fs p = (fs', Ok tt)) as [fs' E].
  { unfold delete_path_idempotent. rewrite Ht, Hsafe. destruct (is_dir fs t); eexists; reflexivity. }
  pose proof (delete_path_frame _ _ _ _ _ E) as [_ Hgone]. exists fs'. split; [exact E|by apply (Hgone t)].
Qed.

Lemma resume_gc_purges row recorded t actor s :
  s_cache s !! id = Some row → intakes (cat (s_work s)) !! id = Some row → in_retention_state row = TOMBSTONED →
  in_staging_tombstone_path row = Some recorded →
  validate_tombstone_path sha256_hex json_loads cwd landing_config tombstone_config (s_fs s)
    (absolute cwd recorded) id = Ok tt →
  resolve (s_fs s) true (absolute cwd recorded) = Ok t → unsafe_delete_root t = false →
  rmtree (s_tick s) = Complete → (∀ n fs, files_others n fs = fs) →
  ∃ s' res now,
    resume_tombstone_gc sha256_hex json_loads cwd landing_config tombstone_config clock others files_others
      rmtree id row actor s = (s', Ok res) ∧ ss_purged res = true ∧
    intakes (cat (s_committed s')) !! id = Some (set_purged now row) ∧ s_fs s' !! t = None.
Proof.
  intros Hc Hrow Hst Hrec Hval Ht Hsafe Hrm Hfiles.
  destruct (delete_path_complete _ _ _ Ht Hsafe) as (fs' & Edel & Hgone).
  set (s1 := set_fs fs' (emit (TreeRemoval (s_fs s) (absolute cwd recorded)) (tick s).1).1).
  destruct (finish_gc_purges row actor (posix_path_str recorded) s1) as (s' & now & Hrun & H1 & H2); [done..|].
  exists s', (sweep_result id true (Some (posix_path_str recorded)) "purged"), now.
  split_and!; [|reflexivity|exact H1|rewrite H2, !Hfiles; exact Hgone].
  unfold resume_tombstone_gc. rewrite Hrec. eapply bind_ok; [reflexivity|].
  eapply bind_ok; [unfold lift; rewrite Hval; reflexivity|]. eapply bind_ok; [reflexivity|].
  eapply bind_ok; [reflexivity|]. rewrite Hrm, Edel. do 2 (eapply bind_ok; [reflexivity|]). exact Hrun.
Qed.

(** C25: a tombstone is collected by the next run.  When the catalog says tombstoned and the recorded
    tombstone validates (whether its tree is still there or an earlier run already removed it) and does
    not resolve to a root that must not be deleted, a run with at least the default grace days, whose
    removal is not cut short, that starts with a current copy of the row, and during which no other
    process writes the row or touches the files, ends with the intake purged and the tree gone. *)
Theorem gc_completes row recorded t actor g glass answers evented s :
  coherent keep s → intakes (cat (s_work s)) !! id = Some row → in_retention_state row = TOMBSTONED →
  in_staging_tombstone_path row = Some recorded → actor ≠ "" → DEFAULT_STAGING_GRACE_DAYS <= g →
  validate_tombstone_path sha256_hex json_loads cwd landing_config tombstone_config (s_fs s)
    (absolute cwd recorded) id = Ok tt →
  resolve (s_fs s) true (absolute cwd recorded) = Ok t → unsafe_delete_root t = false →
  rmtree (s_tick s) = Complete → (∀ n fs, files_others n fs = fs) →
  ∃ s' res now, sweep id actor g glass answers evented s = (s', Ok res) ∧ ss_purged res = true ∧
    intakes (cat (s_committed s')) !! id = Some (set_purged now row) ∧ s_fs s' !! t = None.
Proof.
  intros Hs Hrow Hst Hrec Hactor Hg Hval Ht Hsafe Hrm Hfiles.
  destruct (require_intake id s) as [s1 [row'|e]] eqn:Ereq.
  2: { unfold require_intake in Ereq. rewrite Hrow in Ereq. by destruct (s_cache s !! id). }
  assert (row' = row) as -> by (apply (require_fresh keep) in Ereq; [congruence|done|done]).
  pose proof (require_intake_run _ _ _ _ Ereq) as (_ & Hs1 & Hcache).
  assert (s_work s1 = s_work s ∧ s_fs s1 = s_fs s ∧ s_tick s1 = s_tick s) as (Hw & Hf & Hk) by (by rewrite Hs1).
  clear Hs1. rewrite <- Hw in Hrow. rewrite <- Hf in Hval, Ht. rewrite <- Hk in Hrm.
  destruct (resume_gc_purges row recorded t actor s1 Hcache Hrow Hst Hrec Hval Ht Hsafe Hrm Hfiles)
    as (s' & res & now & Hrun & H1 & H2 & H3).
  exists s', res, now. split_and!; [|exact H1|exact H2|exact H3]. unfold sweep_staging. eapply bind_ok.
  { unfold require_text, lift. cbn [existsb]. by rewrite bool_decide_false. }
  eapply bind_ok; [exact Ereq|]. rewrite Hst.
  assert (g <? DEFAULT_STAGING_GRACE_DAYS = false) as -> by (by apply Z.ltb_ge).
  eapply bind_ok; [reflexivity|]. exact Hrun.
Qed.
End one_intake.

(** ** Batches *)

Section batches.
Local Abbreviation any := (λ _ : string, False).

Lemma any_untouched : untouched any.
Proof. by intros i n d []. Qed.


Lemma still_load past ids : still any past (load_intakes ids).
Proof. induction ids as [|i ids IH]; cbn [load_intakes]; calm. Qed.

Lemma still_assess past i g :
  still any past (assess_intake sha256_hex error_text clock backend_from_row witness_copy i g).
Proof. unfold assess_intake. calm. Qed.
#[local] Hint Resolve any_untouched still_load still_assess : calm.

Lemma still_assess_all past ids g :
  still any past (assess_all sha256_hex error_text clock backend_from_row witness_copy ids g).
Proof. induction ids as [|i ids IH]; cbn [assess_all]; calm. Qed.

Lemma mute_invocation past o actor a limit count dry refused reason :
  mute any past (record_batch_invocation clock o actor a limit count dry refused reason).
Proof. unfold record_batch_invocation. calm. Qed.

Lemma still_batch_limit past limit : still any past (batch_limit limit).
Proof. unfold batch_limit. calm. Qed.
#[local] Hint Resolve still_assess_all mute_invocation still_batch_limit : calm.












End batches.
End funnel_facts.
