(* ===== verification/CopyReconciler.v ===== *)
(** * The copy reconciler

    [jobs/reconcilers/copy.py]: every registered item wants its asset in the active, write-eligible pools
    of its class; a placement is realised by a healthy copy that is verified or whose verification is
    pending; a missing one gets the [copy] job.  [copy_reconciler] is the domain's instance of the
    spine's interface. *)

From Stdlib Require Import Ascii.
From S2P Require Import Prelude Json JobModels Catalog Leases RetryConfig Conditions Engine.
From S2P Require Import EngineFacts Spine Durability Scrub Accumulator FanoutMap.

Definition COPY_DOMAIN : string := "copy".
Definition ASSET_PREFIX : string := "asset".

(** ** Target keys *)

Definition make_copy_key (asset_hash : bytes) (pool_id : string) : string :=
  ASSET_PREFIX +:+ ":" +:+ bytes_hex asset_hash +:+ ":" +:+ pool_id.

Definition parse_copy_key (target_key : string) : result SpineError (string * string) :=
  let invalid {A} : result SpineError A := Err (HookRaised "ValueError") in
  match partition ":" target_key with
  | None => invalid
  | Some (prefix, rest) =>
      if decide (prefix ≠ ASSET_PREFIX) then invalid
      else match partition ":" rest with
           | None => invalid
           | Some (sha_hex, pool_id) =>
               if decide (String.length sha_hex ≠ 64%nat) then invalid
               else match fromhex sha_hex with
                    | None => invalid
                    | Some _ => if decide (pool_id = "") then invalid else Ok (sha_hex, pool_id)
                    end
           end
  end.

(** ** Desired and observed pools *)

Definition registered (k : Cat) (it : IngestItem) : bool :=
  match intakes k !! ii_intake_id it with
  | Some i => bool_decide (in_status i = REGISTERED)
  | None => false
  end.

Definition live_items (k : Cat) : list (Z * IngestItem) :=
  filter (λ it, registered k it.2 = true) (tbl_list (items k)).

(** [_active_pool_ids_for_class]; the exception of a class without pools leaves the set empty. *)
Definition active_pool_ids (k : Cat) (artifactclass : string) : gset string :=
  list_to_set (class_memberships k artifactclass true).*1.

Definition desired_for (k : Cat) (classes : list string) : gset string :=
  ⋃ (active_pool_ids k <$> classes).

Definition classes_of (asset_hash : bytes) (rows : list (Z * IngestItem)) : list string :=
  (λ it, ii_artifactclass it.2) <$> filter (λ it, ii_logical_asset_hash it.2 = asset_hash) rows.

Definition desired_pool_ids_for_asset (k : Cat) (asset_hash : bytes) : gset string :=
  desired_for k (classes_of asset_hash (live_items k)).

Definition observed_pool_ids (d : Database) (asset_hash : bytes) : gset string :=
  let measured := direct_copies (cat d) asset_hash true in
  let pending := filter (λ ic, ic.1 ∈ pending_verification_copy_ids (jobs d))
                   (direct_copies (cat d) asset_hash false) in
  list_to_set (omap (λ ic, cp_pool_id ic.2) (measured ++ pending)).

Definition copy_observation (d : Database) (target_key : string) (asset_hash : bytes) (pool_id : string)
    (desired : bool) : TargetObservation := {|
  to_target_key := target_key; to_desired := desired;
  to_observed_state := if bool_decide (pool_id ∈ observed_pool_ids d asset_hash)
                       then OBSERVED_PRESENT else OBSERVED_MISSING |}.

Definition observe_copy (d : Database) (target_key : string) : result SpineError TargetObservation :=
  '(sha_hex, pool_id) ← parse_copy_key target_key;
  let asset_hash := default "" (fromhex sha_hex) in
  Ok (copy_observation d target_key asset_hash pool_id
        (bool_decide (pool_id ∈ desired_pool_ids_for_asset (cat d) asset_hash))).

(** ** Enumeration *)

Definition live_ingest_rows (k : Cat) (cursor : option Z) (batch : nat) : list (Z * IngestItem) :=
  take batch (match cursor with
              | None => live_items k
              | Some c => filter (λ it, c < it.1) (live_items k)
              end).

(** The observations of one asset; the classes are those of its rows in the batch. *)
Definition asset_observations (d : Database) (rows : list (Z * IngestItem)) (asset_hash : bytes)
    : list TargetObservation :=
  (λ pool_id, copy_observation d (make_copy_key asset_hash pool_id) asset_hash pool_id true) <$>
  sort_by id (elements (desired_for (cat d) (classes_of asset_hash rows))).

Definition enumerate_copies (d : Database) (cursor : option Z) (batch : nat) : list TargetObservation :=
  let rows := live_ingest_rows (cat d) cursor batch in
  dedup_by id ((λ it, ii_logical_asset_hash it.2) <$> rows) ≫= asset_observations d rows.

(** ** Enqueueing *)

Definition copy_spec (target_key sha_hex pool_id backend_name : string) : SubmitSpec := {|
  sb_kind := "copy";
  sb_params := [("asset_hash", JStr sha_hex); ("target_backend", JStr backend_name); ("pool_id", JStr pool_id)];
  sb_required_resources := []; sb_prerequisites := []; sb_not_before := None; sb_priority := 0;
  sb_dedupe_key := Some (COPY_DOMAIN +:+ ":" +:+ target_key); sb_recon_domain := Some COPY_DOMAIN;
  sb_recon_target_key := Some target_key |}.

(** The backend row exists by foreign key. *)
Definition reconcile_copy (d : Database) (target_key : string) (now : time) : result SpineError Database :=
  '(sha_hex, pool_id) ← parse_copy_key target_key;
  match p ← pools (cat d) !! pool_id; backends (cat d) !! pl_backend_id p with
  | None => Err (HookRaised "ValueError")
  | Some b => Ok (with_jobdb (submit1 (jobs d) (copy_spec target_key sha_hex pool_id (be_name b)) now).1 d)
  end.

Definition copy_reconciler : Reconciler := {|
  enumerate_targets := λ d cursor batch, Ok (enumerate_copies d cursor batch);
  observe := observe_copy;
  reconcile_target := reconcile_copy;
  classify_condition := None |}.
