(* ===== verification/DerivationReconciler.v ===== *)
(** * The derivation reconciler

    [jobs/reconcilers/derivation.py]: an item of a registered intake with a prepare profile wants the
    facts its profile entries produce, unless its content is already durable; a missing entry gets its
    job.  The PFR sidecar on disk and the optional parser are parameters. *)

From Stdlib Require Import Ascii.
From stdpp Require Import pretty.
From S2P Require Import Prelude Json JobModels Catalog Leases RetryConfig Conditions Engine.
From S2P Require Import EngineFacts Spine Durability Scrub Accumulator FanoutMap Profiles Novelty Retention.
From S2P Require Import CopyReconciler.

(** ** Python's [int] on ASCII text *)

Fixpoint drop_spaces (l : list ascii) : list ascii :=
  match l with
  | [] => []
  | c :: l' => if is_space c then drop_spaces l' else l
  end.

Definition strip_spaces (s : string) : list ascii :=
  reverse (drop_spaces (reverse (drop_spaces (String.list_ascii_of_string s)))).

(** Digits, single underscores allowed between them *)
Fixpoint grouped (after_digit : bool) (l : list ascii) : bool :=
  match l with
  | [] => after_digit
  | c :: l =>
      if is_digit c then grouped true l
      else if decide (c = "_"%char) then after_digit && grouped false l
      else false
  end.

Definition digits_sum (l : list ascii) : Z :=
  foldl (λ n c, 10 * n + (Z.of_nat (nat_of_ascii c) - 48)) 0 l.

Definition read_digits (l : list ascii) : option Z :=
  if grouped false l then Some (digits_sum (filter (λ c, c ≠ "_"%char) l)) else None.

Definition python_int (s : string) : option Z :=
  match strip_spaces s with
  | "-"%char :: l => Z.opp <$> read_digits l
  | "+"%char :: l => read_digits l
  | l => read_digits l
  end.

(** ** Target keys *)

(** [make_target_key] is the one of the retention gate; entries of the registry have non-empty kinds. *)
Definition parse_derivation_key (target_key : string) : result SpineError (Z * string) :=
  let invalid {A} : result SpineError A := Err (HookRaised "ValueError") in
  match partition ":" target_key with
  | None => invalid
  | Some (prefix, rest) =>
      if decide (prefix ≠ DERIVATION_DOMAIN) then invalid
      else match partition ":" rest with
           | None => invalid
           | Some (raw, job_kind) =>
               if decide (raw = "" ∨ job_kind = "") then invalid
               else match python_int raw with
                    | None => invalid
                    | Some item_id => Ok (item_id, job_kind)
                    end
           end
  end.

Definition lift_spine {E A} (what : string) (r : result E A) : result SpineError A :=
  match r with Ok a => Ok a | Err _ => Err (HookRaised what) end.

Definition some_or_raise {A} (o : option A) : result SpineError A :=
  match o with Some a => Ok a | None => Err (HookRaised "ValueError") end.

Section derivation.
Context (pfr_available : bool) (pfr_sidecar_complete : string → bool) (cache_root : string).

(** ** What an item wants *)

(** The profile of the item's intake, when the intake is registered and its work is not suppressed *)
Definition wanted_profile (k : Cat) (it : IngestItem) : result SpineError (option (option string)) :=
  match intakes k !! ii_intake_id it with
  | None => Ok None
  | Some i =>
      if decide (in_status i ≠ REGISTERED) then Ok None
      else
        suppressed ← lift_spine "ReplicationError" (work_suppression_safe k it);
        Ok (if suppressed : bool then None else Some (in_requested_profile i))
  end.

Definition matching_entries (k : Cat) (it : IngestItem) : result SpineError (list DerivationEntry) :=
  wanted ← wanted_profile k it;
  match wanted with
  | None => Ok []
  | Some profile =>
      some_or_raise (entries_for PROFILES (ii_artifactclass it) profile (media_kind_for_path (ii_as_received_path it)))
  end.

Definition matching_entry_for_job (k : Cat) (it : IngestItem) (job_kind : string)
    : result SpineError (option DerivationEntry) :=
  wanted ← wanted_profile k it;
  match wanted with
  | None => Ok None
  | Some profile =>
      some_or_raise (entry_for_job PROFILES (ii_artifactclass it) profile
                       (media_kind_for_path (ii_as_received_path it)) job_kind)
  end.

(** ** Facts *)

Definition source_has_derivations (k : Cat) (item_id : Z) (kinds : list string) : bool :=
  forallb (λ kind, existsb (λ ad, bool_decide (ad_source_item_id ad.2 = item_id) && bool_decide (ad_kind ad.2 = kind))
                     (tbl_list (derivations k))) kinds.

Definition has_pfr_sidecar (it : IngestItem) : bool :=
  match dget "pfr_sidecar_path" (ii_item_metadata it) with
  | Some (JStr path) => pfr_available && pfr_sidecar_complete path
  | _ => false
  end.

Definition kinds_of (t : FactType) (e : DerivationEntry) : list string :=
  fs_kind <$> filter (λ f, fs_fact_type f = t) (de_produces e).

Definition entry_facts_present (k : Cat) (item_id : Z) (it : IngestItem) (e : DerivationEntry)
    : result SpineError bool :=
  if negb (source_has_derivations k item_id (kinds_of FactDerivation e)) then Ok false
  else match kinds_of FactIndex e with
       | [] => Ok true
       | kinds =>
           if forallb (λ kind, bool_decide (kind = "pfr-index-v1")) kinds then Ok (has_pfr_sidecar it)
           else Err (HookRaised "ValueError")
       end.

Definition observe_entry (k : Cat) (item_id : Z) (it : IngestItem) (e : DerivationEntry)
    : result SpineError TargetObservation :=
  present ← entry_facts_present k item_id it e;
  Ok {| to_target_key := make_target_key item_id (de_job_kind e); to_desired := true;
        to_observed_state := if present : bool then OBSERVED_PRESENT else OBSERVED_MISSING |}.

Definition observe_derivation (d : Database) (target_key : string) : result SpineError TargetObservation :=
  '(item_id, job_kind) ← parse_derivation_key target_key;
  let undesired := {| to_target_key := target_key; to_desired := false; to_observed_state := OBSERVED_MISSING |} in
  match t_rows (items (cat d)) !! item_id with
  | None => Ok undesired
  | Some it =>
      entry ← matching_entry_for_job (cat d) it job_kind;
      match entry with
      | None => Ok undesired
      | Some e => observe_entry (cat d) item_id it e
      end
  end.

(** ** Enumeration *)

Definition live_prepared_items (k : Cat) (cursor : option Z) (batch : nat) : list (Z * IngestItem) :=
  let prepared := filter (λ it, (registered k it.2 &&
      negb (bool_decide ((i ← intakes k !! ii_intake_id it.2; in_requested_profile i) = None))) = true)
    (tbl_list (items k)) in
  take batch (match cursor with None => prepared | Some c => filter (λ it, c < it.1) prepared end).

Fixpoint gather {A B} (f : A → result SpineError (list B)) (l : list A) : result SpineError (list B) :=
  match l with
  | [] => Ok []
  | a :: l => bs ← f a; rest ← gather f l; Ok (bs ++ rest)
  end.

Definition item_observations (k : Cat) (it : Z * IngestItem) : result SpineError (list TargetObservation) :=
  entries ← matching_entries k it.2;
  gather (λ e, o ← observe_entry k it.1 it.2 e; Ok [o]) entries.

Definition enumerate_derivations (d : Database) (cursor : option Z) (batch : nat)
    : result SpineError (list TargetObservation) :=
  gather (item_observations (cat d)) (live_prepared_items (cat d) cursor batch).

(** ** Enqueueing *)

Definition derivation_params (item_id : Z) (e : DerivationEntry) : dict json :=
  foldl (λ d p, dset p.1 p.2 d)
    [("ingest_item_id", JInt item_id);
     ("output_class", match de_output_class e with Some c => JStr c | None => JNull end);
     ("cache_root", JStr cache_root)] (de_params e).

Definition derivation_spec (target_key : string) (item_id : Z) (e : DerivationEntry) : SubmitSpec := {|
  sb_kind := de_job_kind e; sb_params := derivation_params item_id e;
  sb_required_resources := JObj <$> de_resources e; sb_prerequisites := []; sb_not_before := None; sb_priority := 0;
  sb_dedupe_key := Some (DERIVATION_DOMAIN +:+ ":" +:+ target_key); sb_recon_domain := Some DERIVATION_DOMAIN;
  sb_recon_target_key := Some target_key |}.

Definition reconcile_derivation (d : Database) (target_key : string) (now : time) : result SpineError Database :=
  '(item_id, job_kind) ← parse_derivation_key target_key;
  it ← some_or_raise (t_rows (items (cat d)) !! item_id);
  entry ← matching_entry_for_job (cat d) it job_kind;
  e ← some_or_raise entry;
  Ok (with_jobdb (submit1 (jobs d) (derivation_spec target_key item_id e) now).1 d).

Definition derivation_reconciler : Reconciler := {|
  enumerate_targets := enumerate_derivations;
  observe := observe_derivation;
  reconcile_target := reconcile_derivation;
  classify_condition := None |}.
End derivation.
