(* ===== verification/DomainFacts.v ===== *)
(** * Correctness of the copy and derivation reconcilers

    Both domains satisfy the interface of the spine, read back the target keys they write, report in a
    batch what observing a target alone reports, and leave no gap untracked. *)

From Stdlib Require Import Ascii.
From stdpp Require Import pretty.
From S2P Require Import Prelude Json JobModels Catalog Leases RetryConfig Conditions Engine.
From S2P Require Import EngineFacts Spine SpineFacts Durability DurabilityFacts Scrub Accumulator NamingFacts.
From S2P Require Import FanoutMap FanoutMapFacts Profiles Novelty Retention RetentionGateFacts.
From S2P Require Import CopyReconciler DerivationReconciler.

(** ** Text *)

Lemma partition_app sep h b : lacks sep h = true → partition sep (h +:+ String sep b) = Some (h, b).
Proof.
  intros Hh. induction h as [|c h IH].
  - rewrite string_nil_app. cbn. by rewrite Ascii.eqb_refl.
  - cbn in Hh. apply andb_true_iff in Hh as [Hc Hh]. rewrite string_cons_app. cbn.
    apply negb_true_iff in Hc. by rewrite Hc, IH.
Qed.

Lemma hex_digit_code n : (n < 16)%nat → hex_code (JsonText.hex_digit n) = Some n ∧ is_space (JsonText.hex_digit n) = false.
Proof. intros Hn. do 16 (destruct n as [|n]; [done|]). lia. Qed.

(** [bytes.fromhex] inverts [bytes.hex]. *)
Lemma fromhex_hex b : fromhex (bytes_hex b) = Some b.
Proof.
  induction b as [|c b IH]; [done|]. cbn [bytes_hex fromhex].
  pose proof (nat_ascii_bounded c) as Hc.
  destruct (hex_digit_code (nat_of_ascii c / 16)) as [H1 S1]; [apply Nat.Div0.div_lt_upper_bound; lia|].
  destruct (hex_digit_code (nat_of_ascii c mod 16)) as [H2 S2]; [apply Nat.mod_upper_bound; lia|].
  rewrite S1, H1, H2, IH. cbn [mbind option_bind fmap option_fmap option_map]. do 2 f_equal.
  rewrite <- Nat.div_mod_eq. apply ascii_nat_embedding.
Qed.


Lemma bytes_hex_colon b : lacks ":" (bytes_hex b) = true.
Proof.
  induction b as [|c b IH]; [done|]. cbn [bytes_hex lacks]. rewrite IH.
  pose proof (nat_ascii_bounded c) as Hc.
  assert (Hd : ∀ n, (n < 16)%nat → negb (Ascii.eqb (JsonText.hex_digit n) ":") = true)
    by (intros n Hn; do 16 (destruct n as [|n]; [done|]); lia).
  rewrite !Hd; [done|apply Nat.mod_upper_bound; lia|apply Nat.Div0.div_lt_upper_bound; lia].
Qed.

(** ** Decimal numbers *)

Definition all_digits (l : list ascii) : Prop := Forall (λ c, is_digit c = true) l.

Lemma digit_char n : (n < 10)%N →
  is_digit (pretty_N_char n) = true ∧ Z.of_nat (nat_of_ascii (pretty_N_char n)) - 48 = Z.of_N n.
Proof.
  intros Hn. assert (n = 0 ∨ n = 1 ∨ n = 2 ∨ n = 3 ∨ n = 4 ∨ n = 5 ∨ n = 6 ∨ n = 7 ∨ n = 8 ∨ n = 9)%N as H by lia.
  by repeat (destruct H as [->|H]); [..|subst].
Qed.

Lemma digits_snoc l c : digits_sum (l ++ [c]) = 10 * digits_sum l + (Z.of_nat (nat_of_ascii c) - 48).
Proof. unfold digits_sum. by rewrite foldl_app. Qed.

Lemma pretty_go_digits x :
  ∃ l, all_digits l ∧ digits_sum l = Z.of_N x ∧ (l = [] → x = 0%N) ∧
    ∀ s, String.list_ascii_of_string (pretty_N_go x s) = l ++ String.list_ascii_of_string s.
Proof.
  induction (N.lt_wf_0 x) as [x _ IH]. destruct (decide (0 < x)%N) as [Hx|Hx].
  - destruct (IH (x / 10)%N) as (l & Hl & Hv & _ & Hs); [apply N.div_lt; lia|].
    destruct (digit_char (x mod 10)) as [Hd Hn]; [by apply N.mod_lt|].
    exists (l ++ [pretty_N_char (x mod 10)]). split_and!.
    + apply Forall_app. split; [done|]. by constructor.
    + rewrite digits_snoc, Hv, Hn. pose proof (N.div_mod' x 10). lia.
    + intros H. by apply app_nil in H as [_ ?].
    + intros s. rewrite pretty_N_go_step by done. rewrite Hs. cbn. by rewrite <- app_assoc.
  - assert (x = 0%N) as -> by lia. exists []. split_and!; try done. constructor.
Qed.

Lemma pretty_N_digits (n : N) :
  ∃ l, l ≠ [] ∧ all_digits l ∧ digits_sum l = Z.of_N n ∧ String.list_ascii_of_string (pretty n) = l.
Proof.
  unfold pretty, pretty_N. case_decide as Hn; [subst; by exists ["0"%char]; repeat constructor|].
  destruct (pretty_go_digits n) as (l & Hl & Hv & Hne & Hs). exists l. split_and!; try done.
  - intros ->. auto.
  - rewrite Hs. apply app_nil_r.
Qed.

Lemma digit_not_space c : is_digit c = true → is_space c = false ∧ c ≠ "_"%char ∧ c ≠ "-"%char ∧ c ≠ "+"%char ∧ c ≠ ":"%char.
Proof.
  unfold is_digit, is_space. intros H. apply andb_true_iff in H as [H1%Nat.leb_le H2%Nat.leb_le].
  split; [|split_and!; intros ->; vm_compute in H1, H2; lia].
  apply orb_false_iff. split; [|apply Nat.eqb_neq; lia]. apply andb_false_iff. right. apply Nat.leb_gt. lia.
Qed.

Lemma drop_spaces_id l : Forall (λ c, is_space c = false) l → drop_spaces l = l.
Proof. destruct 1 as [|c l Hc _]; [done|]. cbn. by rewrite Hc. Qed.

Lemma strip_id s : Forall (λ c, is_space c = false) (String.list_ascii_of_string s) →
  strip_spaces s = String.list_ascii_of_string s.
Proof.
  intros H. unfold strip_spaces. rewrite (drop_spaces_id (String.list_ascii_of_string s)) by done.
  rewrite drop_spaces_id by by apply Forall_reverse.
  apply reverse_involutive.
Qed.

Lemma grouped_digits l : all_digits l → ∀ b, (l = [] → b = true) → grouped b l = true.
Proof. induction 1 as [|c l Hc _ IH]; intros b Hb; cbn; [auto|]. rewrite Hc. by apply IH. Qed.

Lemma read_digits_spec l : all_digits l → l ≠ [] → read_digits l = Some (digits_sum l).
Proof.
  intros Hl Hne. unfold read_digits. rewrite grouped_digits by done. do 2 f_equal. clear Hne.
  induction Hl as [|c l Hc Hl IH]; [done|]. rewrite filter_cons_True, IH; [done|]. by apply digit_not_space.
Qed.

(** [int(str(n))] is [n]. *)
Lemma python_int_pretty (n : Z) : python_int (pretty n) = Some n.
Proof.
  assert (Hpos : ∀ m : N, ∃ l, read_digits l = Some (Z.of_N m) ∧ l ≠ [] ∧ all_digits l ∧
      String.list_ascii_of_string (pretty m) = l).
  { intros m. destruct (pretty_N_digits m) as (l & Hne & Hl & Hv & Hs). exists l. split_and!; try done.
    rewrite read_digits_spec by done. by rewrite Hv. }
  assert (Hspace : ∀ l, all_digits l → Forall (λ c, is_space c = false) l).
  { intros l Hl. eapply Forall_impl; [exact Hl|]. by intros c [Hc _]%digit_not_space. }
  assert (Hplus : ∀ m : N, python_int (pretty m) = Some (Z.of_N m)).
  { intros m. destruct (Hpos m) as (l & Hr & Hne & Hl & Hs). unfold python_int. rewrite strip_id by (rewrite Hs; auto).
    rewrite Hs. destruct l as [|c l]; [done|]. apply Forall_cons in Hl as [Hc _].
    apply digit_not_space in Hc as (_ & _ & H1 & H2 & _).
    destruct c as [[] [] [] [] [] [] [] []]; done. }
  destruct n as [|p|p]; [done|apply (Hplus (N.pos p))|].
  destruct (Hpos (N.pos p)) as (l & Hr & Hne & Hl & Hs).
  unfold python_int. change (pretty (Z.neg p)) with ("-" +:+ pretty (N.pos p)).
  assert (Hlist : String.list_ascii_of_string ("-" +:+ pretty (N.pos p)) = "-"%char :: l)
    by (rewrite string_cons_app, string_nil_app; cbn [String.list_ascii_of_string]; by rewrite Hs).
  rewrite strip_id by (rewrite Hlist; constructor; [done|auto]). rewrite Hlist, Hr. done.
Qed.

Lemma pretty_Z_colon (n : Z) : lacks ":" (pretty n) = true ∧ (pretty n : string) ≠ "".
Proof.
  assert (Hl : ∀ s, Forall (λ c, c ≠ ":"%char) (String.list_ascii_of_string s) → lacks ":" s = true).
  { induction s as [|c s IH]; [done|]. cbn. intros [Hc Hs]%Forall_cons. rewrite IH by done.
    by destruct (Ascii.eqb_spec c ":"). }
  assert (HN : ∀ m : N, lacks ":" (pretty m) = true ∧ (pretty m : string) ≠ "").
  { intros m. destruct (pretty_N_digits m) as (l & Hne & Hd & _ & Hs). split.
    - apply Hl. rewrite Hs. eapply Forall_impl; [exact Hd|]. by intros c (_ & _ & _ & _ & ?)%digit_not_space.
    - intros H. rewrite H in Hs. by subst l. }
  destruct n as [|p|p]; [done|apply (HN (N.pos p))|].
  change (pretty (Z.neg p)) with ("-" +:+ pretty (N.pos p)). rewrite lacks_app. by rewrite (proj1 (HN (N.pos p))).
Qed.

(** ** The copy domain *)

#[export] Instance copy_laws : ReconcilerLaws COPY_DOMAIN copy_reconciler.
Proof.
  constructor; [done|]. intros d t now d' H. cbn in H. unfold reconcile_copy in H.
  apply bind_Ok in H as ([sha_hex pool_id] & _ & H).
  destruct (pools (cat d) !! pool_id ≫= _) as [b|]; [|done]. injection H as <-. right.
  eexists (copy_spec t sha_hex pool_id (be_name b)), now. by split_and!.
Qed.

(** Rows the database accepts: content hashes have 32 bytes and pools have names. *)
Record keys_ok (k : Cat) : Prop := {
  ko_hash : ∀ i it, t_rows (items k) !! i = Some it → String.length (ii_logical_asset_hash it) = 32%nat;
  ko_pool : ∀ c p m, acpools k !! (c, p) = Some m → p ≠ "";
}.

Lemma copy_key_parse h p :
  String.length h = 32%nat → p ≠ "" → parse_copy_key (make_copy_key h p) = Ok (bytes_hex h, p).
Proof.
  intros Hh Hp. unfold parse_copy_key.
  change (make_copy_key h p) with (ASSET_PREFIX +:+ String ":" (bytes_hex h +:+ String ":" p)).
  rewrite partition_app by done. rewrite decide_False by auto. rewrite partition_app by apply bytes_hex_colon.
  rewrite decide_False by (rewrite bytes_hex_length, Hh; lia). by rewrite fromhex_hex, decide_False.
Qed.

Lemma elem_of_active k c p :
  p ∈ active_pool_ids k c ↔ ∃ m pl, acpools k !! (c, p) = Some m ∧ acp_active m = true ∧
    pools k !! p = Some pl ∧ pl_accepts_writes pl = true.
Proof.
  unfold active_pool_ids, class_memberships. rewrite elem_of_list_to_set, list_elem_of_fmap. split.
  - intros ([p' m] & -> & Hin). rewrite elem_of_sort_by, list_elem_of_omap in Hin.
    destruct Hin as ([[c' p''] m'] & Hin%elem_of_map_to_list & Hc). cbn in Hc. case_bool; [|done]. simplify_eq.
    split_bools. simplify_eq. destruct (pools k !! p') as [pl|] eqn:Ep; [|done]. by exists m, pl.
  - intros (m & pl & Hm & Ha & Hp & Hw). exists (p, m). split; [done|].
    rewrite elem_of_sort_by, list_elem_of_omap. exists (c, p, m). split; [by apply elem_of_map_to_list|].
    cbn. by rewrite bool_decide_true, Ha, Hp, Hw.
Qed.

Lemma active_pool_named k c p : keys_ok k → p ∈ active_pool_ids k c → p ≠ "".
Proof. intros Hk (m & _ & Hm & _)%elem_of_active. by eapply ko_pool. Qed.

Lemma elem_of_desired k classes p : p ∈ desired_for k classes ↔ ∃ c, c ∈ classes ∧ p ∈ active_pool_ids k c.
Proof.
  unfold desired_for. rewrite elem_of_union_list. setoid_rewrite list_elem_of_fmap. naive_solver.
Qed.

Lemma elem_of_classes h rows c :
  c ∈ classes_of h rows ↔ ∃ i it, (i, it) ∈ rows ∧ ii_logical_asset_hash it = h ∧ ii_artifactclass it = c.
Proof.
  unfold classes_of. rewrite list_elem_of_fmap. split.
  - intros ([i it] & -> & [? ?]%list_elem_of_filter). by exists i, it.
  - intros (i & it & Hin & Hh & <-). exists (i, it). split; [done|]. by apply list_elem_of_filter.
Qed.

Lemma live_rows_sub k cursor batch it : it ∈ live_ingest_rows k cursor batch → it ∈ live_items k.
Proof.
  unfold live_ingest_rows. intros H. apply elem_of_take in H as (n & H & _). apply list_elem_of_lookup_2 in H.
  destruct cursor; [|done]. by apply list_elem_of_filter in H as [_ ?].
Qed.

Lemma elem_of_live k i it : (i, it) ∈ live_items k ↔ t_rows (items k) !! i = Some it ∧ registered k it = true.
Proof. unfold live_items. rewrite elem_of_filter_tbl. naive_solver. Qed.

(** What a batch reports: the placements its items want, each as it is. *)
Lemma elem_of_enumerated d cursor batch o :
  o ∈ enumerate_copies d cursor batch ↔
  ∃ h p, h ∈ (λ it, ii_logical_asset_hash it.2) <$> live_ingest_rows (cat d) cursor batch ∧
    p ∈ desired_for (cat d) (classes_of h (live_ingest_rows (cat d) cursor batch)) ∧
    o = copy_observation d (make_copy_key h p) h p true.
Proof.
  unfold enumerate_copies. rewrite list_elem_of_bind. split.
  - intros (h & Ho & Hh). unfold asset_observations in Ho. apply list_elem_of_fmap in Ho as (p & -> & Hp).
    rewrite elem_of_sort_by, elem_of_elements in Hp. exists h, p. split_and!; [|done|done].
    by apply elem_of_dedup_by in Hh.
  - intros (h & p & Hh & Hp & ->). exists h. split.
    + unfold asset_observations. apply list_elem_of_fmap. exists p. split; [done|].
      by rewrite elem_of_sort_by, elem_of_elements.
    + rewrite <- (list_fmap_id (dedup_by _ _)). apply (dedup_by_keys id). by rewrite list_fmap_id.
Qed.

Lemma batch_hash d cursor batch h :
  keys_ok (cat d) → h ∈ (λ it, ii_logical_asset_hash it.2) <$> live_ingest_rows (cat d) cursor batch →
  String.length h = 32%nat.
Proof.
  intros Hk ([i it] & -> & Hin%live_rows_sub%elem_of_live)%list_elem_of_fmap. destruct Hin. by eapply ko_hash.
Qed.

Lemma enumerate_copies_agrees d cursor batch o :
  keys_ok (cat d) → o ∈ enumerate_copies d cursor batch → observe_copy d (to_target_key o) = Ok o.
Proof.
  intros Hk (h & p & Hh & Hp & ->)%elem_of_enumerated. cbn [to_target_key copy_observation].
  unfold observe_copy. apply elem_of_desired in Hp as (c & Hc & Hp).
  rewrite copy_key_parse; [|by eapply batch_hash|by eapply active_pool_named].
  cbn [mbind result_bind]. rewrite fromhex_hex. cbn [default]. rewrite bool_decide_true; [done|].
  apply elem_of_desired. exists c. split; [|done]. apply elem_of_classes in Hc as (i & it & Hin & H1 & H2).
  apply elem_of_classes. exists i, it. split_and!; [|done|done]. by eapply live_rows_sub.
Qed.





(** ** The derivation domain *)

Section derivation.
Context (pfr_available : bool) (pfr_sidecar_complete : string → bool) (cache_root : string).

Local Abbreviation domain_reconciler := (derivation_reconciler pfr_available pfr_sidecar_complete cache_root).
Local Abbreviation enumerate_derivations := (enumerate_derivations pfr_available pfr_sidecar_complete).
Local Abbreviation observe_derivation := (observe_derivation pfr_available pfr_sidecar_complete).

Lemma reconcile_derivation_ok d t now d' :
  reconcile_derivation cache_root d t now = Ok d' →
  cat d' = cat d ∧ enqueue_frame DERIVATION_DOMAIN t (jobs d) (jobs d').
Proof.
  intros H. unfold reconcile_derivation in H. apply bind_Ok in H as ([item_id kind] & _ & H).
  apply bind_Ok in H as (it & _ & H). apply bind_Ok in H as (entry & _ & H). apply bind_Ok in H as (e & _ & [= <-]).
  split; [done|]. right. exists (derivation_spec cache_root t item_id e), now. by split_and!.
Qed.

#[export] Instance derivation_laws : ReconcilerLaws DERIVATION_DOMAIN domain_reconciler.
Proof. constructor; [done|]. intros d t now d' H. by apply reconcile_derivation_ok in H as [_ ?]. Qed.

Lemma derivation_key_parse i kind : kind ≠ "" → parse_derivation_key (make_target_key i kind) = Ok (i, kind).
Proof.
  intros Hk. unfold parse_derivation_key.
  change (make_target_key i kind) with (DERIVATION_DOMAIN +:+ String ":" (pretty i +:+ String ":" kind)).
  destruct (pretty_Z_colon i) as [Hc Hne].
  rewrite partition_app by done. rewrite decide_False by auto. rewrite partition_app by done.
  rewrite decide_False by (intros [?|?]; done). by rewrite python_int_pretty.
Qed.

Lemma derivation_key_inj i kind i' kind' :
  make_target_key i kind = make_target_key i' kind' → i = i' ∧ kind = kind'.
Proof.
  intros H. assert (Hp : ∀ (i : Z) kind, partition ":" (pretty i +:+ String ":" kind) = Some (pretty i, kind))
    by (intros; apply partition_app, pretty_Z_colon).
  unfold make_target_key in H. apply (f_equal (strip_prefix "derivation:")) in H. rewrite !strip_prefix_app in H.
  injection H as H.
  assert (Heq : Some (pretty i, kind) = Some (pretty i', kind')) by (rewrite <- !Hp; by f_equal).
  injection Heq as Hx ->. split; [|done]. apply (inj Some). by rewrite <- !python_int_pretty, Hx.
Qed.

Lemma gather_elem {A B} (f : A → result SpineError (list B)) l bs b :
  gather f l = Ok bs → b ∈ bs → ∃ a fs, a ∈ l ∧ f a = Ok fs ∧ b ∈ fs.
Proof.
  revert bs. induction l as [|a l IH]; intros bs H Hb; cbn in H; [injection H as <-; set_solver|].
  apply bind_Ok in H as (fs & Hf & H). apply bind_Ok in H as (rest & Hr & [= <-]).
  apply elem_of_app in Hb as [Hb|Hb]; [exists a, fs; set_solver|].
  destruct (IH rest Hr Hb) as (a' & fs' & Ha & Hf' & Hb'). exists a', fs'. set_solver.
Qed.

(** Registry entries have a job kind, distinct among those of one item. *)
Lemma entries_unique artifactclass profile media entries e :
  entries_for PROFILES artifactclass profile media = Some entries → e ∈ entries →
  de_job_kind e ≠ "" ∧ entry_for_job PROFILES artifactclass profile media (de_job_kind e) = Some (Some e).
Proof.
  intros Hes He. unfold entry_for_job. rewrite Hes. cbn. unfold entries_for in Hes.
  destruct profile as [name|]; [|injection Hes as <-; set_solver]. case_bool; [|done]. injection Hes as <-.
  unfold unique_job_kinds in Hb. apply bool_decide_eq_true in Hb. split.
  - clear Hb. apply list_elem_of_filter in He as [_ He]. unfold profile_entries in He.
    destruct (filter _ _) as [|p l] eqn:E; [by apply not_elem_of_nil in He|].
    assert (Hp : p ∈ PROFILES).
    { assert (Hin : p ∈ p :: l) by left. rewrite <- E in Hin. by apply list_elem_of_filter in Hin as [_ ?]. }
    clear E. unfold PROFILES in Hp. rewrite !elem_of_cons, elem_of_nil in Hp. destruct Hp as [->|[->|[]]]; cbn in He.
    + apply elem_of_cons in He as [->|[->|[]%not_elem_of_nil]%elem_of_cons]; done.
    + apply elem_of_cons in He as [->|[]%not_elem_of_nil]; done.
  - do 2 f_equal. induction (filter _ _) as [|x l IH]; [set_solver|]. cbn in Hb. apply NoDup_cons in Hb as [Hx Hb].
    rewrite filter_cons. case_decide as Hd.
    + cbn. apply elem_of_cons in He as [->|He]; [done|]. exfalso. apply Hx. rewrite Hd. apply list_elem_of_fmap. eauto.
    + apply elem_of_cons in He as [->|He]; [done|]. by apply IH.
Qed.

Lemma elem_of_prepared k cursor batch i it :
  (i, it) ∈ live_prepared_items k cursor batch → t_rows (items k) !! i = Some it.
Proof.
  unfold live_prepared_items. intros H. apply elem_of_take in H as (n & H & _). apply list_elem_of_lookup_2 in H.
  destruct cursor; [apply list_elem_of_filter in H as [_ H]|]; by apply elem_of_filter_tbl in H as [_ ?].
Qed.

(** What an enumerated observation is about *)
Lemma enumerated_derivation d cursor batch os o :
  enumerate_derivations d cursor batch = Ok os → o ∈ os →
  ∃ i it profile entries e, t_rows (items (cat d)) !! i = Some it ∧ wanted_profile (cat d) it = Ok (Some profile) ∧
    entries_for PROFILES (ii_artifactclass it) profile (media_kind_for_path (ii_as_received_path it)) = Some entries ∧
    e ∈ entries ∧ observe_entry pfr_available pfr_sidecar_complete (cat d) i it e = Ok o.
Proof.
  intros H Ho. destruct (gather_elem _ _ _ _ H Ho) as ([i it] & fs & Hin & Hf & Hb).
  unfold item_observations in Hf. apply bind_Ok in Hf as (entries & He & Hf). cbn [fst snd] in *.
  destruct (gather_elem _ _ _ _ Hf Hb) as (e & gs & Hine & Hg & Hb'). apply bind_Ok in Hg as (o' & Hobs & [= <-]).
  apply list_elem_of_singleton in Hb' as ->. unfold matching_entries in He. apply bind_Ok in He as ([profile|] & Hw & He).
  - unfold some_or_raise in He. destruct (entries_for _ _ _ _) as [es|] eqn:Ees; [|done]. injection He as ->.
    exists i, it, profile, entries, e. split_and!; try done. by eapply elem_of_prepared.
  - injection He as <-. set_solver.
Qed.

(** The batch and the single observation agree. *)
Lemma enumerate_derivations_agrees d cursor batch os o :
  enumerate_derivations d cursor batch = Ok os → o ∈ os → observe_derivation d (to_target_key o) = Ok o.
Proof.
  intros H Ho. destruct (enumerated_derivation _ _ _ _ _ H Ho) as (i & it & profile & entries & e & Hi & Hw & Hes & He & Hobs).
  destruct (entries_unique _ _ _ _ _ Hes He) as [Hk Hj].
  assert (Hkey : to_target_key o = make_target_key i (de_job_kind e))
    by (unfold observe_entry in Hobs; by apply bind_Ok in Hobs as (p & _ & [= <-])).
  unfold DerivationReconciler.observe_derivation. rewrite Hkey, derivation_key_parse by done. cbn [mbind result_bind].
  rewrite Hi. unfold matching_entry_for_job. rewrite Hw. cbn [mbind result_bind]. by rewrite Hj.
Qed.

(** ** Suppressed work *)

Lemma discover_rows_frame clock os : ∀ d d' n,
  discover_rows domain_reconciler DERIVATION_DOMAIN clock d os = Ok (d', n) →
  cat d' = cat d ∧ same_jobs (jobs d) (jobs d') ∧
  ∀ key, key ∉ to_target_key <$> os →
    cond_tbl (jobs d') !! (DERIVATION_DOMAIN, key) = cond_tbl (jobs d) !! (DERIVATION_DOMAIN, key).
Proof.
  induction os as [|o os IH]; intros d d' n H; cbn [discover_rows] in H; [by injection H as <- _|].
  apply bind_Ok in H as ([d1 row] & Hr & H). apply bind_Ok in H as ([d2 m] & H2 & [= <- _]).
  apply (refresh_target_spec DERIVATION_DOMAIN domain_reconciler) in Hr as (Hc & (Hs & Hk & _) & _).
  destruct (IH _ _ _ H2) as (Hc2 & Hs2 & Hk2). split_and!; [congruence|by eapply same_jobs_trans|].
  intros key Hkey. rewrite fmap_cons, not_elem_of_cons in Hkey. destruct Hkey as [Hne Hkey].
  rewrite Hk2 by done. apply Hk. congruence.
Qed.

Lemma process_targets_cat clock ts : ∀ d d' n,
  process_targets domain_reconciler DERIVATION_DOMAIN clock d ts = Ok (d', n) → cat d' = cat d.
Proof.
  induction ts as [|t ts IH]; intros d d' n H; cbn [process_targets] in H; [by injection H as <- _|].
  apply bind_Ok in H as (d1 & H1 & H). apply bind_Ok in H as ([d2 m] & H2 & [= <- _]).
  transitivity (cat d1); [by eapply IH|]. unfold process_target in H1. apply bind_Ok in H1 as (o & _ & H1).
  apply bind_Ok in H1 as ([d3 row] & Hr & H1). apply (refresh_target_spec DERIVATION_DOMAIN domain_reconciler) in Hr as (Hc & _).
  case_bool; [|by injection H1 as <-]. apply reconcile_derivation_ok in H1 as [Hc1 _]. congruence.
Qed.

Lemma process_targets_ids clock ts : ∀ d d' n,
  process_targets domain_reconciler DERIVATION_DOMAIN clock d ts = Ok (d', n) →
  jobdb_ids_ok (jobs d) → jobdb_ids_ok (jobs d').
Proof.
  induction ts as [|t ts IH]; intros d d' n H Hids; cbn [process_targets] in H; [by injection H as <- _|].
  apply bind_Ok in H as (d1 & H1 & H). apply bind_Ok in H as ([d2 m] & H2 & [= <- _]).
  eapply IH; [exact H2|]. apply (process_target_spec DERIVATION_DOMAIN domain_reconciler) in H1; [|done]. by apply H1.
Qed.

Context (iso : time → string) (cur : string → string) (reg : gmap string Reconciler).

(** One pass of the domain *)
Definition pass (d d' : Database) : Prop :=
  ∃ batch cursor limit t_reopen t_due t_discover clock n,
    reconcile iso cur reg d DERIVATION_DOMAIN batch cursor limit t_reopen t_due t_discover clock = Ok (d', n).

(** An item whose work is suppressed, and a derivation its profile names that has no condition row *)
Record forgotten (d : Database) (i : Z) (it : IngestItem) (row : Intake) (e : DerivationEntry) : Prop := {
  fg_ids : jobdb_ids_ok (jobs d);
  fg_item : t_rows (items (cat d)) !! i = Some it;
  fg_intake : intakes (cat d) !! ii_intake_id it = Some row;
  fg_suppressed : work_suppression_safe (cat d) it = Ok true;
  fg_entry : ∃ profile es, in_requested_profile row = Some profile ∧ profile ≠ "" ∧
    entries_for PROFILES (ii_artifactclass it) (Some profile) (media_kind_for_path (ii_as_received_path it)) = Some es ∧
    e ∈ es;
  fg_row : cond_tbl (jobs d) !! (DERIVATION_DOMAIN, make_target_key i (de_job_kind e)) = None;
}.

Hypothesis registered_domain : reg !! DERIVATION_DOMAIN = Some domain_reconciler.

Lemma forgotten_not_enumerated d i it row e cursor batch os :
  forgotten d i it row e → enumerate_derivations d cursor batch = Ok os →
  make_target_key i (de_job_kind e) ∉ to_target_key <$> os.
Proof.
  intros Hf H (o & Hkey & Ho)%list_elem_of_fmap.
  destruct (enumerated_derivation _ _ _ _ _ H Ho) as (i' & it' & profile & es & e' & Hi & Hw & _ & _ & Hobs).
  unfold observe_entry in Hobs. apply bind_Ok in Hobs as (p & _ & [= <-]). cbn in Hkey.
  apply derivation_key_inj in Hkey as [<- _]. rewrite (fg_item _ _ _ _ _ Hf) in Hi. injection Hi as <-.
  unfold wanted_profile in Hw. rewrite (fg_intake _ _ _ _ _ Hf) in Hw. case_decide; [done|].
  by rewrite (fg_suppressed _ _ _ _ _ Hf) in Hw.
Qed.

Lemma forgotten_frame d d' i it row e :
  forgotten d i it row e → jobdb_ids_ok (jobs d') → cat d' = cat d →
  cond_tbl (jobs d') !! (DERIVATION_DOMAIN, make_target_key i (de_job_kind e)) = None → forgotten d' i it row e.
Proof. intros [] ? Hc ?. constructor; rewrite ?Hc; done. Qed.

Lemma forgotten_pass d d' i it row e : forgotten d i it row e → pass d d' → forgotten d' i it row e.
Proof.
  intros Hf (batch & cursor & limit & t_reopen & t_due & t_discover & clock & n & H). unfold reconcile in H.
  set (d1 := with_jobdb _ d) in H.
  assert (Hf1 : forgotten d1 i it row e).
  { pose proof (version_bump_reopens iso cur (jobs d) DERIVATION_DOMAIN t_reopen
      (DERIVATION_DOMAIN, make_target_key i (de_job_kind e))) as (_ & _ & Hk & _).
    apply (forgotten_frame d); [done| |done|by rewrite (fg_row _ _ _ _ _ Hf) in Hk].
    unfold d1. cbn [jobs with_jobdb]. pose proof (fg_ids _ _ _ _ _ Hf). unfold reopen_version_bumped. cbn [fst].
    generalize (sort_by (λ kr, rc_id kr.2) (filter (λ kr, version_bumped cur DERIVATION_DOMAIN kr = true) (cond_rows (jobs d)))).
    intros rows. revert H0. generalize (jobs d). induction rows as [|kr rows IH]; intros db Hids; [done|].
    cbn [foldl]. apply IH. by destruct Hids. }
  clearbody d1. clear Hf d. apply bind_Ok in H as ([d2 n2] & Hd & H). apply bind_Ok in H as ([d3 n3] & Hp & [= <- _]).
  unfold discover, get_reconciler in Hd. rewrite registered_domain in Hd. cbn [mbind result_bind] in Hd.
  apply bind_Ok in Hd as (os & Hen & Hd). pose proof (forgotten_not_enumerated _ _ _ _ _ _ _ _ Hf1 Hen) as Hno.
  apply discover_rows_frame in Hd as (Hc & [Hj Hn Ha Hna] & Hk).
  assert (Hf2 : forgotten d2 i it row e).
  { apply (forgotten_frame d1); [done| |done|by rewrite Hk, (fg_row _ _ _ _ _ Hf1)].
    destruct (fg_ids _ _ _ _ _ Hf1) as [I1 I2]. split; [rewrite Hj, Hn|rewrite Ha, Hna]; done. }
  unfold process, get_reconciler in Hp. rewrite registered_domain in Hp. cbn [mbind result_bind] in Hp.
  pose proof (process_targets_cat _ _ _ _ _ Hp) as Hcat.
  pose proof (process_targets_ids _ _ _ _ _ Hp (fg_ids _ _ _ _ _ Hf2)) as Hids.
  apply (process_targets_spec DERIVATION_DOMAIN domain_reconciler) in Hp as (_ & _ & _ & Hk2 & _);
    [|apply due_targets_NoDup|apply Hf2].
  apply (forgotten_frame d2); [done|done|done|]. rewrite Hk2; [apply Hf2|]. right.
  intros ([[dom key] r] & Hkey & Hin)%list_elem_of_fmap. cbn in Hkey. subst key. unfold due_workable in Hin.
  apply elem_of_take in Hin as (m & Hin & _). apply list_elem_of_lookup_2 in Hin.
  rewrite elem_of_sort_by, list_elem_of_filter, elem_of_cond_rows in Hin. destruct Hin as [Hdue Hrow].
  unfold is_due in Hdue. split_bools. cbn in *. subst dom. by rewrite (fg_row _ _ _ _ _ Hf2) in Hrow.
Qed.

(** C37: suppressing the work of a known item blocks its intake for good.  The derivation reconciler skips
    an item whose content is already durable, so it never creates the condition row of a derivation the
    intake's profile names; the release gate demands that row.  However often the reconciler runs, the
    gate never finds the intake releasable. *)
Theorem suppressed_work_blocks_release sha256_hex error_text d d' i it row e w grace now st :
  forgotten d i it row e → rtc pass d d' →
  local_gate_status sha256_hex error_text d' (ii_intake_id it) row w true grace now = Ok st →
  ig_releasable st = false.
Proof.
  intros Hf Hp Hg. assert (Hf' : forgotten d' i it row e) by (induction Hp; eauto using forgotten_pass).
  apply not_true_iff_false. intros Hr. apply gate_spec in Hg as [Hh Heq]. rewrite Heq in Hr.
  apply andb_true_iff in Hr as [_ Hr%bool_decide_eq_true]. apply Hh in Hr as [_ _ _ Hder _].
  destruct (fg_entry _ _ _ _ _ Hf') as (profile & es & Hprof & Hne & Hes & He).
  destruct (Hder i it (fg_item _ _ _ _ _ Hf') eq_refl profile es e Hprof Hne Hes He) as (c & Hc & _).
  by rewrite (fg_row _ _ _ _ _ Hf') in Hc.
Qed.
End derivation.
