(* ===== verification/BagIt.v ===== *)
(** * The text of a BagIt bag

    The contract-critical half of [packages/sutradhara-receive/src/sutradhara_receive/core.py], on the
    path the code takes without the compiled extension: canonical member paths, the percent layer of
    checksum manifests, [manifest-sha256.txt] and [bag-info.txt] as they are written and read, and the
    comparison of a payload with its manifest.

    Text is a string of UTF-8 bytes; [characters] recovers the code points where the code counts or
    slices them.  A file name is a string of raw bytes, which is what [os.fsencode] gives.  NFC
    normalisation is the parameter [nfc]. *)

From Stdlib Require Import Ascii Strings.Byte.
From stdpp Require Import pretty.
From S2P Require Import Prelude Json JobModels Catalog MemberName Scrub Accumulator FanoutMap Profiles.

Inductive ReceiveError :=
  | NotUtf8
  | FileMissing
  | InvalidChecksumLine (line : nat)
  | InvalidSeparator (line : nat)
  | MissingChecksumPath (line : nat)
  | InvalidDigest (line : nat)
  | TruncatedEscape
  | UnsupportedEscape (token : string)
  | InvalidMemberName (component : string)
  | ParentComponent
  | EmptyRelativePath
  | AbsolutePayloadPath (value : string)
  | NotUnderData (value : string)
  | InvalidSha256 (relpath : string)
  | InvalidBagInfoLine (line : nat)
  | EmptyBagInfoLabel (line : nat)
  | NotUnderRoot
  | PayloadSymlink (relpath : string)
  | PayloadPackage (relpath : string)
  | PayloadVanished
  | UnsafePayloadPath (relpath : string)
  | InvalidJson
  | InvalidPackageIndex (what : string)
  | InvalidSourcePath
  | EntersPackage (value : string).

(** ** Characters *)

Definition is_continuation (c : ascii) : bool :=
  let n := nat_of_ascii c in ((128 <=? n) && (n <=? 191))%nat.

Definition starts_continuation (s : string) : bool :=
  match s with String c _ => is_continuation c | EmptyString => false end.

(** The characters of UTF-8 text, each as its bytes. *)
Fixpoint characters (s : string) : list string :=
  match s with
  | EmptyString => []
  | String c s =>
      match characters s with
      | t :: rest => if starts_continuation t then String c t :: rest else String c "" :: t :: rest
      | [] => [String c ""]
      end
  end.

Definition of_chars (l : list string) : string := foldr String.append "" l.

Definition char_of (l : list nat) : string := String.string_of_list_ascii (ascii_of_nat <$> l).

(** The line boundaries of [str.splitlines]; a carriage return and a line feed are one. *)
Definition CR : string := char_of [13]%nat.
Definition LF : string := char_of [10]%nat.

Definition line_breaks : list string :=
  [LF; CR; char_of [11]%nat; char_of [12]%nat; char_of [28]%nat; char_of [29]%nat; char_of [30]%nat;
   char_of [194; 133]%nat; char_of [226; 128; 168]%nat; char_of [226; 128; 169]%nat].

Definition is_break (c : string) : bool := bool_decide (c ∈ line_breaks).

Fixpoint split_lines (l : list string) : list (list string) :=
  match l with
  | [] => []
  | c :: l =>
      if is_break c then
        match l with
        | d :: l' => if bool_decide (c = CR) && bool_decide (d = LF) then [] :: split_lines l' else [] :: split_lines l
        | [] => [[]]
        end
      else match split_lines l with
           | [] => [[c]]
           | line :: rest => (c :: line) :: rest
           end
  end.

Definition splitlines (s : string) : list (list string) := split_lines (characters s).

(** [Path.read_text(encoding="utf-8").splitlines()] *)
Definition read_lines (content : bytes) : result ReceiveError (list (list string)) :=
  if utf8_decodes content then Ok (splitlines content) else Err NotUtf8.

(** The white space of [str.strip] and [str.isspace]. *)
Definition white_space : list string :=
  ((λ n, char_of [n]) <$> [9; 10; 11; 12; 13; 28; 29; 30; 31; 32]%nat) ++
  [char_of [194; 133]%nat; char_of [194; 160]%nat; char_of [225; 154; 128]%nat] ++
  ((λ n : nat, char_of [226%nat; 128%nat; n]) <$> [128; 129; 130; 131; 132; 133; 134; 135; 136; 137; 138; 168; 169; 175]%nat) ++
  [char_of [226; 129; 159]%nat; char_of [227; 128; 128]%nat].

Definition is_white (c : string) : bool := bool_decide (c ∈ white_space).

Fixpoint drop_white (l : list string) : list string :=
  match l with
  | c :: l' => if is_white c then drop_white l' else l
  | [] => []
  end.

Definition strip (l : list string) : list string := rev (drop_white (rev (drop_white l))).

(** ** The percent layer of BagIt *)

Fixpoint replace_char (c : ascii) (by_ s : string) : string :=
  match s with
  | EmptyString => ""
  | String d s => if Ascii.eqb d c then by_ +:+ replace_char c by_ s else String d (replace_char c by_ s)
  end.

Definition encode_bagit_path (path : string) : string :=
  replace_char "010" "%0A" (replace_char "013" "%0D" (replace_char "%" "%25" path)).

Definition upper_char (c : ascii) : ascii :=
  let n := nat_of_ascii c in if ((97 <=? n) && (n <=? 122))%nat then ascii_of_nat (n - 32) else c.

Fixpoint upper (s : string) : string :=
  match s with EmptyString => "" | String c s => String (upper_char c) (upper s) end.

Definition escape_value (token : string) : result ReceiveError string :=
  if decide (token = "25") then Ok "%"
  else if decide (token = "0D") then Ok CR
  else if decide (token = "0A") then Ok LF
  else Err (UnsupportedEscape token).

Fixpoint decode_bagit_path (l : list string) : result ReceiveError string :=
  match l with
  | [] => Ok ""
  | c :: l =>
      if decide (c = "%") then
        match l with
        | a :: b :: l =>
            v ← escape_value (upper (a +:+ b));
            rest ← decode_bagit_path l;
            Ok (v +:+ rest)
        | _ => Err TruncatedEscape
        end
      else
        rest ← decode_bagit_path l;
        Ok (c +:+ rest)
  end.

(** ** Canonical member paths *)

Definition DATA_DIR_NAME : string := "data".
Definition MANIFEST_NAME : string := "manifest-sha256.txt".
Definition BAG_INFO_NAME : string := "bag-info.txt".
Definition BAGIT_NAME : string := "bagit.txt".
Definition TAGMANIFEST_NAME : string := "tagmanifest-sha256.txt".
Definition PACKAGE_INDEX_NAME : string := "package-index.json".
Definition BAG_TAG_FILES : list string := [BAGIT_NAME; BAG_INFO_NAME; MANIFEST_NAME].
Definition BAGIT_TEXT : string :=
  "BagIt-Version: 1.0" +:+ LF +:+ "Tag-File-Character-Encoding: UTF-8" +:+ LF.

Definition to_raw (s : bytes) : raw_name := byte_of_ascii <$> String.list_ascii_of_string s.
Definition of_raw (l : raw_name) : string := String.string_of_list_ascii (ascii_of_byte <$> l).

Definition escape_text (raw : bytes) : string := of_raw (escape_member_name (to_raw raw)).
Definition unescape_text (s : string) : result MemberNameError bytes :=
  of_raw <$> unescape_member_name (to_raw s).

(** [PurePosixPath(s).parts] *)
Definition pure_parts (s : string) : list string :=
  (if decide (path_root s = "") then [] else [path_root s]) ++ path_parts s.

Definition is_absolute (s : string) : bool := bool_decide (path_root s ≠ "").

(** [PurePosixPath( *l).as_posix()] *)
Definition posix_join (a b : string) : string := if decide (a = "") then b else path_join a b.
Definition pure_path (l : list string) : string := path_str (foldl posix_join "" l).

Fixpoint strip_dot_slash (s : string) : string :=
  match s with
  | String c (String d rest) => if Ascii.eqb c "." && Ascii.eqb d "/" then strip_dot_slash rest else s
  | _ => s
  end.

Fixpoint lstrip_slash (s : string) : string :=
  match s with
  | String c rest => if Ascii.eqb c "/" then lstrip_slash rest else s
  | EmptyString => s
  end.

Definition DATA_PREFIX : string := DATA_DIR_NAME +:+ "/".

Definition is_sha256_hex (value : string) : bool :=
  (length (characters value) =? 64)%nat && bool_decide (is_Some (fromhex value)).

Section canonical.
Context (nfc : string → string).

Definition canonical_component_from_bytes (raw : bytes) : string :=
  if utf8_decodes raw then escape_text (nfc raw) else escape_text raw.

Definition canonical_component_from_fs (component : bytes) : string :=
  canonical_component_from_bytes component.

Definition canonical_component_from_manifest (component : string) : result ReceiveError string :=
  match unescape_text component with
  | Ok raw => Ok (canonical_component_from_bytes raw)
  | Err _ => Err (InvalidMemberName component)
  end.

Definition canonical_component (from_filesystem : bool) (component : string) : result ReceiveError string :=
  if from_filesystem then Ok (canonical_component_from_fs component)
  else canonical_component_from_manifest component.

Fixpoint canonical_components (from_filesystem : bool) (parts : list string)
    : result ReceiveError (list string) :=
  match parts with
  | [] => Ok []
  | part :: parts =>
      if decide (part = "" ∨ part = ".") then canonical_components from_filesystem parts
      else if decide (part = "..") then Err ParentComponent
      else
        c ← canonical_component from_filesystem part;
        rest ← canonical_components from_filesystem parts;
        Ok (c :: rest)
  end.

Definition canonicalize_parts (from_filesystem : bool) (parts : list string) : result ReceiveError string :=
  output ← canonical_components from_filesystem parts;
  match output with
  | [] => Err EmptyRelativePath
  | _ => Ok (pure_path output)
  end.

(** A path below the root is the list of its components below it. *)
Definition canonicalize_filesystem_path (relative : list string) : result ReceiveError string :=
  canonicalize_parts true relative.

Definition strip_data (s : string) : string := default s (strip_prefix DATA_PREFIX s).

Definition canonicalize_manifest_path (raw : string) : result ReceiveError string :=
  canonicalize_parts false (pure_parts (strip_data (lstrip_slash (strip_dot_slash raw)))).

(** ** Checksum manifests *)

Fixpoint manifest_lines (entries : dict string) : result ReceiveError (list string) :=
  match entries with
  | [] => Ok []
  | (relpath, value) :: entries =>
      let digest := lower value in
      _ ← raise_if (negb (is_sha256_hex digest)) (InvalidSha256 relpath);
      canonical ← canonicalize_manifest_path relpath;
      rest ← manifest_lines entries;
      Ok ((digest +:+ "  " +:+ encode_bagit_path (DATA_PREFIX +:+ canonical)) :: rest)
  end.

(** [LF.join(lines)], closed by a line feed unless there are no lines. *)
Definition lines_text (lines : list string) : string :=
  match lines with [] => "" | _ => join LF lines +:+ LF end.

Definition bagit_manifest_text (entries : dict string) : result ReceiveError string :=
  lines_text <$> manifest_lines (sort_by fst entries).

Definition is_blank (c : string) : bool := bool_decide (c = " " ∨ c = String "009" "").

Fixpoint drop_blanks (l : list string) : list string :=
  match l with
  | c :: l' => if is_blank c then drop_blanks l' else l
  | [] => []
  end.

Definition canonicalize_payload_manifest_path (decoded : string) : result ReceiveError string :=
  let value := strip_dot_slash decoded in
  _ ← raise_if (is_absolute value) (AbsolutePayloadPath decoded);
  _ ← raise_if (negb (bool_decide (is_Some (strip_prefix DATA_PREFIX value)))) (NotUnderData decoded);
  canonicalize_manifest_path value.

(** The key and the digest of line [n]. *)
Definition read_checksum_line (payload_manifest : bool) (n : nat) (line : list string)
    : result ReceiveError (string * string) :=
  _ ← raise_if (length line <? 66)%nat (InvalidChecksumLine n);
  let digest := lower (of_chars (take 64 line)) in
  _ ← raise_if (negb (default false (is_blank <$> (line !! 64%nat)))) (InvalidSeparator n);
  let encoded := drop_blanks (drop 64 line) in
  _ ← raise_if (bool_decide (encoded = [])) (MissingChecksumPath n);
  _ ← raise_if (negb (is_sha256_hex digest)) (InvalidDigest n);
  decoded ← decode_bagit_path encoded;
  if payload_manifest then
    relpath ← canonicalize_payload_manifest_path decoded;
    Ok (relpath, digest)
  else Ok (path_str decoded, digest).

Fixpoint read_checksum_lines (payload_manifest : bool) (n : nat) (lines : list (list string))
    (records : dict string) : result ReceiveError (dict string) :=
  match lines with
  | [] => Ok records
  | [] :: lines => read_checksum_lines payload_manifest (S n) lines records
  | line :: lines =>
      kv ← read_checksum_line payload_manifest n line;
      read_checksum_lines payload_manifest (S n) lines (dset kv.1 kv.2 records)
  end.

Definition read_checksum_manifest (payload_manifest : bool) (content : bytes)
    : result ReceiveError (dict string) :=
  lines ← read_lines content;
  read_checksum_lines payload_manifest 1 lines [].

Definition read_manifest_sha256 (content : bytes) : result ReceiveError (dict string) :=
  read_checksum_manifest true content.

(** ** The payload against its manifest *)

Fixpoint canonical_entries (entries : dict string) (acc : dict string) : result ReceiveError (dict string) :=
  match entries with
  | [] => Ok acc
  | (path, digest) :: entries =>
      key ← canonicalize_manifest_path path;
      canonical_entries entries (dset key (lower digest) acc)
  end.

Record Mismatch := {
  mi_missing : list string;
  mi_extra : list string;
  mi_mismatched : list (string * string * string);  (* path, expected, actual *)
}.

Definition mismatched_at (expected actual : dict string) (path : string) : option (string * string * string) :=
  e ← dget path expected; a ← dget path actual;
  if decide (a = e) then None else Some (path, e, a).

(** The dictionary that the code returns is read with [get(key, [])]: an absent key and an empty
    list are one value. *)
Definition manifest_mismatch (actual expected : dict string) : result ReceiveError Mismatch :=
  actual_canonical ← canonical_entries actual [];
  expected_canonical ← canonical_entries expected [];
  if decide (expected_canonical = []) then
    Ok {| mi_missing := []; mi_extra := sort_by id (dkeys actual_canonical); mi_mismatched := [] |}
  else Ok {|
    mi_missing := sort_by id (filter (λ p, p ∉ dkeys actual_canonical) (dkeys expected_canonical));
    mi_extra := sort_by id (filter (λ p, p ∉ dkeys expected_canonical) (dkeys actual_canonical));
    mi_mismatched := omap (mismatched_at expected_canonical actual_canonical)
      (sort_by id (filter (λ p, p ∈ dkeys expected_canonical) (dkeys actual_canonical))) |}.

End canonical.

(** ** Bag metadata *)

Definition RECEIVE_VERSION : string := "receive-v2".
Definition CANONICALIZATION_VERSION : string := "receive-bagit-path-v2".
Definition PACKAGE_PROFILE_VERSION : string := "package-tar-v1".

Definition bag_info_value (value : string) : string :=
  replace_char "010" " " (replace_char "013" " " value).

Definition bag_info_order : list string :=
  ["Bagging-Date"; "Payload-Oxum"; "Bag-Software-Agent"; "Receive-Package"; "Intake-Id"; "Operator";
   "Source-Kind"; "Source-Ref"; "Artifactclass"; "Label"; "Canonicalization-Version";
   "Package-Profile-Version"; "Package-Profile-Hash"; "Skipped-Count"].

Definition bag_info_line (metadata : dict string) (key : string) : option string :=
  v ← dget key metadata; Some (key +:+ ": " +:+ bag_info_value v).

Definition bag_info_keys (metadata : dict string) : list string :=
  bag_info_order ++ sort_by id (filter (λ key, key ∉ bag_info_order) (dkeys metadata)).

Definition bag_info_text (metadata : dict string) : string :=
  join LF (omap (bag_info_line metadata) (bag_info_keys metadata)) +:+ LF.

(** What [bag_info_metadata] is given; [bi_date] is [started_at.date().isoformat()]. *)
Record BagInfo := {
  bi_date : string;
  bi_intake_id : string;
  bi_source_kind : string;
  bi_operator : string;
  bi_source_ref : option string;
  bi_artifactclass : string;
  bi_label : option string;
  bi_file_count : nat;
  bi_total_bytes : Z;
  bi_skipped_count : nat;
}.

Definition oxum (total_bytes : Z) (file_count : nat) : string :=
  pretty total_bytes +:+ "." +:+ pretty (Z.of_nat file_count).

Definition bag_info_metadata (receive_package package_profile_hash : string) (b : BagInfo) : dict string :=
  [("Bagging-Date", bi_date b); ("Payload-Oxum", oxum (bi_total_bytes b) (bi_file_count b));
   ("Bag-Software-Agent", "sutradhara-receive/" +:+ RECEIVE_VERSION); ("Receive-Package", receive_package);
   ("Intake-Id", bi_intake_id b); ("Operator", bi_operator b); ("Source-Kind", bi_source_kind b);
   ("Source-Ref", default "" (bi_source_ref b)); ("Artifactclass", bi_artifactclass b);
   ("Label", default "" (bi_label b)); ("Canonicalization-Version", CANONICALIZATION_VERSION);
   ("Package-Profile-Version", PACKAGE_PROFILE_VERSION); ("Package-Profile-Hash", package_profile_hash);
   ("Skipped-Count", pretty (Z.of_nat (bi_skipped_count b)))].

(** [line.split(":", 1)], where the line has a colon. *)
Fixpoint split_colon (l : list string) : option (list string * list string) :=
  match l with
  | [] => None
  | c :: l => if decide (c = ":") then Some ([], l) else (λ kv, (c :: kv.1, kv.2)) <$> split_colon l
  end.

(** [read_bag_info] from line [n] on; [current] is [current_key]. *)
Fixpoint read_info_lines (n : nat) (lines : list (list string)) (current : option string)
    (acc : dict string) : result ReceiveError (dict string) :=
  match lines with
  | [] => Ok acc
  | [] :: lines => read_info_lines (S n) lines current acc
  | (c :: line) :: lines =>
      match is_white c, current with
      | true, Some key =>
          let folded := default "" (dget key acc) +:+ LF +:+ of_chars (strip (c :: line)) in
          read_info_lines (S n) lines current (dset key folded acc)
      | _, _ =>
          match split_colon (c :: line) with
          | None => Err (InvalidBagInfoLine n)
          | Some (key, value) =>
              let key := of_chars (strip key) in
              if decide (key = "") then Err (EmptyBagInfoLabel n)
              else read_info_lines (S n) lines (Some key) (dset key (of_chars (strip value)) acc)
          end
      end
  end.

Definition read_bag_info (content : bytes) : result ReceiveError (dict string) :=
  lines ← read_lines content;
  read_info_lines 1 lines None [].

(** ** Paths on the wire *)

Definition MAX_DEVICE_REL_PATH : nat := 1024.

Definition PACKAGE_SUFFIXES : list string := [".fcpbundle"; ".photoslibrary"; ".imovielibrary"; ".app"].

(** [_is_package_boundary]: every glob of [PACKAGE_GLOBS] is a star and a suffix, so it matches the
    names that end with the suffix. *)
Definition is_package_boundary (casefold : string → string) (relpath : string) : bool :=
  existsb (λ suffix, endswith suffix (casefold (posix_name relpath)) || endswith suffix (casefold (path_str relpath)))
    PACKAGE_SUFFIXES.

Definition has_drive_prefix (s : string) : bool :=
  match s with
  | String c (String ":" _) =>
      let n := nat_of_ascii c in ((65 <=? n) && (n <=? 90) || (97 <=? n) && (n <=? 122))%nat
  | _ => false
  end.

Definition special_part (part : string) : bool := bool_decide (part ∈ [""; "."; ".."]).

(** [posixpath.normpath] of a relative path; [comps] is the stack of kept components. *)
Fixpoint norm_components (comps parts : list string) : list string :=
  match parts with
  | [] => rev comps
  | part :: parts =>
      if decide (part = "" ∨ part = ".") then norm_components comps parts
      else match part, comps with
           | "..", [] => norm_components [".."] parts
           | "..", ".." :: _ => norm_components (".." :: comps) parts
           | "..", _ :: comps => norm_components comps parts
           | _, _ => norm_components (part :: comps) parts
           end
  end.

Definition normpath (s : string) : string :=
  match norm_components [] (split_on "/" s) with [] => "." | comps => join "/" comps end.

Definition canonical_device_rel_path (casefold : string → string) (value : option string)
    : result ReceiveError string :=
  match value with
  | None | Some "" => Ok ""
  | Some v =>
      _ ← raise_if (MAX_DEVICE_REL_PATH <? length (characters v))%nat InvalidSourcePath;
      _ ← raise_if (negb (lacks "\" v)) InvalidSourcePath;
      _ ← raise_if (bool_decide (is_Some (strip_prefix "/" v))) InvalidSourcePath;
      _ ← raise_if (has_drive_prefix v) InvalidSourcePath;
      let parts := split_on "/" v in
      _ ← raise_if (existsb special_part parts) InvalidSourcePath;
      _ ← raise_if (negb (bool_decide (normpath v = v))) InvalidSourcePath;
      _ ← raise_if (existsb (is_package_boundary casefold) (removelast parts)) (EntersPackage v);
      Ok v
  end.

(** [_is_safe_bag_relative_path] *)
Definition is_safe_bag_relative_path (relpath : string) : bool :=
  negb (bool_decide (pure_parts relpath = [])) && negb (is_absolute relpath) &&
  negb (existsb special_part (pure_parts relpath)).
