(* ===== verification/Bag.v ===== *)
(** * Bags on disk

    The validation of an intake bag and the re-read of a landed one ([validate_bag],
    [verify_destination], [verify_pending] of [sutradhara_receive/core.py]), over the file system of
    [RetentionFs]: regular files, directories and symbolic links.  The file system does not change
    while one of these functions reads it, so the [lstat] of a listed entry is the entry itself. *)

From Stdlib Require Import Ascii Strings.Byte.
From stdpp Require Import pretty.
From S2P Require Import Prelude Json JobModels Catalog MemberName Scrub Accumulator FanoutMap Profiles.
From S2P Require Import RetentionFs BagIt.

(** The fields of [FileReceipt] that validation reads and writes. *)
Record FileReceipt := {
  fr_relpath : string;
  fr_sha256_hex : string;
  fr_size_bytes : Z;
  fr_logical_relpath : option string;
  fr_stored_relpath : option string;
  fr_package_profile : option string;
}.

Definition plain_receipt (relpath digest : string) (size : Z) : FileReceipt := {|
  fr_relpath := relpath; fr_sha256_hex := digest; fr_size_bytes := size;
  fr_logical_relpath := None; fr_stored_relpath := None; fr_package_profile := None |}.

Definition as_received_relpath (r : FileReceipt) : string := default (fr_relpath r) (fr_logical_relpath r).

Inductive BagError :=
  | MissingDataDirectory
  | CannotHashPayload (e : ReceiveError)
  | CannotReadManifest (e : ReceiveError)
  | CannotReadBagInfo (e : ReceiveError)
  | CannotReadPackageIndex (e : ReceiveError)
  | OxumMismatch (expected : string) (actual : option string)
  | ReceivePackageMismatch (actual : option string)
  | CanonicalizationMismatch (actual : option string)
  | ProfileVersionMismatch (actual : option string)
  | ProfileHashMismatch (actual : option string).

(** [error.startswith("complete:")] *)
Definition is_complete_error (e : BagError) : bool :=
  match e with
  | MissingDataDirectory | CannotHashPayload _ | CannotReadManifest _ => true
  | _ => false
  end.

Inductive TagMismatch :=
  | TagManifestUnreadable (e : ReceiveError)
  | TagNotListed (relpath : string)
  | TagUnsafePath (relpath expected : string)
  | TagMissing (relpath expected : string)
  | TagDiffers (relpath expected actual : string).

Record BagValidationResult := {
  bv_metadata : dict string;
  bv_manifest : dict string;
  bv_actual : dict string;
  bv_actual_records : list FileReceipt;
  bv_missing : list string;
  bv_extra : list string;
  bv_mismatched : list (string * string * string);
  bv_tag_mismatched : list TagMismatch;
  bv_errors : list BagError;
}.

Definition is_nil {A} (l : list A) : bool := match l with [] => true | _ => false end.

Definition complete (v : BagValidationResult) : bool :=
  is_nil (bv_missing v) && is_nil (bv_extra v) && negb (existsb is_complete_error (bv_errors v)).

Definition valid (v : BagValidationResult) : bool :=
  complete v && is_nil (bv_mismatched v) && is_nil (bv_tag_mismatched v) && is_nil (bv_errors v).

(** ** Reading the disk *)

Definition read_file (fs : Fs) (p : path) : result ReceiveError bytes :=
  match stat fs p with Ok (NFile content) => Ok content | _ => Err FileMissing end.

(** [sorted(root.rglob("*"))]: what lies below the directory, with the components below it. *)
Definition below (root : path) (pn : path * Node) : option (path * Node) :=
  if under root pn.1 && negb (bool_decide (pn.1 = root)) then Some (drop (length root) pn.1, pn.2) else None.

Definition rglob (fs : Fs) (root : path) : list (path * Node) :=
  match resolve fs false root with
  | Ok r => sort_by fst (omap (below r) (map_to_list fs))
  | Err _ => []
  end.

Definition receipts_dict (records : list FileReceipt) : dict string :=
  foldl (λ d r, dset (fr_relpath r) (fr_sha256_hex r) d) [] records.

Definition total_size (records : list FileReceipt) : Z := foldr (λ r n, fr_size_bytes r + n) 0 records.

Section bag.
Context (nfc casefold : string → string) (sha256_hex : bytes → string).
Context (json_loads : bytes → option json) (json_str : json → string).
Context (receive_package package_profile_hash : string).

Local Abbreviation canonicalize_manifest_path := (canonicalize_manifest_path nfc).

(** The first loop of [hash_payload_tree]: the regular files, or the first entry it refuses. *)
Fixpoint payload_files (reject_native_packages : bool) (entries : list (path * Node))
    : result ReceiveError (list (string * bytes)) :=
  match entries with
  | [] => Ok []
  | (rel, node) :: entries =>
      relpath ← canonicalize_filesystem_path nfc rel;
      match node with
      | NDir =>
          _ ← raise_if (reject_native_packages && is_package_boundary casefold relpath) (PayloadPackage relpath);
          payload_files reject_native_packages entries
      | NLink _ => Err (PayloadSymlink relpath)
      | NFile content =>
          rest ← payload_files reject_native_packages entries;
          Ok ((relpath, content) :: rest)
      end
  end.

Definition hash_payload_tree (fs : Fs) (root : path) (reject_native_packages : bool)
    : result ReceiveError (list FileReceipt) :=
  files ← payload_files reject_native_packages (rglob fs root);
  Ok (map (λ f, plain_receipt f.1 (sha256_hex f.2) (Z.of_nat (String.length f.2))) files).

(** ** The package index *)

Definition text_of (j : json) : string := match j with JStr s => s | _ => json_str j end.

Definition read_json (fs : Fs) (p : path) : result ReceiveError (dict json) :=
  content ← read_file fs p;
  match json_loads content with
  | Some (JObj d) => Ok d
  | Some _ => Err (InvalidPackageIndex "root is not an object")
  | None => Err InvalidJson
  end.

Definition required (key : string) (d : dict json) : result ReceiveError json :=
  match dget key d with Some j => Ok j | None => Err (InvalidPackageIndex key) end.

Definition check_package (j : json) : result ReceiveError unit :=
  match j with
  | JObj d =>
      logical ← required "logical_member_path" d;
      stored ← required "stored_member_path" d;
      sha ← required "sha256" d;
      members ← required "members" d;
      _ ← canonicalize_manifest_path (text_of logical);
      _ ← canonicalize_manifest_path (text_of stored);
      _ ← raise_if (negb (is_sha256_hex (text_of sha))) (InvalidPackageIndex "sha256");
      match members with JList _ => Ok tt | _ => Err (InvalidPackageIndex "members") end
  | _ => Err (InvalidPackageIndex "package entries must be objects")
  end.

Fixpoint check_packages (l : list json) : result ReceiveError unit :=
  match l with [] => Ok tt | j :: l => _ ← check_package j; check_packages l end.

Definition string_is (o : option json) (s : string) : bool :=
  match o with Some (JStr t) => bool_decide (t = s) | _ => false end.

Definition read_package_index (fs : Fs) (p : path) : result ReceiveError (dict json) :=
  payload ← read_json fs p;
  _ ← raise_if (negb (string_is (dget "profile" payload) PACKAGE_PROFILE_VERSION))
        (InvalidPackageIndex "profile");
  _ ← raise_if (negb (string_is (dget "profile_hash" payload) package_profile_hash))
        (InvalidPackageIndex "profile_hash");
  match dget "packages" payload with
  | Some (JList packages) => _ ← check_packages packages; Ok payload
  | _ => Err (InvalidPackageIndex "packages must be a list")
  end.

Fixpoint packages_by_stored (l : list json) (acc : dict (dict json)) : result ReceiveError (dict (dict json)) :=
  match l with
  | [] => Ok acc
  | j :: l =>
      let entry := as_obj (Some j) in
      stored ← required "stored_member_path" entry;
      key ← canonicalize_manifest_path (text_of stored);
      _ ← raise_if (bool_decide (key ∈ dkeys acc)) (InvalidPackageIndex "duplicates stored member");
      packages_by_stored l (dset key entry acc)
  end.

(** [str(entry.get("sha256"))] *)
Definition entry_text (o : option json) : string := text_of (default JNull o).

Definition annotate_record (by_stored : dict (dict json)) (r : FileReceipt) : result ReceiveError FileReceipt :=
  match dget (fr_relpath r) by_stored with
  | None => Ok r
  | Some entry =>
      _ ← raise_if (negb (bool_decide (entry_text (dget "sha256" entry) = fr_sha256_hex r)))
            (InvalidPackageIndex "sha256 mismatch");
      _ ← raise_if (negb (string_is (dget "profile" entry) PACKAGE_PROFILE_VERSION))
            (InvalidPackageIndex "profile mismatch");
      logical ← required "logical_member_path" entry;
      name ← canonicalize_manifest_path (text_of logical);
      Ok {| fr_relpath := fr_relpath r; fr_sha256_hex := fr_sha256_hex r; fr_size_bytes := fr_size_bytes r;
            fr_logical_relpath := Some name; fr_stored_relpath := Some (fr_relpath r);
            fr_package_profile := Some PACKAGE_PROFILE_VERSION |}
  end.

Fixpoint annotate_records (by_stored : dict (dict json)) (l : list FileReceipt)
    : result ReceiveError (list FileReceipt) :=
  match l with
  | [] => Ok []
  | r :: l =>
      a ← annotate_record by_stored r;
      rest ← annotate_records by_stored l;
      Ok (a :: rest)
  end.

Definition annotate_package_records (records : list FileReceipt) (package_index : dict json)
    : result ReceiveError (list FileReceipt) :=
  by_stored ← packages_by_stored (as_list (dget "packages" package_index)) [];
  annotated ← annotate_records by_stored records;
  _ ← raise_if (negb (forallb (λ key, bool_decide (key ∈ fr_relpath <$> records)) (dkeys by_stored)))
        (InvalidPackageIndex "references missing payloads");
  Ok annotated.

(** ** The tag manifest *)

(** [root / relpath] for a safe relative path *)
Definition tag_path (root : path) (relpath : string) : path := root ++ path_parts relpath.

Fixpoint tag_lines (fs : Fs) (root : path) (tag_files : list string) : result ReceiveError (list string) :=
  match tag_files with
  | [] => Ok []
  | relpath :: tag_files =>
      content ← read_file fs (tag_path root relpath);
      rest ← tag_lines fs root tag_files;
      Ok ((sha256_hex content +:+ "  " +:+ encode_bagit_path relpath) :: rest)
  end.

Definition tagmanifest_text (fs : Fs) (root : path) (tag_files : list string) : result ReceiveError string :=
  lines ← tag_lines fs root (sort_by id tag_files);
  Ok (lines_text lines).

Definition verify_tag (fs : Fs) (root : path) (kv : string * string) : option TagMismatch :=
  let '(relpath, expected) := kv in
  if negb (is_safe_bag_relative_path relpath) then Some (TagUnsafePath relpath expected)
  else match read_file fs (tag_path root relpath) with
       | Err _ => Some (TagMissing relpath expected)
       | Ok content =>
           if decide (sha256_hex content = expected) then None
           else Some (TagDiffers relpath expected (sha256_hex content))
       end.

Definition verify_tagmanifest (fs : Fs) (root : path) (required_tag_files : list string) : list TagMismatch :=
  match (content ← read_file fs (root ++ [TAGMANIFEST_NAME]); read_checksum_manifest nfc false content) with
  | Err e => [TagManifestUnreadable e]
  | Ok expected =>
      (TagNotListed <$> filter (λ relpath, relpath ∉ dkeys expected) (BAG_TAG_FILES ++ required_tag_files)) ++
      omap (verify_tag fs root) (sort_by fst expected)
  end.

(** ** Validation *)

Definition payload_records (fs : Fs) (data_root : path) : list FileReceipt * list BagError :=
  if negb (is_dir fs data_root) then ([], [MissingDataDirectory])
  else match hash_payload_tree fs data_root true with
       | Ok records => (records, [])
       | Err e => ([], [CannotHashPayload e])
       end.

Definition manifest_of (fs : Fs) (root : path) : dict string * list BagError :=
  match (content ← read_file fs (root ++ [MANIFEST_NAME]); read_manifest_sha256 nfc content) with
  | Ok manifest => (manifest, [])
  | Err e => ([], [CannotReadManifest e])
  end.

Definition metadata_of (fs : Fs) (root : path) : dict string * list BagError :=
  match (content ← read_file fs (root ++ [BAG_INFO_NAME]); read_bag_info content) with
  | Ok metadata => (metadata, [])
  | Err e => ([], [CannotReadBagInfo e])
  end.

(** The package index is read when it exists; its errors leave the records as they were. *)
Definition indexed_records (fs : Fs) (root : path) (records : list FileReceipt)
    : list FileReceipt * list BagError :=
  let p := root ++ [PACKAGE_INDEX_NAME] in
  if path_exists fs p then
    match (index ← read_package_index fs p; annotate_package_records records index) with
    | Ok annotated => (annotated, [])
    | Err e => (records, [CannotReadPackageIndex e])
    end
  else (records, []).

Definition one_of (actual : option string) (required_ : bool) (value : string) : bool :=
  match actual with Some v => bool_decide (v = value) | None => negb required_ end.

Definition error_if (b : bool) (e : BagError) : list BagError := if b then [e] else [].

(** The metadata checks, made when the metadata is not empty. *)
Definition metadata_errors (metadata : dict string) (records : list FileReceipt) (has_index : bool)
    : list BagError :=
  match metadata with
  | [] => []
  | _ =>
      let expected := oxum (total_size records) (length records) in
      error_if (negb (bool_decide (dget "Payload-Oxum" metadata = Some expected)))
        (OxumMismatch expected (dget "Payload-Oxum" metadata)) ++
      error_if (negb (bool_decide (dget "Receive-Package" metadata = Some receive_package)))
        (ReceivePackageMismatch (dget "Receive-Package" metadata)) ++
      error_if (negb (bool_decide (dget "Canonicalization-Version" metadata = Some CANONICALIZATION_VERSION)))
        (CanonicalizationMismatch (dget "Canonicalization-Version" metadata)) ++
      error_if (negb (one_of (dget "Package-Profile-Version" metadata) has_index PACKAGE_PROFILE_VERSION))
        (ProfileVersionMismatch (dget "Package-Profile-Version" metadata)) ++
      error_if (negb (one_of (dget "Package-Profile-Hash" metadata) has_index package_profile_hash))
        (ProfileHashMismatch (dget "Package-Profile-Hash" metadata))
  end.

Definition validate_bag (fs : Fs) (root : path) : result ReceiveError BagValidationResult :=
  let '(hashed, hash_errors) := payload_records fs (root ++ [DATA_DIR_NAME]) in
  let '(manifest, manifest_errors) := manifest_of fs root in
  let '(metadata, info_errors) := metadata_of fs root in
  let '(records, index_errors) := indexed_records fs root hashed in
  let has_index := path_exists fs (root ++ [PACKAGE_INDEX_NAME]) in
  let actual := receipts_dict records in
  mismatch ← manifest_mismatch nfc actual manifest;
  Ok {| bv_metadata := metadata; bv_manifest := manifest; bv_actual := actual; bv_actual_records := records;
        bv_missing := mi_missing mismatch; bv_extra := mi_extra mismatch;
        bv_mismatched := mi_mismatched mismatch;
        bv_tag_mismatched := verify_tagmanifest fs root (if has_index then [PACKAGE_INDEX_NAME] else []);
        bv_errors := hash_errors ++ manifest_errors ++ info_errors ++ index_errors ++
                     metadata_errors metadata records has_index |}.

(** ** Writing the tag files *)

(** [_atomic_write_bytes] in an existing directory: the temporary file replaces what has the name,
    unless that is a directory. *)
Definition atomic_write (fs : Fs) (dir : path) (name : string) (content : bytes) : result ReceiveError Fs :=
  match resolve fs false dir with
  | Ok d =>
      match node_at fs d, fs !! (d ++ [name]) with
      | Some NDir, Some NDir => Err FileMissing
      | Some NDir, _ => Ok (<[d ++ [name] := NFile content]> fs)
      | _, _ => Err FileMissing
      end
  | Err _ => Err FileMissing
  end.

Definition write_bagit_files (fs : Fs) (root : path) (entries metadata : dict string)
    (extra_tag_files : list string) : result ReceiveError Fs :=
  fs ← atomic_write fs root BAGIT_NAME BAGIT_TEXT;
  fs ← atomic_write fs root BAG_INFO_NAME (bag_info_text metadata);
  manifest ← bagit_manifest_text nfc entries;
  fs ← atomic_write fs root MANIFEST_NAME manifest;
  tags ← tagmanifest_text fs root (BAG_TAG_FILES ++ extra_tag_files);
  atomic_write fs root TAGMANIFEST_NAME tags.

End bag.
