(* ===== verification/Receive.v ===== *)
(** * Receiving a source tree into a landing intake

    [receive_source] of [sutradhara_receive/core.py] on the path without the compiled extension: the
    scan of the source, the collision check, the copy of each file under its canonical path with the
    resume rules, pruning, the package index, the tag files, destination verification, the sentinel and
    the log; with [safe_payload_path], [verify_destination] and [verify_pending].

    The source can change while it is read: [source_read n p] is what the [n]-th read of [p] sees, the
    stat before it, the bytes and the stat after it.  [package_tar] is [_build_package_tar] between the
    two stats of the package directory; its bytes are those of [tarfile].  [dumps] is [json.dumps(indent=2, sort_keys=True)] with its line feed
    and [log_text] the time-stamped lines of the receive log. *)

From Stdlib Require Import Ascii Strings.Byte.
From stdpp Require Import pretty.
From S2P Require Import Prelude Json JobModels Catalog MemberName Scrub Accumulator FanoutMap Profiles.
From S2P Require Import Retention RetentionFs BagIt Bag.

Inductive ReceiveFault :=
  | Refused (e : ReceiveError)                                     (* ReceiveError *)
  | OsFault                                                        (* OSError, ValueError *)
  | SourceRequired
  | AlreadyComplete
  | SourceMissing                                                  (* FileNotFoundError *)
  | SourceNotDirectory
  | SourceInsidePayload
  | LandingInsideSource
  | NoUniqueId
  | Collision (first second : path)                                (* CollisionError *)
  | SourceMutated (p : path)                                       (* SourceMutationError *)
  | DestinationUnsupported (p : path)
  | StageUnhashable                                                (* TypeError *)
  | DestinationUnverified (mismatches : list (string * option string * option string)).

(** [except ReceiveError]: every fault of the package's own classes. *)
Definition is_receive_error (f : ReceiveFault) : bool :=
  match f with
  | OsFault | SourceMissing | StageUnhashable => false
  | Refused (NotUtf8 | FileMissing | InvalidJson) => false
  | _ => true
  end.

Record StatSnapshot := { ss_size : Z; ss_mtime_ns : Z; ss_inode : Z; ss_device : Z }.

#[export] Instance StatSnapshot_eq_dec : EqDecision StatSnapshot.
Proof. solve_decision. Defined.

Inductive EntryType := FileEntry | PackageEntry.

#[export] Instance EntryType_eq_dec : EqDecision EntryType.
Proof. solve_decision. Defined.

Record SourceEntry := {
  se_source_path : path;
  se_relpath : string;
  se_entry_type : EntryType;
  se_logical_relpath : option string;
}.

(** What a receive has done: the disk, the number of source reads and the log events. *)
Record Receiving := { rx_fs : Fs; rx_reads : nat; rx_events : list string }.

Definition Recv (A : Type) : Type := Receiving → Receiving * result ReceiveFault A.

#[export] Instance Recv_ret : MRet Recv := λ A a s, (s, Ok a).
#[export] Instance Recv_bind : MBind Recv := λ A B f m s,
  match m s with (s', Ok a) => f a s' | (s', Err e) => (s', Err e) end.

Definition refuse {A} (e : ReceiveFault) : Recv A := λ s, (s, Err e).
Definition lift {A} (r : result ReceiveFault A) : Recv A := λ s, (s, r).
Definition guard_ (b : bool) (e : ReceiveFault) : Recv unit := if b then refuse e else mret tt.
Definition disk : Recv Fs := λ s, (s, Ok (rx_fs s)).
Definition set_disk (fs : Fs) : Recv unit := λ s,
  ({| rx_fs := fs; rx_reads := rx_reads s; rx_events := rx_events s |}, Ok tt).
Definition event (e : string) : Recv unit := λ s,
  ({| rx_fs := rx_fs s; rx_reads := rx_reads s; rx_events := rx_events s ++ [e] |}, Ok tt).

Definition refused {A} (r : result ReceiveError A) : result ReceiveFault A :=
  match r with Ok a => Ok a | Err FileMissing => Err OsFault | Err e => Err (Refused e) end.

(** ** The payload path of a receipt *)

Definition is_symlink (fs : Fs) (p : path) : bool :=
  match lstat fs p with Ok (NLink _) => true | _ => false end.

(** The directories above the destination: the loop of [safe_payload_path]. *)
Fixpoint check_payload_dirs (fs : Fs) (current todo : path) : result ReceiveError unit :=
  match todo with
  | [] => Ok tt
  | part :: todo =>
      let current := current ++ [part] in
      _ ← raise_if (path_exists fs current && is_symlink fs current) (PayloadSymlink part);
      _ ← raise_if (path_exists fs current && negb (is_dir fs current)) (UnsafePayloadPath part);
      check_payload_dirs fs current todo
  end.

Definition os_result {A} (r : result PathError A) : result ReceiveError A :=
  match r with Ok a => Ok a | Err _ => Err FileMissing end.

Definition safe_payload_path (fs : Fs) (payload_root : path) (relpath : string) : result ReceiveError path :=
  root ← os_result (resolve fs true payload_root);
  let parts := pure_parts relpath in
  _ ← raise_if (is_absolute relpath || existsb special_part parts) (UnsafePayloadPath relpath);
  _ ← check_payload_dirs fs root (removelast parts);
  let final := root ++ parts in
  _ ← raise_if (path_exists fs final && is_symlink fs final) (PayloadSymlink relpath);
  resolved ← os_result (resolve fs true final);
  _ ← raise_if (negb (under root resolved)) (UnsafePayloadPath relpath);
  Ok final.

(** ** The scan of the source *)

Definition path_base (p : path) : string := default "" (last p).

Record Scan := { sc_regulars : list SourceEntry; sc_rejected : list (string * path * string) }.

Definition file_entry (p : path) (relpath : string) : SourceEntry :=
  {| se_source_path := p; se_relpath := relpath; se_entry_type := FileEntry; se_logical_relpath := None |}.

Definition package_entry (p : path) (relpath : string) : SourceEntry :=
  {| se_source_path := p; se_relpath := relpath +:+ ".tar"; se_entry_type := PackageEntry;
     se_logical_relpath := Some relpath |}.

Section receive.
Context (nfc casefold : string → string) (sha256_hex : bytes → string).
Context (json_loads : bytes → option json) (json_str : json → string) (dumps : json → bytes).
Context (log_text : list string → bytes) (isoformat : Z → string).
Context (source_read : nat → path → StatSnapshot * bytes * StatSnapshot).
Context (package_tar : Fs → path → string → result ReceiveFault (bytes * list json)).
Context (receive_package package_profile_hash : string).

Local Abbreviation is_package := (is_package_boundary casefold).

(** [os.walk] does not enter a package: the entries below one are those with a proper ancestor, below
    the source root, that is a package directory. *)
Definition inside_package (rel : path) : bool :=
  existsb (λ n, match canonicalize_filesystem_path nfc (take n rel) with
                | Ok p => is_package p | Err _ => false end) (seq 1 (length rel - 1)).

(** The entries of the walk in the order of their paths; the order of [os.walk] only decides that of
    the rejected entries, since the regular ones are sorted. *)
Fixpoint scan_entries (fs : Fs) (source_root : path) (entries : list (path * Node)) : result ReceiveFault Scan :=
  match entries with
  | [] => Ok {| sc_regulars := []; sc_rejected := [] |}
  | (rel, node) :: entries =>
      if inside_package rel then scan_entries fs source_root entries
      else
        relpath ← refused (canonicalize_filesystem_path nfc rel);
        rest ← scan_entries fs source_root entries;
        let p := source_root ++ rel in
        Ok match node with
           | NLink _ => {| sc_regulars := sc_regulars rest; sc_rejected := 
                        (relpath, p, if is_dir fs p then "symlink-directory" else "symlink") :: sc_rejected rest |}
           | NDir => if is_package relpath
                     then {| sc_regulars := package_entry p relpath :: sc_regulars rest; sc_rejected := sc_rejected rest |}
                     else rest
           | NFile _ => {| sc_regulars := file_entry p relpath :: sc_regulars rest; sc_rejected := sc_rejected rest |}
           end
  end.

Definition scan_source (fs : Fs) (source_root : path) : result ReceiveFault Scan :=
  if is_package (path_base source_root) then
    Ok {| sc_regulars := [package_entry source_root (path_base source_root)]; sc_rejected := [] |}
  else
    scan ← scan_entries fs source_root (rglob fs source_root);
    Ok {| sc_regulars := sort_by se_relpath (sc_regulars scan); sc_rejected := sc_rejected scan |}.

(** [seen] is the dictionary from the folded path to the last entry with it. *)
Fixpoint check_collisions (seen : dict SourceEntry) (entries : list SourceEntry) : result ReceiveFault unit :=
  match entries with
  | [] => Ok tt
  | entry :: entries =>
      let key := casefold (se_relpath entry) in
      match dget key seen with
      | Some prior =>
          if decide (se_source_path prior = se_source_path entry) then check_collisions (dset key entry seen) entries
          else Err (Collision (se_source_path prior) (se_source_path entry))
      | None => check_collisions (dset key entry seen) entries
      end
  end.

(** ** Copying *)

Definition read_source (p : path) : Recv (StatSnapshot * bytes * StatSnapshot) := λ s,
  ({| rx_fs := rx_fs s; rx_reads := S (rx_reads s); rx_events := rx_events s |}, Ok (source_read (rx_reads s) p)).

(** [_hash_source_with_stat_guard] *)
Definition hash_source (p : path) : Recv (string * StatSnapshot) :=
  r ← read_source p;
  let '(before, content, after) := r in
  _ ← guard_ (negb (bool_decide (before = after))) (SourceMutated p);
  mret (sha256_hex content, after).

Definition write_file (dir : path) (name : string) (content : bytes) : Recv unit :=
  fs ← disk;
  fs' ← lift (refused (atomic_write fs dir name content));
  set_disk fs'.

(** [path.mkdir(parents=True, exist_ok=True)] of a resolved path *)
Definition mkdirs (p : path) : Recv unit :=
  fs ← disk;
  match make_dirs fs [] p with Ok fs' => set_disk fs' | Err _ => refuse OsFault end.

(** [path.unlink()] under [suppress(FileNotFoundError)] *)
Definition unlink (p : path) : Recv unit :=
  fs ← disk;
  match fs !! p with Some NDir => refuse OsFault | _ => set_disk (delete p fs) end.

Definition copy_source (source destination : path) : Recv (string * StatSnapshot) :=
  _ ← mkdirs (removelast destination);
  r ← read_source source;
  let '(before, content, after) := r in
  _ ← guard_ (negb (bool_decide (before = after))) (SourceMutated source);
  _ ← write_file (removelast destination) (path_base destination) content;
  mret (sha256_hex content, after).

Definition receipt (entry : SourceEntry) (digest : string) (size : Z) : FileReceipt := {|
  fr_relpath := se_relpath entry; fr_sha256_hex := digest; fr_size_bytes := size;
  fr_logical_relpath := se_logical_relpath entry;
  fr_stored_relpath := match se_entry_type entry with FileEntry => None | PackageEntry => Some (se_relpath entry) end;
  fr_package_profile := match se_entry_type entry with FileEntry => None | PackageEntry => Some PACKAGE_PROFILE_VERSION end |}.

(** The digest of an existing destination, refused unless it is a regular file. *)
Definition existing_digest (destination : path) : Recv (option string) :=
  fs ← disk;
  match lstat fs destination with
  | Err ENOENT => mret None
  | Err _ => refuse OsFault
  | Ok (NFile content) => mret (Some (sha256_hex content))
  | Ok _ => refuse (DestinationUnsupported destination)
  end.

Definition copy_or_verify_file_entry (payload_root : path) (entry : SourceEntry) : Recv FileReceipt :=
  fs ← disk;
  destination ← lift (refused (safe_payload_path fs payload_root (se_relpath entry)));
  hashed ← hash_source (se_source_path entry);
  existing ← existing_digest destination;
  match existing with
  | Some digest =>
      if decide (digest = hashed.1) then
        _ ← event ("resume kept verified " +:+ se_relpath entry);
        mret (receipt entry hashed.1 (ss_size hashed.2))
      else
        _ ← event ("resume replacing mismatched " +:+ se_relpath entry);
        _ ← copy_source (se_source_path entry) destination;
        again ← hash_source (se_source_path entry);
        mret (receipt entry again.1 (ss_size again.2))
  | None =>
      copied ← copy_source (se_source_path entry) destination;
      mret (receipt entry copied.1 (ss_size copied.2))
  end.

Definition copy_or_verify_package_entry (payload_root : path) (entry : SourceEntry)
    : Recv (FileReceipt * list json) :=
  fs ← disk;
  destination ← lift (refused (safe_payload_path fs payload_root (se_relpath entry)));
  _ ← mkdirs (removelast destination);
  package ← lift (package_tar fs (se_source_path entry) (default "" (se_logical_relpath entry)));
  let '(content, members) := package in
  existing ← existing_digest destination;
  _ ← (if decide (existing = Some (sha256_hex content)) then
         event ("resume kept verified package " +:+ default "" (se_logical_relpath entry))
       else
         _ ← event (let logical := default "" (se_logical_relpath entry) in
                    if existing then "resume replacing mismatched package " +:+ logical
                    else "packaged " +:+ logical +:+ " -> " +:+ se_relpath entry);
         write_file (removelast destination) (path_base destination) content);
  mret (receipt entry (sha256_hex content) (Z.of_nat (String.length content)), members).

Fixpoint copy_or_verify_entries (payload_root : path) (entries : list SourceEntry)
    : Recv (list (FileReceipt * list json)) :=
  match entries with
  | [] => mret []
  | entry :: entries =>
      r ← match se_entry_type entry with
          | PackageEntry => copy_or_verify_package_entry payload_root entry
          | FileEntry => f ← copy_or_verify_file_entry payload_root entry; mret (f, [])
          end;
      _ ← event ("copy " +:+ fr_relpath r.1);
      rest ← copy_or_verify_entries payload_root entries;
      mret (r :: rest)
  end.

(** ** Pruning before a resume *)

(** [payload_root.rglob("*")], deepest first *)
Definition deepest_first (fs : Fs) (root : path) : list (path * Node) :=
  sort_by (λ e : path * Node, - Z.of_nat (length e.1)) (rglob fs root).

Fixpoint prune_files (payload_root : path) (desired : list string) (entries : list (path * Node)) : Recv unit :=
  match entries with
  | [] => mret tt
  | (rel, NDir) :: entries => prune_files payload_root desired entries
  | (rel, _) :: entries =>
      relpath ← lift (refused (canonicalize_filesystem_path nfc rel));
      if decide (relpath ∈ desired) then prune_files payload_root desired entries
      else
        fs ← disk;
        _ ← set_disk (delete (payload_root ++ rel) fs);
        _ ← event ("resume pruned stale " +:+ relpath);
        prune_files payload_root desired entries
  end.

(** [path.rmdir()] of the directories that have become empty *)
Fixpoint remove_empty_dirs (fs : Fs) (payload_root : path) (entries : list (path * Node)) : Fs :=
  match entries with
  | [] => fs
  | (rel, NDir) :: entries =>
      let p := payload_root ++ rel in
      remove_empty_dirs (if is_nil (omap (below p) (map_to_list fs)) then delete p fs else fs) payload_root entries
  | _ :: entries => remove_empty_dirs fs payload_root entries
  end.

Definition prune_stale_payload_files (payload_root : path) (desired : list string) : Recv unit :=
  fs ← disk;
  _ ← prune_files payload_root desired (deepest_first fs payload_root);
  fs ← disk;
  set_disk (remove_empty_dirs fs payload_root (deepest_first fs payload_root)).

(** ** The package index *)

Definition package_record (r : FileReceipt * list json) : option json :=
  if decide (fr_package_profile r.1 = Some PACKAGE_PROFILE_VERSION) then
    Some (JObj [("logical_member_path", JStr (default "" (fr_logical_relpath r.1)));
                ("stored_member_path", JStr (default "" (fr_stored_relpath r.1)));
                ("profile", JStr PACKAGE_PROFILE_VERSION); ("sha256", JStr (fr_sha256_hex r.1));
                ("size_bytes", JInt (fr_size_bytes r.1)); ("members", JList r.2)])
  else None.

Definition PACKAGE_GLOBS : list string := (λ suffix, "*" +:+ suffix) <$> PACKAGE_SUFFIXES.

Definition stored_path (j : json) : string :=
  match dget "stored_member_path" (as_obj (Some j)) with Some (JStr s) => s | _ => "" end.

Definition build_package_index (packages : list json) : option json :=
  match packages with
  | [] => None
  | _ => Some (JObj [("profile", JStr PACKAGE_PROFILE_VERSION); ("profile_hash", JStr package_profile_hash);
                     ("package_globs", JList (JStr <$> PACKAGE_GLOBS));
                     ("packages", JList (sort_by stored_path packages))])
  end.

(** A package receipt without members is refused. *)
Definition package_index_payload (receipts : list (FileReceipt * list json)) : result ReceiveFault (option json) :=
  _ ← raise_if (existsb (λ r, bool_decide (fr_package_profile r.1 = Some PACKAGE_PROFILE_VERSION) && is_nil r.2) receipts)
        (Refused (InvalidPackageIndex "missing inner index"));
  Ok (build_package_index (omap package_record receipts)).

(** ** Destination verification *)

Definition VERIFY_SIDECAR_NAME : string := "verify.json".
Definition LOG_NAME : string := "receive.log".
Definition RECEIVING_NAME : string := ".receiving.json".
Definition SENTINEL_NAME : string := "intake.json".

Record VerifyMismatch := { vm_path : string; vm_expected : option string; vm_actual : option string }.

Definition destination_mismatches (fs : Fs) (bag : path) : result ReceiveError (list VerifyMismatch) :=
  content ← read_file fs (bag ++ [MANIFEST_NAME]);
  manifest ← read_manifest_sha256 nfc content;
  records ← hash_payload_tree nfc casefold sha256_hex fs (bag ++ [DATA_DIR_NAME]) true;
  let actual := receipts_dict records in
  m ← manifest_mismatch nfc actual manifest;
  Ok (map (λ p, {| vm_path := p; vm_expected := dget p manifest; vm_actual := None |}) (mi_missing m) ++
      map (λ p, {| vm_path := p; vm_expected := None; vm_actual := dget p actual |}) (mi_extra m) ++
      map (λ x, {| vm_path := x.1.1; vm_expected := Some x.1.2; vm_actual := Some x.2 |}) (mi_mismatched m)).

Definition json_text (o : option string) : json := match o with Some s => JStr s | None => JNull end.

Definition sidecar_payload (stage checked_at : string) (mismatches : list VerifyMismatch) : json :=
  JObj [("checked_at", JStr checked_at);
        ("mismatches", JList (map (λ m, JObj [("path", JStr (vm_path m)); ("expected", json_text (vm_expected m));
                                              ("actual", json_text (vm_actual m))]) mismatches));
        ("stage", JStr stage)].

(** [_append_receive_log_event]: a missing log is empty. *)
Definition append_log (fs : Fs) (bag : path) (line : string) : result ReceiveError Fs :=
  text ← match stat fs (bag ++ [LOG_NAME]) with
         | Ok (NFile text) => if utf8_decodes text then Ok text else Err NotUtf8
         | Err ENOENT => Ok ""
         | _ => Err FileMissing
         end;
  atomic_write fs bag LOG_NAME (text +:+ line +:+ LF).

(** The result is whether the bag is verified, with the mismatches; the sidecar stays written when
    the log cannot be appended to. *)
Definition verify_destination (fs : Fs) (bag : path) (now : Z) (line : string)
    : Fs * result ReceiveError (bool * list VerifyMismatch) :=
  match destination_mismatches fs bag with
  | Err e => (fs, Err e)
  | Ok mismatches =>
      let stage := if is_nil mismatches then "full" else "failed" in
      match atomic_write fs bag VERIFY_SIDECAR_NAME (dumps (sidecar_payload stage (isoformat now) mismatches)) with
      | Err e => (fs, Err e)
      | Ok fs =>
          match append_log fs bag line with
          | Err e => (fs, Err e)
          | Ok fs => (fs, Ok (is_nil mismatches, mismatches))
          end
      end
  end.

Definition is_complete_bag_candidate (fs : Fs) (bag : path) : bool :=
  match lstat fs bag, lstat fs (bag ++ [RECEIVING_NAME]), lstat fs (bag ++ [SENTINEL_NAME]) with
  | Ok NDir, Err ENOENT, Ok (NFile _) => true
  | _, _, _ => false
  end.

(** The stage of a sidecar is tested for membership in a set: an unhashable one raises a TypeError. *)
Inductive SidecarState := Pending | Settled | Unreadable | Unhashable.

Definition sidecar_is_pending (fs : Fs) (bag : path) : SidecarState :=
  match lstat fs (bag ++ [VERIFY_SIDECAR_NAME]) with
  | Err ENOENT => Pending
  | Ok (NFile content) =>
      match json_loads content with
      | Some (JObj d) =>
          match dget "stage" d with
          | None | Some JNull => Pending
          | Some (JStr s) => if decide (s = "transfer" ∨ s = "failed") then Pending else Settled
          | Some (JList _ | JObj _) => Unhashable
          | Some _ => Settled
          end
      | _ => Unreadable
      end
  | _ => Unreadable
  end.

(** The bags of one landing root, in the order of their names; the result lists the bags that were
    checked and those that failed. *)
Fixpoint verify_bags (fs : Fs) (now : Z) (line : string) (bags : list path)
    : Fs * result ReceiveFault (list path * list path) :=
  match bags with
  | [] => (fs, Ok ([], []))
  | bag :: bags =>
      let go fs checked failed :=
        match verify_bags fs now line bags with
        | (fs, Ok (checked', failed')) => (fs, Ok (checked ++ checked', failed ++ failed'))
        | (fs, Err e) => (fs, Err e)
        end in
      if negb (is_complete_bag_candidate fs bag) then go fs [] []
      else match sidecar_is_pending fs bag with
           | Unhashable => (fs, Err StageUnhashable)
           | Unreadable => go fs [bag] [bag]
           | Settled => go fs [] []
           | Pending =>
               let '(fs, r) := verify_destination fs bag now line in
               go fs [bag] (match r with Ok (true, _) => [] | _ => [bag] end)
           end
  end.

(** [_is_safe_landing_child] holds of the directories that are no links. *)
Definition landing_bags (fs : Fs) (landing : path) : list path :=
  omap (λ e : path * Node, match e with ([name], NDir) => Some (landing ++ [name]) | _ => None end) (rglob fs landing).

(** A landing root that does not exist is skipped. *)
Fixpoint verify_pending (fs : Fs) (now : Z) (line : string) (roots : list path)
    : Fs * result ReceiveFault (list path * list path) :=
  match roots with
  | [] => (fs, Ok ([], []))
  | root :: roots =>
      match resolve fs false root with
      | Ok landing =>
          match verify_bags fs now line (if is_dir fs landing then landing_bags fs landing else []) with
          | (fs, Err e) => (fs, Err e)
          | (fs, Ok (checked, failed)) =>
              match verify_pending fs now line roots with
              | (fs, Ok (checked', failed')) => (fs, Ok (checked ++ checked', failed ++ failed'))
              | (fs, Err e) => (fs, Err e)
              end
          end
      | Err ENOENT => verify_pending fs now line roots
      | Err _ => (fs, Err OsFault)
      end
  end.

(** ** Receiving *)

(** The arguments of [receive_source]; [rq_started] is [started_at], [rq_date] its date. *)
Record Request := {
  rq_source : option path;
  rq_landing : path;
  rq_source_kind : string;
  rq_operator : string;
  rq_source_ref : option string;
  rq_artifactclass : string;
  rq_label : option string;
  rq_resume : option string;
  rq_blocking : bool;                      (* verify == "blocking" *)
  rq_started : Z;
  rq_verified : Z;                         (* the clock when the destination is verified or the sidecar written *)
  rq_date : string;
  rq_prefix : string;                      (* date and operator slug *)
  rq_uuids : list string;                  (* the hundred uuid4 values of [_mint_intake_id] *)
}.

(** [_mint_intake_id]: the first candidate that does not exist. *)
Fixpoint mint_intake_id (fs : Fs) (landing : path) (prefix : string) (uuids : list string) : result ReceiveFault string :=
  match uuids with
  | [] => Err NoUniqueId
  | u :: uuids =>
      let candidate := prefix +:+ "-" +:+ u in
      if path_exists fs (landing ++ [candidate]) then mint_intake_id fs landing prefix uuids else Ok candidate
  end.

(** [_is_inside_existing_payload]: some ancestor named [data] or [payload] lies in an intake. *)
Definition inside_existing_payload (fs : Fs) (p : path) : bool :=
  existsb (λ n, let q := take n p in
    bool_decide (path_base q = DATA_DIR_NAME ∨ path_base q = "payload") &&
    (path_exists fs (removelast q ++ [SENTINEL_NAME]) || path_exists fs (removelast q ++ [RECEIVING_NAME])))
    (seq 1 (length p)).

Definition validate_source_root (fs : Fs) (source : path) : result ReceiveFault unit :=
  _ ← raise_if (negb (path_exists fs source)) SourceMissing;
  _ ← raise_if (negb (is_dir fs source)) SourceNotDirectory;
  raise_if (inside_existing_payload fs source) SourceInsidePayload.

Definition validate_landing_relationship (source landing : path) : result ReceiveFault unit :=
  raise_if (under source landing) LandingInsideSource.

Definition receiving_payload (q : Request) (intake_id : string) (source landing : path) : json :=
  JObj [("intake_id", JStr intake_id); ("source", JStr (path_text source)); ("landing", JStr (path_text landing));
        ("source_kind", JStr (rq_source_kind q)); ("operator", JStr (rq_operator q));
        ("source_ref", json_text (rq_source_ref q)); ("artifactclass", JStr (rq_artifactclass q));
        ("label", json_text (rq_label q)); ("started_at", JStr (isoformat (rq_started q)));
        ("receive_version", JStr RECEIVE_VERSION); ("canonicalization_version", JStr CANONICALIZATION_VERSION)].

(** [str(value or default)] and [_optional_str] on a member of the receiving record *)
Definition text_or (d : dict json) (key default_ : string) : string :=
  match dget key d with
  | Some (JStr s) => if decide (s = "") then default_ else s
  | Some (JInt n) => if decide (n = 0) then default_ else pretty n
  | Some (JBool true) => "True"
  | None | Some JNull | Some (JBool false) | Some (JList []) | Some (JObj []) => default_
  | Some j => json_str j
  end.

Definition optional_str (d : dict json) (key : string) : option string :=
  match dget key d with
  | None | Some JNull => None
  | Some j => let t := text_of json_str j in if decide (t = "") then None else Some t
  end.

(** What is being received: the arguments as a resume restores them. *)
Record Session := {
  sn_intake_id : string;
  sn_dir : path;
  sn_source : path;
  sn_source_kind : string;
  sn_operator : string;
  sn_source_ref : option string;
  sn_artifactclass : string;
  sn_label : option string;
}.

Definition start_session (q : Request) (landing : path) : Recv Session :=
  fs ← disk;
  match rq_resume q with
  | None =>
      match rq_source q with
      | None => refuse SourceRequired
      | Some p =>
          source ← lift (refused (os_result (resolve fs true p)));
          _ ← lift (validate_source_root fs source);
          _ ← lift (validate_landing_relationship source landing);
          intake_id ← lift (mint_intake_id fs landing (rq_prefix q) (rq_uuids q));
          let dir := landing ++ [intake_id] in
          _ ← guard_ (bool_decide (is_Some (fs !! dir))) OsFault;
          _ ← set_disk (<[dir := NDir]> fs);
          _ ← write_file dir RECEIVING_NAME (dumps (receiving_payload q intake_id source landing));
          _ ← event ("started intake " +:+ intake_id +:+ " from " +:+ path_text source);
          mret {| sn_intake_id := intake_id; sn_dir := dir; sn_source := source; sn_source_kind := rq_source_kind q;
                  sn_operator := rq_operator q; sn_source_ref := rq_source_ref q;
                  sn_artifactclass := rq_artifactclass q; sn_label := rq_label q |}
      end
  | Some intake_id =>
      let dir := landing ++ [intake_id] in
      _ ← guard_ (path_exists fs (dir ++ [SENTINEL_NAME])) AlreadyComplete;
      d ← lift (refused (read_json json_loads fs (dir ++ [RECEIVING_NAME])));
      source ← lift (refused (os_result (resolve fs true (path_parts (text_or d "source" "")))));
      _ ← lift (validate_source_root fs source);
      _ ← lift (validate_landing_relationship source landing);
      _ ← event ("resumed intake " +:+ intake_id +:+ " from " +:+ path_text source);
      mret {| sn_intake_id := intake_id; sn_dir := dir; sn_source := source;
              sn_source_kind := text_or d "source_kind" (rq_source_kind q);
              sn_operator := text_or d "operator" (rq_operator q); sn_source_ref := optional_str d "source_ref";
              sn_artifactclass := text_or d "artifactclass" (rq_artifactclass q); sn_label := optional_str d "label" |}
  end.

Definition bag_info_of (q : Request) (sn : Session) (receipts : list FileReceipt) (skipped : nat) : BagInfo := {|
  bi_date := rq_date q; bi_intake_id := sn_intake_id sn; bi_source_kind := sn_source_kind sn;
  bi_operator := sn_operator sn; bi_source_ref := sn_source_ref sn; bi_artifactclass := sn_artifactclass sn;
  bi_label := sn_label sn; bi_file_count := length receipts; bi_total_bytes := total_size receipts;
  bi_skipped_count := skipped |}.

Definition sentinel (q : Request) (sn : Session) : json :=
  JObj [("intake_id", JStr (sn_intake_id sn)); ("status", JStr "complete"); ("bag_profile", JStr "bagit-1.0");
        ("created_at", JStr (isoformat (rq_started q)))].

Definition write_log (dir : path) : Recv unit := λ s, write_file dir LOG_NAME (log_text (rx_events s)) s.

(** The package index is written, or a stale one removed; the result is the extra tag files. *)
Definition write_package_index (dir : path) (index : option json) : Recv (list string) :=
  match index with
  | Some j => _ ← write_file dir PACKAGE_INDEX_NAME (dumps j); mret [PACKAGE_INDEX_NAME]
  | None => _ ← unlink (dir ++ [PACKAGE_INDEX_NAME]); mret []
  end.

Definition blocking_verify (q : Request) (dir : path) (line : string) : Recv unit :=
  if rq_blocking q then
    λ s, let '(fs, r) := verify_destination (rx_fs s) dir (rq_verified q) line in
         let s := {| rx_fs := fs; rx_reads := rx_reads s; rx_events := rx_events s |} in
         match refused r with
         | Err e => (s, Err e)
         | Ok (true, _) => (s, Ok tt)
         | Ok (false, mismatches) =>
             (s, Err (DestinationUnverified ((λ m, (vm_path m, vm_expected m, vm_actual m)) <$> mismatches)))
         end
  else mret tt.

Fixpoint log_rejected (rejected : list (string * path * string)) : Recv unit :=
  match rejected with
  | [] => mret tt
  | (relpath, _, reason) :: rejected =>
      _ ← event ("skipped " +:+ relpath +:+ ": " +:+ reason);
      log_rejected rejected
  end.

(** The body of the [try] statement, in three parts: the payload, *)
Definition receive_payload (q : Request) (sn : Session)
    : Recv (list (FileReceipt * list json) * list (string * path * string)) :=
  let data_root := sn_dir sn ++ [DATA_DIR_NAME] in
  fs ← disk;
  scan ← lift (scan_source fs (sn_source sn));
  _ ← lift (check_collisions [] (sc_regulars scan));
  _ ← mkdirs data_root;
  _ ← (if rq_resume q then prune_stale_payload_files data_root (se_relpath <$> sc_regulars scan) else mret tt);
  results ← copy_or_verify_entries data_root (sc_regulars scan);
  mret (results, sc_rejected scan).

(** the package index, the log and the tag files, *)
Definition write_tags (q : Request) (sn : Session) (results : list (FileReceipt * list json))
    (rejected : list (string * path * string)) : Recv unit :=
  let dir := sn_dir sn in
  let receipts := results.*1 in
  index ← lift (package_index_payload results);
  extra ← write_package_index dir index;
  _ ← log_rejected rejected;
  _ ← event ("verified " +:+ pretty (Z.of_nat (length receipts)) +:+ " file(s), " +:+ pretty (total_size receipts) +:+
             " byte(s), " +:+ pretty (Z.of_nat (length rejected)) +:+ " skipped");
  _ ← write_log dir;
  fs ← disk;
  fs' ← lift (refused (write_bagit_files nfc sha256_hex fs dir (receipts_dict receipts)
                         (bag_info_metadata receive_package package_profile_hash
                            (bag_info_of q sn receipts (length rejected))) extra));
  set_disk fs'.

(** and the verification, the sentinel and the sidecar. *)
Definition release (q : Request) (sn : Session) (line : string) : Recv unit :=
  let dir := sn_dir sn in
  _ ← blocking_verify q dir line;
  _ ← write_file dir SENTINEL_NAME (dumps (sentinel q sn));
  _ ← unlink (dir ++ [RECEIVING_NAME]);
  _ ← event "release";
  _ ← write_log dir;
  if rq_blocking q then mret tt
  else write_file dir VERIFY_SIDECAR_NAME (dumps (sidecar_payload "transfer" (isoformat (rq_verified q)) [])).

Definition receive_body (q : Request) (sn : Session) (line : string) : Recv (list FileReceipt) :=
  received ← receive_payload q sn;
  _ ← write_tags q sn received.1 received.2;
  _ ← release q sn line;
  mret received.1.*1.

(** A failure of the package's own classes is logged in the intake directory. *)
Definition logged_body (q : Request) (sn : Session) (line : string) : Recv (Session * list FileReceipt) := λ s,
  match receive_body q sn line s with
  | (s', Ok receipts) => (s', Ok (sn, receipts))
  | (s', Err e) =>
      if is_receive_error e then
        match (_ ← event "failed"; if path_exists (rx_fs s') (sn_dir sn) then write_log (sn_dir sn) else mret tt) s' with
        | (s'', Ok _) => (s'', Err e)
        | (s'', Err e') => (s'', Err e')
        end
      else (s', Err e)
  end.

Definition receive_source (q : Request) (line : string) : Recv (Session * list FileReceipt) :=
  fs ← disk;
  landing ← lift (refused (os_result (resolve fs true (rq_landing q))));
  _ ← mkdirs landing;
  sn ← start_session q landing;
  logged_body q sn line.

End receive.
