(* ===== verification/BagItFacts.v ===== *)
(** * Round trips of the text of a bag

    The percent layer, the checksum manifest and the bag metadata are read back as they were
    written, on the texts for which that holds. *)

From Stdlib Require Import Ascii Strings.Byte ZifyBool.
From stdpp Require Import pretty.
From S2P Require Import Prelude Json JsonText JobModels Catalog MemberName Scrub Accumulator FanoutMap Profiles.
From S2P Require Import NamingFacts FanoutMapFacts BagIt.

#[local] Arguments Nat.leb : simpl never.
#[local] Arguments Nat.ltb : simpl never.

(** ** Characters

    A character is one ASCII byte, or a leading byte above it with its continuation bytes. *)

Fixpoint all_continuation (s : string) : bool :=
  match s with EmptyString => true | String c s => is_continuation c && all_continuation s end.

Definition well_formed (c : string) : bool :=
  match c with
  | EmptyString => false
  | String a EmptyString => (nat_of_ascii a <? 128)%nat
  | String a t => (192 <=? nat_of_ascii a)%nat && all_continuation t
  end.

Definition well_formed_text (s : string) : Prop := Forall (λ c, well_formed c = true) (characters s).

Lemma characters_cons c s : characters (String c s) =
  match characters s with
  | t :: rest => if starts_continuation t then String c t :: rest else String c "" :: t :: rest
  | [] => [String c ""]
  end.
Proof. done. Qed.

Lemma characters_head s : match characters s with t :: _ => starts_continuation t = starts_continuation s | [] => s = "" end.
Proof.
  destruct s as [|c s]; [done|]. rewrite characters_cons.
  destruct (characters s) as [|t rest]; [done|]. by destruct (starts_continuation t).
Qed.

Lemma of_chars_characters s : of_chars (characters s) = s.
Proof.
  induction s as [|c s IH]; [done|]. rewrite characters_cons.
  destruct (characters s) as [|t rest]; [by destruct s|].
  rewrite <- IH. by destruct (starts_continuation t).
Qed.

Lemma characters_app s t :
  starts_continuation t = false → characters (s +:+ t) = characters s ++ characters t.
Proof.
  intros Ht. induction s as [|c s IH]; [done|].
  rewrite string_cons_app, !characters_cons, IH.
  destruct (characters s) as [|u rest] eqn:Es.
  - pose proof (characters_head t) as Hh. cbn [app].
    destruct (characters t) as [|v rest]; [done|]. by rewrite Hh, Ht.
  - cbn [app]. by destruct (starts_continuation u).
Qed.

Lemma well_formed_start c : well_formed c = true → starts_continuation c = false ∧ c ≠ "".
Proof.
  destruct c as [|a [|b t]]; [done| |]; cbn; unfold is_continuation; intros H; split; try done;
    apply andb_false_iff; [left|right].
  - apply Nat.leb_gt. by apply Nat.ltb_lt in H.
  - apply andb_true_iff in H as [H _]. apply Nat.leb_le in H. apply Nat.leb_gt. lia.
Qed.

Lemma all_continuation_chars s a : all_continuation s = true → characters (String a s) = [String a s].
Proof.
  revert a. induction s as [|c s IH]; intros a; [done|]. intros H.
  cbn [all_continuation] in H. apply andb_true_iff in H as [Hc Hs].
  rewrite characters_cons, (IH c Hs). cbn [starts_continuation]. by rewrite Hc.
Qed.

Lemma characters_char c : well_formed c = true → characters c = [c].
Proof.
  destruct c as [|a [|b t]]; [done|done|]. intros H. apply all_continuation_chars.
  by apply andb_true_iff in H as [_ H].
Qed.

Lemma of_chars_start l : Forall (λ c, well_formed c = true) l → starts_continuation (of_chars l) = false.
Proof.
  destruct 1 as [|c l Hc _]; [done|]. apply well_formed_start in Hc as [Hc ?]. by destruct c.
Qed.

Lemma characters_of_chars l : Forall (λ c, well_formed c = true) l → characters (of_chars l) = l.
Proof.
  induction 1 as [|c l Hc Hl IH]; [done|]. cbn [of_chars foldr].
  change (foldr String.append "" l) with (of_chars l).
  by rewrite characters_app, characters_char, IH by eauto using of_chars_start.
Qed.

Lemma well_formed_of_chars l : Forall (λ c, well_formed c = true) l → well_formed_text (of_chars l).
Proof. intros H. unfold well_formed_text. by rewrite characters_of_chars. Qed.

Lemma well_formed_text_start s : well_formed_text s → starts_continuation s = false.
Proof. intros H%of_chars_start. by rewrite of_chars_characters in H. Qed.

Lemma well_formed_text_app s t :
  well_formed_text s → well_formed_text t → well_formed_text (s +:+ t).
Proof.
  intros Hs Ht. unfold well_formed_text. rewrite characters_app by eauto using well_formed_text_start.
  by apply Forall_app.
Qed.

(** An ASCII character can always be split off. *)
Definition is_ascii (c : ascii) : bool := (nat_of_ascii c <? 128)%nat.

Fixpoint ascii_text (s : string) : bool :=
  match s with EmptyString => true | String c s => is_ascii c && ascii_text s end.

Lemma ascii_text_chars s : ascii_text s = true → characters s = (λ c, String c "") <$> String.list_ascii_of_string s.
Proof.
  induction s as [|c s IH]; [done|]. cbn [ascii_text]. intros [Hc Hs]%andb_true_iff.
  rewrite characters_cons, IH by done. destruct s as [|d s]; [done|]. cbn [String.list_ascii_of_string fmap list_fmap].
  cbn in Hs. apply andb_true_iff in Hs as [Hd _]. cbn [starts_continuation].
  replace (is_continuation d) with false; [done|]. symmetry. unfold is_continuation, is_ascii in *.
  apply andb_false_iff. left. apply Nat.leb_gt. by apply Nat.ltb_lt in Hd.
Qed.

Lemma ascii_text_well_formed s : ascii_text s = true → well_formed_text s.
Proof.
  intros H. unfold well_formed_text. rewrite ascii_text_chars by done.
  induction s as [|c s IH]; [constructor|]. cbn in H. apply andb_true_iff in H as [Hc Hs].
  constructor; [done|]. by apply IH.
Qed.

#[export] Hint Resolve well_formed_text_start well_formed_text_app ascii_text_well_formed : sutra.

(** ** The percent layer *)

Definition encode_char (c : string) : string :=
  if decide (c = "%") then "%25" else if decide (c = CR) then "%0D" else if decide (c = LF) then "%0A" else c.

Lemma replace_char_app c b s t : replace_char c b (s +:+ t) = replace_char c b s +:+ replace_char c b t.
Proof.
  induction s as [|d s IH]; [done|]. rewrite string_cons_app. cbn [replace_char].
  destruct (Ascii.eqb d c); rewrite IH; by rewrite ?string_app_assoc, ?string_cons_app.
Qed.

Lemma encode_app s t : encode_bagit_path (s +:+ t) = encode_bagit_path s +:+ encode_bagit_path t.
Proof. unfold encode_bagit_path. by rewrite !replace_char_app. Qed.

Lemma replace_char_lacks c b s : lacks c s = true → replace_char c b s = s.
Proof.
  induction s as [|d s IH]; [done|]. cbn. intros [Hd Hs]%andb_true_iff. apply negb_true_iff in Hd.
  by rewrite Hd, IH.
Qed.

Lemma all_continuation_lacks c t : is_ascii c = true → all_continuation t = true → lacks c t = true.
Proof.
  intros Hc. induction t as [|d t IH]; [done|]. cbn. intros [Hd Ht]%andb_true_iff.
  rewrite IH, andb_true_r by done. apply negb_true_iff. destruct (Ascii.eqb_spec d c) as [->|]; [|done].
  unfold is_ascii, is_continuation in *. apply Nat.ltb_lt in Hc. apply andb_true_iff in Hd as [Hd _].
  apply Nat.leb_le in Hd. lia.
Qed.

Lemma char_lacks c w : is_ascii c = true → well_formed w = true → w ≠ String c "" → lacks c w = true.
Proof.
  intros Hc Hw Hne. destruct w as [|a [|b t]]; [done| |].
  - cbn. rewrite andb_true_r. apply negb_true_iff. destruct (Ascii.eqb_spec a c); congruence.
  - apply andb_true_iff in Hw as [Ha Ht]. cbn [lacks]. fold (lacks c (String b t)).
    change (negb (Ascii.eqb a c) && lacks c (String b t) = true).
    rewrite all_continuation_lacks by done. rewrite andb_true_r. apply negb_true_iff.
    destruct (Ascii.eqb_spec a c) as [->|]; [|done].
    unfold is_ascii in Hc. apply Nat.ltb_lt in Hc. apply Nat.leb_le in Ha. lia.
Qed.

Lemma encode_one c : well_formed c = true → encode_bagit_path c = encode_char c.
Proof.
  intros Hc. unfold encode_char. repeat case_decide; subst; try done.
  unfold encode_bagit_path.
  rewrite (replace_char_lacks "%" _ c), (replace_char_lacks "013" _ c), (replace_char_lacks "010" _ c);
    by eauto using char_lacks.
Qed.

Lemma encode_of_chars l :
  Forall (λ c, well_formed c = true) l → encode_bagit_path (of_chars l) = of_chars (encode_char <$> l).
Proof.
  induction 1 as [|c l Hc _ IH]; [done|]. cbn [of_chars foldr fmap list_fmap].
  change (foldr String.append "" l) with (of_chars l). rewrite encode_app, IH, encode_one by done. done.
Qed.

Lemma encode_char_well_formed c : well_formed c = true → well_formed_text (encode_char c).
Proof.
  intros Hc. unfold encode_char. repeat case_decide; try by apply ascii_text_well_formed.
  unfold well_formed_text. rewrite characters_char by done. by constructor.
Qed.

Lemma encode_well_formed s : well_formed_text s → well_formed_text (encode_bagit_path s).
Proof.
  intros H. rewrite <- (of_chars_characters s), encode_of_chars by done. unfold well_formed_text in H.
  induction H as [|c l Hc _ IH]; [constructor|]. cbn [fmap list_fmap of_chars foldr].
  apply well_formed_text_app; [by apply encode_char_well_formed|done].
Qed.

Lemma decode_escape a b v rest s :
  escape_value (upper (a +:+ b)) = Ok v → decode_bagit_path rest = Ok s →
  decode_bagit_path ("%" :: a :: b :: rest) = Ok (v +:+ s).
Proof. intros Hv Hr. cbn [decode_bagit_path]. rewrite decide_True by done. by rewrite Hv, Hr. Qed.

Lemma decode_encode_char c rest s :
  well_formed c = true → decode_bagit_path rest = Ok s →
  decode_bagit_path (characters (encode_char c) ++ rest) = Ok (c +:+ s).
Proof.
  intros Hc Hr. unfold encode_char. do 3 (case_decide; [subst; by apply decode_escape|]).
  rewrite characters_char by done. cbn [app decode_bagit_path]. rewrite decide_False by done.
  by rewrite Hr.
Qed.

(** Decoding inverts the percent encoding. *)
Lemma decode_encode s : well_formed_text s → decode_bagit_path (characters (encode_bagit_path s)) = Ok s.
Proof.
  intros H. rewrite <- (of_chars_characters s) at 2. rewrite <- (of_chars_characters s), encode_of_chars by done.
  rewrite of_chars_characters. unfold well_formed_text in H.
  induction H as [|c l Hc Hl IH]; [done|]. cbn [fmap list_fmap of_chars foldr].
  change (foldr String.append "" (encode_char <$> l)) with (of_chars (encode_char <$> l)).
  rewrite characters_app; [by apply decode_encode_char|].
  rewrite <- encode_of_chars by done. apply well_formed_text_start, encode_well_formed.
  by apply well_formed_of_chars.
Qed.

(** ** Lines *)

Definition one_line (s : string) : Prop := Forall (λ c, is_break c = false) (characters s).

Lemma split_lines_end l :
  Forall (λ c, is_break c = false) l → l ≠ [] → split_lines l = [l].
Proof.
  induction 1 as [|c l Hc Hl IH]; [done|]. intros _. cbn. rewrite Hc.
  destruct l as [|d l]; [done|]. by rewrite IH.
Qed.

Lemma split_lines_lf l rest :
  Forall (λ c, is_break c = false) l → split_lines (l ++ LF :: rest) = l :: split_lines rest.
Proof.
  induction 1 as [|c l Hc Hl IH]; cbn [app].
  - destruct rest; cbn; [done|]. done.
  - change (split_lines (c :: l ++ LF :: rest)) with
      (if is_break c then
         match l ++ LF :: rest with
         | d :: l' => if bool_decide (c = CR) && bool_decide (d = LF) then [] :: split_lines l'
                      else [] :: split_lines (l ++ LF :: rest)
         | [] => [[]]
         end
       else match split_lines (l ++ LF :: rest) with
            | [] => [[c]]
            | line :: rest => (c :: line) :: rest
            end).
    by rewrite Hc, IH.
Qed.

Lemma one_line_app s t :
  starts_continuation t = false → one_line s → one_line t → one_line (s +:+ t).
Proof. intros Ht H1 H2. unfold one_line. rewrite characters_app by done. by apply Forall_app. Qed.

Lemma splitlines_cons s t :
  well_formed_text t → one_line s → splitlines (s +:+ LF +:+ t) = characters s :: splitlines t.
Proof.
  intros Ht Hs. unfold splitlines. rewrite characters_app by done.
  rewrite (characters_app LF t) by auto with sutra. by apply split_lines_lf.
Qed.

Lemma lines_text_cons s l : lines_text (s :: l) = s +:+ LF +:+ lines_text l.
Proof.
  unfold lines_text. destruct l as [|t l]; [done|].
  change (join LF (s :: t :: l)) with (s +:+ LF +:+ join LF (t :: l)). by rewrite !string_app_assoc.
Qed.

Lemma lines_text_well_formed l : Forall well_formed_text l → well_formed_text (lines_text l).
Proof.
  induction 1 as [|s l Hs _ IH]; [constructor|]. rewrite lines_text_cons.
  apply well_formed_text_app; [done|]. apply well_formed_text_app; [by apply ascii_text_well_formed|done].
Qed.

(** Lines that hold no line break are read back as they were written. *)
Lemma splitlines_text l :
  Forall well_formed_text l → Forall one_line l → splitlines (lines_text l) = characters <$> l.
Proof.
  induction l as [|s l IH]; [done|]. intros [Hs Hl]%Forall_cons [Hs' Hl']%Forall_cons.
  rewrite lines_text_cons, splitlines_cons, IH by eauto using lines_text_well_formed. done.
Qed.

(** ** Valid UTF-8 *)

Definition utf8_char (c : string) : bool :=
  match to_raw c with
  | [b] => code b <? 128
  | l => is_valid_utf8 l
  end.

Definition utf8_text (s : string) : bool := forallb utf8_char (characters s).

Lemma code_of_ascii c : code (byte_of_ascii c) = Z.of_nat (nat_of_ascii c).
Proof. by destruct c as [[] [] [] [] [] [] [] []]. Qed.

Lemma continuation_ascii c : continuation (byte_of_ascii c) = is_continuation c.
Proof. by destruct c as [[] [] [] [] [] [] [] []]. Qed.

Lemma to_raw_cons c s : to_raw (String c s) = byte_of_ascii c :: to_raw s.
Proof. done. Qed.

Lemma to_raw_app s t : to_raw (s +:+ t) = to_raw s ++ to_raw t.
Proof. induction s as [|c s IH]; [done|]. rewrite string_cons_app, !to_raw_cons, IH. done. Qed.

Lemma to_raw_length s : length (to_raw s) = String.length s.
Proof. induction s as [|c s IH]; [done|]. rewrite to_raw_cons. cbn. by f_equal. Qed.

Lemma of_to_raw s : of_raw (to_raw s) = s.
Proof.
  unfold of_raw, to_raw. rewrite <- list_fmap_compose.
  rewrite <- (String.string_of_list_ascii_of_string s) at 2. f_equal.
  rewrite <- (list_fmap_id (String.list_ascii_of_string s)) at 2. apply list_fmap_ext. intros _ c _.
  apply ascii_of_byte_of_ascii.
Qed.

Lemma to_of_raw l : to_raw (of_raw l) = l.
Proof.
  unfold of_raw, to_raw. rewrite String.list_ascii_of_string_of_list_ascii, <- list_fmap_compose.
  rewrite <- (list_fmap_id l) at 2. apply list_fmap_ext. intros _ c _. apply byte_of_ascii_of_byte.
Qed.

Lemma valid_shape a t :
  is_valid_utf8 (to_raw (String a t)) = true →
  (192 <=? nat_of_ascii a)%nat = true ∧ all_continuation t = true ∧ t ≠ "" ∧
  utf8_sequence_len (byte_of_ascii a) = S (String.length t).
Proof.
  rewrite to_raw_cons. unfold utf8_sequence_len. rewrite code_of_ascii.
  destruct t as [|b [|c [|d [|e t]]]]; cbn [to_raw String.list_ascii_of_string fmap list_fmap]; try done;
    intros H; unfold is_valid_utf8 in H; cbn [map] in H; rewrite ?code_of_ascii, ?continuation_ascii in H;
    split_bools; cbn [all_continuation String.length];
    (split; [apply Nat.leb_le; lia|]);
    (split; [by repeat match goal with H : is_continuation _ = true |- _ => rewrite H; clear H end|]);
    (split; [done|]); repeat case_bool; try done; lia.
Qed.

Lemma forallb_Forall {A} (f : A → bool) l : forallb f l = true ↔ Forall (λ x, f x = true) l.
Proof. rewrite forallb_forall, Forall_forall. by setoid_rewrite list_elem_of_In. Qed.

Lemma string_of_app l k :
  String.string_of_list_ascii (l ++ k) = String.string_of_list_ascii l +:+ String.string_of_list_ascii k.
Proof. induction l as [|c l IH]; [done|]. cbn. by rewrite IH. Qed.

Lemma utf8_char_cases c :
  utf8_char c = true →
  (∃ a, c = String a "" ∧ is_ascii a = true) ∨ (∃ a t, c = String a t ∧ is_valid_utf8 (to_raw c) = true).
Proof.
  unfold utf8_char. destruct c as [|a [|b t]]; [done| |].
  - cbn. rewrite code_of_ascii. intros H. left. exists a. split; [done|]. unfold is_ascii. lia.
  - intros H. right. by exists a, (String b t).
Qed.

Lemma utf8_char_well_formed c : utf8_char c = true → well_formed c = true.
Proof.
  intros [(a & -> & H)|(a & t & -> & H)]%utf8_char_cases; [done|].
  apply valid_shape in H as (Ha & Ht & Hne & _). destruct t; [done|].
  cbn [well_formed]. by rewrite Ha, Ht.
Qed.

Lemma utf8_text_well_formed s : utf8_text s = true → well_formed_text s.
Proof.
  intros H%forallb_Forall. eapply Forall_impl; [exact H|]. apply utf8_char_well_formed.
Qed.

Lemma utf8_text_app s t : utf8_text s = true → utf8_text t = true → utf8_text (s +:+ t) = true.
Proof.
  intros Hs Ht. unfold utf8_text. rewrite characters_app by eauto using utf8_text_well_formed with sutra.
  rewrite forallb_app. by apply andb_true_iff.
Qed.

Lemma utf8_from_chars l : ∀ fuel,
  Forall (λ c, utf8_char c = true) l → (length (to_raw (of_chars l)) <= fuel)%nat →
  utf8_from fuel (to_raw (of_chars l)) = true.
Proof.
  induction l as [|c l IH]; intros fuel Hl Hfuel; [by destruct fuel|].
  apply Forall_cons in Hl as [Hc Hl]. cbn [of_chars foldr] in *.
  change (foldr String.append "" l) with (of_chars l) in *. rewrite to_raw_app in *.
  rewrite length_app in Hfuel. apply utf8_char_cases in Hc as [(a & -> & Ha)|(a & t & -> & Hv)].
  - cbn in Hfuel |- *. destruct fuel as [|fuel]; [lia|]. cbn [utf8_from].
    replace (utf8_sequence_len (byte_of_ascii a)) with 1%nat; [cbn; apply IH; [done|lia]|].
    unfold utf8_sequence_len. rewrite code_of_ascii. unfold is_ascii in Ha. case_bool; lia.
  - pose proof (valid_shape _ _ Hv) as (_ & _ & Hne & Hlen).
    rewrite to_raw_cons in *. destruct fuel as [|fuel]; [cbn in Hfuel; lia|].
    cbn [app utf8_from]. rewrite Hlen. destruct t as [|b t]; [done|].
    cbn [String.length Nat.eqb]. rewrite <- (to_raw_length t).
    change (byte_of_ascii a :: to_raw (String b t) ++ to_raw (of_chars l))
      with ((byte_of_ascii a :: to_raw (String b t)) ++ to_raw (of_chars l)).
    rewrite take_app_length', drop_app_length', Hv by done. cbn. apply IH; [done|].
    cbn in Hfuel. lia.
Qed.

Lemma utf8_text_decodes s : utf8_text s = true → utf8_decodes s = true.
Proof.
  intros H. rewrite <- (of_chars_characters s). apply utf8_from_chars; [|done].
  by apply forallb_Forall.
Qed.

Lemma utf8_from_text fuel : ∀ raw, utf8_from fuel raw = true → utf8_text (of_raw raw) = true.
Proof.
  induction fuel as [|fuel IH]; intros [|b rest]; try done. cbn [utf8_from].
  destruct (utf8_sequence_len b) as [|[|n]] eqn:Hn; cbn [Nat.eqb]; [done| |].
  - intros H%IH. change (of_raw (b :: rest)) with (String (ascii_of_byte b) "" +:+ of_raw rest).
    apply utf8_text_app; [|done]. unfold utf8_text. cbn. rewrite byte_of_ascii_of_byte, andb_true_r.
    unfold utf8_sequence_len in Hn. repeat case_bool; lia.
  - intros [Hv Ht%IH]%andb_true_iff. rewrite <- (take_drop (S (S n)) (b :: rest)).
    unfold of_raw in *. rewrite fmap_app. rewrite string_of_app. apply utf8_text_app; [|done].
    fold (of_raw (take (S (S n)) (b :: rest))). set (c := of_raw _). unfold utf8_text.
    assert (Hc : utf8_char c = true).
    { unfold utf8_char, c. rewrite to_of_raw. destruct (take _ _) as [|x [|y l]] eqn:E; done. }
    rewrite characters_char by by apply utf8_char_well_formed. cbn [forallb]. by rewrite Hc.
Qed.

(** Text is a sequence of valid characters exactly when its bytes decode. *)
Lemma utf8_text_iff s : utf8_text s = true ↔ utf8_decodes s = true.
Proof.
  split; [apply utf8_text_decodes|]. intros H%utf8_from_text.
  fold (to_raw s) in H. by rewrite of_to_raw in H.
Qed.

(** ** Digests *)

Definition is_hex (c : ascii) : bool := bool_decide (is_Some (hex_code c)).

(** Sixty-four hexadecimal digits, as [hexdigest] returns them. *)
Definition hex_digest (d : string) : bool :=
  (String.length d =? 64)%nat && forallb is_hex (String.list_ascii_of_string d).

Lemma is_hex_facts c :
  is_hex c = true →
  is_ascii c = true ∧ is_space c = false ∧ is_hex (lower_char c) = true ∧
  lower_char (lower_char c) = lower_char c ∧ is_break (String c "") = false.
Proof. destruct c as [[] [] [] [] [] [] [] []]; intros H; first [discriminate H|by vm_compute]. Qed.

Lemma fromhex_digits n : ∀ s,
  String.length s = (2 * n)%nat → forallb is_hex (String.list_ascii_of_string s) = true →
  is_Some (fromhex s).
Proof.
  induction n as [|n IH]; intros s Hl Hh; [destruct s; [by eexists|done]|].
  destruct s as [|a [|b s]]; [done|cbn in Hl; lia|]. cbn in Hl, Hh.
  apply andb_true_iff in Hh as [Ha [Hb Hs]%andb_true_iff].
  pose proof (is_hex_facts a Ha) as (_ & Hsp & _). cbn [fromhex]. rewrite Hsp.
  apply bool_decide_eq_true_1 in Ha as [x ->], Hb as [y ->]. cbn.
  destruct (IH s) as [t Ht]; [lia|done|]. rewrite Ht. by eexists.
Qed.

Lemma hex_ascii s : forallb is_hex (String.list_ascii_of_string s) = true → ascii_text s = true.
Proof.
  induction s as [|c s IH]; [done|]. cbn [String.list_ascii_of_string forallb ascii_text].
  intros [Hc Hs]%andb_true_iff. apply andb_true_iff. split; [by apply is_hex_facts|by apply IH].
Qed.

Lemma hex_lower s :
  forallb is_hex (String.list_ascii_of_string s) = true →
  forallb is_hex (String.list_ascii_of_string (lower s)) = true ∧ lower (lower s) = lower s ∧
  String.length (lower s) = String.length s.
Proof.
  induction s as [|c s IH]; [done|]. cbn [String.list_ascii_of_string forallb lower String.length].
  intros [Hc Hs]%andb_true_iff. destruct (IH Hs) as (IH1 & IH2 & IH3).
  destruct (is_hex_facts c Hc) as (_ & _ & H1 & H2 & _).
  rewrite IH1, IH2, IH3, H1, H2. done.
Qed.

Lemma hex_one_line s : forallb is_hex (String.list_ascii_of_string s) = true → one_line s.
Proof.
  intros H. unfold one_line. rewrite ascii_text_chars by by apply hex_ascii.
  induction s as [|c s IH]; [constructor|]. cbn in H. apply andb_true_iff in H as [Hc Hs].
  constructor; [by apply is_hex_facts|by apply IH].
Qed.

Lemma list_ascii_length s : length (String.list_ascii_of_string s) = String.length s.
Proof. induction s as [|c s IH]; [done|]. cbn. by f_equal. Qed.

Lemma hex_digest_facts d :
  hex_digest d = true →
  ascii_text d = true ∧ one_line d ∧ length (characters d) = 64%nat ∧ is_sha256_hex d = true ∧
  hex_digest (lower d) = true ∧ lower (lower d) = lower d.
Proof.
  unfold hex_digest. intros [Hl Hh]%andb_true_iff. apply Nat.eqb_eq in Hl.
  assert (Hc : length (characters d) = 64%nat).
  { rewrite ascii_text_chars by by apply hex_ascii. rewrite length_fmap, list_ascii_length. done. }
  destruct (hex_lower d Hh) as (H1 & H2 & H3).
  split; [by apply hex_ascii|]. split; [by apply hex_one_line|]. split; [done|]. split; [|split; [|done]].
  - unfold is_sha256_hex. rewrite Hc. cbn. apply bool_decide_eq_true_2. by apply (fromhex_digits 32).
  - rewrite H1, H3, Hl. done.
Qed.

(** ** A line of a checksum manifest *)

Definition checksum_line (digest raw : string) : string := digest +:+ "  " +:+ encode_bagit_path raw.

Definition starts_blank (l : list string) : bool := match l with c :: _ => is_blank c | [] => false end.

Lemma drop_blanks_none l : starts_blank l = false → drop_blanks l = l.
Proof. destruct l as [|c l]; [done|]. cbn. by intros ->. Qed.

Lemma encode_starts s :
  well_formed_text s → starts_blank (characters s) = false →
  starts_blank (characters (encode_bagit_path s)) = false.
Proof.
  intros Hs Hb. unfold well_formed_text in Hs. rewrite <- (of_chars_characters s), encode_of_chars by done.
  destruct (characters s) as [|c l]; [done|]. apply Forall_cons in Hs as [Hc Hl].
  cbn [fmap list_fmap of_chars foldr]. change (foldr String.append "" (encode_char <$> l)) with (of_chars (encode_char <$> l)).
  rewrite characters_app.
  - unfold encode_char. repeat (case_decide; [done|]). by rewrite characters_char.
  - rewrite <- encode_of_chars by done. apply well_formed_text_start, encode_well_formed.
    by apply well_formed_of_chars.
Qed.

Lemma checksum_line_chars d raw :
  hex_digest d = true → well_formed_text raw →
  characters (checksum_line d raw) = characters d ++ " " :: " " :: characters (encode_bagit_path raw).
Proof.
  intros Hd Hr. unfold checksum_line. rewrite characters_app by done. f_equal.
  rewrite (characters_app "  ") by (by apply well_formed_text_start, encode_well_formed). done.
Qed.

Lemma encode_nonempty s : well_formed_text s → s ≠ "" → characters (encode_bagit_path s) ≠ [].
Proof.
  intros Hs Hne Hn. pose proof (decode_encode s Hs) as H. rewrite Hn in H. cbn in H. congruence.
Qed.

Lemma read_checksum_line_written nfc (payload : bool) n d raw key :
  hex_digest d = true → well_formed_text raw → raw ≠ "" → starts_blank (characters raw) = false →
  (if payload then canonicalize_payload_manifest_path nfc raw else Ok (path_str raw)) = Ok key →
  read_checksum_line nfc payload n (characters (checksum_line d raw)) = Ok (key, lower d).
Proof.
  intros Hd Hr Hne Hb Hkey. destruct (hex_digest_facts d Hd) as (_ & _ & Hl & _ & Hlow & Hll).
  destruct (hex_digest_facts _ Hlow) as (_ & _ & _ & Hsha & _).
  rewrite checksum_line_chars by done. set (enc := characters (encode_bagit_path raw)).
  assert (Henc : enc ≠ []) by by apply encode_nonempty.
  unfold read_checksum_line. rewrite length_app, Hl. cbn [length].
  replace (64 + S (S (length enc)) <? 66)%nat with false by (symmetry; apply Nat.ltb_ge; lia).
  rewrite take_app_length', drop_app_length' by done.
  rewrite lookup_app_r by lia. rewrite Hl, Nat.sub_diag. cbn [lookup list_lookup].
  change (drop_blanks (" " :: " " :: enc)) with (drop_blanks enc).
  rewrite drop_blanks_none by by apply encode_starts.
  rewrite of_chars_characters, Hsha. cbn [raise_if fmap option_fmap option_map default mbind result_bind is_blank negb].
  rewrite bool_decide_eq_false_2 by done. cbn. unfold enc. rewrite decode_encode by done.
  cbn. destruct payload; [by rewrite Hkey|by injection Hkey as ->].
Qed.

(** ** Whole manifests *)

Lemma dset_fresh {A} k (v : A) d : k ∉ dkeys d → dset k v d = d ++ [(k, v)].
Proof.
  induction d as [|[k' v'] d IH]; [done|]. cbn. rewrite not_elem_of_cons. intros [Hne Hn].
  rewrite decide_False by done. by rewrite IH.
Qed.

Lemma NoDup_fresh_key {A} k (v : A) d ks :
  NoDup (dkeys d ++ k :: ks) → k ∉ dkeys d ∧ NoDup (dkeys (d ++ [(k, v)]) ++ ks).
Proof.
  intros H. split.
  - apply NoDup_app in H as (_ & Hd & _). intros Hin. apply (Hd k Hin). by left.
  - unfold dkeys in *. rewrite fmap_app, <- app_assoc. exact H.
Qed.

(** What a written line needs in order to be read back as [key]. *)
Definition readable (nfc : string → string) (payload : bool) (raw : string) (key digest : string) : Prop :=
  hex_digest digest = true ∧ utf8_text raw = true ∧ raw ≠ "" ∧ starts_blank (characters raw) = false ∧
  one_line raw ∧
  (if payload then canonicalize_payload_manifest_path nfc raw else Ok (path_str raw)) = Ok key.

Definition lowered (kv : string * string) : string * string := (kv.1, lower kv.2).

Lemma read_checksum_lines_written nfc payload (raw : string → string) l : ∀ n acc,
  (∀ kv, kv ∈ l → readable nfc payload (raw kv.1) kv.1 kv.2) → NoDup (dkeys acc ++ l.*1) →
  read_checksum_lines nfc payload n (characters <$> ((λ kv, checksum_line kv.2 (raw kv.1)) <$> l)) acc =
  Ok (acc ++ (lowered <$> l)).
Proof.
  induction l as [|[k d] l IH]; intros n acc Hl Hnd; [cbn; by rewrite app_nil_r|].
  destruct (Hl (k, d)) as (Hd & Hu & Hne & Hb & _ & Hkey); [by left|]. cbn [fst snd] in *.
  apply utf8_text_well_formed in Hu.
  pose proof (read_checksum_line_written nfc payload n d (raw k) k Hd Hu Hne Hb Hkey) as Hline.
  cbn [fmap list_fmap]. set (line := characters (checksum_line _ _)) in *.
  assert (Hn : line ≠ []) by (intros E; rewrite E in Hline; discriminate Hline).
  destruct line as [|c line]; [done|]. cbn [read_checksum_lines]. rewrite Hline. cbn [mbind result_bind fst snd].
  destruct (NoDup_fresh_key k (lower d) acc _ Hnd) as [Hfresh Hnd'].
  rewrite dset_fresh by done. rewrite IH; [by rewrite <- app_assoc| |done].
  intros kv Hin. apply Hl. by right.
Qed.

Lemma utf8_ascii s : ascii_text s = true → utf8_text s = true.
Proof.
  intros H. unfold utf8_text. rewrite ascii_text_chars by done. apply forallb_Forall.
  induction s as [|c s IH]; [constructor|]. cbn in H. apply andb_true_iff in H as [Hc Hs].
  constructor; [|by apply IH]. unfold utf8_char. cbn. rewrite code_of_ascii. unfold is_ascii in Hc. lia.
Qed.

Lemma utf8_encode s : utf8_text s = true → utf8_text (encode_bagit_path s) = true.
Proof.
  intros H. pose proof (utf8_text_well_formed s H) as Hw.
  rewrite <- (of_chars_characters s), encode_of_chars by done. apply forallb_Forall in H.
  induction H as [|c l Hc _ IH]; [done|]. cbn [fmap list_fmap of_chars foldr].
  apply utf8_text_app; [|done]. unfold encode_char. repeat (case_decide; [by apply utf8_ascii|]).
  unfold utf8_text. rewrite characters_char by by apply utf8_char_well_formed. cbn [forallb]. by rewrite Hc.
Qed.

Lemma one_line_encode s : well_formed_text s → one_line s → one_line (encode_bagit_path s).
Proof.
  intros Hw Ho. rewrite <- (of_chars_characters s), encode_of_chars by done.
  unfold well_formed_text in Hw. unfold one_line in Ho.
  induction Hw as [|c l Hc Hl IH]; [constructor|]. apply Forall_cons in Ho as [Hc' Ho].
  cbn [fmap list_fmap of_chars foldr]. apply one_line_app; [| |by apply IH].
  - change (foldr String.append "" (encode_char <$> l)) with (of_chars (encode_char <$> l)).
    rewrite <- encode_of_chars by done. apply well_formed_text_start, encode_well_formed.
    by apply well_formed_of_chars.
  - unfold encode_char. repeat case_decide; subst; try discriminate Hc'.
    + unfold one_line. by vm_compute; repeat constructor.
    + unfold one_line. rewrite characters_char by done. by constructor.
Qed.

Lemma checksum_line_ok nfc payload raw key d :
  readable nfc payload raw key d →
  utf8_text (checksum_line d raw) = true ∧ one_line (checksum_line d raw).
Proof.
  intros (Hd & Hu & _ & _ & Ho & _). destruct (hex_digest_facts d Hd) as (Ha & Hol & _).
  pose proof (utf8_text_well_formed _ Hu) as Hw. pose proof (encode_well_formed _ Hw) as Hwe.
  unfold checksum_line. split.
  - repeat apply utf8_text_app; [by apply utf8_ascii|done|by apply utf8_encode].
  - apply one_line_app; [done|done|]. apply one_line_app; [by apply well_formed_text_start| |by apply one_line_encode].
    unfold one_line. by repeat constructor.
Qed.

Lemma lines_text_utf8 l : Forall (λ s, utf8_text s = true) l → utf8_text (lines_text l) = true.
Proof.
  induction 1 as [|s l Hs _ IH]; [done|]. rewrite lines_text_cons. repeat apply utf8_text_app; done.
Qed.

(** A checksum manifest whose lines are readable is read back as its keys and lower-case digests. *)
Lemma read_written_manifest nfc payload (raw : string → string) l :
  (∀ kv, kv ∈ l → readable nfc payload (raw kv.1) kv.1 kv.2) → NoDup l.*1 →
  read_checksum_manifest nfc payload (lines_text ((λ kv, checksum_line kv.2 (raw kv.1)) <$> l)) =
  Ok (lowered <$> l).
Proof.
  intros Hl Hnd. set (lines := _ <$> l).
  assert (Hlines : Forall (λ s, utf8_text s = true ∧ one_line s) lines).
  { apply Forall_fmap, Forall_forall. intros kv Hin. by eapply checksum_line_ok, Hl. }
  apply Forall_and in Hlines as [Hutf Hone].
  assert (Hwf : Forall well_formed_text lines) by (eapply Forall_impl; [exact Hutf|]; apply utf8_text_well_formed).
  unfold read_checksum_manifest, read_lines. rewrite utf8_text_decodes by by apply lines_text_utf8.
  rewrite splitlines_text by done. by apply read_checksum_lines_written.
Qed.

(** A canonical relative path, with or without the payload directory in front of it. *)
Definition member_relpath (nfc : string → string) (p : string) : Prop :=
  canonicalize_manifest_path nfc p = Ok p ∧ canonicalize_manifest_path nfc (DATA_PREFIX +:+ p) = Ok p.

Definition writable (nfc : string → string) (kv : string * string) : Prop :=
  member_relpath nfc kv.1 ∧ utf8_decodes kv.1 = true ∧ one_line kv.1 ∧ hex_digest kv.2 = true.

Lemma data_prefix_line p : utf8_text p = true → one_line p → one_line (DATA_PREFIX +:+ p).
Proof.
  intros Hu Ho. apply one_line_app; [by apply well_formed_text_start, utf8_text_well_formed| |done].
  unfold one_line. by repeat constructor.
Qed.

Lemma payload_key nfc p :
  member_relpath nfc p → canonicalize_payload_manifest_path nfc (DATA_PREFIX +:+ p) = Ok p.
Proof.
  intros [_ H]. unfold canonicalize_payload_manifest_path.
  change (strip_dot_slash (DATA_PREFIX +:+ p)) with (DATA_PREFIX +:+ p).
  change (is_absolute (DATA_PREFIX +:+ p)) with false. rewrite strip_prefix_app.
  rewrite bool_decide_eq_true_2 by by eexists. exact H.
Qed.

Lemma writable_readable nfc kv :
  writable nfc kv → readable nfc true (DATA_PREFIX +:+ kv.1) kv.1 (lower kv.2).
Proof.
  intros (Hm & Hu%utf8_text_iff & Ho & Hd). split_and!.
  - by apply hex_digest_facts.
  - by apply utf8_text_app.
  - done.
  - rewrite characters_app; [done|]. by apply well_formed_text_start, utf8_text_well_formed.
  - by apply data_prefix_line.
  - by apply payload_key.
Qed.

Lemma manifest_lines_written nfc l :
  (∀ kv, kv ∈ l → writable nfc kv) →
  manifest_lines nfc l = Ok ((λ kv, checksum_line (lower kv.2) (DATA_PREFIX +:+ kv.1)) <$> l).
Proof.
  induction l as [|[p d] l IH]; intros Hl; [done|]. cbn [manifest_lines].
  destruct (Hl (p, d)) as ([Hm _] & _ & _ & Hd); [by left|]. cbn [fst snd] in *.
  destruct (hex_digest_facts d Hd) as (_ & _ & _ & _ & Hlow & _).
  destruct (hex_digest_facts _ Hlow) as (_ & _ & _ & -> & _). cbn. rewrite Hm. cbn.
  rewrite IH; [done|]. intros kv Hin. apply Hl. by right.
Qed.

Lemma lowered_again (l : dict string) : (∀ kv, kv ∈ l → hex_digest kv.2 = true) → lowered <$> (lowered <$> l) = lowered <$> l.
Proof.
  intros Hl. rewrite <- list_fmap_compose. apply list_fmap_ext. intros i [k d] Hi.
  apply list_elem_of_lookup_2, Hl, hex_digest_facts in Hi as (_ & _ & _ & _ & _ & Hd).
  unfold lowered. cbn in *. by rewrite Hd.
Qed.

Lemma manifest_text_reads nfc entries :
  NoDup (dkeys entries) → (∀ kv, kv ∈ entries → writable nfc kv) →
  ∃ text, bagit_manifest_text nfc entries = Ok text ∧
    read_manifest_sha256 nfc text = Ok (lowered <$> sort_by fst entries).
Proof.
  intros Hnd Hall. set (l := sort_by fst entries).
  assert (Hl : ∀ kv, kv ∈ l → writable nfc kv) by (intros kv Hin; apply Hall; by apply elem_of_sort_by in Hin).
  exists (lines_text ((λ kv, checksum_line (lower kv.2) (DATA_PREFIX +:+ kv.1)) <$> l)). split.
  - unfold bagit_manifest_text. fold l. by rewrite manifest_lines_written.
  - unfold read_manifest_sha256.
    replace ((λ kv, checksum_line (lower kv.2) (DATA_PREFIX +:+ kv.1)) <$> l)
      with ((λ kv, checksum_line kv.2 (DATA_PREFIX +:+ kv.1)) <$> (lowered <$> l))
      by (by rewrite <- list_fmap_compose).
    rewrite (read_written_manifest nfc true (λ k, DATA_PREFIX +:+ k)).
    + rewrite lowered_again; [done|]. intros kv Hin. by apply Hl in Hin as (_ & _ & _ & ?).
    + intros ? ([k d] & -> & Hin)%list_elem_of_fmap. apply (writable_readable nfc (k, d)), Hl, Hin.
    + rewrite <- list_fmap_compose. change (lowered <$> l) with (lowered <$> l).
      change (NoDup (fst <$> l)). unfold l. rewrite sort_by_perm. exact Hnd.
Qed.

(** ** Plain names

    A file name that canonicalisation leaves alone: normalised UTF-8 that needs no escape. *)

Definition plain_name (nfc : string → string) (c : string) : Prop :=
  c ≠ "" ∧ c ≠ "." ∧ c ≠ ".." ∧ lacks "/" c = true ∧ utf8_decodes c = true ∧ nfc c = c ∧ escape_text c = c.

Definition plain_path (nfc : string → string) (rel : list string) : Prop :=
  rel ≠ [] ∧ Forall (plain_name nfc) rel.

Lemma unescape_plain_name c : escape_text c = c → unescape_text c = Ok c.
Proof.
  intros H. unfold unescape_text. rewrite <- H at 1. unfold escape_text. rewrite to_of_raw.
  unfold escape_member_name. rewrite unescape_escape_from by done. cbn. by rewrite of_to_raw.
Qed.

Lemma plain_component nfc c fs : plain_name nfc c → canonical_component nfc fs c = Ok c.
Proof.
  intros (_ & _ & _ & _ & Hu & Hn & He).
  assert (Hc : canonical_component_from_bytes nfc c = c).
  { unfold canonical_component_from_bytes. by rewrite Hu, Hn. }
  destruct fs; cbn; [unfold canonical_component_from_fs; by rewrite Hc|].
  unfold canonical_component_from_manifest. by rewrite (unescape_plain_name c He), Hc.
Qed.

Lemma plain_components nfc fs rel : Forall (plain_name nfc) rel → canonical_components nfc fs rel = Ok rel.
Proof.
  induction 1 as [|c rel Hc _ IH]; [done|]. cbn [canonical_components].
  rewrite (plain_component nfc c fs Hc). destruct Hc as (H1 & H2 & H3 & _).
  rewrite decide_False by naive_solver. rewrite decide_False by done. cbn. by rewrite IH.
Qed.

Lemma lacks_no_slash c s : lacks "/" (String c s) = true → Ascii.eqb c "/" = false.
Proof. cbn. intros [H _]%andb_true_iff. by apply negb_true_iff in H. Qed.

Lemma slash_prefix s : (∀ c t, s = String c t → Ascii.eqb c "/" = false) → ∀ p, strip_prefix (String "/" p) s = None.
Proof.
  intros H p. destruct s as [|c t]; [done|]. cbn [strip_prefix].
  destruct (Ascii.eqb_spec "/" c) as [<-|]; [|done]. specialize (H _ _ eq_refl). discriminate H.
Qed.

Lemma lacks_start nfc rel : plain_path nfc rel → ∀ c t, join "/" rel = String c t → Ascii.eqb c "/" = false.
Proof.
  intros [Hne Hall] c t Hj. destruct rel as [|n rel]; [done|]. apply Forall_cons in Hall as [Hn _].
  destruct Hn as (Hn0 & _ & _ & Hl & _). destruct n as [|d n]; [done|]. apply lacks_no_slash in Hl.
  destruct rel; cbn [join] in Hj; [|rewrite string_cons_app in Hj]; injection Hj as <- _; exact Hl.
Qed.

Lemma plain_root nfc rel : plain_path nfc rel → path_root (join "/" rel) = "".
Proof.
  intros H. pose proof (slash_prefix _ (lacks_start nfc rel H)) as Hs. unfold path_root.
  rewrite !Hs. by repeat (rewrite decide_False by (by intros [? ?])).
Qed.

Lemma plain_parts nfc rel : plain_path nfc rel → path_parts (join "/" rel) = rel.
Proof.
  intros [Hne Hall]. unfold path_parts. rewrite split_on_join_end; [|eapply Forall_impl; [exact Hall|by intros c (_ & _ & _ & ? & _)]|done].
  clear Hne. induction Hall as [|c rel (Hc & Hd & _) _ IH]; [done|]. by rewrite filter_cons_True, IH.
Qed.

Lemma plain_nonempty nfc rel : plain_path nfc rel → join "/" rel ≠ "".
Proof.
  intros [Hne Hall]. destruct rel as [|n rel]; [done|]. apply Forall_cons in Hall as [(Hn & _) _].
  destruct n; [done|]. by destruct rel.
Qed.

Lemma plain_path_str nfc rel : plain_path nfc rel → path_str (join "/" rel) = join "/" rel.
Proof.
  intros H. unfold path_str. rewrite (plain_root nfc rel H), (plain_parts nfc rel H), string_nil_app.
  apply plain_nonempty in H. by destruct (join "/" rel).
Qed.

Lemma join_snoc l c : l ≠ [] → join "/" (l ++ [c]) = join "/" l +:+ "/" +:+ c.
Proof.
  induction l as [|x l IH]; [done|]. intros _. destruct l as [|y l]; [done|].
  change (join "/" ((x :: y :: l) ++ [c])) with (x +:+ "/" +:+ join "/" ((y :: l) ++ [c])).
  rewrite IH by done. change (join "/" (x :: y :: l)) with (x +:+ "/" +:+ join "/" (y :: l)).
  by rewrite !string_app_assoc.
Qed.

Lemma strip_suffix_Some suffix s t : strip_suffix suffix s = Some t → s = t +:+ suffix.
Proof.
  revert t. induction s as [|c s IH]; intros t; cbn; case_decide; [by intros [= <-]|done| |].
  - intros [= <-]. done.
  - destruct (strip_suffix suffix s) as [u|] eqn:E; [|done]. cbn. intros [= <-].
    rewrite string_cons_app. f_equal. by apply IH.
Qed.

Lemma list_ascii_app s t :
  String.list_ascii_of_string (s +:+ t) = String.list_ascii_of_string s ++ String.list_ascii_of_string t.
Proof. induction s as [|c s IH]; [done|]. rewrite string_cons_app. cbn. by rewrite IH. Qed.

Lemma lacks_not_elem sep s : lacks sep s = true → sep ∉ String.list_ascii_of_string s.
Proof.
  induction s as [|c s IH]; [intros _; apply not_elem_of_nil|]. cbn. intros [Hc Hs]%andb_true_iff.
  apply not_elem_of_cons. split; [|by apply IH]. intros ->. by rewrite Ascii.eqb_refl in Hc.
Qed.

Lemma no_slash_end u n t : n ≠ "" → lacks "/" n = true → u +:+ n ≠ t +:+ "/".
Proof.
  intros Hn Hl%lacks_not_elem Heq. apply (f_equal (last ∘ String.list_ascii_of_string)) in Heq. cbn in Heq.
  rewrite !list_ascii_app, !last_app in Heq. cbn in Heq.
  destruct (last (String.list_ascii_of_string n)) as [c|] eqn:E.
  - injection Heq as ->. by apply last_Some_elem_of in E.
  - apply last_None in E. by destruct n.
Qed.

Lemma plain_join_step nfc l c :
  plain_path nfc l → plain_name nfc c → posix_join (join "/" l) c = join "/" (l ++ [c]).
Proof.
  intros Hl (Hc0 & _ & _ & Hcl & _). pose proof (lacks_start nfc l Hl) as Hs. destruct Hl as [Hne Hall].
  rewrite join_snoc by done. unfold posix_join, path_join.
  rewrite decide_False by (by apply (plain_nonempty nfc)). rewrite decide_False.
  2:{ rewrite slash_prefix; [by intros [? ?]|]. intros d t ->. by eapply lacks_no_slash. }
  rewrite decide_False; [done|]. intros [t Ht%strip_suffix_Some].
  assert (Hlast : ∃ n, n ∈ l ∧ ∃ u, join "/" l = u +:+ n ∧ plain_name nfc n).
  { destruct (exists_last Hne) as (l' & n & ->). exists n. split; [set_solver|].
    apply Forall_app in Hall as [_ [Hn _]%Forall_cons]. destruct l' as [|x l'].
    - exists "". by split.
    - exists (join "/" (x :: l') +:+ "/"). rewrite join_snoc by done. by rewrite string_app_assoc. }
  destruct Hlast as (n & _ & u & Hu & (Hn0 & _ & _ & Hnl & _)). rewrite Hu in Ht.
  exact (no_slash_end u n t Hn0 Hnl Ht).
Qed.

Lemma plain_pure_path nfc rel : plain_path nfc rel → pure_path rel = join "/" rel.
Proof.
  intros H. unfold pure_path. rewrite <- (plain_path_str nfc rel H). f_equal.
  destruct rel as [|c rel] using rev_ind; [by destruct H|]. rewrite foldl_app. cbn [foldl].
  destruct H as [_ [Hall Hc]%Forall_app]. apply Forall_cons in Hc as [Hc _].
  assert (Hfold : foldl posix_join "" rel = join "/" rel).
  { clear c IHrel Hc. induction rel as [|c rel IH] using rev_ind; [done|].
    apply Forall_app in Hall as [Hall [Hc _]%Forall_cons]. rewrite foldl_app. cbn [foldl]. rewrite IH by done.
    destruct rel as [|x rel]; [done|]. by apply (plain_join_step nfc). }
  rewrite Hfold. destruct rel as [|x rel]; [done|]. by apply (plain_join_step nfc).
Qed.

Lemma plain_canonical nfc fs rel : plain_path nfc rel → canonicalize_parts nfc fs rel = Ok (join "/" rel).
Proof.
  intros H. unfold canonicalize_parts. rewrite plain_components by apply H. cbn.
  rewrite (plain_pure_path nfc rel H). by destruct H, rel.
Qed.

Lemma plain_pure_parts nfc rel : plain_path nfc rel → pure_parts (join "/" rel) = rel.
Proof. intros H. unfold pure_parts. by rewrite (plain_root nfc rel H), (plain_parts nfc rel H). Qed.

Lemma strip_dot_slash_id nfc rel : plain_path nfc rel → strip_dot_slash (join "/" rel) = join "/" rel.
Proof.
  intros [Hne Hall]. destruct rel as [|n rel]; [done|].
  apply Forall_cons in Hall as [(Hn & Hdot & _ & Hl & _) _].
  destruct n as [|c n]; [done|]. destruct n as [|d n].
  - destruct rel as [|m rel]; [done|]. cbn [join]. rewrite !string_cons_app, string_nil_app. cbn [strip_dot_slash].
    destruct (Ascii.eqb_spec c "."); [by subst|done].
  - assert (Hd : Ascii.eqb d "/" = false).
    { cbn in Hl. rewrite !andb_true_iff in Hl. destruct Hl as (_ & Hd & _). by apply negb_true_iff in Hd. }
    destruct rel as [|m rel]; cbn [join]; rewrite ?string_cons_app; cbn [strip_dot_slash]; by rewrite Hd, andb_false_r.
Qed.

Lemma lstrip_slash_id s : (∀ c t, s = String c t → Ascii.eqb c "/" = false) → lstrip_slash s = s.
Proof. intros H. destruct s as [|c t]; [done|]. cbn. by rewrite (H c t eq_refl). Qed.

Definition not_under_data (rel : list string) : Prop := ∀ n rest, rel ≠ DATA_DIR_NAME :: n :: rest.

Lemma strip_prefix_Some p s t : strip_prefix p s = Some t → s = p +:+ t.
Proof.
  revert s. induction p as [|c p IH]; intros s; [by intros [= ->]|]. destruct s as [|d s]; [done|]. cbn [strip_prefix].
  destruct (Ascii.eqb_spec c d) as [->|]; [|done]. intros ->%IH. by rewrite string_cons_app.
Qed.

Lemma strip_data_id nfc rel : plain_path nfc rel → not_under_data rel → strip_data (join "/" rel) = join "/" rel.
Proof.
  intros Hp Hd. unfold strip_data. destruct (strip_prefix DATA_PREFIX (join "/" rel)) as [t|] eqn:E; [|done].
  exfalso. apply strip_prefix_Some in E. pose proof (plain_parts nfc rel Hp) as Hparts.
  destruct Hp as [Hne Hall].
  assert (Hsplit : split_on "/" (join "/" rel) = DATA_DIR_NAME :: split_on "/" t).
  { rewrite E. by apply (split_on_cons "/" DATA_DIR_NAME). }
  rewrite split_on_join_end in Hsplit; [|eapply Forall_impl; [exact Hall|by intros c (_ & _ & _ & ? & _)]|done].
  destruct (split_on "/" t) as [|n rest] eqn:Et; [|by eapply Hd].
  destruct t as [|c t]; [discriminate Et|]. cbn in Et. destruct (Ascii.eqb c "/"); [done|].
  by destruct (split_on "/" t).
Qed.

Lemma plain_member nfc rel : plain_path nfc rel → not_under_data rel → member_relpath nfc (join "/" rel).
Proof.
  intros Hp Hd. pose proof (plain_canonical nfc false rel Hp) as Hc. split.
  - unfold canonicalize_manifest_path. rewrite (strip_dot_slash_id nfc), lstrip_slash_id by eauto using lacks_start.
    rewrite (strip_data_id nfc), (plain_pure_parts nfc) by done. exact Hc.
  - unfold canonicalize_manifest_path.
    change (lstrip_slash (strip_dot_slash (DATA_PREFIX +:+ join "/" rel))) with (DATA_PREFIX +:+ join "/" rel).
    unfold strip_data. rewrite strip_prefix_app. cbn [default from_option id]. by rewrite (plain_pure_parts nfc).
Qed.

Lemma plain_utf8 nfc rel : Forall (plain_name nfc) rel → utf8_text (join "/" rel) = true.
Proof.
  induction 1 as [|c rel (_ & _ & _ & _ & Hu%utf8_text_iff & _) _ IH]; [done|]. cbn [join].
  destruct rel as [|m rel]; [done|]. repeat apply utf8_text_app; done.
Qed.

Lemma plain_writable nfc rel p d :
  canonicalize_filesystem_path nfc rel = Ok p → plain_path nfc rel → not_under_data rel → one_line p →
  hex_digest d = true → writable nfc (p, d).
Proof.
  intros Hp Hrel Hd Ho Hh. unfold canonicalize_filesystem_path in Hp.
  rewrite (plain_canonical nfc true rel Hrel) in Hp. injection Hp as <-.
  split; [by apply plain_member|]. split; [|done]. apply utf8_text_iff, (plain_utf8 nfc), Hrel.
Qed.

(** ** Bag metadata *)

(** A label that is read back as it stands. *)
Definition label_ok (k : string) : bool :=
  utf8_text k && forallb (λ c, negb (is_break c)) (characters k) && bool_decide (":" ∉ characters k) &&
  bool_decide (strip (characters k) = characters k) &&
  match characters k with c :: _ => negb (is_white c) | [] => false end.

Definition value_ok (v : string) : Prop :=
  utf8_text (bag_info_value v) = true ∧ one_line (bag_info_value v).

Definition stripped (v : string) : string := of_chars (strip (characters (bag_info_value v))).

Definition info_text_line (kv : string * string) : string := kv.1 +:+ ": " +:+ bag_info_value kv.2.

Lemma forallb_negb {A} (f : A → bool) l : forallb (λ x, negb (f x)) l = true ↔ Forall (λ x, f x = false) l.
Proof. rewrite forallb_Forall. apply Forall_iff. intros x. apply negb_true_iff. Qed.

Lemma split_colon_app l rest : ":" ∉ l → split_colon (l ++ ":" :: rest) = Some (l, rest).
Proof.
  induction l as [|c l IH]; [done|]. intros [Hc Hl]%not_elem_of_cons. cbn [app split_colon].
  rewrite decide_False by congruence. by rewrite IH.
Qed.

Lemma info_line_chars kv :
  value_ok kv.2 → characters (info_text_line kv) = characters kv.1 ++ ":" :: " " :: characters (bag_info_value kv.2).
Proof.
  intros [Hu _]. apply utf8_text_well_formed, well_formed_text_start in Hu. unfold info_text_line.
  rewrite characters_app by done. f_equal. by rewrite (characters_app ": ").
Qed.

Lemma read_info_lines_written l : ∀ n current acc,
  Forall (λ kv, label_ok kv.1 = true ∧ value_ok kv.2) l → NoDup (dkeys acc ++ l.*1) →
  read_info_lines n (characters <$> (info_text_line <$> l)) current acc =
  Ok (acc ++ ((λ kv, (kv.1, stripped kv.2)) <$> l)).
Proof.
  induction l as [|[k v] l IH]; intros n current acc Hl Hnd; [cbn; by rewrite app_nil_r|].
  apply Forall_cons in Hl as [[Hk Hv] Hl]. cbn [fst snd] in *. cbn [fmap list_fmap].
  rewrite info_line_chars by done. cbn [fst snd]. unfold label_ok in Hk. split_bools.
  destruct (characters k) as [|c cs] eqn:Ek; [done|]. apply negb_true_iff in H0.
  cbn [app read_info_lines]. rewrite H0.
  change (c :: cs ++ ":" :: " " :: characters (bag_info_value v))
    with ((c :: cs) ++ ":" :: " " :: characters (bag_info_value v)).
  rewrite split_colon_app, H1 by done. rewrite <- Ek, of_chars_characters.
  rewrite decide_False by (intros ->; discriminate Ek).
  change (strip (" " :: characters (bag_info_value v))) with (strip (characters (bag_info_value v))).
  destruct (NoDup_fresh_key k (stripped v) acc _ Hnd) as [Hfresh Hnd'].
  rewrite dset_fresh, IH by done. rewrite <- app_assoc. by destruct current.
Qed.

Definition info_entries (m : dict string) : dict string :=
  omap (λ k, pair k <$> dget k m) (bag_info_keys m).

Lemma info_lines_entries m : omap (bag_info_line m) (bag_info_keys m) = info_text_line <$> info_entries m.
Proof.
  unfold info_entries. induction (bag_info_keys m) as [|k ks IH]; [done|]. cbn. unfold bag_info_line at 1.
  destruct (dget k m); cbn; [f_equal|]; exact IH.
Qed.

Lemma bag_info_keys_NoDup m : NoDup (dkeys m) → NoDup (bag_info_keys m).
Proof.
  intros H. unfold bag_info_keys. apply NoDup_app. split; [by apply (bool_decide_unpack _)|]. split.
  - intros k Hk Hin. rewrite elem_of_sort_by, list_elem_of_filter in Hin. by destruct Hin.
  - apply NoDup_sort_by. by apply NoDup_filter.
Qed.

Lemma info_entries_keys (m : dict string) (ks : list string) :
  (omap (λ k, pair k <$> dget k m) ks : dict string).*1 `sublist_of` ks.
Proof.
  induction ks as [|k ks IH]; [done|]. cbn. destruct (dget k m); cbn; [by apply sublist_skip|by apply sublist_cons].
Qed.

Lemma info_entries_NoDup m : NoDup (dkeys m) → NoDup (info_entries m).*1.
Proof. intros H. eapply sublist_NoDup; [|apply info_entries_keys]. by apply bag_info_keys_NoDup. Qed.

Lemma elem_of_info_entries m k v : (k, v) ∈ info_entries m ↔ dget k m = Some v.
Proof.
  unfold info_entries. rewrite list_elem_of_omap. split.
  - intros (k' & Hk & Heq). destruct (dget k' m) eqn:E; [|done]. cbn in Heq. congruence.
  - intros H. exists k. rewrite H. split; [|done]. unfold bag_info_keys. rewrite elem_of_app, elem_of_sort_by, list_elem_of_filter.
    destruct (decide (k ∈ bag_info_order)); [by left|right]. split; [done|].
    apply dget_Some_elem in H. apply list_elem_of_fmap. by exists (k, v).
Qed.

(** The metadata of a bag is read back, its values stripped of the white space around them. *)
Lemma bag_info_reads m :
  NoDup (dkeys m) → (∀ k v, dget k m = Some v → label_ok k = true ∧ value_ok v) →
  ∃ m', read_bag_info (bag_info_text m) = Ok m' ∧ ∀ k, dget k m' = stripped <$> dget k m.
Proof.
  intros Hnd Hok. set (l := info_entries m).
  assert (Hl : Forall (λ kv, label_ok kv.1 = true ∧ value_ok kv.2) l).
  { apply Forall_forall. intros [k v] Hin. apply Hok. by apply elem_of_info_entries. }
  exists ((λ kv, (kv.1, stripped kv.2)) <$> l). split.
  - assert (Hlines : Forall (λ s, utf8_text s = true ∧ one_line s) (info_text_line <$> l)).
    { apply Forall_fmap. eapply Forall_impl; [exact Hl|]. intros [k v] [Hk [Hu Ho]]. unfold label_ok in Hk. split_bools.
      cbn. unfold info_text_line. cbn. split; [by repeat apply utf8_text_app|].
      pose proof (well_formed_text_start _ (utf8_text_well_formed _ Hu)).
      apply one_line_app; [done|by apply forallb_negb|]. apply one_line_app; [done| |done].
      unfold one_line. by repeat constructor. }
    apply Forall_and in Hlines as [Hutf Hone]. unfold bag_info_text, read_bag_info, read_lines.
    rewrite info_lines_entries. fold l. destruct l as [|kv l'] eqn:El; [done|].
    change (join LF (info_text_line <$> kv :: l') +:+ LF) with (lines_text (info_text_line <$> kv :: l')).
    rewrite <- El in *. rewrite utf8_text_decodes by by apply lines_text_utf8.
    rewrite splitlines_text; [|eapply Forall_impl; [exact Hutf|apply utf8_text_well_formed]|done].
    apply (read_info_lines_written l 1 None []); [done|]. cbn. by apply info_entries_NoDup.
  - intros k. destruct (dget k m) as [v|] eqn:E.
    + apply elem_dget.
      * change (NoDup (dkeys ((λ kv, (kv.1, stripped kv.2)) <$> l))). unfold dkeys. rewrite <- list_fmap_compose.
        by apply info_entries_NoDup.
      * apply list_elem_of_fmap. exists (k, v). split; [done|]. by apply elem_of_info_entries.
    + apply dget_None. unfold dkeys. rewrite <- list_fmap_compose. intros ([k' v] & -> & Hin)%list_elem_of_fmap.
      apply elem_of_info_entries in Hin. cbn in E. congruence.
Qed.
