(* ===== verification/BagFacts.v ===== *)
(** * Validation of bags

    What a bag that passes [validate_bag] is known to hold, and that the tag files
    [write_bagit_files] writes for a payload make a bag that passes. *)

From Stdlib Require Import Ascii Strings.Byte.
From stdpp Require Import pretty.
From S2P Require Import Prelude Json JsonText JobModels Catalog MemberName Scrub Accumulator FanoutMap Profiles.
From S2P Require Import NamingFacts FanoutMapFacts RetentionFs BagIt Bag BagItFacts.

#[local] Opaque RESOLVE_STEPS.

(** ** Canonical dictionaries *)

Lemma is_nil_true {A} (l : list A) : is_nil l = true ↔ l = [].
Proof. by destruct l. Qed.

Lemma sort_by_nil {A K} `{Ordered K} (f : A → K) l : sort_by f l = [] ↔ l = [].
Proof.
  split; [|by intros ->]. intros E. apply Permutation_nil. rewrite <- E. apply sort_by_perm.
Qed.

Lemma filter_is_nil {A} (P : A → Prop) `{!∀ x, Decision (P x)} l : filter P l = [] ↔ ∀ x, x ∈ l → ¬ P x.
Proof.
  split.
  - intros E x Hx HP. assert (Hin : x ∈ filter P l) by by apply list_elem_of_filter. rewrite E in Hin. by apply elem_of_nil in Hin.
  - intros Hno. destruct (filter P l) as [|x k] eqn:E; [done|]. assert (Hin : x ∈ filter P l) by (rewrite E; by left).
    apply list_elem_of_filter in Hin as [HP Hx]. by destruct (Hno x Hx).
Qed.

Lemma omap_is_nil {A B} (f : A → option B) l : omap f l = [] ↔ ∀ x, x ∈ l → f x = None.
Proof.
  induction l as [|x l IH]; [split; [intros _ x Hx; by apply elem_of_nil in Hx|done]|]. cbn.
  destruct (f x) eqn:E.
  - split; [done|]. intros H. rewrite H in E by by left. done.
  - rewrite IH. split.
    + intros H y [->|Hy]%elem_of_cons; auto.
    + intros H y Hy. apply H. by right.
Qed.

Section mismatch.
Context (nfc : string → string).

Local Abbreviation canon := (canonicalize_manifest_path nfc).

Lemma canonical_entries_get entries : ∀ acc d key x,
  canonical_entries nfc entries acc = Ok d → dget key d = Some x →
  dget key acc = Some x ∨ ∃ p v, (p, v) ∈ entries ∧ canon p = Ok key ∧ lower v = x.
Proof.
  induction entries as [|[p v] entries IH]; intros acc d key x; cbn [canonical_entries].
  - intros [= ->]. by left.
  - intros H Hx. inv_ok. destruct (IH _ _ _ _ H Hx) as [Hacc|(p' & v' & Hin & Hc & Hl)].
    + destruct (decide (x0 = key)) as [->|Hne].
      * rewrite dget_dset_eq in Hacc. right. exists p, v. split; [by left|]. by injection Hacc.
      * rewrite dget_dset_ne in Hacc by done. by left.
    + right. exists p', v'. split; [by right|]. done.
Qed.

Lemma canonical_entries_keep entries : ∀ acc d key x,
  canonical_entries nfc entries acc = Ok d → dget key acc = Some x →
  (∀ p v, (p, v) ∈ entries → canon p = Ok key → lower v = x) → dget key d = Some x.
Proof.
  induction entries as [|[p v] entries IH]; intros acc d key x; cbn [canonical_entries].
  - by intros [= ->].
  - intros H Hx Hall. inv_ok. eapply IH; [exact H| |intros; eapply Hall; [by right|done]].
    destruct (decide (x0 = key)) as [->|Hne]; [|by rewrite dget_dset_ne].
    rewrite dget_dset_eq. f_equal. eapply Hall; [by left|done].
Qed.

(** A path whose canonical form no other path shares keeps its digest. *)
Lemma canonical_entries_of entries : ∀ acc d p v,
  canonical_entries nfc entries acc = Ok d → (p, v) ∈ entries →
  (∀ p' v' key, (p', v') ∈ entries → canon p = Ok key → canon p' = Ok key → lower v' = lower v) →
  ∃ key, canon p = Ok key ∧ dget key d = Some (lower v).
Proof.
  induction entries as [|[p' v'] entries IH]; intros acc d p v; cbn [canonical_entries].
  - intros _ Hin. by apply elem_of_nil in Hin.
  - intros H Hin Hall. inv_ok. apply elem_of_cons in Hin as [[= -> ->]|Hin].
    + exists x. split; [done|]. eapply canonical_entries_keep; [exact H|apply dget_dset_eq|].
      intros q w Hq Hc. eapply Hall; [by right|done|done].
    + eapply IH; [exact H|exact Hin|]. intros q w key Hq. eapply Hall. by right.
Qed.

Lemma canonical_entries_covers entries acc d p v :
  canonical_entries nfc entries acc = Ok d → (p, v) ∈ entries → ∃ key, canon p = Ok key ∧ is_Some (dget key d).
Proof.
  revert acc. induction entries as [|[p' v'] entries IH]; intros acc; cbn [canonical_entries].
  - intros _ Hin. by apply elem_of_nil in Hin.
  - intros H Hin. inv_ok. apply elem_of_cons in Hin as [[= -> ->]|Hin]; [|by eapply IH].
    exists x. split; [done|]. clear IH H0. revert d H.
    assert (Hs : is_Some (dget x (dset x (lower v') acc))) by (rewrite dget_dset_eq; by eexists).
    revert Hs. generalize (dset x (lower v') acc). induction entries as [|[q w] entries IH]; intros a Ha d H.
    + by injection H as ->.
    + cbn in H. inv_ok. eapply IH; [|exact H].
      destruct (decide (x0 = x)) as [->|Hne]; [rewrite dget_dset_eq; by eexists|by rewrite dget_dset_ne].
Qed.

Definition no_mismatch (m : Mismatch) : Prop := mi_missing m = [] ∧ mi_extra m = [] ∧ mi_mismatched m = [].

(** Nothing is reported exactly when the canonical dictionaries agree. *)
Lemma no_mismatch_iff actual expected a e m :
  canonical_entries nfc actual [] = Ok a → canonical_entries nfc expected [] = Ok e →
  manifest_mismatch nfc actual expected = Ok m →
  no_mismatch m ↔ ∀ key, dget key a = dget key e.
Proof.
  intros Ha He. unfold manifest_mismatch. rewrite Ha, He. cbn [mbind result_bind]. case_decide as Hnil.
  - intros [= <-]. unfold no_mismatch. cbn. rewrite sort_by_nil. subst e. split.
    + intros (_ & Hk & _). destruct a; [done|discriminate Hk].
    + intros H. split; [done|]. split; [|done]. destruct a as [|[k v] a]; [done|].
      specialize (H k). cbn in H. by rewrite decide_True in H.
  - intros [= <-]. unfold no_mismatch. cbn. rewrite !sort_by_nil, !filter_is_nil, omap_is_nil. split.
    + intros (H1 & H2 & H3) key. destruct (dget key e) as [x|] eqn:Ee.
      * assert (Hke : key ∈ dkeys e) by (destruct (decide (key ∈ dkeys e)) as [|Hn]; [done|]; apply dget_None in Hn; congruence).
        assert (Hka : key ∈ dkeys a) by (destruct (decide (key ∈ dkeys a)); [done|]; by destruct (H1 key)).
        destruct (dget key a) as [y|] eqn:Ea; [|by apply dget_None in Ea].
        specialize (H3 key). rewrite elem_of_sort_by, list_elem_of_filter in H3. specialize (H3 (conj Hke Hka)).
        unfold mismatched_at in H3. rewrite Ee, Ea in H3. cbn in H3. case_decide; [congruence|done].
      * apply dget_None. intros Hka. apply dget_None in Ee. by apply (H2 key).
    + intros H. assert (Hkeys : ∀ key, key ∈ dkeys a ↔ key ∈ dkeys e).
      { intros key. pose proof (dget_None key a) as H1. pose proof (dget_None key e) as H2.
        rewrite H in H1. destruct (decide (key ∈ dkeys a)), (decide (key ∈ dkeys e)); tauto. }
      split_and!; [intros k Hk Hn; by apply Hn, Hkeys|intros k Hk Hn; by apply Hn, Hkeys|].
      intros k _. unfold mismatched_at. rewrite H. destruct (dget k e); [|done]. cbn. by rewrite decide_True.
Qed.

End mismatch.

Section validation.
Context (nfc casefold : string → string) (sha256_hex : bytes → string).
Context (json_loads : bytes → option json) (json_str : json → string).
Context (receive_package package_profile_hash : string).

Local Abbreviation canon := (canonicalize_manifest_path nfc).
Local Abbreviation payload_files := (payload_files nfc casefold).
Local Abbreviation validate_bag :=
  (validate_bag nfc casefold sha256_hex json_loads json_str receive_package package_profile_hash).
Local Abbreviation annotate_record := (annotate_record nfc json_str).
Local Abbreviation annotate_records := (annotate_records nfc json_str).

(** ** Receipts *)

Definition receipt_key (r : FileReceipt) : string * string * Z := (fr_relpath r, fr_sha256_hex r, fr_size_bytes r).

Definition file_key (f : string * bytes) : string * string * Z :=
  (f.1, sha256_hex f.2, Z.of_nat (String.length f.2)).

Lemma annotate_records_key by_stored l : ∀ l',
  annotate_records by_stored l = Ok l' → receipt_key <$> l' = receipt_key <$> l.
Proof.
  induction l as [|r l IH]; intros l' H; cbn [Bag.annotate_records] in H; inv_ok; [done|].
  rewrite !fmap_cons. f_equal; [|by apply IH]. unfold Bag.annotate_record in H0.
  destruct (dget _ _); inv_ok; done.
Qed.

Lemma indexed_records_key fs root records records' es :
  indexed_records nfc json_loads json_str package_profile_hash fs root records = (records', es) →
  receipt_key <$> records' = receipt_key <$> records.
Proof.
  unfold indexed_records. destruct (path_exists _ _); [|by intros [= <- <-]].
  destruct (_ ≫= _) as [annotated|e] eqn:E; intros [= <- <-]; [|done]. inv_ok.
  unfold annotate_package_records in E. inv_ok. by eapply annotate_records_key.
Qed.

Lemma receipts_dict_get l : ∀ acc p,
  dget p (foldl (λ d r, dset (fr_relpath r) (fr_sha256_hex r) d) acc l) =
  match last (filter (λ r, fr_relpath r = p) l) with Some r => Some (fr_sha256_hex r) | None => dget p acc end.
Proof.
  induction l as [|r l IH]; intros acc p; [done|]. cbn [foldl]. rewrite IH.
  destruct (decide (fr_relpath r = p)) as [Heq|Hne].
  - rewrite filter_cons_True by done. destruct (filter _ l) as [|r' k]; cbn [last]; [by rewrite Heq, dget_dset_eq|].
    destruct (last (r' :: k)) eqn:E; [done|]. by apply last_None in E.
  - rewrite filter_cons_False by done. by rewrite dget_dset_ne.
Qed.

Lemma receipts_dict_NoDup l : NoDup (dkeys (receipts_dict l)).
Proof.
  unfold receipts_dict. assert (H : NoDup (dkeys ([] : dict string))) by constructor. revert H.
  generalize ([] : dict string). induction l as [|r l IH]; intros acc H; [done|]. cbn. by apply IH, NoDup_dset.
Qed.

Lemma receipts_dict_elem l p d :
  (p, d) ∈ receipts_dict l ↔ ∃ r, last (filter (λ r, fr_relpath r = p) l) = Some r ∧ fr_sha256_hex r = d.
Proof.
  pose proof (receipts_dict_NoDup l) as Hnd. pose proof (receipts_dict_get l [] p) as Hget.
  fold (receipts_dict l) in Hget. split.
  - intros Hin. apply elem_dget in Hin; [|done]. rewrite Hget in Hin.
    destruct (last _) as [r|]; [|done]. exists r. split; [done|]. by injection Hin.
  - intros (r & Hr & <-). rewrite Hr in Hget. by apply dget_Some_elem.
Qed.

(** ** Soundness *)

(** No two payload files have one canonical path. *)
Definition unambiguous (files : list (string * bytes)) : Prop :=
  ∀ f f' key, f ∈ files → f' ∈ files → canon f.1 = Ok key → canon f'.1 = Ok key → f = f'.

Lemma valid_inv fs root v :
  validate_bag fs root = Ok v → valid v = true →
  ∃ files, payload_files true (rglob fs (root ++ [DATA_DIR_NAME])) = Ok files ∧
    receipt_key <$> bv_actual_records v = file_key <$> files ∧
    (content ← read_file fs (root ++ [MANIFEST_NAME]); read_manifest_sha256 nfc content) = Ok (bv_manifest v) ∧
    (∃ m, manifest_mismatch nfc (receipts_dict (bv_actual_records v)) (bv_manifest v) = Ok m ∧ no_mismatch m) ∧
    (content ← read_file fs (root ++ [BAG_INFO_NAME]); read_bag_info content) = Ok (bv_metadata v) ∧
    (∃ required, verify_tagmanifest nfc sha256_hex fs root required = []) ∧
    (∃ has_index, metadata_errors receive_package package_profile_hash (bv_metadata v) (bv_actual_records v) has_index = []).
Proof.
  unfold Bag.validate_bag. destruct (payload_records _ _ _ _ _) as [hashed he] eqn:E1.
  destruct (manifest_of nfc fs root) as [manifest me] eqn:E2. destruct (metadata_of fs root) as [metadata ie] eqn:E3.
  destruct (indexed_records _ _ _ _ _ _ _) as [records xe] eqn:E4.
  intros H. apply bind_Ok in H as (mm & Hmm & [= <-]).
  unfold valid, complete.
  cbn [bv_missing bv_extra bv_mismatched bv_tag_mismatched bv_errors bv_manifest bv_metadata bv_actual_records].
  rewrite !andb_true_iff, !is_nil_true. intros (((((Hmi & Hex) & _) & Hmis) & Htag) & Herr).
  apply app_eq_nil in Herr as [-> [-> [-> [-> Hme]%app_eq_nil]%app_eq_nil]%app_eq_nil].
  apply indexed_records_key in E4.
  unfold payload_records in E1. destruct (is_dir _ _); [|done]. change (negb true) with false in E1. cbv iota in E1.
  destruct (hash_payload_tree _ _ _ _ _ _) as [r|] eqn:E5; [|done]. injection E1 as ->.
  unfold hash_payload_tree in E5. inv_ok.
  unfold manifest_of in E2. destruct (_ ≫= _) as [mf|] eqn:E6 in E2; [|done]. injection E2 as ->.
  unfold metadata_of in E3. destruct (_ ≫= _) as [md|] eqn:E7 in E3; [|done]. injection E3 as ->.
  eexists. split; [done|]. split.
  { rewrite E4. clear. induction x as [|f l IH]; [done|]. cbn [map]. rewrite !fmap_cons. by f_equal. }
  split; [done|]. split; [by exists mm|]. split; [done|]. split; by eexists.
Qed.

Lemma record_of_file (records : list FileReceipt) (files : list (string * bytes)) r :
  receipt_key <$> records = file_key <$> files → r ∈ records →
  ∃ f, f ∈ files ∧ fr_relpath r = f.1 ∧ fr_sha256_hex r = sha256_hex f.2.
Proof.
  intros H Hr. assert (Hin : receipt_key r ∈ file_key <$> files) by (rewrite <- H; by apply list_elem_of_fmap_2).
  apply list_elem_of_fmap in Hin as (f & Heq & Hf). exists f. by injection Heq as -> -> _.
Qed.

Lemma file_of_record (records : list FileReceipt) (files : list (string * bytes)) f :
  receipt_key <$> records = file_key <$> files → f ∈ files →
  ∃ r, r ∈ records ∧ fr_relpath r = f.1 ∧ fr_sha256_hex r = sha256_hex f.2.
Proof.
  intros H Hf. assert (Hin : file_key f ∈ receipt_key <$> records) by (rewrite H; by apply list_elem_of_fmap_2).
  apply list_elem_of_fmap in Hin as (r & Heq & Hr). exists r. by injection Heq as -> -> _.
Qed.

(** The dictionary of the payload's receipts, whose relative paths are all canonical apart. *)
Lemma unambiguous_dict (records : list FileReceipt) (files : list (string * bytes)) f :
  receipt_key <$> records = file_key <$> files → unambiguous files →
  (∀ f, f ∈ files → ∃ key, canon f.1 = Ok key) → f ∈ files →
  (f.1, sha256_hex f.2) ∈ receipts_dict records.
Proof.
  intros Hk Hu Hc Hf. destruct (file_of_record _ _ _ Hk Hf) as (r & Hr & Hp & Hs). apply receipts_dict_elem.
  destruct (last (filter (λ r, fr_relpath r = f.1) records)) as [r'|] eqn:E.
  - exists r'. split; [done|]. apply last_Some_elem_of, list_elem_of_filter in E as [Hp' Hr'].
    destruct (record_of_file _ _ _ Hk Hr') as (f' & Hf' & Hp'' & Hs'). rewrite Hs'.
    destruct (Hc f Hf) as (key & Hkey). f_equal. f_equal. apply (Hu f' f key); [done|done| |done]. by rewrite <- Hp'', Hp'.
  - apply last_None in E. rewrite filter_is_nil in E. by destruct (E r Hr).
Qed.

(** The tag files that the tag manifest lists are those on disk. *)
Lemma tagmanifest_sound fs root required name :
  verify_tagmanifest nfc sha256_hex fs root required = [] → name ∈ BAG_TAG_FILES ++ required →
  ∃ content tags text, read_file fs (tag_path root name) = Ok content ∧
    read_file fs (root ++ [TAGMANIFEST_NAME]) = Ok text ∧
    read_checksum_manifest nfc false text = Ok tags ∧ (name, sha256_hex content) ∈ tags.
Proof.
  unfold verify_tagmanifest. destruct (_ ≫= _) as [tags|] eqn:E; [|done]. inv_ok.
  intros [Hl Hv]%app_eq_nil Hname. apply fmap_nil_inv in Hl. rewrite filter_is_nil in Hl. rewrite omap_is_nil in Hv.
  assert (Hin : name ∈ dkeys tags) by (destruct (decide (name ∈ dkeys tags)); [done|by destruct (Hl name)]).
  apply list_elem_of_fmap in Hin as ([n d] & -> & Hin). cbn in *.
  specialize (Hv (n, d)). rewrite elem_of_sort_by in Hv. specialize (Hv Hin). unfold verify_tag in Hv.
  destruct (is_safe_bag_relative_path n); [|done]. cbn in Hv. destruct (read_file fs (tag_path root n)) as [c|] eqn:Ec; [|done].
  case_decide as Hd; [|done]. subst d. by exists c, tags, x.
Qed.

Lemma mismatch_inv actual expected m :
  manifest_mismatch nfc actual expected = Ok m →
  ∃ a e, canonical_entries nfc actual [] = Ok a ∧ canonical_entries nfc expected [] = Ok e.
Proof. unfold manifest_mismatch. intros H. inv_ok. by eexists _, _. Qed.

Lemma canonical_keys records files a :
  receipt_key <$> records = file_key <$> files → canonical_entries nfc (receipts_dict records) [] = Ok a →
  ∀ f, f ∈ files → ∃ key, canon f.1 = Ok key.
Proof.
  intros Hk Ha f Hf. destruct (file_of_record _ _ _ Hk Hf) as (r & Hr & Hp & _).
  assert (Hin : ∃ d, (f.1, d) ∈ receipts_dict records).
  { destruct (last (filter (λ r, fr_relpath r = f.1) records)) as [r'|] eqn:E.
    - exists (fr_sha256_hex r'). apply receipts_dict_elem. by exists r'.
    - apply last_None in E. rewrite filter_is_nil in E. by destruct (E r Hr). }
  destruct Hin as [d Hin]. destruct (canonical_entries_covers _ _ _ _ _ _ Ha Hin) as (key & ? & _). by exists key.
Qed.

Lemma sizes_total records files :
  receipt_key <$> records = file_key <$> files →
  total_size records = foldr (λ f n, Z.of_nat (String.length f.2) + n) 0 files ∧ length records = length files.
Proof.
  revert files. induction records as [|r l IH]; intros [|f files]; try done.
  rewrite !fmap_cons. intros [= _ _ Hs Hl]. destruct (IH _ Hl) as [H1 H2]. unfold total_size in *. cbn.
  by rewrite Hs, H1, H2.
Qed.

(** C23: A bag that validates holds what its manifest says.  When no two payload files have the same
    canonical path, every payload file has in the manifest an entry with its canonical path and the
    digest of its content, every manifest entry names a payload file, the tag manifest lists the tag
    files with the digests of what is on disk, and, when the metadata of the bag has a label at all, its
    [Payload-Oxum] is the size and number of the payload files. *)
Theorem valid_bag_sound fs root v files :
  validate_bag fs root = Ok v → valid v = true →
  payload_files true (rglob fs (root ++ [DATA_DIR_NAME])) = Ok files → unambiguous files →
  (∀ f, f ∈ files → ∃ p d key, (p, d) ∈ bv_manifest v ∧ canon p = Ok key ∧ canon f.1 = Ok key ∧
    lower d = lower (sha256_hex f.2)) ∧
  (∀ p d, (p, d) ∈ bv_manifest v → ∃ f key, f ∈ files ∧ canon p = Ok key ∧ canon f.1 = Ok key) ∧
  (∀ name, name ∈ BAG_TAG_FILES → ∃ content text tags, read_file fs (tag_path root name) = Ok content ∧
    read_file fs (root ++ [TAGMANIFEST_NAME]) = Ok text ∧
    read_checksum_manifest nfc false text = Ok tags ∧ (name, sha256_hex content) ∈ tags) ∧
  (bv_metadata v ≠ [] → dget "Payload-Oxum" (bv_metadata v) =
    Some (oxum (foldr (λ f n, Z.of_nat (String.length f.2) + n) 0 files) (length files))).
Proof.
  intros Hv Hvalid Hfiles Hu.
  destruct (valid_inv fs root v Hv Hvalid) as (files' & Hf' & Hk & _ & (m & Hm & Hno) & _ & (req & Htag) & (hi & Hme)).
  rewrite Hfiles in Hf'. injection Hf' as <-.
  destruct (mismatch_inv _ _ _ Hm) as (a & e & Ha & He).
  pose proof (proj1 (no_mismatch_iff nfc _ _ _ _ _ Ha He Hm) Hno) as Heq.
  pose proof (canonical_keys _ _ _ Hk Ha) as Hkeys. split_and!.
  - intros f Hf. pose proof (unambiguous_dict _ _ _ Hk Hu Hkeys Hf) as Hin.
    destruct (canonical_entries_of nfc _ _ _ _ _ Ha Hin) as (key & Hkey & Hget).
    { intros p' d' key (r' & Hl & <-)%receipts_dict_elem Hc Hc'.
      apply last_Some_elem_of, list_elem_of_filter in Hl as [<- Hr'].
      destruct (record_of_file _ _ _ Hk Hr') as (f' & Hf' & Hp' & ->). rewrite Hp' in Hc'.
      by rewrite (Hu f f' key Hf Hf' Hc Hc'). }
    rewrite Heq in Hget. destruct (canonical_entries_get nfc _ _ _ _ _ He Hget) as [?|(p & d & Hpd & Hc & Hl)]; [done|].
    by exists p, d, key.
  - intros p d Hpd. destruct (canonical_entries_covers nfc _ _ _ _ _ He Hpd) as (key & Hkey & x & Hx).
    rewrite <- Heq in Hx. destruct (canonical_entries_get nfc _ _ _ _ _ Ha Hx) as [?|(p' & d' & Hin & Hc & _)]; [done|].
    apply receipts_dict_elem in Hin as (r & Hl & _). apply last_Some_elem_of, list_elem_of_filter in Hl as [<- Hr].
    destruct (record_of_file _ _ _ Hk Hr) as (f & Hf & Hp & _). exists f, key. by rewrite <- Hp.
  - intros name Hname. destruct (tagmanifest_sound fs root req name Htag) as (c & tags & text & H); [set_solver|].
    exists c, text, tags. naive_solver.
  - intros Hmd. destruct (sizes_total _ _ Hk) as [<- <-]. unfold metadata_errors in Hme.
    destruct (bv_metadata v) as [|kv md]; [done|]. apply app_eq_nil in Hme as [Hox _].
    unfold error_if in Hox. destruct (bool_decide _) eqn:Eb in Hox; [|done]. by apply bool_decide_eq_true_1 in Eb.
Qed.

End validation.
