(* ===== verification/BagWriteFacts.v ===== *)
(** * Written bags validate

    The tag files [write_bagit_files] writes next to a payload make a bag that [validate_bag]
    accepts, for the payloads and metadata whose text survives the tag files. *)

From Stdlib Require Import Ascii Strings.Byte.
From stdpp Require Import pretty.
From S2P Require Import Prelude Json JsonText JobModels Catalog MemberName Scrub Accumulator FanoutMap Profiles.
From S2P Require Import NamingFacts FanoutMapFacts DerivationReconciler DomainFacts RetentionFs BagIt Bag BagItFacts BagFacts.

#[local] Opaque RESOLVE_STEPS.

(** ** Directories without links *)

(** A path of real directories, none of them a parent reference, well below the limit on paths. *)
Definition real_dir (fs : Fs) (p : path) : Prop :=
  (∀ q, q ≠ [] → q `prefix_of` p → fs !! q = Some NDir) ∧ ".." ∉ p ∧ (length p + 8 < RESOLVE_STEPS)%nat.

Lemma walk_real fs lax todo : ∀ fuel done rest,
  (∀ q, q ≠ [] → q `prefix_of` todo → fs !! (done ++ q) = Some NDir) → ".." ∉ todo →
  walk (length todo + fuel) fs lax done (todo ++ rest) = walk fuel fs lax (done ++ todo) rest.
Proof.
  induction todo as [|n todo IH]; intros fuel done rest Hdir Hdots; [cbn; by rewrite app_nil_r|].
  apply not_elem_of_cons in Hdots as [Hn Hdots]. cbn [length Nat.add app walk].
  rewrite decide_False by congruence. rewrite (Hdir [n]); [|done|by apply prefix_cons, prefix_nil].
  rewrite IH; [by rewrite <- app_assoc| |done]. intros q Hq Hp. rewrite <- app_assoc.
  apply Hdir; [done|]. by apply prefix_cons.
Qed.

Lemma resolve_real fs lax p rest :
  real_dir fs p → ∃ fuel, (8 < fuel)%nat ∧ resolve fs lax (p ++ rest) = walk fuel fs lax p rest.
Proof.
  intros (Hdir & Hdots & Hlen). exists (RESOLVE_STEPS - length p)%nat. split; [lia|].
  unfold resolve. rewrite <- (walk_real fs lax p _ [] rest) by done. f_equal. lia.
Qed.

Lemma resolve_dir fs lax p : real_dir fs p → resolve fs lax p = Ok p.
Proof.
  intros H. destruct (resolve_real fs lax p [] H) as (fuel & Hf & Hr). rewrite app_nil_r in Hr. rewrite Hr.
  by destruct fuel; [lia|].
Qed.

Lemma resolve_child fs p n :
  real_dir fs p → n ≠ ".." → match fs !! (p ++ [n]) with
    | Some (NLink _) => True
    | Some _ => resolve fs false (p ++ [n]) = Ok (p ++ [n])
    | None => resolve fs false (p ++ [n]) = Err ENOENT
    end.
Proof.
  intros H Hn. destruct (resolve_real fs false p [n] H) as (fuel & Hf & ->).
  destruct fuel as [|[|fuel]]; [lia|lia|]. cbn [walk]. rewrite decide_False by done.
  by destruct (fs !! (p ++ [n])) as [[]|].
Qed.

Lemma node_at_snoc fs p n : node_at fs (p ++ [n]) = fs !! (p ++ [n]).
Proof. by destruct p. Qed.

Lemma node_at_real fs p : real_dir fs p → node_at fs p = Some NDir.
Proof. intros (Hdir & _). destruct p; [done|]. by apply Hdir. Qed.

Lemma read_file_child fs p n c :
  real_dir fs p → n ≠ ".." → fs !! (p ++ [n]) = Some (NFile c) → read_file fs (p ++ [n]) = Ok c.
Proof.
  intros H Hn Hc. pose proof (resolve_child fs p n H Hn) as Hr. rewrite Hc in Hr.
  unfold read_file, stat. rewrite Hr. cbn [mbind result_bind]. by rewrite node_at_snoc, Hc.
Qed.

Lemma exists_child_None fs p n :
  real_dir fs p → n ≠ ".." → fs !! (p ++ [n]) = None → path_exists fs (p ++ [n]) = false.
Proof.
  intros H Hn Hc. pose proof (resolve_child fs p n H Hn) as Hr. rewrite Hc in Hr.
  unfold path_exists, stat. by rewrite Hr.
Qed.

Lemma is_dir_child fs p n :
  real_dir fs p → n ≠ ".." → fs !! (p ++ [n]) = Some NDir → is_dir fs (p ++ [n]) = true.
Proof.
  intros H Hn Hc. pose proof (resolve_child fs p n H Hn) as Hr. rewrite Hc in Hr.
  unfold is_dir, stat. rewrite Hr. cbn [mbind result_bind]. by rewrite node_at_snoc, Hc.
Qed.

(** Writing a file that is not a directory leaves directories real. *)
Lemma real_dir_insert fs p q c : real_dir fs p → fs !! q ≠ Some NDir → q ≠ [] → real_dir (<[q := NFile c]> fs) p.
Proof.
  intros (Hdir & ? & ?) Hq Hne. split; [|done]. intros r Hr Hp. destruct (decide (r = q)) as [->|Hrq].
  - by rewrite Hdir in Hq.
  - rewrite lookup_insert_ne by done. by apply Hdir.
Qed.

Lemma atomic_write_real fs p n c :
  real_dir fs p → fs !! (p ++ [n]) ≠ Some NDir → atomic_write fs p n c = Ok (<[p ++ [n] := NFile c]> fs).
Proof.
  intros H Hn. unfold atomic_write. rewrite resolve_dir by done. rewrite node_at_real by done.
  by destruct (fs !! (p ++ [n])) as [[]|].
Qed.

(** ** What lies below a directory *)

Lemma below_Some r pn rel node : below r pn = Some (rel, node) ↔ rel ≠ [] ∧ pn = (r ++ rel, node).
Proof.
  unfold below, under. destruct pn as [p nd]. cbn. split.
  - case_bool; [|done]. intros [= <- <-]. split_bools. destruct H as [k ->].
    rewrite drop_app_length. split; [|done]. intros ->. by rewrite app_nil_r in H0.
  - intros [Hne [= -> ->]]. rewrite bool_decide_eq_true_2 by by apply prefix_app_r.
    rewrite bool_decide_eq_false_2; [cbn; by rewrite drop_app_length|].
    intros E. apply Hne. rewrite <- (app_nil_r r) in E at 2. by apply app_inv_head in E.
Qed.

Lemma elem_below fs r rel node :
  (rel, node) ∈ omap (below r) (map_to_list fs) ↔ rel ≠ [] ∧ fs !! (r ++ rel) = Some node.
Proof.
  rewrite list_elem_of_omap. split.
  - intros ([p nd] & Hin & [Hne [= -> ->]]%below_Some). split; [done|]. by apply elem_of_map_to_list.
  - intros [Hne Hl]. exists (r ++ rel, node). rewrite elem_of_map_to_list, below_Some. done.
Qed.

Lemma below_NoDup r (l : list (path * Node)) : NoDup l.*1 → NoDup (omap (below r) l).*1.
Proof.
  induction l as [|[p nd] l IH]; [constructor|]. intros [Hp Hl]%NoDup_cons. cbn [omap list_omap].
  destruct (below r (p, nd)) as [[rel n]|] eqn:E; [|by apply IH]. cbn. apply NoDup_cons. split; [|by apply IH].
  apply below_Some in E as [_ [= -> ->]]. intros ([rel' n'] & Hrel & Hin)%list_elem_of_fmap. cbn in Hrel. subst rel'.
  apply list_elem_of_omap in Hin as ([p' nd'] & Hin & [_ [= -> ->]]%below_Some). apply Hp.
  apply list_elem_of_fmap. by exists (r ++ rel, n').
Qed.

Lemma NoDup_fst_eq {A B} (l : list (A * B)) x y : NoDup l.*1 → x ∈ l → y ∈ l → x.1 = y.1 → x = y.
Proof.
  intros Hnd [i Hi]%list_elem_of_lookup [j Hj]%list_elem_of_lookup Heq.
  assert (i = j) as ->; [|congruence]. eapply NoDup_lookup; [exact Hnd| |]; rewrite list_lookup_fmap.
  - by rewrite Hi. - by rewrite Hj, Heq.
Qed.

(** What lies below a directory does not depend on the rest of the file system. *)
Lemma rglob_frame fs fs' r :
  resolve fs false r = Ok r → resolve fs' false r = Ok r →
  (∀ rel, rel ≠ [] → fs' !! (r ++ rel) = fs !! (r ++ rel)) → rglob fs' r = rglob fs r.
Proof.
  intros Hr Hr' Hsame. unfold rglob. rewrite Hr, Hr'. apply sort_by_canonical.
  - apply NoDup_Permutation.
    + eapply NoDup_fmap_1, below_NoDup, NoDup_fst_map_to_list.
    + eapply NoDup_fmap_1, below_NoDup, NoDup_fst_map_to_list.
    + intros [rel node]. rewrite !elem_below. split; intros [Hne H]; (split; [done|]); by rewrite <- H, Hsame.
  - intros x y Hx Hy. apply (NoDup_fst_eq (omap (below r) (map_to_list fs'))); [|done|done].
    apply below_NoDup, NoDup_fst_map_to_list.
Qed.

(** ** Metadata values *)

Definition printable (s : string) : bool :=
  forallb (λ c, (33 <=? nat_of_ascii c) && (nat_of_ascii c <=? 126))%nat (String.list_ascii_of_string s).

Lemma printable_char c :
  ((33 <=? nat_of_ascii c) && (nat_of_ascii c <=? 126))%nat = true →
  is_ascii c = true ∧ is_white (String c "") = false ∧ is_break (String c "") = false ∧
  Ascii.eqb c "010" = false ∧ Ascii.eqb c "013" = false.
Proof. destruct c as [[] [] [] [] [] [] [] []]; intros H; first [discriminate H|by vm_compute]. Qed.

Lemma drop_white_none l : Forall (λ c, is_white c = false) l → drop_white l = l.
Proof. destruct 1 as [|c l Hc _]; [done|]. cbn. by rewrite Hc. Qed.

Lemma strip_none l : Forall (λ c, is_white c = false) l → strip l = l.
Proof.
  intros H. unfold strip. rewrite (drop_white_none l H), drop_white_none by by apply Forall_rev.
  apply rev_involutive.
Qed.

(** Printable ASCII text is a metadata value that is read back as it was written. *)
Lemma printable_ok s : printable s = true → value_ok s ∧ stripped s = s.
Proof.
  intros H%forallb_Forall.
  assert (Hall : ascii_text s = true ∧ lacks "010" s = true ∧ lacks "013" s = true ∧
    Forall (λ c, is_white c = false) (characters s) ∧ one_line s).
  { unfold one_line. assert (Ha : ascii_text s = true).
    { induction s as [|c s IH]; [done|]. apply Forall_cons in H as [Hc Hs]. apply andb_true_iff.
      split; [by apply printable_char|by apply IH]. }
    rewrite ascii_text_chars by done. split; [done|]. clear Ha.
    induction s as [|c s IH]; [by repeat constructor|]. apply Forall_cons in H as [Hc Hs].
    apply printable_char in Hc as (_ & Hw & Hb & H10 & H13). destruct (IH Hs) as (I1 & I2 & I3 & I4).
    cbn. rewrite H10, H13, I1, I2. split_and!; try done; by constructor. }
  destruct Hall as (Ha & H10 & H13 & Hw & Ho).
  assert (Hv : bag_info_value s = s).
  { unfold bag_info_value. by rewrite (replace_char_lacks "013" _ s), (replace_char_lacks "010" _ s). }
  split.
  - unfold value_ok. rewrite Hv. split; [by apply utf8_ascii|done].
  - unfold stripped. rewrite Hv, strip_none by done. apply of_chars_characters.
Qed.

Lemma digits_printable l : all_digits l → forallb (λ c, (33 <=? nat_of_ascii c) && (nat_of_ascii c <=? 126))%nat l = true.
Proof.
  intros H. apply forallb_Forall. eapply Forall_impl; [exact H|]. intros c. unfold is_digit.
  intros [H1%Nat.leb_le H2%Nat.leb_le]%andb_true_iff. apply andb_true_iff. split; apply Nat.leb_le; lia.
Qed.

Lemma pretty_printable (z : Z) : 0 <= z → printable (pretty z) = true.
Proof.
  intros Hz. unfold printable.
  assert (Hn : ∃ n : N, pretty z = pretty n) by (exists (Z.to_N z); by destruct z).
  destruct Hn as [n ->]. destruct (pretty_N_digits n) as (l & _ & Hl & _ & ->). by apply digits_printable.
Qed.

Lemma printable_app s t : printable s = true → printable t = true → printable (s +:+ t) = true.
Proof. unfold printable. rewrite list_ascii_app, forallb_app. intros -> ->. done. Qed.

Lemma oxum_printable total n : 0 <= total → printable (oxum total n) = true.
Proof. intros H. repeat apply printable_app; [by apply pretty_printable|done|apply pretty_printable; lia]. Qed.

(** ** The manifest against the payload it was written for *)

Lemma dget_perm {A} (d e : dict A) k : NoDup (dkeys d) → d ≡ₚ e → dget k d = dget k e.
Proof.
  intros Hd Hp. assert (He : NoDup (dkeys e)) by (unfold dkeys in *; by rewrite <- Hp).
  destruct (dget k e) as [v|] eqn:E.
  - apply elem_dget; [done|]. rewrite Hp. by apply dget_Some_elem.
  - apply dget_None in E. apply dget_None. unfold dkeys in *. by rewrite Hp.
Qed.

Lemma canonical_entries_fixed nfc entries : ∀ acc,
  (∀ kv, kv ∈ entries → canonicalize_manifest_path nfc kv.1 = Ok kv.1) → NoDup (dkeys acc ++ entries.*1) →
  canonical_entries nfc entries acc = Ok (acc ++ (lowered <$> entries)).
Proof.
  induction entries as [|[p d] entries IH]; intros acc Hc Hnd; [cbn; by rewrite app_nil_r|].
  cbn [canonical_entries]. pose proof (Hc (p, d) (list_elem_of_here _ _)) as Hp. cbn [fst] in Hp. rewrite Hp.
  cbn [mbind result_bind].
  destruct (NoDup_fresh_key p (lower d) acc _ Hnd) as [Hfresh Hnd'].
  rewrite dset_fresh by done. rewrite IH; [by rewrite <- app_assoc| |done]. intros kv Hin. apply Hc. by right.
Qed.

Lemma receipts_dict_fresh l : ∀ acc,
  NoDup (dkeys acc ++ (fr_relpath <$> l)) →
  foldl (λ d r, dset (fr_relpath r) (fr_sha256_hex r) d) acc l =
  acc ++ ((λ r, (fr_relpath r, fr_sha256_hex r)) <$> l).
Proof.
  induction l as [|r l IH]; intros acc Hnd; [cbn; by rewrite app_nil_r|]. cbn [foldl].
  destruct (NoDup_fresh_key (fr_relpath r) (fr_sha256_hex r) acc _ Hnd) as [Hfresh Hnd'].
  rewrite dset_fresh, IH by done. by rewrite <- app_assoc.
Qed.

Lemma written_no_mismatch nfc entries :
  NoDup (dkeys entries) → (∀ kv, kv ∈ entries → writable nfc kv) →
  ∃ m, manifest_mismatch nfc entries (lowered <$> sort_by fst entries) = Ok m ∧ no_mismatch m.
Proof.
  intros Hnd Hw. set (expected := lowered <$> sort_by fst entries).
  assert (Hcan : ∀ kv, kv ∈ entries → canonicalize_manifest_path nfc kv.1 = Ok kv.1)
    by (intros kv Hin; by apply Hw in Hin as [[? _] _]).
  assert (Hke : NoDup expected.*1).
  { unfold expected. rewrite <- list_fmap_compose. change (NoDup (fst <$> sort_by fst entries)).
    by rewrite sort_by_perm. }
  pose proof (canonical_entries_fixed nfc entries [] Hcan Hnd) as Ha.
  assert (He : canonical_entries nfc expected [] = Ok (lowered <$> expected)).
  { apply (canonical_entries_fixed nfc expected []); [|done].
    intros ? ([k d] & -> & Hin)%list_elem_of_fmap. apply elem_of_sort_by in Hin. apply (Hcan _ Hin). }
  destruct (manifest_mismatch nfc entries expected) as [m|] eqn:Hm.
  - exists m. split; [done|]. apply (no_mismatch_iff nfc _ _ _ _ _ Ha He Hm). intros key. cbn [app].
    unfold expected. rewrite lowered_again by (intros kv Hin; rewrite elem_of_sort_by in Hin; by apply Hw in Hin as (_ & _ & _ & ?)).
    apply dget_perm; [|by rewrite sort_by_perm]. unfold dkeys. rewrite <- list_fmap_compose. exact Hnd.
  - exfalso. unfold manifest_mismatch in Hm. rewrite Ha, He in Hm. cbn [mbind result_bind] in Hm.
    by case_decide.
Qed.

Section written.
Context (nfc casefold : string → string) (sha256_hex : bytes → string).
Context (json_loads : bytes → option json) (json_str : json → string).
Context (receive_package package_profile_hash : string).

(** [hexdigest] returns sixty-four lower-case hexadecimal digits. *)
Context (Hsha : ∀ c, hex_digest (sha256_hex c) = true ∧ lower (sha256_hex c) = sha256_hex c).

Local Abbreviation payload_files := (payload_files nfc casefold).
Local Abbreviation write_bagit_files := (write_bagit_files nfc sha256_hex).
Local Abbreviation validate_bag :=
  (validate_bag nfc casefold sha256_hex json_loads json_str receive_package package_profile_hash).

Definition payload_entries (files : list (string * bytes)) : dict string := (λ f, (f.1, sha256_hex f.2)) <$> files.

Definition payload_bytes (files : list (string * bytes)) : Z :=
  foldr (λ f n, Z.of_nat (String.length f.2) + n) 0 files.

Lemma payload_bytes_nonneg files : 0 <= payload_bytes files.
Proof. unfold payload_bytes. induction files; cbn; lia. Qed.

(** *** The tag manifest *)

Definition put (root : path) (name : string) (content : bytes) (fs : Fs) : Fs := <[root ++ [name] := NFile content]> fs.

Lemma put_ne root n n' c fs : n ≠ n' → put root n c fs !! (root ++ [n']) = fs !! (root ++ [n']).
Proof. intros H. apply lookup_insert_ne. intros E. apply app_inv_head in E. congruence. Qed.

Lemma put_eq root n c fs : put root n c fs !! (root ++ [n]) = Some (NFile c).
Proof. apply lookup_insert_eq. Qed.

Lemma real_dir_put fs root n c : real_dir fs root → fs !! (root ++ [n]) ≠ Some NDir → real_dir (put root n c fs) root.
Proof. intros H Hn. apply real_dir_insert; [done|done|]. by destruct root. Qed.

(** The three tag files on disk, in the order of the tag manifest. *)
Definition tags_on_disk (fs : Fs) (root : path) (tags : dict bytes) : Prop :=
  dkeys tags = [BAG_INFO_NAME; BAGIT_NAME; MANIFEST_NAME] ∧
  Forall (λ kv, fs !! (root ++ [kv.1]) = Some (NFile kv.2)) tags.

Definition tag_digests (tags : dict bytes) : dict string := (λ kv, (kv.1, sha256_hex kv.2)) <$> tags.

Definition tags_text (tags : dict bytes) : string :=
  lines_text ((λ kv, checksum_line kv.2 kv.1) <$> tag_digests tags).

Lemma tag_name name : name ∈ [BAG_INFO_NAME; BAGIT_NAME; MANIFEST_NAME] →
  (∀ root, tag_path root name = root ++ [name]) ∧ name ≠ ".." ∧ is_safe_bag_relative_path name = true ∧
  readable nfc false name name (sha256_hex "").
Proof.
  rewrite !elem_of_cons. intros [->|[->|[->|H]]]; [..|by apply elem_of_nil in H]; split_and!; try done;
    (split; [apply Hsha|]); split_and!; try done; by repeat constructor.
Qed.

Lemma readable_digest payload raw key d d' :
  readable nfc payload raw key d → hex_digest d' = true → readable nfc payload raw key d'.
Proof. unfold readable. tauto. Qed.

Lemma tagmanifest_written fs root tags :
  real_dir fs root → tags_on_disk fs root tags →
  tagmanifest_text sha256_hex fs root (BAG_TAG_FILES ++ []) = Ok (tags_text tags).
Proof.
  intros Hr [Hk Ht]. unfold tagmanifest_text.
  change (sort_by id (BAG_TAG_FILES ++ [])) with [BAG_INFO_NAME; BAGIT_NAME; MANIFEST_NAME].
  assert (Hnames : ∀ kv, kv ∈ tags → kv.1 ∈ [BAG_INFO_NAME; BAGIT_NAME; MANIFEST_NAME])
    by (intros kv Hin; rewrite <- Hk; by apply list_elem_of_fmap_2).
  rewrite <- Hk. unfold tags_text. clear Hk.
  assert (Hl : tag_lines sha256_hex fs root (dkeys tags) = Ok ((λ kv, checksum_line kv.2 kv.1) <$> tag_digests tags)).
  { induction Ht as [|[n c] tags Hc _ IH]; [done|]. destruct (tag_name n) as (Hp & Hd & _); [apply (Hnames (n, c)); by left|].
    cbn [dkeys fmap list_fmap fst tag_lines]. rewrite Hp, (read_file_child fs root n c) by done. cbn [mbind result_bind].
    unfold dkeys in IH. rewrite IH; [done|]. intros kv Hin. apply Hnames. by right. }
  by rewrite Hl.
Qed.

Lemma tagmanifest_verified fs root tags :
  real_dir fs root → tags_on_disk fs root tags →
  fs !! (root ++ [TAGMANIFEST_NAME]) = Some (NFile (tags_text tags)) →
  verify_tagmanifest nfc sha256_hex fs root [] = [].
Proof.
  intros Hr [Hk Ht] Hm. unfold verify_tagmanifest. rewrite (read_file_child fs root _ (tags_text tags) Hr) by done.
  cbn [mbind result_bind].
  assert (Hdk : (tag_digests tags).*1 = [BAG_INFO_NAME; BAGIT_NAME; MANIFEST_NAME])
    by (unfold tag_digests; rewrite <- list_fmap_compose; exact Hk).
  unfold tags_text. rewrite (read_written_manifest nfc false (λ k, k)).
  2:{ intros [k d] Hin. apply list_elem_of_fmap in Hin as ([n c] & [= -> ->] & Hin). cbn [fst snd].
      eapply readable_digest; [apply tag_name|apply Hsha]. rewrite <- Hk. by apply (list_elem_of_fmap_2 fst _ (n, c)). }
  2:{ rewrite Hdk. by apply (bool_decide_unpack _). }
  assert (Hlow : lowered <$> tag_digests tags = tag_digests tags).
  { unfold tag_digests. rewrite <- list_fmap_compose. apply list_fmap_ext. intros _ [n c] _. unfold lowered. cbn.
    by rewrite (proj2 (Hsha c)). }
  rewrite Hlow. apply app_nil. split.
  - unfold dkeys. rewrite Hdk. done.
  - apply omap_is_nil. intros [n d]. rewrite elem_of_sort_by. intros Hin.
    apply list_elem_of_fmap in Hin as ([n' c] & [= -> ->] & Hin).
    destruct (tag_name n') as (Hp & Hd & Hsafe & _); [rewrite <- Hk; by apply (list_elem_of_fmap_2 fst _ (n', c))|].
    unfold verify_tag. rewrite Hsafe. cbn [negb]. rewrite Hp.
    rewrite Forall_forall in Ht. pose proof (Ht _ Hin) as Hc. cbn [fst snd] in Hc.
    rewrite (read_file_child fs root n' c) by done. by rewrite decide_True.
Qed.

(** *** The metadata *)

Definition info_values (b : BagInfo) : list string :=
  [bi_date b; bi_intake_id b; bi_operator b; bi_source_kind b; default "" (bi_source_ref b);
   bi_artifactclass b; default "" (bi_label b)].

Local Abbreviation metadata := (bag_info_metadata receive_package package_profile_hash).

Lemma metadata_labels b k v : dget k (metadata b) = Some v → k ∈ bag_info_order.
Proof.
  intros H. apply dget_Some_elem in H. apply (list_elem_of_fmap_2 fst) in H.
  exact (eq_ind _ (λ l, k ∈ l) H _ eq_refl).
Qed.

Lemma metadata_values b k v :
  printable receive_package = true → printable package_profile_hash = true → 0 <= bi_total_bytes b →
  Forall value_ok (info_values b) → dget k (metadata b) = Some v → value_ok v.
Proof.
  intros Hrp Hph Ht Hall Hget. apply dget_Some_elem, (list_elem_of_fmap_2 snd) in Hget.
  assert (Hnum : ∀ n : nat, value_ok (pretty (Z.of_nat n))) by (intros n; apply printable_ok, pretty_printable; lia).
  assert (Hvals : Forall value_ok (metadata b).*2).
  { unfold info_values in Hall. rewrite !Forall_cons in Hall. destruct Hall as (H1 & H2 & H3 & H4 & H5 & H6 & H7 & _).
    unfold bag_info_metadata. cbn [fmap list_fmap snd].
    repeat (apply Forall_cons; split);
      first [done|apply Hnum|by apply printable_ok|by apply printable_ok, oxum_printable|constructor]. }
  rewrite Forall_forall in Hvals. by apply Hvals.
Qed.

Lemma labels_ok k : k ∈ bag_info_order → label_ok k = true.
Proof.
  assert (H : forallb label_ok bag_info_order = true) by (vm_compute; reflexivity).
  apply forallb_Forall in H. rewrite Forall_forall in H. apply H.
Qed.

Lemma metadata_reads b :
  printable receive_package = true → printable package_profile_hash = true → 0 <= bi_total_bytes b →
  Forall value_ok (info_values b) →
  ∃ m, read_bag_info (bag_info_text (metadata b)) = Ok m ∧ ∀ k, dget k m = stripped <$> dget k (metadata b).
Proof.
  intros Hrp Hph Ht Hall. apply bag_info_reads.
  - change (dkeys (metadata b)) with bag_info_order. by apply (bool_decide_unpack _).
  - intros k v Hk. split; [by eapply labels_ok, metadata_labels|by eapply metadata_values].
Qed.

Lemma metadata_accepted b m records :
  (∀ k, dget k m = stripped <$> dget k (metadata b)) →
  printable receive_package = true → printable package_profile_hash = true → 0 <= bi_total_bytes b →
  bi_total_bytes b = total_size records → bi_file_count b = length records →
  metadata_errors receive_package package_profile_hash m records false = [].
Proof.
  intros Hm Hrp Hph Ht Hsize Hcount. unfold metadata_errors. destruct m as [|kv m']; [done|].
  rewrite !Hm. set (m := kv :: m') in *.
  change (dget "Payload-Oxum" (metadata b)) with (Some (oxum (bi_total_bytes b) (bi_file_count b))).
  change (dget "Receive-Package" (metadata b)) with (Some receive_package).
  change (dget "Canonicalization-Version" (metadata b)) with (Some CANONICALIZATION_VERSION).
  change (dget "Package-Profile-Version" (metadata b)) with (Some PACKAGE_PROFILE_VERSION).
  change (dget "Package-Profile-Hash" (metadata b)) with (Some package_profile_hash).
  cbn [fmap option_fmap option_map].
  rewrite (proj2 (printable_ok _ Hrp)), (proj2 (printable_ok _ Hph)), (proj2 (printable_ok _ (oxum_printable _ _ Ht))).
  rewrite (proj2 (printable_ok CANONICALIZATION_VERSION eq_refl)), (proj2 (printable_ok PACKAGE_PROFILE_VERSION eq_refl)).
  rewrite Hsize, Hcount. unfold one_of. by rewrite !bool_decide_eq_true_2.
Qed.

(** *** The whole bag *)

Definition bag_tree (fs : Fs) (root : path) (info manifest : bytes) : Fs :=
  put root MANIFEST_NAME manifest (put root BAG_INFO_NAME info (put root BAGIT_NAME BAGIT_TEXT fs)).

Definition bag_tags (info manifest : bytes) : dict bytes :=
  [(BAG_INFO_NAME, info); (BAGIT_NAME, BAGIT_TEXT); (MANIFEST_NAME, manifest)].

Definition final_tree (fs : Fs) (root : path) (info manifest : bytes) : Fs :=
  put root TAGMANIFEST_NAME (tags_text (bag_tags info manifest)) (bag_tree fs root info manifest).

(** None of the names of the tag files is taken by a directory. *)
Definition names_free (fs : Fs) (root : path) : Prop :=
  Forall (λ name, fs !! (root ++ [name]) ≠ Some NDir) [BAGIT_NAME; BAG_INFO_NAME; MANIFEST_NAME; TAGMANIFEST_NAME].

Ltac at_names := repeat first [rewrite put_eq|rewrite put_ne by done].

Lemma bag_tree_tags fs root info manifest : tags_on_disk (bag_tree fs root info manifest) root (bag_tags info manifest).
Proof.
  unfold bag_tree. split; [done|]. repeat (apply Forall_cons; split); cbn [fst snd]; by at_names.
Qed.

Lemma final_tree_tags fs root info manifest : tags_on_disk (final_tree fs root info manifest) root (bag_tags info manifest).
Proof.
  unfold final_tree, bag_tree. split; [done|]. repeat (apply Forall_cons; split); cbn [fst snd]; by at_names.
Qed.

Lemma write_bag_written fs root entries m manifest :
  real_dir fs root → names_free fs root → bagit_manifest_text nfc entries = Ok manifest →
  write_bagit_files fs root entries m [] = Ok (final_tree fs root (bag_info_text m) manifest) ∧
  real_dir (final_tree fs root (bag_info_text m) manifest) root.
Proof.
  intros Hr Hfree Hm. unfold names_free in Hfree. rewrite !Forall_cons in Hfree. destruct Hfree as (N1 & N2 & N3 & N4 & _).
  set (info := bag_info_text m).
  assert (R1 : real_dir (put root BAGIT_NAME BAGIT_TEXT fs) root) by by apply real_dir_put.
  assert (R2 : real_dir (put root BAG_INFO_NAME info (put root BAGIT_NAME BAGIT_TEXT fs)) root)
    by (apply real_dir_put; [done|by at_names]).
  assert (R3 : real_dir (bag_tree fs root info manifest) root) by (apply real_dir_put; [done|by at_names]).
  assert (N4' : bag_tree fs root info manifest !! (root ++ [TAGMANIFEST_NAME]) ≠ Some NDir) by (unfold bag_tree; by at_names).
  split; [|by apply real_dir_put].
  unfold Bag.write_bagit_files.
  apply bind_Ok. exists (put root BAGIT_NAME BAGIT_TEXT fs). split; [by apply atomic_write_real|].
  apply bind_Ok. exists (put root BAG_INFO_NAME info (put root BAGIT_NAME BAGIT_TEXT fs)).
  split; [apply atomic_write_real; [done|by at_names]|].
  apply bind_Ok. exists manifest. split; [done|].
  apply bind_Ok. exists (bag_tree fs root info manifest). split; [apply atomic_write_real; [done|by at_names]|].
  apply bind_Ok. exists (tags_text (bag_tags info manifest)). split; [|by apply atomic_write_real].
  apply tagmanifest_written; [done|apply bag_tree_tags].
Qed.

(** The payload is not touched. *)
Lemma final_tree_other fs root info manifest p :
  (∀ name, name ∈ [BAGIT_NAME; BAG_INFO_NAME; MANIFEST_NAME; TAGMANIFEST_NAME] → p ≠ root ++ [name]) →
  final_tree fs root info manifest !! p = fs !! p.
Proof.
  intros H. unfold final_tree, bag_tree, put.
  rewrite !lookup_insert_ne; [done|..]; intros E; symmetry in E; revert E; apply H; set_solver.
Qed.

Lemma data_not_tag root rel name :
  name ∈ [BAGIT_NAME; BAG_INFO_NAME; MANIFEST_NAME; TAGMANIFEST_NAME] → (root ++ [DATA_DIR_NAME]) ++ rel ≠ root ++ [name].
Proof.
  intros Hn E. rewrite <- app_assoc in E. apply app_inv_head in E. injection E as E _.
  rewrite <- E in Hn. apply (bool_decide_pack _) in Hn. exact Hn.
Qed.

Lemma real_dir_child fs p n : real_dir fs p → fs !! (p ++ [n]) = Some NDir → n ≠ ".." →
  (length p + 9 < RESOLVE_STEPS)%nat → real_dir fs (p ++ [n]).
Proof.
  intros (Hdir & Hdots & _) Hn Hne Hlen. split_and!.
  - intros q Hq Hp. destruct (decide (q = p ++ [n])) as [->|Hneq]; [done|]. apply Hdir; [done|].
    destruct Hp as [k Hk]. destruct k as [|x k] using rev_ind; [by rewrite app_nil_r in Hk|].
    rewrite app_assoc in Hk. apply app_inj_tail in Hk as [-> _]. by apply prefix_app_r.
  - rewrite elem_of_app, list_elem_of_singleton. intros [?|?]; congruence.
  - rewrite length_app. cbn. lia.
Qed.

Lemma validate_pieces fs root records manifest m mm :
  payload_records nfc casefold sha256_hex fs (root ++ [DATA_DIR_NAME]) = (records, []) →
  manifest_of nfc fs root = (manifest, []) → metadata_of fs root = (m, []) →
  path_exists fs (root ++ [PACKAGE_INDEX_NAME]) = false →
  manifest_mismatch nfc (receipts_dict records) manifest = Ok mm → no_mismatch mm →
  verify_tagmanifest nfc sha256_hex fs root [] = [] →
  metadata_errors receive_package package_profile_hash m records false = [] →
  ∃ v, validate_bag fs root = Ok v ∧ valid v = true.
Proof.
  intros H1 H2 H3 H4 H5 (H6 & H7 & H8) H9 H10. unfold Bag.validate_bag. rewrite H1, H2, H3.
  unfold indexed_records. rewrite H4, H5. eexists. split; [reflexivity|].
  unfold valid, complete.
  cbn [bv_missing bv_extra bv_mismatched bv_tag_mismatched bv_errors]. by rewrite H6, H7, H8, H9, H10.
Qed.

Lemma payload_hashed fs data files :
  is_dir fs data = true → payload_files true (rglob fs data) = Ok files →
  payload_records nfc casefold sha256_hex fs data =
    (map (λ f, plain_receipt f.1 (sha256_hex f.2) (Z.of_nat (String.length f.2))) files, []).
Proof. intros Hd Hf. unfold payload_records. rewrite Hd. unfold hash_payload_tree. by rewrite Hf. Qed.

Lemma hashed_facts files :
  let records := map (λ f, plain_receipt f.1 (sha256_hex f.2) (Z.of_nat (String.length f.2))) files in
  NoDup files.*1 →
  receipts_dict records = payload_entries files ∧ total_size records = payload_bytes files ∧
  length records = length files.
Proof.
  intros records Hnd. split_and!.
  - unfold receipts_dict. rewrite receipts_dict_fresh; cbn [app].
    + unfold records, payload_entries. clear. induction files as [|f l IH]; [done|]. cbn [map]. rewrite !fmap_cons. by f_equal.
    + replace (fr_relpath <$> records) with files.*1; [done|]. unfold records. clear.
      induction files as [|f l IH]; [done|]. cbn [map]. rewrite !fmap_cons. by f_equal.
  - unfold records, payload_bytes, total_size. clear. induction files as [|f l IH]; [done|]. cbn in *. by rewrite IH.
  - apply length_map.
Qed.

(** A directory that holds the tag files written for its payload. *)
Record bag_on_disk (fs : Fs) (root : path) (files : list (string * bytes)) (m : dict string) (manifest : bytes) : Prop := {
  bd_real : real_dir fs root;
  bd_length : (length root + 9 < RESOLVE_STEPS)%nat;
  bd_data : fs !! (root ++ [DATA_DIR_NAME]) = Some NDir;
  bd_index : fs !! (root ++ [PACKAGE_INDEX_NAME]) = None;
  bd_tags : tags_on_disk fs root (bag_tags (bag_info_text m) manifest);
  bd_tagmanifest : fs !! (root ++ [TAGMANIFEST_NAME]) =
    Some (NFile (tags_text (bag_tags (bag_info_text m) manifest)));
  bd_payload : payload_files true (rglob fs (root ++ [DATA_DIR_NAME])) = Ok files;
}.

(** The names and counts of a payload that its tag files can carry. *)
Record payload_ok (files : list (string * bytes)) (b : BagInfo) : Prop := {
  po_distinct : NoDup files.*1;
  po_names : ∀ f, f ∈ files → member_relpath nfc f.1 ∧ utf8_decodes f.1 = true ∧ one_line f.1;
  po_count : bi_file_count b = length files;
  po_bytes : bi_total_bytes b = payload_bytes files;
  po_values : Forall value_ok (info_values b);
}.

Lemma payload_entries_writable files b :
  payload_ok files b → NoDup (dkeys (payload_entries files)) ∧ ∀ kv, kv ∈ payload_entries files → writable nfc kv.
Proof.
  intros H. split; [unfold payload_entries, dkeys; rewrite <- list_fmap_compose; apply (po_distinct _ _ H)|].
  intros ? ([p c] & -> & Hin)%list_elem_of_fmap. destruct (po_names _ _ H _ Hin) as (? & ? & ?). split_and!; try done.
  apply Hsha.
Qed.

(** The manifest does not depend on the order in which the files were received. *)
Lemma manifest_text_perm entries entries' :
  NoDup (dkeys entries) → entries ≡ₚ entries' → bagit_manifest_text nfc entries = bagit_manifest_text nfc entries'.
Proof.
  intros Hnd Hp. unfold bagit_manifest_text. f_equal. f_equal. apply sort_by_canonical; [done|].
  intros x y. by apply NoDup_fst_eq.
Qed.

Context (Hrp : printable receive_package = true) (Hph : printable package_profile_hash = true).

Lemma bag_on_disk_valid fs root files b manifest :
  bag_on_disk fs root files (metadata b) manifest → payload_ok files b →
  bagit_manifest_text nfc (payload_entries files) = Ok manifest →
  ∃ v, validate_bag fs root = Ok v ∧ valid v = true.
Proof.
  intros Hbag Hok Htext. destruct (payload_entries_writable files b Hok) as [Hek Hw].
  destruct (manifest_text_reads nfc _ Hek Hw) as (text & Htext' & Hread).
  rewrite Htext in Htext'. injection Htext' as <-.
  assert (Ht : 0 <= bi_total_bytes b) by (rewrite (po_bytes _ _ Hok); apply payload_bytes_nonneg).
  destruct (metadata_reads b Hrp Hph Ht (po_values _ _ Hok)) as (m & Hm & Hmget).
  destruct (hashed_facts files (po_distinct _ _ Hok)) as (Hdict & Hsize & Hlength).
  destruct (written_no_mismatch nfc _ Hek Hw) as (mm & Hmm & Hno).
  destruct Hbag as [Hr Hlen Hdata Hindex Htags Htagm Hfiles].
  assert (Hlook : ∀ n c, (n, c) ∈ bag_tags (bag_info_text (metadata b)) manifest → fs !! (root ++ [n]) = Some (NFile c)).
  { intros n c. destruct Htags as [_ Hall]. rewrite Forall_forall in Hall. apply (Hall (n, c)). }
  edestruct (validate_pieces fs root) as (v & Hv & Hvalid);
    [apply payload_hashed; [by apply is_dir_child|exact Hfiles]|..|exists v; by split].
  - unfold manifest_of. rewrite (read_file_child fs root _ manifest Hr); [|done|apply Hlook; set_solver].
    cbn [mbind result_bind]. by rewrite Hread.
  - unfold metadata_of. rewrite (read_file_child fs root _ (bag_info_text (metadata b)) Hr); [|done|apply Hlook; set_solver].
    cbn [mbind result_bind]. by rewrite Hm.
  - by apply exists_child_None.
  - rewrite Hdict. exact Hmm.
  - exact Hno.
  - by apply (tagmanifest_verified fs root (bag_tags (bag_info_text (metadata b)) manifest)).
  - apply (metadata_accepted b); try done; [rewrite Hsize; apply Hok|rewrite Hlength; apply Hok].
Qed.

(** What [write_bagit_files] leaves on disk. *)
Lemma write_bag_on_disk fs root files entries m manifest :
  real_dir fs root → (length root + 9 < RESOLVE_STEPS)%nat → names_free fs root →
  fs !! (root ++ [DATA_DIR_NAME]) = Some NDir → fs !! (root ++ [PACKAGE_INDEX_NAME]) = None →
  payload_files true (rglob fs (root ++ [DATA_DIR_NAME])) = Ok files →
  bagit_manifest_text nfc entries = Ok manifest →
  ∃ fs', write_bagit_files fs root entries m [] = Ok fs' ∧ bag_on_disk fs' root files m manifest ∧
    ∀ p, (∀ name, name ∈ [BAGIT_NAME; BAG_INFO_NAME; MANIFEST_NAME; TAGMANIFEST_NAME] → p ≠ root ++ [name]) →
      fs' !! p = fs !! p.
Proof.
  intros Hr Hlen Hfree Hdata Hindex Hfiles Htext.
  destruct (write_bag_written fs root entries m manifest Hr Hfree Htext) as [Hwrite Hr'].
  set (info := bag_info_text m) in *. set (fs' := final_tree fs root info manifest) in *.
  assert (Hother : ∀ rel, fs' !! ((root ++ [DATA_DIR_NAME]) ++ rel) = fs !! ((root ++ [DATA_DIR_NAME]) ++ rel)).
  { intros rel. apply final_tree_other. intros name Hn. by apply data_not_tag. }
  assert (Hdata' : fs' !! (root ++ [DATA_DIR_NAME]) = Some NDir)
    by (specialize (Hother []); rewrite !app_nil_r in Hother; congruence).
  exists fs'. split; [done|]. split; [|intros p Hp; by apply final_tree_other]. constructor; try done.
  - unfold fs', final_tree, bag_tree. by at_names.
  - apply final_tree_tags.
  - unfold fs', final_tree. by at_names.
  - rewrite (rglob_frame fs fs'); [done|apply resolve_dir..|auto]; by apply real_dir_child.
Qed.

(** What is written validates.  For a payload whose paths are canonical, free of line breaks and
    pairwise different, [write_bagit_files] with the digests of the payload and its counts writes a bag
    that [validate_bag] accepts, provided that the bag is a directory without links and that the
    metadata values hold no line break other than those the writer replaces. *)
Lemma written_bag_valid fs root files b :
  real_dir fs root → (length root + 9 < RESOLVE_STEPS)%nat → names_free fs root →
  fs !! (root ++ [DATA_DIR_NAME]) = Some NDir → fs !! (root ++ [PACKAGE_INDEX_NAME]) = None →
  payload_files true (rglob fs (root ++ [DATA_DIR_NAME])) = Ok files → payload_ok files b →
  ∃ fs' v, write_bagit_files fs root (payload_entries files) (metadata b) [] = Ok fs' ∧
    validate_bag fs' root = Ok v ∧ valid v = true.
Proof.
  intros Hr Hlen Hfree Hdata Hindex Hfiles Hok. destruct (payload_entries_writable files b Hok) as [Hek Hw].
  destruct (manifest_text_reads nfc _ Hek Hw) as (manifest & Htext & _).
  destruct (write_bag_on_disk fs root files _ (metadata b) manifest Hr Hlen Hfree Hdata Hindex Hfiles Htext)
    as (fs' & Hwrite & Hbag & _).
  destruct (bag_on_disk_valid fs' root files b manifest Hbag Hok Htext) as (v & Hv & Hvalid). by exists fs', v.
Qed.

End written.
