(* ===== verification/ReceiveFacts.v ===== *)
(** * A received bag validates

    Receiving a source of regular files with plain names leaves a bag that [validate_bag] accepts,
    whatever the source does while it is read. *)

From Stdlib Require Import Ascii Strings.Byte.
From stdpp Require Import pretty.
From S2P Require Import Prelude Json JsonText JobModels Catalog MemberName Scrub Accumulator FanoutMap Profiles.
From S2P Require Import NamingFacts FanoutMapFacts Retention RetentionFs BagIt Bag Receive BagItFacts BagFacts BagWriteFacts.

#[local] Opaque RESOLVE_STEPS.

(** ** The receive monad *)

Lemma recv_bind_Ok {A B} (m : Recv A) (f : A → Recv B) s s' b :
  (m ≫= f) s = (s', Ok b) ↔ ∃ s1 a, m s = (s1, Ok a) ∧ f a s1 = (s', Ok b).
Proof.
  unfold mbind, Recv_bind. destruct (m s) as [s1 [a|e]]; split.
  - intros H. by exists s1, a.
  - intros (s2 & a' & [= <- <-] & H). done.
  - done.
  - by intros (s2 & a' & ? & _).
Qed.

Lemma refused_Ok {A} (r : result ReceiveError A) a : refused r = Ok a ↔ r = Ok a.
Proof. destruct r as [x|[]]; cbn; naive_solver. Qed.

Lemma lift_Ok {A} (r : result ReceiveFault A) s s' a : lift r s = (s', Ok a) ↔ s' = s ∧ r = Ok a.
Proof. unfold lift. naive_solver. Qed.

Lemma guard_Ok b e s s' u : guard_ b e s = (s', Ok u) ↔ b = false ∧ s' = s.
Proof.
  destruct b, u; cbn; split; [done|by intros []|by intros [= ->]|by intros [_ ->]].
Qed.

(** Opens the binds of a successful run. *)
Ltac inv_recv :=
  repeat match goal with
  | H : (_ ≫= _) _ = (_, Ok _) |- _ => apply recv_bind_Ok in H as (? & ? & ? & H)
  | H : mret _ _ = (_, Ok _) |- _ => injection H as H; subst
  | H : disk _ = (_, Ok _) |- _ => injection H as H; subst
  | H : set_disk _ _ = (_, Ok _) |- _ => injection H as H; subst
  | H : event _ _ = (_, Ok _) |- _ => injection H as H; subst
  | H : refuse _ _ = (_, Ok _) |- _ => discriminate H
  | H : lift _ _ = (_, Ok _) |- _ => apply lift_Ok in H as [-> H]
  | H : guard_ _ _ _ = (_, Ok _) |- _ => apply guard_Ok in H as [H ->]
  | H : refused _ = Ok _ |- _ => apply refused_Ok in H
  end.

Definition with_disk (s : Receiving) (fs : Fs) : Receiving :=
  {| rx_fs := fs; rx_reads := rx_reads s; rx_events := rx_events s |}.

Lemma mkdirs_Ok p s s' u :
  mkdirs p s = (s', Ok u) → ∃ fs, make_dirs (rx_fs s) [] p = Ok fs ∧ s' = with_disk s fs.
Proof.
  unfold mkdirs. intros H. inv_recv. destruct (make_dirs (rx_fs x) [] p) as [fs|]; [|discriminate H].
  inv_recv. by exists fs.
Qed.

Lemma write_file_Ok d n c s s' u :
  write_file d n c s = (s', Ok u) → ∃ fs, atomic_write (rx_fs s) d n c = Ok fs ∧ s' = with_disk s fs.
Proof. unfold write_file. intros H. inv_recv. by eexists. Qed.

Lemma unlink_Ok p s s' u :
  unlink p s = (s', Ok u) → s' = with_disk s (delete p (rx_fs s)) ∧ rx_fs s !! p ≠ Some NDir.
Proof.
  unfold unlink. intros H. apply recv_bind_Ok in H as (s1 & fs & Hd & H). injection Hd as <- <-.
  destruct (rx_fs s !! p) as [[| |]|]; by injection H as <-.
Qed.

(** ** Directories *)

Definition dir_prefix (done todo p : path) : Prop := ∃ q, q ≠ [] ∧ q `prefix_of` todo ∧ p = done ++ q.

(** [mkdir -p] makes the missing prefixes directories and changes nothing else. *)
Lemma make_dirs_lookup todo : ∀ fs done fs', make_dirs fs done todo = Ok fs' →
  (∀ p, dir_prefix done todo p → fs' !! p = Some NDir) ∧
  (∀ p, fs' !! p = fs !! p ∨ fs !! p = None ∧ dir_prefix done todo p).
Proof.
  induction todo as [|n todo IH]; intros fs done fs' H; cbn [make_dirs] in H.
  - injection H as <-. split; [|by left]. intros p (q & Hq & [k Hk] & _). by destruct q.
  - assert (Hpre : ∀ p, dir_prefix done (n :: todo) p ↔ p = done ++ [n] ∨ dir_prefix (done ++ [n]) todo p).
    { intros p. split.
      - intros (q & Hq & Hp & ->). destruct q as [|m q]; [done|]. apply prefix_cons_inv_1 in Hp as ?. subst m.
        apply prefix_cons_inv_2 in Hp. destruct q as [|x q]; [by left|right]. exists (x :: q). by rewrite <- app_assoc.
      - intros [->|(q & Hq & Hp & ->)].
        + exists [n]. split; [done|]. split; [apply prefix_cons, prefix_nil|done].
        + exists (n :: q). split; [done|]. split; [by apply prefix_cons|]. by rewrite <- app_assoc. }
    assert (Hstep : ∃ fs1, make_dirs fs1 (done ++ [n]) todo = Ok fs' ∧ fs1 !! (done ++ [n]) = Some NDir ∧
      ∀ p, fs1 !! p = fs !! p ∨ fs !! p = None ∧ p = done ++ [n]).
    { destruct (fs !! (done ++ [n])) as [[]|] eqn:E; [done| |done|].
      - exists fs. split; [done|]. split; [done|]. by left.
      - exists (<[done ++ [n] := NDir]> fs). split; [done|]. split; [apply lookup_insert_eq|].
        intros p. destruct (decide (p = done ++ [n])) as [->|Hne]; [by right|left]. by rewrite lookup_insert_ne. }
    destruct Hstep as (fs1 & H1 & Hd & Hsame). destruct (IH fs1 _ _ H1) as [IH1 IH2]. split.
    + intros p [->|Hp]%Hpre; [|by apply IH1]. destruct (IH2 (done ++ [n])) as [->|[? _]]; congruence.
    + intros p. rewrite Hpre. destruct (IH2 p) as [->|[Hn Hp]].
      * destruct (Hsame p) as [->|[? ->]]; auto.
      * destruct (Hsame p) as [Heq|[? ->]]; [|auto]. right. rewrite <- Heq. auto.
Qed.

Lemma real_dir_after fs p :
  (∀ q, dir_prefix [] p q → fs !! q = Some NDir) → ".." ∉ p → (length p + 8 < RESOLVE_STEPS)%nat → real_dir fs p.
Proof. intros H. split; [|done]. intros q Hq Hp. apply H. by exists q. Qed.

Lemma atomic_write_Ok fs p n c fs' : real_dir fs p → atomic_write fs p n c = Ok fs' →
  fs' = <[p ++ [n] := NFile c]> fs ∧ fs !! (p ++ [n]) ≠ Some NDir.
Proof.
  intros Hr. unfold atomic_write. rewrite resolve_dir, node_at_real by done.
  destruct (fs !! (p ++ [n])) as [[]|]; intros [= <-]; done.
Qed.

(** ** The payload while it is copied *)

(** Below a directory that holds no link, resolution is lexical. *)
Lemma walk_lexical fs data : (∀ rel t, fs !! (data ++ rel) ≠ Some (NLink t)) →
  ∀ fuel todo don q, ".." ∉ todo → walk fuel fs false (data ++ don) todo = Ok q → q = data ++ don ++ todo.
Proof.
  intros Hno. induction fuel as [|fuel IH]; intros todo don q Hdots H; [done|].
  destruct todo as [|n todo]; cbn [walk] in H; [injection H as <-; by rewrite app_nil_r|].
  apply not_elem_of_cons in Hdots as [Hn Hdots]. rewrite decide_False in H by congruence.
  rewrite <- app_assoc in H. destruct (fs !! (data ++ don ++ [n])) as [[c| |t]|] eqn:E; [| |by apply Hno in E|done].
  - destruct todo; [injection H as <-; done|done].
  - apply IH in H; [|done]. by rewrite H, <- app_assoc.
Qed.

Lemma resolve_lexical fs data rel q :
  real_dir fs data → (∀ rel t, fs !! (data ++ rel) ≠ Some (NLink t)) → ".." ∉ rel →
  resolve fs false (data ++ rel) = Ok q → q = data ++ rel.
Proof.
  intros Hr Hno Hdots. destruct (resolve_real fs false data rel Hr) as (fuel & _ & ->). intros H.
  rewrite <- (app_nil_r data) in H. apply (walk_lexical fs data Hno) in H; [|done]. done.
Qed.

Lemma lstat_lexical fs data par name n :
  real_dir fs data → (∀ rel t, fs !! (data ++ rel) ≠ Some (NLink t)) → ".." ∉ par ++ [name] →
  lstat fs (data ++ par ++ [name]) = Ok n → fs !! (data ++ par ++ [name]) = Some n.
Proof.
  intros Hr Hno Hdots. unfold lstat. rewrite app_assoc, last_snoc, removelast_last. intros H.
  rewrite elem_of_app in Hdots. destruct (resolve fs false (data ++ par)) as [q|] eqn:E; [|done].
  apply resolve_lexical in E as ->; [|done|done|tauto]. cbn [mbind result_bind] in H.
  destruct (node_at fs (data ++ par)) as [[]|]; try done. rewrite decide_False in H.
  - destruct (fs !! ((data ++ par) ++ [name])); [|done]. by injection H as ->.
  - intros ->. apply Hdots. right. by left.
Qed.

(** [copies] are the files received so far below [data]; [fs0] is the disk before. *)
Record payload_inv (fs0 fs : Fs) (data : path) (copies : list (path * bytes)) : Prop := {
  pi_real : real_dir fs data;
  pi_nonempty : data ≠ [];
  pi_outside : ∀ p, ¬ data `prefix_of` p → fs !! p = fs0 !! p;
  pi_copied : ∀ rel c, (rel, c) ∈ copies → fs !! (data ++ rel) = Some (NFile c);
  pi_only : ∀ rel node, rel ≠ [] → fs !! (data ++ rel) = Some node →
    (∃ c, node = NFile c ∧ (rel, c) ∈ copies) ∨ (node = NDir ∧ ∃ k c, k ≠ [] ∧ (rel ++ k, c) ∈ copies);
}.

Lemma pi_no_links fs0 fs data copies : payload_inv fs0 fs data copies → ∀ rel t, fs !! (data ++ rel) ≠ Some (NLink t).
Proof.
  intros H rel t E. destruct (decide (rel = [])) as [->|Hne].
  - rewrite app_nil_r in E. destruct (pi_real _ _ _ _ H) as (Hd & _). rewrite Hd in E; [done|apply H|done].
  - destruct (pi_only _ _ _ _ H rel _ Hne E) as [(c & ? & _)|[? _]]; done.
Qed.

(** No received file lies at or below another one. *)
Definition apart (rel : path) (copies : list (path * bytes)) : Prop :=
  ∀ rel' c, (rel', c) ∈ copies → ¬ rel `prefix_of` rel' ∧ ¬ rel' `prefix_of` rel.

Lemma apart_absent fs0 fs data copies rel :
  payload_inv fs0 fs data copies → rel ≠ [] → apart rel copies → fs !! (data ++ rel) = None.
Proof.
  intros H Hne Ha. destruct (fs !! (data ++ rel)) as [node|] eqn:E; [|done]. exfalso.
  destruct (pi_only _ _ _ _ H rel node Hne E) as [(c & _ & Hin)|(_ & k & c & _ & Hin)];
    destruct (Ha _ _ Hin) as [Hp _]; apply Hp; [done|by apply prefix_app_r].
Qed.

Lemma prefix_split {A} (p a b : list A) : p `prefix_of` a ++ b → p `prefix_of` a ∨ ∃ k, k ≠ [] ∧ k `prefix_of` b ∧ p = a ++ k.
Proof.
  revert p. induction a as [|x a IH]; intros p Hp.
  - destruct p as [|y p]; [left; apply prefix_nil|right]. by exists (y :: p).
  - destruct p as [|y p]; [left; apply prefix_nil|]. apply prefix_cons_inv_1 in Hp as ?. subst y.
    apply prefix_cons_inv_2 in Hp. destruct (IH p Hp) as [Ha|(k & Hk & Hb & ->)]; [left; by apply prefix_cons|right].
    by exists k.
Qed.

(** One file is added: its directories are made, then the file is put in place. *)
Lemma payload_inv_add fs0 fs data copies par name c fs1 :
  payload_inv fs0 fs data copies → apart (par ++ [name]) copies →
  make_dirs fs [] (data ++ par) = Ok fs1 →
  payload_inv fs0 (<[data ++ par ++ [name] := NFile c]> fs1) data (copies ++ [(par ++ [name], c)]).
Proof.
  intros H Ha Hmk. destruct (make_dirs_lookup _ _ _ _ Hmk) as [Hdirs Hsame].
  set (rel := par ++ [name]) in *.
  assert (Hrel : rel ≠ []) by (by destruct par).
  assert (Hreal : ∀ q, q ≠ [] → q `prefix_of` data → fs !! q = Some NDir) by apply (pi_real _ _ _ _ H).
  assert (Hkeep : ∀ p node, fs !! p = Some node → fs1 !! p = Some node).
  { intros p node Hp. destruct (Hsame p) as [->|[? _]]; congruence. }
  constructor.
  - destruct (pi_real _ _ _ _ H) as (_ & Hdots & Hlen). split; [|done]. intros q Hq Hp.
    rewrite lookup_insert_ne; [by apply Hkeep, Hreal|]. intros <-. apply prefix_length in Hp.
    rewrite length_app in Hp. destruct rel; [done|]. cbn in Hp. lia.
  - apply H.
  - intros p Hp. rewrite lookup_insert_ne by (intros <-; apply Hp; by apply prefix_app_r).
    destruct (Hsame p) as [->|[Hn (q & Hq & Hpre & ->)]]; [by apply H|]. exfalso. cbn [app] in *.
    apply prefix_split in Hpre as [Hpre|(k & _ & _ & ->)]; [by rewrite Hreal in Hn|]. apply Hp. by apply prefix_app_r.
  - intros rel' c' [Hin|[= -> ->]%list_elem_of_singleton]%elem_of_app; [|apply lookup_insert_eq].
    rewrite lookup_insert_ne; [by apply Hkeep, (pi_copied _ _ _ _ H)|]. intros E. apply app_inv_head in E.
    destruct (Ha _ _ Hin) as [Hp _]. apply Hp. by rewrite E.
  - intros rel' node Hne. destruct (decide (rel' = rel)) as [->|Hneq].
    + rewrite lookup_insert_eq. intros [= <-]. left. exists c. split; [done|]. apply elem_of_app. right. by apply list_elem_of_singleton.
    + rewrite lookup_insert_ne by (intros E; apply app_inv_head in E; congruence). intros Hl.
      destruct (Hsame (data ++ rel')) as [Heq|[Hn (q & Hq & Hpre & E)]].
      * rewrite Heq in Hl. destruct (pi_only _ _ _ _ H rel' node Hne Hl) as [(c' & -> & Hin)|(-> & k & c' & Hk & Hin)];
          [left; exists c'|right; split; [done|]; exists k, c']; set_solver.
      * right. assert (Hd : fs1 !! (data ++ rel') = Some NDir) by (apply Hdirs; by exists q).
        split; [congruence|]. cbn [app] in E. rewrite <- E in Hpre. apply prefix_app_inv in Hpre as [k Hk].
        exists (k ++ [name]), c. split; [by destruct k|]. apply elem_of_app. right. apply list_elem_of_singleton.
        f_equal. unfold rel. rewrite Hk. by rewrite app_assoc.
Qed.

Section received.
Context (nfc casefold : string → string) (sha256_hex : bytes → string).
Context (json_loads : bytes → option json) (json_str : json → string) (dumps : json → bytes).
Context (log_text : list string → bytes) (isoformat : Z → string).
Context (source_read : nat → path → StatSnapshot * bytes * StatSnapshot).
Context (package_tar : Fs → path → string → result ReceiveFault (bytes * list json)).
Context (receive_package package_profile_hash : string).

(** A read between two equal stats returns as many bytes as they say. *)
Definition stat_consistent : Prop :=
  ∀ n p before content after, source_read n p = (before, content, after) → before = after →
    ss_size after = Z.of_nat (String.length content).

Context (Hstat : stat_consistent).

(** [c] is what a read of [p] returned between two equal stats. *)
Definition read_of (p : path) (c : bytes) : Prop := ∃ n st, source_read n p = (st, c, st).

Local Abbreviation copy_file := (copy_or_verify_file_entry sha256_hex source_read).
Local Abbreviation copy_entries := (copy_or_verify_entries sha256_hex source_read package_tar).

Lemma plain_dots rel : plain_path nfc rel → ".." ∉ rel.
Proof.
  intros [_ Hall] Hin. rewrite Forall_forall in Hall. by destruct (Hall _ Hin) as (_ & _ & ? & _).
Qed.

Lemma safe_path_plain fs data rel p :
  real_dir fs data → plain_path nfc rel → safe_payload_path fs data (join "/" rel) = Ok p → p = data ++ rel.
Proof.
  intros Hr Hp. unfold safe_payload_path. rewrite resolve_dir by done. cbn [os_result mbind result_bind].
  rewrite (plain_pure_parts nfc rel Hp). intros H. inv_ok. reflexivity.
Qed.

Lemma hash_source_fs p s s' r : hash_source sha256_hex source_read p s = (s', Ok r) → rx_fs s' = rx_fs s.
Proof.
  unfold hash_source, read_source. intros H. inv_recv. injection H0 as <- <-.
  destruct (source_read (rx_reads s) p) as [[b c] a]. by inv_recv.
Qed.

Lemma existing_None fs0 data copies par name s s' o :
  payload_inv fs0 (rx_fs s) data copies → apart (par ++ [name]) copies → ".." ∉ par ++ [name] →
  existing_digest sha256_hex (data ++ par ++ [name]) s = (s', Ok o) → o = None ∧ s' = s.
Proof.
  intros Hinv Ha Hdots. unfold existing_digest. intros H. inv_recv.
  destruct (lstat (rx_fs x) (data ++ par ++ [name])) as [n|e] eqn:E.
  - apply lstat_lexical in E; [|apply Hinv|by eapply pi_no_links|done].
    rewrite (apart_absent _ _ _ _ _ Hinv) in E; [done|by destruct par|done].
  - destruct e; inv_recv; done.
Qed.

Lemma copy_source_spec fs0 data copies par name src s s' r :
  payload_inv fs0 (rx_fs s) data copies → apart (par ++ [name]) copies → plain_path nfc (par ++ [name]) →
  (length data + length par + 8 < RESOLVE_STEPS)%nat →
  copy_source sha256_hex source_read src (data ++ par ++ [name]) s = (s', Ok r) →
  ∃ c, payload_inv fs0 (rx_fs s') data (copies ++ [(par ++ [name], c)]) ∧ r.1 = sha256_hex c ∧
    ss_size r.2 = Z.of_nat (String.length c) ∧ read_of src c.
Proof.
  intros Hinv Ha Hp Hlen. unfold copy_source, path_base. rewrite app_assoc, removelast_last, last_snoc. cbn [default from_option id].
  intros H. apply recv_bind_Ok in H as (s1 & u & Hmk & H). apply mkdirs_Ok in Hmk as (fs1 & Emk & ->).
  apply recv_bind_Ok in H as (s2 & r0 & Hread & H). injection Hread as <- <-. cbn [rx_reads with_disk] in H.
  destruct (source_read (rx_reads s) src) as [[b c] a] eqn:Er.
  apply recv_bind_Ok in H as (s3 & u1 & Hg & H). apply guard_Ok in Hg as [Eb ->].
  apply negb_false_iff, bool_decide_eq_true_1 in Eb.
  apply recv_bind_Ok in H as (s4 & u2 & Hw & H). apply write_file_Ok in Hw as (fs2 & Hw & ->).
  injection H as <- <-. cbn [rx_fs with_disk] in *.
  assert (Hreal : real_dir fs1 (data ++ par)).
  { apply real_dir_after; [apply (make_dirs_lookup _ _ _ _ Emk)| |rewrite length_app; lia].
    pose proof (plain_dots _ Hp) as Hd. destruct (pi_real _ _ _ _ Hinv) as (_ & Hd' & _). set_solver. }
  apply atomic_write_Ok in Hw as [-> _]; [|done]. exists c. split; [|split; [done|split]].
  - rewrite <- app_assoc. by eapply payload_inv_add.
  - cbn. by eapply Hstat.
  - exists (rx_reads s), a. by rewrite Er, Eb.
Qed.

Lemma copy_file_spec fs0 data copies par name entry s s' r :
  payload_inv fs0 (rx_fs s) data copies → apart (par ++ [name]) copies → plain_path nfc (par ++ [name]) →
  (length data + length par + 8 < RESOLVE_STEPS)%nat → se_relpath entry = join "/" (par ++ [name]) →
  copy_file data entry s = (s', Ok r) →
  ∃ c, payload_inv fs0 (rx_fs s') data (copies ++ [(par ++ [name], c)]) ∧
    r = receipt entry (sha256_hex c) (Z.of_nat (String.length c)) ∧ read_of (se_source_path entry) c.
Proof.
  intros Hinv Ha Hp Hlen Hrel. unfold copy_or_verify_file_entry. rewrite Hrel. intros H.
  apply recv_bind_Ok in H as (s1 & fs & Hd & H). injection Hd as <- <-.
  apply recv_bind_Ok in H as (s2 & dest & Hs & H). apply lift_Ok in Hs as [-> Hs]. apply refused_Ok in Hs.
  apply safe_path_plain in Hs as ->; [|apply Hinv|done].
  apply recv_bind_Ok in H as (s3 & hashed & Hh & H). apply hash_source_fs in Hh. rewrite <- Hh in Hinv.
  apply recv_bind_Ok in H as (s4 & existing & He & H).
  apply (existing_None _ _ _ _ _ _ _ _ Hinv Ha (plain_dots _ Hp)) in He as [-> ->].
  apply recv_bind_Ok in H as (s5 & copied & Hc & H). injection H as <- <-.
  destruct (copy_source_spec _ _ _ _ _ _ _ _ _ Hinv Ha Hp Hlen Hc) as (c & Hinv' & Hsha & Hsize & Hread).
  exists c. split; [done|]. by rewrite Hsha, Hsize.
Qed.

(** ** The copy loop *)

Definition disjoint_paths (a b : path) : Prop := ¬ a `prefix_of` b ∧ ¬ b `prefix_of` a.

(** A regular entry whose canonical path is that of a plain source path. *)
Definition plain_entry (source data : path) (entry : SourceEntry) (rel : path) : Prop :=
  se_entry_type entry = FileEntry ∧ se_source_path entry = source ++ rel ∧ se_relpath entry = join "/" rel ∧ plain_path nfc rel ∧
  (length data + length rel + 8 < RESOLVE_STEPS)%nat.

Definition file_result (entry : SourceEntry) (copy : path * bytes) : FileReceipt * list json :=
  (receipt entry (sha256_hex copy.2) (Z.of_nat (String.length copy.2)), []).

Lemma copy_entries_spec fs0 source data entries rels : ∀ copies s s' results,
  payload_inv fs0 (rx_fs s) data copies → Forall2 (plain_entry source data) entries rels →
  Forall (λ rel, apart rel copies) rels → ForallOrdPairs disjoint_paths rels →
  copy_entries data entries s = (s', Ok results) →
  ∃ new, new.*1 = rels ∧ payload_inv fs0 (rx_fs s') data (copies ++ new) ∧
    results = zip_with file_result entries new ∧ Forall (λ copy, read_of (source ++ copy.1) copy.2) new.
Proof.
  revert rels. induction entries as [|entry entries IH]; intros rels copies s s' results Hinv H2 Ha Hdis H;
    apply Forall2_cons_inv_l in H2 as (rel & rels' & (Htype & Hsrc & Hrel & Hp & Hlen) & H2 & ->) ||
    apply Forall2_nil_inv_l in H2 as ->.
  { injection H as <- <-. exists []. by rewrite app_nil_r. }
  inversion Hdis as [|? ? Hhead Htail]; subst. apply Forall_cons in Ha as [Ha Ha'].
  cbn [copy_or_verify_entries] in H. rewrite Htype in H.
  apply recv_bind_Ok in H as (s1 & r & Hr & H). apply recv_bind_Ok in Hr as (s2 & f & Hf & Hr). injection Hr as <- <-.
  destruct (exists_last (proj1 Hp)) as (par & name & ->).
  destruct (copy_file_spec fs0 data copies par name entry s s2 f) as (c & Hinv' & -> & Hread); try done;
    [rewrite length_app in Hlen; cbn in Hlen; lia|].
  apply recv_bind_Ok in H as (s3 & u & He & H). injection He as He _.
  apply recv_bind_Ok in H as (s4 & rest & Hrest & H). injection H as <- <-.
  assert (Hfs : rx_fs s3 = rx_fs s2) by by rewrite <- He. rewrite <- Hfs in Hinv'.
  destruct (IH rels' (copies ++ [(par ++ [name], c)]) s3 s4 rest Hinv' H2) as (new & Hk & Hinv'' & -> & Hreads).
  - rewrite Forall_forall in Ha', Hhead |- *. intros rel Hin rel' c' [Hc|[= -> ->]%list_elem_of_singleton]%elem_of_app.
    + by eapply Ha'.
    + destruct (Hhead rel Hin) as [H1' H2']. by split.
  - done.
  - exact Hrest.
  - exists ((par ++ [name], c) :: new). split; [cbn; by rewrite Hk|]. split; [by rewrite <- app_assoc in Hinv''|].
    split; [done|]. constructor; [cbn [fst snd]; by rewrite <- Hsrc|done].
Qed.

(** ** The payload that was received *)

Local Abbreviation payload_files := (payload_files nfc casefold).

Definition as_file (e : path * Node) : option (string * bytes) :=
  match e with (rel, NFile c) => Some (join "/" rel, c) | _ => None end.

Definition plain_node (e : path * Node) : Prop :=
  plain_path nfc e.1 ∧
  match e.2 with
  | NFile _ => True
  | NDir => is_package_boundary casefold (join "/" e.1) = false
  | NLink _ => False
  end.

Lemma payload_files_plain l : Forall plain_node l → payload_files true l = Ok (omap as_file l).
Proof.
  induction 1 as [|[rel node] l [Hp Hn] _ IH]; [done|]. cbn [Bag.payload_files fst snd] in *.
  unfold canonicalize_filesystem_path. rewrite (plain_canonical nfc true rel Hp). cbn [mbind result_bind].
  destruct node as [c| |t]; [by rewrite IH| |done]. rewrite Hn. cbn. exact IH.
Qed.

Lemma join_inj rel rel' : plain_path nfc rel → plain_path nfc rel' → join "/" rel = join "/" rel' → rel = rel'.
Proof. intros H H' E. by rewrite <- (plain_parts nfc rel H), E, (plain_parts nfc rel' H'). Qed.

Lemma plain_prefix rel k : rel ≠ [] → plain_path nfc (rel ++ k) → plain_path nfc rel.
Proof. intros Hne [_ Hall]. split; [done|]. by apply Forall_app in Hall as [? _]. Qed.

Definition copied_file (copy : path * bytes) : string * bytes := (join "/" copy.1, copy.2).

Lemma NoDup_omap_files (l : list (path * Node)) :
  NoDup l.*1 → (∀ rel c, (rel, NFile c) ∈ l → plain_path nfc rel) → NoDup (omap as_file l).
Proof.
  induction l as [|[rel node] l IH]; intros Hnd Hp; [constructor|]. apply NoDup_cons in Hnd as [Hr Hnd]. cbn [omap list_omap].
  assert (IH' : NoDup (omap as_file l)) by (apply IH; [done|]; intros ? ? Hin; eapply Hp; by right).
  destruct node as [c| |]; cbn [as_file]; [|done..]. apply NoDup_cons. split; [|done].
  intros ([rel' node'] & Hin & E)%list_elem_of_omap. destruct node' as [c'| |]; [|done..]. injection E as E _.
  apply join_inj in E; [|eapply Hp; by right|eapply Hp; by left]. subst rel'. apply Hr.
  apply list_elem_of_fmap. by exists (rel, NFile c').
Qed.

Lemma payload_of_copies fs0 fs data copies :
  payload_inv fs0 fs data copies → NoDup copies.*1 →
  (∀ rel c, (rel, c) ∈ copies → plain_path nfc rel) →
  (∀ rel c q k, (rel, c) ∈ copies → rel = q ++ k → q ≠ [] → k ≠ [] → is_package_boundary casefold (join "/" q) = false) →
  ∃ files, payload_files true (rglob fs data) = Ok files ∧ files ≡ₚ copied_file <$> copies.
Proof.
  intros Hinv Hnd Hplain Hpack. unfold rglob. rewrite resolve_dir by apply Hinv.
  set (l := omap (below data) (map_to_list fs)). exists (omap as_file (sort_by fst l)). split.
  - apply payload_files_plain, Forall_forall. intros [rel node] Hin. rewrite elem_of_sort_by in Hin.
    apply elem_below in Hin as [Hne Hl].
    destruct (pi_only _ _ _ _ Hinv rel node Hne Hl) as [(c & -> & Hc)|(-> & k & c & Hk & Hc)]; split; cbn [fst snd]; eauto.
    eapply plain_prefix; [done|]. by eapply Hplain.
  - assert (Hkeys : NoDup (sort_by fst l).*1).
    { rewrite sort_by_perm. apply below_NoDup, NoDup_fst_map_to_list. }
    assert (Helem : ∀ rel node, (rel, node) ∈ sort_by fst l ↔ rel ≠ [] ∧ fs !! (data ++ rel) = Some node)
      by (intros; rewrite elem_of_sort_by; apply elem_below).
    apply NoDup_Permutation.
    + apply NoDup_omap_files; [done|]. intros rel c [Hne Hl]%Helem.
      destruct (pi_only _ _ _ _ Hinv rel _ Hne Hl) as [(c' & _ & Hc)|[? _]]; [|done]. by eapply Hplain.
    + apply NoDup_fmap_2_strong; [|by eapply NoDup_fmap_1]. intros [r c] [r' c'] Hr Hr' [= E ->].
      f_equal. apply join_inj; [by eapply Hplain..|done].
    + intros [p c]. rewrite list_elem_of_omap, list_elem_of_fmap. split.
      * intros ([rel node] & Hin & E). destruct node; [|done..]. injection E as <- <-.
        apply Helem in Hin as [Hne Hl]. destruct (pi_only _ _ _ _ Hinv rel _ Hne Hl) as [(c' & [= <-] & Hc)|[? _]]; [|done].
        by exists (rel, content).
      * intros ([rel c'] & [= -> ->] & Hin). exists (rel, NFile c'). split; [|done]. apply Helem.
        split; [by destruct (Hplain _ _ Hin)|by apply Hinv].
Qed.

(** ** The scan of a plain source *)

(** A path of the source that is received under its own name. *)
Definition plain_source_path (data : path) (rel : path) : Prop :=
  plain_path nfc rel ∧ not_under_data rel ∧ one_line (join "/" rel) ∧
  (∀ q k, rel = q ++ k → q ≠ [] → is_package_boundary casefold (join "/" q) = false) ∧
  (length data + length rel + 8 < RESOLVE_STEPS)%nat.

Definition scanned (source : path) (e : path * Node) : option SourceEntry :=
  match e with (rel, NFile _) => Some (file_entry (source ++ rel) (join "/" rel)) | _ => None end.

Lemma not_inside_package data rel : plain_source_path data rel → inside_package nfc casefold rel = false.
Proof.
  intros (Hp & _ & _ & Hpack & _). unfold inside_package. apply not_true_iff_false.
  rewrite existsb_exists. intros (n & Hn%in_seq & H). unfold canonicalize_filesystem_path in H.
  assert (Hne : take n rel ≠ []) by (destruct n, rel; cbn in *; [lia|lia|lia|done]).
  rewrite plain_canonical in H; [|by eapply plain_prefix; [done|rewrite take_drop]].
  rewrite (Hpack (take n rel) (drop n rel)) in H; [done|by rewrite take_drop|done].
Qed.

Lemma scan_entries_plain fs data source l : ∀ scan,
  (∀ rel node, (rel, node) ∈ l → plain_source_path data rel) →
  scan_entries nfc casefold fs source l = Ok scan → sc_regulars scan = omap (scanned source) l.
Proof.
  induction l as [|[rel node] l IH]; intros scan Hl H; cbn [scan_entries] in H; [by injection H as <-|].
  pose proof (Hl rel node (list_elem_of_here _ _)) as Hrel. rewrite (not_inside_package data) in H by done.
  apply bind_Ok in H as (relpath & Hc & H). apply refused_Ok in Hc. unfold canonicalize_filesystem_path in Hc.
  destruct Hrel as (Hp & _ & _ & Hpack & _). rewrite (plain_canonical nfc true rel Hp) in Hc. injection Hc as <-.
  apply bind_Ok in H as (rest & Hrest & [= <-]).
  assert (IH' : sc_regulars rest = omap (scanned source) l) by (apply IH; [|done]; intros ? ? ?; eapply Hl; by right).
  destruct node as [c| |t]; cbn [omap list_omap scanned sc_regulars].
  - by rewrite IH'.
  - rewrite (Hpack rel []); [done|by rewrite app_nil_r|apply Hp].
  - done.
Qed.

Lemma ForallOrdPairs_NoDup {A} (R : A → A → Prop) l :
  NoDup l → (∀ a b, a ∈ l → b ∈ l → a ≠ b → R a b) → ForallOrdPairs R l.
Proof.
  induction 1 as [|a l Ha _ IH]; intros H; constructor.
  - apply Forall_forall. intros b Hb. apply H; [by left|by right|]. by intros ->.
  - apply IH. intros b c Hb Hc. apply H; by right.
Qed.

(** Every entry lies in a directory. *)
Definition fs_wf (fs : Fs) : Prop := ∀ p n, p ≠ [] → is_Some (fs !! (p ++ [n])) → fs !! p = Some NDir.

Lemma fs_wf_below fs p k : fs_wf fs → p ≠ [] → k ≠ [] → is_Some (fs !! (p ++ k)) → fs !! p = Some NDir.
Proof.
  intros Hwf Hp. induction k as [|x k IH] using rev_ind; [done|]. intros _ Hs. rewrite app_assoc in Hs.
  apply Hwf in Hs; [|by destruct p]. destruct k as [|y k]; [by rewrite app_nil_r in Hs|].
  apply IH; [done|]. rewrite Hs. by eexists.
Qed.

Definition rel_of (e : SourceEntry) : path := path_parts (se_relpath e).

Lemma scanned_NoDup data source (l : list (path * Node)) :
  NoDup l.*1 → (∀ rel node, (rel, node) ∈ l → plain_source_path data rel) → NoDup (rel_of <$> omap (scanned source) l).
Proof.
  intros Hln Hall.
  assert (Hparts : ∀ rel node, (rel, node) ∈ l → path_parts (join "/" rel) = rel)
    by (intros rel node Hin; destruct (Hall _ _ Hin) as (Hp & _); by apply (plain_parts nfc)). clear Hall.
  induction l as [|[rel node] l IH]; [constructor|]. apply NoDup_cons in Hln as [Hr1 Hln].
  assert (IH' : NoDup (rel_of <$> omap (scanned source) l))
    by (apply IH; [done|]; intros ? ? ?; eapply Hparts; by right).
  cbn [omap list_omap]. destruct node as [c| |]; cbn [scanned]; [|done..]. rewrite fmap_cons. apply NoDup_cons.
  split; [|done]. unfold rel_of at 1. cbn [se_relpath file_entry]. rewrite (Hparts rel (NFile c)) by by left.
  intros (e & Heq & Hin)%list_elem_of_fmap.
  apply list_elem_of_omap in Hin as ([rel' node'] & Hin & E). destruct node' as [c'| |]; [|done..]. injection E as <-.
  unfold rel_of in Heq. cbn [se_relpath file_entry] in Heq. rewrite (Hparts rel' (NFile c')) in Heq by by right.
  subst rel'. apply Hr1. apply list_elem_of_fmap. by exists (rel, NFile c').
Qed.

Lemma scan_plain fs data source scan :
  real_dir fs source → source ≠ [] → fs_wf fs → is_package_boundary casefold (path_base source) = false →
  (∀ rel node, rel ≠ [] → fs !! (source ++ rel) = Some node → plain_source_path data rel) →
  scan_source nfc casefold fs source = Ok scan →
  ∃ rels, Forall2 (plain_entry source data) (sc_regulars scan) rels ∧ NoDup rels ∧ ForallOrdPairs disjoint_paths rels ∧
    Forall (plain_source_path data) rels ∧
    ∀ rel, rel ∈ rels ↔ rel ≠ [] ∧ ∃ c, fs !! (source ++ rel) = Some (NFile c).
Proof.
  intros Hr Hne Hwf Hroot Hplain. unfold scan_source. rewrite Hroot. intros H.
  apply bind_Ok in H as (scan' & Hs & [= <-]). cbn [sc_regulars].
  unfold rglob in Hs. rewrite resolve_dir in Hs by done.
  set (l := sort_by fst (omap (below source) (map_to_list fs))) in *.
  assert (Hl : ∀ rel node, (rel, node) ∈ l ↔ rel ≠ [] ∧ fs !! (source ++ rel) = Some node)
    by (intros rel node; unfold l; rewrite elem_of_sort_by; apply elem_below).
  apply (scan_entries_plain fs data) in Hs; [|intros rel node [Hn Hx]%Hl; by eapply Hplain]. rewrite Hs.
  set (es := sort_by se_relpath (omap (scanned source) l)).
  assert (Hes : ∀ e, e ∈ es → ∃ rel c, e = file_entry (source ++ rel) (join "/" rel) ∧ rel ≠ [] ∧
    fs !! (source ++ rel) = Some (NFile c) ∧ plain_source_path data rel).
  { intros e He. unfold es in He. rewrite elem_of_sort_by in He. apply list_elem_of_omap in He as ([rel node] & Hin & E).
    apply Hl in Hin as [Hn Hx]. destruct node as [c| |]; [|done..]. injection E as <-. exists rel, c. eauto. }
  assert (Hparts : ∀ rel, plain_source_path data rel → path_parts (join "/" rel) = rel)
    by (intros rel (Hp & _); by apply (plain_parts nfc)).
  assert (Hnd : NoDup (rel_of <$> es)).
  { unfold es. rewrite sort_by_perm. apply (scanned_NoDup data).
    - unfold l. rewrite sort_by_perm. apply below_NoDup, NoDup_fst_map_to_list.
    - intros rel node [Hn Hx]%Hl. by eapply Hplain. }
  exists (rel_of <$> es). split; [|split; [done|split; [|split]]].
  - apply Forall2_fmap_r. apply Forall_Forall2_diag, Forall_forall. intros e He.
    destruct (Hes e He) as (rel & c & -> & Hn & Hx & Hps).
    change (plain_entry source data (file_entry (source ++ rel) (join "/" rel)) (path_parts (join "/" rel))).
    rewrite Hparts by done. destruct Hps as (Hp & _ & _ & _ & Hlen). done.
  - apply ForallOrdPairs_NoDup; [done|]. intros a b Ha Hb Hab.
    apply list_elem_of_fmap in Ha as (ea & -> & Ha). apply list_elem_of_fmap in Hb as (eb & -> & Hb).
    destruct (Hes _ Ha) as (ra & ca & -> & Hna & Hxa & Hpa), (Hes _ Hb) as (rb & cb & -> & Hnb & Hxb & Hpb).
    unfold rel_of in *. cbn [se_relpath file_entry] in *. rewrite !Hparts in * by done.
    assert (Hno : ∀ r r' c c', r ≠ r' → r ≠ [] → fs !! (source ++ r) = Some (NFile c) →
      fs !! (source ++ r') = Some (NFile c') → ¬ r `prefix_of` r').
    { intros r r' c c' Hrr Hrn H1 H2 [k ->]. destruct (decide (k = [])) as [->|Hk]; [by rewrite app_nil_r in Hrr|].
      assert (Hd : fs !! (source ++ r) = Some NDir).
      { apply (fs_wf_below fs _ k); [done|by destruct source|done|]. rewrite <- app_assoc, H2. by eexists. }
      congruence. }
    split; [by eapply Hno|by eapply Hno].
  - apply Forall_fmap, Forall_forall. intros e He. destruct (Hes e He) as (rel & c & -> & Hn & Hx & Hps).
    change (plain_source_path data (path_parts (join "/" rel))). by rewrite Hparts.
  - intros rel. rewrite list_elem_of_fmap. split.
    + intros (e & -> & He). destruct (Hes e He) as (rel & c & -> & Hn & Hx & Hps). unfold rel_of. cbn [se_relpath file_entry].
      rewrite Hparts by done. eauto.
    + intros (Hn & c & Hx). exists (file_entry (source ++ rel) (join "/" rel)). unfold rel_of. cbn [se_relpath file_entry].
      rewrite Hparts by (by eapply Hplain). split; [done|]. unfold es. rewrite elem_of_sort_by.
      apply list_elem_of_omap. exists (rel, NFile c). split; [by apply Hl|done].
Qed.

(** ** Files beside the bag *)

Definition side_names : list string := [SENTINEL_NAME; RECEIVING_NAME; LOG_NAME; VERIFY_SIDECAR_NAME].

(** Only files beside the tag files changed, and the directory is still real. *)
Definition beside (dir : path) (fs fs' : Fs) : Prop :=
  real_dir fs dir → real_dir fs' dir ∧ ∀ p, (∀ n, n ∈ side_names → p ≠ dir ++ [n]) → fs' !! p = fs !! p.

Lemma beside_refl dir fs : beside dir fs fs.
Proof. by intros H. Qed.

Lemma beside_trans dir fs1 fs2 fs3 : beside dir fs1 fs2 → beside dir fs2 fs3 → beside dir fs1 fs3.
Proof.
  intros H12 H23 Hr. destruct (H12 Hr) as [Hr2 F12]. destruct (H23 Hr2) as [Hr3 F23]. split; [done|].
  intros p Hp. by rewrite F23, F12.
Qed.

Lemma beside_write dir n c fs fs' : n ∈ side_names → atomic_write fs dir n c = Ok fs' → beside dir fs fs'.
Proof.
  intros Hn H Hr. apply atomic_write_Ok in H as [-> Hnd]; [|done]. split.
  - apply real_dir_insert; [done|done|]. by destruct dir.
  - intros p Hp. apply lookup_insert_ne. intros E. by apply (Hp n).
Qed.

Lemma prefix_not_child (dir q : path) n : q `prefix_of` dir → q ≠ dir ++ [n].
Proof. intros Hp ->. apply prefix_length in Hp. rewrite length_app in Hp. cbn in Hp. lia. Qed.

Lemma beside_delete dir n fs : n ∈ side_names → beside dir fs (delete (dir ++ [n]) fs).
Proof.
  intros Hn (Hd & ? & ?). split.
  - split; [|done]. intros q Hq Hp. rewrite lookup_delete_ne; [by apply Hd|]. intros E. symmetry in E.
    by apply (prefix_not_child dir q n) in Hp.
  - intros p Hp. apply lookup_delete_ne. intros E. by apply (Hp n).
Qed.

Lemma beside_write_file dir n c s s' u : n ∈ side_names → write_file dir n c s = (s', Ok u) → beside dir (rx_fs s) (rx_fs s').
Proof. intros Hn H. apply write_file_Ok in H as (fs & H & ->). by eapply beside_write. Qed.

Lemma beside_log dir s s' u : write_log log_text dir s = (s', Ok u) → beside dir (rx_fs s) (rx_fs s').
Proof. unfold write_log. apply beside_write_file. set_solver. Qed.

Lemma beside_verify fs dir now line fs' r :
  verify_destination nfc casefold sha256_hex dumps isoformat fs dir now line = (fs', r) → beside dir fs fs'.
Proof.
  unfold verify_destination. destruct (destination_mismatches _ _ _ _ _) as [ms|]; [|intros [= <- _]; apply beside_refl].
  destruct (atomic_write fs dir VERIFY_SIDECAR_NAME _) as [fs1|] eqn:E1; [|intros [= <- _]; apply beside_refl].
  apply beside_write in E1; [|set_solver].
  destruct (append_log fs1 dir line) as [fs2|] eqn:E2; intros [= <- _]; [|done].
  eapply beside_trans; [exact E1|]. unfold append_log in E2. apply bind_Ok in E2 as (text & _ & E2).
  eapply beside_write; [|exact E2]. set_solver.
Qed.

Local Abbreviation metadata := (bag_info_metadata receive_package package_profile_hash).
Local Abbreviation bag_on_disk := (bag_on_disk nfc casefold sha256_hex).

Lemma beside_data dir rel : (∀ n, n ∈ side_names → (dir ++ [DATA_DIR_NAME]) ++ rel ≠ dir ++ [n]).
Proof.
  intros n Hn E. rewrite <- app_assoc in E. apply app_inv_head in E. injection E as E _. rewrite <- E in Hn.
  apply (bool_decide_pack _) in Hn. exact Hn.
Qed.

Lemma bag_on_disk_beside fs fs' dir files m manifest :
  bag_on_disk fs dir files m manifest → beside dir fs fs' → bag_on_disk fs' dir files m manifest.
Proof.
  intros [Hr Hlen Hdata Hindex [Hk Htags] Htm Hfiles] Hb. destruct (Hb Hr) as [Hr' Hf].
  assert (Hname : ∀ n, n ∉ side_names → fs' !! (dir ++ [n]) = fs !! (dir ++ [n])).
  { intros n Hn. apply Hf. intros n' Hn' E. apply app_inv_head in E. congruence. }
  assert (Hdata' : fs' !! (dir ++ [DATA_DIR_NAME]) = Some NDir) by (rewrite Hname; [done|]; by apply (bool_decide_unpack _)).
  constructor; try done.
  - rewrite Hname; [done|]. by apply (bool_decide_unpack _).
  - split; [done|]. unfold bag_tags in *. rewrite !Forall_cons in Htags |- *. cbn [fst snd] in *.
    destruct Htags as (T1 & T2 & T3 & _). rewrite !Hname by (by apply (bool_decide_unpack _)). done.
  - rewrite Hname; [done|]. by apply (bool_decide_unpack _).
  - rewrite (rglob_frame fs fs'); [done|apply resolve_dir..|]; [by apply real_dir_child..|].
    intros rel _. apply Hf. apply beside_data.
Qed.

(** ** The body of a fresh receive *)

(** An intake directory that holds nothing but the record of the receive. *)
Definition fresh_dir (fs : Fs) (dir : path) : Prop :=
  real_dir fs dir ∧ (length dir + 9 < RESOLVE_STEPS)%nat ∧
  ∀ rel node, rel ≠ [] → fs !! (dir ++ rel) = Some node → rel = [RECEIVING_NAME].

Lemma fresh_payload_inv fs1 fs2 dir :
  fresh_dir fs1 dir → make_dirs fs1 [] (dir ++ [DATA_DIR_NAME]) = Ok fs2 →
  payload_inv fs1 fs2 (dir ++ [DATA_DIR_NAME]) [].
Proof.
  intros (Hr & Hlen & Honly) Hmk. destruct (make_dirs_lookup _ _ _ _ Hmk) as [Hdirs Hsame].
  destruct Hr as (Hd & Hdots & _). constructor.
  - apply real_dir_after; [done| |rewrite length_app; cbn; lia].
    rewrite elem_of_app, list_elem_of_singleton. by intros [?|?].
  - by destruct dir.
  - intros p Hp. destruct (Hsame p) as [->|[Hn (q & Hq & Hpre & ->)]]; [done|]. exfalso. cbn [app] in *.
    apply prefix_split in Hpre as [Hpre|(k & Hk & Hpre & ->)]; [by rewrite Hd in Hn|]. apply Hp.
    destruct k as [|x k]; [done|]. apply prefix_cons_inv_1 in Hpre as ->. exists k. by rewrite <- app_assoc.
  - intros rel c Hin. by apply elem_of_nil in Hin.
  - intros rel node Hne Hl. exfalso. destruct (Hsame ((dir ++ [DATA_DIR_NAME]) ++ rel)) as [Heq|[_ (q & _ & Hpre & E)]].
    + rewrite Heq, <- app_assoc in Hl. by apply Honly in Hl.
    + cbn [app] in E. rewrite <- E in Hpre. apply prefix_length in Hpre. rewrite !length_app in Hpre.
      destruct rel; [done|]. cbn in Hpre. lia.
Qed.

Lemma results_key source data entries copies :
  Forall2 (plain_entry source data) entries copies.*1 →
  receipt_key <$> (zip_with file_result entries copies).*1 = file_key sha256_hex <$> (copied_file <$> copies) ∧
  Forall (λ r, fr_package_profile r.1 = None ∧ r.2 = []) (zip_with file_result entries copies).
Proof.
  revert entries. induction copies as [|[rel c] copies IH]; intros entries H;
    [apply Forall2_nil_inv_r in H as ->; by repeat constructor|].
  apply Forall2_cons_inv_r in H as (entry & entries' & (Ht & _ & Hr & _) & H & ->). destruct (IH _ H) as [IH1 IH2].
  cbn [zip_with]. rewrite !fmap_cons. split; [f_equal; [|exact IH1]|constructor; [|exact IH2]].
  - unfold receipt_key, file_result, file_key, copied_file, receipt. cbn. by rewrite Hr.
  - unfold file_result, receipt. cbn. by rewrite Ht.
Qed.

Lemma no_package_index results :
  Forall (λ r, fr_package_profile r.1 = None ∧ r.2 = []) results → package_index_payload package_profile_hash results = Ok None.
Proof.
  intros H. unfold package_index_payload.
  assert (He : existsb (λ r : FileReceipt * list json,
    bool_decide (fr_package_profile r.1 = Some PACKAGE_PROFILE_VERSION) && is_nil r.2) results = false).
  { induction H as [|r l [Hr _] _ IH]; [done|]. cbn [existsb]. rewrite Hr, IH. done. }
  rewrite He. cbn [raise_if mbind result_bind]. f_equal. assert (Ho : omap package_record results = []).
  { induction H as [|r l [Hr _] _ IH]; [done|]. cbn [omap list_omap]. unfold package_record at 1. rewrite Hr. by rewrite IH; [|by apply orb_false_iff in He as [_ ?]]. }
  by rewrite Ho.
Qed.

Lemma receipts_entries receipts files :
  receipt_key <$> receipts = file_key sha256_hex <$> files → NoDup files.*1 →
  receipts_dict receipts = payload_entries sha256_hex files.
Proof.
  intros Hk Hnd.
  assert (Hrel : (fr_relpath <$> receipts) = files.*1 ∧
    ((λ r, (fr_relpath r, fr_sha256_hex r)) <$> receipts) = payload_entries sha256_hex files).
  { clear Hnd. revert files Hk. induction receipts as [|r l IH]; intros [|f files] Hk; try done.
    rewrite !fmap_cons in Hk. injection Hk as H1 H2 _ Hk. destruct (IH _ Hk) as [I1 I2].
    unfold payload_entries in *. rewrite !fmap_cons, I1, I2, H1, H2. done. }
  destruct Hrel as [H1 H2]. unfold receipts_dict. rewrite receipts_dict_fresh; cbn [app]; [done|by rewrite H1].
Qed.

Lemma payload_bytes_perm files files' : files ≡ₚ files' → payload_bytes files = payload_bytes files'.
Proof. unfold payload_bytes. induction 1; cbn; lia. Qed.

Lemma copied_ok data copies :
  NoDup copies.*1 → Forall (plain_source_path data) copies.*1 →
  NoDup (copied_file <$> copies).*1 ∧
  ∀ f, f ∈ copied_file <$> copies → member_relpath nfc f.1 ∧ utf8_decodes f.1 = true ∧ one_line f.1.
Proof.
  intros Hnd Hall. rewrite Forall_forall in Hall. split.
  - rewrite <- list_fmap_compose. change (NoDup ((λ x, join "/" x.1) <$> copies)).
    change (NoDup ((λ x : path * bytes, join "/" x.1) <$> copies)).
    assert (E : (λ x : path * bytes, join "/" x.1) <$> copies = join "/" <$> copies.*1) by (by rewrite <- list_fmap_compose).
    rewrite E. apply NoDup_fmap_2_strong; [|done]. intros r r' Hr Hr'.
    apply join_inj; [by apply Hall in Hr as [? _]|by apply Hall in Hr' as [? _]].
  - intros ? ([rel c] & -> & Hin)%list_elem_of_fmap. cbn [copied_file fst].
    destruct (Hall rel) as (Hp & Hd & Ho & _); [by apply (list_elem_of_fmap_2 fst _ (rel, c))|].
    split; [by apply plain_member|]. split; [|done]. apply utf8_text_iff, (plain_utf8 nfc), Hp.
Qed.

Context (Hsha : ∀ c, hex_digest (sha256_hex c) = true ∧ lower (sha256_hex c) = sha256_hex c).
Context (Hrp : printable receive_package = true) (Hph : printable package_profile_hash = true).

Local Abbreviation validate_bag :=
  (validate_bag nfc casefold sha256_hex json_loads json_str receive_package package_profile_hash).
Local Abbreviation receive_body :=
  (receive_body nfc casefold sha256_hex dumps log_text isoformat source_read package_tar receive_package package_profile_hash).

(** The bag that is written for the copies. *)
Lemma received_bag fs1 fs3 fs5 dir copies receipts b fs6 m :
  payload_inv fs1 fs3 (dir ++ [DATA_DIR_NAME]) copies → fresh_dir fs1 dir → beside dir fs3 fs5 →
  NoDup copies.*1 → Forall (plain_source_path (dir ++ [DATA_DIR_NAME])) copies.*1 →
  receipt_key <$> receipts = file_key sha256_hex <$> (copied_file <$> copies) →
  bi_file_count b = length receipts → bi_total_bytes b = total_size receipts → Forall value_ok (info_values b) →
  m = metadata b → write_bagit_files nfc sha256_hex fs5 dir (receipts_dict receipts) m [] = Ok fs6 →
  ∃ files manifest, bag_on_disk fs6 dir files m manifest ∧ payload_ok nfc files b ∧
    bagit_manifest_text nfc (payload_entries sha256_hex files) = Ok manifest ∧ files ≡ₚ copied_file <$> copies.
Proof.
  intros Hinv (Hr1 & Hlen & Honly) Hb Hnd Hall Hk Hcount Hbytes Hvals -> Hwrite.
  destruct (copied_ok _ _ Hnd Hall) as [Hcnd Hcok]. rewrite Forall_forall in Hall.
  destruct (payload_of_copies _ _ _ _ Hinv Hnd) as (files & Hfiles & Hperm).
  { intros rel c Hin. by destruct (Hall rel (list_elem_of_fmap_2 fst _ (rel, c) Hin)) as (? & _). }
  { intros rel c q k Hin Heq Hq _. destruct (Hall rel (list_elem_of_fmap_2 fst _ (rel, c) Hin)) as (_ & _ & _ & Hp & _). by eapply Hp. }
  assert (Hout : ∀ n, n ≠ DATA_DIR_NAME → fs3 !! (dir ++ [n]) = fs1 !! (dir ++ [n])).
  { intros n Hn. apply (pi_outside _ _ _ _ Hinv). intros [k Hk']. rewrite <- app_assoc in Hk'.
    apply app_inv_head in Hk'. injection Hk' as ? _. congruence. }
  assert (Hr3 : real_dir fs3 dir).
  { destruct (pi_real _ _ _ _ Hinv) as (Hd & _). destruct Hr1 as (_ & ? & ?). split; [|done]. intros q Hq Hp. apply Hd; [done|].
    by apply prefix_app_r. }
  destruct (Hb Hr3) as [Hr5 Hf5].
  assert (Hname : ∀ n, n ∉ DATA_DIR_NAME :: side_names → fs5 !! (dir ++ [n]) = None).
  { intros n [Hn1 Hn2]%not_elem_of_cons. rewrite Hf5 by (intros n' Hn' E; apply app_inv_head in E; congruence).
    rewrite Hout by done. destruct (fs1 !! (dir ++ [n])) eqn:E; [|done]. apply Honly in E; [|done].
    injection E as ->. exfalso. apply Hn2. set_solver. }
  assert (Hdata3 : fs3 !! (dir ++ [DATA_DIR_NAME]) = Some NDir).
  { destruct (pi_real _ _ _ _ Hinv) as (Hd & _). apply Hd; [by destruct dir|done]. }
  assert (Hdata5 : fs5 !! (dir ++ [DATA_DIR_NAME]) = Some NDir).
  { rewrite <- Hdata3. apply Hf5. intros n Hn. pose proof (beside_data dir [] n Hn) as Hbd. by rewrite app_nil_r in Hbd. }
  assert (Hok : payload_ok nfc files b).
  { destruct (sizes_total sha256_hex _ _ Hk) as [Hs Hl]. constructor.
    - by rewrite Hperm.
    - intros f Hf. rewrite Hperm in Hf. by apply Hcok.
    - rewrite Hcount, Hl. by rewrite Hperm.
    - rewrite Hbytes, Hs. symmetry. by apply payload_bytes_perm.
    - done. }
  destruct (payload_entries_writable nfc sha256_hex Hsha files b Hok) as [Hek Hw].
  destruct (manifest_text_reads nfc _ Hek Hw) as (manifest & Htext & _).
  assert (Htext' : bagit_manifest_text nfc (receipts_dict receipts) = Ok manifest).
  { rewrite (receipts_entries receipts _ Hk Hcnd), <- Htext. symmetry. apply manifest_text_perm; [done|].
    unfold payload_entries. by rewrite Hperm. }
  destruct (write_bag_on_disk nfc casefold sha256_hex json_loads Hsha fs5 dir files (receipts_dict receipts) (metadata b) manifest)
    as (fs' & Hw' & Hbag & _); try done.
  - repeat constructor; rewrite Hname; try done; by apply (bool_decide_unpack _).
  - apply Hname. by apply (bool_decide_unpack _).
  - rewrite (rglob_frame fs3 fs5); [done|apply resolve_dir..|]; [by apply real_dir_child..|].
    intros rel _. apply Hf5. apply beside_data.
  - rewrite Hwrite in Hw'. injection Hw' as <-. by exists files, manifest.
Qed.

Lemma log_rejected_fs rejected : ∀ s s' u, log_rejected rejected s = (s', Ok u) → rx_fs s' = rx_fs s.
Proof.
  induction rejected as [|[[relpath p] reason] l IH]; intros s s' u H; cbn [log_rejected] in H; [by injection H as <-|].
  apply recv_bind_Ok in H as (s1 & u1 & H1 & H). injection H1 as <- _. by apply IH in H.
Qed.

Lemma beside_blocking q dir line s s' u :
  blocking_verify nfc casefold sha256_hex dumps isoformat q dir line s = (s', Ok u) → beside dir (rx_fs s) (rx_fs s').
Proof.
  unfold blocking_verify. destruct (rq_blocking q); [|intros [= <-]; apply beside_refl].
  destruct (verify_destination _ _ _ _ _ _ _ _ _) as [fs r] eqn:E. apply beside_verify in E.
  destruct (refused r) as [[[] ?]|]; intros [= <- _]; done.
Qed.

(** What a fresh receive needs of its source. *)
Record plain_source (fs : Fs) (source data : path) : Prop := {
  pls_real : real_dir fs source;
  pls_nonempty : source ≠ [];
  pls_wf : fs_wf fs;
  pls_root : is_package_boundary casefold (path_base source) = false;
  pls_paths : ∀ rel node, rel ≠ [] → fs !! (source ++ rel) = Some node → plain_source_path data rel;
}.

Local Abbreviation receive_payload := (receive_payload nfc casefold sha256_hex source_read package_tar).
Local Abbreviation write_tags :=
  (write_tags nfc sha256_hex dumps log_text receive_package package_profile_hash).
Local Abbreviation release := (release nfc casefold sha256_hex dumps log_text isoformat).

Lemma receive_payload_spec q sn s s' results rejected :
  let dir := sn_dir sn in let data := dir ++ [DATA_DIR_NAME] in
  fresh_dir (rx_fs s) dir → plain_source (rx_fs s) (sn_source sn) data → rq_resume q = None →
  receive_payload q sn s = (s', Ok (results, rejected)) →
  ∃ copies, payload_inv (rx_fs s) (rx_fs s') data copies ∧ NoDup copies.*1 ∧
    Forall (plain_source_path data) copies.*1 ∧
    receipt_key <$> results.*1 = file_key sha256_hex <$> (copied_file <$> copies) ∧
    Forall (λ r, fr_package_profile r.1 = None ∧ r.2 = []) results ∧
    Forall (λ copy, read_of (sn_source sn ++ copy.1) copy.2) copies ∧
    ∀ rel, rel ∈ copies.*1 ↔ rel ≠ [] ∧ ∃ c, rx_fs s !! (sn_source sn ++ rel) = Some (NFile c).
Proof.
  intros dir data Hfresh [Hsr Hsn Hwf Hroot Hpaths] Hres. unfold Receive.receive_payload. fold dir. fold data. rewrite Hres.
  intros H. apply recv_bind_Ok in H as (s1 & fs & Hd & H). injection Hd as <- <-.
  apply recv_bind_Ok in H as (s1 & scan & Hscan & H). apply lift_Ok in Hscan as [-> Hscan].
  apply recv_bind_Ok in H as (s1 & u & Hcol & H). apply lift_Ok in Hcol as [-> _].
  apply recv_bind_Ok in H as (s1 & u1 & Hmk & H). apply mkdirs_Ok in Hmk as (fs2 & Hmk & ->).
  apply recv_bind_Ok in H as (s1 & u2 & Hpr & H). injection Hpr as <- _.
  apply recv_bind_Ok in H as (s3 & rs & Hcopy & H). injection H as <- <- _.
  destruct (scan_plain _ data _ _ Hsr Hsn Hwf Hroot Hpaths Hscan) as (rels & H2 & Hnd & Hdis & Hps & Hrels).
  pose proof (fresh_payload_inv _ _ _ Hfresh Hmk) as Hinv0.
  destruct (copy_entries_spec (rx_fs s) (sn_source sn) data (sc_regulars scan) rels [] (with_disk s fs2) s3 rs Hinv0 H2)
    as (copies & <- & Hinv & -> & Hreads); [|done|exact Hcopy|].
  { apply Forall_forall. intros rel _ rel' c Hin. by apply elem_of_nil in Hin. }
  destruct (results_key _ _ _ _ H2) as [Hk Hnopack]. by exists copies.
Qed.

Lemma write_tags_spec fs1 q sn s s' results rejected copies u :
  let dir := sn_dir sn in let data := dir ++ [DATA_DIR_NAME] in
  fresh_dir fs1 dir → payload_inv fs1 (rx_fs s) data copies → NoDup copies.*1 →
  Forall (plain_source_path data) copies.*1 →
  receipt_key <$> results.*1 = file_key sha256_hex <$> (copied_file <$> copies) →
  Forall (λ r, fr_package_profile r.1 = None ∧ r.2 = []) results →
  Forall value_ok (info_values (bag_info_of q sn results.*1 (length rejected))) →
  write_tags q sn results rejected s = (s', Ok u) →
  ∃ files b manifest, bag_on_disk (rx_fs s') dir files (metadata b) manifest ∧ payload_ok nfc files b ∧
    bagit_manifest_text nfc (payload_entries sha256_hex files) = Ok manifest ∧ files ≡ₚ copied_file <$> copies.
Proof.
  intros dir data Hfresh Hinv Hnd Hps Hk Hnopack Hvals. unfold Receive.write_tags. fold dir. intros H.
  apply recv_bind_Ok in H as (s4 & index & Hix & H). apply lift_Ok in Hix as [-> Hix].
  rewrite (no_package_index results Hnopack) in Hix. injection Hix as <-.
  apply recv_bind_Ok in H as (s4 & extra & Hex & H). apply recv_bind_Ok in Hex as (s5 & u3 & Hdel & Hex).
  apply unlink_Ok in Hdel as [-> _]. injection Hex as <- <-.
  apply recv_bind_Ok in H as (s5 & u4 & Hrej & H). apply log_rejected_fs in Hrej. cbn [rx_fs] in Hrej.
  apply recv_bind_Ok in H as (s6 & u5 & Hev & H). injection Hev as Hev _.
  apply recv_bind_Ok in H as (s7 & u6 & Hlog & H). apply beside_log in Hlog.
  apply recv_bind_Ok in H as (s8 & fs & Hd & H). injection Hd as <- <-.
  apply recv_bind_Ok in H as (s8 & fs6 & Hw & H). apply lift_Ok in Hw as [-> Hw]. apply refused_Ok in Hw.
  injection H as <-. cbn [rx_fs].
  assert (Habsent : rx_fs s !! (dir ++ [PACKAGE_INDEX_NAME]) = None).
  { rewrite (pi_outside _ _ _ _ Hinv).
    - destruct (fs1 !! _) eqn:E; [|done]. destruct Hfresh as (_ & _ & Honly). by apply Honly in E.
    - intros [k Hk']. unfold data in Hk'. rewrite <- app_assoc in Hk'. apply app_inv_head in Hk'. discriminate Hk'. }
  rewrite delete_id in Hrej by done. rewrite <- Hev in Hlog. cbn [rx_fs] in Hlog. rewrite Hrej in Hlog.
  destruct (received_bag fs1 (rx_fs s) (rx_fs s7) dir copies results.*1 (bag_info_of q sn results.*1 (length rejected)) fs6 _
    Hinv Hfresh Hlog Hnd Hps Hk eq_refl eq_refl Hvals eq_refl Hw) as (files & manifest & H1 & H2 & H3 & H4).
  eexists files, _, manifest. done.
Qed.

Lemma release_beside q sn line s s' u :
  release q sn line s = (s', Ok u) → beside (sn_dir sn) (rx_fs s) (rx_fs s').
Proof.
  unfold Receive.release. set (dir := sn_dir sn). intros H.
  apply recv_bind_Ok in H as (s9 & u8 & Hbl & H). apply beside_blocking in Hbl.
  apply recv_bind_Ok in H as (s10 & u9 & Hse & H). apply beside_write_file in Hse; [|set_solver].
  apply recv_bind_Ok in H as (s11 & u10 & Hun & H). apply unlink_Ok in Hun as [Hun _].
  apply recv_bind_Ok in H as (s12 & u11 & Hev & H). injection Hev as Hev _.
  apply recv_bind_Ok in H as (s13 & u12 & Hlog & H). apply beside_log in Hlog.
  assert (Hside : beside dir (rx_fs s13) (rx_fs s')).
  { destruct (rq_blocking q); [injection H as <-; apply beside_refl|]. eapply beside_write_file; [|exact H]. set_solver. }
  rewrite <- Hev in Hlog. cbn [rx_fs] in Hlog. rewrite Hun in Hlog. cbn [rx_fs with_disk] in Hlog.
  eapply beside_trans; [exact Hbl|]. eapply beside_trans; [exact Hse|].
  eapply beside_trans; [apply (beside_delete dir RECEIVING_NAME); set_solver|]. by eapply beside_trans.
Qed.

(** What was copied: one file for each regular file the disk had below the source, under its own path and
    with bytes that a read of it returned. *)
Definition copied_from (fs : Fs) (source : path) (copies : list (path * bytes)) : Prop :=
  NoDup copies.*1 ∧ Forall (λ copy, read_of (source ++ copy.1) copy.2) copies ∧
  ∀ rel, rel ∈ copies.*1 ↔ rel ≠ [] ∧ ∃ c, fs !! (source ++ rel) = Some (NFile c).

(** The bag of such copies in [dir] of the disk [fs']. *)
Definition received_as (fs : Fs) (source : path) (fs' : Fs) (dir : path) : Prop :=
  ∃ copies files b manifest, copied_from fs source copies ∧ files ≡ₚ copied_file <$> copies ∧
    bag_on_disk fs' dir files (metadata b) manifest ∧ payload_ok nfc files b ∧
    bagit_manifest_text nfc (payload_entries sha256_hex files) = Ok manifest.

(** A fresh receive that returns leaves the bag of the files it copied. *)
Lemma receive_body_bag q sn line s s' receipts :
  fresh_dir (rx_fs s) (sn_dir sn) → plain_source (rx_fs s) (sn_source sn) (sn_dir sn ++ [DATA_DIR_NAME]) →
  rq_resume q = None → (∀ rs n, Forall value_ok (info_values (bag_info_of q sn rs n))) →
  receive_body q sn line s = (s', Ok receipts) →
  received_as (rx_fs s) (sn_source sn) (rx_fs s') (sn_dir sn).
Proof.
  intros Hfresh Hsource Hres Hvals H. apply recv_bind_Ok in H as (s1 & [results rejected] & Hp & H).
  apply recv_bind_Ok in H as (s2 & u & Ht & H). apply recv_bind_Ok in H as (s3 & u1 & Hr & H). injection H as <- _.
  destruct (receive_payload_spec q sn s s1 results rejected Hfresh Hsource Hres Hp)
    as (copies & Hinv & Hnd & Hps & Hk & Hno & Hreads & Hall).
  destruct (write_tags_spec (rx_fs s) q sn s1 s2 results rejected copies u Hfresh Hinv Hnd Hps Hk Hno (Hvals _ _) Ht)
    as (files & b & manifest & Hbag & Hok & Htext & Hperm).
  exists copies, files, b, manifest. split; [done|]. split; [done|]. split; [|done].
  eapply bag_on_disk_beside; [exact Hbag|]. by eapply release_beside.
Qed.

(** ** A fresh receive *)

Definition intake_name (q : Request) (u : string) : string := rq_prefix q +:+ "-" +:+ u.

Lemma intake_name_dots q u : intake_name q u ≠ "..".
Proof.
  intros E. assert (H : lacks "-" (intake_name q u) = true) by (by rewrite E).
  unfold intake_name in H. rewrite !lacks_app in H. cbn in H. by rewrite andb_false_r in H.
Qed.

(** The landing root and the source are directories without links, the source holds plain names only,
    and the texts of the request survive the bag metadata. *)
Record plain_request (fs : Fs) (q : Request) (source : path) : Prop := {
  pq_fresh : rq_resume q = None;
  pq_source : rq_source q = Some source;
  pq_wf : fs_wf fs;
  pq_landing : real_dir fs (rq_landing q);
  pq_length : (length (rq_landing q) + 10 < RESOLVE_STEPS)%nat;
  pq_real : real_dir fs source;
  pq_nonempty : source ≠ [];
  pq_root : is_package_boundary casefold (path_base source) = false;
  pq_paths : ∀ rel node id, rel ≠ [] → fs !! (source ++ rel) = Some node →
    plain_source_path ((rq_landing q ++ [id]) ++ [DATA_DIR_NAME]) rel;
  pq_values : Forall value_ok [rq_date q; rq_operator q; rq_source_kind q; default "" (rq_source_ref q);
                               rq_artifactclass q; default "" (rq_label q)];
  pq_ids : ∀ u, u ∈ rq_uuids q → value_ok (intake_name q u);
}.

Lemma make_dirs_real fs p fs' : real_dir fs p → make_dirs fs [] p = Ok fs' → fs' = fs.
Proof.
  intros (Hd & _) H. destruct (make_dirs_lookup _ _ _ _ H) as [_ Hsame]. apply map_eq. intros k.
  destruct (Hsame k) as [->|[Hn (q & Hq & Hp & ->)]]; [done|]. cbn [app] in *. by rewrite Hd in Hn.
Qed.

Lemma mint_name q fs landing id :
  mint_intake_id fs landing (rq_prefix q) (rq_uuids q) = Ok id → ∃ u, u ∈ rq_uuids q ∧ id = intake_name q u.
Proof.
  induction (rq_uuids q) as [|u us IH]; [done|]. cbn [mint_intake_id]. case_bool.
  - intros (v & Hv & ->)%IH. exists v. split; [by right|done].
  - intros [= <-]. exists u. split; [by left|done].
Qed.

(** The disk after the intake directory and its record were made. *)
Lemma started_dir fs landing id c :
  fs_wf fs → real_dir fs landing → (length landing + 10 < RESOLVE_STEPS)%nat → id ≠ ".." →
  fs !! (landing ++ [id]) = None →
  let dir := landing ++ [id] in
  let fs1 := <[dir ++ [RECEIVING_NAME] := NFile c]> (<[dir := NDir]> fs) in
  fresh_dir fs1 dir ∧ fs_wf fs1 ∧ (∀ p node, fs !! p = Some node → fs1 !! p = Some node) ∧
  (∀ p node, fs1 !! p = Some node → fs !! p = Some node ∨ p = dir ∨ p = dir ++ [RECEIVING_NAME]).
Proof.
  intros Hwf Hr Hlen Hid Hnone dir fs1. change (fs !! dir = None) in Hnone.
  assert (Hdn : dir ≠ []) by (unfold dir; by destruct landing).
  assert (Hbelow : ∀ rel, rel ≠ [] → fs !! (dir ++ rel) = None).
  { intros rel Hne. destruct (fs !! (dir ++ rel)) eqn:E; [|done].
    apply (mk_is_Some _ _), (fs_wf_below fs dir rel Hwf Hdn Hne) in E. congruence. }
  assert (Hne : dir ≠ dir ++ [RECEIVING_NAME]).
  { intros E. apply (f_equal length) in E. rewrite length_app in E. cbn in E. lia. }
  assert (Hkeep : ∀ p node, fs !! p = Some node → fs1 !! p = Some node).
  { intros p node Hp. unfold fs1. rewrite !lookup_insert_ne; [done|..]; intros <-; [by rewrite Hnone in Hp|].
    by rewrite Hbelow in Hp. }
  assert (Hcases : ∀ p node, fs1 !! p = Some node → fs !! p = Some node ∨ p = dir ∨ p = dir ++ [RECEIVING_NAME]).
  { intros p node. unfold fs1. destruct (decide (p = dir ++ [RECEIVING_NAME])) as [->|]; [auto|].
    rewrite lookup_insert_ne by done. destruct (decide (p = dir)) as [->|]; [auto|]. rewrite lookup_insert_ne by done. auto. }
  assert (Hdir : fs1 !! dir = Some NDir) by (unfold fs1; rewrite lookup_insert_ne by done; apply lookup_insert_eq).
  destruct Hr as (Hd & Hdots & _). split_and!; try done.
  - split; [|split].
    + split; [|split].
      * intros q Hq [Hp|(k & Hk & Hp & ->)]%prefix_split; [by apply Hkeep, Hd|]. destruct k as [|x k]; [done|].
        apply prefix_cons_inv_1 in Hp as ?. subst x. apply prefix_cons_inv_2 in Hp. destruct k; [done|].
        by apply prefix_nil_inv in Hp.
      * unfold dir. rewrite elem_of_app, list_elem_of_singleton. intros [?|?]; congruence.
      * unfold dir. rewrite length_app. cbn. lia.
    + unfold dir. rewrite length_app. cbn. lia.
    + intros rel node Hrel Hl. destruct (Hcases _ _ Hl) as [Hl'|[E|E]].
      * by rewrite Hbelow in Hl'.
      * rewrite <- (app_nil_r dir) in E at 2. by apply app_inv_head in E.
      * by apply app_inv_head in E.
  - intros p n Hp [node Hs]. destruct (Hcases _ _ Hs) as [Hs'|[E|E]].
    + apply Hkeep, (Hwf p n); [done|by eexists].
    + unfold dir in E. apply app_inj_tail in E as [-> _]. apply Hkeep, Hd; done.
    + apply app_inj_tail in E as [-> _]. done.
Qed.

Local Abbreviation receive_source :=
  (receive_source nfc casefold sha256_hex json_loads json_str dumps log_text isoformat source_read package_tar
     receive_package package_profile_hash).
Local Abbreviation start_session := (start_session json_loads json_str dumps isoformat).

(** A landing root that is not below the source has no intake directory below it. *)
Lemma source_not_above (source landing : path) id rel :
  under source landing = false → rel ≠ [] → source ++ rel ≠ landing ++ [id].
Proof.
  intros Hu Hrel E. destruct rel as [|x rel _] using rev_ind; [done|]. rewrite app_assoc in E.
  apply app_inj_tail in E as [E _]. unfold under in Hu. apply bool_decide_eq_false_1 in Hu. apply Hu. by exists rel.
Qed.

Lemma start_session_spec q source s s' sn :
  plain_request (rx_fs s) q source → start_session q (rq_landing q) s = (s', Ok sn) →
  fresh_dir (rx_fs s') (sn_dir sn) ∧ plain_source (rx_fs s') (sn_source sn) (sn_dir sn ++ [DATA_DIR_NAME]) ∧
  (∀ rs n, Forall value_ok (info_values (bag_info_of q sn rs n))) ∧ sn_source sn = source ∧
  ∀ rel, rel ≠ [] → rx_fs s' !! (source ++ rel) = rx_fs s !! (source ++ rel).
Proof.
  intros [Hres Hsrc Hwf Hland Hlen Hreal Hne Hroot Hpaths Hvals Hids] H. unfold Receive.start_session in H.
  apply recv_bind_Ok in H as (s1 & fs & Hd & H). injection Hd as <- <-. rewrite Hres, Hsrc in H.
  apply recv_bind_Ok in H as (s1 & src & Hs & H). apply lift_Ok in Hs as [-> Hs]. apply refused_Ok in Hs.
  rewrite resolve_dir in Hs by done. injection Hs as <-.
  apply recv_bind_Ok in H as (s1 & u & Hv & H). apply lift_Ok in Hv as [-> _].
  apply recv_bind_Ok in H as (s1 & u1 & Hrel & H). apply lift_Ok in Hrel as [-> Hrel]. apply raise_if_Ok in Hrel.
  apply recv_bind_Ok in H as (s1 & id & Hid & H). apply lift_Ok in Hid as [-> Hid].
  apply mint_name in Hid as (uu & Huu & ->).
  apply recv_bind_Ok in H as (s1 & u2 & Hg & H). apply guard_Ok in Hg as [Hg ->]. apply bool_decide_eq_false_1, eq_None_not_Some in Hg.
  apply recv_bind_Ok in H as (s1 & u3 & Hset & H). injection Hset as <- _.
  apply recv_bind_Ok in H as (s2 & u4 & Hw & H). apply write_file_Ok in Hw as (fs1 & Hw & ->). cbn [rx_fs] in Hw.
  apply recv_bind_Ok in H as (s3 & u5 & Hev & H). injection Hev as <- _. injection H as <- <-.
  set (c := dumps _) in Hw. set (id := intake_name q uu) in *.
  destruct (started_dir (rx_fs s) (rq_landing q) id c Hwf Hland Hlen (intake_name_dots q uu) Hg) as (Hfresh & Hwf1 & Hkeep & Hcases).
  assert (Hdirreal : real_dir (<[rq_landing q ++ [id] := NDir]> (rx_fs s)) (rq_landing q ++ [id])).
  { destruct Hfresh as ((Hd & Hdots & Hl) & _). split; [|done]. intros p Hp Hpre. specialize (Hd p Hp Hpre).
    rewrite lookup_insert_ne in Hd; [done|]. intros E. symmetry in E. by apply (prefix_not_child _ _ RECEIVING_NAME) in Hpre. }
  apply atomic_write_Ok in Hw as [-> _]; [|done]. cbn [rx_fs with_disk sn_dir sn_source]. split; [done|].
  assert (Hold : ∀ rel node, rel ≠ [] →
    <[(rq_landing q ++ [id]) ++ [RECEIVING_NAME] := NFile c]> (<[rq_landing q ++ [id] := NDir]> (rx_fs s)) !! (source ++ rel) = Some node →
    rx_fs s !! (source ++ rel) = Some node).
  { intros rel node Hrel' Hl. destruct (Hcases _ _ Hl) as [Hl'|[E|E]]; [done|exfalso..].
    - by apply (source_not_above source (rq_landing q) id rel).
    - destruct rel as [|x rel _] using rev_ind; [done|]. rewrite app_assoc in E. apply app_inj_tail in E as [E _].
      destruct (decide (rel = [])) as [->|Hn]; [|by apply (source_not_above source (rq_landing q) id rel)].
      rewrite app_nil_r in E. destruct Hreal as (Hd & _). rewrite E in Hd. rewrite Hd in Hg; [done| |done]. by destruct (rq_landing q). }
  split; [|split; [|split; [done|]]].
  - constructor; try done.
    + destruct Hreal as (Hd & Hrest). split; [|done]. intros p Hp Hpre. by apply Hkeep, Hd.
    + intros rel node Hrel' Hl. apply (Hpaths _ node id Hrel'). by apply Hold.
  - intros rs n. unfold info_values, bag_info_of. cbn. rewrite !Forall_cons in Hvals.
    destruct Hvals as (H1 & H2 & H3 & H4 & H5 & H6 & _).
    repeat (apply Forall_cons; split); try done; by apply Hids.
  - intros rel Hrel'. apply option_eq. intros node. split; [by apply Hold|apply Hkeep].
Qed.

Lemma receive_source_bag q line source s s' sn receipts :
  plain_request (rx_fs s) q source → receive_source q line s = (s', Ok (sn, receipts)) →
  received_as (rx_fs s) source (rx_fs s') (sn_dir sn).
Proof.
  intros Hq H. pose proof Hq as [Hres Hsrc Hwf Hland Hlen _ _ _ _ _ _]. unfold Receive.receive_source in H.
  apply recv_bind_Ok in H as (s1 & fs & Hd & H). injection Hd as <- <-.
  apply recv_bind_Ok in H as (s1 & landing & Hl & H). apply lift_Ok in Hl as [-> Hl]. apply refused_Ok in Hl.
  rewrite resolve_dir in Hl by done. injection Hl as <-.
  apply recv_bind_Ok in H as (s1 & u & Hmk & H). apply mkdirs_Ok in Hmk as (fs & Hmk & ->).
  apply make_dirs_real in Hmk as ->; [|done].
  apply recv_bind_Ok in H as (s2 & sn' & Hstart & H).
  destruct (start_session_spec q source (with_disk s (rx_fs s)) s2 sn' Hq Hstart) as (Hfresh & Hps & Hvals & Hsn & Hsame).
  unfold logged_body in H. destruct (Receive.receive_body _ _ _ _ _ _ _ _ _ _ q sn' line s2) as [s3 [rs|e]] eqn:E.
  - injection H as <- <- _.
    destruct (receive_body_bag q sn' line s2 s3 rs Hfresh Hps Hres Hvals E) as (copies & files & b & manifest & Hc & Hrest).
    exists copies, files, b, manifest. split; [|done]. rewrite Hsn in Hc. destruct Hc as (H1 & H2 & H3). split_and!; try done.
    intros rel. rewrite H3. split; intros (Hne & c & Hl); (split; [done|]); exists c; [by rewrite Hsame in Hl|by rewrite Hsame].
  - destruct (is_receive_error e); [|discriminate H]. revert H. clear. repeat case_match; intros Heq; discriminate Heq.
Qed.

(** C10: A received bag validates.  A fresh receive, in either verification mode, of a source of regular
    files and directories with plain names leaves, when it returns, a bag that [validate_bag] accepts and
    whose payload is exactly the regular files of the source, each under its own path with bytes that a
    read of it returned between two equal stats, whatever the source did before and after. *)
Theorem received_bag_valid q line source s s' sn receipts :
  plain_request (rx_fs s) q source → receive_source q line s = (s', Ok (sn, receipts)) →
  (∃ v, validate_bag (rx_fs s') (sn_dir sn) = Ok v ∧ valid v = true) ∧
  ∃ copies files, copied_from (rx_fs s) source copies ∧ files ≡ₚ copied_file <$> copies ∧
    payload_files true (rglob (rx_fs s') (sn_dir sn ++ [DATA_DIR_NAME])) = Ok files.
Proof.
  intros Hq H. destruct (receive_source_bag q line source s s' sn receipts Hq H) as (copies & files & b & manifest & Hc & Hp & Hbag & Hok & Htext).
  split; [|exists copies, files; split; [done|]; split; [done|apply Hbag]].
  by apply (bag_on_disk_valid nfc casefold sha256_hex json_loads json_str receive_package package_profile_hash Hsha Hrp Hph
    (rx_fs s') (sn_dir sn) files b manifest).
Qed.

End received.
