(* ===== verification/Landing.v ===== *)
(** * The landing root: stale receives and the server's markers, with their proofs

    [sweep_orphans], [wait_for_server_confirmation], [slug_operator] and [derive_card_id] of
    [sutradhara_receive/core.py] on the path without the compiled extension.  [mtime] is the modification
    time of a path, [rmtree] how the recursive removal of a directory ends, complete or cut short by an
    error, [ascii_fold] the NFKD normal form encoded as ASCII with the rest ignored. *)

From Stdlib Require Import Ascii.
From S2P Require Import Prelude Json JobModels Catalog Scrub Accumulator FanoutMap Profiles Retention RetentionFs.
From S2P Require Import RetentionFsFacts BagIt Bag Receive BagWriteFacts.

(** ** Stale receives *)

(** The directories among the entries of the landing root, links to directories included, sorted. *)
Definition landing_dirs (fs : Fs) (landing : path) : list path :=
  filter (λ p, is_dir fs p = true)
    (omap (λ e : path * Node, match e.1 with [name] => Some (landing ++ [name]) | _ => None end) (rglob fs landing)).

Section sweep.
Context (mtime : path → Z) (rmtree : path → Removal).

(** A receive that started, did not complete and is old enough. *)
Definition stale (fs : Fs) (older_than now : Z) (child : path) : bool :=
  path_exists fs (child ++ [RECEIVING_NAME]) && negb (path_exists fs (child ++ [SENTINEL_NAME])) &&
  (older_than <=? now - mtime (child ++ [RECEIVING_NAME])).

(** What a removal that is cut short leaves. *)
Definition remove_some (child : path) (remains : path → bool) (fs : Fs) : Fs :=
  filter (λ pn, (negb (under child pn.1) || remains pn.1) = true) fs.

(** [shutil.rmtree] refuses a link; an error of it leaves the loop, with the entries it did not reach. *)
Fixpoint sweep_children (fs : Fs) (older_than now : Z) (children : list path)
    : Fs * result ReceiveFault (list path) :=
  match children with
  | [] => (fs, Ok [])
  | child :: children =>
      if negb (stale fs older_than now child) then sweep_children fs older_than now children
      else if is_symlink fs child then (fs, Err OsFault)
      else
        match rmtree child with
        | Interrupted remains => (remove_some child remains fs, Err OsFault)
        | Complete =>
            match sweep_children (remove_tree child fs) older_than now children with
            | (fs, Ok removed) => (fs, Ok (child :: removed))
            | (fs, Err e) => (fs, Err e)
            end
        end
  end.

Definition sweep_orphans (fs : Fs) (landing : path) (older_than now : Z) : Fs * result ReceiveFault (list path) :=
  if negb (path_exists fs landing) then (fs, Ok [])
  else match resolve fs false landing with
       | Ok root => if is_dir fs root then sweep_children fs older_than now (landing_dirs fs root) else (fs, Err OsFault)
       | Err _ => (fs, Err OsFault)
       end.

End sweep.

(** ** The server's markers *)

(** What [_read_json_or_none] does with a marker: a document, nothing, or an exception it does not catch
    (bytes that are no UTF-8). *)
Inductive MarkerRead := MarkerDoc (d : dict json) | MarkerNone | MarkerRaises.

Definition read_marker (json_loads : bytes → option json) (content : option bytes) : MarkerRead :=
  match content with
  | None => MarkerNone
  | Some c => if utf8_decodes c then
                match json_loads c with Some (JObj d) => MarkerDoc d | _ => MarkerNone end
              else MarkerRaises
  end.

(** One test of a marker: whether it exists, and its bytes when it is then read. *)
Record Probe := { pb_exists : bool; pb_content : option bytes }.

(** One round of the loop: the three markers and the clock at its end. *)
Record Poll := { pl_discrepancy : Probe; pl_quarantined : Probe; pl_verified : Probe; pl_clock : Z }.

Record ConfirmationResult := { cf_release_ok : bool; cf_status : string; cf_detail : option (dict json) }.

Definition marker_doc (m : MarkerRead) : option (option (dict json)) :=
  match m with MarkerDoc d => Some (Some d) | MarkerNone => Some None | MarkerRaises => None end.

(** The end of one round: [None] goes on polling, [Some None] is an exception. *)
Definition poll_once (json_loads : bytes → option json) (deadline : Z) (p : Poll) : option (option ConfirmationResult) :=
  let found status ok probe :=
    Some (detail ← marker_doc (read_marker json_loads (pb_content probe));
          Some {| cf_release_ok := ok detail; cf_status := status detail; cf_detail := detail |}) in
  if pb_exists (pl_discrepancy p) then found (λ _, "discrepancy") (λ _, false) (pl_discrepancy p)
  else if pb_exists (pl_quarantined p) then found (λ _, "quarantined") (λ _, false) (pl_quarantined p)
  else if pb_exists (pl_verified p) then
    found (λ d, if d then "verified" else "pending") (λ d, if d then true else false) (pl_verified p)
  else if deadline <=? pl_clock p then
    Some (Some {| cf_release_ok := false; cf_status := "timeout"; cf_detail := None |})
  else None.

(** The rounds that were made; [None] while the loop has not ended. *)
Fixpoint wait_for_server_confirmation (json_loads : bytes → option json) (deadline : Z) (polls : list Poll)
    : option (option ConfirmationResult) :=
  match polls with
  | [] => None
  | p :: polls =>
      match poll_once json_loads deadline p with
      | Some r => Some r
      | None => wait_for_server_confirmation json_loads deadline polls
      end
  end.

(** ** Identifiers *)

Definition is_slug_char (c : ascii) : bool :=
  let n := nat_of_ascii c in ((48 <=? n) && (n <=? 57) || (97 <=? n) && (n <=? 122))%nat.

(** [re.sub("[^A-Za-z0-9]+", "-", text)] of a lower-case text: a run of other characters becomes one dash.  [gap] holds inside
    such a run. *)
Fixpoint dash_runs (gap : bool) (l : list ascii) : list ascii :=
  match l with
  | [] => []
  | c :: l =>
      if is_slug_char c then c :: dash_runs false l
      else if gap then dash_runs true l
      else "-"%char :: dash_runs true l
  end.

Fixpoint drop_dashes (l : list ascii) : list ascii :=
  match l with c :: l' => if Ascii.eqb c "-" then drop_dashes l' else l | [] => [] end.

Definition strip_dashes (l : list ascii) : list ascii := rev (drop_dashes (rev (drop_dashes l))).

Definition slug_operator (ascii_fold : string → string) (operator : string) : string :=
  match strip_dashes (dash_runs false (String.list_ascii_of_string (lower (ascii_fold operator)))) with
  | [] => "operator"
  | l => String.string_of_list_ascii l
  end.

Definition derive_card_id (sha256_hex : bytes → string) (volume_uuid source : option string) (mount_path : string)
    (label : option string) : string :=
  match volume_uuid with
  | Some (String c u) => "volume:" +:+ String c u
  | _ => "volume:" +:+ String.substring 0 24 (sha256_hex (default "" source +:+ "|" +:+ mount_path +:+ "|" +:+ default "" label))
  end.

(** ** Proofs: stale receives *)

#[local] Opaque RESOLVE_STEPS.

Section sweep_facts.
Context (mtime : path → Z) (rmtree : path → Removal) (older_than now : Z).

Lemma remove_tree_kept root fs p : ¬ root `prefix_of` p → remove_tree root fs !! p = fs !! p.
Proof. intros H. rewrite remove_tree_lookup. unfold under. by rewrite bool_decide_eq_false_2. Qed.

Lemma remove_tree_gone root fs p : root `prefix_of` p → remove_tree root fs !! p = None.
Proof. intros H. rewrite remove_tree_lookup. unfold under. by rewrite bool_decide_eq_true_2. Qed.

Lemma remove_some_kept root remains fs p : ¬ root `prefix_of` p → remove_some root remains fs !! p = fs !! p.
Proof.
  intros H. unfold remove_some. destruct (fs !! p) as [n|] eqn:E; [|apply map_lookup_filter_None; by left].
  apply map_lookup_filter_Some. split; [done|]. cbn. unfold under. by rewrite bool_decide_eq_false_2.
Qed.

(** Nothing appears in a removal that is cut short. *)
Lemma remove_some_part root remains fs p :
  remove_some root remains fs !! p = None ∨ remove_some root remains fs !! p = fs !! p.
Proof.
  unfold remove_some. destruct (filter _ fs !! p) as [n|] eqn:E; [right|by left].
  by apply map_lookup_filter_Some in E as [-> _].
Qed.

Lemma remove_tree_real root fs p : real_dir fs p → ¬ root `prefix_of` p → real_dir (remove_tree root fs) p.
Proof.
  intros (Hd & Hdots & Hlen) Hno. split; [|done]. intros q Hq Hp. rewrite remove_tree_kept; [by apply Hd|].
  intros Hr. apply Hno. by transitivity q.
Qed.

(** The receives a sweep may remove: a record exists, no sentinel file does, and the record is old
    enough. *)
Definition orphan (fs : Fs) (c : path) : Prop :=
  is_Some (fs !! (c ++ [RECEIVING_NAME])) ∧ (∀ s, fs !! (c ++ [SENTINEL_NAME]) ≠ Some (NFile s)) ∧
  older_than <= now - mtime (c ++ [RECEIVING_NAME]).

(** The receives a sweep that returns has removed. *)
Definition overdue (fs : Fs) (c : path) : Prop :=
  fs !! c = Some NDir ∧ (∃ s, fs !! (c ++ [RECEIVING_NAME]) = Some (NFile s)) ∧
  fs !! (c ++ [SENTINEL_NAME]) = None ∧ older_than <= now - mtime (c ++ [RECEIVING_NAME]).

(** An entry of the landing root that is a directory or a link. *)
Definition entry (fs : Fs) (landing c : path) : Prop :=
  ∃ n, c = landing ++ [n] ∧ n ≠ ".." ∧ (fs !! c = Some NDir ∨ ∃ t, fs !! c = Some (NLink t)).

Lemma exists_file fs p n s : real_dir fs p → n ≠ ".." → fs !! (p ++ [n]) = Some (NFile s) →
  path_exists fs (p ++ [n]) = true.
Proof.
  intros Hr Hn Hs. pose proof (read_file_child fs p n s Hr Hn Hs) as H. unfold read_file in H. unfold path_exists.
  by destruct (stat fs (p ++ [n])).
Qed.

Lemma stale_orphan fs c : real_dir fs c → stale mtime fs older_than now c = true → orphan fs c.
Proof.
  intros Hr [[He Hs]%andb_true_iff Ha]%andb_true_iff. split_and!.
  - apply not_eq_None_Some. intros E. by rewrite (exists_child_None fs c RECEIVING_NAME Hr) in He.
  - intros s E. by rewrite (exists_file fs c SENTINEL_NAME s Hr) in Hs.
  - lia.
Qed.

Lemma overdue_stale fs c : real_dir fs c → overdue fs c → stale mtime fs older_than now c = true.
Proof.
  intros Hr (_ & (s & He) & Hs & Ha). unfold stale. rewrite (exists_file fs c RECEIVING_NAME s) by done.
  rewrite (exists_child_None fs c SENTINEL_NAME) by done. cbn. lia.
Qed.

Lemma lstat_child fs p n node : real_dir fs p → n ≠ ".." → fs !! (p ++ [n]) = Some node → lstat fs (p ++ [n]) = Ok node.
Proof.
  intros Hr Hn Hd. unfold lstat. rewrite last_snoc, removelast_last, (resolve_dir fs false p Hr). cbn [mbind result_bind].
  by rewrite (node_at_real fs p Hr), decide_False, Hd.
Qed.

(** Different entries of the landing root have nothing below them in common. *)
Lemma entries_apart (landing : path) (n n' : string) (p : path) :
  n ≠ n' → landing ++ [n] `prefix_of` p → ¬ landing ++ [n'] `prefix_of` p.
Proof.
  intros Hne [k ->] [k' E]. rewrite <- !app_assoc in E. apply app_inv_head in E. by injection E.
Qed.

(** What a sweep of some entries did: it removed some of them, and at its failure a part of one more. *)
Definition swept (fs fs' : Fs) (children removed : list path) (cut : option path) : Prop :=
  removed ++ option_list cut ⊆ children ∧
  Forall (orphan fs) (removed ++ option_list cut) ∧
  (∀ p, (∀ c, c ∈ removed ++ option_list cut → ¬ c `prefix_of` p) → fs' !! p = fs !! p) ∧
  (∀ c p, c ∈ removed → c `prefix_of` p → fs' !! p = None) ∧
  (∀ p, fs' !! p = None ∨ fs' !! p = fs !! p).

Lemma swept_nothing fs children : swept fs fs children [] None.
Proof.
  split_and!; [set_solver|constructor|done| |by right]. intros c p Hc. by apply elem_of_nil in Hc.
Qed.

Lemma swept_skip fs fs' child children removed cut :
  swept fs fs' children removed cut → swept fs fs' (child :: children) removed cut.
Proof. intros (H & Hrest). split; [set_solver|done]. Qed.

Lemma swept_interrupted fs child children remains :
  orphan fs child → swept fs (remove_some child remains fs) (child :: children) [] (Some child).
Proof.
  intros Ho. split_and!.
  - cbn. set_solver.
  - cbn. by constructor.
  - intros p Hp. apply remove_some_kept, Hp. cbn. by left.
  - intros c p Hc. by apply elem_of_nil in Hc.
  - apply remove_some_part.
Qed.

(** What holds below an entry survives the removal of another one. *)
Lemma orphan_apart fs child c :
  (∀ p, c `prefix_of` p → ¬ child `prefix_of` p) → orphan (remove_tree child fs) c → orphan fs c.
Proof.
  intros Hap. unfold orphan. rewrite !remove_tree_kept; [done|..]; apply Hap; by apply prefix_app_r.
Qed.

Lemma swept_cons fs fs' child children removed cut :
  orphan fs child → (∀ c p, c ∈ children → c `prefix_of` p → ¬ child `prefix_of` p) →
  swept (remove_tree child fs) fs' children removed cut → swept fs fs' (child :: children) (child :: removed) cut.
Proof.
  intros Ho Hap (Hsub & Hall & Hkeep & Hgone & Hpart). split_and!.
  - cbn. set_solver.
  - cbn. constructor; [done|]. rewrite Forall_forall in Hall |- *. intros c Hc. apply (orphan_apart fs child); [|by apply Hall].
    intros p. apply Hap. by apply Hsub.
  - intros p Hp. rewrite Hkeep; [apply remove_tree_kept, Hp; by left|]. intros c Hc. apply Hp. by right.
  - intros c p [->|Hc]%elem_of_cons Hcp; [|by eapply Hgone].
    destruct (Hpart p) as [?|E]; [done|]. by rewrite E, remove_tree_gone.
  - intros p. destruct (Hpart p) as [?|E]; [by left|]. rewrite E, remove_tree_lookup. destruct (under child p); [by left|by right].
Qed.

Lemma entry_kept fs landing child c :
  (∀ p, c `prefix_of` p → ¬ child `prefix_of` p) → entry fs landing c → entry (remove_tree child fs) landing c.
Proof.
  intros Hap (n & -> & Hn & H). exists n. split_and!; [done|done|]. by rewrite remove_tree_kept by (apply Hap; done).
Qed.

Lemma overdue_kept fs child c :
  (∀ p, c `prefix_of` p → ¬ child `prefix_of` p) → overdue fs c → overdue (remove_tree child fs) c.
Proof.
  intros Hap. unfold overdue. rewrite !remove_tree_kept; [done|..]; apply Hap; try by apply prefix_app_r. done.
Qed.

Lemma sweep_children_swept landing children : ∀ fs fs' r,
  real_dir fs landing → (length landing + 9 < RESOLVE_STEPS)%nat → NoDup children → Forall (entry fs landing) children →
  sweep_children mtime rmtree fs older_than now children = (fs', r) →
  ∃ removed cut, swept fs fs' children removed cut ∧
    ∀ l, r = Ok l → l = removed ∧ cut = None ∧ ∀ c, c ∈ children → overdue fs c → c ∈ l.
Proof.
  induction children as [|child children IH]; intros fs fs' r Hr Hlen Hnd Hent H; cbn [sweep_children] in H.
  { injection H as <- <-. exists [], None. split; [apply swept_nothing|]. intros l [= <-]. split_and!; [done|done|].
    intros c Hc. by apply elem_of_nil in Hc. }
  apply NoDup_cons in Hnd as [Hnew Hnd]. apply Forall_cons in Hent as [(n & -> & Hn & Hnode) Hent].
  destruct (stale mtime fs older_than now (landing ++ [n])) eqn:Es; cbn [negb] in H.
  2: { destruct (IH _ _ _ Hr Hlen Hnd Hent H) as (removed & cut & Hsw & Hok). exists removed, cut.
    split; [by apply swept_skip|]. intros l Hl. destruct (Hok l Hl) as (-> & -> & Hall). split_and!; [done|done|].
    intros c [->|Hc]%elem_of_cons Ho; [|by apply Hall]. rewrite overdue_stale in Es; [done|apply real_dir_child; [done|apply Ho|done..]|done]. }
  destruct Hnode as [Hd|[t Ht]].
  2: { unfold is_symlink in H. rewrite (lstat_child fs landing n _ Hr Hn Ht) in H. injection H as <- <-. exists [], None. split; [apply swept_nothing|done]. }
  assert (Hlink : is_symlink fs (landing ++ [n]) = false) by (unfold is_symlink; by rewrite (lstat_child fs landing n _ Hr Hn Hd)).
  rewrite Hlink in H.
  assert (Ho : orphan fs (landing ++ [n])) by (apply stale_orphan; [by apply real_dir_child|done]).
  destruct (rmtree (landing ++ [n])) as [|remains].
  2: { injection H as <- <-. exists [], (Some (landing ++ [n])). split; [by apply swept_interrupted|done]. }
  assert (Hap : ∀ c p, c ∈ children → c `prefix_of` p → ¬ landing ++ [n] `prefix_of` p).
  { intros c p Hc. rewrite Forall_forall in Hent. destruct (Hent c Hc) as (n' & -> & _). apply entries_apart. congruence. }
  destruct (sweep_children mtime rmtree (remove_tree (landing ++ [n]) fs) older_than now children) as [fs1 r1] eqn:E.
  assert (Hr' : real_dir (remove_tree (landing ++ [n]) fs) landing).
  { apply remove_tree_real; [done|]. intros Hk%prefix_length. rewrite length_app in Hk. cbn in Hk. lia. }
  assert (Hent' : Forall (entry (remove_tree (landing ++ [n]) fs) landing) children).
  { rewrite Forall_forall in Hent |- *. intros c Hc. apply entry_kept; [intros p; by apply Hap|by apply Hent]. }
  destruct (IH _ _ _ Hr' Hlen Hnd Hent' E) as (removed & cut & Hsw & Hok).
  assert (Hfs : fs' = fs1) by (destruct r1; by injection H as <-). subst fs'. exists ((landing ++ [n]) :: removed), cut.
  split; [by apply swept_cons|]. intros l Hl. destruct r1 as [l1|]; [|by simplify_eq]. injection H as <-. injection Hl as <-.
  destruct (Hok l1 eq_refl) as (-> & -> & Hall). split_and!; [done|done|].
  intros c [->|Hc]%elem_of_cons Hov; [by left|right]. apply Hall; [done|]. apply overdue_kept; [intros p; by apply Hap|done].
Qed.

(** The directories of a landing root without links above it. *)
Lemma landing_dirs_spec fs root :
  real_dir fs root → fs !! (root ++ [".."]) = None → NoDup (landing_dirs fs root) ∧ Forall (entry fs root) (landing_dirs fs root) ∧
  ∀ n, fs !! (root ++ [n]) = Some NDir → root ++ [n] ∈ landing_dirs fs root.
Proof.
  intros Hr Hdd. unfold landing_dirs, rglob. rewrite resolve_dir by done.
  set (l := sort_by fst (omap (below root) (map_to_list fs))).
  assert (Hnd : NoDup l.*1) by (unfold l; rewrite sort_by_perm; apply below_NoDup, NoDup_fst_map_to_list).
  assert (Hl : ∀ rel node, (rel, node) ∈ l ↔ rel ≠ [] ∧ fs !! (root ++ rel) = Some node).
  { intros rel node. unfold l. rewrite elem_of_sort_by. apply elem_below. }
  split_and!.
  - apply NoDup_filter. clear Hl. induction l as [|[rel node] l IH]; [constructor|]. apply NoDup_cons in Hnd as [Hx Hnd].
    cbn [omap list_omap fst]. destruct rel as [|n [|? ?]]; [by apply IH| |by apply IH]. apply NoDup_cons. split; [|by apply IH].
    intros ([rel' node'] & Hin & E)%list_elem_of_omap. destruct rel' as [|n' [|? ?]]; [done| |done]. cbn in E. simplify_eq.
    apply Hx. by apply (list_elem_of_fmap_2 fst _ ([n], node')).
  - apply Forall_forall. intros c [Hdir Hc]%list_elem_of_filter. apply list_elem_of_omap in Hc as ([rel node] & Hin & E).
    destruct rel as [|n [|? ?]]; [done| |done]. cbn in E. injection E as <-. apply Hl in Hin as [_ Hin].
    assert (Hn : n ≠ "..") by (intros ->; by rewrite Hdd in Hin). exists n. split_and!; [done|done|].
    pose proof (resolve_child fs root n Hr Hn) as Hres. rewrite Hin in Hres |- *.
    destruct node as [s| |t]; [|by left|right; by exists t]. exfalso. unfold is_dir, stat in Hdir. rewrite Hres in Hdir.
    cbn [mbind result_bind] in Hdir. by rewrite node_at_snoc, Hin in Hdir.
  - intros n Hd. assert (Hn : n ≠ "..") by (intros ->; by rewrite Hdd in Hd). apply list_elem_of_filter.
    split; [by apply is_dir_child|]. apply list_elem_of_omap. exists ([n], NDir). split; [|done]. by apply Hl.
Qed.

(** C30: The orphan sweep removes only stale incomplete receives.  Below a landing root that is reached
    through no link, and however each recursive removal ends, the sweep touches some directories of
    the landing root only: each held a receive record and no sentinel file, and its record is at
    least as old as the limit.  Nothing is left below a removed one; a removal that an error cuts
    short leaves a part of the one directory it was at and ends the sweep; every other path is unchanged,
    so that an intake directory with its sentinel file keeps every file.  A sweep that returns names
    exactly what it removed, and has removed every directory that is overdue. *)
Theorem sweep_orphans_safe fs landing fs' r :
  real_dir fs landing → fs !! (landing ++ [".."]) = None → (length landing + 9 < RESOLVE_STEPS)%nat →
  sweep_orphans mtime rmtree fs landing older_than now = (fs', r) →
  ∃ removed cut,
    (∀ l, r = Ok l → l = removed ∧ cut = None ∧ ∀ n, overdue fs (landing ++ [n]) → landing ++ [n] ∈ l) ∧
    (∀ c, c ∈ removed ++ option_list cut → (∃ n, c = landing ++ [n]) ∧ orphan fs c) ∧
    (∀ c p, c ∈ removed → c `prefix_of` p → fs' !! p = None) ∧
    (∀ c p, cut = Some c → c `prefix_of` p → fs' !! p = None ∨ fs' !! p = fs !! p) ∧
    (∀ p, (∀ c, c ∈ removed ++ option_list cut → ¬ c `prefix_of` p) → fs' !! p = fs !! p) ∧
    ∀ n s p, fs !! (landing ++ [n; SENTINEL_NAME]) = Some (NFile s) → landing ++ [n] `prefix_of` p → fs' !! p = fs !! p.
Proof.
  intros Hr Hdd Hlen H. destruct (landing_dirs_spec fs landing Hr Hdd) as (Hnd & Hent & Hall). unfold sweep_orphans in H.
  rewrite (resolve_dir fs false landing Hr) in H.
  assert (Hrd : path_exists fs landing = true ∧ is_dir fs landing = true).
  { unfold path_exists, is_dir, stat. rewrite (resolve_dir fs false landing Hr). cbn [mbind result_bind].
    by rewrite node_at_real. }
  destruct Hrd as [He Hd]. rewrite He, Hd in H. cbn [negb] in H.
  destruct (sweep_children_swept landing _ _ _ _ Hr Hlen Hnd Hent H) as (removed & cut & (Hsub & Ho & Hkeep & Hgone & Hpart) & Hok).
  assert (Hkid : ∀ c, c ∈ removed ++ option_list cut → (∃ n, c = landing ++ [n]) ∧ orphan fs c).
  { intros c Hc. rewrite Forall_forall in Ho, Hent. split; [|by apply Ho]. destruct (Hent c) as (n & -> & _); [by apply Hsub|eauto]. }
  exists removed, cut. split_and!; [|exact Hkid|exact Hgone|intros; apply Hpart|exact Hkeep|].
  - intros l Hl. destruct (Hok l Hl) as (-> & -> & Hin). split_and!; [done|done|]. intros n Hov. apply Hin; [apply Hall, Hov|done].
  - intros n s p Hs Hp. apply Hkeep. intros c Hc. destruct (Hkid c Hc) as [[n' ->] (_ & Hno & _)]. apply entries_apart with n; [|done].
    intros <-. apply (Hno s). by rewrite <- app_assoc.
Qed.

End sweep_facts.

(** ** Proofs: the server's markers *)

Section markers.
Context (json_loads : bytes → option json) (deadline : Z).

(** The source may be released only on a readable verified marker that neither a discrepancy nor a
    quarantine marker preceded. *)
Lemma confirmation_sound polls r :
  wait_for_server_confirmation json_loads deadline polls = Some (Some r) → cf_release_ok r = true →
  ∃ p d c, p ∈ polls ∧ pb_exists (pl_discrepancy p) = false ∧ pb_exists (pl_quarantined p) = false ∧
    pb_exists (pl_verified p) = true ∧ pb_content (pl_verified p) = Some c ∧ json_loads c = Some (JObj d) ∧
    cf_status r = "verified" ∧ cf_detail r = Some d.
Proof.
  induction polls as [|p polls IH]; [done|]. cbn [wait_for_server_confirmation].
  destruct (poll_once json_loads deadline p) as [o|] eqn:E; [|].
  - intros [= ->] Hok. exists p. unfold poll_once in E.
    destruct (pb_exists (pl_discrepancy p)); [destruct (marker_doc _); by simplify_eq/=|].
    destruct (pb_exists (pl_quarantined p)); [destruct (marker_doc _); by simplify_eq/=|].
    destruct (pb_exists (pl_verified p)); [|case_match; by simplify_eq/=].
    destruct (pb_content (pl_verified p)) as [c|] eqn:Ec; cbn in E; [|by simplify_eq/=].
    destruct (utf8_decodes c); [|done]. destruct (json_loads c) as [[]|] eqn:Ej; simplify_eq/=; try done.
    eexists _, c. split_and!; try done. by left.
  - intros H Hok. destruct (IH H Hok) as (p' & d & c & Hin & Hrest). exists p', d, c. split; [by right|done].
Qed.

(** The loop ends at the first round past the deadline at the latest. *)
Lemma confirmation_ends polls : Exists (λ p, deadline <= pl_clock p) polls →
  is_Some (wait_for_server_confirmation json_loads deadline polls).
Proof.
  induction 1 as [p polls Hp|p polls _ IH]; cbn [wait_for_server_confirmation];
    destruct (poll_once json_loads deadline p) eqn:E; [done| |done|done].
  exfalso. unfold poll_once in E. repeat case_match; simplify_eq/=. lia.
Qed.

End markers.

(** ** Proofs: operator slugs *)

Definition is_slug (l : list ascii) : Prop := Forall (λ c, is_slug_char c = true ∨ c = "-"%char) l.

Lemma dash_runs_slug gap l : is_slug (dash_runs gap l).
Proof.
  revert gap. induction l as [|c l IH]; intros gap; cbn [dash_runs]; [constructor|].
  destruct (is_slug_char c) eqn:E; [|destruct gap]; [constructor; [by left|apply IH]|apply IH|constructor; [by right|apply IH]].
Qed.

Lemma drop_dashes_suffix l : ∃ k, l = k ++ drop_dashes l.
Proof.
  induction l as [|c l [k IH]]; [by exists []|]. cbn [drop_dashes]. destruct (Ascii.eqb c "-"); [|by exists []].
  exists (c :: k). cbn. by rewrite <- IH.
Qed.

Lemma drop_dashes_head l c k : drop_dashes l = c :: k → c ≠ "-"%char.
Proof.
  induction l as [|c' l IH]; [done|]. cbn [drop_dashes]. destruct (Ascii.eqb_spec c' "-"); [done|]. by intros [= -> _].
Qed.

(** An operator slug is a non-empty text of lower-case letters, digits and dashes that begins and ends
    with no dash. *)
Lemma slug_operator_safe ascii_fold operator :
  let l := String.list_ascii_of_string (slug_operator ascii_fold operator) in
  l ≠ [] ∧ is_slug l ∧ head l ≠ Some "-"%char ∧ last l ≠ Some "-"%char.
Proof.
  cbn. unfold slug_operator. set (r := dash_runs _ _).
  destruct (strip_dashes r) as [|c k] eqn:E.
  { cbn. split_and!; [done| |done|done]. repeat constructor; by left. }
  rewrite String.list_ascii_of_string_of_list_ascii. unfold strip_dashes in E.
  destruct (drop_dashes_suffix r) as [a Ha]. set (d := drop_dashes r) in *.
  destruct (drop_dashes_suffix (rev d)) as [b Hb]. set (e := drop_dashes (rev d)) in *.
  assert (Hd : d = (c :: k) ++ rev b).
  { rewrite <- E, <- rev_app_distr, <- Hb. by rewrite rev_involutive. }
  assert (Hr : is_slug r) by apply dash_runs_slug. rewrite Ha, Hd in Hr.
  apply Forall_app in Hr as [_ Hr]. apply Forall_app in Hr as [Hr _]. split_and!; [done|done|..].
  - cbn. intros [= ->]. by apply (drop_dashes_head r _ (k ++ rev b)) in Hd.
  - destruct e as [|x e'] eqn:Ee; [by rewrite <- E|]. rewrite <- E. cbn [rev]. rewrite last_snoc. intros [= ->].
    by apply (drop_dashes_head (rev d) "-" e').
Qed.
