(* ===== verification/Intake.v ===== *)
(** * Intake: from a landing directory to catalog rows

    [intake.py]: the read-only inspection, the registration of a validated payload, quarantine, the check
    of an intake that is already registered, prepare profiles, the acceptance of a landing root and the
    markers that tell the source side; with [transition_device_intent_terminal] of [api/store.py].

    The columns of the intake, item and asset rows that only these functions use are kept beside the
    catalog rows, in [IntakeDetail], [ItemDetail] and [AssetDetail].  Device and inode numbers, which
    nothing reads, are left out.  A call that raises leaves no state: the caller rolls back. *)

From Stdlib Require Import Ascii.
From stdpp Require Import pretty.
From S2P Require Import Prelude Json JsonText JobModels Catalog Engine Scrub Accumulator FanoutMap Durability Profiles.
From S2P Require Import Retention RetentionFs Novelty BagIt Bag Receive.

Inductive SourceKind := CARD | DRIVE | UPLOAD | HANDOFF | DOWNLOAD | OTHER_SOURCE.

#[export] Instance SourceKind_eq_dec : EqDecision SourceKind.
Proof. solve_decision. Defined.

Definition source_kind_text (k : SourceKind) : string :=
  match k with
  | CARD => "card" | DRIVE => "drive" | UPLOAD => "upload" | HANDOFF => "handoff" | DOWNLOAD => "download"
  | OTHER_SOURCE => "other"
  end.

(** An unknown text is [OTHER]. *)
Definition source_kind (raw : string) : SourceKind :=
  default OTHER_SOURCE (head (filter (λ k, source_kind_text k = raw) [CARD; DRIVE; UPLOAD; HANDOFF; DOWNLOAD; OTHER_SOURCE])).

Record IntakeDetail := {
  nd_operator : string;
  nd_source_kind : SourceKind;
  nd_source_ref : option string;
  nd_label : option string;
  nd_card_id : option string;
  nd_device_id : option string;
  nd_created_at : time;
  nd_updated_at : time;
  nd_registered_at : option time;
  nd_quarantined_at : option time;
}.

Record ItemDetail := {
  xd_virtual_path : string;
  xd_evaluated_at : option time;
  xd_policy_generation : option string;
  xd_evidence : dict json;
  xd_prior_intake_id : option string;
}.

Record AssetDetail := { xa_media_kind : option MediaKind; xa_media_info : dict json }.

(** The receive intent of a device and the card it has claimed. *)
Record Intent := {
  nt_intake_id : option string;
  nt_status : string;
  nt_operator : string;
  nt_key : string;
  nt_lease_source_id : option string;
  nt_terminal_at : option time;
}.

Record SourceClaim := { cl_operator : string; cl_key : string }.

Record Registry := {
  rg_db : Database;
  rg_intakes : gmap string IntakeDetail;
  rg_items : gmap Z ItemDetail;
  rg_assets : gmap bytes AssetDetail;
  rg_grpc : gmap string (string * option string);          (* device and card of a streamed intake *)
  rg_intents : gmap Z Intent;
  rg_claims : gmap string SourceClaim;
}.

Inductive IntakeFault :=
  | SentinelMissing                                          (* FileNotFoundError *)
  | PayloadMissing
  | UnreadableFile                                           (* OSError *)
  | InvalidSentinel                                          (* ValueError of the JSON text *)
  | PayloadRefused (e : ReceiveError)                        (* ReceiveError *)
  | ClassMismatch (bag given : string)
  | ClassMissing
  | AssetRowMissing (item : Z)
  | SizeMismatch (digest : string) (catalog received : Z)
  | NotADigest (text : string)
  | SeveralRows
  | IntakeDiscrepancy (reason : string) (marker : string * json)
  | DurabilityFault (e : DurError)
  | UnknownProfile (name : string)
  | NotRegistered (intake_id : string)
  | NotPreparable (intake_id : string).

(** ** Metadata *)

Definition truthy (j : json) : bool :=
  match j with
  | JNull | JBool false | JStr "" | JBytes "" | JList [] | JObj [] => false
  | JInt n => negb (n =? 0)
  | _ => true
  end.

(** [a or b] *)
Definition py_or (a b : json) : json := if truthy a then a else b.

Definition get (key : string) (d : dict json) : json := default JNull (dget key d).
Definition label_of (key : string) (labels : dict string) : json :=
  match dget key labels with Some v => JStr v | None => JNull end.

Record Metadata := {
  md_intake_id : json;
  md_operator : json;
  md_source_kind : json;
  md_source_ref : json;
  md_artifactclass : json;
  md_label : json;
}.

Definition metadata_from_labels (labels : dict string) (sentinel : dict json) (root_name : string) : Metadata :=
  let field label key := py_or (label_of label labels) (get key sentinel) in
  {| md_intake_id := py_or (field "Intake-Id" "intake_id") (JStr root_name); md_operator := field "Operator" "operator";
     md_source_kind := field "Source-Kind" "source_kind"; md_source_ref := field "Source-Ref" "source_ref";
     md_artifactclass := field "Artifactclass" "artifactclass"; md_label := field "Label" "label" |}.

Definition metadata_from_mapping (source : dict json) (root_name : string) : Metadata :=
  {| md_intake_id := py_or (get "intake_id" source) (JStr root_name); md_operator := get "operator" source;
     md_source_kind := get "source_kind" source; md_source_ref := get "source_ref" source;
     md_artifactclass := get "artifactclass" source; md_label := get "label" source |}.

Definition with_class (c : string) (m : Metadata) : Metadata :=
  {| md_intake_id := md_intake_id m; md_operator := md_operator m; md_source_kind := md_source_kind m;
     md_source_ref := md_source_ref m; md_artifactclass := JStr c; md_label := md_label m |}.

Section intake.
Context (nfc casefold : string → string) (sha256_hex : bytes → string).
Context (json_loads : bytes → option json) (json_str : json → string) (dumps compact_dumps : json → bytes).
Context (isoformat : time → string) (receive_package package_profile_hash : string).
(** The environment: the [USER] variable, the text of the [updated_at] column of a policy row, the prepare
    profiles, and the clock when the intake row is written, an item is classified and the registration is
    recorded. *)
Context (user : option string) (policy_updated : string → string) (profiles : ProfileTable).
Context (now_upsert now_evaluated now_registered : time).

Local Abbreviation validate_bag := (validate_bag nfc casefold sha256_hex json_loads json_str receive_package package_profile_hash).

Definition str_ (j : json) : string := text_of json_str j.

Definition optional_text (j : json) : option string :=
  match j with
  | JNull => None
  | _ => if decide (str_ j = "") then None else Some (str_ j)
  end.

(** ** Reading the landing directory *)

Record IntakeContext := {
  cx_root : path;
  cx_sentinel : dict json;
  cx_is_bag : bool;
  cx_payload_root : path;
  cx_manifest_path : option path;
  cx_metadata : Metadata;
  cx_intake_id : string;
}.

Definition is_bag_intake (fs : Fs) (root : path) : bool :=
  existsb (λ name, path_exists fs (root ++ [name])) [BAGIT_NAME; BAG_INFO_NAME; MANIFEST_NAME].

Definition read_sentinel (fs : Fs) (p : path) : result IntakeFault (dict json) :=
  match stat fs p with
  | Ok (NFile content) =>
      match json_loads content with Some (JObj d) => Ok d | _ => Err InvalidSentinel end
  | _ => Err UnreadableFile
  end.

Definition os_path {A} (r : result PathError A) : result IntakeFault A :=
  match r with Ok a => Ok a | Err _ => Err UnreadableFile end.

Definition read_intake_context (fs : Fs) (dir : path) : result IntakeFault IntakeContext :=
  root ← os_path (resolve fs true dir);
  _ ← raise_if (negb (path_exists fs (root ++ [SENTINEL_NAME]))) SentinelMissing;
  sentinel ← read_sentinel fs (root ++ [SENTINEL_NAME]);
  let is_bag := is_bag_intake fs root in
  let metadata := if is_bag then metadata_from_labels (metadata_of fs root).1 sentinel (path_base root)
                  else metadata_from_mapping sentinel (path_base root) in
  let payload_root := root ++ [if is_bag then DATA_DIR_NAME else "payload"] in
  _ ← raise_if (negb is_bag && negb (is_dir fs payload_root)) PayloadMissing;
  Ok {| cx_root := root; cx_sentinel := sentinel; cx_is_bag := is_bag; cx_payload_root := payload_root;
        cx_manifest_path := if is_bag then Some (root ++ [MANIFEST_NAME]) else None; cx_metadata := metadata;
        cx_intake_id := str_ (py_or (md_intake_id metadata) (JStr (path_base root))) |}.

(** A payload record with the path it was read from. *)
Record PayloadRecord := { py_receipt : FileReceipt; py_source : path }.

Record ValidatedPayload := {
  vp_intake_id : string;
  vp_metadata : Metadata;
  vp_records : list PayloadRecord;
  vp_valid : bool;
  vp_complete : bool;
  vp_manifest_digest : option string;
  vp_details : option BagValidationResult;
}.

(** The regular files below the payload root, in the order of the records. *)
Definition payload_sources (fs : Fs) (root : path) : list path :=
  omap (λ e : path * Node, match e with (rel, NFile _) => Some (root ++ rel) | _ => None end) (rglob fs root).

Definition payload_of (fs : Fs) (root : path) (records : list FileReceipt) : list PayloadRecord :=
  zip_with (λ r p, {| py_receipt := r; py_source := p |}) records (payload_sources fs root).

Definition manifest_digest (fs : Fs) (p : path) : result IntakeFault (option string) :=
  match stat fs p with
  | Ok (NFile content) => Ok (Some (sha256_hex content))
  | Ok _ => Err UnreadableFile
  | Err _ => Ok None
  end.

Definition legacy_manifest_digest (records : list FileReceipt) : string :=
  sha256_hex (compact_dumps (JList ((λ r, JList [JStr (fr_relpath r); JStr (fr_sha256_hex r)]) <$> sort_by fr_relpath records))).

Definition refused_payload {A} (r : result ReceiveError A) : result IntakeFault A :=
  match r with Ok a => Ok a | Err e => Err (PayloadRefused e) end.

Definition validate_payload (fs : Fs) (ctx : IntakeContext) : result IntakeFault ValidatedPayload :=
  if cx_is_bag ctx then
    v ← refused_payload (validate_bag fs (cx_root ctx));
    let metadata := metadata_from_labels (bv_metadata v) (cx_sentinel ctx) (path_base (cx_root ctx)) in
    digest ← manifest_digest fs (cx_root ctx ++ [MANIFEST_NAME]);
    Ok {| vp_intake_id := str_ (py_or (md_intake_id metadata) (JStr (cx_intake_id ctx))); vp_metadata := metadata;
          vp_records := if valid v then payload_of fs (cx_payload_root ctx) (bv_actual_records v) else [];
          vp_valid := valid v; vp_complete := complete v; vp_manifest_digest := digest; vp_details := Some v |}
  else
    records ← refused_payload (hash_payload_tree nfc casefold sha256_hex fs (cx_payload_root ctx) false);
    Ok {| vp_intake_id := cx_intake_id ctx; vp_metadata := cx_metadata ctx;
          vp_records := payload_of fs (cx_payload_root ctx) records; vp_valid := true; vp_complete := true;
          vp_manifest_digest := Some (legacy_manifest_digest records); vp_details := None |}.

(** The class of the bag and the given one must agree when both are there. *)
Definition resolve_artifactclass (ctx : IntakeContext) (metadata : Metadata) (requested : option string)
    : result IntakeFault string :=
  let cli := match requested with Some s => optional_text (JStr s) | None => None end in
  let bag := if cx_is_bag ctx then optional_text (md_artifactclass metadata) else None in
  match bag, cli with
  | Some b, Some c => if decide (b = c) then Ok b else Err (ClassMismatch b c)
  | Some b, None => Ok b
  | None, Some c => Ok c
  | None, None => Err ClassMissing
  end.

(** ** Rows *)

Definition set_db (d : Database) (r : Registry) : Registry :=
  {| rg_db := d; rg_intakes := rg_intakes r; rg_items := rg_items r; rg_assets := rg_assets r; rg_grpc := rg_grpc r;
     rg_intents := rg_intents r; rg_claims := rg_claims r |}.
Definition set_intake_detail (id : string) (x : IntakeDetail) (r : Registry) : Registry :=
  {| rg_db := rg_db r; rg_intakes := <[id := x]> (rg_intakes r); rg_items := rg_items r; rg_assets := rg_assets r;
     rg_grpc := rg_grpc r; rg_intents := rg_intents r; rg_claims := rg_claims r |}.
Definition set_item_detail (id : Z) (x : ItemDetail) (r : Registry) : Registry :=
  {| rg_db := rg_db r; rg_intakes := rg_intakes r; rg_items := <[id := x]> (rg_items r); rg_assets := rg_assets r;
     rg_grpc := rg_grpc r; rg_intents := rg_intents r; rg_claims := rg_claims r |}.
Definition set_asset_detail (h : bytes) (x : AssetDetail) (r : Registry) : Registry :=
  {| rg_db := rg_db r; rg_intakes := rg_intakes r; rg_items := rg_items r; rg_assets := <[h := x]> (rg_assets r);
     rg_grpc := rg_grpc r; rg_intents := rg_intents r; rg_claims := rg_claims r |}.

Definition rcat (r : Registry) : Cat := cat (rg_db r).
Definition put_cat (k : Cat) (r : Registry) : Registry := set_db (with_cat (λ _, k) (rg_db r)) r.

Definition intake_row (r : Registry) (id : string) : option Intake := intakes (rcat r) !! id.
Definition put_intake (id : string) (row : Intake) (r : Registry) : Registry :=
  put_cat (with_intakes (<[id := row]> (intakes (rcat r))) (rcat r)) r.

(** The items of an intake with their ids *)
Definition items_of (k : Cat) (intake_id : string) : list (Z * IngestItem) :=
  filter (λ it, ii_intake_id it.2 = intake_id) (tbl_list (items k)).

Definition blank_detail : IntakeDetail := {|
  nd_operator := ""; nd_source_kind := OTHER_SOURCE; nd_source_ref := None; nd_label := None; nd_card_id := None;
  nd_device_id := None; nd_created_at := 0; nd_updated_at := 0; nd_registered_at := None; nd_quarantined_at := None |}.

Definition intake_detail (r : Registry) (id : string) : IntakeDetail := default blank_detail (rg_intakes r !! id).

(** The identity of the card and device of a streamed intake is copied onto the intake. *)
Definition copy_grpc_identity (id : string) (r : Registry) : Registry :=
  match rg_grpc r !! id with
  | None => r
  | Some (device, card) =>
      let x := intake_detail r id in
      set_intake_detail id {|
        nd_operator := nd_operator x; nd_source_kind := nd_source_kind x; nd_source_ref := nd_source_ref x;
        nd_label := nd_label x; nd_card_id := card; nd_device_id := Some device; nd_created_at := nd_created_at x;
        nd_updated_at := nd_updated_at x; nd_registered_at := nd_registered_at x;
        nd_quarantined_at := nd_quarantined_at x |} r
  end.

Definition upsert_intake (id : string) (metadata : Metadata) (manifest_path : option path) (status : IntakeStatus)
    (r : Registry) : result IntakeFault Registry :=
  let kind := source_kind (str_ (py_or (md_source_kind metadata) (JStr "other"))) in
  match optional_text (md_artifactclass metadata) with
  | None => Err ClassMissing
  | Some cls =>
      let quarantined := bool_decide (status = QUARANTINED) in
      let path := path_text <$> manifest_path in
      let or_text (fallback : string) := str_ (py_or (md_operator metadata) (JStr fallback)) in
      let r :=
        match intake_row r id with
        | None =>
            set_intake_detail id {|
              nd_operator := or_text (match user with Some (String c u) => String c u | _ => "unknown" end);
              nd_source_kind := kind; nd_source_ref := optional_text (md_source_ref metadata);
              nd_label := optional_text (md_label metadata); nd_card_id := None; nd_device_id := None;
              nd_created_at := now_upsert; nd_updated_at := now_upsert; nd_registered_at := None;
              nd_quarantined_at := if quarantined then Some now_upsert else None |}
              (put_intake id {|
                 in_artifactclass := cls; in_status := status; in_retention_state := HELD; in_released_at := None;
                 in_staging_deleted_at := None; in_manifest_path := path; in_manifest_digest := None;
                 in_requested_profile := None; in_release_policy_fingerprint := None; in_staging_tombstoned_at := None;
                 in_staging_tombstone_path := None |} r)
        | Some row =>
            let x := intake_detail r id in
            set_intake_detail id {|
              nd_operator := or_text (nd_operator x); nd_source_kind := kind;
              nd_source_ref := optional_text (md_source_ref metadata); nd_label := optional_text (md_label metadata);
              nd_card_id := nd_card_id x; nd_device_id := nd_device_id x; nd_created_at := nd_created_at x;
              nd_updated_at := now_upsert; nd_registered_at := if quarantined then None else nd_registered_at x;
              nd_quarantined_at := if quarantined then Some now_upsert else nd_quarantined_at x |}
              (put_intake id {|
                 in_artifactclass := cls; in_status := status; in_retention_state := in_retention_state row;
                 in_released_at := in_released_at row; in_staging_deleted_at := in_staging_deleted_at row;
                 in_manifest_path := path; in_manifest_digest := in_manifest_digest row;
                 in_requested_profile := in_requested_profile row;
                 in_release_policy_fingerprint := in_release_policy_fingerprint row;
                 in_staging_tombstoned_at := in_staging_tombstoned_at row;
                 in_staging_tombstone_path := in_staging_tombstone_path row |} r)
        end in
      Ok (copy_grpc_identity id r)
  end.

(** [intake.manifest_digest] and [intake.status] are assigned on the row. *)
Definition set_registration (digest : option string) (status : IntakeStatus) (row : Intake) : Intake := {|
  in_artifactclass := in_artifactclass row; in_status := status; in_retention_state := in_retention_state row;
  in_released_at := in_released_at row; in_staging_deleted_at := in_staging_deleted_at row;
  in_manifest_path := in_manifest_path row; in_manifest_digest := digest;
  in_requested_profile := in_requested_profile row; in_release_policy_fingerprint := in_release_policy_fingerprint row;
  in_staging_tombstoned_at := in_staging_tombstoned_at row; in_staging_tombstone_path := in_staging_tombstone_path row |}.

(** The terminal state of the device intent of an intake, which gives up its claim on the card. *)
Definition terminal_statuses : list string := ["aborted"; "quarantined"; "failed"].

Definition release_record_lease (n : Intent) (claims : gmap string SourceClaim) : gmap string SourceClaim :=
  match nt_lease_source_id n with
  | None => claims
  | Some source =>
      match claims !! source with
      | Some cl => if decide (cl_operator cl = nt_operator n ∧ cl_key cl = nt_key n) then delete source claims else claims
      | None => claims
      end
  end.

Definition transition_receive_intent (intake_id terminal : string) (r : Registry) : result IntakeFault Registry :=
  match filter (λ n, nt_intake_id n.2 = Some intake_id) (map_to_list (rg_intents r)) with
  | [] => Ok r
  | [(id, n)] =>
      if decide (nt_status n = terminal ∨ nt_status n ∈ terminal_statuses ∨ nt_status n ∉ ["started"; "committed"])
      then Ok r
      else Ok {| rg_db := rg_db r; rg_intakes := rg_intakes r; rg_items := rg_items r; rg_assets := rg_assets r;
                 rg_grpc := rg_grpc r;
                 rg_intents := <[id := {| nt_intake_id := nt_intake_id n; nt_status := terminal;
                                          nt_operator := nt_operator n; nt_key := nt_key n;
                                          nt_lease_source_id := nt_lease_source_id n;
                                          nt_terminal_at := Some now_registered |}]> (rg_intents r);
                 rg_claims := release_record_lease n (rg_claims r) |}
  | _ => Err SeveralRows
  end.

(** ** Payload records *)

(** The registered intake that most recently held the asset, other than this one. *)
Definition holds_asset (k : Cat) (intake_id : string) (h : bytes) : bool :=
  existsb (λ it, bool_decide (ii_logical_asset_hash it.2 = h)) (items_of k intake_id).

Definition later (r : Registry) (a b : string) : bool :=
  let key id := (default 0 (nd_registered_at (intake_detail r id)), nd_created_at (intake_detail r id)) in
  let '(ra, ca) := key a in let '(rb, cb) := key b in
  (rb <? ra) || ((rb =? ra) && ((cb <? ca) || ((cb =? ca) && negb (String.leb a b)))).

Definition prior_intake (r : Registry) (intake_id : string) (h : bytes) : option string :=
  foldr (λ id acc, match acc with Some best => if later r id best then Some id else acc | None => Some id end) None
    (filter (λ id, id ≠ intake_id ∧ (in_status <$> intake_row r id) = Some REGISTERED ∧ holds_asset (rcat r) id h = true)
       (map_to_list (intakes (rcat r))).*1).

Record Classified := {
  cd_disposition : IngestDisposition;
  cd_prior : option string;
  cd_generation : string;
  cd_evidence : dict json;
}.

Definition pool_names (l : list PlacementTarget) : json :=
  JList (JStr <$> sort_by id ((λ e, pt_pool_id (pe_target e)) <$> l)).

(** The placement of a known asset; a class without a policy has no placement. *)
Definition known_status (k : Cat) (h : bytes) (cls : string) : result DurError PlacementStatus :=
  match placement_status k (AssetTarget h cls) true with
  | Err ReplicationPolicyMissing => Ok {| ps_complete := false; ps_have := []; ps_want := []; ps_missing := [] |}
  | r => r
  end.

Definition durability {A} (r : result DurError A) : result IntakeFault A :=
  match r with Ok a => Ok a | Err e => Err (DurabilityFault e) end.

Definition classify_disposition (r : Registry) (intake_id cls : string) (h : bytes) (digest : string) (inserted : bool)
    : result IntakeFault Classified :=
  let policy := policies (rcat r) !! cls in
  let generation := match policy with
                    | None => "missing-policy"
                    | Some p => match pr_policy_sha256 p with Some (String c s) => String c s | _ => policy_updated cls end
                    end in
  let prior := prior_intake r intake_id h in
  let evidence safe := [("server_sha256", JStr digest); ("logical_asset_inserted", JBool inserted);
                        ("prior_registered_intake", JBool (bool_decide (is_Some prior)));
                        ("work_suppression_safe", JBool safe)] in
  let classified d safe extra :=
    {| cd_disposition := d; cd_prior := prior; cd_generation := generation; cd_evidence := evidence safe ++ extra |} in
  if inserted then Ok (classified NEW false [])
  else match prior with
       | None => Ok (classified REVERIFIED false [])
       | Some _ =>
           st ← durability (known_status (rcat r) h cls);
           let safe := bool_decide (is_Some policy) && ps_complete st && negb (is_nil (ps_want st)) in
           Ok (classified (if safe then KNOWN_DURABLE else KNOWN_UNDER_DURABLE) safe
                 [("required_pools", pool_names (ps_want st)); ("verified_pools", pool_names (ps_have st));
                  ("missing_pools", pool_names (ps_missing st))])
       end.

(** The insert that does nothing when the asset is there; the result says whether it inserted. *)
Definition insert_asset_if_absent (h : bytes) (size : Z) (as_received stored : string) (r : Registry) : Registry * bool :=
  match assets (rcat r) !! h with
  | Some _ => (r, false)
  | None =>
      (set_asset_detail h {| xa_media_kind := Some (media_kind_for_path as_received);
                             xa_media_info := [("path", JStr as_received); ("stored_member_path", JStr stored)] |}
         (put_cat (with_assets (<[h := {| la_size_bytes := size; la_first_seen_at := now_upsert |}]> (assets (rcat r))) (rcat r)) r),
       true)
  end.

Definition fill_media_kind (h : bytes) (as_received : string) (r : Registry) : Registry :=
  let x := default {| xa_media_kind := None; xa_media_info := [] |} (rg_assets r !! h) in
  match xa_media_kind x with
  | Some _ => r
  | None => set_asset_detail h {| xa_media_kind := Some (media_kind_for_path as_received);
                                  xa_media_info := xa_media_info x |} r
  end.

Definition stored_path_of (f : FileReceipt) : string := default (fr_relpath f) (fr_stored_relpath f).

Definition record_metadata (payload_root : path) (p : PayloadRecord) : dict json :=
  let f := py_receipt p in
  [("source_path", JStr (path_text (py_source p))); ("payload_root", JStr (path_text payload_root));
   ("sha256", JStr (fr_sha256_hex f)); ("stored_member_path", JStr (stored_path_of f))] ++
  match fr_logical_relpath f with Some l => [("logical_member_path", JStr l)] | None => [] end ++
  match fr_package_profile f with
  | Some profile => [("package_profile", JStr profile);
                     ("package_index_path", JStr (path_text (removelast payload_root ++ [PACKAGE_INDEX_NAME])))]
  | None => []
  end.

(** The row is looked up by its unique key. *)
Definition item_at (k : Cat) (intake_id as_received : string) : option (Z * IngestItem) :=
  head (filter (λ it, ii_as_received_path it.2 = as_received) (items_of k intake_id)).

Definition put_items (t : Tbl IngestItem) (r : Registry) : Registry := put_cat (with_items t (rcat r)) r.

(** The asset of a record: an item that is there must have it, otherwise it is inserted. *)
Definition record_asset (h : bytes) (p : PayloadRecord) (item : option (Z * IngestItem)) (r : Registry)
    : result IntakeFault (Registry * LogicalAsset * bool) :=
  let f := py_receipt p in
  match item with
  | Some (id, _) =>
      match assets (rcat r) !! h with Some a => Ok (r, a, false) | None => Err (AssetRowMissing id) end
  | None =>
      let '(r, inserted) := insert_asset_if_absent h (fr_size_bytes f) (as_received_relpath f) (stored_path_of f) r in
      match assets (rcat r) !! h with Some a => Ok (r, a, inserted) | None => Err (AssetRowMissing 0) end
  end.

Definition register_payload_record (intake_id cls : string) (payload_root : path) (p : PayloadRecord) (r : Registry)
    : result IntakeFault Registry :=
  let f := py_receipt p in
  let as_received := as_received_relpath f in
  match fromhex (fr_sha256_hex f) with
  | None => Err (NotADigest (fr_sha256_hex f))
  | Some h =>
      let item := item_at (rcat r) intake_id as_received in
      ra ← record_asset h p item r;
      let '(r, asset, inserted) := ra in
      _ ← raise_if (negb (la_size_bytes asset =? fr_size_bytes f))
            (SizeMismatch (fr_sha256_hex f) (la_size_bytes asset) (fr_size_bytes f));
      let r := fill_media_kind h as_received r in
      let metadata := record_metadata payload_root p in
      match item with
      | None =>
          c ← classify_disposition r intake_id cls h (fr_sha256_hex f) inserted;
          let '(t, id) := tbl_insert {|
            ii_intake_id := intake_id; ii_logical_asset_hash := h; ii_artifactclass := cls;
            ii_size_bytes := fr_size_bytes f; ii_as_received_path := as_received; ii_item_metadata := metadata;
            ii_disposition := cd_disposition c |} (items (rcat r)) in
          Ok (set_item_detail id {|
                xd_virtual_path := as_received; xd_evaluated_at := Some now_evaluated;
                xd_policy_generation := Some (cd_generation c); xd_evidence := cd_evidence c;
                xd_prior_intake_id := cd_prior c |} (put_items t r))
      | Some (id, it) =>
          let x := rg_items r !! id in
          let r := put_items (tbl_put id {|
            ii_intake_id := intake_id; ii_logical_asset_hash := h; ii_artifactclass := cls;
            ii_size_bytes := fr_size_bytes f; ii_as_received_path := as_received;
            ii_item_metadata := dmerge (ii_item_metadata it) metadata; ii_disposition := ii_disposition it |}
            (items (rcat r))) r in
          Ok match x with
             | Some x => set_item_detail id {|
                 xd_virtual_path := if decide (xd_virtual_path x = "") then as_received else xd_virtual_path x;
                 xd_evaluated_at := xd_evaluated_at x; xd_policy_generation := xd_policy_generation x;
                 xd_evidence := xd_evidence x; xd_prior_intake_id := xd_prior_intake_id x |} r
             | None => r
             end
      end
  end.

Fixpoint register_records (intake_id cls : string) (payload_root : path) (l : list PayloadRecord) (r : Registry)
    : result IntakeFault Registry :=
  match l with
  | [] => Ok r
  | p :: l =>
      r ← register_payload_record intake_id cls payload_root p r;
      register_records intake_id cls payload_root l r
  end.

(** ** The cloud copy of the intake *)

(** [all(...)] stops at the first item that needs work. *)
Fixpoint all_suppressed (k : Cat) (l : list (Z * IngestItem)) : result DurError bool :=
  match l with
  | [] => Ok true
  | it :: l =>
      safe ← work_suppression_safe k it.2;
      if safe : bool then all_suppressed k l else Ok false
  end.

Definition fully_known_durable (k : Cat) (intake_id : string) : result DurError bool :=
  match items_of k intake_id with
  | [] => Ok false
  | l => all_suppressed k l
  end.

Definition cloud_key (intake_id : string) : string := "cloud-blob:" +:+ intake_id.

Definition cloud_bundle_has_copy (k : Cat) (intake_id : string) : bool :=
  existsb (λ c, bool_decide (cp_bundle_id c.2 = Some (cloud_key intake_id))) (tbl_list (copies k)).

(** The arguments of a registration. *)
Record RegisterArgs := {
  ra_artifactclass : option string;
  ra_cache_root : option path;
  ra_cloud_backend : string;
  ra_cloud_pool : string;
}.

Definition cloud_spec (intake_id : string) (intake_root payload_root cache_root : path) (a : RegisterArgs) : SubmitSpec := {|
  sb_kind := "cloud-blob";
  sb_params := [("intake_id", JStr intake_id); ("intake_root", JStr (path_text intake_root));
                ("payload_root", JStr (path_text payload_root)); ("cache_root", JStr (path_text cache_root));
                ("backend_name", JStr (ra_cloud_backend a)); ("pool_id", JStr (ra_cloud_pool a))];
  sb_required_resources := [JObj [("pool", JStr "io"); ("count", JInt 1)]];
  sb_prerequisites := []; sb_not_before := None; sb_priority := 0; sb_dedupe_key := Some (cloud_key intake_id);
  sb_recon_domain := None; sb_recon_target_key := None |}.

(** The number of jobs submitted.  [at_flush] is what other transactions committed before the insert. *)
Definition enqueue_missing_cloud_job (fs : Fs) (at_flush : JobDB → JobDB) (intake_id : string) (payload_root cache_root : path)
    (a : RegisterArgs) (r : Registry) : result IntakeFault (Registry * Z) :=
  durable ← durability (fully_known_durable (rcat r) intake_id);
  if durable : bool then Ok (r, 0)
  else if cloud_bundle_has_copy (rcat r) intake_id then Ok (r, 0)
  else
    intake_root ← os_path (resolve fs true (removelast payload_root));
    payload ← os_path (resolve fs true payload_root);
    cache ← os_path (resolve fs true cache_root);
    match live_job_for_dedupe (jobs (rg_db r)) (cloud_key intake_id) with
    | Some _ => Ok (r, 0)
    | None =>
        match submit (jobs (rg_db r)) at_flush (cloud_spec intake_id intake_root payload cache a) now_registered with
        | Ok (db, _) => Ok (set_db (with_jobdb db (rg_db r)) r, 1)
        | Err _ => Err SeveralRows
        end
    end.

(** ** Markers *)

Definition VERIFIED_MARKER : string := "intake.verified.json".
Definition QUARANTINED_MARKER : string := "intake.quarantined.json".
Definition DISCREPANCY_MARKER : string := "intake.discrepancy.json".

Definition time_text (t : option time) : json := match t with Some t => JStr (isoformat t) | None => JNull end.

(** The name of the marker file and its payload; [release_signal] tells a card source that it may be
    released. *)
Definition verified_marker (id : string) (row : Intake) (x : IntakeDetail) (item_count submitted : Z) : string * json :=
  (VERIFIED_MARKER,
   JObj [("intake_id", JStr id); ("status", JStr "registered"); ("registered_at", time_text (nd_registered_at x));
         ("artifactclass", JStr (in_artifactclass row)); ("source_kind", JStr (source_kind_text (nd_source_kind x)));
         ("manifest_path", json_text (in_manifest_path row)); ("manifest_digest", json_text (in_manifest_digest row));
         ("requested_profile", json_text (in_requested_profile row)); ("item_count", JInt item_count);
         ("jobs_submitted", JInt submitted); ("release_signal", JBool (bool_decide (nd_source_kind x = CARD)))]).

(** [details] is the rendering of the validation result. *)
Definition quarantine_marker (id : string) (row : Intake) (x : IntakeDetail) (reason : string) (details : json) : string * json :=
  (QUARANTINED_MARKER,
   JObj [("intake_id", JStr id); ("status", JStr "quarantined"); ("quarantined_at", time_text (nd_quarantined_at x));
         ("manifest_path", json_text (in_manifest_path row)); ("manifest_digest", json_text (in_manifest_digest row));
         ("reason", JStr reason); ("details", details)]).

Definition discrepancy_marker (id : string) (x : IntakeDetail) (details : json) : string * json :=
  (DISCREPANCY_MARKER,
   JObj [("intake_id", JStr id); ("status", JStr "discrepancy"); ("registered_at", time_text (nd_registered_at x));
         ("reason", JStr "registered-intake-discrepancy"); ("details", details)]).

Definition strings (l : list string) : json := JList (JStr <$> l).

(** [details()]: the members that are not empty.  The texts of the errors are left out. *)
Definition validation_details (v : option BagValidationResult) : json :=
  match v with
  | None => JObj []
  | Some v =>
      JObj (filter (λ kv, truthy kv.2 = true)
        [("missing", strings (bv_missing v)); ("extra", strings (bv_extra v));
         ("mismatched", JList ((λ m, JObj [("path", JStr m.1.1); ("expected", JStr m.1.2); ("actual", JStr m.2)]) <$> bv_mismatched v));
         ("tag_mismatched", JBool (negb (is_nil (bv_tag_mismatched v)))); ("errors", JBool (negb (is_nil (bv_errors v))))])
  end.

Definition fingerprint (digest : option string) (cls : string) : json :=
  JObj [("manifest_digest", json_text digest); ("artifactclass", JStr cls)].

(** ** Registration *)

Record RegisterOutcome := {
  ro_intake_id : string;
  ro_path : path;
  ro_status : IntakeStatus;
  ro_item_count : Z;
  ro_jobs_submitted : Z;
  ro_reason : option string;
  ro_manifest_digest : option string;
  ro_artifactclass : string;
  ro_marker : string * json;
}.

Definition item_count (k : Cat) (intake_id : string) : Z := Z.of_nat (length (items_of k intake_id)).

Definition cache_root_of (fs : Fs) (a : RegisterArgs) (ctx : IntakeContext) : result IntakeFault path :=
  match ra_cache_root a with
  | Some p => os_path (resolve fs true p)
  | None => Ok (removelast (cx_root ctx) ++ [".sutradhara-cache"])
  end.

(** An intake that is registered is only compared with its row. *)
Definition handle_registered_intake (fs : Fs) (at_flush : JobDB → JobDB) (ctx : IntakeContext) (vp : ValidatedPayload)
    (row : Intake) (resolved_class : string) (cache_root : path) (a : RegisterArgs) (r : Registry)
    : result IntakeFault (Registry * RegisterOutcome) :=
  let id := vp_intake_id vp in
  let x := intake_detail r id in
  let both := [("expected", fingerprint (in_manifest_digest row) (in_artifactclass row));
               ("actual", fingerprint (vp_manifest_digest vp) resolved_class)] in
  if negb (vp_valid vp) then
    Err (IntakeDiscrepancy "registered-intake-invalid"
      (discrepancy_marker id x (JObj ([("reason", JStr "registered-intake-invalid");
                                       ("validation", validation_details (vp_details vp))] ++ both))))
  else if negb (bool_decide (in_manifest_digest row = vp_manifest_digest vp ∧ in_artifactclass row = resolved_class)) then
    Err (IntakeDiscrepancy "fingerprint-mismatch"
      (discrepancy_marker id x (JObj ([("reason", JStr "fingerprint-mismatch")] ++ both))))
  else
    rs ← enqueue_missing_cloud_job fs at_flush id (cx_payload_root ctx) cache_root a r;
    let '(r, submitted) := rs in
    let n := item_count (rcat r) id in
    Ok (r, {| ro_intake_id := id; ro_path := cx_root ctx; ro_status := REGISTERED; ro_item_count := n;
              ro_jobs_submitted := submitted; ro_reason := Some "already-registered";
              ro_manifest_digest := in_manifest_digest row; ro_artifactclass := in_artifactclass row;
              ro_marker := verified_marker id row x n submitted |}).

Definition quarantine_intake (ctx : IntakeContext) (vp : ValidatedPayload) (resolved_class : string) (r : Registry)
    : result IntakeFault (Registry * RegisterOutcome) :=
  let id := vp_intake_id vp in
  let reason := if vp_complete vp then "bag-invalid" else "bag-incomplete" in
  r ← upsert_intake id (with_class resolved_class (vp_metadata vp)) (cx_manifest_path ctx) QUARANTINED r;
  match intake_row r id with
  | None => Err (NotRegistered id)
  | Some row =>
      let row := set_registration (vp_manifest_digest vp) (in_status row) row in
      r ← transition_receive_intent id "quarantined" (put_intake id row r);
      Ok (r, {| ro_intake_id := id; ro_path := cx_root ctx; ro_status := QUARANTINED; ro_item_count := 0;
                ro_jobs_submitted := 0; ro_reason := Some reason; ro_manifest_digest := vp_manifest_digest vp;
                ro_artifactclass := resolved_class;
                ro_marker := quarantine_marker id row (intake_detail r id) reason (validation_details (vp_details vp)) |})
  end.

Definition mark_registered (id : string) (r : Registry) : Registry :=
  let x := intake_detail r id in
  set_intake_detail id {|
    nd_operator := nd_operator x; nd_source_kind := nd_source_kind x; nd_source_ref := nd_source_ref x;
    nd_label := nd_label x; nd_card_id := nd_card_id x; nd_device_id := nd_device_id x;
    nd_created_at := nd_created_at x; nd_updated_at := now_registered; nd_registered_at := Some now_registered;
    nd_quarantined_at := None |} r.

Definition admit_intake (fs : Fs) (at_flush : JobDB → JobDB) (ctx : IntakeContext) (vp : ValidatedPayload)
    (resolved_class : string) (cache_root : path) (a : RegisterArgs) (r : Registry)
    : result IntakeFault (Registry * RegisterOutcome) :=
  let id := vp_intake_id vp in
  r ← upsert_intake id (with_class resolved_class (vp_metadata vp)) (cx_manifest_path ctx) VERIFYING r;
  r ← register_records id resolved_class (cx_payload_root ctx) (vp_records vp) r;
  match intake_row r id with
  | None => Err (NotRegistered id)
  | Some row =>
      let row := set_registration (vp_manifest_digest vp) REGISTERED row in
      r ← transition_receive_intent id "committed" (mark_registered id (put_intake id row r));
      rs ← enqueue_missing_cloud_job fs at_flush id (cx_payload_root ctx) cache_root a r;
      let '(r, submitted) := rs in
      let n := Z.of_nat (length (vp_records vp)) in
      Ok (r, {| ro_intake_id := id; ro_path := cx_root ctx; ro_status := REGISTERED; ro_item_count := n;
                ro_jobs_submitted := submitted; ro_reason := None; ro_manifest_digest := vp_manifest_digest vp;
                ro_artifactclass := resolved_class;
                ro_marker := verified_marker id row (intake_detail r id) n submitted |})
  end.

Definition register_intake (fs : Fs) (at_flush : JobDB → JobDB) (dir : path) (a : RegisterArgs) (r : Registry)
    : result IntakeFault (Registry * RegisterOutcome) :=
  ctx ← read_intake_context fs dir;
  vp ← validate_payload fs ctx;
  cls ← resolve_artifactclass ctx (vp_metadata vp) (ra_artifactclass a);
  cache_root ← cache_root_of fs a ctx;
  match intake_row r (vp_intake_id vp) with
  | Some row =>
      if decide (in_status row = REGISTERED) then
        ro ← handle_registered_intake fs at_flush ctx vp row cls cache_root a r;
        let '(r, out) := ro in
        r ← transition_receive_intent (vp_intake_id vp) "committed" (copy_grpc_identity (vp_intake_id vp) r);
        Ok (r, out)
      else if negb (vp_valid vp) then quarantine_intake ctx vp cls r
      else admit_intake fs at_flush ctx vp cls cache_root a r
  | None =>
      if negb (vp_valid vp) then quarantine_intake ctx vp cls r
      else admit_intake fs at_flush ctx vp cls cache_root a r
  end.

(** ** Inspection, preparation, acceptance *)

Inductive InspectStatus := AlreadyRegistered | InQuarantine | Ready | Incomplete | Invalid.

Definition inspect_intake (fs : Fs) (dir : path) (r : Registry) : result IntakeFault (string * InspectStatus * Z) :=
  ctx ← read_intake_context fs dir;
  vp ← validate_payload fs ctx;
  let id := vp_intake_id vp in
  Ok match in_status <$> intake_row r id with
     | Some REGISTERED => (id, AlreadyRegistered, item_count (rcat r) id)
     | Some QUARANTINED => (id, InQuarantine, 0)
     | _ => if vp_valid vp then (id, Ready, Z.of_nat (length (vp_records vp)))
            else (id, if vp_complete vp then Invalid else Incomplete, 0)
     end.

Definition set_profile (profile : string) (row : Intake) : Intake := {|
  in_artifactclass := in_artifactclass row; in_status := in_status row; in_retention_state := in_retention_state row;
  in_released_at := in_released_at row; in_staging_deleted_at := in_staging_deleted_at row;
  in_manifest_path := in_manifest_path row; in_manifest_digest := in_manifest_digest row;
  in_requested_profile := Some profile; in_release_policy_fingerprint := in_release_policy_fingerprint row;
  in_staging_tombstoned_at := in_staging_tombstoned_at row; in_staging_tombstone_path := in_staging_tombstone_path row |}.

(** The result is whether the profile was recorded before. *)
Definition prepare_intake (id profile : string) (r : Registry) : result IntakeFault (Registry * bool) :=
  _ ← raise_if (negb (bool_decide (profile ∈ known_profile_names profiles))) (UnknownProfile profile);
  match intake_row r id with
  | None => Err (NotRegistered id)
  | Some row =>
      _ ← raise_if (negb (bool_decide (in_status row = REGISTERED))) (NotRegistered id);
      _ ← raise_if (bool_decide (in_retention_state row ∈ [RELEASED; PURGED])) (NotPreparable id);
      let x := intake_detail r id in
      Ok (set_intake_detail id {|
            nd_operator := nd_operator x; nd_source_kind := nd_source_kind x; nd_source_ref := nd_source_ref x;
            nd_label := nd_label x; nd_card_id := nd_card_id x; nd_device_id := nd_device_id x;
            nd_created_at := nd_created_at x; nd_updated_at := now_registered; nd_registered_at := nd_registered_at x;
            nd_quarantined_at := nd_quarantined_at x |} (put_intake id (set_profile profile row) r),
          bool_decide (in_requested_profile row = Some profile))
  end.

Definition accept_intake (fs : Fs) (at_flush : JobDB → JobDB) (dir : path) (a : RegisterArgs) (profile : option string)
    (r : Registry) : result IntakeFault (Registry * RegisterOutcome) :=
  ro ← register_intake fs at_flush dir a r;
  let '(r, out) := ro in
  match profile with
  | Some profile =>
      if decide (ro_status out = REGISTERED) then
        rp ← prepare_intake (ro_intake_id out) profile r;
        let r := rp.1 in
        let id := ro_intake_id out in
        Ok (r, {| ro_intake_id := id; ro_path := ro_path out; ro_status := ro_status out; ro_item_count := ro_item_count out;
                  ro_jobs_submitted := ro_jobs_submitted out; ro_reason := ro_reason out;
                  ro_manifest_digest := ro_manifest_digest out; ro_artifactclass := ro_artifactclass out;
                  ro_marker := match intake_row r id with
                               | Some row => verified_marker id row (intake_detail r id) (ro_item_count out) (ro_jobs_submitted out)
                               | None => ro_marker out
                               end |})
      else Ok (r, out)
  | None => Ok (r, out)
  end.

(** The completed intakes below a landing root, or the root itself when it is one. *)
Definition iter_intake_dirs (fs : Fs) (landing : path) : result IntakeFault (list path) :=
  root ← os_path (resolve fs true landing);
  _ ← raise_if (negb (path_exists fs root)) PayloadMissing;
  if path_exists fs (root ++ [SENTINEL_NAME]) then Ok [root]
  else
    _ ← raise_if (negb (is_dir fs root)) UnreadableFile;
    Ok (filter (λ p, is_dir fs p && path_exists fs (p ++ [SENTINEL_NAME]) = true)
             (omap (λ e : path * Node, match e.1 with [name] => Some (root ++ [name]) | _ => None end) (rglob fs root))).

Fixpoint accept_dirs (fs : Fs) (at_flush : JobDB → JobDB) (a : RegisterArgs) (profile : option string) (dirs : list path)
    (r : Registry) : result IntakeFault (Registry * list RegisterOutcome) :=
  match dirs with
  | [] => Ok (r, [])
  | dir :: dirs =>
      ro ← accept_intake fs at_flush dir a profile r;
      rest ← accept_dirs fs at_flush a profile dirs ro.1;
      Ok (rest.1, ro.2 :: rest.2)
  end.

Definition accept_landing_root (fs : Fs) (at_flush : JobDB → JobDB) (landing : path) (a : RegisterArgs)
    (profile : option string) (r : Registry) : result IntakeFault (Registry * list RegisterOutcome) :=
  root ← os_path (resolve fs true landing);
  cache ← match ra_cache_root a with Some p => os_path (resolve fs true p) | None => Ok (root ++ [".sutradhara-cache"]) end;
  dirs ← iter_intake_dirs fs root;
  accept_dirs fs at_flush {| ra_artifactclass := ra_artifactclass a; ra_cache_root := Some cache;
                             ra_cloud_backend := ra_cloud_backend a; ra_cloud_pool := ra_cloud_pool a |} profile dirs r.

(** [publish_intake_marker], after the caller committed *)
Definition publish_intake_marker (fs : Fs) (out : RegisterOutcome) : result IntakeFault Fs :=
  refused_payload (atomic_write fs (ro_path out) (ro_marker out).1 (dumps (ro_marker out).2)).

End intake.
