(* ===== verification/IntakeFacts.v ===== *)
(** * Intake: proofs

    What a registration leaves in the catalog, that repeating it changes nothing, that an invalid bag
    registers nothing, and the composition with the receive. *)

From Stdlib Require Import Ascii.
From stdpp Require Import pretty.
From S2P Require Import Prelude Json JsonText JobModels Catalog Engine EngineFacts Scrub Accumulator FanoutMap Durability.
From S2P Require Import Profiles Retention RetentionFs Novelty BagIt Bag Receive BagItFacts BagFacts BagWriteFacts.
From S2P Require Import ReceiveFacts Intake.

#[local] Opaque RESOLVE_STEPS.

(** ** Tables *)

Lemma tbl_list_insert {V} (v : V) (t : Tbl V) :
  tbl_ok t → tbl_list (tbl_insert v t).1 ≡ₚ (t_next t, v) :: tbl_list t.
Proof.
  intros Hok. unfold tbl_list. rewrite !sort_by_perm. cbn. apply map_to_list_insert. by apply tbl_fresh.
Qed.

Lemma items_of_insert k v id :
  tbl_ok (items k) → ∀ k', items k' = (tbl_insert v (items k)).1 →
  items_of k' id ≡ₚ (if decide (ii_intake_id v = id) then [(t_next (items k), v)] else []) ++ items_of k id.
Proof.
  intros Hok k' Hk. unfold items_of. rewrite Hk, tbl_list_insert by done. rewrite filter_cons. cbn [snd]. by case_decide.
Qed.

Lemma elem_items_of k id i it : (i, it) ∈ items_of k id ↔ ii_intake_id it = id ∧ t_rows (items k) !! i = Some it.
Proof. unfold items_of. rewrite list_elem_of_filter, elem_of_tbl_list. done. Qed.

Section intake.
Context (nfc casefold : string → string) (sha256_hex : bytes → string).
Context (json_loads : bytes → option json) (json_str : json → string) (dumps compact_dumps : json → bytes).
Context (isoformat : time → string) (receive_package package_profile_hash : string).
Context (user : option string) (policy_updated : string → string) (profiles : ProfileTable).
Context (now_upsert now_evaluated now_registered : time).

Local Abbreviation register_payload_record := (register_payload_record policy_updated now_upsert now_evaluated).
Local Abbreviation register_records := (register_records policy_updated now_upsert now_evaluated).

(** ** Payload records *)

(** The registrations touch items and assets only. *)
Record rows_only (r r' : Registry) : Prop := {
  ro_jobs : jobs (rg_db r') = jobs (rg_db r);
  ro_details : rg_intakes r' = rg_intakes r;
  ro_grpc : rg_grpc r' = rg_grpc r;
  ro_intents : rg_intents r' = rg_intents r;
  ro_claims : rg_claims r' = rg_claims r;
  ro_cat : rcat r' = with_items (items (rcat r')) (with_assets (assets (rcat r')) (rcat r));
  ro_assets : ∀ h a, assets (rcat r) !! h = Some a → assets (rcat r') !! h = Some a;
}.

Lemma rows_only_refl r : rows_only r r.
Proof. constructor; try done. by destruct r as [[[]]]. Qed.

Lemma rows_only_trans r1 r2 r3 : rows_only r1 r2 → rows_only r2 r3 → rows_only r1 r3.
Proof.
  intros [J1 D1 G1 N1 C1 K1 A1] [J2 D2 G2 N2 C2 K2 A2].
  constructor; [by rewrite J2|by rewrite D2|by rewrite G2|by rewrite N2|by rewrite C2| |by intros; apply A2, A1].
  rewrite K2 at 1. rewrite K1 at 1. done.
Qed.

(** The row that stands for a record. *)
Definition record_item (id cls : string) (p : PayloadRecord) (it : IngestItem) : Prop :=
  ii_intake_id it = id ∧ ii_as_received_path it = as_received_relpath (py_receipt p) ∧ ii_artifactclass it = cls ∧
  fromhex (fr_sha256_hex (py_receipt p)) = Some (ii_logical_asset_hash it) ∧
  ii_size_bytes it = fr_size_bytes (py_receipt p) ∧
  dget "source_path" (ii_item_metadata it) = Some (JStr (path_text (py_source p))).

Lemma record_asset_spec h p r r1 a inserted :
  record_asset now_upsert h p None r = Ok (r1, a, inserted) →
  rows_only r r1 ∧ items (rcat r1) = items (rcat r) ∧ assets (rcat r1) !! h = Some a.
Proof.
  unfold record_asset, insert_asset_if_absent. intros H.
  destruct (assets (rcat r) !! h) as [a0|] eqn:E.
  - rewrite E in H. injection H as <- <- <-. split_and!; [apply rows_only_refl|done|done].
  - cbn in H. rewrite lookup_insert_eq in H. injection H as <- <- <-. split_and!; [|done|by apply lookup_insert_eq].
    constructor; try done. intros h' a' Ha. cbn. rewrite lookup_insert_ne; [done|]. intros <-. congruence.
Qed.

Lemma fill_media_kind_rows h s r : rows_only r (fill_media_kind h s r) ∧ rg_db (fill_media_kind h s r) = rg_db r.
Proof.
  unfold fill_media_kind. case_match; [split; [apply rows_only_refl|done]|]. split; [|done].
  constructor; try done. by destruct r as [[[]]].
Qed.

Lemma register_record_spec id cls root p r r' :
  tbl_ok (items (rcat r)) → item_at (rcat r) id (as_received_relpath (py_receipt p)) = None →
  register_payload_record id cls root p r = Ok r' →
  ∃ it a, record_item id cls p it ∧ rows_only r r' ∧ items (rcat r') = (tbl_insert it (items (rcat r))).1 ∧
    assets (rcat r') !! ii_logical_asset_hash it = Some a ∧ la_size_bytes a = ii_size_bytes it.
Proof.
  intros Hok Hnone. unfold Intake.register_payload_record.
  destruct (fromhex (fr_sha256_hex (py_receipt p))) as [h|] eqn:Eh; [|done]. rewrite Hnone. intros H.
  apply bind_Ok in H as ([[r1 a] inserted] & Ha & H). apply record_asset_spec in Ha as (Hro & Hit & Ha).
  apply bind_Ok in H as ([] & Hs & H). apply raise_if_Ok in Hs. apply negb_false_iff, Z.eqb_eq in Hs.
  apply bind_Ok in H as (c & Hc & H).
  destruct (fill_media_kind_rows h (as_received_relpath (py_receipt p)) r1) as [Hf Hdb].
  set (r2 := fill_media_kind h (as_received_relpath (py_receipt p)) r1) in *.
  destruct (tbl_insert _ (items (rcat r2))) as [t i] eqn:Et. injection H as <-.
  match type of Et with tbl_insert ?it _ = _ => exists it, a end.
  assert (Hi : items (rcat r2) = items (rcat r)) by (unfold rcat; rewrite Hdb; exact Hit).
  assert (Ha2 : assets (rcat r2) = assets (rcat r1)) by (unfold rcat; by rewrite Hdb).
  assert (Ht : t = (tbl_insert {| ii_intake_id := id; ii_logical_asset_hash := h; ii_artifactclass := cls;
            ii_size_bytes := fr_size_bytes (py_receipt p); ii_as_received_path := as_received_relpath (py_receipt p);
            ii_item_metadata := record_metadata root p; ii_disposition := cd_disposition c |} (items (rcat r))).1)
    by (by rewrite <- Hi, Et).
  split; [by unfold record_item|]. split; [|split; [cbn; by rewrite Ht|split; [cbn; by rewrite Ha2|done]]].
  eapply rows_only_trans; [exact Hro|]. eapply rows_only_trans; [exact Hf|].
  constructor; try done.
Qed.

Lemma item_at_None k id s : item_at k id s = None ↔ ∀ i it, (i, it) ∈ items_of k id → ii_as_received_path it ≠ s.
Proof.
  unfold item_at. destruct (filter _ (items_of k id)) as [|[i it] l] eqn:E; cbn; split; try done.
  - intros _ i it Hin Hs. assert (Hf : (i, it) ∈ filter (λ it : Z * IngestItem, ii_as_received_path it.2 = s) (items_of k id)).
    { by apply list_elem_of_filter. }
    rewrite E in Hf. by apply elem_of_nil in Hf.
  - intros H. exfalso. assert (Hf : (i, it) ∈ (i, it) :: l) by apply list_elem_of_here. rewrite <- E in Hf.
    apply list_elem_of_filter in Hf as [Hp Hin]. by apply (H i it).
Qed.

(** One new row per record, in the order of the records; the rows of other intakes stay. *)
Lemma register_records_spec id cls root l : ∀ r r',
  tbl_ok (items (rcat r)) → NoDup ((as_received_relpath ∘ py_receipt) <$> l) →
  (∀ p, p ∈ l → item_at (rcat r) id (as_received_relpath (py_receipt p)) = None) →
  register_records id cls root l r = Ok r' →
  ∃ new, Forall2 (λ p it, record_item id cls p it.2) l new ∧ rows_only r r' ∧ tbl_ok (items (rcat r')) ∧
    items_of (rcat r') id ≡ₚ new ++ items_of (rcat r) id ∧
    (∀ id', id' ≠ id → items_of (rcat r') id' ≡ₚ items_of (rcat r) id') ∧
    (∀ i it, t_rows (items (rcat r)) !! i = Some it → t_rows (items (rcat r')) !! i = Some it) ∧
    Forall (λ it, ∃ a, assets (rcat r') !! ii_logical_asset_hash it.2 = Some a ∧ la_size_bytes a = ii_size_bytes it.2) new.
Proof.
  induction l as [|p l IH]; intros r r' Hok Hnd Hnone H; cbn [Intake.register_records] in H.
  { injection H as <-. exists []. split_and!; try done. apply rows_only_refl. }
  apply bind_Ok in H as (r1 & H1 & H). rewrite fmap_cons in Hnd. apply NoDup_cons in Hnd as [Hnew Hnd].
  destruct (register_record_spec id cls root p r r1 Hok (Hnone p (list_elem_of_here _ _)) H1) as (it & a & Hit & Hro & Hrows & Ha & Hsz).
  assert (Hok1 : tbl_ok (items (rcat r1))) by (rewrite Hrows; by apply tbl_insert_ok).
  pose proof (λ i, items_of_insert (rcat r) it i Hok (rcat r1) Hrows) as Hins.
  destruct (IH r1 r' Hok1 Hnd) as (new & H2 & Hro' & Hok' & Hitems & Hother & Hkeep & Hassets); [|done|].
  { intros q Hq. apply item_at_None. intros i it' Hin. rewrite Hins in Hin. apply elem_of_app in Hin as [Hin|Hin].
    - case_decide; [|by apply elem_of_nil in Hin]. apply list_elem_of_singleton in Hin as [= -> ->].
      destruct Hit as (_ & -> & _). intros E. apply Hnew. change (as_received_relpath (py_receipt p) ∈ (as_received_relpath ∘ py_receipt) <$> l).
      rewrite E. by apply (list_elem_of_fmap_2 (as_received_relpath ∘ py_receipt)).
    - revert i it' Hin. apply item_at_None. apply Hnone. by right. }
  exists ((t_next (items (rcat r)), it) :: new). split_and!.
  - by constructor.
  - by eapply rows_only_trans.
  - done.
  - rewrite Hitems, Hins. destruct Hit as (Hi & _). rewrite decide_True by done. cbn. by rewrite <- Permutation_middle.
  - intros id' Hne. rewrite Hother by done. rewrite Hins. destruct Hit as (Hi & _). rewrite decide_False by congruence. done.
  - intros i it' Hl. apply Hkeep. rewrite Hrows. cbn. rewrite lookup_insert_ne; [done|]. intros <-.
    rewrite tbl_fresh in Hl; done.
  - constructor; [|done]. exists a. split; [by apply Hro'|done].
Qed.

(** ** The cloud job *)

Local Abbreviation enqueue_missing_cloud_job := (enqueue_missing_cloud_job now_registered).

Lemma live_job_head db key : is_Some (live_job_for_dedupe db key) ↔ ∃ id j, job_tbl db !! id = Some j ∧ live_with_key key j = true.
Proof.
  unfold live_job_for_dedupe. destruct (sort_by fst _) as [|[id j] l] eqn:E; cbn [head].
  - split; [by intros [? ?]|]. intros (id & j & Hj & Hl). exfalso.
    assert (Hin : (id, j) ∈ sort_by fst (filter (λ r : Z * Job, live_with_key key r.2 = true) (job_rows db))).
    { apply elem_of_sort_by, list_elem_of_filter. split; [done|]. by apply elem_of_map_to_list. }
    rewrite E in Hin. by apply elem_of_nil in Hin.
  - split; [|by eexists]. intros _. exists id, j.
    assert (Hin : (id, j) ∈ sort_by fst (filter (λ r : Z * Job, live_with_key key r.2 = true) (job_rows db)))
      by (rewrite E; apply list_elem_of_here).
    apply elem_of_sort_by, list_elem_of_filter in Hin as [Hl Hin]. by apply elem_of_map_to_list in Hin.
Qed.

Lemma submit_live db at_flush s now db' id key :
  sb_dedupe_key s = Some key → submit db at_flush s now = Ok (db', id) → is_Some (live_job_for_dedupe db' key).
Proof.
  intros Hk. unfold submit. rewrite Hk. destruct (live_job_for_dedupe db key) as [[i j]|] eqn:E.
  { intros [= <- <-]. by rewrite E. }
  destruct (live_job_for_dedupe (at_flush db) key) as [[i j]|] eqn:E'; intros [= <- <-]; [by rewrite E'|].
  apply live_job_head. exists (next_job_id (at_flush db)), (new_job s now). cbn. rewrite lookup_insert_eq. split; [done|].
  unfold live_with_key, new_job. cbn. by rewrite Hk, bool_decide_eq_true_2.
Qed.

Lemma with_jobdb_cat db d : cat (with_jobdb db d) = cat d.
Proof. done. Qed.

(** After it the job is there, or not needed, for every registry with the same tables. *)
Lemma enqueue_spec fs at_flush id payload cache a r r' n :
  enqueue_missing_cloud_job fs at_flush id payload cache a r = Ok (r', n) →
  rcat r' = rcat r ∧ r' = set_db (rg_db r') r ∧
  ∀ at_flush' r2, rg_db r2 = rg_db r' → enqueue_missing_cloud_job fs at_flush' id payload cache a r2 = Ok (r2, 0).
Proof.
  unfold Intake.enqueue_missing_cloud_job. intros H. apply bind_Ok in H as (durable & Hd & H).
  assert (Hself : r = set_db (rg_db r) r) by by destruct r.
  assert (Hcat : ∀ r2, rg_db r2 = rg_db r → rcat r2 = rcat r) by (intros r2 E; unfold rcat; by rewrite E).
  destruct durable.
  { injection H as <- <-. split_and!; [done|done|]. intros f r2 E. rewrite (Hcat _ E), Hd. done. }
  destruct (cloud_bundle_has_copy (rcat r) id) eqn:Ec.
  { injection H as <- <-. split_and!; [done|done|]. intros f r2 E. rewrite (Hcat _ E), Hd. cbn. by rewrite Ec. }
  apply bind_Ok in H as (ir & Hir & H). apply bind_Ok in H as (pl & Hpl & H). apply bind_Ok in H as (ca & Hca & H).
  destruct (live_job_for_dedupe (jobs (rg_db r)) (cloud_key id)) eqn:El.
  { injection H as <- <-. split_and!; [done|done|]. intros f r2 E. rewrite (Hcat _ E), Hd. cbn.
    rewrite Ec, Hir, Hpl, Hca. cbn. by rewrite E, El. }
  destruct (submit _ _ _ _) as [[db j]|] eqn:Es; [|done]. injection H as <- <-.
  apply (submit_live _ _ _ _ _ _ (cloud_key id)) in Es as [lj Hlj]; [|done].
  split_and!; [done|done|]. intros f r2 E.
  assert (E' : rcat r2 = rcat r) by (unfold rcat; by rewrite E). rewrite E', Hd. cbn. rewrite Ec, Hir, Hpl, Hca. cbn.
  rewrite E. cbn. by rewrite Hlj.
Qed.

(** ** Intents and identities *)

Local Abbreviation transition_receive_intent := (transition_receive_intent now_registered).

(** The device intents of an intake *)
Definition intents_of (r : Registry) (id : string) : list (Z * Intent) :=
  filter (λ n, nt_intake_id n.2 = Some id) (map_to_list (rg_intents r)).

Lemma transition_spec id terminal r r' :
  transition_receive_intent id terminal r = Ok r' →
  rg_db r' = rg_db r ∧ rg_intakes r' = rg_intakes r ∧ rg_grpc r' = rg_grpc r ∧ rg_items r' = rg_items r ∧ rg_assets r' = rg_assets r ∧
  ∀ r2, intents_of r2 id = intents_of r' id → transition_receive_intent id terminal r2 = Ok r2.
Proof.
  unfold Intake.transition_receive_intent. fold (intents_of r id). intros H.
  destruct (intents_of r id) as [|[i n] [|]] eqn:E; [| |done].
  { injection H as <-. split_and!; try done. intros r2 Heq. fold (intents_of r2 id). by rewrite Heq, E. }
  case_decide as Hd; injection H as <-; cbn [rg_intents].
  { split_and!; try done. intros r2 Heq. fold (intents_of r2 id). rewrite Heq, E. by rewrite decide_True. }
  split_and!; try done. intros r2 Heq. fold (intents_of r2 id). rewrite Heq. unfold intents_of in *. cbn [rg_intents].
  set (n' := {| nt_intake_id := nt_intake_id n; nt_status := terminal; nt_operator := nt_operator n; nt_key := nt_key n;
    nt_lease_source_id := nt_lease_source_id n; nt_terminal_at := Some now_registered |}).
  assert (Hin : (i, n) ∈ filter (λ n0 : Z * Intent, nt_intake_id n0.2 = Some id) (map_to_list (rg_intents r)))
    by (rewrite E; apply list_elem_of_here).
  apply list_elem_of_filter in Hin as [Hi Hin]. apply elem_of_map_to_list in Hin. cbn in Hi.
  assert (Hf : filter (λ n0 : Z * Intent, nt_intake_id n0.2 = Some id) (map_to_list (<[i := n']> (rg_intents r))) = [(i, n')]).
  { apply Permutation_singleton_r.
    assert (Hm : map_to_list (rg_intents r) ≡ₚ (i, n) :: map_to_list (delete i (rg_intents r))).
    { rewrite <- (insert_id (rg_intents r) i n) at 1 by done. rewrite <- insert_delete_eq. apply map_to_list_insert, lookup_delete_eq. }
    assert (Hp : filter (λ n0 : Z * Intent, nt_intake_id n0.2 = Some id) (map_to_list (rg_intents r)) ≡ₚ
      (i, n) :: filter (λ n0 : Z * Intent, nt_intake_id n0.2 = Some id) (map_to_list (delete i (rg_intents r))))
      by (rewrite Hm, filter_cons_True by done; done).
    rewrite E in Hp. apply Permutation_cons_inv, Permutation_nil in Hp.
    rewrite <- insert_delete_eq, map_to_list_insert by apply lookup_delete_eq.
    rewrite filter_cons_True by done. by rewrite Hp. }
  rewrite Hf. rewrite decide_True; [done|by left].
Qed.

(** The identity of a streamed intake is on its row. *)
Definition identified (id : string) (r : Registry) : Prop := copy_grpc_identity id r = r.

Lemma identified_intro id r :
  (∀ device card, rg_grpc r !! id = Some (device, card) →
     ∃ x, rg_intakes r !! id = Some x ∧ nd_card_id x = card ∧ nd_device_id x = Some device) → identified id r.
Proof.
  unfold identified, copy_grpc_identity. intros H. destruct (rg_grpc r !! id) as [[device card]|] eqn:E; [|done].
  destruct (H _ _ eq_refl) as (x & Hx & <- & Hd). unfold intake_detail. rewrite Hx. cbn.
  destruct r as [db ni it na gr nt cl]. cbn in *. unfold set_intake_detail. cbn. f_equal.
  apply insert_id. rewrite Hx. destruct x. cbn in *. by subst.
Qed.

Lemma copy_grpc_frame id r :
  rg_db (copy_grpc_identity id r) = rg_db r ∧ rg_grpc (copy_grpc_identity id r) = rg_grpc r ∧
  rg_intents (copy_grpc_identity id r) = rg_intents r.
Proof. unfold copy_grpc_identity. by destruct (rg_grpc r !! id) as [[]|]. Qed.

Lemma copy_grpc_card id r device card :
  rg_grpc r !! id = Some (device, card) →
  ∃ x, rg_intakes (copy_grpc_identity id r) !! id = Some x ∧ nd_card_id x = card ∧ nd_device_id x = Some device.
Proof. intros H. unfold copy_grpc_identity. rewrite H. cbn. eexists. by rewrite lookup_insert_eq. Qed.

(** Equal columns of the identity keep it. *)
Definition card_of (r : Registry) (id : string) : option (option string * option string) :=
  (λ x, (nd_card_id x, nd_device_id x)) <$> rg_intakes r !! id.

Lemma identified_card id r : (∀ device card, rg_grpc r !! id = Some (device, card) → card_of r id = Some (card, Some device)) → identified id r.
Proof.
  intros H. apply identified_intro. intros device card Hg. specialize (H _ _ Hg). unfold card_of in H.
  apply fmap_Some in H as (x & Hx & [= -> ->]). by exists x.
Qed.

Lemma copy_grpc_identified id r r' :
  rg_grpc r' = rg_grpc r → card_of r' id = card_of (copy_grpc_identity id r) id → identified id r'.
Proof.
  intros Hg Hc. apply identified_card. intros device card H. rewrite Hc. rewrite Hg in H.
  destruct (copy_grpc_card id r device card H) as (x & Hx & <- & <-). unfold card_of. by rewrite Hx.
Qed.


(** ** Registration *)

Local Abbreviation upsert_intake := (upsert_intake json_str user now_upsert).

Lemma optional_text_str s : s ≠ "" → optional_text json_str (JStr s) = Some s.
Proof. intros H. unfold optional_text, str_, text_of. by rewrite decide_False. Qed.

Lemma upsert_spec id m mp st r r' cls :
  cls ≠ "" → upsert_intake id (with_class cls m) mp st r = Ok r' →
  jobs (rg_db r') = jobs (rg_db r) ∧ rg_items r' = rg_items r ∧ rg_assets r' = rg_assets r ∧
  (∃ row, rcat r' = with_intakes (<[id := row]> (intakes (rcat r))) (rcat r) ∧ in_artifactclass row = cls ∧ in_status row = st ∧
     (∀ row0, intake_row r id = Some row0 → in_retention_state row = in_retention_state row0)) ∧
  rg_intents r' = rg_intents r ∧ rg_grpc r' = rg_grpc r ∧
  ∃ r0, rg_grpc r0 = rg_grpc r ∧ r' = copy_grpc_identity id r0.
Proof.
  intros Hne. unfold Intake.upsert_intake. cbn [md_artifactclass with_class]. rewrite optional_text_str by done.
  intros [= <-]. destruct (intake_row r id) as [row|] eqn:E;
    (match goal with |- context [copy_grpc_identity id ?r0] => set (r1 := r0) end;
     destruct (copy_grpc_frame id r1) as (Hdb & Hg & Hn);
     assert (Hit : rg_items (copy_grpc_identity id r1) = rg_items r1 ∧ rg_assets (copy_grpc_identity id r1) = rg_assets r1)
       by (unfold copy_grpc_identity; by destruct (rg_grpc r1 !! id) as [[]|]); destruct Hit as [Hi Ha];
     rewrite Hn, Hg, Hi, Ha; unfold rcat; rewrite Hdb; split; [done|]; split; [done|]; split; [done|];
     split; [eexists; split; [reflexivity|]; split; [done|]; split; [done|]; intros ? [= <-]; done|]; split; [done|]; split; [done|]; by exists r1).
Qed.

Lemma upsert_detail id m mp st r r' cls :
  cls ≠ "" → upsert_intake id (with_class cls m) mp st r = Ok r' → is_Some (rg_intakes r' !! id).
Proof.
  intros Hne. unfold Intake.upsert_intake. cbn [md_artifactclass with_class]. rewrite optional_text_str by done.
  intros [= <-]. unfold copy_grpc_identity, set_intake_detail.
  destruct (intake_row r id); cbn [rg_grpc rg_intakes]; destruct (rg_grpc _ !! id) as [[]|]; cbn [rg_intakes];
    rewrite lookup_insert_eq; by eexists.
Qed.

Lemma register_record_rows id cls root p r r' : register_payload_record id cls root p r = Ok r' → rows_only r r'.
Proof.
  unfold Intake.register_payload_record. destruct (fromhex (fr_sha256_hex (py_receipt p))) as [h|]; [|done].
  intros H. apply bind_Ok in H as ([[r1 a] inserted] & Ha & H).
  assert (Hro : rows_only r r1).
  { destruct (item_at _ _ _) as [[i it]|]; [|by apply record_asset_spec in Ha as (? & _)].
    unfold record_asset in Ha. destruct (assets (rcat r) !! h); [|done]. injection Ha as <- <- <-. apply rows_only_refl. }
  apply bind_Ok in H as ([] & _ & H). eapply rows_only_trans; [exact Hro|].
  eapply rows_only_trans; [apply (fill_media_kind_rows h (as_received_relpath (py_receipt p)))|].
  set (r2 := fill_media_kind h (as_received_relpath (py_receipt p)) r1) in *. clearbody r2.
  destruct (item_at _ _ _) as [[i it]|].
  - destruct (rg_items r2 !! i); injection H as <-; by constructor.
  - apply bind_Ok in H as (c & _ & H). injection H as <-. by constructor.
Qed.

Lemma register_records_rows id cls root l : ∀ r r', register_records id cls root l r = Ok r' → rows_only r r'.
Proof.
  induction l as [|p l IH]; intros r r' H; cbn [Intake.register_records] in H.
  - injection H as <-. apply rows_only_refl.
  - apply bind_Ok in H as (r1 & H1 & H). eapply rows_only_trans; [by eapply register_record_rows|by apply IH].
Qed.

Local Abbreviation admit_intake := (admit_intake json_str isoformat user policy_updated now_upsert now_evaluated now_registered).

(** The row of an intake that was registered, such that registering it again finds nothing to do. *)
Record settled (fs : Fs) (id cls : string) (digest : option string) (payload cache : path) (a : RegisterArgs) (r : Registry) : Prop := {
  st_row : ∃ row, intake_row r id = Some row ∧ in_status row = REGISTERED ∧ in_artifactclass row = cls ∧ in_manifest_digest row = digest;
  st_identified : identified id r;
  st_intent : ∀ r2, intents_of r2 id = intents_of r id → transition_receive_intent id "committed" r2 = Ok r2;
  st_job : ∀ f, enqueue_missing_cloud_job fs f id payload cache a r = Ok (r, 0);
}.

(** The steps of an admission. *)
Lemma admit_steps fs f ctx vp cls cache a r r' out :
  cls ≠ "" → admit_intake fs f ctx vp cls cache a r = Ok (r', out) →
  ∃ r1 r2 row, upsert_intake (vp_intake_id vp) (with_class cls (vp_metadata vp)) (cx_manifest_path ctx) VERIFYING r = Ok r1 ∧
    register_records (vp_intake_id vp) cls (cx_payload_root ctx) (vp_records vp) r1 = Ok r2 ∧
    rcat r' = with_intakes (<[vp_intake_id vp := row]> (intakes (rcat r2))) (rcat r2) ∧ in_status row = REGISTERED ∧
    in_manifest_digest row = vp_manifest_digest vp ∧ in_artifactclass row = cls ∧
    (∀ row0, intake_row r (vp_intake_id vp) = Some row0 → in_retention_state row = in_retention_state row0) ∧
    settled fs (vp_intake_id vp) cls (vp_manifest_digest vp) (cx_payload_root ctx) cache a r' ∧
    ro_intake_id out = vp_intake_id vp ∧ ro_status out = REGISTERED ∧ ro_item_count out = Z.of_nat (length (vp_records vp)) ∧
    ro_manifest_digest out = vp_manifest_digest vp ∧ ro_artifactclass out = cls ∧ ro_path out = cx_root ctx ∧
    (ro_marker out).1 = VERIFIED_MARKER.
Proof.
  intros Hne. unfold Intake.admit_intake. set (id := vp_intake_id vp). intros H.
  apply bind_Ok in H as (r1 & Hup & H). apply bind_Ok in H as (r2 & Hreg & H).
  pose proof (register_records_rows _ _ _ _ _ _ Hreg) as Hro.
  destruct (upsert_spec _ _ _ _ _ _ _ Hne Hup) as (_ & _ & _ & (row & Hcat & Hcls & Hst & Hret) & Hnt & Hg1 & r0 & Hg0 & Hr1).
  assert (Hrow2 : intake_row r2 id = Some row).
  { unfold intake_row. rewrite (ro_cat _ _ Hro), Hcat. cbn. apply lookup_insert_eq. }
  rewrite Hrow2 in H. apply bind_Ok in H as (r3 & Htr & H).
  apply bind_Ok in H as ([r4 n] & Henq & H). injection H as <- <-.
  destruct (transition_spec _ _ _ _ Htr) as (Hdb3 & Hni3 & Hgr3 & _ & _ & Hagain).
  destruct (enqueue_spec _ _ _ _ _ _ _ _ _ Henq) as (Hcat4 & Hr4 & Hjob).
  set (row' := set_registration (vp_manifest_digest vp) REGISTERED row) in *.
  assert (Hc4 : rcat r4 = with_intakes (<[id := row']> (intakes (rcat r2))) (rcat r2)).
  { rewrite Hcat4. unfold rcat at 1. by rewrite Hdb3. }
  exists r1, r2, row'. split; [done|]. split; [done|]. split; [done|].
  split; [done|]. split; [done|]. split; [done|]. split; [done|]. split; [|done].
  constructor.
  - exists row'. split; [|done]. unfold intake_row. rewrite Hc4. cbn. apply lookup_insert_eq.
  - apply (copy_grpc_identified id r0).
    + rewrite Hr4. cbn. rewrite Hgr3. cbn. by rewrite (ro_grpc _ _ Hro), Hg1, Hg0.
    + assert (E4 : rg_intakes r4 = rg_intakes r3) by by rewrite Hr4.
      unfold card_of. rewrite E4, Hni3. unfold mark_registered, set_intake_detail. cbn [rg_intakes].
      rewrite lookup_insert_eq. cbn. unfold intake_detail.
      assert (Ed : rg_intakes (put_intake id row' r2) = rg_intakes (copy_grpc_identity id r0)).
      { cbn. by rewrite (ro_details _ _ Hro), Hr1. }
      rewrite Ed.
      assert (Hx : is_Some (rg_intakes (copy_grpc_identity id r0) !! id)).
      { rewrite <- Hr1. eapply upsert_detail; [exact Hne|exact Hup]. }
      destruct Hx as [x Hx]. by rewrite Hx.
  - intros r5 Hr5. apply Hagain. rewrite Hr5. unfold intents_of. by rewrite Hr4.
  - intros f'. by apply Hjob.
Qed.

Local Abbreviation validate_payload :=
  (validate_payload nfc casefold sha256_hex json_loads json_str compact_dumps receive_package package_profile_hash).
Local Abbreviation read_intake_context := (read_intake_context json_loads json_str).
Local Abbreviation resolve_artifactclass := (resolve_artifactclass json_str).
Local Abbreviation quarantine_intake := (quarantine_intake json_str isoformat user now_upsert now_registered).
Local Abbreviation register_intake :=
  (register_intake nfc casefold sha256_hex json_loads json_str compact_dumps isoformat receive_package package_profile_hash
     user policy_updated now_upsert now_evaluated now_registered).

Lemma resolve_class_nonempty ctx m requested cls : resolve_artifactclass ctx m requested = Ok cls → cls ≠ "".
Proof.
  assert (Hopt : ∀ j s, optional_text json_str j = Some s → s ≠ "").
  { intros j s. unfold optional_text. destruct j; try done; case_decide; intros [= <-]; done. }
  unfold Intake.resolve_artifactclass.
  destruct (if cx_is_bag ctx then optional_text json_str (md_artifactclass m) else None) as [b|] eqn:Eb;
    destruct (match requested with Some s => optional_text json_str (JStr s) | None => None end) as [c|] eqn:Ec.
  - case_decide; [|done]. intros [= <-]. destruct (cx_is_bag ctx); [by eapply Hopt|done].
  - intros [= <-]. destruct (cx_is_bag ctx); [by eapply Hopt|done].
  - intros [= <-]. destruct requested; [by eapply Hopt|done].
  - done.
Qed.

(** What a call of [register_intake] reads before it touches the catalog. *)
Record reading (fs : Fs) (dir : path) (a : RegisterArgs) (ctx : IntakeContext) (vp : ValidatedPayload) (cls : string) (cache : path) : Prop := {
  rd_context : read_intake_context fs dir = Ok ctx;
  rd_payload : validate_payload fs ctx = Ok vp;
  rd_class : resolve_artifactclass ctx (vp_metadata vp) (ra_artifactclass a) = Ok cls;
  rd_cache : cache_root_of fs a ctx = Ok cache;
}.

Lemma register_cases fs f dir a r r' out :
  register_intake fs f dir a r = Ok (r', out) →
  ∃ ctx vp cls cache, reading fs dir a ctx vp cls cache ∧ cls ≠ "" ∧
    ((∃ row, intake_row r (vp_intake_id vp) = Some row ∧ in_status row = REGISTERED ∧
        ∃ r1, handle_registered_intake isoformat now_registered fs f ctx vp row cls cache a r = Ok (r1, out) ∧
          transition_receive_intent (vp_intake_id vp) "committed" (copy_grpc_identity (vp_intake_id vp) r1) = Ok r') ∨
     ((∀ row, intake_row r (vp_intake_id vp) = Some row → in_status row ≠ REGISTERED) ∧
      if vp_valid vp then admit_intake fs f ctx vp cls cache a r = Ok (r', out)
      else quarantine_intake ctx vp cls r = Ok (r', out))).
Proof.
  unfold Intake.register_intake. intros H. apply bind_Ok in H as (ctx & Hctx & H). apply bind_Ok in H as (vp & Hvp & H).
  apply bind_Ok in H as (cls & Hcls & H). apply bind_Ok in H as (cache & Hcache & H).
  exists ctx, vp, cls, cache. split; [by constructor|]. split; [by eapply resolve_class_nonempty|].
  destruct (intake_row r (vp_intake_id vp)) as [row|] eqn:Er.
  - case_decide as Hs.
    + left. exists row. split; [done|]. split; [done|]. apply bind_Ok in H as ([r1 o1] & Hh & H).
      apply bind_Ok in H as (r2 & Ht & H). injection H as <- <-. by exists r1.
    + right. split; [by intros ? [= <-]|]. by destruct (vp_valid vp).
  - right. split; [done|]. by destruct (vp_valid vp).
Qed.

Lemma handle_steps fs f ctx vp row cls cache a r r1 out :
  handle_registered_intake isoformat now_registered fs f ctx vp row cls cache a r = Ok (r1, out) →
  vp_valid vp = true ∧ in_manifest_digest row = vp_manifest_digest vp ∧ in_artifactclass row = cls ∧
  (∃ n, enqueue_missing_cloud_job fs f (vp_intake_id vp) (cx_payload_root ctx) cache a r = Ok (r1, n) ∧ ro_jobs_submitted out = n) ∧
  ro_intake_id out = vp_intake_id vp ∧ ro_status out = REGISTERED ∧ ro_reason out = Some "already-registered" ∧
  ro_item_count out = item_count (rcat r1) (vp_intake_id vp) ∧ ro_manifest_digest out = vp_manifest_digest vp ∧ ro_artifactclass out = cls ∧
  (ro_marker out).1 = VERIFIED_MARKER.
Proof.
  unfold handle_registered_intake. destruct (vp_valid vp); [|done]. cbn [negb]. case_bool_decide as Hf; [|done]. cbn [negb].
  destruct Hf as [Hd Hc]. intros H. apply bind_Ok in H as ([r2 n] & He & H). injection H as <- <-. cbn.
  split_and!; try done. by exists n.
Qed.





(** What a first registration leaves: one item per payload record, or nothing but the quarantined row. *)
Definition admitted (ctx : IntakeContext) (vp : ValidatedPayload) (cls : string) (r r' : Registry) (out : RegisterOutcome) : Prop :=
  ro_status out = REGISTERED ∧ (ro_marker out).1 = VERIFIED_MARKER ∧ ro_item_count out = Z.of_nat (length (vp_records vp)) ∧
  ∃ new, items_of (rcat r') (vp_intake_id vp) ≡ₚ new ∧
    Forall2 (λ p it, record_item (vp_intake_id vp) cls p it.2) (vp_records vp) new ∧
    Forall (λ it, ∃ asset, assets (rcat r') !! ii_logical_asset_hash it.2 = Some asset ∧ la_size_bytes asset = ii_size_bytes it.2) new ∧
    (∀ i it, t_rows (items (rcat r)) !! i = Some it → t_rows (items (rcat r')) !! i = Some it) ∧
    (∀ h asset, assets (rcat r) !! h = Some asset → assets (rcat r') !! h = Some asset).

Definition quarantined (r r' : Registry) (out : RegisterOutcome) : Prop :=
  ro_status out = QUARANTINED ∧ (ro_marker out).1 = QUARANTINED_MARKER ∧ items (rcat r') = items (rcat r) ∧
  assets (rcat r') = assets (rcat r) ∧ jobs (rg_db r') = jobs (rg_db r) ∧ rg_items r' = rg_items r ∧ rg_assets r' = rg_assets r.

Lemma quarantine_steps ctx vp cls r r' out :
  cls ≠ "" → quarantine_intake ctx vp cls r = Ok (r', out) →
  quarantined r r' out ∧ ro_intake_id out = vp_intake_id vp ∧
  ∃ row, intakes (rcat r') = <[vp_intake_id vp := row]> (intakes (rcat r)) ∧ in_status row = QUARANTINED ∧
    in_artifactclass row = cls ∧ in_manifest_digest row = vp_manifest_digest vp.
Proof.
  intros Hne. unfold Intake.quarantine_intake. set (id := vp_intake_id vp). intros H. apply bind_Ok in H as (r1 & Hup & H).
  destruct (upsert_spec _ _ _ _ _ _ _ Hne Hup) as (Hj & Hi & Ha & (row & Hcat & Hcls & Hst & _) & _).
  assert (Hrow : intake_row r1 id = Some row) by (unfold intake_row; rewrite Hcat; cbn; apply lookup_insert_eq).
  rewrite Hrow in H. apply bind_Ok in H as (r2 & Htr & H). injection H as <- <-.
  destruct (transition_spec _ _ _ _ Htr) as (Hdb & _ & _ & Hri & Hra & _).
  set (row' := set_registration (vp_manifest_digest vp) (in_status row) row) in *.
  assert (Hc2 : rcat r2 = with_intakes (<[id := row']> (intakes (rcat r1))) (rcat r1)) by (unfold rcat at 1; by rewrite Hdb).
  split; [|split; [done|]].
  - unfold quarantined. rewrite Hc2, Hcat, Hdb. split_and!; try done; [by rewrite Hri, <- Hi|by rewrite Hra, <- Ha].
  - exists row'. rewrite Hc2, Hcat. cbn. by rewrite insert_insert_eq.
Qed.

(** A first registration admits exactly the validated payload.  When the intake is not registered yet,
    a registration that returns gives a valid payload the registered status, the verified marker and one
    item per payload record with its path, class, digest, size and source path, whose asset has that size,
    next to the items and assets that were there; an invalid payload gets the quarantined status and marker
    and no item, asset or job; the rows of other intakes stay in both cases. *)
Lemma register_intake_sound fs f dir a r r' out :
  tbl_ok (items (rcat r)) → items_of (rcat r) (ro_intake_id out) = [] →
  (∀ row, intake_row r (ro_intake_id out) = Some row → in_status row ≠ REGISTERED) →
  (∀ ctx vp, read_intake_context fs dir = Ok ctx → validate_payload fs ctx = Ok vp →
     NoDup ((as_received_relpath ∘ py_receipt) <$> vp_records vp)) →
  register_intake fs f dir a r = Ok (r', out) →
  ∃ ctx vp cls cache row, reading fs dir a ctx vp cls cache ∧ ro_intake_id out = vp_intake_id vp ∧
    (if vp_valid vp then admitted ctx vp cls r r' out else quarantined r r' out) ∧
    intake_row r' (vp_intake_id vp) = Some row ∧ in_status row = ro_status out ∧ in_artifactclass row = cls ∧
    in_manifest_digest row = vp_manifest_digest vp ∧
    ∀ id, id ≠ vp_intake_id vp → intake_row r' id = intake_row r id ∧ items_of (rcat r') id ≡ₚ items_of (rcat r) id.
Proof.
  intros Hok Hnone Hnot Hnd H. apply register_cases in H as (ctx & vp & cls & cache & Hrd & Hne & H).
  assert (Hid : ro_intake_id out = vp_intake_id vp).
  { destruct H as [(row & _ & _ & r1 & Hh & _)|[_ H]]; [by apply handle_steps in Hh as (_ & _ & _ & _ & ? & _)|].
    destruct (vp_valid vp).
    - apply admit_steps in H as (? & ? & ? & _ & _ & _ & _ & _ & _ & _ & _ & ? & _); done.
    - by apply quarantine_steps in H as (_ & ? & _). }
  rewrite Hid in Hnone, Hnot. destruct H as [(row & Hrow & Hreg & _)|[_ H]]; [by apply Hnot in Hrow|].
  exists ctx, vp, cls, cache. destruct (vp_valid vp) eqn:Ev.
  - apply admit_steps in H as (r1 & r2 & row & Hup & Hrec & Hcat & Hst & Hdg & Hcl & _ & _ & _ & Hos & Hoc & _ & _ & _ & Hm); [|done].
    destruct (upsert_spec _ _ _ _ _ _ _ Hne Hup) as (_ & _ & _ & (row1 & Hcat1 & _) & _).
    assert (Hi1 : items (rcat r1) = items (rcat r)) by by rewrite Hcat1.
    assert (Hio : ∀ id, items_of (rcat r1) id = items_of (rcat r) id) by (intros id; unfold items_of; by rewrite Hi1).
    destruct (register_records_spec (vp_intake_id vp) cls (cx_payload_root ctx) (vp_records vp) r1 r2)
      as (new & H2 & Hro & _ & Hitems & Hother & Hkeep & Hassets).
    { by rewrite Hi1. }
    { by eapply Hnd; destruct Hrd. }
    { intros p _. apply item_at_None. intros i it Hin. rewrite Hio, Hnone in Hin. by apply elem_of_nil in Hin. }
    { done. }
    rewrite Hio, Hnone, app_nil_r in Hitems.
    assert (Hi' : ∀ id, items_of (rcat r') id = items_of (rcat r2) id) by (intros id; unfold items_of; by rewrite Hcat).
    exists row. split_and!; try done.
    + unfold admitted. split_and!; try done. exists new. rewrite Hi'. split; [done|]. split; [done|]. rewrite Hcat. cbn [assets items with_intakes].
      split; [done|]. split; [by rewrite <- Hi1|]. intros h asset Hh. apply (ro_assets _ _ Hro). by rewrite Hcat1.
    + unfold intake_row. rewrite Hcat. cbn. apply lookup_insert_eq.
    + by rewrite Hos.
    + intros id Hid'. split; [|rewrite Hi', Hother by done; by rewrite Hio].
      unfold intake_row. rewrite Hcat. cbn. rewrite lookup_insert_ne by done. rewrite (ro_cat _ _ Hro), Hcat1. cbn.
      by rewrite lookup_insert_ne.
  - apply quarantine_steps in H as (Hq & _ & row & Hrows & Hst & Hcl & Hdg); [|done]. exists row.
    pose proof Hq as (Hos & _ & Hit & _). split_and!; try done.
    + unfold intake_row. rewrite Hrows. apply lookup_insert_eq.
    + by rewrite Hos.
    + intros id Hid'. unfold intake_row, items_of. rewrite Hrows, Hit. by rewrite lookup_insert_ne.
Qed.

(** ** From the source to the catalog *)

Local Abbreviation validate_bag := (validate_bag nfc casefold sha256_hex json_loads json_str receive_package package_profile_hash).
Local Abbreviation bag_on_disk := (bag_on_disk nfc casefold sha256_hex).

Definition file_receipt (f : string * bytes) : FileReceipt := plain_receipt f.1 (sha256_hex f.2) (Z.of_nat (String.length f.2)).

Lemma bag_records fs dir files m manifest v :
  bag_on_disk fs dir files m manifest → validate_bag fs dir = Ok v → bv_actual_records v = file_receipt <$> files.
Proof.
  intros Hbag. unfold Bag.validate_bag, payload_records, indexed_records, hash_payload_tree.
  destruct Hbag as [Hreal Hlen Hdata Hindex _ _ Hpay]. rewrite (is_dir_child fs dir DATA_DIR_NAME Hreal) by done. cbn [negb].
  rewrite Hpay. cbn [mbind result_bind]. rewrite (exists_child_None fs dir PACKAGE_INDEX_NAME Hreal) by done.
  destruct (manifest_of _ _ _) as [mf me]. destruct (metadata_of _ _) as [md ie].
  intros H. apply bind_Ok in H as (mm & _ & H). injection H as <-. reflexivity.
Qed.

Lemma payload_files_length rej l files :
  payload_files nfc casefold rej l = Ok files →
  length files = length (omap (λ e : path * Node, match e with (rel, NFile _) => Some rel | _ => None end) l).
Proof.
  revert files. induction l as [|[rel node] l IH]; intros files H; cbn [payload_files] in H; [by injection H as <-|].
  apply bind_Ok in H as (name & _ & H). cbn [omap list_omap]. destruct node.
  - apply bind_Ok in H as (rest & Hr & H). injection H as <-. cbn. by rewrite (IH rest).
  - destruct (rej && _); [done|]. by apply IH.
  - done.
Qed.

Lemma payload_receipts fs root files rej :
  payload_files nfc casefold rej (rglob fs root) = Ok files →
  py_receipt <$> payload_of fs root (file_receipt <$> files) = file_receipt <$> files.
Proof.
  intros H%payload_files_length. unfold payload_of, payload_sources.
  assert (Hlen : length (file_receipt <$> files) =
    length (omap (λ e : path * Node, match e with (rel, NFile _) => Some (root ++ rel) | _ => None end) (rglob fs root))).
  { rewrite length_fmap, H. clear. induction (rglob fs root) as [|[rel []] l IH]; cbn; [done|by rewrite IH|done..]. }
  revert Hlen. generalize (file_receipt <$> files). intros l. revert l.
  induction (omap (λ e : path * Node, match e with (rel, NFile _) => Some (root ++ rel) | _ => None end) (rglob fs root))
    as [|p ps IH]; intros [|x l] Hlen; [done..|]. cbn. f_equal. apply IH. by injection Hlen.
Qed.

(** The reading of a bag on disk. *)
Lemma bag_context fs dir ctx :
  real_dir fs dir → fs !! (dir ++ [BAGIT_NAME]) = Some (NFile BAGIT_TEXT) → read_intake_context fs dir = Ok ctx →
  cx_root ctx = dir ∧ cx_is_bag ctx = true ∧ cx_payload_root ctx = dir ++ [DATA_DIR_NAME].
Proof.
  intros Hreal Hb Hctx. unfold Intake.read_intake_context in Hctx.
  apply bind_Ok in Hctx as (root & Hroot & Hctx). rewrite (resolve_dir fs true dir Hreal) in Hroot. injection Hroot as <-.
  apply bind_Ok in Hctx as ([] & _ & Hctx). apply bind_Ok in Hctx as (sentinel & _ & Hctx).
  assert (Hbagit : is_bag_intake fs dir = true).
  { unfold is_bag_intake. apply existsb_exists. exists BAGIT_NAME. split; [by left|].
    assert (Hread : read_file fs (dir ++ [BAGIT_NAME]) = Ok BAGIT_TEXT) by (by apply read_file_child).
    unfold read_file in Hread. unfold path_exists. by destruct (stat fs (dir ++ [BAGIT_NAME])). }
  rewrite Hbagit in Hctx. apply bind_Ok in Hctx as ([] & _ & Hctx). by injection Hctx as <-.
Qed.

Lemma bag_validated fs ctx vp :
  cx_is_bag ctx = true → validate_payload fs ctx = Ok vp →
  ∃ v, validate_bag fs (cx_root ctx) = Ok v ∧ vp_valid vp = valid v ∧
    vp_records vp = if valid v then payload_of fs (cx_payload_root ctx) (bv_actual_records v) else [].
Proof.
  intros Hb. unfold Intake.validate_payload. rewrite Hb. intros H. apply bind_Ok in H as (v & Hv & H).
  apply bind_Ok in H as (digest & _ & H). injection H as <-. exists v. split; [|done].
  unfold refused_payload in Hv. destruct (Bag.validate_bag _ _ _ _ _ _ _ _ _); [|done]. by injection Hv as <-.
Qed.

Lemma bag_reading fs dir files m manifest a ctx vp cls cache v :
  bag_on_disk fs dir files m manifest → validate_bag fs dir = Ok v → valid v = true → reading fs dir a ctx vp cls cache →
  vp_valid vp = true ∧ py_receipt <$> vp_records vp = file_receipt <$> files.
Proof.
  intros Hbag Hv Hval [Hctx Hvp _ _]. pose proof (bag_records _ _ _ _ _ _ Hbag Hv) as Hrec.
  destruct Hbag as [Hreal _ _ _ [_ Htags] _ Hpay]. unfold bag_tags in Htags. rewrite !Forall_cons in Htags.
  destruct Htags as (_ & T1 & _).
  destruct (bag_context fs dir ctx Hreal T1 Hctx) as (Hroot & Hb & Hpr).
  destruct (bag_validated fs ctx vp Hb Hvp) as (v' & Hv' & Hval' & Hrecs). rewrite Hroot in Hv'.
  assert (v' = v) as -> by congruence. split; [congruence|]. rewrite Hrecs, Hval, Hrec, Hpr. by eapply payload_receipts.
Qed.

Context (log_text : list string → bytes) (source_read : nat → path → StatSnapshot * bytes * StatSnapshot).
Context (package_tar : Fs → path → string → result ReceiveFault (bytes * list json)).
Context (Hstat : stat_consistent source_read).
Context (Hsha : ∀ c, hex_digest (sha256_hex c) = true ∧ lower (sha256_hex c) = sha256_hex c).
Context (Hrp : printable receive_package = true) (Hph : printable package_profile_hash = true).

Local Abbreviation receive_source :=
  (receive_source nfc casefold sha256_hex json_loads json_str dumps log_text isoformat source_read package_tar
     receive_package package_profile_hash).

Lemma Forall2_lookup_file {A} (P : PayloadRecord → A → Prop) records new files f :
  Forall2 P records new → py_receipt <$> records = file_receipt <$> files → f ∈ files →
  ∃ p x, P p x ∧ x ∈ new ∧ py_receipt p = file_receipt f.
Proof.
  intros H2 Hr Hf. apply (list_elem_of_fmap_2 file_receipt) in Hf. rewrite <- Hr in Hf.
  apply list_elem_of_fmap in Hf as (p & Hp & Hin). apply list_elem_of_lookup_1 in Hin as [i Hi].
  destruct (Forall2_lookup_l _ _ _ _ _ H2 Hi) as (x & Hx & HP). exists p, x. split; [done|]. split; [|done].
  by apply list_elem_of_lookup_2 in Hx.
Qed.

(** C6: What was received is what is registered.  Registering the directory that a fresh receive of a plain
    source left, when it returns, never quarantines: the intake is registered with exactly one item per
    regular file of the source, under the path of the file, with the digest and size of bytes that a read
    of the file returned between two equal stats, and an asset row of that digest and size. *)
Theorem received_source_registered q line source s s' sn receipts f a r r' out :
  plain_request nfc casefold (rx_fs s) q source → receive_source q line s = (s', Ok (sn, receipts)) →
  tbl_ok (items (rcat r)) → items_of (rcat r) (ro_intake_id out) = [] →
  (∀ row, intake_row r (ro_intake_id out) = Some row → in_status row ≠ REGISTERED) →
  register_intake (rx_fs s') f (sn_dir sn) a r = Ok (r', out) →
  ro_status out = REGISTERED ∧ (ro_marker out).1 = VERIFIED_MARKER ∧
  ∃ copies, copied_from source_read (rx_fs s) source copies ∧
    length (items_of (rcat r') (ro_intake_id out)) = length copies ∧
    ∀ rel c, (rel, c) ∈ copies → ∃ i it asset, (i, it) ∈ items_of (rcat r') (ro_intake_id out) ∧
      ii_as_received_path it = join "/" rel ∧ fromhex (sha256_hex c) = Some (ii_logical_asset_hash it) ∧
      ii_size_bytes it = Z.of_nat (String.length c) ∧
      assets (rcat r') !! ii_logical_asset_hash it = Some asset ∧ la_size_bytes asset = ii_size_bytes it.
Proof.
  intros Hq Hrecv Hok Hnone Hnot Hreg.
  destruct (receive_source_bag nfc casefold sha256_hex json_loads json_str dumps log_text isoformat source_read package_tar
    receive_package package_profile_hash Hstat Hsha Hrp Hph q line source s s' sn receipts Hq Hrecv)
    as (copies & files & b & manifest & Hcopied & Hperm & Hbag & Hpok & Htext).
  destruct (bag_on_disk_valid nfc casefold sha256_hex json_loads json_str receive_package package_profile_hash Hsha Hrp Hph
    (rx_fs s') (sn_dir sn) files b manifest Hbag Hpok Htext) as (v & Hv & Hval).
  assert (Hread : ∀ ctx vp cls cache, reading (rx_fs s') (sn_dir sn) a ctx vp cls cache →
    vp_valid vp = true ∧ py_receipt <$> vp_records vp = file_receipt <$> files)
    by (intros ctx vp cls cache Hrd; eapply bag_reading; done).
  destruct (register_intake_sound (rx_fs s') f (sn_dir sn) a r r' out Hok Hnone Hnot) as
    (ctx & vp & cls & cache & row & Hrd & Hid & Hadm & _); [|done|].
  { intros ctx vp Hctx Hvp. apply register_cases in Hreg as (ctx' & vp' & cls & cache & [Hc Hp Hcl Hca] & _).
    assert (ctx' = ctx) as -> by congruence. assert (vp' = vp) as -> by congruence.
    destruct (Hread ctx vp cls cache) as [_ Hr]; [done|]. rewrite list_fmap_compose, Hr, <- list_fmap_compose.
    change (NoDup (fst <$> files)). apply Hpok. }
  destruct (Hread _ _ _ _ Hrd) as [Hvalid Hr]. rewrite Hvalid in Hadm.
  destruct Hadm as (Hst & Hm & _ & new & Hitems & H2 & Hassets & _). split; [done|]. split; [done|].
  exists copies. split; [done|]. rewrite Hid. split.
  - rewrite Hitems, <- (Forall2_length _ _ _ H2), <- (length_fmap py_receipt), Hr, length_fmap, Hperm. by rewrite length_fmap.
  - intros rel c Hin. apply (list_elem_of_fmap_2 copied_file) in Hin. rewrite <- Hperm in Hin.
    destruct (Forall2_lookup_file _ _ _ _ _ H2 Hr Hin) as (p & [i it] & (H1 & H3 & _ & H5 & H6 & _) & Hnew & Hp).
    rewrite Hp in H3, H5, H6. rewrite Forall_forall in Hassets. destruct (Hassets _ Hnew) as (asset & Ha1 & Ha2).
    exists i, it, asset. rewrite Hitems. done.
Qed.

End intake.
