(* ===== verification/SubmissionFacts.v ===== *)
(** * Correctness of the convergence of submissions

    After a successful call every member of the submission is linked to a bundle member with its
    content, and repeating the call changes nothing. *)

From S2P Require Import Prelude Json JobModels Catalog Scrub BundleGroup Accumulator ArchivePredicate.
From S2P Require Import FanoutMap EngineFacts DurabilityFacts AccumulatorFacts BundleLife Profiles RetentionFs Submission.

(** ** Links *)

Lemma links_render l d :
  submission_links (dset SUBMISSION_LINKS_KEY (JList (render_link <$> l)) d) = l.
Proof.
  unfold submission_links. rewrite dget_dset_eq. induction l as [|[s n] l IH]; [done|]. cbn. by rewrite IH.
Qed.

Lemma link_metadata_links sid mid : submission_links (submission_link_metadata sid mid) = [(sid, mid)].
Proof. apply (links_render [(sid, mid)] []). Qed.

Lemma merge_links m sid mid m' ch :
  merge_member_source_metadata m (Some (submission_link_metadata sid mid)) = (m', ch) →
  ∀ l, l ∈ member_links m' ↔ l ∈ member_links m ∨ l = (sid, mid).
Proof.
  unfold merge_member_source_metadata. cbn [submission_link_metadata foldl merge_entry fst snd].
  rewrite decide_True by done.
  change [(SUBMISSION_LINKS_KEY, JList [render_link (sid, mid)])] with (submission_link_metadata sid mid).
  rewrite link_metadata_links, filter_cons. fold (member_links m). cbn [filter list_filter].
  case_decide as Hd; intros [= <- <-] l; unfold member_links; cbn.
  - rewrite links_render. set_solver.
  - unfold member_links in Hd. set_solver.
Qed.

(** ** What transactions keep of a submission *)

Definition links_sound (sid : string) (k : Cat) : Prop := ∀ i m mid,
  t_rows (members k) !! i = Some m → (sid, mid) ∈ member_links m →
  ∃ r, t_rows (submission_members k) !! mid = Some r ∧ sm_submission_id r = sid ∧
    sm_sha256 r = bm_logical_asset_hash m.

Record grows (sid : string) (k k' : Cat) : Prop := {
  gr_rows : ∀ i r, sm_submission_id r = sid →
    t_rows (submission_members k') !! i = Some r ↔ t_rows (submission_members k) !! i = Some r;
  gr_submission : submissions k' !! sid = submissions k !! sid;
  gr_links : ∀ i m, t_rows (members k) !! i = Some m →
    ∃ m', t_rows (members k') !! i = Some m' ∧ bm_logical_asset_hash m' = bm_logical_asset_hash m ∧
      member_links m ⊆ member_links m';
  gr_sound : links_sound sid k → links_sound sid k';
}.

#[export] Instance grows_preorder sid : PreOrder (grows sid).
Proof.
  split.
  - intros k. constructor; [done..| |done]. intros i m Hm. by exists m.
  - intros k1 k2 k3 H12 H23. constructor.
    + intros i r Hr. by rewrite (gr_rows _ _ _ H23), (gr_rows _ _ _ H12).
    + by rewrite (gr_submission _ _ _ H23), (gr_submission _ _ _ H12).
    + intros i m Hm. destruct (gr_links _ _ _ H12 _ _ Hm) as (m2 & Hm2 & E2 & L2).
      destruct (gr_links _ _ _ H23 _ _ Hm2) as (m3 & Hm3 & E3 & L3). exists m3. split_and!; [done|congruence|set_solver].
    + intros Hs. by apply H23, H12.
Qed.

Lemma grows_bundles sid k bs : grows sid k (with_bundles bs k).
Proof. constructor; [done..| |done]. intros i m Hm. by exists m. Qed.

(** A race keeps the bundle invariant and the links. *)
Definition keeps_links (sid : string) (race : Cat → Cat) : Prop :=
  race_ok race ∧ ∀ k, bundles_ok k → grows sid k (race k).

Section facts.
Context (sha256 : bytes → bytes) (sha256_hex : string → string) (cwd : path).
Context (escape_name : SourcePath → string) (escape_text : string → string).
Context (sid : string).

(** ** One append *)

Section append.
Context (q : MemberRequest) (mid : Z) (row : SubmissionMember).
Hypothesis q_link : mr_source_metadata q = Some (submission_link_metadata sid mid).
Hypothesis q_row : sm_submission_id row = sid ∧ sm_sha256 row = mr_logical_asset_hash q.

Lemma existing_links k i m m' ch :
  t_rows (submission_members k) !! mid = Some row → t_rows (members k) !! i = Some m → own_row q m = true →
  merge_member_source_metadata m (mr_source_metadata q) = (m', ch) →
  grows sid k (if ch : bool then with_members (tbl_put i m' (members k)) k else k) ∧ (sid, mid) ∈ member_links m'.
Proof.
  intros Hrow Hm Hown Hmerge. rewrite q_link in Hmerge.
  pose proof (merge_links _ _ _ _ _ Hmerge) as Hlinks.
  apply merge_metadata_frame in Hmerge as (_ & _ & _ & _ & Fh & _ & Fc).
  split; [|apply Hlinks; by right]. destruct ch; [|done].
  constructor; [done|done| |].
  - intros j x Hx. cbn. destruct (decide (j = i)) as [->|]; [|exists x; by rewrite lookup_insert_ne].
    simplify_eq. exists m'. rewrite lookup_insert_eq. split_and!; [done..|]. intros l Hl. apply Hlinks. by left.
  - intros Hs j x n. cbn. rewrite lookup_insert_Some. intros [[<- <-]|[_ Hx]] Hin; [|by eapply Hs].
    apply Hlinks in Hin as [Hin|[= ->]]; [rewrite Fh; by eapply Hs|]. exists row. destruct q_row as [? ->].
    split_and!; [done..|]. rewrite Fh. unfold own_row in Hown. by split_bools.
Qed.

Lemma created_links k id path :
  bundles_ok k → t_rows (submission_members k) !! mid = Some row →
  grows sid k (bump_bundle id (mr_size_bytes q) 1 (with_members (tbl_insert (member_row id path q) (members k)).1 k)) ∧
  (sid, mid) ∈ member_links (member_row id path q).
Proof.
  intros Hok Hrow. pose proof (tbl_fresh _ (bo_ids _ Hok)) as Hfresh.
  assert (Hl : member_links (member_row id path q) = [(sid, mid)])
    by (unfold member_links; cbn; rewrite q_link; apply link_metadata_links).
  split; [|rewrite Hl; left]. constructor; [done|done| |].
  - intros i m Hm. exists m. cbn. rewrite lookup_insert_ne by congruence. done.
  - intros Hs i m n. cbn. rewrite lookup_insert_Some. intros [[<- <-]|[_ Hx]] Hin; [|by eapply Hs].
    rewrite Hl in Hin. apply list_elem_of_singleton in Hin as [= ->]. exists row. naive_solver.
Qed.

Lemma append_attempts_links n race i k id k' ap :
  (∀ i, keeps_links sid (race i)) → bundles_ok k → t_rows (submission_members k) !! mid = Some row →
  append_attempts sha256_hex n race i k id q = Ok (k', ap) →
  grows sid k k' ∧ (sid, mid) ∈ member_links (ap_member ap).
Proof.
  intros Hrace. revert i k. induction n as [|n IH]; intros i k Hok Hrow H; [done|].
  cbn [append_attempts] in H. apply bind_Ok in H as ([[path existing] occ] & Hres & H).
  destruct existing as [[j m]|].
  { destruct (merge_member_source_metadata m _) as [m' ch] eqn:Em. injection H as <- <-.
    apply walk_ladder_spec in Hres as (pre & post & _ & _ & Hat & Hown). apply member_at_Some in Hat as (Hm & _).
    by eapply existing_links. }
  destruct (Hrace i) as [Hr1 Hr2]. destruct (Hr1 k Hok) as (Hok1 & _). specialize (Hr2 k Hok).
  assert (Hrow1 : t_rows (submission_members (race i k)) !! mid = Some row) by (apply Hr2; naive_solver).
  destruct (member_at (race i k) id path).
  - destruct (IH _ _ Hok1 Hrow1 H) as [Hg Hl]. split; [by etrans|done].
  - destruct (tbl_insert _ _) as [t j] eqn:Et. injection Et as <- <-. injection H as <- <-.
    destruct (created_links (race i k) id path Hok1 Hrow1) as [Hg Hl]. split; [by etrans|done].
Qed.
End append.

Lemma opened_grows k race cls policy bid fresh now k' id c :
  keeps_links sid race → bundles_ok k →
  get_or_create_open_bundle sha256_hex k race cls policy bid fresh now = Ok (k', id, c) → grows sid k k'.
Proof.
  intros [_ Hr] Hok H. specialize (Hr k Hok). unfold get_or_create_open_bundle in H.
  destruct (compute_bundle_group _ _ _) as [g basis]. destruct (find_open_accumulator k g) as [[i b]|].
  { apply bind_Ok in H as (_ & _ & [= <- _ _]). done. }
  apply bind_Ok in H as ([t a] & _ & H). apply bind_Ok in H as (b & _ & H).
  destruct (bundle_conflict _ _ _); [|injection H as <- _ _; etrans; [exact Hr|apply grows_bundles]].
  destruct (find_open_accumulator (race k) g) as [[i b']|]; [|done]. by injection H as <- _ _.
Qed.

Lemma minted_grows k race g basis t a bid fresh now k' id :
  keeps_links sid race → bundles_ok k →
  mint_funnel k race g basis t a bid fresh now = Ok (k', id) → grows sid k k'.
Proof.
  intros [_ Hr] Hok H. specialize (Hr k Hok). unfold mint_funnel in H. apply bind_Ok in H as (b & _ & H).
  destruct (bundle_conflict _ _ _); [|injection H as <- _; etrans; [exact Hr|apply grows_bundles]].
  destruct (bundles (race k) !! _); [|done]. case_bool; [|done]. by injection H as <- _.
Qed.

Lemma enqueue_links k e policy s mid row k' id ap :
  keeps_links sid (ae_mint_race e) → (∀ i, keeps_links sid (ae_race e i)) → bundles_ok k →
  t_rows (submission_members k) !! mid = Some row → sm_submission_id row = sid →
  enqueue_artifact sha256_hex escape_name escape_text k (ae_mint_race e) (ae_race e) policy
    (enqueue_request s sid (mid, row)) (ae_fresh e) (ae_now e) = Ok (k', id, ap) →
  bundles_ok k' ∧ frozen k k' ∧ grows sid k k' ∧
  ∃ i m, t_rows (members k') !! i = Some m ∧ (sid, mid) ∈ member_links m ∧ bm_logical_asset_hash m = sm_sha256 row.
Proof.
  intros Hmint Hrace Hok Hrow Hid H.
  pose proof (λ i, proj1 (Hrace i)) as Hrace'.
  destruct (enqueue_artifact_ok _ _ _ _ _ _ _ _ _ _ _ _ _ (proj1 Hmint) Hrace' Hok H) as [Hok' Hf'].
  split; [done|]. split; [done|].
  unfold enqueue_artifact in H. set (q := append_request _ _ _) in H.
  apply bind_Ok in H as ([] & _ & H). destruct (compute_bundle_group _ _ _) as [g basis].
  apply bind_Ok in H as ([t a] & _ & H). apply bind_Ok in H as ([k1 id1] & Hopen & H).
  apply bind_Ok in H as ([k2 ap2] & Happ & [= <- <- <-]).
  assert (Hk1 : bundles_ok k1 ∧ grows sid k k1).
  { case_bool.
    - destruct (find_funnel _ _ _); [by injection Hopen as <- <-|]. split.
      + apply mint_funnel_ok in Hopen as (? & ? & _); [done|apply Hmint|done].
      + by eapply minted_grows.
    - apply bind_Ok in Hopen as ([[k3 id3] c] & Hg & [= <- <-]). split.
      + apply get_or_create_ok in Hg as (? & ? & _); [done|apply Hmint|done].
      + by eapply opened_grows. }
  destruct Hk1 as [Hok1 Hg1]. pose proof Happ as Hap.
  apply add_bundle_member_ok in Hap as [_ _ _ _ Hm _ Hown _]; [|done..].
  unfold add_bundle_member in Happ. destruct (bundles k1 !! id1); [|done].
  apply bind_Ok in Happ as ([] & _ & Happ). apply bind_Ok in Happ as ([] & _ & Happ).
  apply (append_attempts_links q mid row) in Happ as [Hg Hl]; [|done..|by apply (gr_rows _ _ _ Hg1)].
  split; [by etrans|]. exists (ap_member_id ap2), (ap_member ap2). split_and!; [done..|].
  unfold own_row in Hown. by split_bools.
Qed.

(** ** All members *)

Definition has_link (k : Cat) (mid : Z) : Prop :=
  ∃ i m, t_rows (members k) !! i = Some m ∧ (sid, mid) ∈ member_links m.

Lemma has_link_grows k k' mid : grows sid k k' → has_link k mid → has_link k' mid.
Proof.
  intros Hg (i & m & Hm & Hl). destruct (gr_links _ _ _ Hg _ _ Hm) as (m' & Hm' & _ & Hsub).
  exists i, m'. split; [done|]. by apply Hsub.
Qed.

Lemma append_members_links env policy s already rows k k' :
  (∀ i, keeps_links sid (ae_mint_race (env i))) → (∀ i j, keeps_links sid (ae_race (env i) j)) → bundles_ok k →
  Forall (λ r, t_rows (submission_members k) !! r.1 = Some r.2 ∧ sm_submission_id r.2 = sid) rows →
  append_members sha256_hex escape_name escape_text k env policy s sid already rows = Ok k' →
  bundles_ok k' ∧ frozen k k' ∧ grows sid k k' ∧
  Forall (λ r, is_Some (already !! r.1) ∨ has_link k' r.1) rows.
Proof.
  intros Hmint Hrace. revert k. induction rows as [|[mid row] rows IH]; intros k Hok Hrows H; cbn in H.
  { injection H as <-. done. }
  apply Forall_cons in Hrows as [[Hrow Hid] Hrows]. cbn in Hrow, Hid. case_decide as Hd.
  { destruct (IH _ Hok Hrows H) as (? & ? & ? & ?). split_and!; try done. constructor; [by left|done]. }
  apply bind_Ok in H as ([[k1 id] ap] & Hen & H). unfold lift_bundle in Hen.
  destruct (enqueue_artifact _ _ _ _ _ _ _ _ _ _) as [[[k2 id2] ap2]|] eqn:E; [|done]. injection Hen as -> -> ->.
  eapply enqueue_links in E as (Hok1 & Hf1 & Hg1 & i & m & Hm & Hl & _); [|done..].
  destruct (IH k1 Hok1) as (Hok' & Hf' & Hg' & Hall); [|done|].
  { eapply Forall_impl; [exact Hrows|]. intros r [Hr Hr']. split; [by apply (gr_rows _ _ _ Hg1)|done]. }
  split_and!; [done|by etrans|by etrans|]. constructor; [|done]. right. eapply has_link_grows; [exact Hg'|].
  by exists i, m.
Qed.

(** ** The index of linked members *)

Lemma elem_of_submission_rows k i r :
  (i, r) ∈ submission_rows k sid ↔ t_rows (submission_members k) !! i = Some r ∧ sm_submission_id r = sid.
Proof. unfold submission_rows. rewrite elem_of_sort_by, elem_of_filter_tbl. naive_solver. Qed.

Lemma add_links_lookup (im : Z * BundleMember) (ls : list (string * Z)) (found : gmap Z (Z * BundleMember)) mid e :
  foldl (λ found l, if decide (l.1 = sid) then <[l.2 := im]> found else found) found ls !! mid = Some e ↔
  if decide ((sid, mid) ∈ ls) then e = im else found !! mid = Some e.
Proof.
  revert found. induction ls as [|[s n] ls IH]; intros found; cbn [foldl].
  { by rewrite decide_False by apply not_elem_of_nil. }
  rewrite IH. cbn [fst snd]. repeat case_decide; try done; try set_solver.
  - assert (n = mid) as -> by set_solver. subst s. rewrite lookup_insert_eq. naive_solver.
  - rewrite lookup_insert_ne; [done|]. set_solver.
Qed.

Lemma links_index ims found mid e :
  foldl (add_links sid) found ims !! mid = Some e →
  found !! mid = Some e ∨ e ∈ ims ∧ (sid, mid) ∈ member_links e.2.
Proof.
  revert found. induction ims as [|im ims IH]; intros found H; cbn in H; [by left|].
  apply IH in H as [H|[H1 H2]]; [|right; set_solver]. unfold add_links in H. apply add_links_lookup in H.
  case_decide; [subst e; right; set_solver|by left].
Qed.

Lemma links_indexed ims found mid :
  is_Some (found !! mid) ∨ Exists (λ im, (sid, mid) ∈ member_links im.2) ims →
  is_Some (foldl (add_links sid) found ims !! mid).
Proof.
  revert found. induction ims as [|im ims IH]; intros found H; cbn.
  { destruct H as [H|H]; [done|by apply Exists_nil in H]. }
  apply IH. rewrite Exists_cons in H. unfold add_links.
  destruct (decide ((sid, mid) ∈ member_links im.2)) as [Hin|Hout].
  - left. exists im. apply add_links_lookup. by rewrite decide_True.
  - destruct H as [[e He]|[H|H]]; [left; exists e; apply add_links_lookup; by rewrite decide_False|done|by right].
Qed.

Lemma indexed_row k mid i m :
  links_sound sid k → submission_bundle_members k sid !! mid = Some (i, m) →
  t_rows (members k) !! i = Some m ∧
  ∃ r, (mid, r) ∈ submission_rows k sid ∧ bm_logical_asset_hash m = sm_sha256 r.
Proof.
  intros Hs H. apply links_index in H as [H|[Hin Hl]]; [by rewrite lookup_empty in H|].
  apply list_elem_of_filter in Hin as [_ Hin%elem_of_tbl_list]. split; [done|].
  destruct (Hs _ _ _ Hin Hl) as (r & Hr & Hid & Hh). exists r. by rewrite elem_of_submission_rows.
Qed.

Lemma has_link_indexed k mid :
  links_sound sid k → has_link k mid → is_Some (submission_bundle_members k sid !! mid).
Proof.
  intros Hs (i & m & Hm & Hl). apply links_indexed. right. apply Exists_exists. exists (i, m). split; [|done].
  apply list_elem_of_filter. split; [|by apply elem_of_tbl_list]. cbn [snd].
  destruct (Hs _ _ _ Hm Hl) as (r & Hr & Hid & <-). apply list_elem_of_fmap. exists (mid, r).
  split; [done|]. by apply elem_of_submission_rows.
Qed.

Lemma indexed_link k mid i m : submission_bundle_members k sid !! mid = Some (i, m) → has_link k mid.
Proof.
  intros H. apply links_index in H as [H|[Hin Hl]]; [by rewrite lookup_empty in H|].
  apply list_elem_of_filter in Hin as [_ Hin%elem_of_tbl_list]. by exists i, m.
Qed.

Lemma NoDup_submission_rows k : NoDup (submission_rows k sid).*1.
Proof. unfold submission_rows. rewrite sort_by_perm. apply NoDup_filter_tbl. Qed.

(** The length test of the code: all members are linked. *)
Lemma all_indexed k :
  links_sound sid k →
  size (submission_bundle_members k sid) = length (submission_rows k sid) ↔
  ∀ mid r, (mid, r) ∈ submission_rows k sid → is_Some (submission_bundle_members k sid !! mid).
Proof.
  intros Hs. set (t := submission_bundle_members k sid). set (ids := list_to_set (submission_rows k sid).*1 : gset Z).
  assert (Hsub : dom t ⊆ ids).
  { intros mid [[i m] H]%elem_of_dom. destruct (indexed_row _ _ _ _ Hs H) as (_ & r & Hr & _).
    apply elem_of_list_to_set, list_elem_of_fmap. by exists (mid, r). }
  assert (Hsize : length (submission_rows k sid) = size ids)
    by (unfold ids; rewrite size_list_to_set, length_fmap by apply NoDup_submission_rows; done).
  rewrite Hsize, <- size_dom. split.
  - intros Heq mid r Hr. apply elem_of_dom. assert (Hall : ids ⊆ dom t).
    { assert (Hd : ids ≡ dom t ∪ (ids ∖ dom t)) by (apply union_difference; done).
      assert (Hz : size (ids ∖ dom t) = 0%nat) by (rewrite size_difference by done; lia).
      apply size_empty_iff in Hz. set_solver. }
    apply Hall, elem_of_list_to_set, list_elem_of_fmap. by exists (mid, r).
  - intros Hall. f_equal. apply leibniz_equiv. apply (anti_symm (⊆)); [done|].
    intros mid Hm%elem_of_list_to_set. apply list_elem_of_fmap in Hm as ([i r] & -> & Hr).
    apply elem_of_dom. by eapply Hall.
Qed.

(** ** Convergence *)

(** The refresh writes only the submission's own row, and only when the derived status differs. *)
Lemma refresh_spec k s now k' s' :
  refresh_submission_status k sid s now = (k', s') → submissions k !! sid = Some s →
  (∃ subs, k' = with_submissions subs k) ∧ submissions k' !! sid = Some s' ∧
  bool_decide (su_status s' = ARCHIVED) = submission_is_archived k sid ∧
  ∀ now', refresh_submission_status k' sid s' now' = (k', s').
Proof.
  unfold refresh_submission_status at 1. intros H Hs.
  assert (Hk : ∀ subs, submission_is_archived (with_submissions subs k) sid = submission_is_archived k sid) by done.
  destruct (submission_is_archived k sid) eqn:Ea; case_decide as Hd; injection H as <- <-; cbn;
    (split; [first [by exists (submissions k); destruct k|by eexists]|]).
  - split; [done|]. split; [by apply bool_decide_eq_true|]. intros now'. unfold refresh_submission_status.
    by rewrite Ea, decide_True.
  - rewrite lookup_insert_eq. split; [done|]. split; [done|]. intros now'. unfold refresh_submission_status.
    by rewrite Hk, decide_True.
  - split; [done|]. split; [apply bool_decide_eq_false; congruence|]. intros now'. unfold refresh_submission_status.
    by rewrite Ea, decide_True.
  - rewrite lookup_insert_eq. split; [done|]. split; [done|]. intros now'. unfold refresh_submission_status.
    by rewrite Hk, decide_True.
Qed.

Definition again (r : ArchiveSubmissionResult) : ArchiveSubmissionResult := {|
  asr_submission_id := asr_submission_id r; asr_bundle_ids := asr_bundle_ids r;
  asr_copies_by_bundle := asr_copies_by_bundle r; asr_archived := asr_archived r; asr_noop := true |}.

Local Abbreviation converge := (archive_submission sha256 sha256_hex cwd escape_name escape_text).

(** Once every member is linked, the call refreshes the status and reports, and a repetition neither
    reads a file nor writes a row. *)
Lemma finish_submission k s now k' s' noop :
  links_sound sid k → submissions k !! sid = Some s → submission_rows k sid ≠ [] →
  (∀ mid r, (mid, r) ∈ submission_rows k sid → has_link k mid) →
  refresh_submission_status k sid s now = (k', s') →
  links_sound sid k' ∧ bundles k' = bundles k ∧ members k' = members k ∧
  (∀ mid row, (mid, row) ∈ submission_rows k sid →
     ∃ i m, submission_bundle_members k' sid !! mid = Some (i, m) ∧ t_rows (members k') !! i = Some m ∧
       bm_logical_asset_hash m = sm_sha256 row) ∧
  asr_archived (submission_result k' sid s' noop) = submission_is_archived k' sid ∧
  ∀ fs env now', converge k' fs env sid now' = Ok (k', again (submission_result k' sid s' noop)).
Proof.
  intros Hs Hsub Hne Hall Href. apply refresh_spec in Href as ([subs ->] & Hsub' & Harch & Hagain); [|done].
  split; [exact Hs|]. split; [done|]. split; [done|].
  assert (Hidx : ∀ mid r, (mid, r) ∈ submission_rows k sid → is_Some (submission_bundle_members k sid !! mid))
    by (intros mid r Hr; by eapply has_link_indexed, Hall).
  split_and!.
  - intros mid row Hr. destruct (Hidx _ _ Hr) as [[i m] Him]. exists i, m. split; [exact Him|].
    destruct (indexed_row _ _ _ _ Hs Him) as (Hm & r & Hr' & Hh). split; [exact Hm|].
    apply elem_of_submission_rows in Hr as [Hr _]. apply elem_of_submission_rows in Hr' as [Hr' _].
    rewrite Hr in Hr'. by injection Hr' as <-.
  - exact Harch.
  - intros fs env now'. unfold archive_submission. rewrite Hsub'.
    change (submission_rows (with_submissions subs k) sid) with (submission_rows k sid).
    change (submission_bundle_members (with_submissions subs k) sid) with (submission_bundle_members k sid).
    rewrite (bool_decide_false (length _ = 0%nat)) by (by intros ?%nil_length_inv). cbn [raise_if mbind result_bind].
    rewrite bool_decide_true by (by apply all_indexed). by rewrite Hagain.
Qed.

(** C8: a submission converges.  When [archive_submission] succeeds, whatever other transactions did to
    the accumulator meanwhile and however many members an earlier, interrupted call had appended, every
    member of the submission is linked to one bundle member with its content; the bundle tables stay
    sound and sealed bundles are untouched; the status reported is the archive predicate; and calling
    again, even with the source files gone, is a no-op with the same answer. *)
Theorem submission_converges k fs env now k' r :
  bundles_ok k → links_sound sid k →
  (∀ i, keeps_links sid (ae_mint_race (env i))) → (∀ i j, keeps_links sid (ae_race (env i) j)) →
  converge k fs env sid now = Ok (k', r) →
  bundles_ok k' ∧ frozen k k' ∧ links_sound sid k' ∧
  (∀ mid row, (mid, row) ∈ submission_rows k sid →
     ∃ i m, submission_bundle_members k' sid !! mid = Some (i, m) ∧ t_rows (members k') !! i = Some m ∧
       bm_logical_asset_hash m = sm_sha256 row) ∧
  asr_archived r = submission_is_archived k' sid ∧
  ∀ fs' env' now', converge k' fs' env' sid now' = Ok (k', again r).
Proof.
  intros Hok Hs Hmint Hrace H. unfold archive_submission in H.
  destruct (submissions k !! sid) as [s|] eqn:Hsub; [|done].
  apply bind_Ok in H as ([] & Hne%raise_if_Ok & H). apply bool_decide_eq_false in Hne.
  assert (Hrows : ∀ k, submission_rows k sid ≠ [] ↔ length (submission_rows k sid) ≠ 0%nat)
    by (intros k0; destruct (submission_rows k0 sid); cbn; split; done || lia).
  case_bool_decide as Hsize.
  - destruct (refresh_submission_status k sid s now) as [k1 s1] eqn:Href. injection H as <- <-.
    assert (Hall : ∀ mid r, (mid, r) ∈ submission_rows k sid → has_link k mid).
    { intros mid r Hr. destruct (proj1 (all_indexed k Hs) Hsize mid r Hr) as [[i m] Him]. by eapply indexed_link. }
    apply Hrows in Hne.
    destruct (finish_submission k s now k1 s1 true Hs Hsub Hne Hall Href) as (? & Hb & Hm & ? & ? & ?).
    split_and!; [by eapply bundles_ok_ext|by apply frozen_ext|done..].
  - apply bind_Ok in H as ([] & _ & H). apply bind_Ok in H as (root & _ & H).
    apply bind_Ok in H as ([] & _ & H). apply bind_Ok in H as (policy & _ & H).
    apply bind_Ok in H as (k1 & Happ & H).
    destruct (refresh_submission_status k1 sid s now) as [k2 s2] eqn:Href. injection H as <- <-.
    apply append_members_links in Happ as (Hok1 & Hf1 & Hg1 & Hall); [|done..|].
    2: { apply Forall_forall. intros [i r0] Hin. by apply elem_of_submission_rows in Hin. }
    assert (Hsame : ∀ mid r, (mid, r) ∈ submission_rows k1 sid ↔ (mid, r) ∈ submission_rows k sid).
    { intros mid r. rewrite !elem_of_submission_rows. split; intros [? ?]; (split; [|done]); by apply (gr_rows _ _ _ Hg1). }
    assert (Hlinks : ∀ mid r, (mid, r) ∈ submission_rows k1 sid → has_link k1 mid).
    { intros mid r Hr%Hsame. rewrite Forall_forall in Hall. destruct (Hall _ Hr) as [[[i m] Him]|]; [|done].
      eapply has_link_grows; [exact Hg1|]. by eapply indexed_link. }
    destruct (finish_submission k1 s now k2 s2 false) as (? & Hb & Hm & Hfound & ? & ?); try done.
    + by apply Hg1.
    + by rewrite (gr_submission _ _ _ Hg1).
    + apply Hrows in Hne. destruct (submission_rows k sid) as [|[i r] l] eqn:El; [done|]. intros Hnil.
      assert (Hin : (i, r) ∈ submission_rows k1 sid) by (apply Hsame; left). rewrite Hnil in Hin. set_solver.
    + split_and!; [by eapply bundles_ok_ext|etrans; [exact Hf1|by apply frozen_ext]|done| |done..].
      intros mid row Hr. by apply Hfound, Hsame.
Qed.
End facts.
