(* ===== verification/ArchiveEnqueue.v ===== *)
(** * Enqueue batches

    [archive_enqueue.py], with the scan report of [archive_fanout.py] and the scan command of
    [rem_archive_cli.py]: one conformance scan per class and source tree, the recording of its exclusion
    and blob clusters, and the staging of the members that no cluster covers.  The [rem] process, the
    JSON reader and the host (environment, search path, file modes) are parameters. *)

From Stdlib Require Import Ascii.
From S2P Require Import Prelude Json JobModels Catalog RetryConfig Scrub BundleGroup Accumulator Profiles Policy.
From S2P Require Import FanoutMap Fanout AppleDouble Staging Submission.

Definition BLOB_FUNNEL : string := "cloud-blob".
Definition EXCLUDE_REASON : string := "exclude-rule".
Definition BLOB_REASON : string := "blob-rule".

Inductive EnqueueFault :=
  | ArchiveEnqueueError (message : string)
  | BatchScanHeld (summary : dict json)
  | RemNotFound
  | RemScanFailed
  | RemReportInvalid
  | EnqueueStagingFault (e : StagingFault)
  | EnqueueBundleFault (e : BundleError)
  | EnqueuePolicyMissing.

(** ** The scan command *)

Record Host := {
  h_rem_bin_env : option string;
  h_which : string → option string;
  h_expanduser : string → string;
  h_executable : string → bool;
  h_home : string;
}.

Definition rem_bin_fallback (h : Host) : string := h_home h +:+ "/remanence/target/release/rem".

Definition resolve_candidate (h : Host) (value : string) : result EnqueueFault string :=
  let candidate := path_str (h_expanduser h value) in
  if negb (bool_decide (partition "/" value = None)) || bool_decide (is_Some (strip_prefix "/" candidate)) then
    if h_executable h candidate then Ok candidate else Err RemNotFound
  else match h_which h value with
       | Some found => Ok found
       | None =>
           if bool_decide (value = "rem") && h_executable h (rem_bin_fallback h)
           then Ok (rem_bin_fallback h) else Err RemNotFound
       end.

Definition resolve_rem_bin (h : Host) (rem_bin : option string) : result EnqueueFault string :=
  match rem_bin, h_rem_bin_env h ≫= non_empty with
  | Some value, _ | None, Some value => resolve_candidate h value
  | None, None =>
      match h_which h "rem" with
      | Some found => Ok found
      | None => if h_executable h (rem_bin_fallback h) then Ok (rem_bin_fallback h) else Err RemNotFound
      end
  end.

Definition scan_command (rem : string) (inputs : list string) (ruleset : option string) : list string :=
  [rem; "archive"; "build"; "--scan-only"] ++
  match ruleset with Some r => ["--rules"; r] | None => [] end ++
  "--inputs" :: inputs.

(** A finished process: its exit code and the lines of its output, stripped *)
Record Completed := { cp_returncode : Z; cp_stdout : list string }.

Definition looks_like_object (line : string) : bool :=
  bool_decide (is_Some (strip_prefix "{" line)) && bool_decide (is_Some (strip_suffix "}" line)).

(** ** The scan report *)

Record DeviationCluster := {
  dc_prefix : string;
  dc_reason : string;
  dc_count : Z;
  dc_bytes_total : Z;
  dc_samples : list string;
  dc_proposed_default : option string;
}.

Record ConformanceScan := {
  sc_clusters : list DeviationCluster;
  sc_exclusions : list DeviationCluster;
}.

Definition has_deviations (s : ConformanceScan) : bool :=
  existsb (λ c, negb (bool_decide (dc_reason c ∈ ["native"; EXCLUDE_REASON; BLOB_REASON]))) (sc_clusters s) ||
  negb (bool_decide (length (sc_exclusions s) = 0%nat)).

Definition cluster_json (c : DeviationCluster) : json :=
  JObj [("prefix", JStr (dc_prefix c)); ("reason", JStr (dc_reason c)); ("count", JInt (dc_count c));
        ("bytes_total", JInt (dc_bytes_total c)); ("samples", JList (JStr <$> dc_samples c));
        ("proposed_default", match dc_proposed_default c with Some s => JStr s | None => JNull end)].

Definition to_summary (s : ConformanceScan) : dict json :=
  [("clusters", JList (cluster_json <$> sc_clusters s)); ("exclusions", JList (cluster_json <$> sc_exclusions s))].

Definition normalized_rem_scan_report (report : dict json) : dict json :=
  match dget "scan" report with
  | Some (JObj scan) =>
      let pick key d := default (default (JList []) (dget key d)) (dget key scan) in
      let normalized := dset "clusters" (pick "clusters" report) report in
      dset "exclusions" (pick "exclusions" normalized) normalized
  | _ => report
  end.

Fixpoint characters (s : string) : list string :=
  match s with EmptyString => [] | String c s => String c "" :: characters s end.

(** What [for x in value] goes through; [None] is the [TypeError] of a value that is no sequence. *)
Definition iterate (j : json) : option (list json) :=
  match j with
  | JList l => Some l
  | JObj d => Some (JStr <$> d.*1)
  | JStr s => Some (JStr <$> characters s)
  | _ => None
  end.

Fixpoint read_each {A} (f : json → result EnqueueFault A) (l : list json) : result EnqueueFault (list A) :=
  match l with
  | [] => Ok []
  | j :: l => a ← f j; rest ← read_each f l; Ok (a :: rest)
  end.

Definition string_only (j : json) : option string := match j with JStr s => Some s | _ => None end.

(** ** Batches *)

Record EnqueueItem := {
  ei_logical_asset_hash : bytes;
  ei_source_path : string;
  ei_member_path : string;
  ei_archive_path : option string;
}.

(** [archive_path or member_path] *)
Definition stored_archive_path (i : EnqueueItem) : string :=
  default (ei_member_path i) (ei_archive_path i ≫= non_empty).

Record EnqueuedMember := { em_member_path : string; em_bundle_id : string }.

Record BatchEnqueueResult := {
  br_artifactclass : string;
  br_scan_root : list string;
  br_enqueued : list EnqueuedMember;
  br_excluded_prefixes : list string;
  br_blob_prefixes : list string;
}.

Definition prefix_covers (prefix member_path : string) : bool :=
  if decide (prefix = "") then false
  else if decide (member_path = prefix) then true
  else if decide (is_Some (strip_suffix "/" prefix)) then bool_decide (is_Some (strip_prefix prefix member_path))
  else bool_decide (is_Some (strip_prefix (prefix +:+ "/") member_path)).

Definition covers_any (prefixes : list string) (member_path : string) : bool :=
  existsb (λ p, prefix_covers p member_path) prefixes.

(** A cluster as it is recorded: the reason may be defaulted. *)
Record Verdict := {
  vd_prefix : string;
  vd_reason : string;
  vd_count : Z;
  vd_bytes_total : Z;
  vd_samples : list string;
}.

Definition verdict_of (reason : string) (c : DeviationCluster) : Verdict := {|
  vd_prefix := dc_prefix c; vd_reason := reason; vd_count := dc_count c; vd_bytes_total := dc_bytes_total c;
  vd_samples := dc_samples c |}.

Definition exclusion_clusters (s : ConformanceScan) : list Verdict :=
  let stated := foldl (λ d c, dset (dc_prefix c)
                         (verdict_of (default EXCLUDE_REASON (non_empty (dc_reason c))) c) d) [] (sc_exclusions s) in
  let all := foldl (λ d c, if bool_decide (dc_reason c = EXCLUDE_REASON) && bool_decide (dget (dc_prefix c) d = None)
                           then dset (dc_prefix c) (verdict_of (dc_reason c) c) d else d)
               stated (sc_clusters s) in
  (sort_by fst all).*2.

Definition blob_clusters (s : ConformanceScan) : list Verdict :=
  (λ c, verdict_of (dc_reason c) c) <$> filter (λ c, dc_reason c = BLOB_REASON) (sort_by dc_prefix (sc_clusters s)).

#[export] Instance Verdict_eq_dec : EqDecision Verdict.
Proof. solve_decision. Defined.

Definition cluster_detail (root artifactclass : string) (v : Verdict) (funnel : option string) : dict json :=
  [("scan_root", JStr root); ("artifactclass", JStr artifactclass); ("prefix", JStr (vd_prefix v));
   ("samples", JList (JStr <$> vd_samples v))] ++
  match funnel with Some f => [("routed_to", JStr f)] | None => [] end.

Definition cluster_row (root artifactclass : string) (ruleset : option string) (v : Verdict) (funnel : option string)
    : ExclusionRecord := {|
  ex_bundle_id := None; ex_artifactclass := artifactclass; ex_logical_asset_hash := None;
  ex_path := Some (vd_prefix v); ex_reason := vd_reason v; ex_count := vd_count v;
  ex_bytes_total := vd_bytes_total v; ex_ruleset_name := ruleset; ex_ruleset_hash := None;
  ex_detail := Some (cluster_detail root artifactclass v funnel) |}.

(** The row of a cluster: class, prefix, reason and scan root *)
Definition is_cluster_row (root artifactclass prefix reason : string) (x : ExclusionRecord) : bool :=
  bool_decide (ex_artifactclass x = artifactclass) && bool_decide (ex_path x = Some prefix) &&
  bool_decide (ex_reason x = reason) && bool_decide (ex_logical_asset_hash x = None) &&
  match dget "scan_root" (default [] (ex_detail x)) with Some (JStr r) => bool_decide (r = root) | _ => false end.

Definition cluster_already_recorded (k : Cat) (root artifactclass prefix reason : string) : bool :=
  existsb (λ ix, is_cluster_row root artifactclass prefix reason ix.2) (tbl_list (exclusions k)).

(** The clusters that cover an item of the batch; a row is added for those that have none. *)
Fixpoint record_verdict_clusters (k : Cat) (root artifactclass : string) (ruleset : option string)
    (items : list EnqueueItem) (verdicts : list Verdict) (funnel : option string)
    : result EnqueueFault (Cat * list string) :=
  match verdicts with
  | [] => Ok (k, [])
  | v :: verdicts =>
      if negb (existsb (λ i, prefix_covers (vd_prefix v) (ei_member_path i)) items)
      then record_verdict_clusters k root artifactclass ruleset items verdicts funnel
      else
        k ← (if cluster_already_recorded k root artifactclass (vd_prefix v) (vd_reason v) then Ok k
             else match record_exclusion k (cluster_row root artifactclass ruleset v funnel) with
                  | Ok k => Ok k
                  | Err e => Err (EnqueueBundleFault e)
                  end);
        '(k, prefixes) ← record_verdict_clusters k root artifactclass ruleset items verdicts funnel;
        Ok (k, vd_prefix v :: prefixes)
  end.

(** How a batch ends: with its result, with the hold that staging wrote and raised, or with an error.
    A hold is committed by the caller, an error is not. *)
Inductive BatchOutcome (A : Type) :=
  | BatchDone (k : Cat) (a : A)
  | BatchHold (k : Cat) (summary : dict json)
  | BatchFailed (e : EnqueueFault).
Arguments BatchDone {_} _ _.
Arguments BatchHold {_} _ _.
Arguments BatchFailed {_} _.

Section enqueue.
Context (sha256 : bytes → bytes) (sha256_hex : string → string).
Context (compress : Z → bytes → bytes) (decompress : bytes → option bytes) (zstd_version : string).
Context (fnmatchcase : string → string → bool) (path_match : string → string → bool).
Context (utf8 : bytes → bool) (accepts : string → bytes → bool).
Context (escape_path_name : SourcePath → string) (escape_path_text : string → string).
Context (path_of : string → list string) (path_text : list string → string).
Context (host : Host) (run_managed : list string → Completed) (json_loads : string → option json).
Context (json_str : json → string) (parse_int : string → option Z).

(** [_json_report]: the first line that is an object *)
Fixpoint json_report (lines : list string) : result EnqueueFault (dict json) :=
  match lines with
  | [] => Err RemScanFailed
  | line :: lines =>
      if negb (looks_like_object line) then json_report lines
      else match json_loads line with
           | None => Err RemReportInvalid
           | Some (JObj d) => Ok d
           | Some _ => json_report lines
           end
  end.

Definition run_rem_archive_scan (inputs : list string) (ruleset rem_bin : option string)
    : result EnqueueFault (dict json) :=
  _ ← raise_if (bool_decide (length inputs = 0%nat)) RemReportInvalid;
  rem ← resolve_rem_bin host rem_bin;
  let completed := run_managed (scan_command rem inputs ruleset) in
  _ ← raise_if (negb (cp_returncode completed =? 0)) RemScanFailed;
  json_report (cp_stdout completed).

(** [str(j)] *)
Definition text_of (j : json) : string := match j with JStr s => s | _ => json_str j end.

Definition number (o : option Z) : result EnqueueFault Z :=
  match o with Some n => Ok n | None => Err RemReportInvalid end.

(** [bytes_total], or [bytes] when it is absent or null; read through its text *)
Definition cluster_bytes (d : dict json) : json :=
  match dget "bytes_total" d with
  | None | Some JNull => default (JInt 0) (dget "bytes" d)
  | Some j => j
  end.

Definition cluster_from_json (j : json) : result EnqueueFault DeviationCluster :=
  match j with
  | JObj d =>
      count ← number (int_of parse_int (dget "count" d));
      bytes_total ← number (match cluster_bytes d with JInt n => Some n | j => parse_int (text_of j) end);
      samples ← match iterate (default (JList []) (dget "samples" d)) with
                | Some l => Ok (omap string_only l)
                | None => Err RemReportInvalid
                end;
      Ok {| dc_prefix := text_of (default (JStr "") (dget "prefix" d));
            dc_reason := text_of (default (JStr "unknown") (dget "reason" d));
            dc_count := count; dc_bytes_total := bytes_total; dc_samples := samples;
            dc_proposed_default := match dget "proposed_default" d with
                                   | None | Some JNull => None
                                   | Some j => Some (text_of j)
                                   end |}
  | _ => Err RemReportInvalid
  end.

Definition clusters_at (key : string) (d : dict json) : result EnqueueFault (list DeviationCluster) :=
  match iterate (default (JList []) (dget key d)) with
  | Some l => read_each cluster_from_json l
  | None => Err RemReportInvalid
  end.

Definition scan_from_json (d : dict json) : result EnqueueFault ConformanceScan :=
  clusters ← clusters_at "clusters" d;
  exclusions ← clusters_at "exclusions" d;
  Ok {| sc_clusters := clusters; sc_exclusions := exclusions |}.

Definition batch_scan (root : list string) (ruleset rem_bin : option string) : result EnqueueFault ConformanceScan :=
  report ← run_rem_archive_scan [path_text root] ruleset rem_bin;
  scan_from_json (normalized_rem_scan_report report).

(** The members that no cluster covers, in the order of the batch *)
Fixpoint enqueue_items (k : Cat) (t : Tree) (env : nat → AppendEnv) (n : nat) (artifactclass : string)
    (policy : ArtifactClassPolicyRecord) (staging_root : list string) (skip : list string) (items : list EnqueueItem)
    : Tree * BatchOutcome (list EnqueuedMember) :=
  match items with
  | [] => (t, BatchDone k [])
  | i :: items =>
      if covers_any skip (ei_member_path i)
      then enqueue_items k t env (S n) artifactclass policy staging_root skip items
      else
        let e := env n in
        match stage_and_enqueue_artifact sha256 sha256_hex compress zstd_version fnmatchcase path_match utf8 accepts
                escape_path_name escape_path_text path_of path_text k t (ae_mint_race e) (ae_race e) artifactclass
                policy (ei_source_path i) staging_root (Some (stored_archive_path i)) None (ae_fresh e) (ae_now e) with
        | (t, Failed e) => (t, BatchFailed (EnqueueStagingFault e))
        | (t, Held k summary) => (t, BatchHold k summary)
        | (t, Staged k a) =>
            if negb (bool_decide (st_logical_sha256 a = ei_logical_asset_hash i))
            then (t, BatchFailed (ArchiveEnqueueError "source hashes to another digest"))
            else match st_bundle_id a with
                 | None => (t, BatchFailed (ArchiveEnqueueError "staging did not report a bundle"))
                 | Some id =>
                     match enqueue_items k t env (S n) artifactclass policy staging_root skip items with
                     | (t, BatchDone k l) =>
                         (t, BatchDone k ({| em_member_path := st_stored_member_path a; em_bundle_id := id |} :: l))
                     | r => r
                     end
                 end
        end
  end.

(** The rows of the two kinds of clusters, and their prefixes *)
Definition record_scan (k : Cat) (scan : ConformanceScan) (root artifactclass : string) (ruleset : option string)
    (items : list EnqueueItem) : result EnqueueFault (Cat * list string * list string) :=
  '(k, excluded) ← record_verdict_clusters k root artifactclass ruleset items (exclusion_clusters scan) None;
  '(k, blobs) ← record_verdict_clusters k root artifactclass ruleset items (blob_clusters scan) (Some BLOB_FUNNEL);
  Ok (k, excluded, blobs).

Definition is_directory (t : Tree) (p : list string) : bool :=
  match t !! p with Some SDir => true | _ => false end.

Definition scan_enqueue_batch (k : Cat) (t : Tree) (env : nat → AppendEnv) (artifactclass : string)
    (policy : ArtifactClassPolicyRecord) (root : list string) (items : list EnqueueItem) (staging_root : list string)
    (rem_bin : option string) : Tree * BatchOutcome BatchEnqueueResult :=
  let ruleset := non_empty (pr_ruleset policy) in
  let prepared :=
    _ ← raise_if (negb (is_directory t root)) (ArchiveEnqueueError "scan root is not a directory");
    _ ← raise_if (bool_decide (length items = 0%nat)) (ArchiveEnqueueError "enqueue batch has no items");
    scan ← batch_scan root ruleset rem_bin;
    _ ← raise_if (bool_decide (pr_expect policy = "compliant") && has_deviations scan)
          (BatchScanHeld (to_summary scan));
    record_scan k scan (path_text root) artifactclass ruleset items in
  match prepared with
  | Err e => (t, BatchFailed e)
  | Ok (k, excluded, blobs) =>
      match enqueue_items k t env 0 artifactclass policy staging_root (excluded ++ blobs) items with
      | (t, BatchDone k l) =>
          (t, BatchDone k {| br_artifactclass := artifactclass; br_scan_root := root; br_enqueued := l;
                             br_excluded_prefixes := excluded; br_blob_prefixes := blobs |})
      | (t, BatchHold k summary) => (t, BatchHold k summary)
      | (t, BatchFailed e) => (t, BatchFailed e)
      end
  end.

(** ** Intakes *)

Definition intake_items (k : Cat) (intake_id : string) : list IngestItem :=
  sort_by ii_as_received_path ((filter (λ ii, ii_intake_id ii.2 = intake_id) (tbl_list (items k))).*2).

(** The path the file was stored under, when the intake renamed it *)
Definition item_member_path (i : IngestItem) : string :=
  match dget "stored_member_path" (ii_item_metadata i) with
  | Some (JStr s) => default (ii_as_received_path i) (non_empty s)
  | _ => ii_as_received_path i
  end.

Definition enqueue_item (root : list string) (i : IngestItem) : EnqueueItem := {|
  ei_logical_asset_hash := ii_logical_asset_hash i; ei_source_path := path_join (path_text root) (item_member_path i);
  ei_member_path := item_member_path i; ei_archive_path := None |}.

(** [items_by_class.setdefault(class, []).append(item)] *)
Definition items_by_class (root : list string) (rows : list IngestItem) : dict (list EnqueueItem) :=
  foldl (λ d i, dset (ii_artifactclass i) (default [] (dget (ii_artifactclass i) d) ++ [enqueue_item root i]) d) [] rows.

Fixpoint enqueue_classes (k : Cat) (t : Tree) (env : string → nat → AppendEnv) (root staging_root : list string)
    (rem_bin : option string) (batches : list (string * list EnqueueItem))
    : Tree * BatchOutcome (list BatchEnqueueResult) :=
  match batches with
  | [] => (t, BatchDone k [])
  | (artifactclass, items) :: batches =>
      match policies k !! artifactclass with
      | None => (t, BatchFailed EnqueuePolicyMissing)
      | Some policy =>
          match scan_enqueue_batch k t (env artifactclass) artifactclass policy root items staging_root rem_bin with
          | (t, BatchDone k r) =>
              match enqueue_classes k t env root staging_root rem_bin batches with
              | (t, BatchDone k rs) => (t, BatchDone k (r :: rs))
              | o => o
              end
          | (t, BatchHold k summary) => (t, BatchHold k summary)
          | (t, BatchFailed e) => (t, BatchFailed e)
          end
      end
  end.

Definition enqueue_intake_batch (k : Cat) (t : Tree) (env : string → nat → AppendEnv) (intake_id : string)
    (staging_root : option (list string)) (rem_bin : option string) : Tree * BatchOutcome (list BatchEnqueueResult) :=
  match intakes k !! intake_id with
  | None => (t, BatchFailed (ArchiveEnqueueError "no intake"))
  | Some intake =>
      if negb (bool_decide (in_status intake = REGISTERED))
      then (t, BatchFailed (ArchiveEnqueueError "only registered intakes enqueue"))
      else match in_manifest_path intake ≫= non_empty with
           | None => (t, BatchFailed (ArchiveEnqueueError "intake has no manifest_path"))
           | Some manifest =>
               let root := path_of (path_join (path_parent manifest) "data") in
               if negb (is_directory t root)
               then (t, BatchFailed (ArchiveEnqueueError "intake scan root is missing"))
               else
                 let staging := default (removelast root ++ [".sutradhara-stage"]) staging_root in
                 match items_by_class root (intake_items k intake_id) with
                 | [] => (t, BatchFailed (ArchiveEnqueueError "intake has no ingest items to enqueue"))
                 | batches => enqueue_classes k t env root staging rem_bin (sort_by fst batches)
                 end
           end
  end.
End enqueue.
