(* ===== verification/ArchiveEnqueueFacts.v ===== *)
(** * Correctness of enqueue batches

    A batch routes every item: to the clusters of the scan that cover it, which are recorded once, or to
    a bundle member with its content. *)

From S2P Require Import Prelude Json JobModels Catalog RetryConfig Scrub BundleGroup Accumulator AccumulatorFacts.
From S2P Require Import EngineFacts DurabilityFacts Profiles Policy FanoutMap Fanout AppleDouble Staging StagingFacts.
From S2P Require Import Submission ArchiveEnqueue.

(** ** What a batch keeps *)

(** Members survive up to their metadata, exclusions as they are. *)
Record rows_grow (k k' : Cat) : Prop := {
  rg_members : ∀ i m, t_rows (members k) !! i = Some m → ∃ m', t_rows (members k') !! i = Some m' ∧ same_member m m';
  rg_exclusions : t_rows (exclusions k) ⊆ t_rows (exclusions k');
  rg_ids : tbl_ok (exclusions k) → tbl_ok (exclusions k');
}.

#[export] Instance rows_grow_preorder : PreOrder rows_grow.
Proof.
  split.
  - intros k. constructor; [|done..]. intros i m Hm. by exists m.
  - intros k1 k2 k3 [M1 E1 I1] [M2 E2 I2]. constructor; [|by etrans|auto].
    intros i m Hm. destruct (M1 i m Hm) as (m2 & Hm2 & S1 & S2 & S3 & S4).
    destruct (M2 i m2 Hm2) as (m3 & Hm3 & T1 & T2 & T3 & T4). exists m3. split; [done|]. split_and!; congruence.
Qed.

(** What the transactions of others between the checks and the INSERTs of a batch may do *)
Definition race_grows (race : Cat → Cat) : Prop :=
  race_ok race ∧ ∀ k, bundles_ok k → rows_grow k (race k).

Definition env_grows (e : AppendEnv) : Prop := race_grows (ae_mint_race e) ∧ ∀ i, race_grows (ae_race e i).

Lemma grow_bundles k bs : rows_grow k (with_bundles bs k).
Proof. constructor; [|done..]. intros i m Hm. by exists m. Qed.

Lemma grow_assets k a : rows_grow k (with_assets a k).
Proof. constructor; [|done..]. intros i m Hm. by exists m. Qed.

Lemma grow_transforms k ts : rows_grow k (with_transforms ts k).
Proof. constructor; [|done..]. intros i m Hm. by exists m. Qed.

Lemma grow_put k i m m' :
  t_rows (members k) !! i = Some m → same_member m m' → rows_grow k (with_members (tbl_put i m' (members k)) k).
Proof.
  intros Hm Hs. constructor; [|done..]. intros j x Hx. cbn. destruct (decide (j = i)) as [->|].
  - simplify_eq. exists m'. by rewrite lookup_insert_eq.
  - exists x. by rewrite lookup_insert_ne.
Qed.

Lemma grow_insert k m : bundles_ok k → rows_grow k (with_members (tbl_insert m (members k)).1 k).
Proof.
  intros Hok. pose proof (tbl_fresh _ (bo_ids _ Hok)) as Hfresh. constructor; [|done..]. intros j x Hx. cbn.
  exists x. rewrite lookup_insert_ne by congruence. done.
Qed.

Lemma grow_exclusion k x : tbl_ok (exclusions k) → rows_grow k (with_exclusions (tbl_insert x (exclusions k)).1 k).
Proof.
  intros Hok. constructor; [|cbn|by intros; apply tbl_insert_ok].
  - intros i m Hm. by exists m.
  - apply insert_subseteq, tbl_fresh, Hok.
Qed.

Section enqueue.
Context (sha256_hex : string → string) (escape_name : SourcePath → string) (escape_text : string → string).

Lemma attempts_grow n race i k id q k' ap :
  (∀ i, race_grows (race i)) → bundles_ok k →
  append_attempts sha256_hex n race i k id q = Ok (k', ap) → rows_grow k k'.
Proof.
  intros Hrace. revert i k. induction n as [|n IH]; intros i k Hok H; [done|].
  cbn [append_attempts] in H. apply bind_Ok in H as ([[path existing] occ] & Hres & H).
  destruct existing as [[j m]|].
  { destruct (merge_member_source_metadata m _) as [m' ch] eqn:Em. injection H as <- <-. destruct ch; [|done].
    apply walk_ladder_spec in Hres as (pre & post & _ & _ & Hat & _). apply member_at_Some in Hat as (Hm & _).
    apply merge_metadata_frame in Em as (F1 & F2 & F3 & F4 & F5 & F6 & F7). by eapply grow_put. }
  destruct (Hrace i) as [Hr1 Hr2]. destruct (Hr1 k Hok) as (Hok1 & _). specialize (Hr2 k Hok).
  destruct (member_at (race i k) id path).
  - etrans; [exact Hr2|]. by eapply IH.
  - destruct (tbl_insert _ _) as [t j] eqn:Et. injection Et as <- <-. injection H as <- <-.
    etrans; [exact Hr2|]. etrans; [by apply grow_insert|]. apply grow_bundles.
Qed.

Lemma opened_grow k race cls policy bid fresh now k' id c :
  race_grows race → bundles_ok k →
  get_or_create_open_bundle sha256_hex k race cls policy bid fresh now = Ok (k', id, c) → rows_grow k k'.
Proof.
  intros [_ Hr] Hok H. specialize (Hr k Hok). unfold get_or_create_open_bundle in H.
  destruct (compute_bundle_group _ _ _) as [g basis]. destruct (find_open_accumulator k g) as [[i b]|].
  { apply bind_Ok in H as (_ & _ & [= <- _ _]). done. }
  apply bind_Ok in H as ([t a] & _ & H). apply bind_Ok in H as (b & _ & H).
  destruct (bundle_conflict _ _ _); [|injection H as <- _ _; etrans; [exact Hr|apply grow_bundles]].
  destruct (find_open_accumulator (race k) g) as [[i b']|]; [|done]. by injection H as <- _ _.
Qed.

Lemma minted_grow k race g basis t a bid fresh now k' id :
  race_grows race → bundles_ok k →
  mint_funnel k race g basis t a bid fresh now = Ok (k', id) → rows_grow k k'.
Proof.
  intros [_ Hr] Hok H. specialize (Hr k Hok). unfold mint_funnel in H. apply bind_Ok in H as (b & _ & H).
  destruct (bundle_conflict _ _ _); [|injection H as <- _; etrans; [exact Hr|apply grow_bundles]].
  destruct (bundles (race k) !! _); [|done]. case_bool; [|done]. by injection H as <- _.
Qed.

Lemma enqueue_grow k mint_race race policy q fresh now k' id ap :
  race_grows mint_race → (∀ i, race_grows (race i)) → bundles_ok k →
  enqueue_artifact sha256_hex escape_name escape_text k mint_race race policy q fresh now = Ok (k', id, ap) →
  bundles_ok k' ∧ rows_grow k k' ∧ t_rows (members k') !! ap_member_id ap = Some (ap_member ap) ∧
  bm_artifactclass (ap_member ap) = eq_artifactclass q ∧ bm_logical_asset_hash (ap_member ap) = eq_logical_asset_hash q.
Proof.
  intros Hmint Hrace Hok H. pose proof (λ i, proj1 (Hrace i)) as Hrace'.
  unfold enqueue_artifact in H. set (r := append_request _ _ _) in H.
  apply bind_Ok in H as ([] & _ & H). destruct (compute_bundle_group _ _ _) as [g basis].
  apply bind_Ok in H as ([t a] & _ & H). apply bind_Ok in H as ([k1 id1] & Hopen & H).
  apply bind_Ok in H as ([k2 ap2] & Happ & [= <- <- <-]).
  assert (Hk1 : bundles_ok k1 ∧ rows_grow k k1).
  { case_bool.
    - destruct (find_funnel _ _ _); [by injection Hopen as <- <-|]. split.
      + apply mint_funnel_ok in Hopen as (? & ? & _); [done|apply Hmint|done].
      + by eapply minted_grow.
    - apply bind_Ok in Hopen as ([[k3 id3] c] & Hg & [= <- <-]). split.
      + apply get_or_create_ok in Hg as (? & ? & _); [done|apply Hmint|done].
      + by eapply opened_grow. }
  destruct Hk1 as [Hok1 Hg1]. pose proof Happ as Hap.
  apply add_bundle_member_ok in Hap as [Hok2 _ _ _ Hm _ Hown _]; [|done..].
  unfold add_bundle_member in Happ. destruct (bundles k1 !! id1); [|done].
  apply bind_Ok in Happ as ([] & _ & Happ). apply bind_Ok in Happ as ([] & _ & Happ).
  apply attempts_grow in Happ; [|done..]. split; [done|]. split; [by etrans|]. split; [done|].
  unfold own_row in Hown. by split_bools.
Qed.
End enqueue.

(** ** Staged members *)

Lemma put_same_ok k i m m' :
  bundles_ok k → t_rows (members k) !! i = Some m → same_member m m' → bm_size_bytes m' = bm_size_bytes m →
  bundles_ok (with_members (tbl_put i m' (members k)) k).
Proof. intros Hok Hm (H1 & H2 & _) Hs. by eapply put_member_ok. Qed.

(** The catalog [k'] holds the row [m] at [i], and everything [k] held. *)
Definition extends (k k' : Cat) (i : Z) (m : BundleMember) : Prop :=
  bundles_ok k' ∧ rows_grow k k' ∧ t_rows (members k') !! i = Some m.

Lemma assign_metadata_extends k0 k i m key value :
  extends k0 k i m → same_member m (assign_metadata k i m key value).2 ∧
  extends k0 (assign_metadata k i m key value).1 i (assign_metadata k i m key value).2.
Proof.
  intros (Hok & Hg & Hm). split; [done|]. unfold assign_metadata. cbn [fst snd]. split_and!.
  - by eapply put_same_ok.
  - etrans; [exact Hg|]. by eapply grow_put.
  - cbn. apply lookup_insert_eq.
Qed.

Lemma bundles_ok_transforms k ts : bundles_ok k → bundles_ok (with_transforms ts k).
Proof. by intros [H1 H2 H3 H4 H5 H6 H7]. Qed.

Lemma bundles_ok_assets k a : bundles_ok k → bundles_ok (with_assets a k).
Proof. by intros [H1 H2 H3 H4 H5 H6 H7]. Qed.

Lemma bundles_ok_exclusions k x : bundles_ok k → bundles_ok (with_exclusions x k).
Proof. by intros [H1 H2 H3 H4 H5 H6 H7]. Qed.

Lemma record_steps_extends k0 artifactclass i m steps : ∀ k n k' refs,
  extends k0 k i m → record_steps k artifactclass i m n steps = Ok (k', refs) → extends k0 k' i m.
Proof.
  induction steps as [|s steps IH]; intros k n k' refs Hk H; cbn [record_steps] in H; [by injection H as <- <-|].
  apply bind_Ok in H as ([k1 j] & Hr & H). apply bind_Ok in H as ([k2 l] & Hs & [= <- <-]).
  eapply IH; [|exact Hs]. unfold record_staging_transform in Hr.
  apply bind_Ok in Hr as ([] & _ & Hr). apply bind_Ok in Hr as ([] & _ & Hr). apply bind_Ok in Hr as ([] & _ & Hr).
  apply bind_Ok in Hr as ([] & _ & Hr). injection Hr as <- _. destruct Hk as (Hok & Hg & Hm). split_and!; [|etrans|done].
  - by apply bundles_ok_transforms.
  - exact Hg.
  - apply grow_transforms.
Qed.

Lemma record_staged_extends k0 k artifactclass a ap k' a' :
  extends k0 k (ap_member_id ap) (ap_member ap) → record_staged k artifactclass a ap = Ok (k', a') →
  ∃ m, extends k0 k' (ap_member_id ap) m ∧ same_member (ap_member ap) m ∧
    st_stored_member_path a' = bm_member_path m ∧ st_bundle_id a' = Some (bm_bundle_id m) ∧
    st_logical_sha256 a' = st_logical_sha256 a.
Proof.
  intros Hk H. unfold record_staged in H. apply bind_Ok in H as ([[k1 m1] a1] & Hre & H).
  assert (H1 : extends k0 k1 (ap_member_id ap) m1 ∧ same_member (ap_member ap) m1 ∧
    st_stored_member_path a1 = bm_member_path m1 ∧ st_bundle_id a1 = Some (bm_bundle_id m1) ∧
    st_logical_sha256 a1 = st_logical_sha256 a).
  { unfold rekey in Hre. case_decide as Hd; [by injection Hre as <- <- <-|].
    destruct (extract_member_tag _ _) as [tag|]; [|done]. destruct (ap_created ap); [|by injection Hre as <- <- <-].
    destruct (assign_metadata_extends k0 k (ap_member_id ap) (ap_member ap) "stored_member_path"
      (JStr (bm_member_path (ap_member ap))) Hk) as [Hs He].
    destruct (assign_metadata _ _ _ _ _) as [k2 m2] eqn:Ea. injection Hre as <- <- <-.
    split; [exact He|]. split; [exact Hs|]. destruct Hs as (S1 & S2 & _). cbn in *. by rewrite S1, S2. }
  destruct H1 as (He & Hs & Hp & Hb & Hh). clear Hre. unfold record_chain in H.
  case_bool; [by injection H as <- <-; exists m1|].
  apply bind_Ok in H as ([k2 refs] & Hr & H). unfold lift_staging in Hr.
  destruct (record_steps _ _ _ _ _ _) as [[k3 l]|] eqn:Er; [|done]. injection Hr as -> ->.
  eapply record_steps_extends in Er; [|exact He].
  destruct refs as [|r refs]; [by injection H as <- <-; exists m1|]. injection H as <- <-.
  destruct (assign_metadata_extends k0 k2 (ap_member_id ap) m1 "transforms" (JList (r :: refs)) Er) as [(T1 & T2 & T3 & T4) He'].
  destruct Hs as (S1 & S2 & S3 & S4).
  eexists. split; [exact He'|]. split; [split_and!; congruence|]. split_and!; congruence.
Qed.

(** ** Clusters *)

Definition covering (items : list EnqueueItem) (v : Verdict) : bool :=
  existsb (λ i, prefix_covers (vd_prefix v) (ei_member_path i)) items.

Lemma cluster_row_is root artifactclass ruleset v funnel :
  is_cluster_row root artifactclass (vd_prefix v) (vd_reason v) (cluster_row root artifactclass ruleset v funnel) = true.
Proof.
  unfold is_cluster_row. cbn [cluster_row ex_artifactclass ex_path ex_reason ex_logical_asset_hash ex_detail].
  rewrite !bool_decide_true by done. change (dget "scan_root" _) with (Some (JStr root)). cbn. by rewrite bool_decide_true.
Qed.

Lemma already_recorded k root artifactclass prefix reason :
  cluster_already_recorded k root artifactclass prefix reason = true ↔
  ∃ i x, t_rows (exclusions k) !! i = Some x ∧ is_cluster_row root artifactclass prefix reason x = true.
Proof.
  unfold cluster_already_recorded. rewrite existsb_exists. split.
  - intros ([i x] & Hin%list_elem_of_In & Hx). apply elem_of_tbl_list in Hin. by exists i, x.
  - intros (i & x & Hi & Hx). exists (i, x). split; [|done]. by apply list_elem_of_In, elem_of_tbl_list.
Qed.

Lemma already_recorded_grows k k' root artifactclass prefix reason :
  t_rows (exclusions k) ⊆ t_rows (exclusions k') →
  cluster_already_recorded k root artifactclass prefix reason = true →
  cluster_already_recorded k' root artifactclass prefix reason = true.
Proof.
  rewrite !already_recorded. intros Hsub (i & x & Hi & Hx). exists i, x. split; [|done]. by eapply lookup_weaken.
Qed.

Definition recorded_prefix (k : Cat) (root artifactclass prefix : string) : Prop :=
  ∃ reason, cluster_already_recorded k root artifactclass prefix reason = true.

Lemma recorded_grows k k' root artifactclass ps :
  t_rows (exclusions k) ⊆ t_rows (exclusions k') →
  Forall (recorded_prefix k root artifactclass) ps → Forall (recorded_prefix k' root artifactclass) ps.
Proof.
  intros Hsub Hps. eapply Forall_impl; [exact Hps|]. intros p [reason Hp]. exists reason. by eapply already_recorded_grows.
Qed.

(** The prefixes are those of the clusters that cover an item; once recorded they are never recorded again. *)
Lemma record_clusters_spec root artifactclass ruleset items funnel verdicts : ∀ k k' ps,
  bundles_ok k → tbl_ok (exclusions k) →
  record_verdict_clusters k root artifactclass ruleset items verdicts funnel = Ok (k', ps) →
  bundles_ok k' ∧ rows_grow k k' ∧ ps = vd_prefix <$> filter (λ v, covering items v = true) verdicts ∧
  Forall (recorded_prefix k' root artifactclass) ps ∧
  ∀ k2, t_rows (exclusions k') ⊆ t_rows (exclusions k2) →
    record_verdict_clusters k2 root artifactclass ruleset items verdicts funnel = Ok (k2, ps).
Proof.
  induction verdicts as [|v verdicts IH]; intros k k' ps Hok Hids H; cbn [record_verdict_clusters] in *.
  { injection H as <- <-. by split_and!. }
  fold (covering items v) in *. rewrite filter_cons. destruct (covering items v) eqn:Hc; cbn [negb] in *;
    [rewrite decide_True by done|rewrite decide_False by done; by apply IH].
  apply bind_Ok in H as (k1 & H1 & H). apply bind_Ok in H as ([k2 qs] & H2 & [= <- <-]).
  assert (Hk1 : bundles_ok k1 ∧ rows_grow k k1 ∧
    cluster_already_recorded k1 root artifactclass (vd_prefix v) (vd_reason v) = true).
  { destruct (cluster_already_recorded k root artifactclass (vd_prefix v) (vd_reason v)) eqn:Hr; [by injection H1 as <-|].
    unfold record_exclusion in H1. cbn [cluster_row ex_logical_asset_hash mbind result_bind] in H1. injection H1 as <-.
    split_and!; [by apply bundles_ok_exclusions|by apply grow_exclusion|].
    apply already_recorded. eexists _, _. split; [cbn; apply lookup_insert_eq|]. apply cluster_row_is. }
  destruct Hk1 as (Hok1 & Hg1 & Hr1).
  destruct (IH k1 k2 qs Hok1 (rg_ids _ _ Hg1 Hids) H2) as (Hok2 & Hg2 & -> & Hrec & Hre).
  split_and!; [done|by etrans|done| |].
  { constructor; [|done]. exists (vd_reason v). by eapply already_recorded_grows; [apply Hg2|]. }
  intros k3 Hsub.
  rewrite (already_recorded_grows k1); [|etrans; [apply (rg_exclusions _ _ Hg2)|exact Hsub]|done].
  cbn [mbind result_bind]. by rewrite Hre.
Qed.

Lemma record_scan_spec k scan root artifactclass ruleset items k' excluded blobs :
  bundles_ok k → tbl_ok (exclusions k) →
  record_scan k scan root artifactclass ruleset items = Ok (k', excluded, blobs) →
  bundles_ok k' ∧ rows_grow k k' ∧
  excluded = vd_prefix <$> filter (λ v, covering items v = true) (exclusion_clusters scan) ∧
  blobs = vd_prefix <$> filter (λ v, covering items v = true) (blob_clusters scan) ∧
  Forall (recorded_prefix k' root artifactclass) (excluded ++ blobs) ∧
  ∀ k2, t_rows (exclusions k') ⊆ t_rows (exclusions k2) →
    record_scan k2 scan root artifactclass ruleset items = Ok (k2, excluded, blobs).
Proof.
  intros Hok Hids H. unfold record_scan in *. apply bind_Ok in H as ([k1 ps] & H1 & H).
  apply bind_Ok in H as ([k2 qs] & H2 & [= <- <- <-]).
  apply record_clusters_spec in H1 as (Hok1 & Hg1 & -> & Hr1 & Hre1); [|done..].
  apply record_clusters_spec in H2 as (Hok2 & Hg2 & -> & Hr2 & Hre2); [|done|by apply (rg_ids _ _ Hg1)].
  split_and!; [done|by etrans|done|done| |].
  { apply Forall_app. split; [|done]. eapply recorded_grows; [apply Hg2|done]. }
  intros k3 Hsub.
  rewrite Hre1 by (etrans; [apply (rg_exclusions _ _ Hg2)|exact Hsub]). cbn [mbind result_bind]. by rewrite Hre2.
Qed.

Section facts.
Context (sha256 : bytes → bytes) (sha256_hex : string → string).
Context (compress : Z → bytes → bytes) (zstd_version : string).
Context (fnmatchcase : string → string → bool) (path_match : string → string → bool).
Context (utf8 : bytes → bool) (accepts : string → bytes → bool).
Context (escape_path_name : SourcePath → string) (escape_path_text : string → string).
Context (path_of : string → list string) (path_text : list string → string).
Context (host : Host) (run_managed : list string → Completed) (json_loads : string → option json).
Context (json_str : json → string) (parse_int : string → option Z).

Local Abbreviation stage_and_enqueue := (stage_and_enqueue_artifact sha256 sha256_hex compress zstd_version fnmatchcase
  path_match utf8 accepts escape_path_name escape_path_text path_of path_text).
Local Abbreviation enqueue_items := (enqueue_items sha256 sha256_hex compress zstd_version fnmatchcase
  path_match utf8 accepts escape_path_name escape_path_text path_of path_text).
Local Abbreviation scan_enqueue_batch := (scan_enqueue_batch sha256 sha256_hex compress zstd_version fnmatchcase
  path_match utf8 accepts escape_path_name escape_path_text path_of path_text host run_managed json_loads json_str
  parse_int).
Local Abbreviation enqueue_classes := (enqueue_classes sha256 sha256_hex compress zstd_version fnmatchcase
  path_match utf8 accepts escape_path_name escape_path_text path_of path_text host run_managed json_loads json_str
  parse_int).
Local Abbreviation enqueue_intake_batch := (enqueue_intake_batch sha256 sha256_hex compress zstd_version fnmatchcase
  path_match utf8 accepts escape_path_name escape_path_text path_of path_text host run_managed json_loads json_str
  parse_int).
Local Abbreviation batch_scan := (batch_scan path_text host run_managed json_loads json_str parse_int).

(** The row of a member of this class and content, with its name and bundle *)
Definition member_of (k : Cat) (artifactclass : string) (hash : bytes) (e : EnqueuedMember) : Prop :=
  ∃ i m, t_rows (members k) !! i = Some m ∧ bm_artifactclass m = artifactclass ∧ bm_logical_asset_hash m = hash ∧
    bm_member_path m = em_member_path e ∧ bm_bundle_id m = em_bundle_id e.

Lemma member_of_grows k k' artifactclass hash e :
  rows_grow k k' → member_of k artifactclass hash e → member_of k' artifactclass hash e.
Proof.
  intros Hg (i & m & Hm & H1 & H2 & H3 & H4). destruct (rg_members _ _ Hg i m Hm) as (m' & Hm' & S1 & S2 & S3 & S4).
  exists i, m'. split_and!; congruence.
Qed.

Lemma ensure_asset_ok k h n now : bundles_ok k → bundles_ok (ensure_asset k h n now) ∧ rows_grow k (ensure_asset k h n now).
Proof.
  intros Hok. unfold ensure_asset. destruct (assets k !! h); [done|]. split; [by apply bundles_ok_assets|apply grow_assets].
Qed.

Lemma stage_enqueue_spec k t e artifactclass policy source root path bundle_id t' k' a :
  env_grows e → bundles_ok k →
  stage_and_enqueue k t (ae_mint_race e) (ae_race e) artifactclass policy source root path bundle_id (ae_fresh e)
    (ae_now e) = (t', Staged k' a) →
  bundles_ok k' ∧ rows_grow k k' ∧
  ∃ id, st_bundle_id a = Some id ∧
    member_of k' artifactclass (st_logical_sha256 a) {| em_member_path := st_stored_member_path a; em_bundle_id := id |}.
Proof.
  intros [Hmint Hrace] Hok H. unfold stage_and_enqueue_artifact in H.
  destruct (staging_policy_from_json _) as [staging|]; [|done].
  destruct (stage_artifact _ _ _ _ _ _ _ _ _ _ _ _ _ _ _ _ _) as [t1 [a1|[]]]; try done.
  2: { destruct (get_or_create_open_bundle _ _ _ _ _ _ _ _) as [[[? ?] ?]|]; done. }
  destruct (ensure_asset_ok k (st_logical_sha256 a1) (st_logical_size_bytes a1) (ae_now e) Hok) as [Hok1 Hg1].
  set (k1 := ensure_asset _ _ _ _) in *. clearbody k1. cbn zeta in H. injection H as <- H.
  destruct (file_at t1 (st_staged_path a1)) as [content|]; [|done]. cbn [mbind result_bind] in H.
  unfold lift_staging in H.
  destruct (enqueue_artifact _ _ _ _ _ _ _ _ _ _) as [[[k2 id] ap]|] eqn:En; [|done]. cbn [mbind result_bind] in H.
  destruct (record_staged _ _ _ _) as [[k3 a3]|] eqn:Er; [|done]. injection H as <- <-.
  apply enqueue_grow in En as (Hok2 & Hg2 & Hm & Hcls & Hh); [|done..].
  eapply (record_staged_extends k) in Er as (m & (Hok3 & Hg3 & Hm3) & (S1 & S2 & S3 & S4) & Hp & Hb & Hl);
    [|split_and!; [done|by etrans|done]].
  split; [done|]. split; [done|]. exists (bm_bundle_id m). split; [done|].
  exists (ap_member_id ap), m. cbn in Hcls, Hh. split_and!; cbn; congruence.
Qed.

(** ** One batch *)

Definition uncovered (skip : list string) (items : list EnqueueItem) : list EnqueueItem :=
  filter (λ i, covers_any skip (ei_member_path i) = false) items.

Lemma enqueue_items_spec env artifactclass policy root skip items : ∀ k t n t' k' l,
  (∀ n, env_grows (env n)) → bundles_ok k →
  enqueue_items k t env n artifactclass policy root skip items = (t', BatchDone k' l) →
  bundles_ok k' ∧ rows_grow k k' ∧
  Forall2 (λ i e, member_of k' artifactclass (ei_logical_asset_hash i) e) (uncovered skip items) l.
Proof.
  induction items as [|i items IH]; intros k t n t' k' l Henv Hok H; cbn in H.
  { injection H as <- <- <-. split_and!; [done|done|constructor]. }
  unfold uncovered. rewrite filter_cons. destruct (covers_any skip (ei_member_path i)) eqn:Ec.
  { rewrite decide_False by done. by eapply IH. }
  rewrite decide_True by done.
  destruct (stage_and_enqueue _ _ _ _ _ _ _ _ _ _ _ _) as [t1 [k1 a|k1 s|e]] eqn:Es; [|done..].
  apply stage_enqueue_spec in Es as (Hok1 & Hg1 & id & Hid & Hm); [|apply Henv|done].
  destruct (bool_decide (st_logical_sha256 a = ei_logical_asset_hash i)) eqn:Eh; [|done].
  apply bool_decide_eq_true in Eh. cbn [negb] in H. rewrite Hid in H.
  destruct (enqueue_items _ _ _ _ _ _ _ _ _) as [t2 [k2 l2|k2 s|e]] eqn:Ei; [|done..]. injection H as <- <- <-.
  apply IH in Ei as (Hok2 & Hg2 & Hall); [|done..]. split; [done|]. split; [by etrans|]. constructor; [|done].
  rewrite <- Eh. by eapply member_of_grows.
Qed.

Record batch_ok (k k' : Cat) (artifactclass : string) (policy : ArtifactClassPolicyRecord) (root : list string)
    (items : list EnqueueItem) (rem_bin : option string) (r : BatchEnqueueResult) : Prop := {
  bt_ok : bundles_ok k';
  bt_grow : rows_grow k k';
  bt_class : br_artifactclass r = artifactclass;
  bt_root : br_scan_root r = root;
  bt_scan : ∃ scan, batch_scan root (non_empty (pr_ruleset policy)) rem_bin = Ok scan ∧
    (pr_expect policy = "compliant" → has_deviations scan = false) ∧
    br_excluded_prefixes r = vd_prefix <$> filter (λ v, covering items v = true) (exclusion_clusters scan) ∧
    br_blob_prefixes r = vd_prefix <$> filter (λ v, covering items v = true) (blob_clusters scan) ∧
    record_scan k' scan (path_text root) artifactclass (non_empty (pr_ruleset policy)) items
      = Ok (k', br_excluded_prefixes r, br_blob_prefixes r);
  bt_recorded : Forall (recorded_prefix k' (path_text root) artifactclass)
    (br_excluded_prefixes r ++ br_blob_prefixes r);
  bt_members : Forall2 (λ i e, member_of k' artifactclass (ei_logical_asset_hash i) e)
    (uncovered (br_excluded_prefixes r ++ br_blob_prefixes r) items) (br_enqueued r);
}.

Lemma scan_batch_spec k t env artifactclass policy root items staging_root rem_bin t' k' r :
  (∀ n, env_grows (env n)) → bundles_ok k → tbl_ok (exclusions k) →
  scan_enqueue_batch k t env artifactclass policy root items staging_root rem_bin = (t', BatchDone k' r) →
  batch_ok k k' artifactclass policy root items rem_bin r.
Proof.
  intros Henv Hok Hids H. unfold ArchiveEnqueue.scan_enqueue_batch in H. cbv zeta in H.
  match type of H with match ?p with _ => _ end = _ => destruct p as [[[k1 excluded] blobs]|e] eqn:Ep end; [|done].
  destruct (enqueue_items _ _ _ _ _ _ _ _ _) as [t1 [k2 l|k2 s|e]] eqn:Ei; [|done..]. injection H as <- <- <-.
  apply bind_Ok in Ep as ([] & _ & Ep). apply bind_Ok in Ep as ([] & _ & Ep). apply bind_Ok in Ep as (scan & Hscan & Ep).
  apply bind_Ok in Ep as ([] & Hdev%raise_if_Ok & Ep).
  apply record_scan_spec in Ep as (Hok1 & Hg1 & -> & -> & Hrec & Hre); [|done..].
  apply enqueue_items_spec in Ei as (Hok2 & Hg2 & Hall); [|done..].
  constructor; cbn; [done|by etrans|done|done| |by eapply recorded_grows; [apply Hg2|]|done]. exists scan. split_and!; [done| |done|done|].
  - intros Hc. apply andb_false_iff in Hdev as [Hd|Hd]; [by rewrite bool_decide_true in Hd|done].
  - apply Hre, Hg2.
Qed.

(** ** Intakes *)

Lemma by_class_keeps root rows : ∀ d artifactclass items x,
  dget artifactclass d = Some items → x ∈ items →
  ∃ items', dget artifactclass (foldl (λ d i, dset (ii_artifactclass i)
    (default [] (dget (ii_artifactclass i) d) ++ [enqueue_item path_text root i]) d) d rows) = Some items' ∧ x ∈ items'.
Proof.
  induction rows as [|i rows IH]; intros d artifactclass items x Hd Hx; [by exists items|]. cbn [foldl].
  destruct (decide (ii_artifactclass i = artifactclass)) as [->|Hne].
  - eapply IH; [apply dget_dset_eq|]. rewrite Hd. cbn. set_solver.
  - eapply IH; [|exact Hx]. by rewrite dget_dset_ne.
Qed.

Lemma by_class_complete root rows i :
  i ∈ rows → ∃ items, dget (ii_artifactclass i) (items_by_class path_text root rows) = Some items ∧
    enqueue_item path_text root i ∈ items.
Proof.
  unfold items_by_class. generalize (@nil (string * list EnqueueItem)). induction rows as [|j rows IH]; intros d Hi; [set_solver|].
  cbn [foldl]. apply elem_of_cons in Hi as [->|Hi]; [|by apply IH].
  eapply by_class_keeps; [apply dget_dset_eq|set_solver].
Qed.

Lemma enqueue_classes_spec env root staging_root rem_bin batches : ∀ k t t' k' rs,
  (∀ c n, env_grows (env c n)) → bundles_ok k → tbl_ok (exclusions k) →
  enqueue_classes k t env root staging_root rem_bin batches = (t', BatchDone k' rs) →
  bundles_ok k' ∧ rows_grow k k' ∧
  Forall2 (λ b r, ∃ k1 k2 policy, batch_ok k1 k2 b.1 policy root b.2 rem_bin r ∧ rows_grow k2 k') batches rs.
Proof.
  induction batches as [|[c items] batches IH]; intros k t t' k' rs Henv Hok Hids H; cbn in H.
  { injection H as <- <- <-. split_and!; [done|done|constructor]. }
  destruct (policies k !! c) as [policy|]; [|done].
  destruct (scan_enqueue_batch _ _ _ _ _ _ _ _ _) as [t1 [k1 r|k1 s|e]] eqn:Es; [|done..].
  apply scan_batch_spec in Es; [|done..].
  destruct (enqueue_classes _ _ _ _ _ _ _) as [t2 [k2 rs2|k2 s|e]] eqn:Ec; [|done..]. injection H as <- <- <-.
  apply IH in Ec as (Hok2 & Hg2 & Hall); [|done|apply Es|by apply (rg_ids _ _ (bt_grow _ _ _ _ _ _ _ _ Es))].
  split; [done|]. split; [etrans; [apply Es|done]|]. constructor; [|done]. by exists k, k1, policy.
Qed.

(** The item is withheld by a recorded cluster that covers its path, or is a member with its content. *)
Definition routed (k : Cat) (i : IngestItem) (r : BatchEnqueueResult) : Prop :=
  if covers_any (br_excluded_prefixes r ++ br_blob_prefixes r) (item_member_path i)
  then ∃ prefix, prefix ∈ br_excluded_prefixes r ++ br_blob_prefixes r ∧
    prefix_covers prefix (item_member_path i) = true ∧
    recorded_prefix k (path_text (br_scan_root r)) (ii_artifactclass i) prefix
  else ∃ e, e ∈ br_enqueued r ∧ member_of k (ii_artifactclass i) (ii_logical_asset_hash i) e.

Lemma batch_routes k k' k2 policy root items rem_bin r i :
  batch_ok k k' (ii_artifactclass i) policy root items rem_bin r → rows_grow k' k2 →
  enqueue_item path_text root i ∈ items → routed k2 i r.
Proof.
  intros [_ _ _ Hroot _ Hrec Hall] Hg Hin. unfold routed. destruct (covers_any _ _) eqn:Hc.
  - apply existsb_exists in Hc as (p & Hp%list_elem_of_In & Hcov). exists p. split_and!; [done|done|]. rewrite Hroot.
    rewrite Forall_forall in Hrec. destruct (Hrec p Hp) as [reason Hr]. exists reason.
    by eapply already_recorded_grows; [apply Hg|].
  - assert (Hu : enqueue_item path_text root i ∈ uncovered (br_excluded_prefixes r ++ br_blob_prefixes r) items)
      by by apply list_elem_of_filter.
    apply list_elem_of_lookup_1 in Hu as [n Hn].
    destruct (Forall2_lookup_l _ _ _ _ _ Hall Hn) as (e & He & Hm). exists e.
    split; [by eapply list_elem_of_lookup_2|]. by eapply member_of_grows.
Qed.

(** C11: an enqueued intake loses nothing.  When the batches of an intake succeed, every one of its items
    is accounted for in the batch of its class: it is a bundle member of that class with the item's
    digest, under the name and in the bundle the batch reports, or the scan's verdict on a cluster that
    covers its path is recorded for that class and tree. *)
Theorem intake_batch_complete k t env intake_id staging_root rem_bin t' k' rs :
  (∀ c n, env_grows (env c n)) → bundles_ok k → tbl_ok (exclusions k) →
  enqueue_intake_batch k t env intake_id staging_root rem_bin = (t', BatchDone k' rs) →
  bundles_ok k' ∧ ∀ i, i ∈ intake_items k intake_id →
    ∃ r, r ∈ rs ∧ br_artifactclass r = ii_artifactclass i ∧ routed k' i r.
Proof.
  intros Henv Hok Hids H. unfold ArchiveEnqueue.enqueue_intake_batch in H.
  destruct (intakes k !! intake_id) as [intake|]; [|done]. case_bool; [done|].
  destruct (in_manifest_path intake ≫= non_empty) as [manifest|]; [|done]. cbv zeta in H.
  set (root := path_of _) in H. case_bool; [done|].
  assert (Hcl : enqueue_classes k t env root (default (removelast root ++ [".sutradhara-stage"]) staging_root) rem_bin
    (sort_by fst (items_by_class path_text root (intake_items k intake_id))) = (t', BatchDone k' rs))
    by (by destruct (items_by_class _ _ _)).
  clear H. apply enqueue_classes_spec in Hcl as (Hok' & _ & Hall); [|done..]. split; [done|]. intros i Hi.
  destruct (by_class_complete root _ i Hi) as (items & Hitems%dget_Some_elem & Hin).
  rewrite <- (elem_of_sort_by fst) in Hitems. apply list_elem_of_lookup_1 in Hitems as [n Hn].
  destruct (Forall2_lookup_l _ _ _ _ _ Hall Hn) as (r & Hr & k1 & k2 & policy & Hbatch & Hg).
  exists r. split; [by eapply list_elem_of_lookup_2|]. split; [apply Hbatch|]. by eapply batch_routes.
Qed.

End facts.
