(* ===== verification/EngineWitnesses.v ===== *)
(** * Concrete runs of the job engine, the worker and the reconciliation spine

    Small databases on which the theorems of the engine, the scheduler, the worker's life and the
    spine apply: each lemma discharges the theorem's hypotheses on the concrete input. *)

From S2P Require Import Prelude Json JobModels Catalog Leases RetryConfig Conditions Engine.
From S2P Require Import EngineFacts Worker WorkerFacts SchedulerFacts WorkerLife Spine SpineFacts.

Definition demo_uniform (lo hi : Z) : Z := lo.
Definition demo_iso (t : time) : string := "t".
Definition demo_text (k : string) : string := "no handler".
Definition demo_never (r : dict Z) : string := "never".
Definition demo_gates (k : string) : option DispatchGate := None.

Definition needs (pool : string) (n : Z) : json := JObj [("pool", JStr pool); ("count", JInt n)].

Definition demo_spec (rs : list json) (key : option string) : SubmitSpec := {|
  sb_kind := "copy.verify"; sb_params := [("copy_id", JInt 7)]; sb_required_resources := rs;
  sb_prerequisites := []; sb_not_before := None; sb_priority := 100; sb_dedupe_key := key;
  sb_recon_domain := None; sb_recon_target_key := None |}.

Definition cpu_spec : SubmitSpec := demo_spec [needs "cpu" 1] (Some "verify:7").

(** One job submitted, then claimed. *)
Definition pending_db : JobDB := (submit1 empty_jobdb cpu_spec 100).1.
Definition running_db : JobDB :=
  match claim_job_by_id pending_db 1 200 with Some (db, _) => db | None => pending_db end.
Definition in_db (db : JobDB) : Database := {| cat := empty_cat; jobs := db |}.
Definition running_row : Job := set_claimed (new_job cpu_spec 100) 200.

Lemma empty_engine_ok : engine_ok empty_jobdb.
Proof. split; [split; [constructor|]|constructor]; intros; cbn in *; rewrite ?lookup_empty in *; done. Qed.

Lemma pending_engine_ok : engine_ok pending_db.
Proof. apply submit_engine_ok, empty_engine_ok. Qed.

Lemma running_engine_ok : engine_ok running_db.
Proof. eapply (claim_engine_ok pending_db 1 200); [reflexivity|apply pending_engine_ok]. Qed.

(** A handler that returns a result, and one that raises; both leave the tables alone. *)
Definition ending_handler (e : HandlerEnd) : JobHandler := λ ctx id d,
  (d, {| hr_ctx := ctx; hr_end := e; hr_batch_touched := false; hr_failed_batch_state := None |}).
Definition ending_with (e : HandlerEnd) (k : string) : option JobHandler := Some (ending_handler e).

Definition good_result : JobResult :=
  {| jr_ok := true; jr_detail := "done"; jr_step_state := [("step", JInt 1)]; jr_condition := None |}.
Definition returns : HandlerEnd := HReturn good_result.
Definition raises : HandlerEnd := HRaise "boom" "trace" false.

Lemma ending_framed e : handlers_framed (ending_with e).
Proof. intros k h ctx i d [= <-]. apply handler_frame_refl. Qed.

Definition demo_caps : gmap string Z := <["cpu" := 2]> {["io" := 1]}.
Definition demo_manager : LeaseManager :=
  match lease_manager_init demo_caps with Ok m => m | Err _ => {| capacities := ∅; leased := ∅ |} end.
Definition demo_config : WorkerConfig := {|
  wc_capacities := [("cpu", 2); ("io", 1)]; wc_retry := {| max_attempts := 3; backoff_seconds := 30 |};
  wc_per_kind_retry := []; wc_aging_threshold_scans := 3; wc_executor_workers := None;
  wc_max_backoff_seconds := 3600 |}.

(** ** Leases, conditions and submission *)

Lemma demo_manager_init : lease_manager_init demo_caps = Ok demo_manager.
Proof. vm_compute. reflexivity. Qed.

Lemma lease_accounting_witness :
  ∃ m' g, reserve demo_manager [("cpu", 2)] = Ok (m', g) ∧
    used m' "cpu" = granted_sum "cpu" [g] ∧ (release m' g).2 = None.
Proof.
  destruct (reserve demo_manager [("cpu", 2)]) as [[m' g]|] eqn:Er; [|run_ok Er].
  exists m', g. split; [done|].
  destruct (lease_accounting demo_caps demo_manager {| ls_manager := m'; ls_grants := [g] |} "cpu"
    demo_manager_init) as (Hused & _ & Hrel).
  { apply rtc_once. eapply (step_reserve demo_manager [] [needs "cpu" 2]); [reflexivity|exact Er]. }
  split; [exact Hused|]. apply Hrel. left.
Defined.

Definition gap_db : JobDB :=
  (record_observation empty_jobdb 100 "bundle_copy" "b1" true OBSERVED_MISSING None None).1.

Lemma conditions_well_formed_witness :
  ∃ row, cond_tbl gap_db !! ("bundle_copy", "b1") = Some row ∧ rc_condition row = OPEN ∧
    cond_wf row.
Proof.
  destruct (cond_tbl gap_db !! ("bundle_copy", "b1")) as [row|] eqn:E; [|run_ok E].
  exists row. split; [done|]. split; [vm_compute in E; by injection E as <-|].
  eapply (conditions_well_formed demo_uniform demo_iso gap_db); [|exact E].
  apply rtc_once. apply cs_observe.
Defined.

Lemma backoff_escalation_witness :
  ∃ row', cond_tbl (foldl (fail_once demo_uniform "bundle_copy" "b1") gap_db
                      [(200, None, None); (300, None, None); (400, None, None)])
            !! ("bundle_copy", "b1") = Some row' ∧
    rc_attempt_count row' = 3 ∧ rc_condition row' = BLOCKED.
Proof.
  destruct (cond_tbl gap_db !! ("bundle_copy", "b1")) as [row|] eqn:E; [|run_ok E].
  destruct (backoff_escalation demo_uniform "bundle_copy" "b1" gap_db row
    [(200, None, None); (300, None, None); (400, None, None)] E) as (row' & ? & ? & _ & ?);
    [vm_compute in E; by injection E as <-|done|eauto].
Defined.

(** Another process commits the same key between the check and the flush. *)
Lemma submit_dedupes_witness :
  ∃ db' id j, submit empty_jobdb (λ db, (submit1 db cpu_spec 50).1) cpu_spec 100 = Ok (db', id) ∧
    job_tbl db' !! id = Some j ∧ live (status j) = true ∧
    submit db' (λ db, db) cpu_spec 300 = Ok (db', id).
Proof.
  destruct (submit_dedupes empty_jobdb (λ db, (submit1 db cpu_spec 50).1) cpu_spec 100)
    as (db' & id & j & H1 & _ & H2 & H3 & _ & H4).
  - apply empty_engine_ok.
  - apply submit_engine_ok, empty_engine_ok.
  - exists db', id, j. split_and!; [done..|]. apply H4. by eexists.
Defined.

(** ** Runs *)

Lemma run_one_records_one_attempt_witness :
  ∃ d' r, run_one demo_uniform "host" "w1" "v1" (ending_with returns) demo_text
            (in_db running_db) (in_db running_db) 1 [("cpu", 1)] 200 300 = Ok (d', r) ∧
    ∃ j' a, job_tbl (jobs d') !! 1 = Some j' ∧ status j' = SUCCEEDED ∧
      attempt_tbl (jobs d') = <[1 := a]> ∅ ∧ at_number a = attempts j'.
Proof.
  destruct (run_one demo_uniform "host" "w1" "v1" (ending_with returns) demo_text
    (in_db running_db) (in_db running_db) 1 [("cpu", 1)] 200 300) as [[d' r]|] eqn:E; [|run_ok E].
  exists d', r. split; [done|].
  assert (Hr : jr_ok r = true) by (vm_compute in E; by injection E as <- <-).
  destruct (run_one_records_one_attempt demo_uniform "host" "w1" "v1" (ending_with returns)
    demo_text (in_db running_db) (in_db running_db) 1 [("cpu", 1)] 200 300 d' r
    (ending_framed returns) eq_refl E) as (j' & a & H1 & H2 & H3 & _ & H4 & _).
  exists j', a. rewrite Hr in H2. auto.
Defined.

Lemma raising_handler_rolls_back_witness :
  ∃ d' r, run_one demo_uniform "host" "w1" "v1" (ending_with raises) demo_text
            (in_db running_db) (in_db running_db) 1 [("cpu", 1)] 200 300 = Ok (d', r) ∧
    jr_ok r = false ∧ cat d' = empty_cat ∧
    ∃ j', job_tbl (jobs d') !! 1 = Some j' ∧ status j' = FAILED.
Proof.
  destruct (run_one demo_uniform "host" "w1" "v1" (ending_with raises) demo_text
    (in_db running_db) (in_db running_db) 1 [("cpu", 1)] 200 300) as [[d' r]|] eqn:E; [|run_ok E].
  exists d', r. split; [done|].
  destruct (raising_handler_rolls_back demo_uniform "host" "w1" "v1" (ending_with raises) demo_text
    (in_db running_db) (in_db running_db) 1 [("cpu", 1)] 200 300 d' r E)
    as (Hc & Hr & _ & j & j' & _ & Hj & Hs & _); [|by eauto 7].
  intros j h ctx db _ [= <-]. exact I.
Defined.

(** ** The scheduler *)

Lemma demo_manager_acct : lease_acct {| ls_manager := demo_manager; ls_grants := [] |}.
Proof. eapply lease_init_acct, demo_manager_init. Qed.

Notation demo_claim := (claim_available demo_uniform "host" "w1" "v1" demo_gates demo_never).
Notation demo_scan := (scan demo_uniform "host" "w1" "v1" demo_never).

Lemma claim_pass_sound_witness :
  ∃ b' m' d', demo_claim 2 3 200 false (in_db pending_db) demo_manager ∅
                = (b', m', Ok (d', [(1, [("cpu", 1)])])) ∧
    pass_done (in_db pending_db) demo_manager [] 200 d' m' [(1, [("cpu", 1)])].
Proof.
  destruct (demo_claim 2 3 200 false (in_db pending_db) demo_manager ∅) as [[b' m'] r] eqn:E.
  pose proof (claim_pass_sound demo_uniform "host" "w1" "v1" demo_gates demo_never
    2 3 200 false (in_db pending_db) demo_manager ∅ [] b' m' r E pending_engine_ok
    demo_manager_acct) as H.
  destruct r as [[d' claimed]|]; [|run_ok E].
  assert (Hc : claimed = [(1, [("cpu", 1)])]) by (vm_compute in E; by injection E).
  subst claimed. exists b', m', d'. split; [done|]. apply H.
Defined.

(** One unit of [cpu] is out; a job for two waits, a job for one passes it. *)
Definition busy_manager : LeaseManager :=
  match reserve demo_manager [("cpu", 1)] with Ok (m, _) => m | Err _ => demo_manager end.
Definition two_cands : list (Z * Job) :=
  [(1, new_job (demo_spec [needs "cpu" 2] None) 100); (2, new_job (demo_spec [needs "cpu" 1] None) 101)].
Definition two_db : JobDB :=
  (submit1 (submit1 empty_jobdb (demo_spec [needs "cpu" 2] None) 100).1
     (demo_spec [needs "cpu" 1] None) 101).1.

Lemma aging_bounds_overtaking_witness :
  ∃ b, blocked_history demo_uniform "host" "w1" "v1" demo_never 3 1 ∅ 1 ∧
       b = blocked_count ∅ 1 + 1 ∧ b < 3.
Proof.
  assert (H : blocked_history demo_uniform "host" "w1" "v1" demo_never 3 1 ∅ 1).
  { destruct (demo_scan 3 200 (in_db two_db) busy_manager ∅ two_cands) as [b' r] eqn:E.
    destruct r as [[[d' m'] [[id g]|]]|]; [|run_ok E..].
    assert (Hid : id = 2) by (vm_compute in E; by injection E). subst id.
    eapply history_overtaken; [exact E| | | |apply history_nil].
    - change (NoDup [1; 2]). apply (bool_decide_unpack _). by vm_compute.
    - eexists _, _. split; [left|]. split; [reflexivity|]. vm_compute. auto.
    - eexists [], _, _. split; [reflexivity|]. left. }
  eexists. split; [exact H|]. split; [reflexivity|].
  destruct (aging_bounds_overtaking demo_uniform "host" "w1" "v1" demo_gates demo_never 3 1 ∅ 1 H)
    as [?|Hlt]; [done|exact Hlt].
Defined.

Definition bad_db : JobDB := (submit1 empty_jobdb (demo_spec [JStr "cpu"] None) 100).1.

Lemma malformed_job_stops_scheduler_witness :
  ∃ e, demo_claim 1 3 200 false (in_db bad_db) demo_manager ∅ =
         (∅, demo_manager, Err (LeaseFailure e)).
Proof.
  destruct (normalize_required_resources [JStr "cpu"]) as [|e] eqn:En; [run_ok En|].
  exists e. eapply (malformed_job_stops_scheduler demo_uniform "host" "w1" "v1" demo_gates demo_never
    1 3 200 false (in_db bad_db) demo_manager ∅ 1 (new_job (demo_spec [JStr "cpu"] None) 100) e []).
  - lia.
  - vm_compute. reflexivity.
  - exact En.
Defined.

(** ** The worker *)

Notation demo_execute_once := (execute_job_once demo_uniform "host" "w1" "v1" demo_text).
Notation demo_execute := (execute_job demo_uniform "host" "w1" "v1" demo_text).

Lemma running_lookup : job_tbl (jobs (in_db running_db)) !! 1 = Some running_row.
Proof. vm_compute. reflexivity. Qed.

Lemma retry_never_conflicts_witness :
  demo_execute_once (ending_with raises) demo_config (in_db running_db) 1 [("cpu", 1)] 200 300
    ≠ Err IntegrityError.
Proof.
  apply (retry_never_conflicts demo_uniform "host" "w1" "v1" demo_gates demo_text (ending_with raises)
    demo_config (in_db running_db) 1 [("cpu", 1)] 200 300 running_row
    (ending_framed raises) running_lookup eq_refl running_engine_ok).
Defined.

Lemma failed_attempt_outcome_witness :
  ∃ d' r j', demo_execute_once (ending_with raises) demo_config (in_db running_db) 1 [("cpu", 1)]
               200 300 = Ok (d', r) ∧
    job_tbl (jobs d') !! 1 = Some j' ∧ status j' = PENDING.
Proof.
  destruct (demo_execute_once (ending_with raises) demo_config (in_db running_db) 1 [("cpu", 1)]
    200 300) as [[d' r]|] eqn:E; [|run_ok E].
  assert (Hr : jr_ok r = false) by (vm_compute in E; by injection E as <- <-).
  destruct (job_tbl (jobs d') !! 1) as [j'|] eqn:Ej.
  2: { exfalso. vm_compute in E. injection E as <- <-. vm_compute in Ej. discriminate Ej. }
  exists d', r, j'. split; [done|]. split; [done|].
  destruct (failed_attempt_outcome demo_uniform "host" "w1" "v1" demo_text (ending_with raises)
    demo_config (in_db running_db) 1 [("cpu", 1)] 200 300 d' r running_row j'
    (ending_framed raises) E running_lookup eq_refl running_engine_ok Hr Ej) as [_ H].
  assert (Hk : retry_for_kind demo_config (kind j') = wc_retry demo_config)
    by (unfold retry_for_kind; reflexivity).
  rewrite Hk in H. cbn in H. apply H.
Defined.

Lemma replay_records_once_witness :
  ∃ d' o, demo_execute (λ _, ending_with raises) (λ i, bool_decide (i < 2)%nat) false demo_config
            (in_db running_db) 1 [("cpu", 1)] 200 300 = Ok (d', o) ∧
    ∃ a, attempt_tbl (jobs d') = <[1 := a]> ∅ ∧ at_job_id a = 1 ∧ at_number a = 1.
Proof.
  destruct (demo_execute (λ _, ending_with raises) (λ i, bool_decide (i < 2)%nat) false demo_config
            (in_db running_db) 1 [("cpu", 1)] 200 300) as [[d' o]|] eqn:E; [|run_ok E].
  exists d', o. split; [done|].
  assert (Hp : wo_failure_record_pending o = false) by (vm_compute in E; by injection E as <- <-).
  pose proof (replay_records_once demo_uniform "host" "w1" "v1" demo_text
    (λ _, ending_with raises) (λ i, bool_decide (i < 2)%nat) false demo_config (in_db running_db)
    1 [("cpu", 1)] 200 300 d' o running_row (λ _, ending_framed raises) E running_lookup eq_refl
    running_engine_ok) as H.
  rewrite Hp in H. exact H.
Defined.

Lemma worker_life_invariant_witness :
  ∃ w, rtc (worker_step demo_uniform demo_iso "host" "w1" "v1" demo_gates demo_text demo_never)
         (fresh_worker (in_db empty_jobdb) demo_manager) w ∧
    owned w = [1] ∧ used (ws_leases w) "cpu" = 1 ∧ row_running (jobs (ws_db w)) 1.
Proof.
  destruct (demo_claim 2 3 200 false (in_db pending_db) demo_manager ∅) as [[b' m'] r] eqn:E.
  destruct r as [[d' claimed]|]; [|run_ok E].
  assert (Hc : claimed = [(1, [("cpu", 1)])]) by (vm_compute in E; by injection E).
  assert (Hsteps : rtc (worker_step demo_uniform demo_iso "host" "w1" "v1" demo_gates demo_text
      demo_never) (fresh_worker (in_db empty_jobdb) demo_manager)
      {| ws_db := d'; ws_running := claimed ++ []; ws_pending_failures := []; ws_leases := m';
         ws_blocked := b' |}).
  { eapply rtc_l; [apply (ws_submit _ _ _ _ _ _ _ _ (in_db empty_jobdb) [] [] demo_manager ∅ cpu_spec 100)|].
    apply rtc_once. eapply (ws_claim _ _ _ _ _ _ _ _ (in_db pending_db)). exact E. }
  eexists. split; [exact Hsteps|]. subst claimed.
  destruct (worker_life_invariant demo_uniform demo_iso "host" "w1" "v1" demo_gates demo_text
    demo_never (in_db empty_jobdb) demo_caps demo_manager _ empty_engine_ok demo_manager_init Hsteps)
    as (_ & _ & Hl & _ & Hrun).
  split; [reflexivity|]. split; [by destruct (Hl "cpu") as [-> _]|]. apply Hrun. left.
Defined.

(** ** The spine, with a reconciler that enqueues one job per missing target *)

Definition missing_target (t : string) : TargetObservation :=
  {| to_target_key := t; to_desired := true; to_observed_state := OBSERVED_MISSING |}.

Definition enqueue_spec (t : string) : SubmitSpec := {|
  sb_kind := "demo.copy"; sb_params := []; sb_required_resources := []; sb_prerequisites := [];
  sb_not_before := None; sb_priority := 100; sb_dedupe_key := Some ("demo:" +:+ t);
  sb_recon_domain := Some "demo"; sb_recon_target_key := Some t |}.

Definition demo_reconciler : Reconciler := {|
  enumerate_targets := λ d _ _, Ok [missing_target "b1"; missing_target "b2"];
  observe := λ d t, Ok (missing_target t);
  reconcile_target := λ d t now, Ok (with_jobdb (submit1 (jobs d) (enqueue_spec t) now).1 d);
  classify_condition := None |}.

#[local] Instance demo_laws : ReconcilerLaws "demo" demo_reconciler.
Proof.
  constructor; cbn; [done|].
  intros d t now d' [= <-]. right. exists (enqueue_spec t), now. by split_and!.
Qed.

Definition demo_registry : gmap string Reconciler := {["demo" := demo_reconciler]}.

Lemma discover_tracks_gaps_witness :
  ∃ d' n, discover demo_registry (in_db empty_jobdb) "demo" 10 None (λ _, 100) = Ok (d', n) ∧
    n = 2 ∧ ∃ row, cond_tbl (jobs d') !! ("demo", "b2") = Some row ∧
                   gap_tracked None (missing_target "b2") row.
Proof.
  destruct (discover demo_registry (in_db empty_jobdb) "demo" 10 None (λ _, 100)) as [[d' n]|] eqn:E;
    [|run_ok E].
  exists d', n. split; [done|].
  destruct (discover_tracks_gaps demo_registry (in_db empty_jobdb) "demo" 10 None (λ _, 100)
    demo_reconciler [missing_target "b1"; missing_target "b2"] d' n) as (_ & _ & Hn & Hrows).
  - reflexivity.
  - reflexivity.
  - reflexivity.
  - change (NoDup ["b1"; "b2"]). apply (bool_decide_unpack _). by vm_compute.
  - intros k row. cbn. by rewrite lookup_empty.
  - exact E.
  - split; [exact Hn|]. apply (Hrows (missing_target "b2")). right. left.
Defined.

Definition due_db : JobDB :=
  (record_observation empty_jobdb 100 "demo" "b1" true OBSERVED_MISSING None None).1.

Lemma due_jobs_empty i : job_tbl due_db !! i = None.
Proof. exact (lookup_empty (M := gmap Z) i). Qed.

Lemma due_attempts_empty i : attempt_tbl due_db !! i = None.
Proof. exact (lookup_empty (M := gmap Z) i). Qed.

Lemma due_ids_ok : jobdb_ids_ok due_db.
Proof. constructor; intros i j; [by rewrite due_jobs_empty|by rewrite due_attempts_empty]. Qed.

Lemma process_single_flight_witness :
  ∃ d' n, process demo_registry (in_db due_db) "demo" 10 200 (λ _, (205, 210)) = Ok (d', n) ∧
    single_flight (jobs d') ∧ ∃ j, job_tbl (jobs d') !! 1 = Some j ∧ status j = PENDING.
Proof.
  destruct (process demo_registry (in_db due_db) "demo" 10 200 (λ _, (205, 210))) as [[d' n]|] eqn:E;
    [|run_ok E].
  exists d', n. split; [done|].
  destruct (process_single_flight demo_registry (in_db due_db) "demo" 10 200 (λ _, (205, 210)) d' n
    demo_reconciler eq_refl demo_laws) as (Hsf & _ & _ & Hnew).
  - exact due_ids_ok.
  - exact E.
  - split; [apply Hsf; intros ??????; cbn [jobs in_db]; by rewrite due_jobs_empty|].
    destruct (job_tbl (jobs d') !! 1) as [j|] eqn:Ej.
    2: { exfalso. vm_compute in E. injection E as <- <-. vm_compute in Ej. discriminate Ej. }
    exists j. split; [done|]. by destruct (Hnew 1 j Ej eq_refl) as (? & ? & _ & ? & _).
Defined.
