(* ===== verification/ArchiveWitnesses.v ===== *)
(** * Concrete catalogs for the archive theorems

    One artifactclass placed on a disk pool and a tape pool, one sealed bundle with one member and
    a verified copy in each pool, and small variations of it. *)

From S2P Require Import Prelude Json JsonText JobModels Catalog Leases RetryConfig Conditions.
From S2P Require Import Engine EngineFacts Spine SpineFacts Durability DurabilityFacts.
From S2P Require Import ArchivePredicate BundleCopy BundleCopyFacts Copies CopiesFacts.
From S2P Require Import Scrub ScrubFacts BundleGroup BundleGroupFacts.

(** ** The catalog *)

Definition disk_pool : Pool := {|
  pl_backend_id := 1; pl_representation := "raw-bytes"; pl_location := "vault-a";
  pl_offsite_gate := false; pl_tier := "nearline"; pl_accepts_writes := true; pl_retired := false;
  pl_min_object_bytes := None |}.
Definition tape_pool : Pool := {|
  pl_backend_id := 2; pl_representation := "raw-bytes"; pl_location := "vault-b";
  pl_offsite_gate := true; pl_tier := "cold"; pl_accepts_writes := true; pl_retired := false;
  pl_min_object_bytes := Some 4000 |}.

Definition masters_policy (min_copies : Z) : ArtifactClassPolicyRecord := {|
  pr_bundle_group := None; pr_target_bytes := 1000; pr_max_age_seconds := 3600;
  pr_min_copies := min_copies; pr_min_impl_families := 1; pr_ruleset := "";
  pr_expect := "messy"; pr_restore_preference := ["disk"]; pr_staging_config := []; pr_hdcache_config := [];
  pr_policy_source := None; pr_policy_sha256 := None |}.

Definition membership (n : Z) : ArtifactClassPool :=
  {| acp_id := n; acp_role := None; acp_active := true; acp_sort_order := n |}.

Definition demo_bundle : Bundle := {|
  bu_bundle_group := "g"; bu_group_basis := JNull; bu_status := "sealed"; bu_total_bytes := 10;
  bu_member_count := 1; bu_target_bytes := 1000; bu_max_age_seconds := 3600;
  bu_archive_id := Some "a1"; bu_claimed_by := None; bu_opened_at := 0; bu_flushed_at := Some 1;
  bu_sealed_at := Some 2; bu_held_at := None; bu_review_summary := None; bu_scan_summary := None;
  bu_customer_manifest_path := None |}.

Definition demo_member : BundleMember := {|
  bm_bundle_id := "b1"; bm_logical_asset_hash := hash_a; bm_artifactclass := "masters";
  bm_member_path := "x.mov"; bm_source_path := None; bm_size_bytes := 10;
  bm_file_sha256 := hash_a; bm_source_metadata := None |}.

Definition bundle_copy_at (backend : Z) (pool : string) (locator : dict json) : Copy := {|
  cp_logical_asset_hash := None; cp_bundle_id := Some "b1"; cp_backend_id := backend;
  cp_pool_id := Some pool; cp_native_locator := locator;
  cp_native_locator_key := locator_key locator; cp_storage_metadata := [];
  cp_integrity_hash := hash_b; cp_integrity_hash_provenance := LOCALLY_COMPUTED;
  cp_health := HEALTH_OK; cp_last_checked_at := Some 3; cp_last_measured_digest := Some hash_b;
  cp_last_measured_at := Some 3; cp_deleted_at := None; cp_first_observed_at := 2;
  cp_source := INGEST |}.

Definition disk_copy : Copy := bundle_copy_at 1 "disk" [("path", JStr "b1.rao")].
Definition tape_copy : Copy := bundle_copy_at 2 "tape" [("tape_uuid", JStr "T1")].

Definition demo_cat (rows : gmap Z Copy) : Cat := {|
  assets := {[hash_a := {| la_size_bytes := 10; la_first_seen_at := 0 |}]};
  backends := <[1 := {| be_name := "disk"; be_kind := PLAIN_DISK; be_implementation_family := "disk" |}]>
              {[2 := {| be_name := "lto"; be_kind := REM_TAPE; be_implementation_family := "tape" |}]};
  pools := <["disk" := disk_pool]> {["tape" := tape_pool]};
  acpools := <[("masters", "disk") := membership 1]> {[("masters", "tape") := membership 2]};
  policies := {["masters" := masters_policy 1]}; bundles := {["b1" := demo_bundle]};
  members := {| t_rows := {[1 := demo_member]}; t_next := 2 |};
  copies := {| t_rows := rows; t_next := 3 |};
  locators := tbl_empty; blob_roots := tbl_empty; receipts := tbl_empty; intakes := ∅;
  items := tbl_empty; submission_members := tbl_empty; va_members := tbl_empty;
  transforms := tbl_empty; exclusions := tbl_empty; arrangements := tbl_empty; offsite := ∅;
  events := tbl_empty; arrangement_members := tbl_empty; submissions := ∅;
  derivations := tbl_empty |}.

Definition both_copies : gmap Z Copy := <[1 := disk_copy]> {[2 := tape_copy]}.
Definition demo_data (rows : gmap Z Copy) : Database := {| cat := demo_cat rows; jobs := empty_jobdb |}.

Lemma demo_cat_fk rows : cat_fk (demo_cat rows).
Proof.
  constructor; cbn.
  - intros cls p m H. apply lookup_insert_Some in H as [[[= <- <-] _]|[_ H]]; [by eexists|].
    apply lookup_singleton_Some in H as [[= <- <-] _]. by eexists.
  - intros p pl H. apply lookup_insert_Some in H as [[<- <-]|[_ H]]; [by eexists|].
    apply lookup_singleton_Some in H as [<- <-]. by eexists.
  - intros p pl H. apply lookup_insert_Some in H as [[<- <-]|[_ H]]; [left|].
    apply lookup_singleton_Some in H as [<- <-]. left.
Qed.

Lemma demo_copies_ok : tbl_ok (copies (demo_cat both_copies)).
Proof.
  intros i c H. cbn in H. unfold both_copies in H. apply lookup_insert_Some in H as [[<- _]|[_ H]]; [cbn; lia|].
  apply lookup_singleton_Some in H as [<- _]. cbn; lia.
Qed.

Lemma demo_copies_unique : copies_unique (demo_cat both_copies).
Proof.
  intros i i' c c' H H' Hb _. cbn in H, H'. unfold both_copies in *.
  apply lookup_insert_Some in H as [[<- <-]|[_ H]];
    apply lookup_insert_Some in H' as [[<- <-]|[_ H']];
    try (apply lookup_singleton_Some in H as [<- <-]);
    try (apply lookup_singleton_Some in H' as [<- <-]); done.
Qed.

(** ** Durability *)

Lemma aggregates_agree_witness :
  ∃ ag, bundle_copy_aggregates_by_bundle (demo_cat both_copies) ["b1"] true !! "b1" = Some ag ∧
    bundle_copy_counts_by_pool (demo_cat both_copies) ["b1"] true !! "b1" = Some (ag_counts ag).
Proof.
  destruct (aggregates_agree (demo_cat both_copies) ["b1"] true "b1") as (ag & H1 & H2 & _);
    [left|eauto].
Defined.

Lemma bundle_status_complete_witness :
  ∃ st, bundle_replication_status (demo_cat both_copies) "b1" true = Ok st ∧
    ps_want st ≡ₚ ps_have st ++ ps_missing st.
Proof.
  destruct (bundle_status_complete (demo_cat both_copies) "b1" demo_bundle true
    (demo_cat_fk both_copies)) as (st & H1 & _ & H2); [reflexivity| |eauto].
  intros cls Hcls. assert (Heq : bundle_artifactclasses (demo_cat both_copies) "b1" demo_bundle =
    ["masters"]) by (vm_compute; reflexivity).
  rewrite Heq in Hcls. apply list_elem_of_singleton in Hcls as ->.
  exists "disk", (membership 1). split; reflexivity.
Defined.

(** ** The bundle-copy reconciler *)

Lemma enumerate_agrees_observe_witness :
  ∃ o, o ∈ enumerate_bundles (demo_data both_copies) None 10 ∧
       observe_bundle (demo_data both_copies) "b1" = o.
Proof.
  assert (Hl : enumerate_bundles (demo_data both_copies) None 10 =
    [{| to_target_key := "b1"; to_desired := true; to_observed_state := OBSERVED_PRESENT |}])
    by (vm_compute; reflexivity).
  eexists. split; [rewrite Hl; left|].
  apply (enumerate_agrees_observe (demo_data both_copies) None 10
    {| to_target_key := "b1"; to_desired := true; to_observed_state := OBSERVED_PRESENT |}).
  rewrite Hl. left.
Defined.

Lemma demo_floor :
  (bundle_desired_and_floor (demo_cat both_copies) "b1" demo_bundle).2 =
  {| fl_min_copies := 1; fl_min_impl_families := 1 |}.
Proof. vm_compute. reflexivity. Qed.

Lemma demo_desired :
  bool_decide ((bundle_desired_and_floor (demo_cat both_copies) "b1" demo_bundle).1 !! (1, "disk")
               = None) = false.
Proof. vm_compute. reflexivity. Qed.

Lemma bundle_present_spec_witness :
  floor_met {| fl_min_copies := 1; fl_min_impl_families := 1 |}
    (reconciler_aggregate (demo_data both_copies) "b1").
Proof.
  pose proof (bundle_present_spec (demo_data both_copies) "b1" demo_bundle eq_refl eq_refl) as H.
  pose proof demo_floor as Hfl. pose proof demo_desired as Hd. cbn [cat demo_data] in H.
  destruct (bundle_desired_and_floor (demo_cat both_copies) "b1" demo_bundle) as [desired fl].
  cbn [fst snd] in Hfl, Hd. destruct H as [_ [Hp _]].
  { intros ->. by rewrite lookup_empty in Hd. }
  rewrite <- Hfl. apply Hp. vm_compute. reflexivity.
Defined.

(** Two copies in one pool. *)
Definition twin_copies : gmap Z Copy :=
  <[1 := disk_copy]> {[2 := bundle_copy_at 1 "disk" [("path", JStr "b1-again.rao")]]}.

Lemma deficient_bundle_parked_witness :
  ∃ d', process_target (bundle_copy_reconciler (λ lo _, lo)) DOMAIN (demo_data twin_copies) 100 110
          "b1" = Ok d' ∧
    ∃ row, cond_tbl (jobs d') !! (DOMAIN, "b1") = Some row ∧ rc_condition row = BLOCKED.
Proof.
  destruct (process_target (bundle_copy_reconciler (λ lo _, lo)) DOMAIN (demo_data twin_copies)
    100 110 "b1") as [d'|] eqn:E; [|run_ok E].
  exists d'. split; [done|].
  destruct (deficient_bundle_parked (λ lo _, lo) (demo_data twin_copies) 100 110 "b1" d')
    as (_ & _ & row & ? & ? & _); [vm_compute; eauto|exact E|eauto].
Defined.

Lemma present_implies_evidence_witness :
  hash_archive_evidence_exists (cat (demo_data both_copies)) hash_a = true.
Proof.
  apply (present_implies_evidence (demo_data both_copies) "b1" demo_bundle 1 demo_member
    (masters_policy 1)); vm_compute; reflexivity.
Defined.

(** ** Locators, copies and evidence *)

Lemma locator_key_canonical_witness :
  locator_key [("tape", JStr "T1"); ("pos", JInt 3)] = locator_key [("pos", JInt 3); ("tape", JStr "T1")].
Proof.
  apply (locator_key_canonical [("tape", JStr "T1"); ("pos", JInt 3)]
    [("pos", JInt 3); ("tape", JStr "T1")]); [reflexivity..| | |].
  - change (NoDup ["tape"; "pos"]). apply (bool_decide_unpack _). by vm_compute.
  - change (NoDup ["pos"; "tape"]). apply (bool_decide_unpack _). by vm_compute.
  - intros key. cbn. by repeat case_decide; subst.
Defined.

Definition demo_spec_copy : CopySpec := {|
  cs_backend_id := 1; cs_pool_id := Some "disk"; cs_native_locator := [("path", JStr "x.mov")];
  cs_integrity_hash := hash_a; cs_source := INGEST; cs_health := HEALTH_OK;
  cs_provenance := LOCALLY_COMPUTED; cs_storage_metadata := []; cs_first_observed_at := None |}.

Lemma add_copy_idempotent_witness :
  ∃ k' id c, add_copy (demo_cat both_copies) hash_a demo_spec_copy 10 = Ok (k', (id, c), true) ∧
    measured c = false ∧ add_copy k' hash_a demo_spec_copy 20 = Ok (k', (id, c), false).
Proof.
  destruct (add_copy (demo_cat both_copies) hash_a demo_spec_copy 10) as [[[k' [id c]] created]|]
    eqn:E; [|run_ok E].
  assert (Hc : created = true) by (vm_compute in E; by injection E). subst created.
  exists k', id, c. split; [done|].
  destruct (add_copy_idempotent (demo_cat both_copies) hash_a demo_spec_copy 10 k' id c true
    demo_copies_ok demo_copies_unique E) as (_ & _ & (Hm & _) & Hrep). auto.
Defined.

Definition good_reading : VerifyResult :=
  {| vf_ok := true; vf_measured := true; vf_actual_hash := Some hash_b; vf_detail := "" |}.

Lemma no_receipts : receipts_unique (demo_cat both_copies).
Proof. intros i i' r r' H. cbn in H. by rewrite lookup_empty in H. Qed.

Lemma no_receipts_ok : tbl_ok (receipts (demo_cat both_copies)).
Proof. intros i r H. cbn in H. by rewrite lookup_empty in H. Qed.

Lemma record_measured_sound_witness :
  ∃ k' rid rc, record_measured "p" (demo_cat both_copies) 1 good_reading "verify-job" "e1" None 50
                 = Ok (k', (rid, rc)) ∧
    vr_measured_digest rc = Some hash_b ∧
    ∃ c', t_rows (copies k') !! 1 = Some c' ∧ copy_health_filter true c' = true.
Proof.
  destruct (record_measured "p" (demo_cat both_copies) 1 good_reading "verify-job" "e1" None 50)
    as [[k' [rid rc]]|] eqn:E; [|run_ok E].
  exists k', rid, rc. split; [done|].
  destruct (record_measured_sound "p" (demo_cat both_copies) 1 good_reading "verify-job" "e1" None 50
    k' rid rc disk_copy hash_b no_receipts_ok no_receipts E) as (_ & _ & _ & _ & _ & Hm & _ & Hc & _);
    [vm_compute; reflexivity..|].
  split; [done|]. destruct Hc as (c' & Hc' & _ & Hf & _). exists c'. split; [done|].
  apply Hf. split_and!; try done. by left.
Defined.

Definition trust_reading : VerifyResult :=
  {| vf_ok := true; vf_measured := false; vf_actual_hash := None; vf_detail := "" |}.

Lemma empty_index_ok : job_index_ok empty_jobdb.
Proof. split; [constructor|]; intros; cbn in *; rewrite ?lookup_empty in *; done. Qed.

Lemma promotion_invalidates_witness :
  ∃ d' rc job, record_unmeasured_promotion "p" (demo_data both_copies) 1 trust_reading "scrub" "e1"
                 None 50 = Ok (d', rc, job) ∧
    ∃ c', t_rows (copies (cat d')) !! 1 = Some c' ∧ copy_health_filter true c' = false.
Proof.
  destruct (record_unmeasured_promotion "p" (demo_data both_copies) 1 trust_reading "scrub" "e1"
    None 50) as [[[d' rc] job]|] eqn:E; [|run_ok E].
  exists d', rc, job. split; [done|].
  destruct (promotion_invalidates "p" (demo_data both_copies) 1 trust_reading "scrub" "e1" None 50
    d' rc job disk_copy empty_index_ok E) as ((c' & Hc & _ & _ & Hf & _) & _);
    [vm_compute; reflexivity..|eauto].
Defined.

(** ** The scrub *)

Lemma scrub_keeps_history_witness :
  ∃ d' rep, scrub_backend "p" (demo_data both_copies) 1 "disk" [] 60 "run" = Ok (d', rep) ∧
    ∃ c', copy_rows d' !! 2 = Some c' ∧ same_copy tape_copy c'.
Proof.
  destruct (scrub_backend "p" (demo_data both_copies) 1 "disk" [] 60 "run") as [[d' rep]|] eqn:E;
    [|run_ok E].
  exists d', rep. split; [done|].
  destruct (scrub_keeps_history "p" (demo_data both_copies) 1 "disk" [] 60 "run" d' rep
    demo_copies_ok E) as [H _].
  destruct (H 2 tape_copy) as (c' & ? & ? & _); [vm_compute; reflexivity|eauto].
Defined.

Lemma scrub_marks_missing_witness :
  ∃ d' rep, scrub_backend "p" (demo_data both_copies) 1 "disk" [] 60 "run" = Ok (d', rep) ∧
    ∃ c', copy_rows d' !! 1 = Some c' ∧ cp_health c' = MISSING.
Proof.
  destruct (scrub_backend "p" (demo_data both_copies) 1 "disk" [] 60 "run") as [[d' rep]|] eqn:E;
    [|run_ok E].
  exists d', rep. split; [done|].
  apply (scrub_marks_missing "p" (demo_data both_copies) 1 "disk" [] 60 "run" d' rep 1 disk_copy
    demo_copies_ok demo_copies_unique E); [vm_compute; reflexivity..|]. apply not_elem_of_nil.
Defined.

(** ** Bundle groups, with the identity as a hash that does not collide *)

Definition demo_sha (s : string) : string := s.

Lemma fingerprint_identifies_placement_witness :
  (compute_bundle_group demo_sha (demo_cat both_copies) "masters").1 =
  (compute_bundle_group demo_sha (demo_cat ∅) "masters").1.
Proof.
  apply (fingerprint_identifies_placement demo_sha (demo_cat both_copies) "masters" (demo_cat ∅)
    "masters"); [intros H; exact H|].
  intros p r. reflexivity.
Defined.

Lemma effective_thresholds_spec_witness :
  ∃ target age, effective_group_thresholds (demo_cat both_copies) "masters" (masters_policy 1) "g"
      (compute_group_basis (demo_cat both_copies) "masters") = Ok (target, age) ∧
    1000 <= target ∧ age <= 3600.
Proof.
  destruct (effective_group_thresholds (demo_cat both_copies) "masters" (masters_policy 1) "g"
      (compute_group_basis (demo_cat both_copies) "masters")) as [[target age]|] eqn:E; [|run_ok E].
  exists target, age. split; [done|].
  destruct (effective_thresholds_spec (demo_cat both_copies) "masters" (masters_policy 1) "g"
    (compute_group_basis (demo_cat both_copies) "masters") target age E) as (_ & _ & H & _).
  apply (H 1000 3600). left. split; reflexivity.
Defined.

Lemma write_fence_guard_witness :
  ∃ d', set_pool_write_fence (λ lo _, lo) (demo_data both_copies) "tape" false false 70 = Ok d' ∧
    floors_writable (cat d') "masters" (masters_policy 1).
Proof.
  destruct (set_pool_write_fence (λ lo _, lo) (demo_data both_copies) "tape" false false 70)
    as [d'|] eqn:E; [|run_ok E].
  exists d'. split; [done|].
  destruct (write_fence_guard (λ lo _, lo) (demo_data both_copies) "tape" tape_pool false 70 d')
    as (_ & H & _); [reflexivity|reflexivity|exact E|].
  destruct (H eq_refl) as [_ Hf]. apply (Hf "masters" (membership 2)); reflexivity.
Defined.

Definition fresh_data : Database := {|
  cat := refresh_bundle_group_projections demo_sha (demo_cat ∅) ["masters"]; jobs := empty_jobdb |}.

Lemma fresh_data_fresh : projections_fresh demo_sha (cat fresh_data).
Proof.
  intros a r H. unfold fresh_data in *. cbn [cat] in *.
  destruct (refresh_all_spec demo_sha ["masters"] (demo_cat ∅) a) as (Hp & Hac & _ & Hpol).
  rewrite (basis_frame _ _ a Hp Hac). rewrite Hpol in H.
  apply fmap_Some in H as (r0 & H0 & ->). cbn in H0.
  apply lookup_singleton_Some in H0 as [<- <-]. by case_decide as Hin; [|destruct Hin; left].
Qed.

Lemma pool_mutations_keep_projections_witness :
  ∃ k', set_pool_representation demo_sha (cat fresh_data) "disk" "rem-object-v1" = Ok k' ∧
    projections_fresh demo_sha k'.
Proof.
  destruct (set_pool_representation demo_sha (cat fresh_data) "disk" "rem-object-v1") as [k'|] eqn:E;
    [|run_ok E].
  exists k'. split; [done|].
  destruct (pool_mutations_keep_projections demo_sha (λ lo _, lo) fresh_data "disk"
    fresh_data_fresh) as [H _]. by apply (H _ _ E).
Defined.
