(* ===== verification/FlushWitnesses.v ===== *)
(** * Concrete catalogs and worlds for the bundle theorems

    One open accumulator with one member, a world in which the disk pool takes the copy and the tape
    library is offline, and small variations of both. *)

From Stdlib Require Import Ascii.
From S2P Require Import Prelude Json JsonText JobModels Catalog RetryConfig Conditions MemberName.
From S2P Require Import Leases Engine Durability BundleGroup Copies Scrub Accumulator FanoutMap Fanout.
From S2P Require Import Sweeper AccumulatorFacts BundleLife NamingFacts FanoutFacts FlushFacts.
From S2P Require Import FanoutMapFacts SweeperFacts BundleCopyFacts CopiesFacts ScrubFacts.
From S2P Require Import ArchiveWitnesses.

(** ** The catalog *)

Definition demo_basis : json :=
  JObj [("basis", JList [JObj [("pool", JStr "disk"); ("representation", JStr "raw-bytes")];
                         JObj [("pool", JStr "tape"); ("representation", JStr "raw-bytes")]]);
        ("effective", JObj [("target_bytes", JInt 1000); ("max_age_seconds", JInt 60)])].

Definition open_bundle (status : string) (claimed : option string) (flushed : option time)
    (archive : option string) : Bundle := {|
  bu_bundle_group := "g"; bu_group_basis := demo_basis; bu_status := status; bu_total_bytes := 10;
  bu_member_count := 1; bu_target_bytes := 1000; bu_max_age_seconds := 60;
  bu_archive_id := archive; bu_claimed_by := claimed; bu_opened_at := 0; bu_flushed_at := flushed;
  bu_sealed_at := None; bu_held_at := None; bu_review_summary := None; bu_scan_summary := None;
  bu_customer_manifest_path := None |}.

Definition open_member : BundleMember := {|
  bm_bundle_id := "b1"; bm_logical_asset_hash := hash_a; bm_artifactclass := "masters";
  bm_member_path := "x.mov"; bm_source_path := Some "/s/x.mov"; bm_size_bytes := 10;
  bm_file_sha256 := hash_a; bm_source_metadata := None |}.

Definition one_bundle (b : Bundle) : Cat :=
  with_bundles {["b1" := b]}
    (with_members {| t_rows := {[1 := open_member]}; t_next := 2 |} (demo_cat ∅)).

Definition open_cat : Cat := one_bundle (open_bundle "open" None None None).

Lemma one_bundle_ok b :
  bu_member_count b = 1 → bu_total_bytes b = 10 →
  (is_accumulator b = true → witness_matches b = true) →
  (bu_status b = "flushing" → is_Some (bu_archive_id b) ∧ is_Some (bu_claimed_by b) ∧ is_Some (bu_flushed_at b)) →
  bundles_ok (one_bundle b).
Proof.
  intros Hc Ht Hw Hf.
  assert (Hm : ∀ i m, t_rows (members (one_bundle b)) !! i = Some m → i = 1 ∧ m = open_member).
  { intros i m H. change (({[1 := open_member]} : gmap Z BundleMember) !! i = Some m) in H.
    by apply lookup_singleton_Some in H as [<- <-]. }
  assert (Hb : ∀ i x, bundles (one_bundle b) !! i = Some x → i = "b1" ∧ x = b).
  { intros i x H. change (({["b1" := b]} : gmap string Bundle) !! i = Some x) in H.
    by apply lookup_singleton_Some in H as [<- <-]. }
  constructor.
  - intros i m [-> _]%Hm. done.
  - intros i i' m m' [-> _]%Hm [-> _]%Hm. done.
  - intros i m [-> ->]%Hm. by eexists.
  - intros i x [-> ->]%Hb. unfold counters_ok. by rewrite Hc, Ht.
  - intros i i' x x' [-> _]%Hb [-> _]%Hb. done.
  - intros i x [-> ->]%Hb. done.
  - intros i x [-> ->]%Hb. done.
Qed.

Lemma open_cat_ok : bundles_ok open_cat.
Proof. by apply one_bundle_ok. Qed.

Lemma open_tables_ok : tables_ok open_cat.
Proof.
  split; intros i x H; [change ((∅ : gmap Z AssetLocator) !! i = Some x) in H
                       |change ((∅ : gmap Z Copy) !! i = Some x) in H]; by apply lookup_empty_Some in H.
Qed.

Definition open_db : Database := {| cat := open_cat; jobs := empty_jobdb |}.

(** ** The world *)

Definition built_of (m : MemberInput) : BuiltMember := {|
  bt_logical_asset_hash := in_logical_asset_hash m; bt_member_path := in_member_path m;
  bt_size_bytes := in_size_bytes m; bt_file_sha256 := in_file_sha256 m; bt_native_locator := [];
  bt_ingest_item_id := None |}.

Definition demo_artifact (ms : list MemberInput) : BuildArtifact := {|
  ba_stored_digest := hash_b; ba_members := built_of <$> ms; ba_manifest := false;
  ba_blob_roots := []; ba_exclusions := []; ba_recipient_epochs := [] |}.

Definition demo_world (verdict : VerifyOutcome) : World := {|
  w_supplied := λ _, true; w_available_bytes := 1000000;
  w_build := λ _ _ _ _ ms _, Built (demo_artifact ms);
  w_tar := λ _ _ _, Err "unused";
  w_write := λ t _, if decide (pt_pool_id t = "disk") then Written [("path", JStr "b1.rao")] 10
                    else WriteBackendError "library offline";
  w_verify := λ _ _, verdict;
  w_read_member := λ _ _ _ m, ReadBytes (bt_file_sha256 m);
  w_verify_member := None; w_deliver := None; w_has_signer := false;
  w_enqueue_fills := λ d _, Ok d |}.

Definition good_readback : VerifyOutcome :=
  Verified {| vf_ok := true; vf_measured := true; vf_actual_hash := Some hash_b; vf_detail := "" |}.

Definition bad_readback : VerifyOutcome :=
  Verified {| vf_ok := false; vf_measured := true; vf_actual_hash := Some hash_b; vf_detail := "short read" |}.

Lemma demo_fills v : fills_quiet (demo_world v).
Proof. intros d id d' [= <-]. done. Qed.

Definition flush_demo (d : Database) : option (result FanoutError (Database * FanoutResult)) :=
  flush_bundle (λ b, b) (λ s, "00") (λ _, "") "host:1" (λ a b, a) (demo_world good_readback) d "b1" None
    None "host:1" "q1" 100.

(** ** Flush *)

Lemma flush_terminates_witness :
  bundles_ok open_cat ∧ ∃ r, flush_demo open_db = Some r ∧ r ≠ Err QuarantineBoundExceeded.
Proof. split; [exact open_cat_ok|]. apply (flush_terminates _ _ _ _ _ _ open_db), open_cat_ok. Defined.

Lemma flush_seals_witness :
  ∃ d' r, flush_demo open_db = Some (Ok (d', r)) ∧
    ∃ b, bundles (cat d') !! "b1" = Some b ∧ bu_status b = "sealed".
Proof.
  destruct (flush_demo open_db) as [[[d' r]|e]|] eqn:E; [|run_ok E|run_ok E].
  destruct (flush_seals _ _ _ _ _ _ open_db "b1" None None "host:1" "q1" 100 d' r open_cat_ok
    (demo_fills _) E)
    as (_ & _ & (b & Hb & Hs & _) & _).
  exists d', r. split; [reflexivity|]. exists b. exact (conj Hb Hs).
Defined.

Lemma flush_copies_complete_witness :
  ∃ d' r, flush_demo open_db = Some (Ok (d', r)) ∧ fr_copy_ids r = [3] ∧ fr_failed_pools r = ["tape"] ∧
    (∃ c, t_rows (copies (cat d')) !! 3 = Some c ∧ cp_bundle_id c = Some "b1") ∧ fr_partial r = true.
Proof.
  destruct (flush_demo open_db) as [[[d' r]|e]|] eqn:E; [|run_ok E|run_ok E].
  destruct (flush_copies_complete _ _ _ _ _ _ open_db "b1" None None "host:1" "q1" 100 d' r open_cat_ok
    open_tables_ok (demo_fills _) E) as (Hcopies & _ & Hpartial).
  assert (Hr : fr_copy_ids r = [3] ∧ fr_failed_pools r = ["tape"]).
  { assert (Hv : match flush_demo open_db with
                 | Some (Ok (_, r)) => fr_copy_ids r = [3] ∧ fr_failed_pools r = ["tape"]
                 | _ => False
                 end) by (vm_compute; split; reflexivity). rewrite E in Hv. exact Hv. }
  destruct Hr as [Hids Hfailed]. exists d', r. split_and!; [reflexivity|exact Hids|exact Hfailed| |].
  - apply Hcopies. rewrite Hids. left.
  - apply Hpartial. rewrite Hfailed. discriminate.
Defined.

Lemma flush_condition_witness :
  ∃ d' r row, flush_demo open_db = Some (Ok (d', r)) ∧
    cond_tbl (jobs d') !! ("bundle_copy", "b1") = Some row.
Proof.
  destruct (flush_demo open_db) as [[[d' r]|e]|] eqn:E; [|run_ok E|run_ok E].
  destruct (flush_condition _ _ _ _ _ _ open_db "b1" None None "host:1" "q1" 100 d' r open_cat_ok
    (demo_fills _) eq_refl E) as (row & Hrow & _).
  exists d', r, row. exact (conj eq_refl Hrow).
Defined.

Definition disk_target : PoolTarget := {|
  pt_pool_id := "disk"; pt_artifactclass := ""; pt_backend_id := 1; pt_backend_name := "disk";
  pt_representation := "raw-bytes"; pt_key_epoch := None; pt_location := "vault-a";
  pt_offsite_gate := false; pt_tier := "nearline"; pt_sort_order := 0 |}.

(** A read-back that disagrees leaves its copy on record. *)
Lemma written_bytes_accounted_witness :
  ∃ s' cid c, write_target (λ b, b) "host:1" (demo_world bad_readback) "b1" 100 (initial_writes open_db)
                (disk_target, demo_artifact []) = Ok s' ∧
    t_rows (copies (cat (ws_db s'))) !! cid = Some c ∧ copy_ok c = false.
Proof.
  destruct (write_target (λ b, b) "host:1" (demo_world bad_readback) "b1" 100 (initial_writes open_db)
    (disk_target, demo_artifact [])) as [s'|] eqn:E; [|run_ok E].
  destruct (written_bytes_accounted (λ b, b) "host:1" (demo_world bad_readback) "b1" 100 (initial_writes open_db)
    disk_target (demo_artifact []) s' [("path", JStr "b1.rao")] 10 open_tables_ok)
    as [(cid & Hc & _)|[_ [(_ & _ & [(cid & c & Hc & _ & _ & _ & Hbad)|(Hr & _)])|(Hp & _)]]].
  - intros i x H. change ((∅ : gmap Z VerifyReceipt) !! i = Some x) in H. by apply lookup_empty_Some in H.
  - reflexivity.
  - reflexivity.
  - exact E.
  - exfalso. revert E. vm_compute. intros [= <-]. discriminate Hc.
  - exists s', cid, c. exact (conj eq_refl (conj Hc Hbad)).
  - discriminate Hr.
  - exfalso. revert E. vm_compute. intros [= <-]. discriminate Hp.
Defined.

(** ** The life of the bundle *)

Definition after {A} (r : result BundleError A) (k : A) : A := match r with Ok a => a | Err _ => k end.

Definition claimed_cat : Cat := after (begin_flush open_cat "b1" "host:1" 100) open_cat.
Definition sealed_cat : Cat := after (close_bundle claimed_cat "b1" "host:1" 101) claimed_cat.

Lemma claimed_cat_step : begin_flush open_cat "b1" "host:1" 100 = Ok claimed_cat.
Proof. reflexivity. Qed.

Lemma sealed_cat_step : close_bundle claimed_cat "b1" "host:1" 101 = Ok sealed_cat.
Proof. reflexivity. Qed.

Lemma bundle_life_invariant_witness :
  bundles_ok open_cat ∧ bundles_ok sealed_cat ∧ bu_status <$> bundles sealed_cat !! "b1" = Some "sealed".
Proof.
  split; [exact open_cat_ok|]. split; [|reflexivity].
  apply (bundle_life_invariant (λ s, s) (λ p, "") (λ t, t) open_cat); [|exact open_cat_ok].
  eapply rtc_l; [exact (step_claim _ _ _ _ _ _ _ _ claimed_cat_step)|].
  apply rtc_once. exact (step_seal _ _ _ _ _ _ _ _ sealed_cat_step).
Defined.

Lemma flush_claim_protocol_witness :
  begin_flush claimed_cat "b1" "other:2" 105 = Err BundleStateError ∧
  ∃ k2, close_bundle claimed_cat "b1" "host:1" 105 = Ok k2.
Proof.
  destruct (flush_claim_protocol open_cat "b1" "host:1" 100 claimed_cat "other:2" 105 claimed_cat_step)
    as (H1 & _ & H2 & _).
  exact (conj H1 H2).
Defined.

Definition demo_request : MemberRequest := {|
  mr_artifactclass := "masters"; mr_logical_asset_hash := hash_a; mr_member_path := "y.mov";
  mr_source_path := Some "/s/y.mov"; mr_size_bytes := 20; mr_file_sha256 := hash_a;
  mr_source_metadata := None |}.

Lemma race_ok_id : race_ok (λ k, k).
Proof. intros k Hok. split_and!; [done|done|]. intros id b Hb Ho. split; [eauto|]. intros i m H _. exists m. by split. Qed.

Lemma append_retry_idempotent_witness :
  ∃ k1 ap, add_bundle_member (λ s, "00") open_cat (λ _ k, k) "b1" demo_request = Ok (k1, ap) ∧
    ∃ k3 ap', add_bundle_member (λ s, "00") k1 (λ _ k, k) "b1" demo_request = Ok (k3, ap') ∧
      ap_created ap' = false.
Proof.
  destruct (add_bundle_member (λ s, "00") open_cat (λ _ k, k) "b1" demo_request) as [[k1 ap]|] eqn:E;
    [|run_ok E].
  destruct (add_bundle_member_ok _ _ _ _ _ _ _ (λ _, race_ok_id) open_cat_ok E) as [Hok1 _ _ _ _ _ _ _].
  assert (Hv : ∃ b, bundles k1 !! "b1" = Some b ∧ is_open b = true).
  { assert (Hv : match add_bundle_member (λ s, "00") open_cat (λ _ k, k) "b1" demo_request with
                 | Ok (k, _) => is_open <$> bundles k !! "b1" = Some true
                 | Err _ => False
                 end) by (vm_compute; reflexivity).
    rewrite E in Hv. destruct (bundles k1 !! "b1") as [b|]; [|discriminate Hv].
    exists b. injection Hv as Hv. exact (conj eq_refl Hv). }
  assert (Ha : require_asset k1 hash_a = Ok tt).
  { assert (Ha : match add_bundle_member (λ s, "00") open_cat (λ _ k, k) "b1" demo_request with
                 | Ok (k, _) => require_asset k hash_a = Ok tt
                 | Err _ => False
                 end) by (vm_compute; reflexivity).
    rewrite E in Ha. exact Ha. }
  destruct Hv as (b & Hb & Ho). exists k1, ap. split; [reflexivity|].
  destruct (append_retry_idempotent (λ s, "00") (λ _ k, k) (λ _ k, k) open_cat "b1" demo_request k1 ap k1 b
    (λ _, race_ok_id) open_cat_ok E Hok1 (proj2 (proj2 (proj2 (race_ok_id k1 Hok1)) "b1" b Hb Ho)) Hb Ho Ha)
    as (k3 & ap' & H3 & _ & Hc & _).
  exists k3, ap'. exact (conj H3 Hc).
Defined.

Definition taken_request : MemberRequest := {|
  mr_artifactclass := "proxies"; mr_logical_asset_hash := hash_a; mr_member_path := "x.mov";
  mr_source_path := None; mr_size_bytes := 10; mr_file_sha256 := hash_a; mr_source_metadata := None |}.

Lemma naming_ladder_sound_witness :
  NoDup (ladder_of (λ _, "0123456789abcdef0123456789abcdef") taken_request) ∧
  ∃ path src, resolve_member_name (λ _, "0123456789abcdef0123456789abcdef") open_cat "b1" taken_request
    = Ok (path, None, src) ∧ member_at open_cat "b1" path = None.
Proof.
  destruct (naming_ladder_sound (λ _, "0123456789abcdef0123456789abcdef") (λ _, eq_refl) open_cat "b1"
    taken_request eq_refl) as (H1 & _ & _ & _ & H2).
  split; [exact H1|]. revert H2.
  destruct (resolve_member_name _ open_cat "b1" taken_request) as [[[path ex] src]|] eqn:E; [|run_ok E].
  intros (_ & _ & _ & _ & H). destruct ex as [im|]; [run_ok E|].
  exists path, src. exact (conj eq_refl H).
Defined.

(** ** The flush map and the builder's report *)

Definition plain_rows : list member_entry := [(1, open_member)].

Lemma failure_attribution_witness :
  ∃ ms text line,
    member_inputs_for_flush open_cat plain_rows = Ok ms ∧
    render_flush_map open_cat ms (Some plain_rows) = Ok text ∧
    split_on (ascii_of_nat 10) text !! 1%nat = Some line.
Proof.
  destruct (member_inputs_for_flush open_cat plain_rows) as [ms|] eqn:Ems; [|run_ok Ems].
  destruct (render_flush_map open_cat ms (Some plain_rows)) as [text|] eqn:Et.
  2: { exfalso. revert Ems Et. vm_compute. intros [= <-]. discriminate. }
  destruct (failure_attribution open_cat plain_rows ms text "rem: source map line 2: no such file" 2
    (1, open_member) Ems Et) as (line & _ & _ & Hl & _).
  - clear Et. revert Ems. vm_compute. intros [= <-]. repeat constructor.
  - reflexivity.
  - reflexivity.
  - exists ms, text, line. exact (conj eq_refl (conj Et Hl)).
Defined.

Definition report_input : MemberInput := {|
  in_logical_asset_hash := hash_a; in_member_path := "x.mov"; in_size_bytes := 10; in_file_sha256 := hash_a;
  in_source_path := {| sf_path := "/s/x.mov"; sf_encodable := true |}; in_ingest_item_id := None |}.

Definition report_doc : dict json :=
  [("members", JList [JObj [("path", JStr "x.mov"); ("size_bytes", JInt 10);
                            ("sha256", JStr (bytes_hex hash_a)); ("first_chunk_lba", JInt 4)]])].

Lemma manifest_members_exact_witness :
  ∃ bs, members_from_manifest (λ _, None) (λ _, "") report_doc [report_input] = Ok bs ∧
    built_facts <$> bs ≡ₚ [input_facts report_input].
Proof.
  destruct (members_from_manifest (λ _, None) (λ _, "") report_doc [report_input]) as [bs|] eqn:E;
    [|run_ok E].
  exists bs. split; [reflexivity|]. exact (manifest_members_exact _ _ report_doc [report_input] bs E).
Defined.

(** ** The sweeper *)

(** The claim of a process that has died. *)
Definition stuck_bundle : Bundle := open_bundle "flushing" (Some "dead:9") (Some 50) (Some "archive-b1").
Definition stuck_db : Database := {| cat := one_bundle stuck_bundle; jobs := empty_jobdb |}.

Lemma stuck_cat_ok : bundles_ok (one_bundle stuck_bundle).
Proof. apply one_bundle_ok; [reflexivity..|discriminate|]. intros _. cbn. eauto. Qed.

Definition sweep_demo (alive : option string → bool) (d : Database) : Database * SweepResult :=
  sweep_bundles (λ _, "00") (λ b, b) (λ _, "") "host:1" (λ a b, a) (λ _, demo_world good_readback) None
    "host:1" (λ s, s) alive d 100 true.

Lemma sweep_progress_witness :
  "b1" ∈ sw_flushed (sweep_demo (λ _, false) stuck_db).2 ∨
  ∃ e, ("b1", e) ∈ sw_failed (sweep_demo (λ _, false) stuck_db).2.
Proof.
  destruct (sweep_demo (λ _, false) stuck_db) as [d' r] eqn:E.
  destruct (sweep_progress _ _ _ _ _ _ _ _ _ (λ _, demo_fills good_readback) (λ _, false) stuck_db 100 d' r
    "b1" stuck_bundle stuck_cat_ok E eq_refl eq_refl (or_introl (conj eq_refl eq_refl)))
    as [[Hf _]|(e & He & _)].
  - left. exact Hf.
  - right. exists e. exact He.
Defined.

Lemma sweep_safe_witness :
  bundles (cat (sweep_demo (λ _, true) stuck_db).1) !! "b1" = Some stuck_bundle.
Proof.
  destruct (sweep_demo (λ _, true) stuck_db) as [d' r] eqn:E.
  destruct (sweep_safe (λ _, "00") (λ b, b) (λ _, "") "host:1" (λ a b, a) (λ _, demo_world good_readback)
    None "host:1" (λ s, s) (λ _, demo_fills good_readback) (λ _, true) stuck_db 100 d' r
    stuck_cat_ok E) as (_ & _ & H & _).
  apply H; [reflexivity|]. right. exact (conj eq_refl eq_refl).
Defined.
