(* ===== verification/RetentionWitnesses.v ===== *)
(** * Concrete worlds for the retention theorems

    One intake with one item, archived on one in-memory pool, with its staging tree in a landing
    root; the same intake released, and released and tombstoned.  Two scenarios at the end show where
    the funnel falls short of its documentation. *)

From stdpp Require Import pretty.
From S2P Require Import Prelude Json JsonText JobModels Catalog RetryConfig Conditions Durability.
From S2P Require Import FanoutMap ArchivePredicate Profiles Retention RetentionFs RetentionRun.
From S2P Require Import RetentionGateFacts RetentionFsFacts RetentionFacts ScrubFacts ArchiveWitnesses.

(** ** The catalog *)

Definition asset_copy : Copy := {|
  cp_logical_asset_hash := Some hash_a; cp_bundle_id := None; cp_backend_id := 1;
  cp_pool_id := Some "disk"; cp_native_locator := [("path", JStr "x")];
  cp_native_locator_key := locator_key [("path", JStr "x")]; cp_storage_metadata := [];
  cp_integrity_hash := hash_a; cp_integrity_hash_provenance := LOCALLY_COMPUTED;
  cp_health := HEALTH_OK; cp_last_checked_at := Some 3; cp_last_measured_digest := Some hash_a;
  cp_last_measured_at := Some 3; cp_deleted_at := None; cp_first_observed_at := 2;
  cp_source := INGEST |}.

Definition cloud_copy : Copy := {|
  cp_logical_asset_hash := None; cp_bundle_id := Some (cloud_bundle_id "i1"); cp_backend_id := 1;
  cp_pool_id := None; cp_native_locator := [("path", JStr "cloud")];
  cp_native_locator_key := locator_key [("path", JStr "cloud")]; cp_storage_metadata := [];
  cp_integrity_hash := hash_b; cp_integrity_hash_provenance := LOCALLY_COMPUTED;
  cp_health := HEALTH_OK; cp_last_checked_at := None; cp_last_measured_digest := None;
  cp_last_measured_at := None; cp_deleted_at := None; cp_first_observed_at := 2;
  cp_source := INGEST |}.

Definition demo_intake (state : RetentionState) (released : option time) (fingerprint tombstone : option string)
    : Intake := {|
  in_artifactclass := "masters"; in_status := REGISTERED; in_retention_state := state;
  in_released_at := released; in_staging_deleted_at := None;
  in_manifest_path := Some "/srv/landing/i1/manifest.json"; in_manifest_digest := Some "m";
  in_requested_profile := None; in_release_policy_fingerprint := fingerprint;
  in_staging_tombstoned_at := None; in_staging_tombstone_path := tombstone |}.

Definition demo_item : IngestItem := {|
  ii_intake_id := "i1"; ii_logical_asset_hash := hash_a; ii_artifactclass := "masters";
  ii_size_bytes := 10; ii_as_received_path := "x.mov"; ii_item_metadata := [];
  ii_disposition := NEW |}.

Definition funnel_cat (row : Intake) : Cat := {|
  assets := {[hash_a := {| la_size_bytes := 10; la_first_seen_at := 0 |}]};
  backends := {[1 := {| be_name := "mem"; be_kind := MEMORY; be_implementation_family := "mem" |}]};
  pools := {["disk" := disk_pool]}; acpools := {[("masters", "disk") := membership 1]};
  policies := {["masters" := masters_policy 1]}; bundles := ∅; members := tbl_empty;
  copies := {| t_rows := <[1 := asset_copy]> {[2 := cloud_copy]}; t_next := 3 |};
  locators := tbl_empty; blob_roots := tbl_empty; receipts := tbl_empty; intakes := {["i1" := row]};
  items := {| t_rows := {[1 := demo_item]}; t_next := 2 |}; submission_members := tbl_empty;
  va_members := tbl_empty; transforms := tbl_empty; exclusions := tbl_empty; arrangements := tbl_empty;
  offsite := ∅; events := tbl_empty; arrangement_members := tbl_empty; submissions := ∅;
  derivations := tbl_empty |}.

Definition funnel_data (row : Intake) : Database := {| cat := funnel_cat row; jobs := empty_jobdb |}.

(** ** The files and the rest of the world *)

Definition demo_loads (content : bytes) : option json :=
  if bool_decide (content = "sentinel") then Some (JObj [("intake_id", JStr "i1")]) else None.

Definition landing : path := ["srv"; "landing"].

Definition demo_files : Fs :=
  list_to_map [(["srv"], NDir); (landing, NDir); (landing ++ ["i1"], NDir);
               (landing ++ ["i1"; "intake.json"], NFile "sentinel");
               (landing ++ ["i1"; "manifest.json"], NFile "m"); (landing ++ ["i1"; "x.mov"], NFile "x")].

Definition demo_tombstone : path := landing ++ [".retention-tombstones"; tombstone_basename (λ s, s) "i1"].

Definition demo_session (row : Intake) (fs : Fs) : Sess := {|
  s_committed := funnel_data row; s_work := funnel_data row; s_cache := ∅; s_fs := fs; s_tick := 0;
  s_point := 0; s_trace := [] |}.

(** Ten days after the grace time *)
Definition demo_clock (n : nat) : time := days 40.

Definition demo_fingerprint : string :=
  match policy_fingerprint (λ s, s) (funnel_cat (demo_intake HELD None None None)) [(1, demo_item)] with
  | Ok f => f
  | Err _ => ""
  end.

Definition held : Intake := demo_intake HELD None None None.
Definition released : Intake := demo_intake RELEASED (Some 0) (Some demo_fingerprint) None.
Definition tombstoned : Intake :=
  demo_intake TOMBSTONED (Some 0) (Some demo_fingerprint) (Some (path_text demo_tombstone)).

Definition demo_release (others : nat → Database → Database) :=
  run_retention (λ s, s) (λ _, "") demo_clock others (λ _ fs, fs) (λ _, PlainAdapter) (λ _ _, None)
    (λ _ _, Deleted).

Definition demo_sweep (others : nat → Database → Database) (rmtree : nat → Removal) :=
  sweep_staging (λ s, s) (λ _, "") demo_loads ["srv"] ["/srv/landing"] None (λ _, 0) demo_clock
    (λ _, "u") others (λ _ fs, fs) (λ _, PlainAdapter) (λ _ _, None) rmtree.

(** A session on a fresh cache agrees with its database. *)
Lemma fresh_coherent row fs : coherent (eq "i1") (demo_session row fs).
Proof. intros i r _. cbn. by rewrite lookup_empty. Qed.

Lemma quiet_world : untouched (λ _ d, d) (eq "i1").
Proof. by intros i n d _. Qed.

Lemma trace_shows (f : Effect → bool) l : existsb f l = true → ∃ e, e ∈ l ∧ f e = true.
Proof. intros (e & Hin & Hf)%existsb_exists. exists e. split; [by apply list_elem_of_In|done]. Qed.

(** ** Witnesses *)

Lemma release_gate_sound_witness :
  intake_cleared (funnel_data held) "i1" held ∅.
Proof.
  destruct (local_gate_status (λ s, s) (λ _, "") (funnel_data held) "i1" held ∅ true 30 0) as [st|] eqn:E;
    [|run_ok E].
  apply (release_gate_sound (λ s, s) (λ _, "") (funnel_data held) "i1" held ∅ 30 0 st E).
  revert E. vm_compute. by intros [= <-].
Defined.

Lemma release_authorised_witness :
  ∃ l, s_trace (demo_release (λ _ d, d) "i1" "op" None (demo_session held demo_files)).1 = l ∧
       (∃ n ic, ObjectDeletion n ic ∈ l) ∧ ∀ fs p, TreeRemoval fs p ∉ l.
Proof.
  destruct (demo_release (λ _ d, d) "i1" "op" None (demo_session held demo_files)) as [s' r] eqn:E.
  destruct (release_authorised (λ s, s) (λ _, "") demo_loads [] (λ _, 0) demo_clock (λ _, "u") (λ _ d, d)
              (λ _ fs, fs) (λ _, PlainAdapter) (λ _ _, None) (λ _ _, Deleted) (λ _, Complete) "i1" quiet_world "op" None
              (demo_session held demo_files) s' r (fresh_coherent held demo_files)) as (l & Hl & H);
    [unfold demo_release in E; exact E|].
  exists l. split; [exact Hl|]. split.
  - assert (Hd : existsb (λ e, match e with ObjectDeletion _ _ => true | _ => false end)
      (s_trace (demo_release (λ _ d, d) "i1" "op" None (demo_session held demo_files)).1) = true)
      by (vm_compute; reflexivity).
    rewrite E in Hd. destruct (trace_shows _ _ Hd) as (e & Hin & He). clear Hd E. cbn [fst] in Hin.
    change (s_trace s' = l) in Hl. rewrite Hl in Hin. destruct e; try discriminate He. by eexists _, _.
  - intros fs p (l1 & l2 & ->)%list_elem_of_split. exact (H l1 _ l2 eq_refl).
Defined.

Lemma purge_authorised_witness :
  ∃ l, s_trace (demo_sweep (λ _ d, d) (λ _, Complete) "i1" "op" 30 false None false
                  (demo_session released demo_files)).1 = l ∧
       (∃ n fs a b, Tombstoning n fs a b ∈ l) ∧ ∀ n ic, ObjectDeletion n ic ∉ l.
Proof.
  destruct (demo_sweep (λ _ d, d) (λ _, Complete) "i1" "op" 30 false None false
              (demo_session released demo_files)) as [s' r] eqn:E.
  destruct (purge_authorised (λ s, s) (λ _, "") demo_loads ["srv"] ["/srv/landing"] None (λ _, 0) demo_clock
              (λ _, "u") (λ _ d, d) (λ _ fs, fs) (λ _, PlainAdapter) (λ _ _, None) (λ _ _, Deleted) (λ _, Complete) "i1" quiet_world
              "op" 30 false None false (demo_session released demo_files) s' r
              (fresh_coherent released demo_files)) as (l & Hl & H); [unfold demo_sweep in E; exact E|].
  exists l. split; [exact Hl|]. split.
  - assert (Hd : existsb (λ e, match e with Tombstoning _ _ _ _ => true | _ => false end)
      (s_trace (demo_sweep (λ _ d, d) (λ _, Complete) "i1" "op" 30 false None false
                  (demo_session released demo_files)).1) = true) by (vm_compute; reflexivity).
    rewrite E in Hd. destruct (trace_shows _ _ Hd) as (e & Hin & He). clear Hd E. cbn [fst] in Hin.
    change (s_trace s' = l) in Hl. rewrite Hl in Hin. destruct e; try discriminate He. by eexists _, _, _, _.
  - intros n ic (l1 & l2 & ->)%list_elem_of_split. exact (H l1 _ l2 eq_refl).
Defined.

(** The files after the tombstone root was made *)
Definition rooted_files : Fs := <[landing ++ [".retention-tombstones"] := NDir]> demo_files.

Definition tombstoned_files : Fs :=
  (atomic_tombstone demo_loads rooted_files (landing ++ ["i1"]) demo_tombstone "i1").1.

Lemma tombstone_moves_tree_witness :
  owns demo_loads tombstoned_files demo_tombstone "i1".
Proof.
  apply (tombstone_moves_tree demo_loads rooted_files (landing ++ ["i1"]) demo_tombstone "i1" tombstoned_files).
  unfold tombstoned_files.
  destruct (atomic_tombstone demo_loads rooted_files (landing ++ ["i1"]) demo_tombstone "i1") as [fs [[]|e]] eqn:E;
    [done|].
  assert (Hok : is_ok (atomic_tombstone demo_loads rooted_files (landing ++ ["i1"]) demo_tombstone "i1").2 = true)
    by (vm_compute; reflexivity).
  by rewrite E in Hok.
Defined.

Lemma gc_completes_witness :
  ∃ s' res, demo_sweep (λ _ d, d) (λ _, Complete) "i1" "op" 30 false None false
              (demo_session tombstoned tombstoned_files) = (s', Ok res) ∧ ss_purged res = true.
Proof.
  destruct (gc_completes (λ s, s) (λ _, "") demo_loads ["srv"] ["/srv/landing"] None (λ _, 0) demo_clock
    (λ _, "u") (λ _ d, d) (λ _ fs, fs) (λ _, PlainAdapter) (λ _ _, None) (λ _, Complete) "i1" quiet_world tombstoned
    (path_text demo_tombstone) demo_tombstone "op" 30 false None false (demo_session tombstoned tombstoned_files)
    (fresh_coherent tombstoned tombstoned_files)) as (s' & res & _ & H & Hp & _);
    [reflexivity|reflexivity|reflexivity|discriminate|done|vm_compute; reflexivity|vm_compute; reflexivity
    |reflexivity|reflexivity|reflexivity|].
  exists s', res. split; [exact H|exact Hp].
Defined.

(** ** Scenarios *)

(** Another process runs [abandon_retention] in a transaction of its own, after the first commit of
    the sweep. *)
Definition abandons (n : nat) (d : Database) : Database :=
  if bool_decide (n = 0%nat) then
    s_committed (in_scope (λ _ d, d) (λ _ fs, fs) (abandon_retention demo_clock (λ _, "v") "i1" "lead" "keep")
                   {| s_committed := d; s_work := d; s_cache := ∅; s_fs := ∅; s_tick := 0; s_point := 0;
                      s_trace := [] |}).1
  else d.

Definition state_of (d : Database) : option RetentionState :=
  in_retention_state <$> intakes (cat d) !! "i1".

(** Why the theorems on release and purge assume that nobody else writes the intake's row: a run in
    which an operator abandons a released intake while a sweep is between two of its transactions.  The
    abandonment is committed, the sweep goes on with the row it loaded before, removes the staging tree
    and leaves the intake purged. *)
Example abandoned_intake_purged :
  let '(s, r) := demo_sweep abandons (λ _, Complete) "i1" "op" 30 false None false
                   (demo_session released demo_files) in
  (∃ d, Began d ∈ s_trace s ∧ state_of d = Some ABANDONED) ∧
  r = Ok (sweep_result "i1" true (Some (path_text demo_tombstone)) "purged") ∧
  state_of (s_committed s) = Some PURGED ∧
  s_fs s !! (landing ++ ["i1"]) = None ∧ s_fs s !! demo_tombstone = None.
Proof.
  destruct (demo_sweep abandons (λ _, Complete) "i1" "op" 30 false None false
              (demo_session released demo_files)) as [s r] eqn:E.
  assert (Hs : s = (demo_sweep abandons (λ _, Complete) "i1" "op" 30 false None false
    (demo_session released demo_files)).1) by (by rewrite E).
  assert (Hr : r = (demo_sweep abandons (λ _, Complete) "i1" "op" 30 false None false
    (demo_session released demo_files)).2) by (by rewrite E).
  clear E. split.
  - assert (Hd : existsb (λ e, match e with Began d => bool_decide (state_of d = Some ABANDONED) | _ => false end)
      (s_trace s) = true) by (rewrite Hs; vm_compute; reflexivity).
    destruct (trace_shows _ _ Hd) as ([d|n a|n a b c|a b] & Hin & He); try discriminate He.
    exists d. split; [exact Hin|]. exact (bool_decide_eq_true_1 _ He).
  - subst s r. split_and!; vm_compute; reflexivity.
Qed.

(** The first removal is cut short after the sentinel is gone. *)
Definition cut_short (n : nat) : Removal :=
  if bool_decide (n = 0%nat) then Interrupted (λ p, negb (bool_decide (last p = Some "intake.json"))) else Complete.

(** An interrupted garbage collection never resumes.  A removal of the tombstone that is cut short
    after [intake.json] was unlinked leaves a tree without its sentinel; from then on every sweep,
    whoever runs it, fails on the missing sentinel and the rest of the tree stays. *)
Lemma interrupted_gc_stuck :
  let s1 := (demo_sweep (λ _ d, d) cut_short "i1" "op" 30 false None false
               (demo_session tombstoned tombstoned_files)).1 in
  s_fs s1 !! (demo_tombstone ++ ["x.mov"]) = Some (NFile "x") ∧
  ∀ rmtree,
    let '(s2, r) := demo_sweep (λ _ d, d) rmtree "i1" "op" 30 false None false (demo_session tombstoned (s_fs s1)) in
    r = Err (RetentionError "path component does not exist") ∧ s_fs s2 = s_fs s1.
Proof.
  cbn zeta. set (s1 := (demo_sweep _ cut_short _ _ _ _ _ _ _).1).
  split; [vm_compute; reflexivity|]. intros rmtree.
  vm_cast_no_check (conj (@eq_refl (result RetentionFault StagingSweepResult)
    (Err (RetentionError "path component does not exist"))) (eq_refl (s_fs s1))).
Qed.
