(* ===== verification/ArrangementWitnesses.v ===== *)
(** * Concrete arrangements

    Two registered items of one intake, arranged, edited, submitted and appended to the accumulator. *)

From S2P Require Import Prelude Json JsonText JobModels Catalog RetryConfig Accumulator Durability.
From S2P Require Import FanoutMap Novelty Arrangement ArrangementFacts ScrubFacts ArchiveWitnesses RetentionFs.
From S2P Require Import Submission SubmissionFacts AccumulatorFacts RetentionWitnesses.

Definition digest_of (content : bytes) : bytes := if bool_decide (content = "aaa") then hash_a else hash_b.

Definition clip_path (name : string) : string := "/srv/landing/i1/data/" +:+ name.

Definition clip (content name : string) : IngestItem := {|
  ii_intake_id := "i1"; ii_logical_asset_hash := digest_of content; ii_artifactclass := "masters";
  ii_size_bytes := Z.of_nat (String.length content); ii_as_received_path := name;
  ii_item_metadata := [("source_path", JStr (clip_path name))]; ii_disposition := NEW |}.

Definition clips_cat (state : RetentionState) : Cat :=
  with_assets (<[hash_b := {| la_size_bytes := 2; la_first_seen_at := 0 |}]>
                 (assets (funnel_cat (demo_intake state None None None))))
    (with_items {| t_rows := <[1 := clip "aaa" "day1/a.mov"]> {[2 := clip "bb" "day1/b.mov"]}; t_next := 3 |}
       (funnel_cat (demo_intake state None None None))).

Definition clip_files (path : string) : option bytes :=
  if bool_decide (path = clip_path "day1/a.mov") then Some "aaa"
  else if bool_decide (path = clip_path "day1/b.mov") then Some "bb" else None.

Definition made {E} (r : result E (Cat * Z)) : Cat :=
  match r with Ok (k, _) => k | Err _ => empty_cat end.

Definition demo_submit (k : Cat) :=
  submit_arrangement (λ s, s) clip_files digest_of (λ s, s) (λ _, "") k ∅ (λ k, k) 1 "op" "/subs" (Some "s1") "u" 9.

Definition submitted (r : gmap string SubmissionFiles * result ArrangementFault (Cat * SubmissionResult)) : Cat :=
  match r.2 with Ok (k, _) => k | Err _ => empty_cat end.

(** An arrangement of both clips; the second one renamed; the first one left out *)
Definition arranged : Cat := made (create_from_intake (λ s, s) (clips_cat HELD) "i1" "reel" 5).
Definition renamed : Cat := made (move_member (λ s, s) arranged 1 "day1/b.mov" "reel/0.mov" 6).
Definition trimmed : Cat := made (exclude_member (λ s, s) renamed 1 "day1/a.mov" 7).
Definition submitted_cat : Cat := submitted (demo_submit trimmed).

Local Abbreviation step := (arr_step (λ s, s) clip_files digest_of (λ s, s) (λ _, "")).

Lemma arranged_step : step (clips_cat HELD) arranged.
Proof. apply (step_create _ _ _ _ _ _ _ "i1" "reel" 5 1). vm_compute. reflexivity. Qed.

Lemma trimmed_steps : rtc step (clips_cat HELD) trimmed.
Proof.
  eapply rtc_l; [apply arranged_step|].
  apply (rtc_l _ _ renamed); [|apply rtc_once].
  - apply (step_move _ _ _ _ _ _ _ 1 "day1/b.mov" "reel/0.mov" 6 2). vm_compute. reflexivity.
  - apply (step_exclude _ _ _ _ _ _ _ 1 "day1/a.mov" 7 1). vm_compute. reflexivity.
Qed.

Lemma submitted_step : step trimmed submitted_cat.
Proof.
  destruct (demo_submit trimmed) as [dirs' [[k' r]|e]] eqn:E.
  - apply (step_submit _ _ _ _ _ _ _ ∅ dirs' 1 "op" "/subs" (Some "s1") "u" 9 r).
    unfold submitted_cat. rewrite E. exact E.
  - assert (Hok : is_ok (demo_submit trimmed).2 = true) by (vm_compute; reflexivity). by rewrite E in Hok.
Qed.

Lemma trimmed_life : rtc step empty_cat trimmed.
Proof. eapply rtc_l; [|apply trimmed_steps]. by apply step_other. Qed.

Lemma trimmed_ok : arrangements_ok (λ s, s) trimmed.
Proof. by apply (arr_steps_ok (λ s, s) clip_files digest_of (λ s, s) (λ _, "") empty_cat); [apply empty_arrangements_ok|apply trimmed_life]. Qed.

Lemma arrangement_life_invariant_witness :
  arrangements_ok (λ s, s) submitted_cat ∧ is_Some (submissions submitted_cat !! "s1").
Proof.
  split; [|vm_compute; eauto].
  apply (arrangement_life_invariant (λ s, s) clip_files digest_of (λ s, s) (λ _, "") trimmed submitted_cat trimmed_life
           (rtc_once _ _ submitted_step)).
Defined.

Lemma submit_sound_witness :
  mirrored submitted_cat "s1" 1 ∧ active_list submitted_cat 1 = [(2, "reel/0.mov")].
Proof.
  assert (Hid : match (demo_submit trimmed).2 with Ok (_, r) => sr_submission_id r | Err _ => "" end = "s1")
    by (vm_compute; reflexivity).
  destruct (demo_submit trimmed) as [dirs' [[k' r]|e]] eqn:E.
  - destruct (submit_sound (λ s, s) clip_files digest_of (λ s, s) (λ _, "") trimmed ∅ (λ k, k) 1 "op" "/subs"
      (Some "s1") "u" 9 dirs' k' r trimmed_ok (conj eq_refl eq_refl) E)
      as (_ & _ & a & s & es & fs & _ & _ & _ & Hm & _).
    cbn in Hid. rewrite Hid in Hm.
    assert (Hk : submitted_cat = k') by (unfold submitted_cat; by rewrite E). rewrite <- Hk in Hm.
    split; [exact Hm|vm_compute; reflexivity].
  - exfalso. assert (Hok : is_ok (demo_submit trimmed).2 = true) by (vm_compute; reflexivity).
    rewrite E in Hok. discriminate Hok.
Defined.

(** ** Convergence *)

Definition clip_tree : Fs :=
  list_to_map [(["srv"], NDir); (landing, NDir); (landing ++ ["i1"], NDir); (landing ++ ["i1"; "data"], NDir);
               (landing ++ ["i1"; "data"; "day1"], NDir); (landing ++ ["i1"; "data"; "day1"; "b.mov"], NFile "bb");
               (["subs"], NDir); (["subs"; "s1"], NDir);
               (["subs"; "s1"; "source-map.tsv"],
                NFile (default "" (sf_source_map <$> (demo_submit trimmed).1 !! "/subs/s1")))].

Definition quiet_env (i : Z) : AppendEnv := {|
  ae_mint_race := λ k, k; ae_race := λ _ k, k; ae_fresh := "b1"; ae_now := 11 |}.

Definition demo_converge (k : Cat) (fs : Fs) :=
  archive_submission digest_of (λ s, s) ["srv"] (λ _, "") (λ s, s) k fs quiet_env "s1" 12.

Definition converged : Cat :=
  match demo_converge submitted_cat clip_tree with Ok (k, _) => k | Err _ => empty_cat end.

Lemma quiet_keeps_links : keeps_links "s1" (λ k, k).
Proof.
  split; [|done]. intros k Hok. split_and!; [done|done|]. intros id b Hb Ho. split; [by exists b|].
  intros i m Hm _. by exists m.
Qed.

Lemma no_bundles_ok k : bundles k = ∅ → members k = tbl_empty → bundles_ok k.
Proof.
  intros Hb Hm. constructor; rewrite ?Hb, ?Hm; cbn; try done; intros *; by rewrite lookup_empty.
Qed.

Lemma submitted_members : members submitted_cat = tbl_empty.
Proof. vm_compute. reflexivity. Qed.

Lemma submission_converges_witness :
  (∃ r, demo_converge converged ∅ = Ok (converged, r) ∧ asr_noop r = true) ∧
  t_rows (members converged) !! 1 ≠ None.
Proof.
  assert (Hb : bundles_ok submitted_cat) by (apply no_bundles_ok; [vm_compute; reflexivity|exact submitted_members]).
  assert (Hl : links_sound "s1" submitted_cat).
  { intros i m mid H. rewrite submitted_members in H. cbn in H. by rewrite lookup_empty in H. }
  assert (Hok : is_ok (demo_converge submitted_cat clip_tree) = true) by (vm_compute; reflexivity).
  split; [|vm_compute; discriminate]. unfold converged.
  destruct (demo_converge submitted_cat clip_tree) as [[k' r]|e] eqn:E; [|discriminate Hok].
  destruct (submission_converges digest_of (λ s, s) ["srv"] (λ _, "") (λ s, s) "s1" submitted_cat clip_tree quiet_env
    12 k' r Hb Hl (λ _, quiet_keeps_links) (λ _ _, quiet_keeps_links) E) as (_ & _ & _ & _ & _ & Hagain).
  exists (again r). split; [exact (Hagain ∅ quiet_env 12)|reflexivity].
Defined.
