(* ===== verification/StagingWitnesses.v ===== *)
(** * Concrete staging and a concrete policy document

    One class that merges AppleDouble sidecars and compresses members of five bytes or more; a digest is
    the content, padded to 32 bytes, and a compressed frame is the content after a letter.  The policy
    document has one pool and one placement; its target size is a parameter. *)

From Stdlib Require Import Ascii Floats.SpecFloat.
From S2P Require Import Prelude Json JsonText JobModels Catalog RetryConfig Conditions Durability Scrub BundleGroup.
From S2P Require Import Accumulator AccumulatorFacts NamingFacts Profiles Policy AppleDouble AppleDoubleFacts.
From S2P Require Import Staging StagingFacts BundleGroupFacts PolicyFacts ScrubFacts ArchiveWitnesses RetentionWitnesses.

Definition padded (c : bytes) : bytes := stake 32 (c +:+ "00000000000000000000000000000000").

Lemma padded_hash c : is_content_hash (padded c) = true.
Proof. unfold padded, is_content_hash. rewrite stake_length, string_length_app. apply Nat.eqb_eq, Nat.min_l.
  apply Nat.le_trans with (32 + 0)%nat; [done|]. rewrite Nat.add_comm. by apply Nat.add_le_mono; [lia|]. Qed.

Definition packed (level : Z) (c : bytes) : bytes := "Z" +:+ c.
Definition unpacked (c : bytes) : option bytes := strip_prefix "Z" c.

Lemma packed_inverse level c : unpacked (packed level c) = Some c.
Proof. apply (strip_prefix_app "Z"). Qed.

Definition staging_demo : StagingPolicy := {|
  sp_appledouble := {| ap_action := "merge-to-xattrs"; ap_tool := "sutradhara-parser"; ap_on_error := "hold";
                       ap_record := true |};
  sp_compression := {| cs_codec := "zstd"; cs_level := Some 3; cs_globs := []; cs_min_bytes := Some 5 |} |}.

Definition staging_record : ArtifactClassPolicyRecord := {|
  pr_bundle_group := None; pr_target_bytes := 1000; pr_max_age_seconds := 3600; pr_min_copies := 1;
  pr_min_impl_families := 1; pr_ruleset := ""; pr_expect := "messy"; pr_restore_preference := ["disk"];
  pr_staging_config := staging_to_json staging_demo; pr_hdcache_config := []; pr_policy_source := None;
  pr_policy_sha256 := None |}.

(** A sidecar with a Finder entry of 32 bytes *)
Definition finder_entries : list (Z * bytes) := [(9, padded "finder")].
Definition zeros16 : bytes := be_bytes 16 0.

Definition demo_tree : Tree :=
  <[["in"; "one"; "x.mov"] := SFile "tiny" ∅]>
    (<[["in"; "two"; "x.mov"] := SFile "much longer" ∅]>
       {[["in"; "two"; "._x.mov"] := SFile (render_sidecar zeros16 finder_entries) ∅]}).

Definition demo_stage (source : string) :=
  stage_artifact padded (λ _, "") packed "1.0" (λ _ _, false) (λ _ _, false) (λ _, true) (λ _ _, true)
    (λ _, "") (λ s, s) (split_on "/") (λ _, "") source ["stage"] staging_demo (Some "x.mov").

Definition demo_enqueue (k : Cat) (t : Tree) (source fresh : string) :=
  stage_and_enqueue_artifact padded (λ _, "") packed "1.0" (λ _ _, false) (λ _ _, false) (λ _, true) (λ _ _, true)
    (λ _, "") (λ s, s) (split_on "/") (λ _, "") k t (λ k, k) (λ _ k, k) "masters" staging_record source ["stage"]
    (Some "x.mov") None fresh 5.

Lemma sidecar_roundtrip_witness :
  ∃ m, parse_sidecar (render_sidecar zeros16 finder_entries) = Ok m ∧ ade_data <$> m !! 9 = Some (padded "finder").
Proof.
  destruct (sidecar_roundtrip zeros16 finder_entries) as (m & Hm & Hall);
    [vm_compute; reflexivity|repeat constructor; set_solver|repeat constructor; cbn; lia|vm_compute; reflexivity
    |vm_compute; reflexivity|right; set_solver|].
  exists m. split; [exact Hm|]. apply Hall. left.
Defined.

Lemma staging_restores_witness :
  ∃ t' a staged, demo_stage "in/two/x.mov" demo_tree = (t', Ok a) ∧ file_at t' (st_staged_path a) = Some staged ∧
    length (st_transforms a) = 2%nat ∧
    reverse_transforms padded unpacked staged (imap (transform_row "masters") (st_transforms a))
      = Ok ("much longer", padded "much longer", 11).
Proof.
  assert (Hlen : match (demo_stage "in/two/x.mov" demo_tree).2 with Ok a => length (st_transforms a) | Err _ => 0%nat end
    = 2%nat) by (vm_compute; reflexivity).
  destruct (demo_stage "in/two/x.mov" demo_tree) as [t' [a|e]] eqn:E; [cbn in Hlen|discriminate Hlen].
  destruct (staging_restores padded (λ _, "") packed unpacked "1.0" (λ _ _, false) (λ _ _, false) (λ _, true)
    (λ _ _, true) (λ _, "") (λ s, s) (split_on "/") (λ _, "") packed_inverse "in/two/x.mov" ["stage"] staging_demo
    (Some "x.mov") demo_tree t' a E) as (content & staged & Hc & Hs & _ & _ & _ & _ & _ & Hrev).
  exists t', a, staged. split; [reflexivity|]. split; [exact Hs|].
  split; [exact Hlen|]. clear E. vm_compute in Hc. injection Hc as <-. apply (Hrev _).
  destruct (st_transforms a) as [|s0 [|s1 [|? ?]]]; try discriminate Hlen. reflexivity.
Defined.

Definition staged_cat (o : Tree * StageOutcome) : Cat :=
  match o.2 with Staged k _ => k | _ => empty_cat end.

(** Two files of one class and one name cannot both be staged.  The first is short and stays as it is,
    the second is compressed: their members get different names, so neither is tagged, but the first
    steps of both chains, the AppleDouble merges, are recorded under the same name and order, and the
    unique index refuses the second file for as long as the bundle is open. *)
Lemma transform_names_collide :
  let o1 := demo_enqueue (funnel_cat held) demo_tree "in/one/x.mov" "b1" in
  let o2 := demo_enqueue (staged_cat o1) o1.1 "in/two/x.mov" "b2" in
  (∃ a, o1.2 = Staged (staged_cat o1) a ∧ st_stored_member_path a = "x.mov" ∧ st_bundle_id a = Some "b1") ∧
  o2.2 = Failed (StagingBundle BundleIntegrityError).
Proof.
  cbn zeta. split; [|vm_compute; reflexivity].
  set (o1 := demo_enqueue _ _ _ _).
  assert (H : match o1.2 with
              | Staged _ a => st_stored_member_path a = "x.mov" ∧ st_bundle_id a = Some "b1"
              | _ => False
              end) by (vm_compute; by split).
  unfold staged_cat. destruct (o1.2) as [k a| |]; [|done..]. by exists a.
Qed.

Lemma no_race : race_ok (λ k, k).
Proof.
  intros k Hok. split_and!; [done|done|]. intros id b Hb Ho. split; [by exists b|]. intros i m Hm _. by exists m.
Qed.

Definition demo_asset_cat : Cat := ensure_asset (funnel_cat held) (padded "much longer") 11 5.

Lemma demo_asset_ok : bundles_ok demo_asset_cat.
Proof. constructor; cbn; try done; intros *; by rewrite lookup_empty. Qed.

Lemma staged_chain_recorded_witness :
  ∃ a k2 a' ap, length (st_transforms a') = 2%nat ∧ recorded_as a a' (ap_member ap) ∧
    reverse_transforms padded unpacked (packed 3 "much longer") (member_transforms k2 (ap_member_id ap))
      = Ok ("much longer", padded "much longer", 11).
Proof.
  assert (Hok : match demo_stage "in/two/x.mov" demo_tree with
    | (t', Ok a) =>
        match enqueue_artifact (λ _, "") (λ _, "") (λ s, s) demo_asset_cat (λ k, k) (λ _ k, k) staging_record
                (stage_request padded (λ _, "") "masters" None a (packed 3 "much longer")) "b1" 5 with
        | Ok (k', id, ap) =>
            ap_created ap && bool_decide (file_at t' (st_staged_path a) = Some (packed 3 "much longer")) &&
            bool_decide (size (t_rows (transforms k')) = 0%nat) &&
            match record_staged k' "masters" a ap with
            | Ok (_, a') => (length (st_transforms a') =? 2)%nat
            | Err _ => false
            end
        | Err _ => false
        end
    | _ => false
    end = true) by (vm_compute; reflexivity).
  destruct (demo_stage "in/two/x.mov" demo_tree) as [t' [a|e]] eqn:E; [|discriminate Hok].
  destruct (enqueue_artifact _ _ _ _ _ _ _ _ _ _) as [[[k' id] ap]|e] eqn:En in Hok; [|discriminate Hok].
  apply andb_true_iff in Hok as [Hok Hlen]. apply andb_true_iff in Hok as [Hok Ht].
  apply andb_true_iff in Hok as [Hcr Hf]. apply bool_decide_eq_true in Hf. apply bool_decide_eq_true in Ht.
  apply map_size_empty_inv in Ht.
  assert (Htab : tbl_ok (transforms k')) by (unfold tbl_ok; rewrite Ht; intros i v; by rewrite lookup_empty).
  assert (Hnone : member_transforms k' (ap_member_id ap) = [])
    by (unfold member_transforms, tbl_list; rewrite Ht; reflexivity).
  pose proof (staged_chain_recorded padded (λ _, "") packed unpacked "1.0" (λ _ _, false) (λ _ _, false) (λ _, true)
    (λ _ _, true) (λ _, "") (λ s, s) (split_on "/") (λ _, "") packed_inverse "in/two/x.mov" ["stage"] staging_demo
    (Some "x.mov") demo_tree t' a (packed 3 "much longer") demo_asset_cat (λ k, k) (λ _ k, k) staging_record "masters"
    None "b1" 5 k' id ap padded_hash (λ _, eq_refl) no_race (λ _, no_race) demo_asset_ok E Hf En Hcr Htab Hnone) as H.
  destruct (record_staged k' "masters" a ap) as [[k2 a']|e]; [|discriminate Hlen].
  destruct H as (Hrec & _ & source & Hsource & Hrev). exists a, k2, a', ap.
  split; [by apply Nat.eqb_eq|]. split; [exact Hrec|]. clear -Hsource Hrev. vm_compute in Hsource.
  injection Hsource as <-. exact Hrev.
Defined.

(** ** A policy document *)

Definition demo_document (target_gb : toml) (globs : toml) : dict toml :=
  [("ruleset", TStr "rules.toml"); ("placements", TList [TTable [("pool", TStr "disk")]]);
   ("bundling", TTable [("target_gb", target_gb); ("max_age", TStr "48h")]);
   ("restore", TTable [("preference", TStr "disk")]); ("expect", TStr "messy");
   ("staging", TTable [("compression", TTable [("codec", TStr "zstd"); ("level", TInt 3); ("globs", globs)])]);
   ("durability", TTable [("min_copies", TInt 1); ("min_impl_families", TInt 1)])].

Definition demo_policy (target_gb globs : toml) : ArtifactClassPolicy :=
  match parse_artifactclass_policy (demo_document target_gb globs) with
  | Ok p => p
  | Err _ => {| po_ruleset := ""; po_placements := [];
                po_bundling := {| bp_target_gb := S754_nan; bp_max_age_seconds := 0 |};
                po_restore_preference := []; po_expect := ""; po_staging := default_staging;
                po_hdcache := default_hdcache; po_durability := default_durability |}
  end.

Definition demo_apply (target_gb : toml) : result PolicyError Cat :=
  apply_artifactclass_policy (λ s, s) (λ _, None) None (funnel_cat held) "masters" (demo_policy target_gb (TList []))
    None (Some "text").

Lemma demo_parses target_gb globs :
  is_ok (parse_artifactclass_policy (demo_document target_gb globs)) = true →
  parse_artifactclass_policy (demo_document target_gb globs) = Ok (demo_policy target_gb globs).
Proof. unfold demo_policy. by destruct (parse_artifactclass_policy _). Qed.

Lemma apply_policy_sound_witness :
  ∃ k' r, demo_apply (TInt 50) = Ok k' ∧ policies k' !! "masters" = Some r ∧ pr_target_bytes r = 50 * 2 ^ 30 ∧
    floors_writable k' "masters" r.
Proof.
  destruct (demo_apply (TInt 50)) as [k'|e] eqn:E; [|vm_compute in E; discriminate E].
  destruct (apply_policy_sound (λ s, s) (λ _, None) None "masters" (funnel_cat held) (demo_document (TInt 50) (TList []))
    (demo_policy (TInt 50) (TList [])) None (Some "text") k') as (_ & _ & r & Hr & _ & _ & Ht & Hf & _);
    [apply demo_parses; vm_compute; reflexivity|exact E|].
  exists k', r. split_and!; [done|exact Hr| |exact Hf].
  assert (Hb : target_bytes (po_bundling (demo_policy (TInt 50) (TList []))) = Ok (50 * 2 ^ 30)) by (vm_compute; reflexivity).
  rewrite Hb in Ht. by injection Ht.
Defined.


(** The size check of a policy document does not hold what it accepts.  A positive target below one
    byte is applied and recorded as zero, and from then on no accumulator of the class can open; an
    infinite or undefined target passes the parse and makes the apply fail outside the policy errors. *)
Lemma target_size_unchecked :
  (∃ k' r, demo_apply (TFloat (S754_finite false (2 ^ 52) (-92))) = Ok k' ∧ policies k' !! "masters" = Some r ∧
     pr_target_bytes r = 0 ∧
     effective_group_thresholds k' "masters" r (compute_bundle_group (λ s, s) k' "masters").1
       (compute_bundle_group (λ s, s) k' "masters").2 = Err ZeroThresholds) ∧
  ∀ f, f ∈ [S754_infinity false; S754_nan] →
    is_ok (parse_artifactclass_policy (demo_document (TFloat f) (TList []))) = true ∧
    demo_apply (TFloat f) = Err PolicyFloatError.
Proof.
  split.
  - destruct (demo_apply (TFloat (S754_finite false (2 ^ 52) (-92)))) as [k'|e] eqn:E; [|vm_compute in E; discriminate E].
    vm_compute in E. injection E as <-. eexists _, _. split; [reflexivity|]. split; [vm_compute; reflexivity|].
    split; vm_compute; reflexivity.
  - intros f Hf. repeat (apply elem_of_cons in Hf as [->|Hf]; [split; vm_compute; reflexivity|]).
    by apply elem_of_nil in Hf.
Qed.
