(* ===== verification/EnqueueWitnesses.v ===== *)
(** * A concrete enqueue batch, and catalogs for the copy and derivation domains

    An intake of two files whose scan reports that one directory is excluded; both runs end with the
    other file in a bundle. *)

From Stdlib Require Import Ascii.
From S2P Require Import Prelude Json JobModels Catalog RetryConfig Scrub BundleGroup Accumulator AccumulatorFacts.
From S2P Require Import Profiles Policy AppleDouble Staging StagingWitnesses ArchiveWitnesses RetentionWitnesses.
From S2P Require Import Submission ArchiveEnqueue ArchiveEnqueueFacts.

Definition tree_item (content name : string) : IngestItem := {|
  ii_intake_id := "i1"; ii_logical_asset_hash := padded content; ii_artifactclass := "masters";
  ii_size_bytes := Z.of_nat (String.length content); ii_as_received_path := name; ii_item_metadata := [];
  ii_disposition := NEW |}.

Definition batch_cat : Cat :=
  with_policies {["masters" := staging_record]}
    (with_items {| t_rows := <[1 := tree_item "clip" "day1/a.mov"]> {[2 := tree_item "draft" "proxies/a.mov"]};
                   t_next := 3 |} (funnel_cat held)).

Definition data_dir : list string := [""; "srv"; "landing"; "i1"; "data"].

Definition batch_tree : Tree :=
  <[data_dir := SDir]>
    (<[data_dir ++ ["day1"; "a.mov"] := SFile "clip" ∅]> {[data_dir ++ ["proxies"; "a.mov"] := SFile "draft" ∅]}).

Definition slashed : list string → string := FanoutMap.join "/".

Definition demo_host : Host := {|
  h_rem_bin_env := Some "/opt/rem"; h_which := λ _, None; h_expanduser := λ s, s;
  h_executable := λ p, bool_decide (p = "/opt/rem"); h_home := "/root" |}.

Definition demo_rem (command : list string) : Completed :=
  {| cp_returncode := if bool_decide (command =
       ["/opt/rem"; "archive"; "build"; "--scan-only"; "--inputs"; "/srv/landing/i1/data"]) then 0 else 2;
     cp_stdout := ["scanning"; "{report}"] |}.

Definition demo_report (line : string) : option json :=
  if bool_decide (line = "{report}")
  then Some (JObj [("scan", JObj [("clusters", JList [JObj [("prefix", JStr "proxies/"); ("reason", JStr EXCLUDE_REASON);
                                                            ("count", JInt 1); ("bytes", JInt 5)]])])])
  else None.

Definition demo_env (n : nat) : AppendEnv := {|
  ae_mint_race := λ k, k; ae_race := λ _ k, k; ae_fresh := if decide (n = 0%nat) then "b1" else "b2"; ae_now := 5 |}.

Lemma quiet_env n : env_grows (demo_env n).
Proof. split; [|intros i]; (split; [apply no_race|done]). Qed.

Lemma batch_cat_ok : bundles_ok batch_cat.
Proof. constructor; cbn; try done; intros *; by rewrite lookup_empty. Qed.

Lemma batch_cat_ids : tbl_ok (exclusions batch_cat).
Proof. intros i x. cbn. by rewrite lookup_empty. Qed.

Definition demo_intake_batch :=
  enqueue_intake_batch padded (λ _, "") packed "1.0" (λ _ _, false) (λ _ _, false) (λ _, true) (λ _ _, true)
    (λ _, "") (λ s, s) (split_on "/") slashed demo_host demo_rem demo_report (λ _, "") (λ _, None) batch_cat batch_tree
    (λ _, demo_env) "i1" None None.


Lemma intake_batch_complete_witness :
  ∃ k' rs, demo_intake_batch.2 = BatchDone k' rs ∧ length rs = 1%nat ∧
    ∃ r, r ∈ rs ∧ br_artifactclass r = "masters" ∧ routed slashed k' (tree_item "clip" "day1/a.mov") r.
Proof.
  assert (Hlen : match demo_intake_batch.2 with BatchDone _ rs => length rs | _ => 0%nat end = 1%nat)
    by (vm_compute; reflexivity).
  assert (Hin : tree_item "clip" "day1/a.mov" ∈ intake_items batch_cat "i1") by (vm_compute; left).
  destruct demo_intake_batch as [t' [k' rs|k' s|e]] eqn:E; [|discriminate Hlen..]. cbn in Hlen.
  destruct (intake_batch_complete padded (λ _, "") packed "1.0" (λ _ _, false) (λ _ _, false) (λ _, true) (λ _ _, true)
    (λ _, "") (λ s, s) (split_on "/") slashed demo_host demo_rem demo_report (λ _, "") (λ _, None) batch_cat batch_tree
    (λ _, demo_env) "i1" None None t' k' rs (λ _, quiet_env) batch_cat_ok batch_cat_ids E) as [_ Hall].
  exists k', rs. split; [reflexivity|]. split; [exact Hlen|]. apply (Hall _ Hin).
Defined.


(** ** The copy and derivation domains *)

From S2P Require Import Prelude Json JobModels Catalog Leases RetryConfig Conditions Engine.
From S2P Require Import EngineFacts Spine SpineFacts Durability Profiles Novelty Retention RetentionGateFacts.
From S2P Require Import CopyReconciler DerivationReconciler DomainFacts ScrubFacts ArchiveWitnesses RetentionWitnesses.




(** A clip whose content is durable already, received again in an intake that asks for proxies *)
Definition known_item : IngestItem := {|
  ii_intake_id := "i1"; ii_logical_asset_hash := hash_a; ii_artifactclass := "s-masters";
  ii_size_bytes := 10; ii_as_received_path := "x.mov"; ii_item_metadata := [];
  ii_disposition := KNOWN_DURABLE |}.

Definition proxy_intake : Intake := {|
  in_artifactclass := "s-masters"; in_status := REGISTERED; in_retention_state := HELD;
  in_released_at := None; in_staging_deleted_at := None;
  in_manifest_path := Some "/srv/landing/i1/manifest.json"; in_manifest_digest := Some "m";
  in_requested_profile := Some "proxy-review"; in_release_policy_fingerprint := None;
  in_staging_tombstoned_at := None; in_staging_tombstone_path := None |}.

Definition known_data : Database := {|
  cat := with_policies {["s-masters" := masters_policy 1]}
           (with_acpools {[("s-masters", "disk") := membership 1]}
              (with_items {| t_rows := {[1 := known_item]}; t_next := 2 |} (funnel_cat proxy_intake)));
  jobs := empty_jobdb |}.

Definition derivation_registry : gmap string Reconciler :=
  {[DERIVATION_DOMAIN := derivation_reconciler true (λ _, true) "/cache"]}.

Lemma known_forgotten : forgotten known_data 1 known_item proxy_intake transcode_entry.
Proof.
  constructor; try (vm_compute; reflexivity).
  - split; intros i x; cbn; by rewrite lookup_empty.
  - exists "proxy-review", [transcode_entry]. split_and!; [reflexivity|done|vm_compute; reflexivity|left].
Qed.

Definition known_pass := reconcile (λ _, "") (λ _, "unknown") derivation_registry known_data DERIVATION_DOMAIN 10 None 10 1 2
  (λ _, 3) (λ _, (4, 5)).

Definition known_gate (d : Database) := local_gate_status (λ s, s) (λ _, "") d "i1" proxy_intake ∅ true 1 9.

Lemma suppressed_work_blocks_release_witness :
  ∃ d' n st, known_pass = Ok (d', n) ∧ known_gate d' = Ok st ∧
    ig_holds st = ["derivation:derivation:1:transcode:missing-condition"] ∧ ig_releasable st = false.
Proof.
  assert (Hok : match known_pass with
    | Ok (d', _) => match known_gate d' with
                    | Ok st => bool_decide (ig_holds st = ["derivation:derivation:1:transcode:missing-condition"])
                    | Err _ => false
                    end
    | Err _ => false
    end = true) by (vm_compute; reflexivity).
  destruct known_pass as [[d' n]|] eqn:Ep; [|discriminate Hok].
  destruct (known_gate d') as [st|] eqn:Eg; [|discriminate Hok]. apply bool_decide_eq_true in Hok.
  exists d', n, st. split; [reflexivity|]. split; [exact Eg|]. split; [exact Hok|].
  apply (suppressed_work_blocks_release true (λ _, true) "/cache" (λ _, "") (λ _, "unknown") derivation_registry
    eq_refl (λ s, s) (λ _, "") known_data d' 1 known_item proxy_intake transcode_entry ∅ 1 9 st
    known_forgotten); [|exact Eg].
  apply rtc_once. exists 10%nat, None, 10%nat, 1, 2, (λ _, 3), (λ _, (4, 5)), n. exact Ep.
Defined.
