(* ===== verification/ReceiveWitnesses.v ===== *)
(** * Bags and receives: concrete inputs

    The theorems of [BagFacts] and [BagWriteFacts] at a concrete bag, those of [ReceiveFacts] and [Landing]
    at the receive of a card of two files and at a landing root, and what the text layer does that its
    authors may not intend. *)

From Stdlib Require Import Ascii Strings.Byte.
From stdpp Require Import pretty.
From S2P Require Import Prelude Json JsonText JobModels Catalog MemberName Scrub Accumulator FanoutMap Profiles.
From S2P Require Import NamingFacts FanoutMapFacts RetentionFs BagIt Bag Receive BagItFacts BagFacts.
From S2P Require Import BagWriteFacts ReceiveFacts Landing Engine Durability Intake IntakeFacts.

(** ** A digest that tells a few contents apart *)

Definition repeat_char (c : ascii) (n : nat) : string := String.string_of_list_ascii (repeat c n).

Definition toy_digest (c : bytes) : string :=
  if decide (c = "one") then repeat_char "1" 64
  else if decide (c = "two") then repeat_char "2" 64
  else if decide (c = "bad") then repeat_char "b" 64
  else if decide (c = "") then repeat_char "e" 64
  else repeat_char "0" 64.

Lemma toy_digest_hex c : hex_digest (toy_digest c) = true ∧ lower (toy_digest c) = toy_digest c.
Proof. unfold toy_digest. by repeat case_decide. Qed.

Definition info (count : nat) (total : Z) : BagInfo := {|
  bi_date := "2026-01-02"; bi_intake_id := "20260102-op-1"; bi_source_kind := "card"; bi_operator := "op";
  bi_source_ref := None; bi_artifactclass := "camera-original"; bi_label := Some "Card 1";
  bi_file_count := count; bi_total_bytes := total; bi_skipped_count := 0 |}.

Definition RECEIVE_PACKAGE : string := "sutradhara-receive/0.1.0".
Definition PROFILE_HASH : string := repeat_char "a" 64.

Local Abbreviation check_bag :=
  (validate_bag id id toy_digest (λ _, None) (λ _, "") RECEIVE_PACKAGE PROFILE_HASH).

Definition write_bag (fs : Fs) (root : path) (files : list (string * bytes)) : result ReceiveError Fs :=
  write_bagit_files id toy_digest fs root (payload_entries toy_digest files)
    (bag_info_metadata RECEIVE_PACKAGE PROFILE_HASH (info (length files) (payload_bytes files))) [].

(** ** A bag of two files *)

Definition card : Fs := list_to_map
  [(["bag"], NDir); (["bag"; "data"], NDir); (["bag"; "data"; "a"], NDir);
   (["bag"; "data"; "a"; "x"], NFile "one"); (["bag"; "data"; "y"], NFile "two")].

Definition card_files : list (string * bytes) := [("a/x", "one"); ("y", "two")].

Definition card_bag : Fs := match write_bag card ["bag"] card_files with Ok fs => fs | Err _ => ∅ end.

Lemma ok_value {E A} (r : result E A) a : is_ok r = true → r = Ok (match r with Ok b => b | Err _ => a end).
Proof. by destruct r. Qed.

Lemma card_real : real_dir card ["bag"].
Proof.
  split; [|split; [by apply (bool_decide_unpack _)|apply Nat.ltb_lt; vm_compute; reflexivity]].
  intros q Hq [k Hk]. destruct q as [|n q]; [done|]. injection Hk as <- Hk.
  destruct q; [reflexivity|discriminate Hk].
Qed.

Lemma card_file f : f ∈ card_files → f = ("a/x", "one") ∨ f = ("y", "two").
Proof. unfold card_files. rewrite !elem_of_cons. intros [->|[->|H]]; [auto..|by apply elem_of_nil in H]. Qed.

Lemma card_names f :
  f ∈ card_files → member_relpath id f.1 ∧ utf8_decodes f.1 = true ∧ one_line f.1.
Proof.
  intros [->| ->]%card_file;
    (split; [split; vm_compute; reflexivity|]); (split; [vm_compute; reflexivity|]);
    apply (bool_decide_unpack _); vm_compute; exact I.
Qed.

Lemma written_bag_valid_witness :
  ∃ fs v, write_bag card ["bag"] card_files = Ok fs ∧ check_bag fs ["bag"] = Ok v ∧ valid v = true.
Proof.
  apply (written_bag_valid id id toy_digest (λ _, None) (λ _, "") RECEIVE_PACKAGE PROFILE_HASH toy_digest_hex
    eq_refl eq_refl card ["bag"] card_files (info 2 6)).
  - exact card_real.
  - apply Nat.ltb_lt. vm_compute. reflexivity.
  - repeat constructor; intros H; vm_compute in H; discriminate H.
  - reflexivity.
  - reflexivity.
  - vm_compute. reflexivity.
  - constructor; [by apply (bool_decide_unpack _)|exact card_names|reflexivity|reflexivity|].
    repeat constructor; apply (bool_decide_unpack _); vm_compute; exact I.
Defined.

Definition report (fs : Fs) (root : path) : BagValidationResult :=
  match check_bag fs root with
  | Ok v => v
  | Err _ => {| bv_metadata := []; bv_manifest := []; bv_actual := []; bv_actual_records := []; bv_missing := [];
                bv_extra := []; bv_mismatched := []; bv_tag_mismatched := []; bv_errors := [MissingDataDirectory] |}
  end.

Lemma report_valid fs root : valid (report fs root) = true → check_bag fs root = Ok (report fs root).
Proof. unfold report. by destruct (check_bag fs root). Qed.

Lemma card_unambiguous : unambiguous id card_files.
Proof.
  assert (Ha : canonicalize_manifest_path id "a/x" = Ok "a/x") by (vm_compute; reflexivity).
  assert (Hy : canonicalize_manifest_path id "y" = Ok "y") by (vm_compute; reflexivity).
  intros f f' key Hf Hf'. apply card_file in Hf as [->| ->]; apply card_file in Hf' as [->| ->]; cbn [fst]; congruence.
Qed.

Lemma valid_report fs root : valid (report fs root) = true → ∃ v, check_bag fs root = Ok v ∧ valid v = true.
Proof. intros H. exists (report fs root). split; [by apply report_valid|done]. Qed.

(** A property of a valid report that can be decided. *)
Lemma report_spec (P : BagValidationResult → Prop) `{!∀ v, Decision (P v)} fs root :
  valid (report fs root) && bool_decide (P (report fs root)) = true →
  ∃ v, check_bag fs root = Ok v ∧ valid v = true ∧ P v.
Proof.
  intros [Hv HP]%andb_true_iff. exists (report fs root). split; [by apply report_valid|]. split; [done|].
  by apply bool_decide_eq_true_1 in HP.
Qed.

Lemma card_report : ∃ v, check_bag card_bag ["bag"] = Ok v ∧ valid v = true.
Proof.
  apply (valid_report card_bag ["bag"]). vm_compute. reflexivity.
Qed.

Lemma card_payload : payload_files id id true (rglob card_bag (["bag"] ++ [DATA_DIR_NAME])) = Ok card_files.
Proof. vm_compute. reflexivity. Qed.

Lemma valid_bag_sound_witness :
  ∃ v p d key, valid v = true ∧ (p, d) ∈ bv_manifest v ∧ canonicalize_manifest_path id p = Ok key ∧
    canonicalize_manifest_path id "a/x" = Ok key ∧ lower d = lower (toy_digest "one").
Proof.
  destruct card_report as (v & Hr & Hv).
  destruct (valid_bag_sound id id toy_digest (λ _, None) (λ _, "") RECEIVE_PACKAGE PROFILE_HASH
    card_bag ["bag"] v card_files Hr Hv card_payload card_unambiguous) as [H _].
  destruct (H ("a/x", "one")) as (p & d & key & Hp); [apply list_elem_of_here|].
  exists v, p, d, key. split; [exact Hv|exact Hp].
Defined.

(** ** A payload directory named like the payload directory *)

Definition nested : Fs := list_to_map
  [(["bag"], NDir); (["bag"; "data"], NDir); (["bag"; "data"; "data"], NDir);
   (["bag"; "data"; "data"; "x"], NFile "two"); (["bag"; "data"; "x"], NFile "one")].

Definition nested_files : list (string * bytes) := [("data/x", "two"); ("x", "one")].

Definition nested_bag : Fs := match write_bag nested ["bag"] nested_files with Ok fs => fs | Err _ => ∅ end.

Definition corrupt_bag : Fs := <[["bag"; "data"; "data"; "x"] := NFile "bad"]> nested_bag.

(** A corruption below a payload directory named [data] that validation does not see.  The
    canonical form of [data/x] is that of [x]: in a bag written for the payload files [data/x] and
    [x], the two share one manifest entry, and after the content of [data/x] was replaced the bag
    still validates although no manifest entry has the digest of the new content. *)
Example nested_data_unprotected :
  write_bag nested ["bag"] nested_files = Ok nested_bag ∧
  ∃ v, check_bag corrupt_bag ["bag"] = Ok v ∧ valid v = true ∧
    dget "data/x" (bv_actual v) = Some (toy_digest "bad") ∧ toy_digest "bad" ∉ (bv_manifest v).*2.
Proof.
  split; [apply ok_value; vm_compute; reflexivity|].
  apply (report_spec (λ v, dget "data/x" (bv_actual v) = Some (toy_digest "bad") ∧
    toy_digest "bad" ∉ (bv_manifest v).*2)). vm_compute. reflexivity.
Qed.

(** ** Other findings of the text layer *)

(** An escaped parent reference is a path component after unescaping. *)
Lemma escaped_parent_traverses :
  canonicalize_manifest_path id "data/../x" = Err ParentComponent ∧
  canonicalize_manifest_path id "data/\x2e\x2e/x" = Ok "../x" ∧
  canonicalize_manifest_path id "data/a/\x2fetc/x" = Ok "/etc/x".
Proof. vm_compute. done. Qed.

(** A line separator other than CR and LF is written as it stands and ends the line for the reader. *)
Lemma line_separator_splits_manifest :
  let name := char_of [97; 226; 128; 168; 98]%nat in
  canonicalize_filesystem_path id [name] = Ok name ∧
  (text ← bagit_manifest_text id [(name, toy_digest "one")]; read_manifest_sha256 id text) =
    Err (InvalidChecksumLine 2).
Proof. split; vm_compute; reflexivity. Qed.

(** The digest check skips white space. *)
Lemma blank_digest_accepted : is_sha256_hex (repeat_char " " 62 +:+ "00") = true.
Proof. vm_compute. reflexivity. Qed.

(** With an empty [bag-info.txt] none of the metadata checks is made. *)
Definition bare_bag : Fs :=
  match (fs ← atomic_write card ["bag"] BAGIT_NAME BAGIT_TEXT;
         fs ← atomic_write fs ["bag"] BAG_INFO_NAME "";
         manifest ← bagit_manifest_text id (payload_entries toy_digest card_files);
         fs ← atomic_write fs ["bag"] MANIFEST_NAME manifest;
         tags ← tagmanifest_text toy_digest fs ["bag"] BAG_TAG_FILES;
         atomic_write fs ["bag"] TAGMANIFEST_NAME tags) with Ok fs => fs | Err _ => ∅ end.

Lemma empty_metadata_unchecked :
  bv_metadata (report bare_bag ["bag"]) = [] ∧ valid (report bare_bag ["bag"]) = true ∧
  bv_actual (report bare_bag ["bag"]) = payload_entries toy_digest card_files.
Proof. vm_compute. done. Qed.

(** ** A card that is received *)

(** A card whose second file has the name [name], and a landing root. *)
Definition source_card (name : string) : Fs := list_to_map
  [(["card"], NDir); (["card"; "a"], NDir); (["card"; "a"; "x"], NFile "one"); (["card"; name], NFile "two");
   (["land"], NDir)].

(** A quiet source: every read sees the content on the card. *)
Definition quiet_read (fs : Fs) (n : nat) (p : path) : StatSnapshot * bytes * StatSnapshot :=
  let c := match fs !! p with Some (NFile c) => c | _ => "" end in
  let st := {| ss_size := Z.of_nat (String.length c); ss_mtime_ns := 7; ss_inode := 1; ss_device := 1 |} in
  (st, c, st).

Lemma quiet_consistent fs : stat_consistent (quiet_read fs).
Proof. intros n p before content after [= <- <- <-] _. reflexivity. Qed.

Definition card_request (blocking : bool) : Request := {|
  rq_source := Some ["card"]; rq_landing := ["land"]; rq_source_kind := "card"; rq_operator := "op";
  rq_source_ref := None; rq_artifactclass := "camera-original"; rq_label := Some "Card 1"; rq_resume := None;
  rq_blocking := blocking; rq_started := 7; rq_verified := 8; rq_date := "2026-01-02"; rq_prefix := "20260102-op"; rq_uuids := ["1"; "2"] |}.

Definition no_tar (fs : Fs) (p : path) (name : string) : result ReceiveFault (bytes * list json) := Err OsFault.

Definition receive_card (name : string) (blocking : bool) : Receiving * result ReceiveFault (Session * list FileReceipt) :=
  receive_source id id toy_digest (λ _, None) (λ _, "") (λ _, "{}") (λ _, "log") (λ _, "now")
    (quiet_read (source_card name)) no_tar RECEIVE_PACKAGE PROFILE_HASH (card_request blocking) "verified"
    {| rx_fs := source_card name; rx_reads := 0; rx_events := [] |}.

Definition received_disk (name : string) (blocking : bool) : Fs := rx_fs (receive_card name blocking).1.
Definition intake_dir : path := ["land"; "20260102-op-1"].

Lemma card_cases p node :
  source_card "y" !! p = Some node →
  (p = ["card"] ∧ node = NDir) ∨ (p = ["card"; "a"] ∧ node = NDir) ∨ (p = ["card"; "a"; "x"] ∧ node = NFile "one") ∨
  (p = ["card"; "y"] ∧ node = NFile "two") ∨ (p = ["land"] ∧ node = NDir).
Proof.
  unfold source_card. intros H%elem_of_list_to_map_2. rewrite !elem_of_cons in H.
  destruct H as [[= -> ->]|[[= -> ->]|[[= -> ->]|[[= -> ->]|[[= -> ->]|H]]]]]; [by eauto 10..|by apply elem_of_nil in H].
Qed.

Lemma source_card_wf : fs_wf (source_card "y").
Proof.
  intros p n Hp [node H]. apply card_cases in H as [[E _]|[[E _]|[[E _]|[[E _]|[E _]]]]];
    apply (f_equal (@removelast string)) in E; rewrite removelast_last in E; subst p; done || (vm_compute; reflexivity).
Qed.

Lemma source_card_real d : source_card "y" !! [d] = Some NDir → d ≠ ".." → real_dir (source_card "y") [d].
Proof.
  intros H Hd. split; [|split; [set_solver|apply Nat.ltb_lt; vm_compute; reflexivity]].
  intros q Hq [k Hk]. destruct q as [|n q]; [done|]. injection Hk as -> Hk. destruct q; [exact H|discriminate Hk].
Qed.

Lemma card_plain d rel :
  length d = 3%nat → rel = ["a"] ∨ rel = ["a"; "x"] ∨ rel = ["y"] → plain_source_path id id d rel.
Proof.
  intros Hd Hrel. unfold plain_source_path. rewrite Hd. split_and!.
  - split; [by destruct Hrel as [->|[->| ->]]|].
    destruct Hrel as [->|[->| ->]]; repeat constructor; (discriminate || reflexivity).
  - by destruct Hrel as [->|[->| ->]].
  - destruct Hrel as [->|[->| ->]]; apply (bool_decide_unpack _); vm_compute; exact I.
  - intros q k -> Hq. destruct Hrel as [E|[E|E]]; destruct q as [|? [|? [|? q]]]; simplify_eq/=; vm_compute; reflexivity.
  - destruct Hrel as [->|[->| ->]]; apply Nat.ltb_lt; vm_compute; reflexivity.
Qed.

Lemma card_request_plain blocking : plain_request id id (source_card "y") (card_request blocking) ["card"].
Proof.
  constructor; try reflexivity.
  - exact source_card_wf.
  - by apply source_card_real.
  - apply Nat.ltb_lt. vm_compute. reflexivity.
  - by apply source_card_real.
  - done.
  - intros rel node i Hne H. apply card_plain; [done|]. cbn [app] in H.
    apply card_cases in H as [[E _]|[[E _]|[[E _]|[[E _]|[E _]]]]]; simplify_eq; eauto.
  - repeat constructor; apply (bool_decide_unpack _); vm_compute; exact I.
  - intros u Hu. cbn [rq_uuids card_request] in Hu. rewrite !elem_of_cons in Hu.
    destruct Hu as [->|[->|Hu]]; [..|by apply elem_of_nil in Hu]; split;
      (apply (bool_decide_unpack _); vm_compute; exact I) || (vm_compute; reflexivity).
Qed.

Local Abbreviation receive_y :=
  (receive_source id id toy_digest (λ _, None) (λ _, "") (λ _, "{}") (λ _, "log") (λ _, "now")
     (quiet_read (source_card "y")) no_tar RECEIVE_PACKAGE PROFILE_HASH).
Local Abbreviation start := {| rx_fs := source_card "y"; rx_reads := 0; rx_events := [] |}.

Lemma card_received blocking : ∃ s sn receipts, receive_y (card_request blocking) "verified" start = (s, Ok (sn, receipts)).
Proof.
  assert (H : is_ok (receive_y (card_request blocking) "verified" start).2 = true)
    by (destruct blocking; vm_compute; reflexivity).
  destruct (receive_y (card_request blocking) "verified" start) as [s [[sn rs]|e]]; [by exists s, sn, rs|discriminate H].
Qed.

Lemma received_bag_valid_witness :
  ∃ s sn receipts, receive_y (card_request true) "verified" start = (s, Ok (sn, receipts)) ∧
    (∃ v, validate_bag id id toy_digest (λ _, None) (λ _, "") RECEIVE_PACKAGE PROFILE_HASH
            (rx_fs s) (sn_dir sn) = Ok v ∧ valid v = true) ∧
    ∃ copies files, copied_from (quiet_read (source_card "y")) (source_card "y") ["card"] copies ∧
      files ≡ₚ copied_file <$> copies ∧
      payload_files id id true (rglob (rx_fs s) (sn_dir sn ++ [DATA_DIR_NAME])) = Ok files.
Proof.
  destruct (card_received true) as (s & sn & receipts & Hr). exists s, sn, receipts. split; [exact Hr|].
  exact (received_bag_valid id id toy_digest (λ _, None) (λ _, "") (λ _, "{}") (λ _, "log") (λ _, "now")
    (quiet_read (source_card "y")) no_tar RECEIVE_PACKAGE PROFILE_HASH (quiet_consistent _) toy_digest_hex eq_refl eq_refl
    (card_request true) "verified" ["card"] start s sn receipts (card_request_plain true) Hr).
Defined.

(** A bag with a name that needs an escape that does not validate.  The file is stored under its escaped
    name, which the walk of the payload escapes again: receiving the source file [y\z] with deferred
    verification returns, and the bag it leaves misses the entry of its manifest and has another one;
    with blocking verification the receive of the intact source fails. *)
Example escaped_name_never_validates :
  is_ok (receive_card "y\z" false).2 = true ∧
  is_ok (receive_card "y\z" true).2 = false ∧
  received_disk "y\z" false !! (intake_dir ++ [DATA_DIR_NAME; "y\\z"]) = Some (NFile "two") ∧
  let v := report (received_disk "y\z" false) intake_dir in
  valid v = false ∧ bv_missing v = ["y\\z"] ∧ bv_extra v = ["y\\\\z"].
Proof. vm_compute. done. Qed.

(** ** A landing root with a stale, a fresh and a complete receive *)

Definition landing_demo : Fs := list_to_map
  [(["land"], NDir);
   (["land"; "old"], NDir); (["land"; "old"; ".receiving.json"], NFile "{}"); (["land"; "old"; "data"], NDir);
   (["land"; "new"], NDir); (["land"; "new"; ".receiving.json"], NFile "{}");
   (["land"; "whole"], NDir); (["land"; "whole"; ".receiving.json"], NFile "{}"); (["land"; "whole"; "intake.json"], NFile "{}")].

Definition demo_mtime (p : path) : Z := if decide (p = ["land"; "new"; ".receiving.json"]) then 90 else 0.

Lemma landing_demo_real : real_dir landing_demo ["land"].
Proof.
  split; [|split; [by apply (bool_decide_unpack _)|apply Nat.ltb_lt; vm_compute; reflexivity]].
  intros q Hq [k Hk]. destruct q as [|n q]; [done|]. injection Hk as <- Hk. destruct q; [reflexivity|discriminate Hk].
Qed.

Local Abbreviation sweep := (sweep_orphans demo_mtime (λ _, Complete) landing_demo ["land"] 24 100).

Lemma demo_sweep_Ok : ∃ fs, sweep = (fs, Ok [["land"; "old"]]).
Proof.
  assert (H : sweep.2 = Ok [["land"; "old"]]) by (vm_compute; reflexivity).
  revert H. generalize sweep. intros [fs r] H. exists fs. cbn [snd] in H. rewrite H. reflexivity.
Qed.

Lemma sweep_orphans_safe_witness :
  ∃ fs, sweep = (fs, Ok [["land"; "old"]]) ∧ fs !! ["land"; "old"; "data"] = None ∧
    fs !! ["land"; "whole"; "intake.json"] = Some (NFile "{}").
Proof.
  assert (Hlen : (length ["land"] + 9 < RESOLVE_STEPS)%nat) by (apply Nat.ltb_lt; vm_compute; reflexivity).
  destruct demo_sweep_Ok as [fs Hs]. exists fs. split; [exact Hs|].
  destruct (sweep_orphans_safe demo_mtime (λ _, Complete) 24 100 landing_demo ["land"] fs (Ok [["land"; "old"]])
    landing_demo_real eq_refl Hlen Hs) as (removed & cut & Hok & _ & Hgone & _ & _ & H).
  destruct (Hok _ eq_refl) as (<- & _ & _). split.
  - apply (Hgone ["land"; "old"]); [by left|by exists ["data"]].
  - rewrite (H "whole" "{}" ["land"; "whole"; "intake.json"]); [reflexivity|reflexivity|by exists ["intake.json"]].
Defined.

(** A removal that fails at the second entry leaves the sweep with a part of the directory. *)
Example demo_sweep_interrupted :
  let r := sweep_orphans demo_mtime (λ _, Interrupted (λ p, bool_decide (p ≠ ["land"; "old"; "data"]))) landing_demo ["land"] 24 100 in
  r.2 = Err OsFault ∧ r.1 = delete ["land"; "old"; "data"] landing_demo.
Proof. vm_compute. split; reflexivity. Qed.

(** ** The card that was received is registered *)

Definition toy_loads (c : bytes) : option json := if decide (c = "{}") then Some (JObj []) else None.

Definition empty_registry : Registry := {|
  rg_db := empty_database; rg_intakes := ∅; rg_items := ∅; rg_assets := ∅; rg_grpc := ∅; rg_intents := ∅; rg_claims := ∅ |}.

Definition card_args : RegisterArgs := {|
  ra_artifactclass := None; ra_cache_root := None; ra_cloud_backend := "cloud-temp"; ra_cloud_pool := "cloud-temp" |}.

Local Abbreviation receive_it :=
  (receive_source id id toy_digest toy_loads (λ _, "") (λ _, "{}") (λ _, "log") (λ _, "now")
     (quiet_read (source_card "y")) no_tar RECEIVE_PACKAGE PROFILE_HASH (card_request true) "verified" start).
Local Abbreviation register_in :=
  (register_intake id id toy_digest toy_loads (λ _, "") (λ _, "[]") (λ _, "now") RECEIVE_PACKAGE PROFILE_HASH
     None (λ _, "") 1 2 3).

(** The receive and the registration of its directory both return. *)
Lemma card_registered : ∃ s sn receipts r out,
  receive_it = (s, Ok (sn, receipts)) ∧ register_in (rx_fs s) id (sn_dir sn) card_args empty_registry = Ok (r, out) ∧
  ro_status out = REGISTERED.
Proof.
  assert (H : match receive_it with
              | (s, Ok (sn, _)) => match register_in (rx_fs s) id (sn_dir sn) card_args empty_registry with
                                   | Ok (_, out) => bool_decide (ro_status out = REGISTERED)
                                   | Err _ => false
                                   end
              | _ => false
              end = true) by (vm_compute; reflexivity).
  destruct receive_it as [s [[sn receipts]|e]]; [|discriminate H]. exists s, sn, receipts.
  destruct (register_in (rx_fs s) id (sn_dir sn) card_args empty_registry) as [[r out]|e]; [|discriminate H].
  exists r, out. split; [reflexivity|]. split; [reflexivity|]. by apply bool_decide_eq_true_1 in H.
Qed.

Lemma empty_items : tbl_ok (items (rcat empty_registry)) ∧ ∀ i, items_of (rcat empty_registry) i = [] ∧ intake_row empty_registry i = None.
Proof. split; [intros k v H; vm_compute in H; discriminate H|]. intros i. split; reflexivity. Qed.

Lemma received_source_registered_witness :
  ∃ s sn receipts r out, receive_it = (s, Ok (sn, receipts)) ∧
    register_in (rx_fs s) id (sn_dir sn) card_args empty_registry = Ok (r, out) ∧
    ro_status out = REGISTERED ∧ (ro_marker out).1 = VERIFIED_MARKER ∧
    ∃ copies, copied_from (quiet_read (source_card "y")) (source_card "y") ["card"] copies ∧
      length (items_of (rcat r) (ro_intake_id out)) = length copies.
Proof.
  destruct card_registered as (s & sn & receipts & r & out & Hrecv & Hreg & _).
  exists s, sn, receipts, r, out. split; [exact Hrecv|]. split; [exact Hreg|].
  destruct empty_items as [Hok Hnone].
  destruct (received_source_registered id id toy_digest toy_loads (λ _, "") (λ _, "{}") (λ _, "[]") (λ _, "now")
    RECEIVE_PACKAGE PROFILE_HASH None (λ _, "") 1 2 3 (λ _, "log") (quiet_read (source_card "y")) no_tar (quiet_consistent _)
    toy_digest_hex eq_refl eq_refl (card_request true) "verified" ["card"] start s sn receipts id card_args empty_registry r out
    (card_request_plain true) Hrecv Hok (proj1 (Hnone (ro_intake_id out)))) as (H1 & H2 & copies & H3 & H4 & _).
  - intros row Hrow. rewrite (proj2 (Hnone (ro_intake_id out))) in Hrow. discriminate Hrow.
  - exact Hreg.
  - split; [exact H1|]. split; [exact H2|]. exists copies. split; [exact H3|exact H4].
Defined.

